(* ===== verification/_CoqProject ===== *)
-Q . S2P
Prelude.v
I8259.v
I8254.v
Pcspk.v
Wire.v
NetblockServer.v
NetblockClient.v
I8042.v
Doubles.v
Fpu.v
FpuStack.v
I386.v
I386Alu.v
I386Shift.v
I386Mul.v
I386Mmu.v
I386Paging.v
I386Mem.v
I386String.v
I386Fpu.v
I386Rep.v
I386Data.v
I386Far.v
I386Priv.v
I386Boot.v
I386Exec.v
I386Typed.v
I386TypedMem.v
I386TypedRun.v
I386TypedFpu.v
I386TypedExec.v
I8257.v
Pci.v
Uart.v
Cmos.v
Files.v
Emulink.v
Ide.v
Atapi.v
IdePort.v
IdeHd.v
IdeFile.v
IdeDisk.v
Ne2000.v
