(* ===== verification/Prelude.v ===== *)
(** * A verification library of WiNspire

    WiNspire (src/) runs a PC emulator on a TI-Nspire calculator and lets it use a
    disk that a server on another machine holds.  This library models parts of it
    as executable functions and proves what they promise.

    ** The parts and how they interact

    - The 8259 interrupt controllers (winspire/i8259.c), file [I8259]: a master and
      a slave [PicState] in a [PicState2], with the request, acknowledge and
      end-of-interrupt operations and the register ports.  Devices reach it through
      the class [IrqSink] of this file, so that the theorems of a device hold for
      any controller that satisfies [IrqSinkLaws]; [I8259] is an instance.
    - The 8254 timer (winspire/i8254.c), file [I8254]: three [PITChannelState]
      counters driven by a free-running microsecond clock, the class [Clock].
    - The PC speaker (winspire/pcspk.c), file [Pcspk]: the audio callback over the
      state of counter 2 of the timer.
    - The 8042 keyboard controller (winspire/i8042.c), file [I8042]: the controller,
      the PS/2 keyboard and the PS/2 mouse with their queues.
    - The 8257 DMA controllers (winspire/i8257.c), file [I8257]: channel registers,
      the run loop and the transfers with guest memory; a device is a transfer
      handler, the class [DmaClient].
    - The block protocol, files [Wire] (the 32-byte header, which both sides send as
      the bytes of a struct: [Wire] derives the offsets C gives its members from the two
      declarations, and the bytes from the offsets), [NetblockServer]
      (server/netblock_server.c) and [NetblockClient] (the netblk_ functions of
      winspire/ide.c).  Sockets, the image file, the wall clock and memory
      allocation are parameters (classes [SocketOps], [FileOps]); the theorem
      [client_is_disk] composes client and server.
    - The disk controller (winspire/ide.c): [Ide] has drives, sector addresses,
      transfers and the commands of a hard disk, [Atapi] the packet commands of a
      CD-ROM drive, [IdePort] the registers, data and control ports.  A block device
      is the class [BlockDevice]; [IdeHd] proves what the controller makes of one
      that keeps the promises [BlockDeviceLaws], [IdeFile] has the disk images on
      files with their read cache and discharges them, and [IdeDisk] attaches images
      and states the theorems.  [Files] has byte buffers and the streams of C.
    - The small devices of winspire/misc.c: [Uart], the serial port over a terminal,
      the class [Console]; [Cmos], clock, configuration memory and periodic
      interrupt; [Emulink], the port to the emulator with its floppy drives.
    - The network card (winspire/ne2000.c), file [Ne2000]: registers, the receive
      ring and the remote DMA port; the network is the class [Network].
    - The PCI bus and host bridge (winspire/pci.c), file [Pci]: configuration
      cycles, base address registers and the mapping of the display memory; what a
      mapping does to the rest of the machine is the class [BarClient].
    - The 386 interpreter (winspire/i386.c, i386ins.def): [I386] has the CPU state
      and the lazily computed flags, [I386Alu], [I386Shift] and [I386Mul] the
      arithmetic instructions, [I386Mmu] paging, segmentation, guest memory accesses
      and instruction fetch, [I386Paging] the proof that the cached translation is
      the architecture's page walk, [I386Mem] loads and stores over two pages,
      [I386String] the string instructions and loops, and [I386Rep] the proof that
      the runs of a repeated store are its single elements.  [I386Data] has moves,
      the stack, near jumps and the system instructions, [I386Far] far transfers,
      interrupt delivery and task switches, [I386Fpu] the floating-point
      instructions, [I386Priv] the proofs about privilege
      levels, [I386Boot] the boot loops that run natively, and [I386Exec] the tables
      of the decoder, the dispatch loop and [cpui386_step].  [I386Typed],
      [I386TypedMem], [I386TypedRun], [I386TypedFpu] and [I386TypedExec] prove that all
      of it keeps machine words machine words.  What the CPU calls is in classes:
      [IoMem] for memory of devices, [IoPorts] for ports, [CpuEnv] for the interrupt
      controller and the host clock.
    - The floating-point unit (winspire/fpu.c): [Fpu] has its registers with their
      lazy 80-bit images, the conversions and the arithmetic, [FpuStack] the proof that
      the registers are a stack of numbers, [I386Fpu] the instructions.  [Doubles] has
      the [double] of C as a bit pattern with the IEEE operations; what C leaves to
      the host, the choice of a NaN and the functions of <math.h>, is the class
      [HostMath].

    ** How code is represented

    A C integer is a [Z] with its wrap-around written where the code stores or
    casts.  A function on a device is a function of its record in [ST], state
    passing with the result [outcome]: [Done], or [Stuck] with the [fault] C leaves
    undefined or aborts on (an access out of bounds, a division by zero, an
    unsuitable shift, signed overflow, a failed assertion).  A CPU function that
    returns false after recording an exception is a value of [Exc].  Definitions
    keep the C names; a loop of the C code is a [Fixpoint], with fuel where it is
    not structural.  Fuel only bounds runs, and a theorem states for each such loop
    that the fuel given is enough: the speaker callback ([pcspk_gapless]), server
    sessions ([client_session_ends]: one round per 32 bytes the peer sends),
    transfers of client and server (one round per byte), the repeated string
    instructions (one round per element, part of [rep_stos_elements]), the bit scans
    (the operand width), the DMA loop (part of [dma_delivers]) and a write to the
    terminal (one more try for each signal, part of [serial_stream]).  Nothing
    bounds the prefixes of an instruction in the code, and some instructions do not
    count as a step, so the interpreter has fuel of its own; running out of it is
    the fault [Diverges].

    The configuration modelled is the 32-bit little-endian calculator build: 1024
    TLB entries and the fast TLB (TINY386_ARM_FAST), single-threaded devices; the
    byte-wise generic versions of the physical loads and stores; the disk client
    with the default cache sizes of ide.c (release_config.h overrides some).

    ** What the theorems show

    - Safety: from power-on no sequence of port accesses and events gets the
      interrupt controllers, the timer, the keyboard controller, the PCI bridge or
      the disk controller with its hard disks stuck or out of their register widths
      ([i8259_reachable_safe], [pit_reachable_safe], [kbd_reachable_shown],
      [pci_window], [disk_sessions]); the server survives any request bytes
      ([handle_request_safe]) and the client any socket ([client_memory_safe]).
    - Protection: far returns never go inward ([far_return_outward]), far jumps,
      calls and software interrupts never outward, and inward only through a gate
      that admits the caller ([far_call_inward], [software_interrupt_inward]); a
      well-formed CPU stays so whatever it runs, its FPU included
      ([words_stay_words]).
    - Refinement: the priority search of the 8259 is the abstract priority rule
      ([pic_get_irq_refines]); a request to the server has the effect of a
      specification on the disk ([handle_request_refines]); client and server
      together are an array of sectors ([client_is_disk]), and so is the disk
      controller over any block device ([ata_disk]); the software TLBs are the page
      walk ([translate_refines]); the tagged registers of the FPU are a stack of
      numbers and images ([register_file]).
    - Functional behaviour: interrupt delivery and acknowledge, timer pulses, the
      periodic interrupt of the clock, DMA transfers ([dma_delivers]), keyboard,
      mouse and serial streams, packets from one network card to another
      ([packet_crosses]), floppy and disk reads after writes, flushes, and the
      results and flags of the arithmetic instructions against unbounded integers
      ([binop_reference] and its companions); the wave of the speaker, sample by sample
      ([pcspk_gapless]); doubles through the 80-bit format ([f80_roundtrip]); repeated stores against single ones
      ([rep_stos_elements]).
    - Errors: the divide error ([div_reference], [idiv_reference]), page faults with
      their error codes ([translate_refines]).  What the code does wrong is stated as an example
      or a lemma next to the theorem it limits: accesses behind a buffer
      ([third_drive_out_of_bounds], [negative_length_overruns],
      [sector_minus_one_overruns], [ring_overrun]), a division by zero
      ([header_divides_by_zero]), a loop that does not end ([ring_never_ends]), lost and
      spurious interrupts ([silent_after_wrap], [rate_zero_floods]), a stale read
      through the prefetch window ([prefetch_stale_read]), wrong conversions of the FPU
      ([nan_to_infinity], [fbld_reads_backwards], [fbstp_nan], [fprem_overflows]).

    ** Not modelled

    - SIMD (winspire/simd.inc): off in both releases, as is the variant of fpu.c on
      the 80-bit floating point of an x87 host.
    - The machine (winspire/pc.c, main.c) beyond the PCI windows: it connects the
      devices, and its loops are those of the host.
    - VGA, Sound Blaster and OPL: drawing and sound synthesis; the configuration parser (winspire/ini.c) is a library.
    - The user interfaces (winspire/osd, winspire-ndless) and the calculator helpers
      (nspire/), which are mainly calls of the platform. *)

From Stdlib Require Export ZArith Lia Bool List.
From stdpp Require Export base decidable option list numbers relations.

#[global] Open Scope Z_scope.

(** * Machine integers

    A C integer is a [Z]; the width appears where the code stores or casts. *)

Definition u8 (z : Z) : Z := z mod 2 ^ 8.
Definition u16 (z : Z) : Z := z mod 2 ^ 16.
Definition u32 (z : Z) : Z := z mod 2 ^ 32.
Definition u64 (z : Z) : Z := z mod 2 ^ 64.

(** Two's complement reading of the low [w] bits: a cast to [intw_t]. *)
Definition sgn (w z : Z) : Z :=
  let r := z mod 2 ^ w in if r <? 2 ^ (w - 1) then r else r - 2 ^ w.
Definition s8 (z : Z) : Z := sgn 8 z.
Definition s16 (z : Z) : Z := sgn 16 z.
Definition s32 (z : Z) : Z := sgn 32 z.

(** C truth values. *)
Definition nz (z : Z) : bool := negb (z =? 0).
Definition b2z (b : bool) : Z := if b then 1 else 0.

(** [z] fits an unsigned field of [w] bits. *)
Definition inw (w z : Z) : Prop := 0 <= z < 2 ^ w.

#[export] Instance inw_dec w z : Decision (inw w z).
Proof. unfold inw. apply _. Defined.

(** * Outcomes of C code

    A run either finishes or gets stuck: on [abort ()], on an access outside
    an object, on a division by zero, on a shift by a negative amount or by the
    width or more, on a signed division that overflows, on a loop that never
    ends. *)

Inductive fault : Set :=
| Aborted
| OutOfBounds
| DivideByZero
| BadShift
| Overflow
| Diverges.

#[export] Instance fault_eq_dec : EqDecision fault.
Proof. solve_decision. Defined.

Inductive outcome (A : Type) : Type :=
| Done (a : A)
| Stuck (f : fault).
Arguments Done {A} a.
Arguments Stuck {A} f.

#[export] Instance outcome_ret : MRet outcome := @Done.
#[export] Instance outcome_bind : MBind outcome := fun A B f o =>
  match o with Done a => f a | Stuck e => Stuck e end.
#[export] Instance outcome_fmap : FMap outcome := fun A B f o =>
  match o with Done a => Done (f a) | Stuck e => Stuck e end.

Definition is_done {A} (o : outcome A) : Prop := exists a, o = Done a.

Lemma bind_done {A B} (o : outcome A) (k : A -> outcome B) b :
  (o ≫= k) = Done b -> exists a, o = Done a /\ k a = Done b.
Proof. destruct o; simpl; [eauto | discriminate]. Qed.

Lemma done_pair_inj {A B} (a a' : A) (b b' : B) :
  Done (a, b) = Done (a', b') -> a = a' /\ b = b'.
Proof. intros H. by simplify_eq. Qed.

Lemma bind_of_done {A B} (a : A) (k : A -> outcome B) : (Done a ≫= k) = k a.
Proof. reflexivity. Qed.

Lemma bind_assoc_outcome {A B C} (o : outcome A) (f : A -> outcome B) (g : B -> outcome C) :
  ((o ≫= f) ≫= g) = (o ≫= fun a => f a ≫= g).
Proof. by destruct o. Qed.

(** * Stateful, fallible code: a run takes the state and may get stuck. *)

Definition ST (S A : Type) : Type := S -> outcome (A * S).

#[export] Instance ST_ret S : MRet (ST S) := fun A a s => Done (a, s).
#[export] Instance ST_bind S : MBind (ST S) := fun A B f m s =>
  match m s with Done r => f r.1 r.2 | Stuck e => Stuck e end.

Definition lift {S A} (o : outcome A) : ST S A := fun s =>
  match o with Done a => Done (a, s) | Stuck e => Stuck e end.
Definition stuck {S A} (f : fault) : ST S A := fun _ => Stuck f.
Definition gets {S A} (f : S -> A) : ST S A := fun s => Done (f s, s).
Definition modify {S} (f : S -> S) : ST S unit := fun s => Done (tt, f s).

Lemma st_bind_done {S A B} (m : ST S A) (k : A -> ST S B) s a s' :
  m s = Done (a, s') -> (m ≫= k) s = k a s'.
Proof. intros H. unfold mbind, ST_bind. by rewrite H. Qed.

Lemma st_bind_inv {S A B} (m : ST S A) (k : A -> ST S B) s b s'' :
  (m ≫= k) s = Done (b, s'') -> exists a s', m s = Done (a, s') /\ k a s' = Done (b, s'').
Proof. unfold mbind, ST_bind. destruct (m s) as [[a s']|]; [eauto|discriminate]. Qed.

(** ** Total correctness of stateful code

    [run_to m s Q]: from [s], [m] finishes, and its result and final state
    satisfy [Q]. *)

Definition run_to {S A} (m : ST S A) (s : S) (Q : A -> S -> Prop) : Prop :=
  exists a s', m s = Done (a, s') /\ Q a s'.

Lemma run_ret {S A} (a : A) (s : S) (Q : A -> S -> Prop) : Q a s -> run_to (mret a) s Q.
Proof. intros H. exists a, s. done. Qed.
Lemma run_bind {S A B} (m : ST S A) (k : A -> ST S B) s (R : A -> S -> Prop) Q :
  run_to m s R -> (forall a s', R a s' -> run_to (k a) s' Q) -> run_to (m ≫= k) s Q.
Proof.
  intros (a & s' & E & HR) Hk. destruct (Hk a s' HR) as (b & s'' & E' & HQ).
  exists b, s''. by rewrite (st_bind_done _ _ _ _ _ E).
Qed.
(** The code [m'] that [m] is in the state [s]. *)
Lemma run_as {S A} (m m' : ST S A) (s : S) (Q : A -> S -> Prop) :
  m s = m' s -> run_to m' s Q -> run_to m s Q.
Proof. unfold run_to. by intros ->. Qed.
Lemma run_mono {S A} (m : ST S A) s (Q Q' : A -> S -> Prop) :
  run_to m s Q -> (forall a s', Q a s' -> Q' a s') -> run_to m s Q'.
Proof. intros (a & s' & E & H) Hq. exists a, s'. eauto. Qed.
Lemma run_gets {S A} (f : S -> A) (s : S) (Q : A -> S -> Prop) : Q (f s) s -> run_to (gets f) s Q.
Proof. intros H. exists (f s), s. done. Qed.
Lemma run_modify {S} (f : S -> S) (s : S) (Q : unit -> S -> Prop) :
  Q tt (f s) -> run_to (modify f) s Q.
Proof. intros H. exists tt, (f s). done. Qed.
Lemma run_lift {S A} (o : outcome A) (a : A) (s : S) (Q : A -> S -> Prop) :
  o = Done a -> Q a s -> run_to (lift o) s Q.
Proof. intros -> H. exists a, s. done. Qed.

(** Sequencing after a step whose result is known. *)
Lemma run_step {S A B} (m : ST S A) (k : A -> ST S B) s a s' Q :
  m s = Done (a, s') -> run_to (k a) s' Q -> run_to (m ≫= k) s Q.
Proof. intros E H. unfold run_to. by rewrite (st_bind_done _ _ _ _ _ E). Qed.
Lemma run_modify_then {S B} (f : S -> S) (k : unit -> ST S B) s Q :
  run_to (k tt) (f s) Q -> run_to (modify f ≫= k) s Q.
Proof. done. Qed.
Lemma run_gets_then {S A B} (f : S -> A) (k : A -> ST S B) s Q :
  run_to (k (f s)) s Q -> run_to (gets f ≫= k) s Q.
Proof. done. Qed.
Lemma run_ret_then {S A B} (a : A) (k : A -> ST S B) s Q :
  run_to (k a) s Q -> run_to (mret a ≫= k) s Q.
Proof. done. Qed.
Lemma run_lift_then {S A B} (o : outcome A) a (k : A -> ST S B) s Q :
  o = Done a -> run_to (k a) s Q -> run_to (lift o ≫= k) s Q.
Proof. by intros ->. Qed.

(** * Record update

    [s <| f := v |>] replaces one field.  A record type declares its
    eta-expansion once, as an instance of [Eta]; the setter of a projection is
    the eta-expansion with that projection abstracted out. *)

Class Eta (R : Type) := eta_record : R -> R.
Class Setter {R T : Type} (proj : R -> T) := set_field : (R -> T) -> R -> R.

Ltac derive_setter :=
  lazymatch goal with
  | |- @Setter ?R ?T ?proj =>
      let e := constr:(_ : Eta R) in
      let e := eval hnf in e in
      lazymatch eval pattern proj in e with
      | ?g _ => exact g
      end
  end.
#[export] Hint Extern 1 (Setter _) => derive_setter : typeclass_instances.

Declare Scope record_scope.
Delimit Scope record_scope with record.
#[global] Open Scope record_scope.
Notation "s <| f := v |>" := (@set_field _ _ f _ (fun _ => v) s)
  (at level 1, f at level 9, v at level 200, left associativity, format "s  <| f  :=  v |>") : record_scope.

(** * Bits *)

Lemma pow2_pos w : 0 <= w -> 0 < 2 ^ w.
Proof. intros. apply Z.pow_pos_nonneg; lia. Qed.

Lemma inw_bits w z : 0 <= w -> inw w z <-> 0 <= z /\ forall i, w <= i -> Z.testbit z i = false.
Proof.
  intros Hw. unfold inw. split.
  - intros [H0 H1]. split; [done|]. intros i Hi.
    rewrite <- (Z.mod_small z (2 ^ w)) by lia. apply Z.mod_pow2_bits_high; lia.
  - intros [H0 Hb]. split; [done|].
    destruct (Z.lt_ge_cases z (2 ^ w)) as [|Hge]; [done|exfalso].
    assert (0 < z) by (pose proof (pow2_pos w Hw); lia).
    assert (w <= Z.log2 z) by (apply Z.log2_le_pow2; lia).
    pose proof (Z.bit_log2 z ltac:(lia)) as Hl. rewrite Hb in Hl by lia. discriminate.
Qed.

Lemma inw_testbit_high w z i : inw w z -> 0 <= w <= i -> Z.testbit z i = false.
Proof. intros H Hi. apply inw_bits in H; [|lia]. apply H; lia. Qed.

(** Two [w]-bit values with the same [w] bits are equal. *)
Lemma bits_ext w a b :
  0 <= w -> inw w a -> inw w b ->
  (forall i, 0 <= i < w -> Z.testbit a i = Z.testbit b i) -> a = b.
Proof.
  intros Hw Ha Hb H. apply Z.bits_inj'. intros i Hi.
  destruct (Z.lt_ge_cases i w); [apply H; lia|].
  rewrite (inw_testbit_high w a), (inw_testbit_high w b) by (done || lia). done.
Qed.

Lemma inw_mod w z : 0 <= w -> inw w (z mod 2 ^ w).
Proof. intros. apply Z.mod_pos_bound, pow2_pos. done. Qed.
Lemma inw_u8 z : inw 8 (u8 z).
Proof. apply inw_mod. lia. Qed.
Lemma inw_u16 z : inw 16 (u16 z).
Proof. apply inw_mod. lia. Qed.
Lemma inw_u32 z : inw 32 (u32 z).
Proof. apply inw_mod. lia. Qed.
Lemma inw_u64 z : inw 64 (u64 z).
Proof. apply inw_mod. lia. Qed.

Lemma inw_mono w w' z : inw w z -> 0 <= w <= w' -> inw w' z.
Proof.
  unfold inw. intros [? ?] ?. split; [done|].
  pose proof (Z.pow_le_mono_r 2 w w' ltac:(lia) ltac:(lia)). lia.
Qed.
Lemma inw_land_l w a b : inw w a -> inw w (Z.land a b).
Proof.
  intros [H0 H1]. assert (0 <= w) by (destruct (Z.lt_ge_cases w 0); [|lia];
    rewrite Z.pow_neg_r in H1 by lia; lia).
  apply inw_bits; [done|]. split; [apply Z.land_nonneg; auto|].
  intros i Hi. rewrite Z.land_spec, (inw_testbit_high w a) by (split; done || lia). done.
Qed.
Lemma inw_land_r w a b : inw w b -> inw w (Z.land a b).
Proof. rewrite Z.land_comm. apply inw_land_l. Qed.
Lemma inw_nonneg_width w z : inw w z -> 0 <= w.
Proof.
  intros [? H1]. destruct (Z.lt_ge_cases w 0); [|lia]. rewrite Z.pow_neg_r in H1 by lia. lia.
Qed.
Lemma inw_lor w a b : inw w a -> inw w b -> inw w (Z.lor a b).
Proof.
  intros Ha Hb. pose proof (inw_nonneg_width w a Ha).
  apply inw_bits; [done|]. split; [apply Z.lor_nonneg; split; [apply Ha|apply Hb]|].
  intros i Hi. rewrite Z.lor_spec, (inw_testbit_high w a), (inw_testbit_high w b) by (done || lia).
  done.
Qed.
Lemma inw_lxor w a b : inw w a -> inw w b -> inw w (Z.lxor a b).
Proof.
  intros Ha Hb. pose proof (inw_nonneg_width w a Ha).
  apply inw_bits; [done|]. split.
  { apply Z.lxor_nonneg. split; intros _; [apply Hb|apply Ha]. }
  intros i Hi. rewrite Z.lxor_spec, (inw_testbit_high w a), (inw_testbit_high w b) by (done || lia).
  done.
Qed.
Lemma inw_shiftl w n a : 0 <= n -> inw w a -> inw (w + n) (Z.shiftl a n).
Proof.
  intros Hn Ha. pose proof (inw_nonneg_width w a Ha). destruct Ha as [? ?].
  rewrite Z.shiftl_mul_pow2 by done. unfold inw. rewrite Z.pow_add_r by lia.
  pose proof (pow2_pos n Hn). nia.
Qed.
Lemma inw_shiftr w n a : 0 <= n -> inw w a -> inw w (Z.shiftr a n).
Proof.
  intros Hn [? ?]. rewrite Z.shiftr_div_pow2 by done. pose proof (pow2_pos n Hn). split.
  - apply Z.div_pos; lia.
  - apply Z.le_lt_trans with a; [|done]. apply Z.div_le_upper_bound; nia.
Qed.
Lemma inw_shiftr_to w n a : 0 <= n -> 0 <= w -> inw (w + n) a -> inw w (Z.shiftr a n).
Proof.
  intros Hn Hw [? H1]. rewrite Z.shiftr_div_pow2 by done. pose proof (pow2_pos n Hn). split.
  - apply Z.div_pos; lia.
  - apply Z.div_lt_upper_bound; [lia|]. rewrite Z.pow_add_r in H1 by lia. lia.
Qed.
Lemma inw_b2z w b : 1 <= w -> inw w (b2z b).
Proof.
  intros. pose proof (Z.pow_le_mono_r 2 1 w ltac:(lia) ltac:(lia)).
  unfold inw. destruct b; simpl; lia.
Qed.

Lemma u8_id z : inw 8 z -> u8 z = z.
Proof. intros. apply Z.mod_small. done. Qed.
Lemma u16_id z : inw 16 z -> u16 z = z.
Proof. intros. apply Z.mod_small. done. Qed.
Lemma u32_id z : inw 32 z -> u32 z = z.
Proof. intros. apply Z.mod_small. done. Qed.
Lemma u64_id z : inw 64 z -> u64 z = z.
Proof. intros. apply Z.mod_small. done. Qed.

Lemma mod_mod_pow2 z a b : 0 <= a <= b -> (z mod 2 ^ b) mod 2 ^ a = z mod 2 ^ a.
Proof.
  intros. apply Z.bits_inj'. intros j Hj. destruct (Z.lt_ge_cases j a).
  - by rewrite !Z.mod_pow2_bits_low by lia.
  - by rewrite !Z.mod_pow2_bits_high by lia.
Qed.

(** [eauto with width] proves that an expression fits its field. *)
Create HintDb width.
#[export] Hint Resolve inw_u8 inw_u16 inw_u32 inw_u64 inw_lor inw_lxor inw_land_l : width.
#[export] Hint Extern 2 (inw _ (Z.land _ _)) => apply inw_land_r : width.
#[export] Hint Extern 1 (inw _ (b2z _)) => apply inw_b2z; lia : width.
#[export] Hint Extern 1 (inw _ (Zpos _)) => (split; vm_compute; congruence) : width.
#[export] Hint Extern 1 (inw _ Z0) => (split; vm_compute; congruence) : width.
#[export] Hint Extern 3 (inw _ (Z.shiftr _ _)) => apply inw_shiftr; [lia|] : width.
#[export] Hint Extern 1 (inw _ (if _ then _ else _)) => case_match : width.

(** * Single-bit tests, sets and clears *)

Lemma shiftl_1_testbit i j : 0 <= i -> Z.testbit (Z.shiftl 1 i) j = bool_decide (i = j).
Proof.
  intros. rewrite Z.shiftl_1_l. destruct (decide (i = j)) as [->|].
  - rewrite Z.pow2_bits_true, bool_decide_true by done. done.
  - rewrite Z.pow2_bits_false, bool_decide_false by done. done.
Qed.

(** [(x & (1 << i)) != 0] *)
Lemma land_bit_nz x i : 0 <= i -> nz (Z.land x (Z.shiftl 1 i)) = Z.testbit x i.
Proof.
  intros Hi. unfold nz. destruct (Z.testbit x i) eqn:E.
  - apply negb_true_iff, Z.eqb_neq. intros H.
    pose proof (f_equal (fun z => Z.testbit z i) H) as Hb. simpl in Hb.
    rewrite Z.land_spec, E, shiftl_1_testbit, bool_decide_true, Z.testbit_0_l in Hb by done.
    discriminate.
  - apply negb_false_iff, Z.eqb_eq. apply Z.bits_inj'. intros j Hj.
    rewrite Z.land_spec, shiftl_1_testbit, Z.testbit_0_l by done.
    destruct (decide (i = j)) as [->|]; [by rewrite E|].
    rewrite bool_decide_false by done. apply andb_false_r.
Qed.
Lemma testbit_set x i j :
  0 <= i -> Z.testbit (Z.lor x (Z.shiftl 1 i)) j = Z.testbit x j || bool_decide (i = j).
Proof. intros. rewrite Z.lor_spec, shiftl_1_testbit by done. done. Qed.
Lemma testbit_clear x i j :
  0 <= i -> 0 <= j ->
  Z.testbit (Z.land x (Z.lnot (Z.shiftl 1 i))) j = Z.testbit x j && negb (bool_decide (i = j)).
Proof. intros. rewrite Z.land_spec, Z.lnot_spec, shiftl_1_testbit by done. done. Qed.
Lemma inw_bit w i : 0 <= i < w -> inw w (Z.shiftl 1 i).
Proof.
  intros. rewrite Z.shiftl_1_l. split; [pose proof (pow2_pos i); lia|].
  apply Z.pow_lt_mono_r; lia.
Qed.
#[export] Hint Extern 1 (inw _ (Z.shiftl 1 _)) => apply inw_bit; lia : width.

(** Bit fields side by side: [or] of disjoint fields is a sum. *)
Lemma lor_shiftl_add n a b : 0 <= n -> inw n a -> Z.lor a (Z.shiftl b n) = a + b * 2 ^ n.
Proof.
  intros Hn Ha. assert (Hd : Z.land a (Z.shiftl b n) = 0).
  { apply Z.bits_inj'. intros i Hi. rewrite Z.land_spec, Z.testbit_0_l.
    destruct (Z.lt_ge_cases i n).
    - rewrite Z.shiftl_spec_low by lia. apply andb_false_r.
    - rewrite (inw_testbit_high n a) by (done || lia). done. }
  rewrite <- Z.lxor_lor, <- Z.add_nocarry_lxor by done. by rewrite Z.shiftl_mul_pow2.
Qed.
Lemma land_ones_mod n z : 0 <= n -> Z.land z (2 ^ n - 1) = z mod 2 ^ n.
Proof. intros. rewrite <- Z.land_ones by done. by rewrite Z.ones_equiv, Z.sub_1_r. Qed.
Lemma land_255 z : Z.land z 255 = z mod 256.
Proof. apply (land_ones_mod 8). lia. Qed.
Lemma land_65535 z : Z.land z 65535 = z mod 65536.
Proof. apply (land_ones_mod 16). lia. Qed.

(** * Finite checks: a fact about every value below [n], by evaluation. *)

Definition below (n : nat) : list Z := map Z.of_nat (seq 0 n).
Definition all_below (n : nat) (P : Z -> bool) : bool := forallb P (below n).

Lemma all_below_spec n P z : all_below n P = true -> 0 <= z < Z.of_nat n -> P z = true.
Proof.
  unfold all_below, below. rewrite forallb_forall. intros H Hz. apply H.
  apply in_map_iff. exists (Z.to_nat z). split; [lia|]. apply in_seq. lia.
Qed.

(** * Arrays

    [rd]/[wr] fault outside the array; [arr]/[arr_set] are their total
    readings, equal to them inside. *)

Definition alen {A} (l : list A) : Z := Z.of_nat (length l).
Definition arr {A} `{Inhabited A} (l : list A) (i : Z) : A := l !!! Z.to_nat i.
Definition arr_set {A} (l : list A) (i : Z) (v : A) : list A := <[Z.to_nat i := v]> l.
Definition rd {A} (l : list A) (i : Z) : outcome A :=
  if i <? 0 then Stuck OutOfBounds else
  match l !! Z.to_nat i with Some v => Done v | None => Stuck OutOfBounds end.
Definition wr {A} (l : list A) (i : Z) (v : A) : outcome (list A) :=
  if (i <? 0) || (alen l <=? i) then Stuck OutOfBounds else Done (arr_set l i v).

Lemma rd_in {A} `{Inhabited A} (l : list A) i : 0 <= i < alen l -> rd l i = Done (arr l i).
Proof.
  unfold alen, rd, arr. intros Hi. destruct (Z.ltb_spec i 0); [lia|].
  destruct (lookup_lt_is_Some_2 l (Z.to_nat i) ltac:(lia)) as [v Hv].
  rewrite Hv, (list_lookup_total_correct _ _ _ Hv). done.
Qed.
Lemma rd_out {A} (l : list A) i : i < 0 \/ alen l <= i -> rd l i = Stuck OutOfBounds.
Proof.
  unfold alen, rd. intros Hi. destruct (Z.ltb_spec i 0); [done|].
  rewrite lookup_ge_None_2 by lia. done.
Qed.
Lemma wr_in {A} (l : list A) i v : 0 <= i < alen l -> wr l i v = Done (arr_set l i v).
Proof.
  intros. unfold wr. destruct (Z.ltb_spec i 0); [lia|]. destruct (Z.leb_spec (alen l) i); [lia|done].
Qed.
Lemma alen_set {A} (l : list A) i v : alen (arr_set l i v) = alen l.
Proof. unfold alen, arr_set. by rewrite length_insert. Qed.
Lemma arr_set_eq {A} `{Inhabited A} (l : list A) i v :
  0 <= i < alen l -> arr (arr_set l i v) i = v.
Proof. unfold alen, arr, arr_set. intros. apply list_lookup_total_insert_eq. lia. Qed.
Lemma arr_set_ne {A} `{Inhabited A} (l : list A) i j v :
  0 <= i -> 0 <= j -> i <> j -> arr (arr_set l i v) j = arr l j.
Proof. unfold arr, arr_set. intros. apply list_lookup_total_insert_ne. lia. Qed.
Lemma arr_set_set {A} (l : list A) i v w : arr_set (arr_set l i v) i w = arr_set l i w.
Proof. unfold arr_set. apply list_insert_insert_eq. Qed.

(** * Interrupt lines

    Devices reach the interrupt controller through
    [set_irq (pic, irq, level)].  [IrqSink P] is that call on a controller of
    type [P]; a device is proved against the laws of [IrqSinkLaws], and the
    8259 model discharges them. *)

Class IrqSink (P : Type) := set_irq : P -> Z -> Z -> P.

(** Lines a device may drive: every input but 2, the cascade from the slave. *)
Definition irq_line (irq : Z) : Prop := 0 <= irq < 16 /\ irq <> 2.

Definition pulse_irq {P} `{IrqSink P} (p : P) (irq : Z) : P := set_irq (set_irq p irq 1) irq 0.

Class IrqSinkLaws (P : Type) `{IrqSink P} := {
  (** the controller is in a state its own operations produce *)
  sink_ok : P -> Prop;
  (** an interrupt request is latched for the line *)
  sink_requested : P -> Z -> Prop;
  (** the line is held high *)
  sink_high : P -> Z -> Prop;
  sink_set_ok p irq level : irq_line irq -> sink_ok p -> sink_ok (set_irq p irq level);
  sink_rise p irq : irq_line irq -> sink_ok p -> ~ sink_high p irq ->
    sink_requested (set_irq p irq 1) irq /\ sink_high (set_irq p irq 1) irq;
  sink_fall p irq : irq_line irq -> sink_ok p ->
    ~ sink_high (set_irq p irq 0) irq /\
    (sink_requested p irq -> sink_requested (set_irq p irq 0) irq);
  (** a line that is already high stays high; the other lines are not touched *)
  sink_high_set p irq level : irq_line irq -> sink_ok p -> level <> 0 ->
    sink_high (set_irq p irq level) irq;
  sink_other p irq irq' level : irq_line irq -> irq_line irq' -> irq <> irq' -> sink_ok p ->
    (sink_high (set_irq p irq level) irq' <-> sink_high p irq');
}.

Lemma pulse_requests {P} `{IrqSinkLaws P} (p : P) irq :
  irq_line irq -> sink_ok p -> ~ sink_high p irq ->
  sink_ok (pulse_irq p irq) /\ sink_requested (pulse_irq p irq) irq /\ ~ sink_high (pulse_irq p irq) irq.
Proof.
  intros Hi Hok Hl. unfold pulse_irq.
  destruct (sink_rise p irq Hi Hok Hl) as [Hr _].
  pose proof (sink_set_ok p irq 1 Hi Hok) as Hok1.
  destruct (sink_fall (set_irq p irq 1) irq Hi Hok1) as [Hf Hk]. eauto using sink_set_ok.
Qed.

(** * The clock

    [get_uticks ()] is the host's microsecond counter, one of two functions
    chosen when the program is built: each call reads and may advance a clock of type
    [C].  A 32-bit result is all the devices rely on. *)

Class Clock (C : Type) := get_uticks : C -> Z * C.
Class ClockLaws (C : Type) `{Clock C} := uticks_width (c : C) : inw 32 (get_uticks c).1.

Definition now {C} `{Clock C} : ST C Z := fun c => Done (get_uticks c).

Lemma run_now {C} `{ClockLaws C} (c : C) (Q : Z -> C -> Prop) :
  (forall t c', inw 32 t -> Q t c') -> run_to now c Q.
Proof.
  intros HQ. pose proof (uticks_width c) as Ht. unfold run_to, now.
  destruct (get_uticks c) as [t c']. eauto.
Qed.

(** A clock that replays a given sequence of readings, then stands still. *)
Definition script_clock : Clock (list Z) := fun c =>
  match c with [] => (0, []) | [t] => (u32 t, [t]) | t :: c' => (u32 t, c') end.
Definition script_clock_laws : @ClockLaws (list Z) script_clock.
Proof. intros [|t [|t' c]]; simpl; eauto with width. Defined.
