(* ===== verification/I8259.v ===== *)
(** The 8259 interrupt controller pair (src/source/winspire/i8259.c).

    [PicState] is one chip, [PicState2] the master/slave pair with the CPU
    interrupt flag its [raise_fn] sets (pc.c passes [raise_irq_i386], which is
    [cpui386_raise_irq]).  A chip inside the pair is named by [chip]. *)

From S2P Require Import Prelude.
Local Open Scope Z_scope.
Set Warnings "-clear-no-such-hyp".

Module Pic.

(** ** Data *)

Record PicState := mkPicState {
  last_irr : Z; irr : Z; imr : Z; isr : Z;
  priority_add : Z; irq_base : Z; read_reg_select : Z; poll : Z;
  special_mask : Z; init_state : Z; auto_eoi : Z; rotate_on_auto_eoi : Z;
  special_fully_nested_mode : Z; init4 : Z; single_mode : Z;
}.
#[export] Instance eta_PicState : Eta PicState := fun s =>
  mkPicState (last_irr s) (irr s) (imr s) (isr s) (priority_add s) (irq_base s)
    (read_reg_select s) (poll s) (special_mask s) (init_state s) (auto_eoi s)
    (rotate_on_auto_eoi s) (special_fully_nested_mode s) (init4 s) (single_mode s).

Record PicState2 := mkPicState2 { pics0 : PicState; pics1 : PicState; cpu_intr : bool }.
#[export] Instance eta_PicState2 : Eta PicState2 := fun s =>
  mkPicState2 (pics0 s) (pics1 s) (cpu_intr s).

Inductive chip := Master | Slave.
#[export] Instance chip_eq_dec : EqDecision chip.
Proof. solve_decision. Defined.

Definition pics (s : PicState2) (c : chip) : PicState :=
  match c with Master => pics0 s | Slave => pics1 s end.
Definition set_pics (s : PicState2) (c : chip) (p : PicState) : PicState2 :=
  match c with Master => s <| pics0 := p |> | Slave => s <| pics1 := p |> end.

(** [s->raise_fn (s->obj, s)]: [cpui386_raise_irq] sets [cpu->intr]. *)
Definition raise_fn (s : PicState2) : PicState2 := s <| cpu_intr := true |>.

(** ** Requests and priorities *)

Definition pic_set_irq1 (s : PicState) (irq level : Z) : PicState :=
  let mask := Z.shiftl 1 irq in
  if nz level then
    (if Z.land (last_irr s) mask =? 0 then s <| irr := u8 (Z.lor (irr s) mask) |> else s)
      <| last_irr := u8 (Z.lor (last_irr s) mask) |>
  else s <| last_irr := u8 (Z.land (last_irr s) (Z.lnot mask)) |>.

(** The [while] loop of [get_priority]; out of fuel it has no end. *)
Fixpoint priority_loop (fuel : nat) (s : PicState) (mask priority : Z) : outcome Z :=
  match fuel with
  | O => Stuck Diverges
  | S n =>
      if Z.land mask (Z.shiftl 1 (Z.land (priority + priority_add s) 7)) =? 0
      then priority_loop n s mask (priority + 1)
      else Done priority
  end.

Definition get_priority (s : PicState) (mask : Z) : outcome Z :=
  if mask =? 0 then Done 8 else priority_loop 8 s mask 0.

Definition pic_get_irq (s : PicState) (c : chip) : outcome Z :=
  priority ← get_priority s (Z.land (irr s) (Z.lnot (imr s)));
  if priority =? 8 then Done (-1) else
  let mask := isr s in
  let mask := if nz (special_mask s) then Z.land mask (Z.lnot (imr s)) else mask in
  let mask := if nz (special_fully_nested_mode s) && bool_decide (c = Master)
              then Z.land mask (Z.lnot (Z.shiftl 1 2)) else mask in
  cur_priority ← get_priority s mask;
  if priority <? cur_priority then Done (Z.land (priority + priority_add s) 7)
  else Done (-1).

Definition pic_update_irq (s : PicState2) : outcome PicState2 :=
  irq2 ← pic_get_irq (pics1 s) Slave;
  let s := if 0 <=? irq2
           then s <| pics0 := pic_set_irq1 (pic_set_irq1 (pics0 s) 2 1) 2 0 |> else s in
  irq ← pic_get_irq (pics0 s) Master;
  Done (if 0 <=? irq then raise_fn s else s).

Definition i8259_set_irq (s : PicState2) (irq level : Z) : outcome PicState2 :=
  let k := Z.shiftr irq 3 in
  if k =? 0 then
    pic_update_irq (s <| pics0 := pic_set_irq1 (pics0 s) (Z.land irq 7) level |>)
  else if k =? 1 then
    pic_update_irq (s <| pics1 := pic_set_irq1 (pics1 s) (Z.land irq 7) level |>)
  else Stuck OutOfBounds.

Definition pic_intack (s : PicState) (irq : Z) : PicState :=
  let s :=
    if nz (auto_eoi s) then
      if nz (rotate_on_auto_eoi s) then s <| priority_add := Z.land (irq + 1) 7 |> else s
    else s <| isr := u8 (Z.lor (isr s) (Z.shiftl 1 irq)) |> in
  s <| irr := u8 (Z.land (irr s) (Z.lnot (Z.shiftl 1 irq))) |>.

Definition i8259_read_irq (s : PicState2) : outcome (Z * PicState2) :=
  irq ← pic_get_irq (pics0 s) Master;
  ns ← (if 0 <=? irq then
          let s := s <| pics0 := pic_intack (pics0 s) irq |> in
          if irq =? 2 then
            irq2 ← pic_get_irq (pics1 s) Slave;
            if 0 <=? irq2 then
              let s := s <| pics1 := pic_intack (pics1 s) irq2 |> in
              Done (irq_base (pics1 s) + irq2, s)
            else Done (irq_base (pics1 s) + 7, s)
          else Done (irq_base (pics0 s) + irq, s)
        else Done (irq_base (pics0 s) + 7, s));
  s ← pic_update_irq ns.2;
  Done (ns.1, s).

(** ** Registers *)

Definition pic_reset : PicState := mkPicState 0 0 0 0 0 0 0 0 0 0 0 0 0 0 0.

(** The command port: ICW1, OCW3 and OCW2. *)
Definition pic_write_command (st : PicState2) (c : chip) (val : Z) : outcome PicState2 :=
  let s := pics st c in
  if nz (Z.land val 0x10) then
    let s := pic_reset <| init_state := 1 |> <| init4 := Z.land val 1 |>
               <| single_mode := Z.land val 2 |> in
    if nz (Z.land val 0x08) then Stuck Aborted else Done (set_pics st c s)
  else if nz (Z.land val 0x08) then
    let s := if nz (Z.land val 0x04) then s <| poll := 1 |> else s in
    let s := if nz (Z.land val 0x02) then s <| read_reg_select := Z.land val 1 |> else s in
    let s := if nz (Z.land val 0x40)
             then s <| special_mask := Z.land (Z.shiftr val 5) 1 |> else s in
    Done (set_pics st c s)
  else
    let cmd := Z.shiftr val 5 in
    let irq := Z.land val 7 in
    let eoi s i := s <| isr := u8 (Z.land (isr s) (Z.lnot (Z.shiftl 1 i))) |> in
    match cmd with
    | 0 | 4 => Done (set_pics st c (s <| rotate_on_auto_eoi := Z.shiftr cmd 2 |>))
    | 1 | 5 =>
        priority ← get_priority s (isr s);
        if priority =? 8 then Done st else
        let irq := Z.land (priority + priority_add s) 7 in
        let s := eoi s irq in
        let s := if cmd =? 5 then s <| priority_add := Z.land (irq + 1) 7 |> else s in
        pic_update_irq (set_pics st c s)
    | 3 => pic_update_irq (set_pics st c (eoi s irq))
    | 6 => pic_update_irq (set_pics st c (s <| priority_add := Z.land (val + 1) 7 |>))
    | 7 => pic_update_irq (set_pics st c ((eoi s irq) <| priority_add := Z.land (irq + 1) 7 |>))
    | _ => Done st
    end.

(** The data port: the mask, or ICW2 to ICW4 after an ICW1. *)
Definition pic_write_data (st : PicState2) (c : chip) (val : Z) : outcome PicState2 :=
  let s := pics st c in
  match init_state s with
  | 0 => pic_update_irq (set_pics st c (s <| imr := u8 val |>))
  | 1 => Done (set_pics st c
           (s <| irq_base := Z.land val 0xf8 |>
              <| init_state := if nz (single_mode s) then (if nz (init4 s) then 3 else 0) else 2 |>))
  | 2 => Done (set_pics st c (s <| init_state := if nz (init4 s) then 3 else 0 |>))
  | 3 => Done (set_pics st c
           (s <| special_fully_nested_mode := Z.land (Z.shiftr val 4) 1 |>
              <| auto_eoi := Z.land (Z.shiftr val 1) 1 |> <| init_state := 0 |>))
  | _ => Done st
  end.

Definition pic_ioport_write (st : PicState2) (c : chip) (addr val : Z) : outcome PicState2 :=
  if Z.land addr 1 =? 0 then pic_write_command st c val else pic_write_data st c val.

(** Input [i] is neither requested nor in service any more. *)
Definition drop_input (i : Z) (s : PicState) : PicState :=
  s <| isr := u8 (Z.land (isr s) (Z.lnot (Z.shiftl 1 i))) |>
    <| irr := u8 (Z.land (irr s) (Z.lnot (Z.shiftl 1 i))) |>.

Definition pic_poll_read (st : PicState2) (c : chip) (addr1 : Z) : outcome (Z * PicState2) :=
  ret ← pic_get_irq (pics st c) c;
  if 0 <=? ret then
    let st := if nz (Z.shiftr addr1 7) then st <| pics0 := drop_input 2 (pics0 st) |> else st in
    let st := set_pics st c (drop_input ret (pics st c)) in
    st ← (if nz (Z.shiftr addr1 7) || negb (ret =? 2) then pic_update_irq st else Done st);
    Done (ret, st)
  else
    st ← pic_update_irq st;
    Done (7, st).

Definition pic_ioport_read (st : PicState2) (c : chip) (addr1 : Z) : outcome (Z * PicState2) :=
  let s := pics st c in
  if nz (poll s) then
    rs ← pic_poll_read st c addr1;
    Done (rs.1, set_pics rs.2 c ((pics rs.2 c) <| poll := 0 |>))
  else
    Done ((if Z.land addr1 1 =? 0 then (if nz (read_reg_select s) then isr s else irr s)
           else imr s), st).

Definition chip_of_port (addr : Z) : chip :=
  if (addr =? 0x20) || (addr =? 0x21) then Master else Slave.

Definition i8259_ioport_read (st : PicState2) (addr : Z) : outcome (Z * PicState2) :=
  pic_ioport_read st (chip_of_port addr) addr.

Definition i8259_ioport_write (st : PicState2) (addr val : Z) : outcome PicState2 :=
  pic_ioport_write st (chip_of_port addr) addr val.

Definition i8259_init : PicState2 := mkPicState2 pic_reset pic_reset false.

#[local] Arguments pic_intack : simpl never.
#[local] Arguments pic_set_irq1 : simpl never.

(** ** Specification

    The input at distance [p] from the highest priority is [slot s p]; [rank s i]
    is the distance of input [i]. *)

Definition slot (s : PicState) (p : Z) : Z := Z.land (p + priority_add s) 7.
Definition rank (s : PicState) (i : Z) : Z := (i - priority_add s) mod 8.

Definition requested (s : PicState) (i : Z) : Prop :=
  Z.testbit (irr s) i = true /\ Z.testbit (imr s) i = false.

(** In service, as the current mode counts it. *)
Definition in_service (s : PicState) (c : chip) (i : Z) : Prop :=
  Z.testbit (isr s) i = true /\
  (special_mask s <> 0 -> Z.testbit (imr s) i = false) /\
  (special_fully_nested_mode s <> 0 -> c = Master -> i <> 2).

(** The input the chip must offer: the request of highest priority, when it
    outranks everything in service. *)
Definition deliverable (s : PicState) (c : chip) (i : Z) : Prop :=
  0 <= i < 8 /\ requested s i /\
  (forall j, 0 <= j < 8 -> requested s j -> rank s i <= rank s j) /\
  (forall j, 0 <= j < 8 -> in_service s c j -> rank s i < rank s j).

Record pic_wf (s : PicState) : Prop := {
  wf_last_irr : inw 8 (last_irr s);
  wf_irr : inw 8 (irr s);
  wf_imr : inw 8 (imr s);
  wf_isr : inw 8 (isr s);
  wf_add : inw 3 (priority_add s);
  wf_base : inw 8 (irq_base s);
  wf_state : inw 2 (init_state s);
}.
#[local] Hint Resolve wf_last_irr wf_irr wf_imr wf_isr wf_add wf_base wf_state : width.
#[local] Hint Constructors pic_wf : width.

Definition pics_wf (st : PicState2) : Prop := pic_wf (pics0 st) /\ pic_wf (pics1 st).

(** ** Priorities *)

Lemma land7 z : Z.land z 7 = z mod 8.
Proof. change 7 with (Z.ones 3). by rewrite Z.land_ones. Qed.

Lemma slot_range s p : 0 <= slot s p < 8.
Proof. unfold slot. rewrite land7. apply Z.mod_pos_bound. lia. Qed.

Lemma rank_range s i : 0 <= rank s i < 8.
Proof. apply Z.mod_pos_bound. lia. Qed.

Lemma slot_rank s i : 0 <= i < 8 -> slot s (rank s i) = i.
Proof.
  intros. unfold slot, rank. rewrite land7, Zplus_mod_idemp_l, Z.sub_add. apply Z.mod_small. done.
Qed.

Lemma rank_slot s p : 0 <= p < 8 -> rank s (slot s p) = p.
Proof.
  intros. unfold slot, rank. rewrite land7, Zminus_mod_idemp_l.
  replace (p + priority_add s - priority_add s) with p by lia. apply Z.mod_small. done.
Qed.

Lemma priority_loop_spec fuel s mask p :
  match priority_loop fuel s mask p with
  | Done r => p <= r < p + Z.of_nat fuel /\ Z.testbit mask (slot s r) = true /\
              forall q, p <= q < r -> Z.testbit mask (slot s q) = false
  | Stuck _ => forall q, p <= q < p + Z.of_nat fuel -> Z.testbit mask (slot s q) = false
  end.
Proof.
  revert p. induction fuel as [|n IH]; intros p; simpl; [lia|].
  pose proof (slot_range s p). unfold slot in *.
  pose proof (land_bit_nz mask (Z.land (p + priority_add s) 7) ltac:(lia)) as Hb. unfold nz in Hb.
  destruct (Z.eqb_spec (Z.land mask (1 ≪ Z.land (p + priority_add s) 7)) 0); simpl in Hb.
  - specialize (IH (p + 1)). destruct (priority_loop n s mask (p + 1)).
    + destruct IH as (? & ? & Hq). repeat split; try lia; try done.
      intros q ?. destruct (decide (q = p)) as [->|]; [done|]. apply Hq. lia.
    + intros q ?. destruct (decide (q = p)) as [->|]; [done|]. apply IH. lia.
  - repeat split; try lia; try done.
Qed.

(** [get_priority] always returns, and returns the first slot with a set bit. *)
Lemma get_priority_spec s mask :
  inw 8 mask -> exists p, get_priority s mask = Done p /\ 0 <= p <= 8 /\
    (p < 8 -> Z.testbit mask (slot s p) = true) /\
    (forall q, 0 <= q < p -> Z.testbit mask (slot s q) = false).
Proof.
  intros Hm. unfold get_priority. destruct (Z.eqb_spec mask 0) as [->|Hnz].
  { exists 8. repeat split; try lia. intros. apply Z.testbit_0_l. }
  pose proof (priority_loop_spec 8 s mask 0) as Hl. destruct (priority_loop 8 s mask 0) as [r|f].
  - exists r. destruct Hl as (? & ? & ?). repeat split; try lia; done.
  - exfalso. apply Hnz. apply (bits_ext 8); [lia|done|split; lia|].
    intros i Hi. rewrite Z.testbit_0_l. rewrite <- (slot_rank s i) by lia.
    apply Hl. pose proof (rank_range s i). lia.
Qed.

(** The mask the in-service comparison uses. *)
Definition service_mask (s : PicState) (c : chip) : Z :=
  let mask := if nz (special_mask s) then Z.land (isr s) (Z.lnot (imr s)) else isr s in
  if nz (special_fully_nested_mode s) && bool_decide (c = Master)
  then Z.land mask (Z.lnot (Z.shiftl 1 2)) else mask.

Lemma nz_true z : nz z = true <-> z <> 0.
Proof. unfold nz. rewrite negb_true_iff, Z.eqb_neq. done. Qed.
Lemma nz_false z : nz z = false <-> z = 0.
Proof. unfold nz. rewrite negb_false_iff, Z.eqb_eq. done. Qed.

Lemma service_mask_bit s c i :
  0 <= i -> Z.testbit (service_mask s c) i = true <-> in_service s c i.
Proof.
  intros Hi. unfold service_mask, in_service.
  destruct (nz (special_mask s)) eqn:E1; destruct (nz (special_fully_nested_mode s)) eqn:E2;
    destruct c; rewrite ?nz_true, ?nz_false in *; simpl;
    rewrite ?testbit_clear, ?Z.land_spec, ?Z.lnot_spec by lia;
    destruct (Z.testbit (isr s) i), (Z.testbit (imr s) i), (bool_decide_reflect (2 = i));
    simpl; intuition (congruence || lia).
Qed.

Lemma request_mask_bit s i :
  0 <= i -> Z.testbit (Z.land (irr s) (Z.lnot (imr s))) i = true <-> requested s i.
Proof.
  intros Hi. unfold requested. rewrite Z.land_spec, Z.lnot_spec by lia.
  rewrite andb_true_iff, negb_true_iff. reflexivity.
Qed.

(** ** The offered interrupt *)

Lemma service_mask_width s c : pic_wf s -> inw 8 (service_mask s c).
Proof. intros H. unfold service_mask. repeat case_match; eauto 6 with width. Qed.
#[local] Hint Resolve service_mask_width : width.

Lemma pic_get_irq_eq s c :
  pic_get_irq s c =
    (priority ← get_priority s (Z.land (irr s) (Z.lnot (imr s)));
     if priority =? 8 then Done (-1) else
     cur ← get_priority s (service_mask s c);
     if priority <? cur then Done (slot s priority) else Done (-1)).
Proof. reflexivity. Qed.

Lemma pic_get_irq_spec s c :
  pic_wf s ->
  exists r, pic_get_irq s c = Done r /\
    ((deliverable s c r) \/ (r = -1 /\ forall i, ~ deliverable s c i)).
Proof.
  intros Hwf. rewrite pic_get_irq_eq.
  destruct (get_priority_spec s (Z.land (irr s) (Z.lnot (imr s)))) as (p & Hp & Hr & Hs & Hf);
    [eauto with width|].
  destruct (get_priority_spec s (service_mask s c)) as (k & Hk & Hkr & Hks & Hkf);
    [eauto with width|].
  assert (Hlow : forall j, 0 <= j < 8 -> requested s j -> p <= rank s j).
  { intros j Hj Hq. destruct (Z.le_gt_cases p (rank s j)) as [|Hlt]; [done|].
    pose proof (rank_range s j). rewrite <- request_mask_bit in Hq by lia.
    rewrite <- (slot_rank s j), Hf in Hq by lia. discriminate. }
  rewrite Hp. cbn [mbind outcome_bind]. destruct (Z.eqb_spec p 8) as [->|Hp8].
  { exists (-1). split; [done|right]. split; [done|]. intros i (Hi & Hq & _).
    pose proof (Hlow i Hi Hq). pose proof (rank_range s i). lia. }
  rewrite Hk. cbn [mbind outcome_bind]. pose proof (slot_range s p).
  assert (Hreq : requested s (slot s p)) by (apply request_mask_bit; [lia|apply Hs; lia]).
  destruct (Z.ltb_spec p k) as [Hlt|Hge].
  - exists (slot s p). split; [done|left]. repeat split; try lia; try apply Hreq.
    + intros j Hj Hq. rewrite rank_slot by lia. auto.
    + intros j Hj Hq. rewrite rank_slot by lia. apply Z.lt_le_trans with k; [done|].
      destruct (Z.le_gt_cases k (rank s j)) as [|Hl]; [done|].
      pose proof (rank_range s j). rewrite <- service_mask_bit in Hq by lia.
      rewrite <- (slot_rank s j), Hkf in Hq by lia. discriminate.
  - exists (-1). split; [done|right]. split; [done|]. intros i (Hi & Hq & Hmin & Hsv).
    specialize (Hmin (slot s p) ltac:(lia) Hreq). rewrite rank_slot in Hmin by lia.
    pose proof (slot_range s k). pose proof (Hlow i Hi Hq).
    assert (Hin : in_service s c (slot s k)) by (apply service_mask_bit; [lia|apply Hks; lia]).
    specialize (Hsv (slot s k) ltac:(lia) Hin). rewrite rank_slot in Hsv by lia. lia.
Qed.

Lemma deliverable_unique s c i j : deliverable s c i -> deliverable s c j -> i = j.
Proof.
  intros (Hi & Hqi & Hmi & _) (Hj & Hqj & Hmj & _).
  rewrite <- (slot_rank s i), <- (slot_rank s j) by done. f_equal.
  specialize (Hmi j Hj Hqj). specialize (Hmj i Hi Hqi). lia.
Qed.

Lemma pic_get_irq_done s c i : pic_wf s -> deliverable s c i -> pic_get_irq s c = Done i.
Proof.
  intros Hwf Hd. destruct (pic_get_irq_spec s c Hwf) as (r & -> & [Hr|[-> Hn]]).
  - f_equal. eauto using deliverable_unique.
  - by destruct (Hn i).
Qed.

Lemma pic_get_irq_range s c : pic_wf s -> exists r, pic_get_irq s c = Done r /\ -1 <= r < 8.
Proof.
  intros Hwf. destruct (pic_get_irq_spec s c Hwf) as (r & -> & [(? & _)|[-> _]]);
    eexists; (split; [reflexivity|lia]).
Qed.

(** ** Well-formedness of every operation *)

Ltac pic_wf_tac :=
  intros; constructor; cbn -[Z.land Z.lor Z.shiftl Z.shiftr Z.lnot u8];
  repeat case_match; cbn -[Z.land Z.lor Z.shiftl Z.shiftr Z.lnot u8];
  eauto 6 with width.

Lemma pic_set_irq1_wf s irq level : pic_wf s -> pic_wf (pic_set_irq1 s irq level).
Proof. unfold pic_set_irq1. intros H. destruct (nz level); [case_match|]; pic_wf_tac. Qed.

Lemma pic_intack_wf s irq : pic_wf s -> pic_wf (pic_intack s irq).
Proof. unfold pic_intack. intros H. repeat case_match; pic_wf_tac. Qed.

Lemma drop_input_wf i s : pic_wf s -> pic_wf (drop_input i s).
Proof. pic_wf_tac. Qed.

Lemma pic_reset_wf : pic_wf pic_reset.
Proof. pic_wf_tac. Qed.

(** ** Effect of a line change on a chip *)

Lemma pic_rise_irr s irq j :
  pic_wf s -> 0 <= irq < 8 -> 
  Z.testbit (irr (pic_set_irq1 s irq 1)) j =
    Z.testbit (irr s) j || (bool_decide (irq = j) && negb (Z.testbit (last_irr s) irq)).
Proof.
  intros Hwf Hi. unfold pic_set_irq1.
  pose proof (land_bit_nz (last_irr s) irq ltac:(lia)) as Hb. unfold nz in Hb. cbn [nz negb Z.eqb].
  destruct (Z.eqb_spec (Z.land (last_irr s) (1 ≪ irq)) 0); simpl in *; rewrite <- Hb; simpl.
  - rewrite u8_id by eauto 6 with width. rewrite testbit_set by lia. by rewrite andb_true_r.
  - by rewrite andb_false_r, orb_false_r.
Qed.

Lemma pic_rise_last s irq :
  pic_wf s -> 0 <= irq < 8 -> Z.testbit (last_irr (pic_set_irq1 s irq 1)) irq = true.
Proof.
  intros Hwf Hi. unfold pic_set_irq1. cbn [nz negb Z.eqb].
  case_match; simpl; rewrite u8_id by eauto 6 with width; rewrite testbit_set by lia;
    rewrite bool_decide_true by done; apply orb_true_r.
Qed.

Lemma pic_fall_last s irq :
  pic_wf s -> 0 <= irq < 8 -> Z.testbit (last_irr (pic_set_irq1 s irq 0)) irq = false.
Proof.
  intros Hwf Hi. unfold pic_set_irq1. simpl. rewrite u8_id by eauto with width.
  rewrite testbit_clear by lia. rewrite bool_decide_true by done. apply andb_false_r.
Qed.

(** A line change of input [irq] leaves the other inputs alone. *)
Lemma pic_set_irq1_other s irq level j :
  pic_wf s -> 0 <= irq < 8 -> 0 <= j -> j <> irq ->
  Z.testbit (irr (pic_set_irq1 s irq level)) j = Z.testbit (irr s) j /\
  Z.testbit (last_irr (pic_set_irq1 s irq level)) j = Z.testbit (last_irr s) j.
Proof.
  intros Hwf Hi Hj Hne. unfold pic_set_irq1. destruct (nz level); [case_match|]; simpl;
    rewrite ?u8_id by eauto 6 with width; rewrite ?testbit_set, ?testbit_clear by lia;
    rewrite ?(bool_decide_false (irq = j)) by congruence;
    by rewrite ?orb_false_r, ?andb_true_r.
Qed.

(** [pic_set_irq1] touches only the request latches. *)
Lemma pic_set_irq1_frame s irq level :
  isr (pic_set_irq1 s irq level) = isr s /\ imr (pic_set_irq1 s irq level) = imr s /\
  priority_add (pic_set_irq1 s irq level) = priority_add s /\
  irq_base (pic_set_irq1 s irq level) = irq_base s /\
  auto_eoi (pic_set_irq1 s irq level) = auto_eoi s /\
  special_mask (pic_set_irq1 s irq level) = special_mask s /\
  special_fully_nested_mode (pic_set_irq1 s irq level) = special_fully_nested_mode s.
Proof. unfold pic_set_irq1. destruct (nz level); [case_match|]; repeat split. Qed.

(** ** [pic_update_irq] *)

(** The master after the slave's offer [r2] has been passed on to input 2. *)
Definition cascaded (m : PicState) (r2 : Z) : PicState :=
  if 0 <=? r2 then pic_set_irq1 (pic_set_irq1 m 2 1) 2 0 else m.

Lemma cascaded_wf m r2 : pic_wf m -> pic_wf (cascaded m r2).
Proof. unfold cascaded. intros. case_match; auto using pic_set_irq1_wf. Qed.

Lemma cascaded_other m r2 j :
  pic_wf m -> 0 <= j -> j <> 2 ->
  Z.testbit (irr (cascaded m r2)) j = Z.testbit (irr m) j /\
  Z.testbit (last_irr (cascaded m r2)) j = Z.testbit (last_irr m) j.
Proof.
  intros Hwf Hj Hne. unfold cascaded. case_match; [|done].
  destruct (pic_set_irq1_other (pic_set_irq1 m 2 1) 2 0 j) as [-> ->]; try lia;
    [auto using pic_set_irq1_wf|].
  by apply pic_set_irq1_other.
Qed.

Lemma cascaded_frame m r2 :
  isr (cascaded m r2) = isr m /\ imr (cascaded m r2) = imr m /\
  priority_add (cascaded m r2) = priority_add m /\ irq_base (cascaded m r2) = irq_base m /\
  auto_eoi (cascaded m r2) = auto_eoi m /\ special_mask (cascaded m r2) = special_mask m /\
  special_fully_nested_mode (cascaded m r2) = special_fully_nested_mode m.
Proof.
  unfold cascaded. case_match; [|done].
  destruct (pic_set_irq1_frame (pic_set_irq1 m 2 1) 2 0) as (-> & -> & -> & -> & -> & -> & ->).
  apply pic_set_irq1_frame.
Qed.

Lemma pic_update_irq_spec st :
  pics_wf st -> exists r2 r,
    pic_get_irq (pics1 st) Slave = Done r2 /\
    pic_get_irq (cascaded (pics0 st) r2) Master = Done r /\
    pic_update_irq st =
      Done (mkPicState2 (cascaded (pics0 st) r2) (pics1 st) ((0 <=? r) || cpu_intr st)).
Proof.
  intros [Hm Hs]. destruct (pic_get_irq_range (pics1 st) Slave Hs) as (r2 & Hr2 & _).
  destruct (pic_get_irq_range (cascaded (pics0 st) r2) Master) as (r & Hr & _);
    [by apply cascaded_wf|].
  exists r2, r. repeat split; try done. unfold pic_update_irq. rewrite Hr2.
  cbn [mbind outcome_bind]. unfold cascaded in *.
  destruct st as [m sl b]. destruct (0 <=? r2); simpl in *; rewrite Hr; simpl; by destruct (0 <=? r).
Qed.

Lemma pic_update_irq_wf st :
  pics_wf st -> exists st', pic_update_irq st = Done st' /\ pics_wf st'.
Proof.
  intros Hwf. destruct (pic_update_irq_spec st Hwf) as (r2 & r & _ & _ & ->).
  eexists. split; [done|]. destruct Hwf. split; simpl; auto using cascaded_wf.
Qed.

Lemma set_pics_wf st c p : pics_wf st -> pic_wf p -> pics_wf (set_pics st c p).
Proof. intros [? ?] ?. destruct c; split; done. Qed.

Lemma pics_wf_chip st c : pics_wf st -> pic_wf (pics st c).
Proof. intros [? ?]. by destruct c. Qed.

(** ** The controller as a state machine *)

Inductive pic_op :=
| OpSetIrq (irq level : Z)
| OpReadIrq
| OpPortRead (addr : Z)
| OpPortWrite (addr val : Z).

Definition run_op (st : PicState2) (op : pic_op) : outcome PicState2 :=
  match op with
  | OpSetIrq irq level => i8259_set_irq st irq level
  | OpReadIrq => rs ← i8259_read_irq st; Done rs.2
  | OpPortRead addr => rs ← i8259_ioport_read st addr; Done rs.2
  | OpPortWrite addr val => i8259_ioport_write st addr val
  end.

(** What the machine can ask for: one of the sixteen lines, a byte written. *)
Definition op_in_range (op : pic_op) : Prop :=
  match op with
  | OpSetIrq irq _ => 0 <= irq < 16
  | OpPortWrite _ val => inw 8 val
  | _ => True
  end.

(** ICW1 with the level-triggered bit, which [hw_error] refuses. *)
Definition level_icw1 (op : pic_op) : Prop :=
  match op with
  | OpPortWrite addr val =>
      Z.land addr 1 = 0 /\ nz (Z.land val 0x10) = true /\ nz (Z.land val 0x08) = true
  | _ => False
  end.

Inductive pic_step : PicState2 -> PicState2 -> Prop :=
| pic_step_op st op st' : op_in_range op -> run_op st op = Done st' -> pic_step st st'.

Lemma i8259_set_irq_chip st irq level :
  0 <= irq < 16 ->
  let c := if irq <? 8 then Master else Slave in
  i8259_set_irq st irq level =
    pic_update_irq (set_pics st c (pic_set_irq1 (pics st c) (Z.land irq 7) level)).
Proof.
  intros Hi. unfold i8259_set_irq. rewrite Z.shiftr_div_pow2 by lia. change (2 ^ 3) with 8.
  destruct (Z.ltb_spec irq 8).
  - rewrite Z.div_small by lia. done.
  - replace (irq / 8) with 1; [done|]. apply (Z.div_unique irq 8 1 (irq - 8)); lia.
Qed.

Lemma i8259_read_irq_wf st :
  pics_wf st -> exists v st', i8259_read_irq st = Done (v, st') /\ pics_wf st'.
Proof.
  intros [Hm Hs]. unfold i8259_read_irq.
  destruct (pic_get_irq_range (pics0 st) Master Hm) as (r & -> & _).
  destruct (pic_get_irq_range (pics1 st) Slave Hs) as (r2 & Hr2 & _).
  cbn [mbind outcome_bind].
  assert (Hk : forall (v : Z) st1, pics_wf st1 -> exists v' st',
    (s ← pic_update_irq st1; Done (v, s)) = Done (v', st') /\ pics_wf st').
  { intros v st1 H. destruct (pic_update_irq_wf st1 H) as (st' & -> & ?). eauto. }
  destruct (0 <=? r); [|by apply Hk].
  destruct (r =? 2); simpl; [rewrite Hr2; simpl; destruct (0 <=? r2)|]; simpl;
    apply Hk; split; simpl; auto using pic_intack_wf.
Qed.

Lemma set_poll_wf st c v : pics_wf st -> pics_wf (set_pics st c ((pics st c) <| poll := v |>)).
Proof.
  intros H. apply set_pics_wf; [done|]. destruct (pics_wf_chip st c H). by constructor.
Qed.

Lemma pic_poll_read_wf st c addr :
  pics_wf st -> exists v st', pic_poll_read st c addr = Done (v, st') /\ pics_wf st'.
Proof.
  intros Hwf. unfold pic_poll_read.
  destruct (pic_get_irq_range (pics st c) c) as (r & -> & _); [by apply pics_wf_chip|].
  cbn [mbind outcome_bind]. destruct (0 <=? r).
  2:{ destruct (pic_update_irq_wf st Hwf) as (st' & -> & ?). simpl. eauto. }
  set (st1 := if nz (addr ≫ 7) then _ else st).
  assert (Hst1 : pics_wf st1).
  { unfold st1. destruct Hwf. case_match; split; simpl; auto using drop_input_wf. }
  set (st2 := set_pics st1 c _).
  assert (Hst2 : pics_wf st2) by (apply set_pics_wf; auto using pics_wf_chip, drop_input_wf).
  case_match; simpl; [|eauto].
  destruct (pic_update_irq_wf st2 Hst2) as (st' & -> & ?). simpl. eauto.
Qed.

Lemma i8259_ioport_read_wf st addr :
  pics_wf st -> exists v st', i8259_ioport_read st addr = Done (v, st') /\ pics_wf st'.
Proof.
  intros Hwf. unfold i8259_ioport_read, pic_ioport_read. case_match; [|eauto].
  destruct (pic_poll_read_wf st (chip_of_port addr) addr Hwf) as (v & st' & -> & Hst').
  simpl. eexists _, _. split; [reflexivity|]. by apply set_poll_wf.
Qed.

Lemma pic_write_command_wf st c val :
  pics_wf st -> inw 8 val ->
  (nz (Z.land val 0x10) && nz (Z.land val 0x08) = true /\
   pic_write_command st c val = Stuck Aborted) \/
  (nz (Z.land val 0x10) && nz (Z.land val 0x08) = false /\
   exists st', pic_write_command st c val = Done st' /\ pics_wf st').
Proof.
  intros Hwf Hv. unfold pic_write_command. pose proof (pics_wf_chip st c Hwf) as Hc.
  destruct (nz (Z.land val 16)) eqn:E1, (nz (Z.land val 8)) eqn:E2; simpl; [by left|right..];
    (split; [done|]).
  - eexists. split; [done|]. apply set_pics_wf; [done|]. pic_wf_tac.
  - eexists. split; [done|]. apply set_pics_wf; [done|]. repeat case_match; pic_wf_tac.
  - assert (Hup : forall p, pic_wf p ->
      exists st', pic_update_irq (set_pics st c p) = Done st' /\ pics_wf st').
    { intros p Hp. apply pic_update_irq_wf. by apply set_pics_wf. }
    assert (H7 : forall z, inw 3 (Z.land z 7)) by eauto with width.
    destruct (get_priority_spec (pics st c) (isr (pics st c))) as (p & -> & _); [apply Hc|].
    cbn [mbind outcome_bind].
    assert (Heoi : forall i b a, pic_wf ((pics st c) <| isr := u8 (Z.land (isr (pics st c)) i) |>
       <| priority_add := if b : bool then Z.land a 7 else priority_add (pics st c) |>)).
    { intros i b a. destruct Hc. destruct b; pic_wf_tac. }
    assert (Hadd : forall i a, pic_wf ((pics st c) <| isr := u8 (Z.land (isr (pics st c)) i) |>
       <| priority_add := Z.land a 7 |>)) by (intros i a; exact (Heoi i true a)).
    assert (Heoi0 : forall i, pic_wf ((pics st c) <| isr := u8 (Z.land (isr (pics st c)) i) |>))
      by (intros i; destruct Hc; pic_wf_tac).
    assert (Hadd0 : forall a, pic_wf ((pics st c) <| priority_add := Z.land a 7 |>))
      by (intros a; destruct Hc; pic_wf_tac).
    assert (Hrot : forall a, pic_wf ((pics st c) <| rotate_on_auto_eoi := a |>))
      by (intros a; destruct Hc; by constructor).
    repeat case_match; eauto using set_pics_wf.
Qed.

Lemma pic_write_data_wf st c val :
  pics_wf st -> inw 8 val -> exists st', pic_write_data st c val = Done st' /\ pics_wf st'.
Proof.
  intros Hwf Hv. unfold pic_write_data. pose proof (pics_wf_chip st c Hwf) as Hc.
  assert (Himr : pic_wf ((pics st c) <| imr := u8 val |>)) by (destruct Hc; pic_wf_tac).
  pose proof (pic_update_irq_wf _ (set_pics_wf st c _ Hwf Himr)).
  repeat case_match; eauto; eexists; (split; [done|]); apply set_pics_wf;
    try done; destruct Hc; pic_wf_tac.
Qed.

Lemma run_op_wf st op :
  pics_wf st -> op_in_range op ->
  (level_icw1 op /\ run_op st op = Stuck Aborted) \/
  (~ level_icw1 op /\ exists st', run_op st op = Done st' /\ pics_wf st').
Proof.
  intros Hwf Hop. destruct op as [irq level| |addr|addr val]; simpl in *.
  - right. split; [tauto|]. rewrite i8259_set_irq_chip by done. apply pic_update_irq_wf.
    apply set_pics_wf; [done|]. apply pic_set_irq1_wf. by apply pics_wf_chip.
  - right. split; [tauto|]. destruct (i8259_read_irq_wf st Hwf) as (v & st' & -> & ?). eauto.
  - right. split; [tauto|]. destruct (i8259_ioport_read_wf st addr Hwf) as (v & st' & -> & ?). eauto.
  - unfold i8259_ioport_write, pic_ioport_write. destruct (Z.eqb_spec (Z.land addr 1) 0).
    + destruct (pic_write_command_wf st (chip_of_port addr) val Hwf Hop) as [[H ->]|[H ?]];
        [left|right]; rewrite <- andb_true_iff; rewrite H; auto. split; [|done]. intros [_ ?]. done.
    + right. split; [tauto|]. by apply pic_write_data_wf.
Qed.

(** ** The 8259 discharges the interface its clients are proved against *)

#[export] Instance pic_sink : IrqSink (outcome PicState2) := fun p irq level =>
  s ← p; i8259_set_irq s irq level.

Definition chip_of_line (irq : Z) : chip := if irq <? 8 then Master else Slave.

Lemma i8259_set_irq_spec st irq level :
  pics_wf st -> irq_line irq ->
  exists st', i8259_set_irq st irq level = Done st' /\ pics_wf st' /\
    let c := chip_of_line irq in let k := Z.land irq 7 in
    let p := pic_set_irq1 (pics st c) k level in
    Z.testbit (irr (pics st' c)) k = Z.testbit (irr p) k /\
    Z.testbit (last_irr (pics st' c)) k = Z.testbit (last_irr p) k.
Proof.
  intros Hwf [Hr H2]. rewrite i8259_set_irq_chip by done. cbv zeta.
  fold (chip_of_line irq). set (p := pic_set_irq1 _ _ _).
  assert (Hp : pic_wf p) by (apply pic_set_irq1_wf; by apply pics_wf_chip).
  pose proof (set_pics_wf st (chip_of_line irq) p Hwf Hp) as Hwf'.
  destruct (pic_update_irq_spec _ Hwf') as (r2 & r & _ & _ & ->).
  eexists. split; [reflexivity|]. destruct Hwf' as [Hw0 Hw1].
  split; [split; simpl; auto using cascaded_wf|].
  unfold chip_of_line in *. destruct (Z.ltb_spec irq 8); simpl; [|done].
  assert (Z.land irq 7 = irq) as -> by (rewrite land7, Z.mod_small; lia).
  by apply cascaded_other; try lia.
Qed.

Lemma land7_line irq : irq_line irq -> 0 <= Z.land irq 7 < 8 /\
  Z.land irq 7 = (if irq <? 8 then irq else irq - 8).
Proof.
  intros [Hr _]. rewrite land7. split; [apply Z.mod_pos_bound; lia|].
  destruct (Z.ltb_spec irq 8); [by apply Z.mod_small; lia|].
  symmetry. apply (Z.mod_unique _ _ 1); lia.
Qed.

(** A line change leaves the edge memory of the other lines alone. *)
Lemma i8259_set_irq_other st irq irq' level :
  pics_wf st -> irq_line irq -> irq_line irq' -> irq <> irq' ->
  exists st', i8259_set_irq st irq level = Done st' /\
    Z.testbit (last_irr (pics st' (chip_of_line irq'))) (Z.land irq' 7) =
    Z.testbit (last_irr (pics st (chip_of_line irq'))) (Z.land irq' 7).
Proof.
  intros Hwf Hl Hl' Hne. rewrite i8259_set_irq_chip by apply Hl. cbv zeta.
  fold (chip_of_line irq). set (p := pic_set_irq1 _ _ _).
  assert (Hp : pic_wf p) by (apply pic_set_irq1_wf; by apply pics_wf_chip).
  pose proof (set_pics_wf st (chip_of_line irq) p Hwf Hp) as Hwf'.
  destruct (pic_update_irq_spec _ Hwf') as (r2 & r & _ & _ & ->).
  eexists. split; [reflexivity|]. destruct (land7_line irq Hl) as [Hk Ek].
  destruct (land7_line irq' Hl') as [Hk' Ek']. destruct Hl as [? _], Hl' as [? H2].
  destruct Hwf' as [Hw0 Hw1]. unfold p, chip_of_line in *.
  destruct (Z.ltb_spec irq 8), (Z.ltb_spec irq' 8); cbn [pics set_pics pics0 pics1] in *;
    try (rewrite (proj2 (cascaded_other _ r2 (Z.land irq' 7) Hw0 ltac:(lia) ltac:(lia)));
         cbn [pics0 set_field eta_record eta_PicState2]); try done.
  - apply pic_set_irq1_other; try lia. apply Hwf.
  - apply pic_set_irq1_other; try lia. apply Hwf.
Qed.

#[export] Instance pic_sink_laws : IrqSinkLaws (outcome PicState2).
Proof.
  refine {| sink_ok p := exists s, p = Done s /\ pics_wf s;
            sink_requested p irq := exists s, p = Done s /\
              Z.testbit (irr (pics s (chip_of_line irq))) (Z.land irq 7) = true;
            sink_high p irq := exists s, p = Done s /\
              Z.testbit (last_irr (pics s (chip_of_line irq))) (Z.land irq 7) = true |}.
  - intros p irq level Hl (s & -> & Hwf).
    destruct (i8259_set_irq_spec s irq level Hwf Hl) as (s' & Hs' & ? & _). exists s'. auto.
  - intros p irq Hl (s & -> & Hwf) Hlow.
    destruct (i8259_set_irq_spec s irq 1 Hwf Hl) as (s' & Hs' & _ & Hirr & Hlast).
    cbv zeta in *. assert (Hk : 0 <= Z.land irq 7 < 8) by (rewrite land7; apply Z.mod_pos_bound; lia).
    pose proof (pics_wf_chip s (chip_of_line irq) Hwf) as Hc.
    split; exists s'; (split; [exact Hs'|]).
    + rewrite Hirr, pic_rise_irr, bool_decide_true by done.
      destruct (Z.testbit (last_irr (pics s _)) _) eqn:E; [|apply orb_true_r].
      destruct Hlow. eauto.
    + by rewrite Hlast, pic_rise_last.
  - intros p irq Hl (s & -> & Hwf).
    destruct (i8259_set_irq_spec s irq 0 Hwf Hl) as (s' & Hs' & _ & Hirr & Hlast).
    cbv zeta in *. assert (Hk : 0 <= Z.land irq 7 < 8) by (rewrite land7; apply Z.mod_pos_bound; lia).
    pose proof (pics_wf_chip s (chip_of_line irq) Hwf) as Hc.
    change (set_irq (Done s) irq 0) with (i8259_set_irq s irq 0). rewrite Hs'. split.
    + intros (s2 & [= <-] & H). rewrite Hlast, pic_fall_last in H by done. discriminate.
    + intros (s2 & [= <-] & H). exists s'. split; [done|]. rewrite Hirr.
      unfold pic_set_irq1. simpl. done.
  - intros p irq level Hl (s & -> & Hwf) Hne.
    destruct (i8259_set_irq_spec s irq level Hwf Hl) as (s' & Hs' & _ & _ & Hlast).
    cbv zeta in *. exists s'. split; [exact Hs'|]. rewrite Hlast.
    destruct (land7_line irq Hl) as [Hk _]. pose proof (pics_wf_chip s (chip_of_line irq) Hwf) as Hc.
    assert (forall c k, pic_set_irq1 c k level = pic_set_irq1 c k 1) as ->
      by (intros; unfold pic_set_irq1; by rewrite (proj2 (nz_true level))).
    by rewrite pic_rise_last.
  - intros p irq irq' level Hl Hl' Hne (s & -> & Hwf).
    destruct (i8259_set_irq_other s irq irq' level Hwf Hl Hl' Hne) as (s' & Hs' & Hlast).
    change (set_irq (Done s) irq level) with (i8259_set_irq s irq level). rewrite Hs'.
    split; intros (s2 & [= <-] & Hb); eexists; (split; [reflexivity|]); congruence.
Defined.

(** ** Properties *)

(** C5. On a well-formed chip [pic_get_irq] always returns, and it offers input
    [i] exactly when [i] is the unmasked request of highest rotating priority and
    outranks every input in service under the special-mask and special fully
    nested modes; with no such input it returns -1. *)
Theorem pic_get_irq_refines s c :
  pic_wf s ->
  (forall i, deliverable s c i <-> (pic_get_irq s c = Done i /\ 0 <= i)) /\
  ((forall i, ~ deliverable s c i) <-> pic_get_irq s c = Done (-1)).
Proof.
  intros Hwf. destruct (pic_get_irq_spec s c Hwf) as (r & -> & [Hr|[-> Hn]]).
  - pose proof (proj1 Hr). split; intros.
    + split; [|by intros [[= ->] _]]. intros Hi. rewrite (deliverable_unique s c i r) by done.
      split; [done|lia].
    + split; [by intros Hn; destruct (Hn r)|]. intros [= ->]. lia.
  - split; intros; [|done]. split; [by intros ?; destruct (Hn i)|]. intros [[= <-] ?]. lia.
Qed.

Definition sample_pic : PicState := pic_reset <| irr := 0x0a |> <| imr := 0x02 |>.

Lemma pic_get_irq_refines_witness :
  pic_get_irq sample_pic Master = Done 3 /\ deliverable sample_pic Master 3.
Proof.
  split; [reflexivity|]. apply (pic_get_irq_refines sample_pic Master).
  - constructor; split; vm_compute; congruence.
  - split; [reflexivity|lia].
Defined.

Lemma init_wf : pics_wf i8259_init.
Proof. split; apply pic_reset_wf. Qed.

Lemma reachable_wf st : rtc pic_step i8259_init st -> pics_wf st.
Proof.
  intros H. remember i8259_init as st0 eqn:E. pose proof init_wf as H0. rewrite <- E in H0. clear E.
  induction H as [st|st1 st2 st3 Hs _ IH]; [done|]. apply IH. destruct Hs as [st op st' Hop Hrun].
  destruct (run_op_wf st op H0 Hop) as [[_ E]|[_ (st2 & E & Hwf)]]; rewrite Hrun in E; by simplify_eq.
Qed.

(** C14. From power-on, after any sequence of line changes, acknowledges and port
    accesses, every further operation returns (in particular the priority search
    ends and no chip index is out of range) and leaves a well-formed pair; the
    only refusal is [abort ()] on an ICW1 that asks for level-triggered inputs. *)
Theorem i8259_reachable_safe st op :
  rtc pic_step i8259_init st -> op_in_range op ->
  pics_wf st /\
  ((level_icw1 op /\ run_op st op = Stuck Aborted) \/
   (~ level_icw1 op /\ exists st', run_op st op = Done st' /\ pics_wf st')).
Proof. intros Hr Hop. pose proof (reachable_wf st Hr). auto using run_op_wf. Qed.

Lemma i8259_reachable_safe_witness :
  pics_wf i8259_init /\
  ((level_icw1 (OpPortWrite 0x20 0x19) /\
    run_op i8259_init (OpPortWrite 0x20 0x19) = Stuck Aborted) \/
   (~ level_icw1 (OpPortWrite 0x20 0x19) /\
    exists st', run_op i8259_init (OpPortWrite 0x20 0x19) = Done st' /\ pics_wf st')).
Proof.
  apply (i8259_reachable_safe i8259_init (OpPortWrite 0x20 0x19)); [apply rtc_refl|].
  split; vm_compute; congruence.
Defined.

(** *** Acknowledge and end of interrupt *)

Lemma intack_isr s i :
  pic_wf s -> auto_eoi s = 0 -> 0 <= i < 8 -> isr (pic_intack s i) = Z.lor (isr s) (Z.shiftl 1 i).
Proof.
  intros Hwf Ha Hi. unfold pic_intack. rewrite Ha. simpl. apply u8_id. eauto with width.
Qed.

Lemma intack_irr s i j :
  pic_wf s -> 0 <= i < 8 -> 0 <= j ->
  Z.testbit (irr (pic_intack s i)) j = Z.testbit (irr s) j && negb (bool_decide (i = j)).
Proof.
  intros Hwf Hi Hj. unfold pic_intack.
  repeat case_match; simpl; rewrite u8_id by eauto with width; by rewrite testbit_clear by lia.
Qed.

Lemma intack_frame s i :
  auto_eoi s = 0 ->
  imr (pic_intack s i) = imr s /\ priority_add (pic_intack s i) = priority_add s /\
  special_mask (pic_intack s i) = special_mask s /\
  special_fully_nested_mode (pic_intack s i) = special_fully_nested_mode s /\
  irq_base (pic_intack s i) = irq_base s.
Proof. intros Ha. unfold pic_intack. rewrite Ha. done. Qed.

(** The highest-priority bit of the in-service register, when [i] has just been
    added on top of inputs it outranks, is [i]. *)
Lemma priority_of_top s m i :
  inw 8 m -> 0 <= i < 8 ->
  (forall j, 0 <= j < 8 -> Z.testbit m j = true -> rank s i < rank s j) ->
  get_priority s (Z.lor m (Z.shiftl 1 i)) = Done (rank s i).
Proof.
  intros Hm Hi Htop. pose proof (rank_range s i) as Hri.
  destruct (get_priority_spec s (Z.lor m (1 ≪ i))) as (p & -> & Hp & Hset & Hclear);
    [eauto with width|].
  f_equal. destruct (Z.lt_trichotomy p (rank s i)) as [Hlt|[|Hgt]]; [|done|].
  - specialize (Hset ltac:(lia)). rewrite testbit_set in Hset by lia.
    apply orb_true_iff in Hset as [Hb|Hb].
    + specialize (Htop _ (slot_range s p) Hb). rewrite rank_slot in Htop by lia. lia.
    + apply bool_decide_eq_true in Hb. subst i. rewrite rank_slot in Hlt by lia. lia.
  - specialize (Hclear (rank s i) ltac:(lia)). rewrite slot_rank, testbit_set in Hclear by lia.
    rewrite bool_decide_true, orb_true_r in Hclear by done. discriminate.
Qed.

Lemma set_then_clear m i :
  inw 8 m -> 0 <= i < 8 -> Z.testbit m i = false ->
  u8 (Z.land (Z.lor m (Z.shiftl 1 i)) (Z.lnot (Z.shiftl 1 i))) = m.
Proof.
  intros Hm Hi Hb. rewrite u8_id by eauto with width.
  apply (bits_ext 8); eauto with width; [lia|]. intros j Hj.
  rewrite testbit_clear, testbit_set by lia.
  destruct (bool_decide_reflect (i = j)) as [->|]; simpl; rewrite ?Hb, ?orb_false_r, ?andb_true_r;
    done.
Qed.

(** A chip in fully nested mode: none of the modes that let an interrupt of the
    same or a lower priority in. *)
Definition fully_nested (s : PicState) : Prop :=
  auto_eoi s = 0 /\ special_mask s = 0 /\ special_fully_nested_mode s = 0.

Lemma nested_in_service s c i :
  fully_nested s -> in_service s c i <-> Z.testbit (isr s) i = true.
Proof. intros (_ & Hm & Hf). unfold in_service. rewrite Hm, Hf. intuition congruence. Qed.

Lemma read_irq_master st i :
  pics_wf st -> deliverable (pics0 st) Master i -> i <> 2 ->
  exists r2 b, i8259_read_irq st =
    Done (irq_base (pic_intack (pics0 st) i) + i,
          mkPicState2 (cascaded (pic_intack (pics0 st) i) r2) (pics1 st) b).
Proof.
  intros Hwf Hd H2. pose proof (proj1 Hd) as Hi. unfold i8259_read_irq.
  rewrite (pic_get_irq_done (pics0 st) Master i) by (done || apply Hwf).
  cbn [mbind outcome_bind]. destruct (Z.leb_spec 0 i); [|lia]. destruct (Z.eqb_spec i 2); [done|].
  cbn [mbind outcome_bind fst snd].
  destruct (pic_update_irq_spec (st <| pics0 := pic_intack (pics0 st) i |>)) as (r2 & r & _ & _ & ->).
  { destruct Hwf. split; simpl; auto using pic_intack_wf. }
  simpl. eauto.
Qed.

(** What [pic_update_irq] leaves alone. *)
Lemma pic_update_irq_isr st st' c :
  pics_wf st -> pic_update_irq st = Done st' -> isr (pics st' c) = isr (pics st c).
Proof.
  intros Hwf E. destruct (pic_update_irq_spec st Hwf) as (r2 & r & _ & _ & E').
  rewrite E in E'. injection E' as ->. destruct c; [|done]. apply cascaded_frame.
Qed.

(** A non-specific EOI ends the highest-priority input in service. *)
Lemma eoi_command st c i :
  pics_wf st -> 0 <= i < 8 ->
  get_priority (pics st c) (isr (pics st c)) = Done (rank (pics st c) i) ->
  exists st', pic_write_command st c 0x20 = Done st' /\
    isr (pics st' c) = u8 (Z.land (isr (pics st c)) (Z.lnot (Z.shiftl 1 i))).
Proof.
  intros Hwf Hi Hgp. unfold pic_write_command.
  cbn -[get_priority pic_update_irq pics set_pics Z.land Z.lnot u8].
  change (nz (Z.land 32 16)) with false. change (nz (Z.land 32 8)) with false.
  change (Z.shiftr 32 5) with 1. cbn -[get_priority pic_update_irq pics set_pics Z.land Z.lnot u8].
  rewrite Hgp. cbn -[get_priority pic_update_irq pics set_pics Z.land Z.lnot u8].
  pose proof (rank_range (pics st c) i). destruct (Z.eqb_spec (rank (pics st c) i) 8); [lia|].
  change (Z.land (rank (pics st c) i + priority_add (pics st c)) 7)
    with (slot (pics st c) (rank (pics st c) i)).
  rewrite slot_rank by done. set (q := set_field _ _).
  assert (Hq : pic_wf q).
  { pose proof (pics_wf_chip st c Hwf) as Hc. destruct Hc. unfold q. pic_wf_tac. }
  pose proof (set_pics_wf st c q Hwf Hq) as Hwf'.
  destruct (pic_update_irq_wf _ Hwf') as (st' & E & _). exists st'. split; [exact E|].
  rewrite (pic_update_irq_isr _ _ c Hwf' E). by destruct c.
Qed.

(** C27. In fully nested mode, acknowledging a master interrupt [i] yields its
    vector, moves it from requested to in service and, until it ends, lets only
    strictly higher priorities be offered; a non-specific EOI (OCW2 0x20) then
    restores exactly the in-service register from before the acknowledge. *)
Theorem ack_then_eoi st i :
  pics_wf st -> fully_nested (pics0 st) -> deliverable (pics0 st) Master i -> i <> 2 ->
  exists st1,
    i8259_read_irq st = Done (irq_base (pics0 st) + i, st1) /\
    Z.testbit (isr (pics0 st1)) i = true /\ Z.testbit (irr (pics0 st1)) i = false /\
    (forall j, deliverable (pics0 st1) Master j -> rank (pics0 st) j < rank (pics0 st) i) /\
    exists st2, i8259_ioport_write st1 0x20 0x20 = Done st2 /\
      isr (pics0 st2) = isr (pics0 st).
Proof.
  intros Hwf Hfn Hd H2. pose proof Hd as (Hi & Hreq & Hmin & Hsv).
  destruct (read_irq_master st i Hwf Hd H2) as (r2 & b & ->).
  destruct Hwf as [Hw0 Hw1]. destruct Hfn as (Hauto & Hmask & Hsf).
  destruct (intack_frame (pics0 st) i Hauto) as (_ & Hadd & Hm' & Hf' & Hbase).
  set (p := pic_intack (pics0 st) i) in *.
  assert (Hp : pic_wf p) by (apply pic_intack_wf; done).
  destruct (cascaded_frame p r2) as (Hcisr & _ & Hcadd & _ & _ & Hcm & Hcf).
  assert (Hisr : isr p = Z.lor (isr (pics0 st)) (Z.shiftl 1 i)) by (apply intack_isr; done).
  assert (Htop : forall j, 0 <= j < 8 -> Z.testbit (isr (pics0 st)) j = true ->
                 rank (pics0 st) i < rank (pics0 st) j).
  { intros j Hj Hb. apply Hsv; [done|]. apply nested_in_service; done. }
  assert (Hfresh : Z.testbit (isr (pics0 st)) i = false).
  { destruct (Z.testbit (isr (pics0 st)) i) eqn:E; [|done]. specialize (Htop i Hi E). lia. }
  eexists. rewrite Hbase. split; [reflexivity|].
  cbn [pics0]. split; [|split; [|split]].
  - rewrite Hcisr, Hisr, testbit_set, bool_decide_true by (done || lia). apply orb_true_r.
  - rewrite (proj1 (cascaded_other p r2 i Hp ltac:(lia) H2)).
    unfold p. rewrite intack_irr, bool_decide_true by (done || lia). apply andb_false_r.
  - intros j (Hj & _ & _ & Hin). unfold rank. rewrite <- Hadd, <- Hcadd. apply (Hin i Hi).
    apply nested_in_service; [repeat split; rewrite ?Hcm, ?Hcf, ?Hm', ?Hf'; auto|].
    { destruct (cascaded_frame p r2) as (_ & _ & _ & _ & -> & _). unfold p, pic_intack.
      rewrite Hauto. done. }
    rewrite Hcisr, Hisr, testbit_set, bool_decide_true by (done || lia). apply orb_true_r.
  - destruct (eoi_command (mkPicState2 (cascaded p r2) (pics1 st) b) Master i) as (st2 & E & Hst2);
      [split; simpl; auto using cascaded_wf|done| |].
    + cbn [pics pics0]. rewrite Hcisr, Hisr. apply priority_of_top; [apply Hw0|done|].
      intros j Hj Hb. unfold rank. rewrite Hcadd, Hadd. apply Htop; done.
    + exists st2. split; [exact E|]. cbn [pics pics0] in Hst2. rewrite Hst2, Hcisr, Hisr.
      apply set_then_clear; done || apply Hw0.
Qed.

Definition nested_state : PicState2 :=
  i8259_init <| pics0 := pic_reset <| irr := 0x08 |> <| isr := 0x20 |> <| irq_base := 0x20 |> |>.

Lemma nested_state_wf : pics_wf nested_state.
Proof. split; constructor; split; vm_compute; congruence. Qed.

Lemma nested_state_offers : deliverable (pics0 nested_state) Master 3.
Proof.
  assert (H : pic_wf (pics0 nested_state)) by apply nested_state_wf.
  destruct (pic_get_irq_spec (pics0 nested_state) Master H) as (r & E & [Hd|[-> _]]);
    vm_compute in E; [|discriminate]. by injection E as <-.
Qed.

Lemma ack_then_eoi_witness :
  isr (pics0 nested_state) = 0x20 /\
  exists st1,
    i8259_read_irq nested_state = Done (0x20 + 3, st1) /\
    Z.testbit (isr (pics0 st1)) 3 = true /\ Z.testbit (irr (pics0 st1)) 3 = false /\
    (forall j, deliverable (pics0 st1) Master j ->
       rank (pics0 nested_state) j < rank (pics0 nested_state) 3) /\
    exists st2, i8259_ioport_write st1 0x20 0x20 = Done st2 /\
      isr (pics0 st2) = isr (pics0 nested_state).
Proof.
  split; [reflexivity|]. apply (ack_then_eoi nested_state 3).
  - apply nested_state_wf.
  - repeat split.
  - apply nested_state_offers.
  - discriminate.
Defined.

(** *** Vectors *)

(** The tail of the acknowledge: the pair is updated, the slave is left alone. *)
Lemma finish_ack st (v : Z) :
  pics_wf st -> exists st', (s ← pic_update_irq st; Done (v, s)) = Done (v, st') /\
    pics1 st' = pics1 st /\ pics_wf st'.
Proof.
  intros Hwf. destruct (pic_update_irq_spec st Hwf) as (r2 & r & _ & _ & ->).
  eexists. split; [reflexivity|]. split; [done|]. destruct Hwf. split; simpl; auto using cascaded_wf.
Qed.

Lemma intack_base s i : irq_base (pic_intack s i) = irq_base s.
Proof. unfold pic_intack. repeat case_match; done. Qed.

Lemma read_irq_spurious st :
  pics_wf st -> (forall i, ~ deliverable (pics0 st) Master i) ->
  exists st', i8259_read_irq st = Done (irq_base (pics0 st) + 7, st') /\
    pics1 st' = pics1 st /\ pics_wf st'.
Proof.
  intros Hwf Hn. unfold i8259_read_irq.
  destruct (pic_get_irq_spec (pics0 st) Master (proj1 Hwf)) as (r & -> & [Hd|[-> _]]);
    [by destruct (Hn r)|]. apply (finish_ack st). done.
Qed.

(** Input 2 of the master: the slave decides. *)
Lemma read_irq_cascade st r2 :
  pics_wf st -> deliverable (pics0 st) Master 2 -> pic_get_irq (pics1 st) Slave = Done r2 ->
  exists st', pics_wf st' /\
    i8259_read_irq st = Done (irq_base (pics1 st) + (if 0 <=? r2 then r2 else 7), st') /\
    pics1 st' = (if 0 <=? r2 then pic_intack (pics1 st) r2 else pics1 st).
Proof.
  intros [H0 H1] Hd Hr2. unfold i8259_read_irq.
  rewrite (pic_get_irq_done (pics0 st) Master 2) by done.
  change (pics1 (st <| pics0 := pic_intack (pics0 st) 2 |>)) with (pics1 st).
  cbn [mbind outcome_bind]. change (0 <=? 2) with true. change (2 =? 2) with true. cbn [pics1].
  cbv zeta. change (pics1 (st <| pics0 := pic_intack (pics0 st) 2 |>)) with (pics1 st).
  rewrite Hr2. cbn [mbind outcome_bind]. destruct (0 <=? r2); cbn [mbind outcome_bind fst snd].
  - destruct (finish_ack (mkPicState2 (pic_intack (pics0 st) 2) (pic_intack (pics1 st) r2)
      (cpu_intr st)) (irq_base (pic_intack (pics1 st) r2) + r2)) as (st' & E & Hs & Hw);
      [split; cbn; auto using pic_intack_wf|].
    exists st'. split; [done|]. rewrite <- (intack_base (pics1 st) r2). split; [exact E|exact Hs].
  - destruct (finish_ack (mkPicState2 (pic_intack (pics0 st) 2) (pics1 st) (cpu_intr st))
      (irq_base (pics1 st) + 7)) as (st' & E & Hs & Hw);
      [split; cbn; auto using pic_intack_wf|]. exists st'. split; [done|]. split; [exact E|exact Hs].
Qed.

Lemma read_irq_direct st i :
  pics_wf st -> deliverable (pics0 st) Master i -> i <> 2 ->
  exists st', i8259_read_irq st = Done (irq_base (pics0 st) + i, st') /\ pics_wf st'.
Proof.
  intros Hwf Hd H2. destruct (read_irq_master st i Hwf Hd H2) as (r2 & b & ->).
  rewrite intack_base. eexists. split; [reflexivity|]. destruct Hwf.
  split; cbn; auto using cascaded_wf, pic_intack_wf.
Qed.

(** The acknowledge returns the vector of the offered input on every path:
    a master input, a slave input through the cascade (base of the slave), the
    spurious vector 7 of the slave when the cascade has nothing behind it, and
    the spurious vector 7 of the master when nothing is offered. *)
Theorem read_irq_vector st :
  pics_wf st ->
  exists v st', i8259_read_irq st = Done (v, st') /\ pics_wf st' /\
    (forall i, deliverable (pics0 st) Master i -> i <> 2 -> v = irq_base (pics0 st) + i) /\
    (forall k, deliverable (pics0 st) Master 2 -> deliverable (pics1 st) Slave k ->
       v = irq_base (pics1 st) + k /\
       Z.testbit (irr (pics1 st')) k = false) /\
    (deliverable (pics0 st) Master 2 -> (forall k, ~ deliverable (pics1 st) Slave k) ->
       v = irq_base (pics1 st) + 7 /\ pics1 st' = pics1 st) /\
    ((forall i, ~ deliverable (pics0 st) Master i) ->
       v = irq_base (pics0 st) + 7 /\ pics1 st' = pics1 st).
Proof.
  intros Hwf. pose proof Hwf as [H0 H1].
  destruct (pic_get_irq_spec (pics0 st) Master H0) as (r & _ & [Hd|[_ Hn]]).
  2:{ destruct (read_irq_spurious st Hwf Hn) as (st' & E & Hs & Hw). eexists _, st'. split; [exact E|].
      repeat split; try (apply Hw); intros; try (exfalso; eapply Hn; eassumption); done. }
  destruct (decide (r = 2)) as [->|Hne].
  - destruct (pic_get_irq_spec (pics1 st) Slave H1) as (r2 & Hr2 & Hr2').
    destruct (read_irq_cascade st r2 Hwf Hd Hr2) as (st' & Hw & E & Hs). eexists _, st'.
    split; [exact E|split; [done|]].
    split; [intros i Hi; by rewrite (deliverable_unique _ _ _ _ Hi Hd)|].
    destruct Hr2' as [Hd2|[-> Hn2]].
    + pose proof (proj1 Hd2). destruct (Z.leb_spec 0 r2); [|lia].
      repeat split; intros; try (exfalso; naive_solver); rewrite (deliverable_unique _ _ k r2) by done;
        [done|]. rewrite Hs, intack_irr, bool_decide_true by (done || lia). apply andb_false_r.
    + simpl in *. repeat split; intros; try done; exfalso; naive_solver.
  - destruct (read_irq_direct st r Hwf Hd Hne) as (st' & E & Hw). eexists _, st'.
    split; [exact E|split; [done|]].
    split; [intros i Hi _; by rewrite (deliverable_unique _ _ _ _ Hi Hd)|].
    assert (Hno2 : ~ deliverable (pics0 st) Master 2)
      by (intros H2; apply Hne; eauto using deliverable_unique).
    repeat split; intros; exfalso; naive_solver.
Qed.

Lemma read_irq_vector_witness :
  exists v st', i8259_read_irq nested_state = Done (v, st') /\ pics_wf st' /\
    (forall i, deliverable (pics0 nested_state) Master i -> i <> 2 ->
       v = irq_base (pics0 nested_state) + i) /\
    (forall k, deliverable (pics0 nested_state) Master 2 -> deliverable (pics1 nested_state) Slave k ->
       v = irq_base (pics1 nested_state) + k /\ Z.testbit (irr (pics1 st')) k = false) /\
    (deliverable (pics0 nested_state) Master 2 ->
       (forall k, ~ deliverable (pics1 nested_state) Slave k) ->
       v = irq_base (pics1 nested_state) + 7 /\ pics1 st' = pics1 nested_state) /\
    ((forall i, ~ deliverable (pics0 nested_state) Master i) ->
       v = irq_base (pics0 nested_state) + 7 /\ pics1 st' = pics1 nested_state).
Proof. apply (read_irq_vector nested_state). apply nested_state_wf. Defined.

(** *** From the line to the vector *)

Lemma quiet_slave st : (forall k, ~ deliverable (pics1 st) Slave k) -> pic_wf (pics1 st) ->
  pic_get_irq (pics1 st) Slave = Done (-1).
Proof. intros Hn Hw. destruct (pic_get_irq_spec _ Slave Hw) as (r & -> & [Hd|[-> _]]); [by destruct (Hn r)|done]. Qed.

Lemma update_quiet_slave st i :
  pics_wf st -> (forall k, ~ deliverable (pics1 st) Slave k) -> deliverable (pics0 st) Master i ->
  pic_update_irq st = Done (mkPicState2 (pics0 st) (pics1 st) true).
Proof.
  intros Hwf Hq Hd. pose proof Hwf as [H0 H1].
  destruct (pic_update_irq_spec st Hwf) as (r2 & r & Hr2 & Hr & ->).
  rewrite quiet_slave in Hr2 by done. injection Hr2 as <-. change (cascaded (pics0 st) (-1)) with (pics0 st) in *.
  rewrite (pic_get_irq_done _ _ i) in Hr by done. injection Hr as <-.
  pose proof (proj1 Hd). destruct (Z.leb_spec 0 i); [done|lia].
Qed.

(** Input [i] outranks what the chip has pending and in service. *)
Definition outranks (s : PicState) (i : Z) : Prop :=
  (forall j, 0 <= j < 8 -> requested s j -> rank s i <= rank s j) /\
  (forall j, 0 <= j < 8 -> in_service s Master j -> rank s i < rank s j).

Lemma rise_deliverable s i :
  pic_wf s -> 0 <= i < 8 -> Z.testbit (last_irr s) i = false -> Z.testbit (imr s) i = false ->
  outranks s i -> deliverable (pic_set_irq1 s i 1) Master i.
Proof.
  intros Hwf Hi Hlow Hmask [Hmin Hsv].
  destruct (pic_set_irq1_frame s i 1) as (Hisr & Himr & Hadd & _ & _ & Hm & Hf).
  unfold deliverable, requested, in_service, rank in *. rewrite Hisr, Himr, Hadd, Hm, Hf.
  split; [done|]. split; [|split; [|done]].
  - rewrite pic_rise_irr, bool_decide_true, Hlow by done. split; [apply orb_true_r|done].
  - intros j Hj [Hb Hmj]. rewrite pic_rise_irr in Hb by done.
    destruct (bool_decide_reflect (i = j)) as [->|]; [lia|].
    rewrite orb_false_r in Hb. by apply Hmin.
Qed.

(** C22. A device pulse on an unmasked master line that outranks what is pending
    and in service, with no slave request, interrupts the CPU, and the
    acknowledge that follows yields that line's vector. *)
Theorem pulse_delivers st irq :
  pics_wf st -> 0 <= irq < 8 -> irq <> 2 ->
  Z.testbit (last_irr (pics0 st)) irq = false -> Z.testbit (imr (pics0 st)) irq = false ->
  outranks (pics0 st) irq -> (forall k, ~ deliverable (pics1 st) Slave k) ->
  exists st' st'', pulse_irq (Done st) irq = Done st' /\ cpu_intr st' = true /\
    i8259_read_irq st' = Done (irq_base (pics0 st) + irq, st'').
Proof.
  intros Hwf Hi H2 Hlow Hmask Hout Hq. pose proof Hwf as [H0 H1].
  pose proof (rise_deliverable (pics0 st) irq H0 Hi Hlow Hmask Hout) as Hd.
  assert (Hk : Z.land irq 7 = irq) by (rewrite land7, Z.mod_small; lia).
  unfold pulse_irq. change (set_irq (Done st) irq 1) with (i8259_set_irq st irq 1).
  rewrite i8259_set_irq_chip by lia. cbv zeta. destruct (Z.ltb_spec irq 8); [|lia]. rewrite Hk.
  cbn [pics]. set (p := pic_set_irq1 (pics0 st) irq 1) in *.
  assert (Hp : pic_wf p) by (apply pic_set_irq1_wf; done).
  rewrite (update_quiet_slave _ irq) by (done || by split). cbn [pics0 pics1 set_pics].
  set (st1 := mkPicState2 _ _ true).
  change (set_irq (Done st1) irq 0) with (i8259_set_irq st1 irq 0).
  rewrite i8259_set_irq_chip by lia. cbv zeta. destruct (Z.ltb_spec irq 8); [|lia]. rewrite Hk.
  assert (Hp' : pic_wf (pic_set_irq1 p irq 0)) by (apply pic_set_irq1_wf; done).
  rewrite (update_quiet_slave _ irq) by (done || by split).
  set (st2 := mkPicState2 _ _ true). exists st2.
  destruct (read_irq_master st2 irq) as (r2 & b & Hread); [by split|exact Hd|done|].
  eexists. split; [reflexivity|]. split; [reflexivity|]. rewrite Hread. f_equal. f_equal. f_equal.
  change (pics0 st2) with (pic_set_irq1 p irq 0). rewrite intack_base.
  destruct (pic_set_irq1_frame p irq 0) as (_ & _ & _ & -> & _).
  destruct (pic_set_irq1_frame (pics0 st) irq 1) as (_ & _ & _ & Hb & _). exact Hb.
Qed.

Lemma init_quiet k : ~ deliverable pic_reset Slave k.
Proof.
  destruct (pic_get_irq_spec pic_reset Slave pic_reset_wf) as (r & Hr & [Hd|[_ Hn]]); [|auto].
  vm_compute in Hr. injection Hr as <-. destruct Hd as [Hd _]. vm_compute in Hd. naive_solver.
Qed.

Lemma pulse_delivers_witness :
  exists st' st'', pulse_irq (Done i8259_init) 3 = Done st' /\ cpu_intr st' = true /\
    i8259_read_irq st' = Done (irq_base (pics0 i8259_init) + 3, st'').
Proof.
  apply (pulse_delivers i8259_init 3);
    [split; apply pic_reset_wf|lia|lia|reflexivity|reflexivity| |apply init_quiet].
  split; intros j Hj; unfold requested, in_service; simpl; rewrite Z.testbit_0_l; naive_solver.
Defined.

End Pic.
