(* ===== verification/I8254.v ===== *)
(** The 8254 interval timer (src/source/winspire/i8254.c).

    [PITChannelState] is one counter and [PITState P] the device, with the
    interrupt controller its [set_irq] callback drives, of any type [P].  Every
    call of [get_uticks] is a reading of the clock [C]. *)

From S2P Require Import Prelude I8259.
Local Open Scope Z_scope.
Set Warnings "-clear-no-such-hyp".

Module Pit.

(** ** Data *)

Record PITChannelState := mkChan {
  count : Z; latched_count : Z; count_latched : Z; status_latched : Z; status : Z;
  read_state : Z; write_state : Z; write_latch : Z; rw_mode : Z; mode : Z; bcd : Z; gate : Z;
  count_load_time : Z; last_irq_count : Z; irq : Z;
}.
#[export] Instance eta_PITChannelState : Eta PITChannelState := fun s =>
  mkChan (count s) (latched_count s) (count_latched s) (status_latched s) (status s)
    (read_state s) (write_state s) (write_latch s) (rw_mode s) (mode s) (bcd s) (gate s)
    (count_load_time s) (last_irq_count s) (irq s).

Definition chan_zero : PITChannelState := mkChan 0 0 0 0 0 0 0 0 0 0 0 0 0 0 0.
#[export] Instance chan_inhabited : Inhabited PITChannelState := populate chan_zero.

Record PITState (P : Type) := mkPIT { channels : list PITChannelState; pic : P }.
Arguments mkPIT {P} _ _.
Arguments channels {P} _.
Arguments pic {P} _.

Definition PIT_FREQ : Z := 1193182.
Definition RW_STATE_LSB : Z := 1.
Definition RW_STATE_MSB : Z := 2.
Definition RW_STATE_WORD0 : Z := 3.
Definition RW_STATE_WORD1 : Z := 4.

(** Timer ticks since the count was loaded:
    [((uint64_t) (now - s->count_load_time)) * PIT_FREQ / 1000000] in 32 bits. *)
Definition elapsed (s : PITChannelState) (now : Z) : Z :=
  u32 (u64 (u32 (now - count_load_time s) * PIT_FREQ) / 1000000).

(** The C remainder of unsigned integers; by zero it traps. *)
Definition umod (a b : Z) : outcome Z := if b =? 0 then Stuck DivideByZero else Done (a mod b).

Definition pit_count_at (s : PITChannelState) (now : Z) : outcome Z :=
  let d := elapsed s now in
  match mode s with
  | 0 | 1 | 4 | 5 => Done (Z.land (u32 (count s - d)) 0xffff)
  | 3 => r ← umod (u32 (2 * d)) (count s); Done (s32 (u32 (count s - r)))
  | _ => r ← umod d (count s); Done (s32 (u32 (count s - r)))
  end.

Definition pit_get_out1 (s : PITChannelState) (current_time : Z) : outcome Z :=
  let d := elapsed s current_time in
  match mode s with
  | 1 => Done (b2z (d <? count s))
  | 2 => r ← umod d (count s); Done (b2z ((r =? 0) && negb (d =? 0)))
  | 3 => r ← umod d (count s); Done (b2z (r <? Z.shiftr (u32 (count s + 1)) 1))
  | 4 | 5 => Done (b2z (d =? count s))
  | _ => Done (b2z (count s <=? d))
  end.

Section Device.
Context {P : Type} `{IrqSink P} {C : Type} `{Clock C}.

Definition chan (pit : PITState P) (i : Z) : outcome PITChannelState := rd (channels pit) i.
Definition set_chan (pit : PITState P) (i : Z) (s : PITChannelState) : PITState P :=
  mkPIT (arr_set (channels pit) i s) (pic pit).

Definition pit_get_count (s : PITChannelState) : ST C Z :=
  t ← now; lift (pit_count_at s t).

Definition pit_load_count (s : PITChannelState) (val : Z) : ST C PITChannelState :=
  t ← now;
  let val := if val =? 0 then 0x10000 else val in
  mret (s <| count_load_time := t |> <| last_irq_count := 0 |> <| count := u32 val |>).

Definition pit_latch_count (s : PITChannelState) : ST C PITChannelState :=
  if count_latched s =? 0 then
    n ← pit_get_count s;
    mret (s <| latched_count := u16 n |> <| count_latched := rw_mode s |>)
  else mret s.

(** The status byte of the read-back command. *)
Definition pit_latch_status (s : PITChannelState) : ST C PITChannelState :=
  t ← now;
  out ← lift (pit_get_out1 s t);
  mret (s <| status := u8 (Z.lor (Z.lor (Z.lor (Z.shiftl out 7) (Z.shiftl (rw_mode s) 4))
                              (Z.shiftl (mode s) 1)) (bcd s)) |>
           <| status_latched := 1 |>).

(** One round of the read-back loop. *)
Definition read_back (pit : PITState P) (val channel : Z) : ST C (PITState P) :=
  s ← lift (chan pit channel);
  if Z.land val (Z.shiftl 2 channel) =? 0 then mret pit else
  s ← (if Z.land val 0x20 =? 0 then pit_latch_count s else mret s);
  s ← (if (Z.land val 0x10 =? 0) && (status_latched s =? 0) then pit_latch_status s else mret s);
  mret (set_chan pit channel s).

(** The control word of one counter. *)
Definition control_word (s : PITChannelState) (val access : Z) : PITChannelState :=
  let m := Z.land (Z.shiftr val 1) 7 in
  s <| rw_mode := access |> <| read_state := access |> <| write_state := access |>
    <| mode := if 5 <? m then Z.land m 3 else m |> <| bcd := Z.land val 1 |>.

Definition write_count (s : PITChannelState) (val : Z) : ST C PITChannelState :=
  match write_state s with
  | 2 => pit_load_count s (s32 (u32 (Z.shiftl val 8)))
  | 3 => mret (s <| write_latch := u8 val |> <| write_state := RW_STATE_WORD1 |>)
  | 4 => s ← pit_load_count s (s32 (u32 (Z.lor (write_latch s) (Z.shiftl val 8))));
         mret (s <| write_state := RW_STATE_WORD0 |>)
  | _ => pit_load_count s (s32 val)
  end.

Definition i8254_ioport_write (pit : PITState P) (addr val : Z) : ST C (PITState P) :=
  let addr := Z.land addr 3 in
  if addr =? 3 then
    let channel := Z.shiftr val 6 in
    if channel =? 3 then
      pit ← read_back pit val 0; pit ← read_back pit val 1; read_back pit val 2
    else
      s ← lift (chan pit channel);
      let access := Z.land (Z.shiftr val 4) 3 in
      s ← (if access =? 0 then pit_latch_count s else mret (control_word s val access));
      mret (set_chan pit channel s)
  else
    s ← lift (chan pit addr);
    s ← write_count s val;
    mret (set_chan pit addr s).

(** The read of one counter. *)
Definition read_chan (s : PITChannelState) : ST C (Z * PITChannelState) :=
  if nz (status_latched s) then mret (status s, s <| status_latched := 0 |>)
  else if nz (count_latched s) then
    match count_latched s with
    | 2 => mret (Z.shiftr (latched_count s) 8, s <| count_latched := 0 |>)
    | 3 => mret (Z.land (latched_count s) 0xff, s <| count_latched := RW_STATE_MSB |>)
    | _ => mret (Z.land (latched_count s) 0xff, s <| count_latched := 0 |>)
    end
  else
    n ← pit_get_count s;
    match read_state s with
    | 2 => mret (Z.land (Z.shiftr n 8) 0xff, s)
    | 3 => mret (Z.land n 0xff, s <| read_state := RW_STATE_WORD1 |>)
    | 4 => mret (Z.land (Z.shiftr n 8) 0xff, s <| read_state := RW_STATE_WORD0 |>)
    | _ => mret (Z.land n 0xff, s)
    end.

(** [addr & 3] is not compared with the number of counters: 3 is outside. *)
Definition i8254_ioport_read (pit : PITState P) (addr : Z) : ST C (Z * PITState P) :=
  let addr := Z.land addr 3 in
  s ← lift (chan pit addr);
  rs ← read_chan s;
  mret (rs.1, set_chan pit addr rs.2).

Definition reset_chan (s : PITChannelState) (i : Z) : ST C PITChannelState :=
  s ← pit_load_count (s <| mode := 3 |> <| gate := b2z (negb (i =? 2)) |>) 0;
  mret (s <| irq := -1 |>).

Definition i8254_init (p : P) (irq0 : Z) : ST C (PITState P) :=
  s0 ← reset_chan chan_zero 0; s1 ← reset_chan chan_zero 1; s2 ← reset_chan chan_zero 2;
  mret (mkPIT [s0 <| irq := irq0 |>; s1; s2] p).

(** The poll of counter 0: a pulse on its line when a period has ended. *)
Definition update_periodic (s : PITChannelState) (p : P) (uticks : Z) : ST C (PITChannelState * P) :=
  let d := elapsed s uticks in
  r ← lift (umod d (count s));
  let due_count := u32 (d - r) in
  let pending := u32 (due_count - last_irq_count s) in
  if pending <? count s then mret (s, p) else
  if irq s =? -1 then mret (s, p) else
  let p := set_irq (set_irq p (irq s) 1) (irq s) 0 in
  let s := s <| last_irq_count := due_count |> in
  if 2 ^ 31 <? u32 (uticks - count_load_time s) then
    s ← pit_load_count s (s32 (count s)); mret (s, p)
  else mret (s, p).

Definition update_one_shot (s : PITChannelState) (p : P) (uticks : Z) : PITChannelState * P :=
  let d := elapsed s uticks in
  if (last_irq_count s =? 0) && (count s <=? d) && negb (irq s =? -1) then
    (s <| last_irq_count := count s |>, set_irq (set_irq p (irq s) 1) (irq s) 0)
  else (s, p).

Definition update_chan (s : PITChannelState) (p : P) : ST C (PITChannelState * P) :=
  uticks ← now;
  match mode s with
  | 2 | 3 => update_periodic s p uticks
  | 0 | 1 | 4 | 5 => mret (update_one_shot s p uticks)
  | _ => mret (s, p)
  end.

Definition i8254_update_irq (pit : PITState P) : ST C (PITState P) :=
  s ← lift (chan pit 0);
  sp ← update_chan s (pic pit);
  mret (mkPIT (arr_set (channels pit) 0 sp.1) sp.2).

Definition i8254_rebase (pit : PITState P) : ST C (PITState P) :=
  t ← now;
  let set s := s <| count_load_time := t |> <| last_irq_count := 0 |> in
  s0 ← lift (chan pit 0); s1 ← lift (chan pit 1); s2 ← lift (chan pit 2);
  mret (set_chan (set_chan (set_chan pit 0 (set s0)) 1 (set s1)) 2 (set s2)).

Definition pit_get_out (pit : PITState P) (channel : Z) : ST C Z :=
  s ← lift (chan pit channel);
  t ← now; lift (pit_get_out1 s t).

Definition pit_get_gate (pit : PITState P) (channel : Z) : outcome Z :=
  s ← chan pit channel; Done (gate s).

Definition gate_restarts (s : PITChannelState) (val : Z) : bool :=
  match mode s with 1 | 5 | 2 | 3 => gate s <? val | _ => false end.

Definition pit_set_gate (pit : PITState P) (channel val : Z) : ST C (PITState P) :=
  s ← lift (chan pit channel);
  s ← (if gate_restarts s val then t ← now; mret (s <| count_load_time := t |>) else mret s);
  mret (set_chan pit channel (s <| gate := u8 val |>)).

Definition pit_get_initial_count (pit : PITState P) (channel : Z) : outcome Z :=
  s ← chan pit channel; Done (s32 (count s)).

Definition pit_get_mode (pit : PITState P) (channel : Z) : outcome Z :=
  s ← chan pit channel; Done (mode s).

End Device.

(** ** Well-formed counters

    The divisor is between 1 and 65536 whatever the guest writes, so no read,
    poll or output query divides by zero. *)

Record chan_wf (s : PITChannelState) : Prop := {
  wf_count : 1 <= count s <= 65536;
  wf_latched : inw 16 (latched_count s);
  wf_count_latched : 0 <= count_latched s <= 3;
  wf_status : inw 8 (status s);
  wf_read_state : 0 <= read_state s <= 4;
  wf_write_state : 0 <= write_state s <= 4;
  wf_write_latch : inw 8 (write_latch s);
  wf_rw_mode : 0 <= rw_mode s <= 3;
  wf_mode : 0 <= mode s <= 5;
  wf_load_time : inw 32 (count_load_time s);
  wf_last_irq : inw 32 (last_irq_count s);
}.

Definition pit_wf {P} `{IrqSinkLaws P} (pit : PITState P) : Prop :=
  exists s0 s1 s2, channels pit = [s0; s1; s2] /\ chan_wf s0 /\ chan_wf s1 /\ chan_wf s2 /\
    irq_line (irq s0) /\ sink_ok (pic pit).

Ltac chan_wf_tac :=
  intros; match goal with Hw : chan_wf _ |- chan_wf _ => destruct Hw end;
  constructor; cbn -[Z.land Z.lor Z.shiftl Z.shiftr u8 u16 u32];
  unfold RW_STATE_LSB, RW_STATE_MSB, RW_STATE_WORD0, RW_STATE_WORD1;
  try (lia || eauto 4 with width).

Lemma elapsed_width s t : inw 32 (elapsed s t).
Proof. apply inw_u32. Qed.

Lemma umod_ok a b : 1 <= b -> 0 <= a -> exists r, umod a b = Done r /\ r = a mod b /\ 0 <= r < b.
Proof.
  intros Hb Ha. unfold umod. destruct (Z.eqb_spec b 0); [lia|].
  exists (a mod b). pose proof (Z.mod_pos_bound a b). split; [done|]. split; [done|lia].
Qed.

Lemma s32_small z : 0 <= z < 2 ^ 31 -> s32 z = z.
Proof.
  intros Hz. unfold s32, sgn. rewrite Z.mod_small by lia.
  destruct (Z.ltb_spec z (2 ^ (32 - 1))); lia.
Qed.

(** The count a read returns is a number below 65537, on every branch. *)
Lemma pit_count_at_ok s t :
  chan_wf s -> exists n, pit_count_at s t = Done n /\ 0 <= n <= 65536.
Proof.
  intros Hw. destruct Hw as [Hc _ _ _ _ _ _ _ Hm _ _]. unfold pit_count_at.
  pose proof (elapsed_width s t) as [Hd _].
  assert (Hmask : exists n, Done (Z.land (u32 (count s - elapsed s t)) 0xffff) = Done n /\
    0 <= n <= 65536).
  { eexists. split; [reflexivity|]. change 0xffff with (Z.ones 16). rewrite Z.land_ones by lia.
    pose proof (Z.mod_pos_bound (u32 (count s - elapsed s t)) (2 ^ 16)). lia. }
  assert (Hmod : forall a, 0 <= a -> exists n,
    (r ← umod a (count s); Done (s32 (u32 (count s - r)))) = Done n /\ 0 <= n <= 65536).
  { intros a Ha. destruct (umod_ok a (count s)) as (r & -> & _ & Hr); [lia..|]. simpl.
    eexists. split; [reflexivity|]. rewrite u32_id, s32_small by (unfold inw; lia). lia. }
  assert (0 <= u32 (2 * elapsed s t)) by apply inw_u32.
  repeat case_match; eauto; try (by apply Hmod).
Qed.

Lemma pit_get_out1_ok s t : chan_wf s -> exists o, pit_get_out1 s t = Done o /\ 0 <= o <= 1.
Proof.
  intros Hw. destruct Hw as [Hc _ _ _ _ _ _ _ Hm _ _]. unfold pit_get_out1.
  pose proof (elapsed_width s t) as [Hd _].
  destruct (umod_ok (elapsed s t) (count s)) as (r & -> & _ & Hr); [lia..|].
  assert (Hb : forall b, exists o, Done (b2z b) = Done o /\ 0 <= o <= 1)
    by (intros b; exists (b2z b); split; [done|destruct b; simpl; lia]).
  repeat case_match; simpl; apply Hb.
Qed.

Section Safety.
Context {P : Type} `{IrqSinkLaws P} {C : Type} `{ClockLaws C}.

(** A register access never gets stuck on a well-formed counter, and keeps it
    well formed, with the same interrupt line. *)
Definition keeps (s : PITChannelState) (m : ST C PITChannelState) : Prop :=
  forall c, run_to m c (fun s' _ => chan_wf s' /\ irq s' = irq s).

Lemma pit_wf_intro s0 s1 s2 (p : P) :
  chan_wf s0 -> chan_wf s1 -> chan_wf s2 -> irq_line (irq s0) -> sink_ok p ->
  pit_wf (mkPIT [s0; s1; s2] p).
Proof. intros. by exists s0, s1, s2. Qed.

Lemma chan_lookup (pit : PITState P) i :
  pit_wf pit -> 0 <= i < 3 ->
  exists s, chan pit i = Done s /\ chan_wf s /\
    forall s', chan_wf s' -> irq s' = irq s -> pit_wf (set_chan pit i s').
Proof.
  intros (s0 & s1 & s2 & E & H3 & H4 & H5 & Hl & Hs) Hi. unfold chan, set_chan. rewrite E.
  assert (i = 0 \/ i = 1 \/ i = 2) as [-> |[-> | -> ]] by lia.
  - exists s0. split; [done|]. split; [done|]. intros s' Hw Hirq.
    apply (pit_wf_intro s' s1 s2); by rewrite ?Hirq.
  - exists s1. split; [done|]. split; [done|]. intros. by apply (pit_wf_intro s0 s' s2).
  - exists s2. split; [done|]. split; [done|]. intros. by apply (pit_wf_intro s0 s1 s').
Qed.

Lemma pit_get_count_run s c :
  chan_wf s -> run_to (pit_get_count s) c (fun n _ => 0 <= n <= 65536).
Proof.
  intros Hw. unfold pit_get_count. eapply run_bind; [by apply (run_now (C:=C)); intros t c' _; exact I|].
  intros t c' _. destruct (pit_count_at_ok s t Hw) as (n & E & Hn). by eapply run_lift.
Qed.

Lemma pit_load_count_keeps s val : chan_wf s -> 0 <= val <= 65536 -> keeps s (pit_load_count s val).
Proof.
  intros Hw Hv c. unfold pit_load_count. eapply run_bind; [apply (run_now c (fun t _ => inw 32 t)); done|].
  intros t c' Ht. apply run_ret. split; [|done].
  assert (1 <= u32 (if val =? 0 then 0x10000 else val) <= 65536).
  { destruct (Z.eqb_spec val 0); rewrite u32_id by (unfold inw; lia); lia. }
  chan_wf_tac.
Qed.

Lemma pit_latch_count_keeps s : chan_wf s -> keeps s (pit_latch_count s).
Proof.
  intros Hw c. unfold pit_latch_count. case_match; [|by apply run_ret].
  eapply run_bind; [by apply pit_get_count_run|]. intros n c' _. apply run_ret.
  split; [chan_wf_tac|done].
Qed.

Lemma pit_latch_status_keeps s : chan_wf s -> keeps s (pit_latch_status s).
Proof.
  intros Hw c. unfold pit_latch_status.
  eapply run_bind; [apply (run_now c (fun t _ => inw 32 t)); done|]. intros t c' _.
  destruct (pit_get_out1_ok s t Hw) as (o & E & _).
  eapply run_bind; [by apply (run_lift _ _ _ (fun _ _ => True) E)|]. intros o' c'' _.
  apply run_ret. split; [chan_wf_tac|done].
Qed.

Lemma control_word_wf s val access :
  chan_wf s -> 1 <= access <= 3 -> chan_wf (control_word s val access).
Proof.
  intros Hw Ha. unfold control_word.
  assert (inw 3 (Z.land (Z.shiftr val 1) 7)) as [? ?] by eauto with width.
  assert (inw 2 (Z.land (Z.land (Z.shiftr val 1) 7) 3)) as [? ?] by eauto with width.
  destruct (Z.ltb_spec 5 (Z.land (Z.shiftr val 1) 7)); chan_wf_tac.
Qed.

Lemma word_bound latch val :
  inw 8 latch -> inw 8 val -> s32 (u32 (Z.lor latch (Z.shiftl val 8))) = Z.lor latch (Z.shiftl val 8) /\
  0 <= Z.lor latch (Z.shiftl val 8) <= 65535.
Proof.
  intros Hl Hv. assert (Hw : inw 16 (Z.lor latch (Z.shiftl val 8))).
  { apply inw_lor; [apply (inw_mono 8); [done|lia]|]. by apply (inw_shiftl 8 8). }
  destruct Hw. rewrite u32_id, s32_small by (unfold inw; lia). lia.
Qed.

Lemma write_count_keeps s val : chan_wf s -> inw 8 val -> keeps s (write_count s val).
Proof.
  intros Hw Hv c. pose proof Hv as [??]. unfold write_count.
  assert (Hlsb : keeps s (pit_load_count s (s32 val)))
    by (rewrite s32_small by lia; apply pit_load_count_keeps; [done|lia]).
  destruct (word_bound 0 val) as [Emsb ?]; [split; lia|done|]. rewrite Z.lor_0_l in *.
  destruct (word_bound (write_latch s) val) as [Ew ?]; [apply Hw|done|].
  repeat case_match; first
    [ apply Hlsb
    | rewrite Emsb; apply pit_load_count_keeps; [done|lia]
    | apply run_ret; split; [solve [chan_wf_tac]|done]
    | rewrite Ew; eapply run_bind; [apply pit_load_count_keeps; [done|lia]|];
      intros s' c' [Hw' Hi]; apply run_ret; split; [solve [chan_wf_tac]|done] ].
Qed.

Lemma read_chan_run s c :
  chan_wf s -> run_to (read_chan s) c (fun rs _ => inw 8 rs.1 /\ chan_wf rs.2 /\ irq rs.2 = irq s).
Proof.
  intros Hw. unfold read_chan.
  assert (Hb : forall z, inw 8 (Z.land z 255)) by (intros; apply inw_land_r; eauto with width).
  assert (inw 8 (Z.shiftr (latched_count s) 8)) by (apply (inw_shiftr_to 8 8); [lia..|apply Hw]).
  case_match; [apply run_ret; repeat split; simpl; try apply Hw; chan_wf_tac|].
  case_match.
  - repeat case_match; apply run_ret; (split; [simpl; auto|split; [chan_wf_tac|done]]).
  - eapply run_bind; [by apply pit_get_count_run|]. intros n c' Hn.
    repeat case_match; apply run_ret; (split; [simpl; auto|split; [first [exact Hw|chan_wf_tac]|done]]).
Qed.

Lemma read_back_run pit val i c :
  pit_wf pit -> 0 <= i < 3 ->
  run_to (read_back pit val i) c (fun pit' _ => pit_wf pit').
Proof.
  intros Hp Hi. destruct (chan_lookup pit i Hp Hi) as (s & Es & Hw & Hset).
  unfold read_back. eapply run_bind; [by apply (run_lift _ _ _ (fun s' _ => s' = s) Es)|].
  intros ? c1 ->. case_match; [by apply run_ret|].
  eapply (run_bind _ _ _ (fun s' _ => chan_wf s' /\ irq s' = irq s));
    [case_match; [by apply pit_latch_count_keeps|by apply run_ret]|].
  intros s1 c2 [Hw1 Hi1].
  eapply (run_bind _ _ _ (fun s' _ => chan_wf s' /\ irq s' = irq s)).
  - case_match; [|by apply run_ret]. eapply run_mono; [by apply pit_latch_status_keeps|].
    intros s2 ? [? ?]. split; [done|congruence].
  - intros s2 c3 [Hw2 Hi2]. apply run_ret. by apply Hset.
Qed.

Lemma i8254_write_run pit addr val c :
  pit_wf pit -> inw 8 val ->
  run_to (i8254_ioport_write pit addr val) c (fun pit' _ => pit_wf pit').
Proof.
  intros Hp Hv. unfold i8254_ioport_write.
  assert (inw 2 (Z.land addr 3)) as [? ?] by eauto with width.
  assert (inw 2 (Z.shiftr val 6)) as [? ?] by (apply (inw_shiftr_to 2 6); lia || done).
  destruct (Z.eqb_spec (Z.land addr 3) 3); [destruct (Z.eqb_spec (Z.shiftr val 6) 3)|].
  - eapply run_bind; [apply read_back_run; lia || done|]. intros ? ? ?.
    eapply run_bind; [apply read_back_run; lia || done|]. intros ? ? ?.
    apply read_back_run; lia || done.
  - destruct (chan_lookup pit (Z.shiftr val 6) Hp ltac:(lia)) as (s & Es & Hw & Hset).
    eapply run_bind; [by apply (run_lift _ _ _ (fun s' _ => s' = s) Es)|]. intros ? c1 ->.
    assert (inw 2 (Z.land (Z.shiftr val 4) 3)) as [? ?] by eauto with width.
    eapply (run_bind _ _ _ (fun s' _ => chan_wf s' /\ irq s' = irq s)).
    + case_match eqn:E; [by apply pit_latch_count_keeps|]. apply Z.eqb_neq in E.
      apply run_ret. split; [|done]. apply control_word_wf; [done|lia].
    + intros s1 c2 [? ?]. apply run_ret. by apply Hset.
  - destruct (chan_lookup pit (Z.land addr 3) Hp ltac:(lia)) as (s & Es & Hw & Hset).
    eapply run_bind; [by apply (run_lift _ _ _ (fun s' _ => s' = s) Es)|]. intros ? c1 ->.
    eapply run_bind; [by apply write_count_keeps|]. intros s1 c2 [? ?]. apply run_ret. by apply Hset.
Qed.

Lemma i8254_read_run pit addr c :
  pit_wf pit -> Z.land addr 3 <> 3 ->
  run_to (i8254_ioport_read pit addr) c (fun rp _ => inw 8 rp.1 /\ pit_wf rp.2).
Proof.
  intros Hp Ha. assert (inw 2 (Z.land addr 3)) as [? ?] by eauto with width.
  destruct (chan_lookup pit (Z.land addr 3) Hp ltac:(lia)) as (s & Es & Hw & Hset).
  unfold i8254_ioport_read.
  eapply run_bind; [by apply (run_lift _ _ _ (fun s' _ => s' = s) Es)|]. intros ? c1 ->.
  eapply run_bind; [by apply read_chan_run|]. intros [r s1] c2 (? & ? & ?). apply run_ret.
  split; [done|]. by apply Hset.
Qed.

(** *** The poll, the rebase and the gate *)

Lemma update_periodic_run s p t c :
  chan_wf s -> irq_line (irq s) -> sink_ok p ->
  run_to (update_periodic s p t) c
    (fun sp _ => chan_wf sp.1 /\ irq sp.1 = irq s /\ sink_ok sp.2).
Proof.
  intros Hw Hl Hs. unfold update_periodic. pose proof (elapsed_width s t) as [Hd _].
  destruct (umod_ok (elapsed s t) (count s)) as (r & E & _ & Hr); [apply Hw|done|].
  eapply run_bind; [by apply (run_lift _ _ _ (fun _ _ => True) E)|]. intros r' c1 _.
  case_match; [by apply run_ret|]. case_match; [by apply run_ret|].
  set (s1 := s <| last_irq_count := _ |>). assert (chan_wf s1) by (subst s1; chan_wf_tac).
  case_match; [|apply run_ret; simpl; auto 6 using sink_set_ok].
  eapply run_bind.
  - apply pit_load_count_keeps; [done|]. change (count s1) with (count s).
    destruct (wf_count s Hw). rewrite s32_small; lia.
  - intros s2 c2 [? ?]. apply run_ret. simpl; auto 6 using sink_set_ok.
Qed.

Lemma update_one_shot_wf s p t :
  chan_wf s -> irq_line (irq s) -> sink_ok p ->
  let sp := update_one_shot s p t in chan_wf sp.1 /\ irq sp.1 = irq s /\ sink_ok sp.2.
Proof.
  intros Hw Hl Hs. unfold update_one_shot. case_match; [|done]. simpl.
  assert (inw 32 (count s)) by (destruct (wf_count s Hw); unfold inw; lia).
  repeat apply conj; auto using sink_set_ok. chan_wf_tac.
Qed.

Lemma update_chan_run s p c :
  chan_wf s -> irq_line (irq s) -> sink_ok p ->
  run_to (update_chan s p) c (fun sp _ => chan_wf sp.1 /\ irq sp.1 = irq s /\ sink_ok sp.2).
Proof.
  intros Hw Hl Hs. unfold update_chan.
  eapply run_bind; [apply (run_now c (fun t _ => inw 32 t)); done|]. intros t c1 _.
  repeat case_match; first
    [ by apply update_periodic_run | apply run_ret; by apply update_one_shot_wf | by apply run_ret ].
Qed.

Lemma i8254_update_run pit c :
  pit_wf pit -> run_to (i8254_update_irq pit) c (fun pit' _ => pit_wf pit').
Proof.
  intros (s0 & s1 & s2 & E & H3 & H4 & H5 & Hl & Hs). unfold i8254_update_irq, chan. rewrite E.
  eapply run_bind; [by apply (run_lift _ s0 _ (fun s' _ => s' = s0))|]. intros ? c1 ->.
  eapply run_bind; [by apply update_chan_run|]. intros [s0' p'] c2 (Hw & Hi & Hp). apply run_ret.
  simpl in *. apply (pit_wf_intro s0' s1 s2); try done. by rewrite Hi.
Qed.

Lemma i8254_rebase_run pit c :
  pit_wf pit -> run_to (i8254_rebase pit) c (fun pit' _ => pit_wf pit').
Proof.
  intros (s0 & s1 & s2 & E & H3 & H4 & H5 & Hl & Hs). unfold i8254_rebase.
  eapply run_bind; [apply (run_now c (fun t _ => inw 32 t)); done|]. intros t c1 Ht.
  assert (Hk : forall s, chan_wf s -> chan_wf (s <| count_load_time := t |> <| last_irq_count := 0 |>))
    by (intros s Hs'; chan_wf_tac).
  unfold chan, set_chan. rewrite E.
  eapply run_bind; [by apply (run_lift _ s0 _ (fun s' _ => s' = s0))|]. intros ? ? ->.
  eapply run_bind; [by apply (run_lift _ s1 _ (fun s' _ => s' = s1))|]. intros ? ? ->.
  eapply run_bind; [by apply (run_lift _ s2 _ (fun s' _ => s' = s2))|]. intros ? ? ->.
  apply run_ret. apply pit_wf_intro; auto.
Qed.

Lemma pit_set_gate_run pit i val c :
  pit_wf pit -> 0 <= i < 3 -> run_to (pit_set_gate pit i val) c (fun pit' _ => pit_wf pit').
Proof.
  intros Hp Hi. destruct (chan_lookup pit i Hp Hi) as (s & Es & Hw & Hset). unfold pit_set_gate.
  eapply run_bind; [by apply (run_lift _ _ _ (fun s' _ => s' = s) Es)|]. intros ? c1 ->.
  eapply (run_bind _ _ _ (fun s' _ => chan_wf s' /\ irq s' = irq s)).
  - case_match; [|by apply run_ret].
    eapply run_bind; [apply (run_now c1 (fun t _ => inw 32 t)); done|]. intros t c2 Ht.
    apply run_ret. split; [chan_wf_tac|done].
  - intros s1 c2 [? ?]. apply run_ret. apply Hset; [chan_wf_tac|done].
Qed.

Lemma reset_chan_run i c :
  run_to (reset_chan chan_zero i) c (fun s _ => forall j, chan_wf (s <| irq := j |>)).
Proof.
  unfold reset_chan, pit_load_count, run_to, now. cbn. pose proof (uticks_width c) as Ht.
  destruct (get_uticks c) as [t c']. do 2 eexists. split; [reflexivity|].
  intros j. constructor; cbn; first [lia | done | solve [eauto with width] | by split; vm_compute].
Qed.

Lemma i8254_init_run p i c :
  sink_ok p -> irq_line i -> run_to (i8254_init p i) c (fun pit _ => pit_wf pit).
Proof.
  intros Hp Hi. unfold i8254_init.
  assert (Hk : forall s : PITChannelState, (forall j, chan_wf (s <| irq := j |>)) -> chan_wf s)
    by (intros s Hs; by destruct s, (Hs 0)).
  eapply run_bind; [apply reset_chan_run|]. intros s0 ? ?.
  eapply run_bind; [apply reset_chan_run|]. intros s1 ? ?.
  eapply run_bind; [apply reset_chan_run|]. intros s2 ? ?.
  apply run_ret. apply pit_wf_intro; auto.
Qed.

(** *** Every run of the device *)

Inductive pit_op :=
| OpWrite (addr val : Z) | OpRead (addr : Z) | OpPoll | OpRebase | OpGate (channel val : Z)
| OpOut (channel : Z).

Definition op_ok (o : pit_op) : Prop :=
  match o with
  | OpWrite _ val => inw 8 val
  | OpRead addr => Z.land addr 3 <> 3
  | OpGate channel _ | OpOut channel => 0 <= channel < 3
  | OpPoll | OpRebase => True
  end.

Definition run_op (pit : PITState P) (o : pit_op) : ST C (PITState P) :=
  match o with
  | OpWrite addr val => i8254_ioport_write pit addr val
  | OpRead addr => rp ← i8254_ioport_read pit addr; mret rp.2
  | OpPoll => i8254_update_irq pit
  | OpRebase => i8254_rebase pit
  | OpGate channel val => pit_set_gate pit channel val
  | OpOut channel => _ ← pit_get_out pit channel; mret pit
  end.

Fixpoint run_ops (pit : PITState P) (os : list pit_op) : ST C (PITState P) :=
  match os with [] => mret pit | o :: os => pit ← run_op pit o; run_ops pit os end.

Lemma pit_op_wf pit o c :
  pit_wf pit -> op_ok o -> run_to (run_op pit o) c (fun pit' _ => pit_wf pit').
Proof.
  intros Hp Ho. destruct o; simpl in *.
  - by apply i8254_write_run.
  - eapply run_bind; [by apply i8254_read_run|]. intros [? ?] ? [? ?]. by apply run_ret.
  - by apply i8254_update_run.
  - by apply i8254_rebase_run.
  - by apply pit_set_gate_run.
  - destruct (chan_lookup pit channel Hp Ho) as (s & Es & Hw & _). unfold pit_get_out.
    eapply (run_bind _ _ _ (fun _ _ => True)); [|intros; by apply run_ret].
    eapply run_bind; [by apply (run_lift _ _ _ (fun s' _ => s' = s) Es)|]. intros ? c1 ->.
    eapply run_bind; [apply (run_now c1 (fun t _ => True)); done|]. intros t c2 _.
    destruct (pit_get_out1_ok s t Hw) as (b & E & _). by apply (run_lift _ b).
Qed.

Lemma pit_ops_wf os pit c :
  pit_wf pit -> Forall op_ok os -> run_to (run_ops pit os) c (fun pit' _ => pit_wf pit').
Proof.
  revert pit c. induction os as [|o os IH]; intros pit c Hp Ho; simpl; [by apply run_ret|].
  inversion Ho; subst. eapply run_bind; [by apply pit_op_wf|]. intros ? ? ?. by apply IH.
Qed.

(** C20. From power-on, no sequence of byte writes to any port, of counter
    reads, polls, rebases and gate changes gets the timer stuck: the divisor of
    every count is in 1..65536, whatever the clock returns, and the interrupt
    controller stays in a state its own operations produce. *)
Theorem pit_reachable_safe p i os c :
  sink_ok p -> irq_line i -> Forall op_ok os ->
  run_to (pit ← i8254_init p i; run_ops pit os) c (fun pit' _ =>
    sink_ok (pic pit') /\
    exists s0 s1 s2, channels pit' = [s0; s1; s2] /\
      Forall (fun s => 1 <= count s <= 65536 /\ 0 <= mode s <= 5) [s0; s1; s2]).
Proof.
  intros Hp Hi Ho. eapply run_bind; [by apply i8254_init_run|]. intros pit c1 Hw.
  eapply run_mono; [by apply pit_ops_wf|].
  intros pit' c2 (s0 & s1 & s2 & E & H3 & H4 & H5 & _ & Hs). split; [done|].
  exists s0, s1, s2. repeat constructor; try done; apply wf_count || apply wf_mode; done.
Qed.

End Safety.

(** ** The timer interrupt

    [polls n] is [n] rounds of the main loop's poll; [readings n c] are the
    times they see. *)

Section Polls.
Context {P : Type} `{IrqSink P} {C : Type} `{Clock C}.

Fixpoint polls (n : nat) (pit : PITState P) : ST C (PITState P) :=
  match n with O => mret pit | S n => pit ← i8254_update_irq pit; polls n pit end.

Fixpoint readings (n : nat) (c : C) : list Z :=
  match n with O => [] | S n => (get_uticks c).1 :: readings n (get_uticks c).2 end.

(** The number of the period [t] falls in. *)
Definition period (s : PITChannelState) (t : Z) : Z := elapsed s t / count s.

(** Polls that see a later period than the poll before them. *)
Fixpoint rises (q : Z) (l : list Z) : nat :=
  match l with [] => O | p :: l => if q <? p then S (rises p l) else rises p l end.

Fixpoint nondecreasing (q : Z) (l : list Z) : Prop :=
  match l with [] => True | p :: l => q <= p /\ nondecreasing p l end.
Fixpoint unit_steps (q : Z) (l : list Z) : Prop :=
  match l with [] => True | p :: l => p <= q + 1 /\ unit_steps p l end.

Lemma rises_unit q l :
  nondecreasing q l -> unit_steps q l -> Z.of_nat (rises q l) = default q (last l) - q.
Proof.
  revert q. induction l as [|p l IH]; intros q; simpl; [lia|]. intros [Hq Hn] [Hs Hu].
  specialize (IH p Hn Hu).
  assert (El : default q (last (p :: l)) = default p (last l)).
  { rewrite last_cons. by destruct (last l). }
  change (last (p :: l)) with (last (p :: l)) in *. rewrite El.
  destruct (Z.ltb_spec q p); lia.
Qed.

Definition pulses (n : nat) (i : Z) (p : P) : P := Nat.iter n (fun p => pulse_irq p i) p.

Lemma pulses_S n i p : pulses n i (pulse_irq p i) = pulses (S n) i p.
Proof. unfold pulses. by rewrite Nat.iter_succ_r. Qed.

Lemma periodic_step s p t q (c : C) :
  1 <= count s <= 65536 -> irq s <> -1 -> u32 (t - count_load_time s) <= 2 ^ 31 ->
  last_irq_count s = q * count s -> 0 <= q <= period s t ->
  update_periodic s p t c =
    Done (if q <? period s t
          then (s <| last_irq_count := period s t * count s |>, pulse_irq p (irq s))
          else (s, p), c).
Proof.
  intros Hc Hi Ht Hl Hq. unfold update_periodic. pose proof (elapsed_width s t) as [Hd0 Hd1].
  unfold period in *. set (d := elapsed s t) in *.
  unfold umod. destruct (Z.eqb_spec (count s) 0); [lia|].
  rewrite (st_bind_done _ _ c (d mod count s) c) by done. cbv beta zeta.
  assert (Ed : u32 (d - d mod count s) = d / count s * count s).
  { pose proof (Z.div_mod d (count s)) as E. pose proof (Z.mod_pos_bound d (count s)) as Hm.
    rewrite u32_id by (unfold inw; nia). lia. }
  assert (Hdc : d / count s * count s <= d)
    by (pose proof (Z.mul_div_le d (count s)); lia).
  rewrite Ed, Hl, <- Z.mul_sub_distr_r, u32_id by (unfold inw; nia).
  destruct (Z.ltb_spec q (d / count s)) as [Hlt|Hge].
  - destruct (Z.ltb_spec ((d / count s - q) * count s) (count s)) as [Hb|_]; [nia|].
    destruct (Z.eqb_spec (irq s) (-1)); [lia|].
    cbn [count_load_time set_field eta_record eta_PITChannelState].
    destruct (Z.ltb_spec (2 ^ 31) (u32 (t - count_load_time s))) as [Hb|_]; [lia|]. done.
  - replace (d / count s - q) with 0 by lia. destruct (Z.ltb_spec (0 * count s) (count s)); [done|lia].
Qed.

Lemma update_irq_step pit s l (c : C) sp c' :
  channels pit = s :: l -> update_chan s (pic pit) c = Done (sp, c') ->
  i8254_update_irq pit c = Done (mkPIT (sp.1 :: l) sp.2, c').
Proof.
  intros E Hu. unfold i8254_update_irq, chan. rewrite E.
  rewrite (st_bind_done (lift (rd (s :: l) 0)) _ c s c) by done.
  rewrite (st_bind_done _ _ _ _ _ Hu). done.
Qed.

(** C21. A periodic counter (modes 2 and 3) on a connected line pulses its line
    once at each poll that sees a new period, never twice for one period, as long as
    the polls lie within 2^31 microseconds of its load; and when no poll is more than a period late the number of pulses is exactly
    the number of periods gone by. *)
Theorem periodic_polls n pit s l q (c : C) :
  channels pit = s :: l -> chan_wf s -> mode s = 2 \/ mode s = 3 -> irq s <> -1 ->
  last_irq_count s = q * count s -> 0 <= q ->
  let ps := map (period s) (readings n c) in
  Forall (fun t => u32 (t - count_load_time s) <= 2 ^ 31) (readings n c) ->
  nondecreasing q ps ->
  (exists s' c', polls n pit c = Done (mkPIT (s' :: l) (pulses (rises q ps) (irq s) (pic pit)), c')
     /\ count s' = count s /\ count_load_time s' = count_load_time s) /\
  (unit_steps q ps -> Z.of_nat (rises q ps) = default q (last ps) - q).
Proof.
  cbv zeta. intros E Hw Hm Hi Hl Hq Hts Hps. split; [|by apply rises_unit].
  revert pit s q c E Hw Hm Hi Hl Hq Hts Hps.
  induction n as [|n IH]; intros pit s q c E Hw Hm Hi Hl Hq Hts Hps; cbn [polls readings map] in *.
  { exists s, c. destruct pit. simpl in *. subst. done. }
  set (t := (get_uticks c).1) in *. set (c1 := (get_uticks c).2) in *.
  inversion_clear Hts as [|? ? Ht Hts']. destruct Hps as [Hqp Hps].
  pose proof (periodic_step s (pic pit) t q c1 (wf_count s Hw) Hi Ht Hl ltac:(lia)) as Hstep.
  assert (Hu : update_chan s (pic pit) c = update_periodic s (pic pit) t c1)
    by (unfold update_chan, mbind, ST_bind, now; fold t c1; by destruct Hm as [-> | ->]).
  rewrite Hstep in Hu. pose proof (update_irq_step pit s l c _ _ E Hu) as Hstep'.
  rewrite (st_bind_done _ _ _ _ _ Hstep'). cbn [rises].
  destruct (Z.ltb_spec q (period s t)) as [Hlt|Hge]; cbn [fst snd] in *.
  - set (s1 := s <| last_irq_count := period s t * count s |>) in *.
    assert (Hw1 : chan_wf s1).
    { pose proof (elapsed_width s t) as [? ?]. pose proof (wf_count s Hw).
      pose proof (Z.mul_div_le (elapsed s t) (count s)). unfold period in *.
      assert (inw 32 (elapsed s t / count s * count s)) by (unfold inw; nia).
      subst s1. chan_wf_tac. }
    destruct (IH (mkPIT (s1 :: l) (pulse_irq (pic pit) (irq s))) s1 (period s t) c1
      eq_refl Hw1 Hm Hi eq_refl ltac:(lia) Hts' Hps) as (s' & c' & Hr & Hcs & Hct).
    exists s', c'. rewrite Hr. cbn [pic]. change (irq s1) with (irq s).
    rewrite pulses_S. done.
  - replace (period s t) with q in * by lia.
    destruct (IH (mkPIT (s :: l) (pic pit)) s q c1 eq_refl Hw Hm Hi Hl Hq Hts' Hps) as (s' & c' & Hr & ?).
    by exists s', c'.
Qed.

(** A one-shot counter (modes 0, 1, 4 and 5) pulses its line exactly once,
    at the first poll that finds the count expired, and never again: whatever
    the later polls read, a clock that wraps included. *)
Theorem one_shot_polls n pit s l (c : C) :
  channels pit = s :: l -> chan_wf s -> In (mode s) [0; 1; 4; 5] -> irq s <> -1 ->
  last_irq_count s = 0 ->
  exists s' c', polls n pit c = Done (mkPIT (s' :: l)
    (pulses (if existsb (fun t => count s <=? elapsed s t) (readings n c) then 1 else 0)
       (irq s) (pic pit)), c').
Proof.
  intros E Hw Hm Hi Hl.
  assert (Hu : forall s p (c : C), In (mode s) [0; 1; 4; 5] ->
    update_chan s p c = Done (update_one_shot s p (get_uticks c).1, (get_uticks c).2)).
  { intros s1 p c1 Hm1. unfold update_chan, mbind, ST_bind, now.
    destruct Hm1 as [<- | [<- | [<- | [<- | []]]]]; done. }
  assert (Hidle : forall n s pit (c : C), channels pit = s :: l -> In (mode s) [0; 1; 4; 5] ->
    last_irq_count s <> 0 -> exists c', polls n pit c = Done (mkPIT (s :: l) (pic pit), c')).
  { clear -Hu. induction n as [|n IH]; intros s pit c E Hm Hl; cbn [polls].
    { exists c. destruct pit; simpl in *; by subst. }
    pose proof (update_irq_step pit s l c _ _ E (Hu s (pic pit) c Hm)) as Hs.
    unfold update_one_shot in Hs. destruct (Z.eqb_spec (last_irq_count s) 0); [done|].
    rewrite (st_bind_done _ _ _ _ _ Hs). by apply (IH s (mkPIT (s :: l) (pic pit))). }
  revert pit c E. induction n as [|n IH]; intros pit c E; cbn [polls readings existsb].
  { exists s, c. destruct pit; simpl in *; by subst. }
  pose proof (update_irq_step pit s l c _ _ E (Hu s (pic pit) c Hm)) as Hs.
  unfold update_one_shot in Hs. rewrite Hl in Hs. destruct (Z.eqb_spec (irq s) (-1)); [done|].
  rewrite (st_bind_done _ _ _ _ _ Hs).
  destruct (count s <=? elapsed s (get_uticks c).1); cbn [andb orb negb fst snd Z.eqb].
  - edestruct (Hidle n (s <| last_irq_count := count s |>)) as (c' & ->);
      [reflexivity|done| |by eauto]. simpl. pose proof (wf_count s Hw). lia.
  - destruct (IH (mkPIT (s :: l) (pic pit)) (get_uticks c).2) as (s' & c' & ->); eauto.
Qed.

End Polls.

(** ** Programming and reading a counter *)

Section RoundTrip.
Context {P : Type} `{IrqSink P} {C : Type} `{Clock C}.

(** The guest's sequence: control word with two-byte access and mode [m] for
    counter [i], the count low byte first, then the latch command and two reads. *)
Definition program_latch_read (pit : PITState P) (i m lo hi : Z) : ST C (Z * Z * PITState P) :=
  pit ← i8254_ioport_write pit 0x43 (64 * i + 0x30 + 2 * m);
  pit ← i8254_ioport_write pit (0x40 + i) lo;
  pit ← i8254_ioport_write pit (0x40 + i) hi;
  pit ← i8254_ioport_write pit 0x43 (64 * i);
  r0 ← i8254_ioport_read pit (0x40 + i);
  r1 ← i8254_ioport_read r0.2 (0x40 + i);
  mret (r0.1, r1.1, r1.2).

Lemma write_data_run (pit : PITState P) i (val : Z) s (c : C) s' c' :
  0 <= i < 3 -> chan pit i = Done s -> write_count s val c = Done (s', c') ->
  i8254_ioport_write pit (0x40 + i) val c = Done (set_chan pit i s', c').
Proof.
  intros Hi Hc Hw. unfold i8254_ioport_write.
  assert (Z.land (0x40 + i) 3 = i) as ->
    by (assert (i = 0 \/ i = 1 \/ i = 2) as [-> |[-> | -> ]] by lia; done).
  destruct (Z.eqb_spec i 3); [lia|].
  rewrite (st_bind_done _ _ c s c) by (unfold lift; by rewrite Hc).
  by rewrite (st_bind_done _ _ _ _ _ Hw).
Qed.

Lemma read_data_run (pit : PITState P) i s (c : C) r s' c' :
  0 <= i < 3 -> chan pit i = Done s -> read_chan s c = Done ((r, s'), c') ->
  i8254_ioport_read pit (0x40 + i) c = Done ((r, set_chan pit i s'), c').
Proof.
  intros Hi Hc Hr. unfold i8254_ioport_read.
  assert (Z.land (0x40 + i) 3 = i) as ->
    by (assert (i = 0 \/ i = 1 \/ i = 2) as [-> |[-> | -> ]] by lia; done).
  rewrite (st_bind_done _ _ c s c) by (unfold lift; by rewrite Hc).
  by rewrite (st_bind_done _ _ _ _ _ Hr).
Qed.

Lemma control_write_run (pit : PITState P) i m s (c : C) :
  0 <= i < 3 -> 0 <= m < 8 -> chan pit i = Done s ->
  i8254_ioport_write pit 0x43 (64 * i + 0x30 + 2 * m) c =
    Done (set_chan pit i (control_word s (64 * i + 0x30 + 2 * m) 3), c).
Proof.
  intros Hi Hm Hc. unfold i8254_ioport_write. change (Z.land 0x43 3 =? 3) with true. cbv iota.
  assert (Z.shiftr (64 * i + 0x30 + 2 * m) 6 = i) as ->
    by (rewrite Z.shiftr_div_pow2 by lia; Z.div_mod_to_equations; lia).
  assert (Z.land (Z.shiftr (64 * i + 0x30 + 2 * m) 4) 3 = 3) as ->.
  { rewrite Z.shiftr_div_pow2, (land_ones_mod 2) by lia. Z.div_mod_to_equations; lia. }
  destruct (Z.eqb_spec i 3); [lia|].
  by rewrite (st_bind_done _ _ c s c) by (unfold lift; by rewrite Hc).
Qed.

Lemma latch_write_run (pit : PITState P) i s (c : C) s' c' :
  0 <= i < 3 -> chan pit i = Done s -> pit_latch_count s c = Done (s', c') ->
  i8254_ioport_write pit 0x43 (64 * i) c = Done (set_chan pit i s', c').
Proof.
  intros Hi Hc Hl. unfold i8254_ioport_write. change (Z.land 0x43 3 =? 3) with true. cbv iota.
  assert (Z.shiftr (64 * i) 6 = i) as ->
    by (rewrite Z.shiftr_div_pow2 by lia; Z.div_mod_to_equations; lia).
  assert (Z.land (Z.shiftr (64 * i) 4) 3 = 0) as ->.
  { rewrite Z.shiftr_div_pow2, (land_ones_mod 2) by lia. Z.div_mod_to_equations; lia. }
  destruct (Z.eqb_spec i 3); [lia|].
  rewrite (st_bind_done _ _ c s c) by (unfold lift; by rewrite Hc). change (0 =? 0) with true. cbv iota.
  by rewrite (st_bind_done _ _ _ _ _ Hl).
Qed.

Lemma chan_in (pit : PITState P) i (s : PITChannelState) :
  chan pit i = Done s -> forall s', chan (set_chan pit i s') i = Done s'.
Proof.
  unfold chan, set_chan, rd, arr_set. intros Hc s'. cbn [channels].
  destruct (Z.ltb_spec i 0); [done|]. rewrite list_lookup_insert_eq; [done|].
  destruct (channels pit !! Z.to_nat i) eqn:E; [|done]. by apply lookup_lt_Some in E.
Qed.

Lemma set_chan_set (pit : PITState P) i (s s' : PITChannelState) : set_chan (set_chan pit i s) i s' = set_chan pit i s'.
Proof. unfold set_chan. cbn. by rewrite arr_set_set. Qed.

(** The three stages of the sequence on one counter. *)
Lemma program_count s val lo hi (c : C) :
  inw 8 lo -> inw 8 hi ->
  let s1 := control_word s val 3 in
  exists s2 s3, write_count s1 lo c = Done (s2, c) /\
    write_count s2 hi c = Done (s3, (get_uticks c).2) /\
    count s3 = (if lo + 256 * hi =? 0 then 65536 else lo + 256 * hi) /\
    count_load_time s3 = (get_uticks c).1 /\ last_irq_count s3 = 0 /\
    mode s3 = mode s1 /\ rw_mode s3 = 3 /\ count_latched s3 = count_latched s /\
    status_latched s3 = status_latched s.
Proof.
  intros Hlo Hhi s1. pose proof Hlo as [? ?]. pose proof Hhi as [? ?].
  exists (s1 <| write_latch := u8 lo |> <| write_state := 4 |>). eexists.
  split; [reflexivity|]. unfold write_count. cbn [write_state set_field eta_record eta_PITChannelState].
  unfold pit_load_count, now, mbind, ST_bind. cbn [fst snd]. split; [reflexivity|].
  cbn. rewrite u8_id by done. rewrite lor_shiftl_add by (done || lia).
  rewrite (u32_id (lo + _)), (s32_small (lo + _)) by (unfold inw; lia).
  change (2 ^ 8) with 256. rewrite (Z.mul_comm hi).
  destruct (Z.eqb_spec (lo + 256 * hi) 0); (split; [apply u32_id; unfold inw; lia|done]).
Qed.

(** Right after the load, the count read is the count loaded. *)
Lemma count_at_load s : 1 <= count s <= 65536 ->
  exists n, pit_count_at s (count_load_time s) = Done n /\ u16 n = count s mod 65536.
Proof.
  intros Hc. unfold pit_count_at, elapsed. rewrite Z.sub_diag. change (u32 (u64 (u32 0 * _) / _)) with 0.
  unfold umod. destruct (Z.eqb_spec (count s) 0); [lia|]. change (u32 (2 * 0)) with 0.
  rewrite Z.sub_0_r, Z.mod_0_l by done.
  assert (Hm : s32 (u32 (count s - 0)) = count s)
    by (rewrite Z.sub_0_r, u32_id, s32_small by (unfold inw; lia); done).
  assert (Ha : u16 (Z.land (u32 (count s)) 65535) = count s mod 65536).
  { rewrite land_65535, u32_id by (unfold inw; lia). by apply Z.mod_mod. }
  repeat case_match; eexists; (split; [reflexivity|]); first [exact Ha | by rewrite Hm].
Qed.

Lemma loaded_bytes s n lo hi :
  pit_count_at s (count_load_time s) = Done n -> inw 8 lo -> inw 8 hi ->
  count s = (if lo + 256 * hi =? 0 then 65536 else lo + 256 * hi) ->
  u16 n mod 256 = lo /\ u16 n / 256 = hi.
Proof.
  intros Hn [? ?] [? ?] Hc.
  destruct (count_at_load s) as (n' & Hn' & Hu); [destruct (Z.eqb_spec (lo + 256 * hi) 0); lia|].
  rewrite Hn in Hn'. injection Hn' as <-. rewrite Hu, Hc.
  destruct (Z.eqb_spec (lo + 256 * hi) 0); Z.div_mod_to_equations; lia.
Qed.

(** A count that is read lies in its mode's range. *)
Lemma count_at_defined s t : 1 <= count s <= 65536 -> exists n, pit_count_at s t = Done n.
Proof.
  intros Hc. unfold pit_count_at, umod. destruct (Z.eqb_spec (count s) 0); [lia|].
  repeat case_match; eexists; reflexivity.
Qed.

(** Latch, then read both bytes. *)
Lemma latch_and_read s n (c : C) :
  pit_count_at s (get_uticks c).1 = Done n -> rw_mode s = 3 -> count_latched s = 0 ->
  status_latched s = 0 ->
  exists s1 s2 s3, pit_latch_count s c = Done (s1, (get_uticks c).2) /\
    (forall c, read_chan s1 c = Done ((u16 n mod 256, s2), c)) /\
    (forall c, read_chan s2 c = Done ((u16 n / 256, s3), c)) /\
    count s3 = count s /\ count_load_time s3 = count_load_time s /\ mode s3 = mode s.
Proof.
  intros Hn Hrw Hcl Hsl. unfold pit_latch_count. rewrite Hcl. change (0 =? 0) with true. cbv iota.
  do 3 eexists. split; [|split; [|split]].
  - unfold pit_get_count, now, mbind, ST_bind, lift. cbn [fst snd]. rewrite Hn. reflexivity.
  - intros c'. unfold read_chan. cbn. rewrite Hsl, Hrw. cbn. rewrite land_255. reflexivity.
  - intros c'. unfold read_chan. cbn. rewrite Hsl. cbn. rewrite Z.shiftr_div_pow2 by lia. reflexivity.
  - done.
Qed.

(** A counter programmed through its control word in two-byte access,
    then latched and read twice, returns the low and the high byte of its
    count at the time of the latch, however long the guest takes to read; with
    no time gone by, the two bytes are the ones written. *)
Theorem program_latch_read_back (pit : PITState P) i m lo hi s (c : C) :
  chan pit i = Done s -> 0 <= i < 3 -> 0 <= m < 8 -> inw 8 lo -> inw 8 hi ->
  count_latched s = 0 -> status_latched s = 0 ->
  let t0 := (get_uticks c).1 in let t1 := (get_uticks (get_uticks c).2).1 in
  exists s' n, program_latch_read pit i m lo hi c =
      Done ((u16 n) mod 256, (u16 n) / 256, set_chan pit i s', (get_uticks (get_uticks c).2).2) /\
    pit_count_at s' t1 = Done n /\ count_load_time s' = t0 /\
    count s' = (if lo + 256 * hi =? 0 then 65536 else lo + 256 * hi) /\
    (t1 = t0 -> u16 n mod 256 = lo /\ u16 n / 256 = hi).
Proof.
  intros Hc Hi Hm Hlo Hhi Hcl Hsl t0 t1.
  destruct (program_count s (64 * i + 48 + 2 * m) lo hi c Hlo Hhi)
    as (s2 & s3 & Hw2 & Hw3 & Hct & Hlt & _ & _ & Hrw & Hcl3 & Hsl3).
  assert (Hrange : 1 <= count s3 <= 65536).
  { rewrite Hct. destruct Hlo, Hhi. destruct (Z.eqb_spec (lo + 256 * hi) 0); lia. }
  destruct (count_at_defined s3 t1 Hrange) as [n Hn].
  destruct (latch_and_read s3 n (get_uticks c).2 Hn Hrw ltac:(congruence) ltac:(congruence))
    as (s4 & s5 & s6 & Hl & Hr0 & Hr1 & Ec & Et & Em).
  assert (Hat : forall t, pit_count_at s6 t = pit_count_at s3 t)
    by (intros t; unfold pit_count_at, elapsed; by rewrite Ec, Et, Em).
  exists s6, n. split; [|rewrite Hat, Ec, Et, Hct, Hlt; do 3 (split; [done|])].
  - unfold program_latch_read.
    rewrite (st_bind_done _ _ _ _ _ (control_write_run pit i m s c Hi Hm Hc)).
    rewrite (st_bind_done _ _ _ _ _ (write_data_run _ i lo _ c _ _ Hi (chan_in pit i s Hc _) Hw2)), set_chan_set.
    rewrite (st_bind_done _ _ _ _ _ (write_data_run _ i hi _ c _ _ Hi (chan_in pit i s Hc _) Hw3)), set_chan_set.
    rewrite (st_bind_done _ _ _ _ _ (latch_write_run _ i _ _ _ _ Hi (chan_in pit i s Hc _) Hl)), set_chan_set.
    rewrite (st_bind_done _ _ _ _ _ (read_data_run _ i _ _ _ _ _ Hi (chan_in pit i s Hc _) (Hr0 _))). cbn [snd].
    rewrite set_chan_set.
    rewrite (st_bind_done _ _ _ _ _ (read_data_run _ i _ _ _ _ _ Hi (chan_in pit i s Hc _) (Hr1 _))). cbn [snd fst].
    by rewrite set_chan_set.
  - intros E. apply (loaded_bytes s3); try done. rewrite Hlt. fold t0. by rewrite <- E.
Qed.

End RoundTrip.

(** ** On the 8259

    Concrete runs, with the interrupt controller of the program. *)

#[local] Existing Instances Pic.pic_sink Pic.pic_sink_laws script_clock script_clock_laws.

Definition pit0 (c : list Z) : PITState (outcome Pic.PicState2) :=
  match i8254_init (Done Pic.i8259_init) 0 c with
  | Done (pit, _) => pit
  | Stuck _ => mkPIT [] (Done Pic.i8259_init)
  end.

Definition chan0 : PITChannelState := mkChan 65536 0 0 0 0 0 0 0 0 3 0 1 0 0 0.

Lemma chan0_wf m : 0 <= m <= 5 -> chan_wf (chan0 <| mode := m |>).
Proof. intros. constructor; cbn; first [lia | solve [eauto with width]]. Qed.

Lemma pit_reachable_safe_witness :
  run_to (pit ← i8254_init (Done Pic.i8259_init) 0;
          run_ops pit [OpWrite 0x43 0x34; OpWrite 0x40 0; OpWrite 0x40 0; OpPoll; OpRead 0x40])
    [0; 0; 0; 5; 7] (fun pit' _ =>
    sink_ok (pic pit') /\
    exists s0 s1 s2, channels pit' = [s0; s1; s2] /\
      Forall (fun s => 1 <= count s <= 65536 /\ 0 <= mode s <= 5) [s0; s1; s2]).
Proof.
  apply pit_reachable_safe.
  - exists Pic.i8259_init. split; [reflexivity|]. split; apply Pic.pic_reset_wf.
  - repeat split; lia.
  - repeat constructor; vm_compute; congruence.
Defined.

(** Polls a millisecond apart, a 16-bit count: the third one sees a new period. *)
Lemma periodic_polls_witness :
  let s := chan0 in let c := [20000; 40000; 60000] in
  let ps := map (period s) (readings 3 c) in
  (exists s' c', polls 3 (pit0 [0]) c =
      Done (mkPIT (s' :: tail (channels (pit0 [0])))
              (pulses (rises 0 ps) (irq s) (pic (pit0 [0]))), c')
     /\ count s' = count s /\ count_load_time s' = count_load_time s) /\
  (unit_steps 0 ps -> Z.of_nat (rises 0 ps) = default 0 (last ps) - 0).
Proof.
  apply (periodic_polls 3 (pit0 [0]) chan0 (tail (channels (pit0 [0]))) 0);
    [reflexivity|apply (chan0_wf 3); lia|right; reflexivity|discriminate|reflexivity|lia| |].
  - repeat constructor; vm_compute; congruence.
  - repeat split; vm_compute; congruence.
Defined.

Lemma one_shot_polls_witness :
  let s := chan0 <| mode := 0 |> in let c := [20000; 60000; 80000] in
  let pit := mkPIT [s] (Done Pic.i8259_init) in
  exists s' c', polls 3 pit c = Done (mkPIT (s' :: [])
    (pulses (if existsb (fun t => count s <=? elapsed s t) (readings 3 c) then 1 else 0)
       (irq s) (pic pit)), c').
Proof.
  apply (one_shot_polls 3 (mkPIT [chan0 <| mode := 0 |>] (Done Pic.i8259_init)));
    [reflexivity|apply chan0_wf; lia|left; reflexivity|discriminate|reflexivity].
Defined.

Lemma program_latch_read_back_witness :
  let t0 := 10 in let t1 := 1000 in
  exists s' n, program_latch_read (pit0 [0]) 2 3 0x34 0x12 [10; 1000; 90000] =
      Done ((u16 n) mod 256, (u16 n) / 256, set_chan (pit0 [0]) 2 s', [90000]) /\
    pit_count_at s' t1 = Done n /\ count_load_time s' = t0 /\
    count s' = (if 0x34 + 256 * 0x12 =? 0 then 65536 else 0x34 + 256 * 0x12) /\
    (t1 = t0 -> u16 n mod 256 = 0x34 /\ u16 n / 256 = 0x12).
Proof.
  exact (program_latch_read_back (pit0 [0]) 2 3 0x34 0x12 (chan0 <| gate := 0 |> <| irq := -1 |>)
    [10; 1000; 90000] eq_refl ltac:(lia) ltac:(lia) ltac:(by vm_compute) ltac:(by vm_compute)
    eq_refl eq_refl).
Defined.

End Pit.
