(* ===== verification/Pcspk.v ===== *)
(** The PC speaker (src/source/winspire/pcspk.c), driven by counter 2 of the
    timer.  [pcspk_callback] is the audio callback: it returns the bytes it
    stores in the stream. *)

From S2P Require Import Prelude I8259 I8254.
Local Open Scope Z_scope.

Module Pcspk.

Definition PCSPK_BUF_LEN : Z := 1792.
Definition PCSPK_SAMPLE_RATE : Z := 44100.
Definition PCSPK_MAX_FREQ : Z := Z.shiftr PCSPK_SAMPLE_RATE 1.
Definition PCSPK_MIN_COUNT : Z := Z.quot (Pit.PIT_FREQ + PCSPK_MAX_FREQ - 1) PCSPK_MAX_FREQ.

Record PCSpkState := mkPCSpk {
  sample_buf : list Z; pit_count : Z; samples : Z; play_pos : Z;
  data_on : Z; dummy_refresh_clock : Z; active_out : Z;
}.
#[export] Instance eta_PCSpkState : Eta PCSpkState := fun s =>
  mkPCSpk (sample_buf s) (pit_count s) (samples s) (play_pos s) (data_on s)
    (dummy_refresh_clock s) (active_out s).

(** The unsigned division of C; by zero it traps. *)
Definition udiv (a b : Z) : outcome Z := if b =? 0 then Stuck DivideByZero else Done (a / b).

Definition square (n i : Z) : Z := u8 (Z.land 64 (Z.shiftr (u32 (n * i)) 25) - 32).

(** The [for] loop that stores [f i] at [i], [i + 1], ... *)
Fixpoint fill (k : nat) (i : Z) (f : Z -> Z) (buf : list Z) : outcome (list Z) :=
  match k with
  | O => Done buf
  | S k => buf ← wr buf i (f i); fill k (i + 1) f buf
  end.

Definition generate_samples (s : PCSpkState) : outcome PCSpkState :=
  if nz (pit_count s) then
    let m := u32 (PCSPK_SAMPLE_RATE * pit_count s) in
    n ← udiv (u64 (Z.shiftl Pit.PIT_FREQ 32)) m;
    waves ← udiv (PCSPK_BUF_LEN * Pit.PIT_FREQ) m;
    let len := Z.shiftr (u32 (u32 (waves * m) / Z.shiftr Pit.PIT_FREQ 1 + 1)) 1 in
    buf ← fill (Z.to_nat len) 0 (square (u32 n)) (sample_buf s);
    Done (s <| samples := len |> <| sample_buf := buf |>)
  else
    buf ← fill (Z.to_nat PCSPK_BUF_LEN) 0 (fun _ => 128) (sample_buf s);
    Done (s <| samples := PCSPK_BUF_LEN |> <| sample_buf := buf |>).

(** [memcpy (stream + k, &s->sample_buf[pos], n)]: the bytes copied. *)
Definition copy_out (buf : list Z) (pos n : Z) : outcome (list Z) :=
  if alen buf <? pos + n then Stuck OutOfBounds
  else Done (take (Z.to_nat n) (drop (Z.to_nat pos) buf)).

(** The copy loop: at most [free] bytes, a chunk up to the end of the waveform
    each time round. *)
Fixpoint play_loop (fuel : nat) (s : PCSpkState) (free : Z) : outcome (list Z * PCSpkState) :=
  match fuel with
  | O => Stuck Diverges
  | S fuel =>
      if negb (0 <? free) then Done ([], s) else
      let n := u32 (samples s - play_pos s) in
      let n := if u32 free <? n then u32 free else n in
      chunk ← copy_out (sample_buf s) (play_pos s) n;
      if n =? 0 then Done (chunk, s) else
      p ← Pit.umod (u32 (play_pos s + n)) (samples s);
      rest ← play_loop fuel (s <| play_pos := p |>) (free - n);
      Done (chunk ++ rest.1, rest.2)
  end.

Section Speaker.
Context {P : Type} `{IrqSink P} {C : Type} `{Clock C}.

Definition pcspk_callback (s : PCSpkState) (pit : Pit.PITState P) (free : Z)
    : outcome (list Z * PCSpkState) :=
  m ← Pit.pit_get_mode pit 2;
  if negb (m =? 3) then Done ([], s) else
  if data_on s =? 0 then Done ([], s) else
  n ← Pit.pit_get_initial_count pit 2;
  let n := u32 n in
  let n := if n <? PCSPK_MIN_COUNT then 0 else n in
  s ← (if negb (pit_count s =? n)
       then generate_samples (s <| pit_count := n |> <| play_pos := 0 |>) else Done s);
  play_loop (S (Z.to_nat free)) s free.

Definition pcspk_ioport_read (s : PCSpkState) (pit : Pit.PITState P) : ST C (Z * PCSpkState) :=
  let s := s <| dummy_refresh_clock := Z.lxor (dummy_refresh_clock s) 16 |> in
  out ← Pit.pit_get_out pit 2;
  g ← lift (Pit.pit_get_gate pit 2);
  mret (Z.lor (Z.lor (Z.lor g (Z.shiftl (data_on s) 1)) (dummy_refresh_clock s)) (Z.shiftl out 5), s).

Definition pcspk_ioport_write (s : PCSpkState) (pit : Pit.PITState P) (val : Z)
    : ST C (PCSpkState * Pit.PITState P) :=
  let gate := Z.land val 1 in
  let oldout := Z.land gate (data_on s) in
  let s := s <| data_on := Z.land (Z.shiftr val 1) 1 |> in
  pit ← Pit.pit_set_gate pit 2 gate;
  let s := if nz gate then s <| play_pos := 0 |> else s in
  let newout := Z.land gate (data_on s) in
  let s := if oldout =? newout then s else s <| active_out := Z.land gate (data_on s) |> in
  mret (s, pit).

End Speaker.

Definition pcspk_get_active_out (s : PCSpkState) : Z := active_out s.

Definition pcspk_init : PCSpkState := mkPCSpk (replicate 1792 0) 0 0 0 0 0 0.

(** ** The square wave

    A tone of divisor [pc] has frequency [PIT_FREQ / pc], so a period lasts
    [PCSPK_SAMPLE_RATE * pc / PIT_FREQ] samples. *)

(** The phase gained in a sample, in units of 2^-32 periods. *)
Definition phase_step (pc : Z) : Z := Pit.PIT_FREQ * 2 ^ 32 / (PCSPK_SAMPLE_RATE * pc).

(** Sample [j]: -32 in the first half of the period and 32 in the second, as
    bytes; the middle value for the divisor 0, which stands for inaudible tones. *)
Definition tone (pc j : Z) : Z :=
  if pc =? 0 then 128 else if (j * phase_step pc) mod 2 ^ 32 <? 2 ^ 31 then 224 else 32.

(** The whole periods that fit the buffer, and the samples they last, rounded to
    the nearest. *)
Definition periods (pc : Z) : Z := PCSPK_BUF_LEN * Pit.PIT_FREQ / (PCSPK_SAMPLE_RATE * pc).
Definition loop_len (pc : Z) : Z :=
  if pc =? 0 then PCSPK_BUF_LEN
  else (2 * (periods pc * (PCSPK_SAMPLE_RATE * pc)) + Pit.PIT_FREQ) / (2 * Pit.PIT_FREQ).

(** Divisors from 1 to 48484 have at least one period in the buffer, and the
    loop is a whole number of periods to within half a sample. *)
Definition seamless (pc : Z) : Prop :=
  1 <= periods pc /\ 0 < loop_len pc <= PCSPK_BUF_LEN /\
  2 * Z.abs (loop_len pc * Pit.PIT_FREQ - periods pc * (PCSPK_SAMPLE_RATE * pc)) <= Pit.PIT_FREQ.

(** What the whole periods last, in units of [1 / PIT_FREQ] samples. *)
Definition span (pc : Z) : Z := periods pc * (PCSPK_SAMPLE_RATE * pc).

Lemma span_bound pc : 0 <= pc -> 0 <= span pc <= 2138182144.
Proof.
  intros Hp. unfold span, periods, PCSPK_SAMPLE_RATE. change (PCSPK_BUF_LEN * Pit.PIT_FREQ) with 2138182144.
  destruct (Z.eqb_spec pc 0) as [->|]; [done|].
  pose proof (Z.mul_div_le 2138182144 (44100 * pc)). pose proof (Z.div_pos 2138182144 (44100 * pc)). nia.
Qed.

Lemma loop_len_bound pc : 0 <= pc -> 0 <= loop_len pc <= PCSPK_BUF_LEN.
Proof.
  intros Hp. pose proof (span_bound pc Hp). unfold loop_len. fold (span pc).
  change Pit.PIT_FREQ with 1193182. unfold PCSPK_BUF_LEN.
  destruct (Z.eqb_spec pc 0); [lia|]. Z.div_mod_to_equations. lia.
Qed.

Lemma loop_seamless pc : PCSPK_MIN_COUNT <= pc <= 48484 -> seamless pc.
Proof.
  change PCSPK_MIN_COUNT with 55. intros Hp. pose proof (loop_len_bound pc) as Hb. unfold seamless.
  assert (Hq : 1 <= periods pc).
  { unfold periods, PCSPK_SAMPLE_RATE, PCSPK_BUF_LEN. change Pit.PIT_FREQ with 1193182. apply Z.div_le_lower_bound; lia. }
  assert (He : 2 * Z.abs (loop_len pc * Pit.PIT_FREQ - periods pc * (PCSPK_SAMPLE_RATE * pc)) <= Pit.PIT_FREQ).
  { unfold loop_len. destruct (Z.eqb_spec pc 0); [lia|]. fold (span pc). set (w := span pc).
    change Pit.PIT_FREQ with 1193182. Z.div_mod_to_equations. lia. }
  split; [done|]. split; [|done]. split; [|lia].
  assert (2 * Pit.PIT_FREQ < periods pc * (PCSPK_SAMPLE_RATE * pc))
    by (unfold PCSPK_SAMPLE_RATE; change Pit.PIT_FREQ with 1193182; nia).
  change Pit.PIT_FREQ with 1193182 in *. lia.
Qed.

(** The arithmetic of [generate_samples] computes that wave and that length. *)
Lemma square_level n i : square n i = if (i * n) mod 2 ^ 32 <? 2 ^ 31 then 224 else 32.
Proof.
  unfold square, u32. replace (n * i) with (i * n) by lia. pose proof (Z.mod_pos_bound (i * n) (2 ^ 32)) as Hb.
  set (p := (i * n) mod 2 ^ 32) in *. clearbody p. rewrite Z.shiftr_div_pow2 by lia.
  assert (Hl : Z.land 64 (p / 2 ^ 25) = if p <? 2 ^ 31 then 0 else 64).
  { apply Z.bits_inj'. intros k Hk. rewrite Z.land_spec. change 64 with (2 ^ 6).
    rewrite Z.pow2_bits_eqb by lia. destruct (Z.eqb_spec 6 k) as [<-|Hne]; cbn [andb].
    - rewrite Z.testbit_odd, Z.shiftr_div_pow2, Z.div_div by lia. change (2 ^ 25 * 2 ^ 6) with (2 ^ 31).
      destruct (Z.ltb_spec p (2 ^ 31)).
      + rewrite Z.div_small by lia. done.
      + assert (p / 2 ^ 31 = 1) as -> by (symmetry; apply (Z.div_unique p (2 ^ 31) 1 (p - 2 ^ 31)); lia). done.
    - destruct (p <? 2 ^ 31); [by rewrite Z.bits_0|]. change 64 with (2 ^ 6). rewrite Z.pow2_bits_eqb by lia.
      by destruct (Z.eqb_spec 6 k). }
  rewrite Hl. by destruct (p <? 2 ^ 31).
Qed.

Lemma square_tone pc j : 1 <= pc <= 65536 ->
  square (u32 (u64 (Z.shiftl Pit.PIT_FREQ 32) / (PCSPK_SAMPLE_RATE * pc))) j = tone pc j.
Proof.
  intros Hp. rewrite square_level. unfold tone. destruct (Z.eqb_spec pc 0); [lia|].
  change (u64 (Z.shiftl Pit.PIT_FREQ 32)) with (Pit.PIT_FREQ * 2 ^ 32). fold (phase_step pc).
  unfold u32. by rewrite Z.mul_mod_idemp_r by done.
Qed.

Definition tone_samples (m : Z) : Z :=
  Z.shiftr (u32 (u32 (PCSPK_BUF_LEN * Pit.PIT_FREQ / m * m) / Z.shiftr Pit.PIT_FREQ 1 + 1)) 1.

Lemma tone_samples_loop pc : 1 <= pc -> tone_samples (PCSPK_SAMPLE_RATE * pc) = loop_len pc.
Proof.
  intros Hp. unfold tone_samples, loop_len. fold (periods pc). destruct (Z.eqb_spec pc 0); [lia|].
  fold (span pc). pose proof (span_bound pc ltac:(lia)) as Hw. set (w := span pc) in *. clearbody w.
  change (Z.shiftr Pit.PIT_FREQ 1) with 596591. change Pit.PIT_FREQ with 1193182.
  rewrite (u32_id w) by (unfold inw; lia).
  assert (0 <= w / 596591 <= 3584) by (Z.div_mod_to_equations; lia).
  rewrite u32_id by (unfold inw; lia). rewrite Z.shiftr_div_pow2 by lia.
  change (2 ^ 1) with 2. Z.div_mod_to_equations; lia.
Qed.

(** ** The waveform buffer *)

(** The part of the buffer in use fits it and the position is inside. *)
Record spk_wf (s : PCSpkState) : Prop := {
  wf_buf : alen (sample_buf s) = PCSPK_BUF_LEN;
  wf_samples : 0 <= samples s <= PCSPK_BUF_LEN;
  wf_pos : 0 <= play_pos s;
  wf_in : samples s = 0 /\ play_pos s = 0 \/ play_pos s < samples s;
  wf_wave : forall j, 0 <= j < samples s -> arr (sample_buf s) j = tone (pit_count s) j;
  (** nothing is generated before the first change of the divisor *)
  wf_loop : samples s = loop_len (pit_count s) \/ samples s = 0 /\ pit_count s = 0;
}.

Lemma fill_spec k i f buf :
  0 <= i -> i + Z.of_nat k <= alen buf ->
  exists buf', fill k i f buf = Done buf' /\ alen buf' = alen buf /\
    (forall j, i <= j < i + Z.of_nat k -> arr buf' j = f j) /\
    (forall j, 0 <= j < i -> arr buf' j = arr buf j).
Proof.
  revert i buf. induction k as [|k IH]; intros i buf Hi Hk; cbn [fill].
  { exists buf. repeat split; done || lia. }
  rewrite wr_in by lia. cbn [mbind outcome_bind].
  destruct (IH (i + 1) (arr_set buf i (f i))) as (buf' & E & Hl & Hin & Hlow);
    [lia|rewrite alen_set; lia|]. rewrite alen_set in Hl.
  exists buf'. split; [done|]. split; [done|]. split.
  - intros j Hj. destruct (decide (j = i)) as [->|]; [|apply Hin; lia].
    rewrite Hlow by lia. apply arr_set_eq. lia.
  - intros j Hj. rewrite Hlow by lia. apply arr_set_ne; lia.
Qed.

Lemma generate_samples_wf s :
  alen (sample_buf s) = PCSPK_BUF_LEN -> play_pos s = 0 -> 0 <= pit_count s <= 65536 ->
  exists s', generate_samples s = Done s' /\ spk_wf s' /\ pit_count s' = pit_count s /\
    samples s' = loop_len (pit_count s) /\ play_pos s' = 0.
Proof.
  intros Hb Hp Hc. pose proof (loop_len_bound (pit_count s) ltac:(lia)) as Ht.
  unfold generate_samples, nz. destruct (Z.eqb_spec (pit_count s) 0) as [E|E]; cbn [negb].
  - destruct (fill_spec (Z.to_nat PCSPK_BUF_LEN) 0 (fun _ => 128) (sample_buf s))
      as (buf & -> & Hl & Hin & _); [lia|rewrite Hb; done|]. cbn [mbind outcome_bind]. eexists.
    split; [reflexivity|]. split; [|by rewrite E]. constructor; cbn; unfold PCSPK_BUF_LEN in *; try lia.
    + intros j Hj. rewrite Hin by lia. unfold tone. by rewrite E.
    + left. by rewrite E.
  - assert (Em : u32 (PCSPK_SAMPLE_RATE * pit_count s) = PCSPK_SAMPLE_RATE * pit_count s)
      by (unfold PCSPK_SAMPLE_RATE; apply u32_id; unfold inw; lia).
    rewrite Em. unfold udiv. destruct (Z.eqb_spec (PCSPK_SAMPLE_RATE * pit_count s) 0);
      [unfold PCSPK_SAMPLE_RATE in *; lia|]. cbn [mbind outcome_bind].
    fold (tone_samples (PCSPK_SAMPLE_RATE * pit_count s)). rewrite tone_samples_loop by lia.
    destruct (fill_spec (Z.to_nat (loop_len (pit_count s))) 0
      (square (u32 (u64 (Z.shiftl Pit.PIT_FREQ 32) / (PCSPK_SAMPLE_RATE * pit_count s)))) (sample_buf s))
      as (buf & -> & Hl & Hin & _); [lia|lia|]. cbn [mbind outcome_bind]. eexists.
    split; [reflexivity|]. split; [|done]. constructor; cbn; try lia.
    intros j Hj. rewrite Hin by lia. apply square_tone. lia.
Qed.

(** ** Gapless playback *)

Lemma copy_out_spec buf pos n :
  0 <= pos -> 0 <= n -> pos + n <= alen buf ->
  exists out, copy_out buf pos n = Done out /\ alen out = n /\
    forall k, 0 <= k < n -> arr out k = arr buf (pos + k).
Proof.
  intros Hp Hn Hl. unfold copy_out, alen, arr in *.
  destruct (Z.ltb_spec (Z.of_nat (length buf)) (pos + n)); [lia|].
  eexists. split; [reflexivity|]. split; [rewrite length_take, length_drop; lia|].
  intros k Hk. rewrite !list_lookup_total_alt. rewrite lookup_take_lt by lia. rewrite lookup_drop.
  do 2 f_equal. lia.
Qed.

Lemma arr_app_l (l l' : list Z) k : 0 <= k < alen l -> arr (l ++ l') k = arr l k.
Proof. unfold alen, arr. intros. apply lookup_total_app_l. lia. Qed.
Lemma arr_app_r (l l' : list Z) k : alen l <= k -> arr (l ++ l') k = arr l' (k - alen l).
Proof. unfold alen, arr. intros. rewrite lookup_total_app_r by lia. f_equal. lia. Qed.

(** Sample [k] of the output continues the waveform from [pos]. *)
Definition continues (s : PCSpkState) (pos : Z) (out : list Z) : Prop :=
  forall k, 0 <= k < alen out -> arr out k = tone (pit_count s) ((pos + k) mod samples s).

Lemma wrap_pos pos n len : 0 < len -> 0 <= pos < len -> 0 <= n <= len - pos ->
  (pos + n) mod len = if n =? len - pos then 0 else pos + n.
Proof.
  intros. destruct (Z.eqb_spec n (len - pos)) as [->|].
  - replace (pos + (len - pos)) with len by lia. apply Z.mod_same. lia.
  - apply Z.mod_small. lia.
Qed.

Lemma play_loop_spec fuel s free :
  spk_wf s -> 0 < samples s -> 0 <= free < 2 ^ 31 -> free < Z.of_nat fuel ->
  exists out s', play_loop fuel s free = Done (out, s') /\ spk_wf s' /\ alen out = free /\
    continues s (play_pos s) out /\ play_pos s' = (play_pos s + free) mod samples s /\
    samples s' = samples s /\ pit_count s' = pit_count s.
Proof.
  revert s free. induction fuel as [|fuel IH]; intros s free Hw Hs Hf Hfu; [lia|]. cbn [play_loop].
  destruct Hw as [Hb Hsm Hp Hin Hwv Hll]. assert (Hps : play_pos s < samples s) by lia.
  unfold PCSPK_BUF_LEN in *. destruct (Z.ltb_spec 0 free) as [Hpos|Hz]; cbn [negb].
  2:{ exists [], s. split; [done|]. split; [by constructor|]. assert (free = 0) as -> by lia.
      split; [done|]. split; [intros k Hk; unfold alen in Hk; cbn in Hk; lia|]. rewrite Z.add_0_r, Z.mod_small by lia. done. }
  rewrite !u32_id by (unfold inw; lia).
  set (n := if free <? samples s - play_pos s then free else samples s - play_pos s).
  assert (Hn : 0 < n <= free /\ n <= samples s - play_pos s)
    by (unfold n; destruct (Z.ltb_spec free (samples s - play_pos s)); lia).
  destruct (copy_out_spec (sample_buf s) (play_pos s) n) as (chunk & -> & Hcl & Hcv); [lia..|].
  cbn [mbind outcome_bind]. destruct (Z.eqb_spec n 0); [lia|]. rewrite u32_id by (unfold inw; lia).
  unfold Pit.umod. destruct (Z.eqb_spec (samples s) 0); [lia|]. cbn [mbind outcome_bind].
  set (p := (play_pos s + n) mod samples s).
  assert (Hpr : 0 <= p < samples s) by (apply Z.mod_pos_bound; lia).
  destruct (IH (s <| play_pos := p |>) (free - n)) as (out & s' & -> & Hw' & Hl & Hc & Hpp & Hss & Hpc);
    [constructor; cbn; (lia || done)|cbn; lia|lia|lia|].
  cbn [fst snd]. exists (chunk ++ out), s'. split; [done|]. split; [done|].
  assert (Hlen : alen (chunk ++ out) = free)
    by (unfold alen in *; rewrite length_app; lia).
  split; [done|]. split.
  - intros k Hk. destruct (Z.lt_ge_cases k (alen chunk)).
    + rewrite arr_app_l, Hcv, Hwv by lia. rewrite Z.mod_small by lia. done.
    + rewrite arr_app_r by lia. rewrite Hc by (unfold alen in *; rewrite length_app in Hk; lia). cbn. f_equal. unfold p. rewrite Z.add_mod_idemp_l by lia.
      f_equal. lia.
  - rewrite Hpp. cbn in *. unfold p. rewrite Z.add_mod_idemp_l by lia. split; [f_equal; lia|done].
Qed.

(** A waveform without samples plays nothing. *)
Lemma play_nothing s free : spk_wf s -> samples s = 0 ->
  play_loop (S (Z.to_nat free)) s free = Done ([], s).
Proof.
  intros [Hb _ Hp0 Hin _ _] Hz. cbn [play_loop]. destruct (0 <? free) eqn:E; cbn [negb]; [|done].
  assert (Hp : play_pos s = 0) by lia. rewrite Hz, Hp. change (u32 (0 - 0)) with 0.
  destruct (Z.ltb_spec (u32 free) 0); [pose proof (inw_u32 free) as [? _]; lia|].
  unfold copy_out. rewrite Hb. done.
Qed.

(** C28. The audio callback never reads outside its waveform buffer and always
    ends, and its output is the square wave of the programmed divisor without a
    gap: byte [k] is sample [start + k] of the tone, played in a loop of
    [loop_len n] samples, where [start] is where the last call stopped (the
    start of the wave when the divisor changed); an audible divisor up to 48484
    has a loop of whole periods to within half a sample, so the wave goes on
    across the loop point too, and the whole request is filled.  A divisor whose
    period does not fit the buffer, and a speaker that has not generated anything
    yet, play nothing. *)
Theorem pcspk_gapless {P} (s : PCSpkState) (pit : Pit.PITState P) ch free :
  spk_wf s -> 0 <= free < 2 ^ 31 -> data_on s <> 0 ->
  Pit.chan pit 2 = Done ch -> Pit.mode ch = 3 -> 1 <= Pit.count ch <= 65536 ->
  let n := if Pit.count ch <? PCSPK_MIN_COUNT then 0 else Pit.count ch in
  let len := if (pit_count s =? n) && (samples s =? 0) then 0 else loop_len n in
  let start := if pit_count s =? n then play_pos s else 0 in
  exists out s', pcspk_callback s pit free = Done (out, s') /\ spk_wf s' /\ pit_count s' = n /\ samples s' = len /\
    (if len =? 0 then out = []
     else alen out = free /\ play_pos s' = (start + free) mod len /\
       forall k, 0 <= k < free -> arr out k = tone n ((start + k) mod len)) /\
    (1 <= n <= 48484 -> len <> 0 /\ seamless n).
Proof.
  intros Hw Hf Hd Hch Hm Hct n len start. unfold pcspk_callback, Pit.pit_get_mode, Pit.pit_get_initial_count.
  rewrite Hch. cbn [mbind outcome_bind]. rewrite Hm. change (3 =? 3) with true. cbn [negb].
  destruct (Z.eqb_spec (data_on s) 0); [done|].
  rewrite Pit.s32_small, u32_id by (unfold inw; lia). fold n.
  assert (Hn : 0 <= n <= 65536 /\ (1 <= n -> PCSPK_MIN_COUNT <= n))
    by (unfold n; destruct (Z.ltb_spec (Pit.count ch) PCSPK_MIN_COUNT); lia).
  assert (Hgen : exists s1, (if negb (pit_count s =? n)
      then generate_samples (s <| pit_count := n |> <| play_pos := 0 |>) else Done s) = Done s1 /\
    spk_wf s1 /\ pit_count s1 = n /\ play_pos s1 = start /\ samples s1 = len).
  { unfold len, start. destruct (Z.eqb_spec (pit_count s) n) as [E|E]; cbn [negb andb].
    - exists s. do 4 (split; [done|]). destruct (Z.eqb_spec (samples s) 0); [done|].
      destruct (wf_loop s Hw) as [->|[? _]]; [by rewrite E|done].
    - destruct (generate_samples_wf (s <| pit_count := n |> <| play_pos := 0 |>))
        as (s1 & -> & ? & ? & ? & ?); [apply Hw|done|apply Hn|]. by exists s1. }
  destruct Hgen as (s1 & -> & Hw1 & Hpc & Hpos & Hlen). cbn [mbind outcome_bind].
  assert (Hse : 1 <= n <= 48484 -> len <> 0 /\ seamless n).
  { intros Hr. assert (Hs : seamless n) by (apply loop_seamless; lia). split; [|done].
    rewrite <- Hlen. destruct (wf_loop s1 Hw1) as [->|[_ ?]]; [|lia]. rewrite Hpc. destruct Hs as (_ & ? & _). lia. }
  clearbody len. subst len. destruct (Z.eqb_spec (samples s1) 0) as [Hz|Hz].
  - rewrite (play_nothing s1 free Hw1 Hz). by exists [], s1.
  - pose proof (wf_samples s1 Hw1).
    destruct (play_loop_spec (S (Z.to_nat free)) s1 free Hw1) as (out & s' & -> & Hw' & Hl & Hc & Hp & Hs & Hpc');
      [lia..|]. exists out, s'. rewrite <- Hpos.
    split; [done|]. split; [done|]. split; [congruence|]. split; [done|]. split; [|done].
    split; [done|]. split; [done|]. intros k Hk. rewrite <- Hpc. apply Hc. lia.
Qed.

(** A 1 kHz tone requested of a speaker that has been playing nothing. *)
Definition tone_chan : Pit.PITChannelState := Pit.mkChan 1193 0 0 0 0 0 0 0 0 3 0 1 0 0 (-1).
Definition tone_pit : Pit.PITState (outcome Pic.PicState2) :=
  Pit.mkPIT [Pit.chan0; Pit.chan0; tone_chan] (Done Pic.i8259_init).
Definition quiet : PCSpkState := pcspk_init <| data_on := 1 |>.

Lemma pcspk_gapless_witness :
  let n := if 1193 <? PCSPK_MIN_COUNT then 0 else 1193 in
  let len := if (pit_count quiet =? n) && (samples quiet =? 0) then 0 else loop_len n in
  let start := if pit_count quiet =? n then play_pos quiet else 0 in
  (len, periods n) = (1764, 40) /\
  exists out s', pcspk_callback quiet tone_pit 882 = Done (out, s') /\ spk_wf s' /\ pit_count s' = n /\
    samples s' = len /\
    (if len =? 0 then out = []
     else alen out = 882 /\ play_pos s' = (start + 882) mod len /\
       forall k, 0 <= k < 882 -> arr out k = tone n ((start + k) mod len)) /\
    (1 <= n <= 48484 -> len <> 0 /\ seamless n).
Proof.
  split; [vm_compute; reflexivity|].
  apply (pcspk_gapless quiet tone_pit tone_chan 882);
    [|lia|discriminate|reflexivity|reflexivity|cbn; lia].
  constructor; try reflexivity; cbn; try lia; unfold PCSPK_BUF_LEN; lia.
Defined.

End Pcspk.
