(* ===== verification/Wire.v ===== *)
(** The block protocol's 32-byte header, shared by the disk server
    (src/source/server/netblock_server.c) and the client inside the IDE model
    (src/source/winspire/ide.c).

    Neither end has a serialiser: they send and receive the memory of a C struct, each
    of its own declaration.  What is on the wire is that memory, by C's rules for the
    layout of a struct on a little-endian machine whose integer types are aligned to
    their size.  Both declarations are here; [same_layout] says that they agree. *)

From S2P Require Import Prelude.
Local Open Scope Z_scope.

(** ** Little-endian fields *)

Fixpoint le_bytes (n : nat) (z : Z) : list Z :=
  match n with O => [] | S n => z mod 256 :: le_bytes n (z / 256) end.
Fixpoint le_value (l : list Z) : Z :=
  match l with [] => 0 | b :: l => b + 256 * le_value l end.

Definition is_byte (b : Z) : Prop := inw 8 b.
Definition bytes (l : list Z) : Prop := Forall is_byte l.

Lemma le_bytes_length n z : length (le_bytes n z) = n.
Proof. revert z. induction n; intros; cbn; auto. Qed.
Lemma le_bytes_bytes n z : bytes (le_bytes n z).
Proof.
  unfold bytes. revert z. induction n; intros; cbn; constructor; auto.
  unfold is_byte, inw. apply Z.mod_pos_bound. lia.
Qed.
Lemma pow_8_S n : 2 ^ (8 * Z.of_nat (S n)) = 256 * 2 ^ (8 * Z.of_nat n).
Proof.
  replace (8 * Z.of_nat (S n)) with (8 + 8 * Z.of_nat n) by lia. by rewrite Z.pow_add_r by lia.
Qed.
Lemma le_value_bytes n z : 0 <= z -> le_value (le_bytes n z) = z mod 2 ^ (8 * Z.of_nat n).
Proof.
  revert z. induction n as [|n IH]; intros z Hz; [by rewrite Z.mod_1_r|].
  cbn [le_bytes le_value]. rewrite IH by (apply Z.div_pos; lia). rewrite pow_8_S.
  assert (0 < 2 ^ (8 * Z.of_nat n)) by (apply Z.pow_pos_nonneg; lia).
  rewrite Z.rem_mul_r by lia. done.
Qed.
Lemma le_value_width l : bytes l -> inw (8 * alen l) (le_value l).
Proof.
  unfold alen. induction 1 as [|b l Hb Hl IH]; cbn [le_value length]; [done|].
  unfold inw in *. rewrite pow_8_S. destruct Hb. change (2 ^ 8) with 256 in *. lia.
Qed.
Lemma le_bytes_value l : bytes l -> le_bytes (length l) (le_value l) = l.
Proof.
  induction 1 as [|b l Hb Hl IH]; cbn [le_value length le_bytes]; [done|].
  destruct Hb. change (2 ^ 8) with 256 in *. f_equal.
  - rewrite Z.mul_comm, Z.mod_add by lia. apply Z.mod_small. lia.
  - rewrite Z.mul_comm, Z.div_add, Z.div_small by lia. done.
Qed.

(** ** The header *)

Record NetBlockHeader := mkHeader {
  magic : list Z; version : Z; op : Z; lba : Z; count : Z; hbytes : Z; hstatus : Z; flags : Z;
}.

Definition NETBLK_MAGIC : list Z := [87; 82; 66; 80]. (* 'W' 'R' 'B' 'P' *)
Definition NETBLK_VERSION : Z := 1.
Definition NETBLK_OP_HELLO : Z := 1.
Definition NETBLK_OP_READ : Z := 2.
Definition NETBLK_OP_WRITE : Z := 3.
Definition NETBLK_OP_FLUSH : Z := 4.
Definition NETBLK_OP_PING : Z := 5.
Definition NETBLK_OP_TIME : Z := 8.
Definition SECTOR_SIZE : Z := 512.

(** *** The layout of a struct

    A member has the size of its elements and their number. *)
Record Member := mkMember { m_size : Z; m_count : Z }.
#[global] Instance Member_inhabited : Inhabited Member := populate (mkMember 1 1).
Definition align_up (size off : Z) : Z := (off + size - 1) / size * size.
Fixpoint offsets (off : Z) (decl : list Member) : list Z :=
  match decl with
  | [] => []
  | m :: decl => let o := align_up (m_size m) off in o :: offsets (o + m_size m * m_count m) decl
  end.
Fixpoint extent (off : Z) (decl : list Member) : Z :=
  match decl with [] => off | m :: decl => extent (align_up (m_size m) off + m_size m * m_count m) decl end.
(** The size, a multiple of the largest alignment. *)
Definition struct_size (decl : list Member) : Z := align_up (foldr Z.max 1 (m_size <$> decl)) (extent 0 decl).

Definition uchar : Z := 1.
Definition ushort : Z := 2.
Definition uint : Z := 4.
Definition ulonglong : Z := 8.
(** [NetBlockHeader] of netblock_server.c and of ide.c. *)
Definition server_header : list Member :=
  [mkMember uchar 4; mkMember ushort 1; mkMember ushort 1; mkMember ulonglong 1; mkMember uint 1; mkMember uint 1; mkMember uint 1; mkMember uint 1].
Definition client_header : list Member :=
  [mkMember (8 / 8) 4; mkMember (16 / 8) 1; mkMember (16 / 8) 1; mkMember (64 / 8) 1; mkMember (32 / 8) 1; mkMember (32 / 8) 1; mkMember (32 / 8) 1; mkMember (32 / 8) 1].
Lemma same_layout : offsets 0 client_header = offsets 0 server_header /\ struct_size client_header = 32 /\ struct_size server_header = 32.
Proof. by vm_compute. Qed.

(** The memory of a struct that was cleared and whose members have the elements [vs]. *)
Fixpoint struct_bytes (off : Z) (decl : list Member) (vs : list (list Z)) : list Z :=
  match decl, vs with
  | m :: decl, v :: vs =>
      let o := align_up (m_size m) off in
      replicate (Z.to_nat (o - off)) 0 ++ concat (le_bytes (Z.to_nat (m_size m)) <$> v) ++ struct_bytes (o + m_size m * m_count m) decl vs
  | _, _ => []
  end.
(** Element [k] of member [i]; memory is [unsigned char]s. *)
Definition element (decl : list Member) (l : list Z) (i k : Z) : Z :=
  let n := m_size (arr decl i) in
  le_value (u8 <$> take (Z.to_nat n) (drop (Z.to_nat (arr (offsets 0 decl) i + n * k)) l)).

Definition header_bytes (h : NetBlockHeader) : list Z :=
  struct_bytes 0 server_header [magic h; [version h]; [op h]; [lba h]; [count h]; [hbytes h]; [hstatus h]; [flags h]].
Definition header_of (l : list Z) : NetBlockHeader :=
  let e := element server_header l in
  mkHeader [e 0 0; e 0 1; e 0 2; e 0 3] (e 1 0) (e 2 0) (e 3 0) (e 4 0) (e 5 0) (e 6 0) (e 7 0).

(** [init_header] and [netblk_header_init]: the arguments narrow to the fields. *)
Definition init_header (o l c b s f : Z) : NetBlockHeader :=
  mkHeader NETBLK_MAGIC NETBLK_VERSION (u16 o) (u64 l) (u32 c) (u32 b) (u32 s) (u32 f).

Record header_wf (h : NetBlockHeader) : Prop := {
  wf_magic : length (magic h) = 4%nat /\ bytes (magic h);
  wf_version : inw 16 (version h); wf_op : inw 16 (op h); wf_lba : inw 64 (lba h);
  wf_count : inw 32 (count h); wf_bytes : inw 32 (hbytes h); wf_status : inw 32 (hstatus h);
  wf_flags : inw 32 (flags h);
}.

Lemma init_header_wf o l c b s f : header_wf (init_header o l c b s f).
Proof.
  constructor; cbn; unfold NETBLK_VERSION; eauto with width. split; [done|].
  repeat constructor; vm_compute; congruence.
Qed.

(** The members of the header one after the other. *)
Lemma header_memory h : header_bytes h =
  concat (le_bytes 1 <$> magic h) ++ le_bytes 2 (version h) ++ le_bytes 2 (op h) ++ le_bytes 8 (lba h) ++
  le_bytes 4 (count h) ++ le_bytes 4 (hbytes h) ++ le_bytes 4 (hstatus h) ++ le_bytes 4 (flags h).
Proof.
  unfold header_bytes. cbn [struct_bytes server_header m_size m_count uchar ushort uint ulonglong fmap list_fmap concat].
  rewrite !app_nil_r. reflexivity.
Qed.
Lemma header_bytes_length h : length (magic h) = 4%nat -> length (header_bytes h) = 32%nat.
Proof.
  intros Hm. rewrite header_memory, !length_app, !le_bytes_length.
  destruct (magic h) as [|m0 [|m1 [|m2 [|m3 [|]]]]]; try discriminate Hm. done.
Qed.

Lemma header_bytes_bytes h : header_wf h -> bytes (header_bytes h).
Proof.
  intros _. rewrite header_memory. unfold bytes. rewrite !Forall_app. repeat split; try apply le_bytes_bytes.
  induction (magic h) as [|b l IH]; [constructor|]. cbn [fmap list_fmap concat]. apply Forall_app. split; [apply le_bytes_bytes|exact IH].
Qed.

Lemma u8_bytes l : bytes l -> u8 <$> l = l.
Proof. induction 1 as [|b l Hb _ IH]; [done|]. rewrite fmap_cons, IH. f_equal. by apply u8_id. Qed.
Definition field (l : list Z) (off n : nat) : Z := le_value (u8 <$> take n (drop off l)).
Lemma header_fields l : header_of l =
  mkHeader [field l 0 1; field l 1 1; field l 2 1; field l 3 1] (field l 4 2) (field l 6 2) (field l 8 8) (field l 16 4) (field l 20 4) (field l 24 4) (field l 28 4).
Proof. reflexivity. Qed.
(** A member reads back what was stored in it. *)
Lemma field_here n v pre rest : 0 <= v < 2 ^ (8 * Z.of_nat n) -> field (pre ++ le_bytes n v ++ rest) (length pre) n = v.
Proof.
  intros Hv. unfold field. rewrite drop_app_length, take_app_length' by (by rewrite le_bytes_length).
  rewrite u8_bytes by apply le_bytes_bytes. rewrite le_value_bytes by lia. by apply Z.mod_small.
Qed.
(** The header survives the wire, and so do any 32 bytes through the struct. *)
Lemma header_read_back h : header_wf h -> header_of (header_bytes h) = h.
Proof.
  intros [[Hm Hb] Hv Ho Hl Hc Hy Hs Hf]. destruct h as [m v o l c b s f].
  cbn [magic version op lba count hbytes hstatus flags] in *.
  destruct m as [|m0 [|m1 [|m2 [|m3 [|]]]]]; try discriminate Hm. unfold bytes in Hb. rewrite !Forall_cons in Hb. destruct Hb as (H0 & H1 & H2 & H3 & _).
  rewrite header_memory, header_fields. cbn [magic version op lba count hbytes hstatus flags fmap list_fmap concat app].
  unfold is_byte, inw in *.
  f_equal; [f_equal; [|f_equal; [|f_equal; [|f_equal]]]|..].
  - exact (field_here 1 m0 [] _ ltac:(lia)).
  - exact (field_here 1 m1 (le_bytes 1 m0) _ ltac:(lia)).
  - exact (field_here 1 m2 (le_bytes 1 m0 ++ le_bytes 1 m1) _ ltac:(lia)).
  - exact (field_here 1 m3 (le_bytes 1 m0 ++ le_bytes 1 m1 ++ le_bytes 1 m2) _ ltac:(lia)).
  - exact (field_here 2 v (le_bytes 1 m0 ++ le_bytes 1 m1 ++ le_bytes 1 m2 ++ le_bytes 1 m3) _ ltac:(lia)).
  - exact (field_here 2 o (le_bytes 1 m0 ++ le_bytes 1 m1 ++ le_bytes 1 m2 ++ le_bytes 1 m3 ++ le_bytes 2 v) _ ltac:(lia)).
  - exact (field_here 8 l (le_bytes 1 m0 ++ le_bytes 1 m1 ++ le_bytes 1 m2 ++ le_bytes 1 m3 ++ le_bytes 2 v ++ le_bytes 2 o) _ ltac:(lia)).
  - exact (field_here 4 c (le_bytes 1 m0 ++ le_bytes 1 m1 ++ le_bytes 1 m2 ++ le_bytes 1 m3 ++ le_bytes 2 v ++ le_bytes 2 o ++ le_bytes 8 l) _ ltac:(lia)).
  - exact (field_here 4 b (le_bytes 1 m0 ++ le_bytes 1 m1 ++ le_bytes 1 m2 ++ le_bytes 1 m3 ++ le_bytes 2 v ++ le_bytes 2 o ++ le_bytes 8 l ++ le_bytes 4 c) _ ltac:(lia)).
  - exact (field_here 4 s (le_bytes 1 m0 ++ le_bytes 1 m1 ++ le_bytes 1 m2 ++ le_bytes 1 m3 ++ le_bytes 2 v ++ le_bytes 2 o ++ le_bytes 8 l ++ le_bytes 4 c ++ le_bytes 4 b) _ ltac:(lia)).
  - rewrite <- (app_nil_r (le_bytes 4 f)).
    exact (field_here 4 f (le_bytes 1 m0 ++ le_bytes 1 m1 ++ le_bytes 1 m2 ++ le_bytes 1 m3 ++ le_bytes 2 v ++ le_bytes 2 o ++ le_bytes 8 l ++ le_bytes 4 c ++ le_bytes 4 b ++ le_bytes 4 s) [] ltac:(lia)).
Qed.

Lemma field_bytes l off n : bytes l -> (off + n <= length l)%nat -> le_bytes n (field l off n) = take n (drop off l).
Proof.
  intros Hb Hl. unfold field. rewrite u8_bytes by (unfold bytes in *; by apply Forall_take, Forall_drop).
  assert (Hn : length (take n (drop off l)) = n) by (rewrite length_take, length_drop; lia).
  rewrite <- Hn at 1. apply le_bytes_value. unfold bytes in *. by apply Forall_take, Forall_drop.
Qed.
Lemma header_bytes_of l : length l = 32%nat -> bytes l -> header_bytes (header_of l) = l.
Proof.
  intros Hl Hb. rewrite header_memory, header_fields. cbn [magic version op lba count hbytes hstatus flags fmap list_fmap concat].
  rewrite !field_bytes by (done || lia).
  do 32 (destruct l as [|? l]; [discriminate|]). destruct l; [done|discriminate].
Qed.

(** What is read through the struct has its widths. *)
Lemma field_width l off n w : w = 8 * Z.of_nat n -> inw w (field l off n).
Proof.
  intros ->. unfold field. assert (Hb : bytes (u8 <$> take n (drop off l))) by (apply Forall_fmap, Forall_true; intros; apply inw_u8).
  apply (inw_mono (8 * alen (u8 <$> take n (drop off l)))); [by apply le_value_width|]. unfold alen. rewrite length_fmap, length_take. lia.
Qed.
Lemma header_of_wf l : header_wf (header_of l).
Proof.
  rewrite header_fields. constructor; cbn [magic version op lba count hbytes hstatus flags]; try (by apply field_width).
  split; [done|]. unfold bytes, is_byte. repeat (apply Forall_cons_2; [by apply (field_width _ _ 1)|]). by apply Forall_nil_2.
Qed.
