(* ===== verification/NetblockServer.v ===== *)
(** The disk server (src/source/server/netblock_server.c): its command line,
    the chunked transfers and the request loop of one client.

    The socket, the image file and the wall clock are operating-system objects,
    given by the classes [SocketOps] and [FileOps] and by [wall_time].  Log
    output is left out; the remainders its throttling computes are kept. *)

From Stdlib Require Import Ascii.
From stdpp Require Import strings.
From S2P Require Import Prelude Wire.
Local Open Scope Z_scope.
Set Warnings "-clear-no-such-hyp".

Module Server.

(** ** Configuration *)

Record ServerConfig := mkConfig {
  image_path : option string; listen_addr : string; port : Z; max_sectors : Z; progress_every : Z;
  socket_buffer_kb : Z; recv_timeout_ms : Z; send_timeout_ms : Z; keepalive_time_ms : Z;
  keepalive_interval_ms : Z; read_only : bool; strict_flush : bool; no_keepalive : bool;
}.
#[export] Instance eta_ServerConfig : Eta ServerConfig := fun s =>
  mkConfig (image_path s) (listen_addr s) (port s) (max_sectors s) (progress_every s)
    (socket_buffer_kb s) (recv_timeout_ms s) (send_timeout_ms s) (keepalive_time_ms s)
    (keepalive_interval_ms s) (read_only s) (strict_flush s) (no_keepalive s).

Definition config0 : ServerConfig :=
  mkConfig None "192.168.7.1" 3860 1024 256 1024 0 0 10000 2000 false false true.

(** [strtoul (s, &end, 10)] with a 32-bit [unsigned long]: the value, whether
    [errno] was set, and the characters left at [end]; no digits leaves the
    whole string. *)
Definition is_space (c : ascii) : bool :=
  let n := Z.of_nat (nat_of_ascii c) in (n =? 32) || ((9 <=? n) && (n <=? 13)).
Definition digit_of (c : ascii) : option Z :=
  let n := Z.of_nat (nat_of_ascii c) in
  if (48 <=? n) && (n <=? 57) then Some (n - 48) else None.

Fixpoint skip_space (s : string) : string :=
  match s with
  | String c s' => if is_space c then skip_space s' else s
  | EmptyString => s
  end.
Fixpoint digits (s : string) (acc : Z) : Z * string :=
  match s with
  | String c s' => match digit_of c with Some d => digits s' (acc * 10 + d) | None => (acc, s) end
  | EmptyString => (acc, s)
  end.
Definition strtoul (s : string) : Z * bool * string :=
  let body := skip_space s in
  let '(neg, body) := match body with
                      | String "-"%char b => (true, b)
                      | String "+"%char b => (false, b)
                      | b => (false, b)
                      end in
  match body with
  | String c _ =>
      match digit_of c with
      | None => (0, false, s)
      | Some _ =>
          let '(v, rest) := digits body 0 in
          if 2 ^ 32 <=? v then (2 ^ 32 - 1, true, rest)
          else (if neg then u32 (- v) else v, false, rest)
      end
  | EmptyString => (0, false, s)
  end.

(** [None] is the error return. *)
Definition parse_u32 (s : string) (lo hi : Z) : option Z :=
  let '(v, err, rest) := strtoul s in
  if err || bool_decide (rest = s) || negb (bool_decide (rest = EmptyString)) || (v <? lo) || (hi <? v)
  then None else Some v.

Inductive args_result :=
| ArgsOk (cfg : ServerConfig)
| ArgsHelp
| ArgsBad.

Definition first_char (s : string) : option ascii :=
  match s with String c _ => Some c | EmptyString => None end.

(** The options that take a value, with the range of the numeric ones. *)
Inductive value_option :=
| OptImage | OptListen | OptNum (lo hi : Z) (set : ServerConfig -> Z -> ServerConfig).

Definition value_option_of (a : string) : option value_option :=
  if bool_decide (a = "--image") then Some OptImage
  else if bool_decide (a = "--listen") then Some OptListen
  else if bool_decide (a = "--port") then Some (OptNum 1 65535 (fun c v => c <| port := u16 v |>))
  else if bool_decide (a = "--max-sectors") then
    Some (OptNum 1 1024 (fun c v => c <| max_sectors := v |>))
  else if bool_decide (a = "--progress-every") then
    Some (OptNum 1 1000000 (fun c v => c <| progress_every := v |>))
  else if bool_decide (a = "--socket-buffer-kb") then
    Some (OptNum 16 8192 (fun c v => c <| socket_buffer_kb := v |>))
  else if bool_decide (a = "--recv-timeout-ms") then
    Some (OptNum 0 3600000 (fun c v => c <| recv_timeout_ms := v |>))
  else if bool_decide (a = "--send-timeout-ms") then
    Some (OptNum 0 3600000 (fun c v => c <| send_timeout_ms := v |>))
  else if bool_decide (a = "--keepalive-time-ms") then
    Some (OptNum 1000 3600000 (fun c v => c <| keepalive_time_ms := v |>))
  else if bool_decide (a = "--keepalive-interval-ms") then
    Some (OptNum 500 3600000 (fun c v => c <| keepalive_interval_ms := v |>))
  else None.

(** The rest of the chain: the flags, then the bare image path. *)
Definition flag_option (a : string) (cfg : ServerConfig) : args_result :=
  if bool_decide (a = "--readonly") || bool_decide (a = "--read-only") then
    ArgsOk (cfg <| read_only := true |>)
  else if bool_decide (a = "--strict-flush") then ArgsOk (cfg <| strict_flush := true |>)
  else if bool_decide (a = "--keepalive") then ArgsOk (cfg <| no_keepalive := false |>)
  else if bool_decide (a = "--no-keepalive") then ArgsOk (cfg <| no_keepalive := true |>)
  else if bool_decide (a = "--help") || bool_decide (a = "-h") then ArgsHelp
  else if bool_decide (image_path cfg = None) && negb (bool_decide (first_char a = Some "-"%char))
  then ArgsOk (cfg <| image_path := Some a |>)
  else ArgsBad.

(** The loop over [argv]; [skip] is set when the previous option took this
    argument, which is [argv[++i]]. *)
Fixpoint args_loop (argv : list string) (cfg : ServerConfig) : args_result :=
  match argv with
  | [] => ArgsOk cfg
  | a :: rest =>
      match value_option_of a, rest with
      | Some o, v :: rest' =>
          match o with
          | OptImage => args_loop rest' (cfg <| image_path := Some v |>)
          | OptListen => args_loop rest' (cfg <| listen_addr := v |>)
          | OptNum lo hi set =>
              match parse_u32 v lo hi with
              | Some n => args_loop rest' (set cfg n)
              | None => ArgsBad
              end
          end
      | _, _ =>
          match flag_option a cfg with
          | ArgsOk cfg => args_loop rest cfg
          | r => r
          end
      end
  end.

(** [argv] without the program name. *)
Definition parse_args (argv : list string) : args_result :=
  match args_loop argv config0 with
  | ArgsOk cfg =>
      match image_path cfg with
      | Some p => if bool_decide (p = EmptyString) then ArgsBad else ArgsOk cfg
      | None => ArgsBad
      end
  | r => r
  end.

(** ** The operating system *)

Class SocketOps (S : Type) := {
  (** [recv (s, buf, len, 0)]: the return value and the bytes stored *)
  recv : S -> Z -> Z * list Z * S;
  (** [send (s, data, length data, 0)]: the return value *)
  send : S -> list Z -> Z * S;
}.

Class FileOps (F : Type) := {
  set_file_pointer : F -> Z -> bool * F;
  read_file : F -> Z -> bool * list Z * F;
  write_file : F -> list Z -> bool * Z * F;
  flush_view : F -> list Z -> bool * F;
  flush_file_buffers : F -> bool * F;
}.

Record Session (S F : Type) := mkSession {
  sock : S; image : F; image_view : option (list Z);
  hello_count : Z; read_count : Z; write_count : Z; flush_count : Z; ping_count : Z;
}.
Arguments mkSession {S F} _ _ _ _ _ _ _ _.
Arguments sock {S F} _.
Arguments image {S F} _.
Arguments image_view {S F} _.
Arguments hello_count {S F} _.
Arguments read_count {S F} _.
Arguments write_count {S F} _.
Arguments flush_count {S F} _.
Arguments ping_count {S F} _.
#[export] Instance eta_Session S F : Eta (Session S F) := fun s =>
  mkSession (sock s) (image s) (image_view s) (hello_count s) (read_count s) (write_count s)
    (flush_count s) (ping_count s).

(** What [handle_client] reads of [ServerState] besides the image. *)
Record Export := mkExport { cfg : ServerConfig; sector_count : Z }.

(** How a request ends: the next one is awaited, or the session is over with
    the return code of [handle_client]. *)
Inductive verdict := Continue | Out (rc : Z).

Definition NETBLK_IO_CHUNK_BYTES : Z := 64 * 1024.
Definition NETBLK_PROTOCOL_MAX_SECTORS : Z := 1024.
Definition NETBLK_PROTOCOL_MAX_PAYLOAD : Z := NETBLK_PROTOCOL_MAX_SECTORS * SECTOR_SIZE.
Definition NETBLK_STATUS_OK : Z := 0.
Definition NETBLK_STATUS_BAD_VERSION : Z := 2.
Definition NETBLK_STATUS_RANGE : Z := 3.
Definition NETBLK_STATUS_WRITE : Z := 4.
Definition NETBLK_STATUS_BAD_OP : Z := 5.

Section Operations.
Context {S F : Type} `{SocketOps S} `{FileOps F}.
Let session : Type := Session S F.
Implicit Types s : session.

(** ** Transfers

    A loop runs at most once per byte; [None] is the error return. *)

Fixpoint send_loop (fuel : nat) (p : list Z) : ST session bool :=
  match fuel with
  | O => stuck Diverges
  | Datatypes.S fuel => fun s =>
      match p with
      | [] => Done (true, s)
      | _ =>
          let chunk := if NETBLK_IO_CHUNK_BYTES <? alen p then NETBLK_IO_CHUNK_BYTES else alen p in
          let '(n, so) := send (sock s) (take (Z.to_nat chunk) p) in
          let s := s <| sock := so |> in
          if n <=? 0 then Done (false, s) else send_loop fuel (drop (Z.to_nat n) p) s
      end
  end.
Definition send_all (p : list Z) : ST session bool := send_loop (Datatypes.S (length p)) p.

Fixpoint recv_loop (fuel : nat) (len : Z) (got : list Z) : ST session (option (list Z)) :=
  match fuel with
  | O => stuck Diverges
  | Datatypes.S fuel => fun s =>
      if len <=? 0 then Done (Some got, s) else
      let chunk := if NETBLK_IO_CHUNK_BYTES <? len then NETBLK_IO_CHUNK_BYTES else len in
      let '(n, b, so) := recv (sock s) chunk in
      let s := s <| sock := so |> in
      if n <=? 0 then Done (None, s) else recv_loop fuel (len - n) (got ++ b) s
  end.
Definition recv_all (len : Z) : ST session (option (list Z)) :=
  recv_loop (Datatypes.S (Z.to_nat len)) len [].

(** The loops over a payload in pieces of the transfer buffer. *)
Fixpoint discard_loop (fuel : nat) (scratch_bytes n : Z) : ST session bool :=
  match fuel with
  | O => stuck Diverges
  | Datatypes.S fuel =>
      if n =? 0 then mret true else
      let chunk := if n <? scratch_bytes then n else scratch_bytes in
      if chunk =? 0 then mret false else
      r ← recv_all chunk;
      match r with
      | None => mret false
      | Some _ => discard_loop fuel scratch_bytes (u32 (n - chunk))
      end
  end.
Definition recv_discard (scratch_bytes n : Z) : ST session bool :=
  discard_loop (Datatypes.S (Z.to_nat n)) scratch_bytes n.

Definition send_header (o l c b st f : Z) : ST session bool :=
  send_all (header_bytes (init_header o l c b st f)).

(** ** The image *)

Fixpoint read_loop (fuel : nat) (n : Z) (got : list Z) : ST session (option (list Z)) :=
  match fuel with
  | O => stuck Diverges
  | Datatypes.S fuel => fun s =>
      if n <=? alen got then Done (Some got, s) else
      let '(ok, b, im) := read_file (image s) (u32 (n - alen got)) in
      let s := s <| image := im |> in
      if negb ok || (alen b =? 0) then Done (None, s) else read_loop fuel n (got ++ b) s
  end.
Definition read_file_exact (offset n : Z) : ST session (option (list Z)) := fun s =>
  let '(ok, im) := set_file_pointer (image s) offset in
  let s := s <| image := im |> in
  if ok then read_loop (Datatypes.S (Z.to_nat n)) n [] s else Done (None, s).

Fixpoint write_loop (fuel : nat) (p : list Z) : ST session bool :=
  match fuel with
  | O => stuck Diverges
  | Datatypes.S fuel => fun s =>
      match p with
      | [] => Done (true, s)
      | _ =>
          let '(ok, wrote, im) := write_file (image s) p in
          let s := s <| image := im |> in
          if negb ok || (wrote =? 0) then Done (false, s) else write_loop fuel (drop (Z.to_nat wrote) p) s
      end
  end.
Definition write_file_exact (offset : Z) (p : list Z) : ST session bool := fun s =>
  let '(ok, im) := set_file_pointer (image s) offset in
  let s := s <| image := im |> in
  if ok then write_loop (Datatypes.S (length p)) p s else Done (false, s).

(** Bytes [off .. off + n) of an object, and the object with bytes replaced. *)
Definition slice (l : list Z) (off n : Z) : list Z := take (Z.to_nat n) (drop (Z.to_nat off) l).
Definition splice (l : list Z) (off : Z) (p : list Z) : list Z :=
  take (Z.to_nat off) l ++ p ++ drop (Z.to_nat off + length p) l.

Definition send_image_exact (offset n : Z) : ST session bool := fun s =>
  match image_view s with
  | Some v => if alen v <? offset + n then Stuck OutOfBounds else send_all (slice v offset n) s
  | None =>
      (r ← read_file_exact offset n;
       match r with None => mret false | Some b => send_all b end) s
  end.

Definition write_image_exact (offset : Z) (p : list Z) : ST session bool := fun s =>
  match image_view s with
  | Some v =>
      if alen v <? offset + alen p then Stuck OutOfBounds
      else Done (true, s <| image_view := Some (splice v offset p) |>)
  | None => write_file_exact offset p s
  end.

Fixpoint image_write_loop (fuel : nat) (offset n scratch_bytes : Z) : ST session bool :=
  match fuel with
  | O => stuck Diverges
  | Datatypes.S fuel =>
      if n =? 0 then mret true else
      let chunk := if n <? scratch_bytes then n else scratch_bytes in
      if chunk =? 0 then mret false else
      r ← recv_all chunk;
      match r with
      | None => mret false
      | Some b =>
          ok ← write_image_exact offset b;
          if ok : bool then image_write_loop fuel (u64 (offset + chunk)) (u32 (n - chunk)) scratch_bytes
          else mret false
      end
  end.
Definition recv_image_write (offset n scratch_bytes : Z) : ST session bool :=
  image_write_loop (Datatypes.S (Z.to_nat n)) offset n scratch_bytes.

Definition flush_image : ST session bool := fun s =>
  match image_view s with
  | Some v =>
      let '(ok, im) := flush_view (image s) v in
      let s := s <| image := im |> in
      if ok then let '(ok, im) := flush_file_buffers (image s) in Done (ok, s <| image := im |>)
      else Done (false, s)
  | None => let '(ok, im) := flush_file_buffers (image s) in Done (ok, s <| image := im |>)
  end.

(** ** Requests *)

Variable st : Export.
(** [time (NULL)] *)
Variable wall_time : Z.

Definition max_bytes : Z := u32 (max_sectors (cfg st) * SECTOR_SIZE).

(** The progress messages: every one up to [first], then one in [progress_every]. *)
Definition throttle (n first : Z) : outcome unit :=
  if n <=? first then Done tt else
  if progress_every (cfg st) =? 0 then Stuck DivideByZero else Done tt.

(** The end of a case: [goto out] when the reply was not sent. *)
Definition sent (ok : bool) : verdict := if ok then Continue else Out (-1).

Definition handle_time (h : NetBlockHeader) : ST session verdict :=
  if wall_time <? 0 then
    _ ← send_header NETBLK_OP_TIME 0 0 0 NETBLK_STATUS_BAD_OP 0; mret Continue
  else
    ok ← send_header NETBLK_OP_TIME (u64 wall_time) 0 0 NETBLK_STATUS_OK 0;
    mret (if ok : bool then Out 0 else Out (-1)).

Definition handle_hello (h : NetBlockHeader) : ST session verdict :=
  _ ← modify (fun s => s <| hello_count := u64 (hello_count s + 1) |>);
  ok ← send_header NETBLK_OP_HELLO (sector_count st) SECTOR_SIZE (max_sectors (cfg st)) 0
         (if read_only (cfg st) then 0 else 1);
  mret (sent ok).

(** The range test of READ and WRITE, with the end of the range in 64 bits. *)
Definition out_of_range (h : NetBlockHeader) : bool :=
  let end_lba := u64 (lba h + count h) in
  (end_lba <? lba h) || (sector_count st <? end_lba).

Definition handle_read (h : NetBlockHeader) : ST session verdict :=
  if (count h =? 0) || (max_sectors (cfg st) <? count h) || out_of_range h then
    _ ← send_header NETBLK_OP_READ 0 0 0 NETBLK_STATUS_RANGE 0; mret Continue
  else
    let need := u32 (count h * SECTOR_SIZE) in
    ok ← send_header NETBLK_OP_READ (lba h) (count h) need 0 0;
    if negb ok then mret (Out (-1)) else
    ok ← send_image_exact (u64 (lba h * SECTOR_SIZE)) need;
    if negb ok then mret (Out (-1)) else
    _ ← modify (fun s => s <| read_count := u64 (read_count s + 1) |>);
    mret Continue.

Definition reject_write (h : NetBlockHeader) : ST session verdict :=
  ok ← (if nz (hbytes h) && (hbytes h <=? NETBLK_PROTOCOL_MAX_PAYLOAD)
        then recv_discard max_bytes (hbytes h)
        else mret (negb (nz (hbytes h))));
  if negb ok then mret (Out (-1)) else
  _ ← send_header NETBLK_OP_WRITE 0 0 0 NETBLK_STATUS_WRITE 0;
  mret Continue.

Definition handle_write (h : NetBlockHeader) : ST session verdict :=
  let need := u32 (count h * SECTOR_SIZE) in
  if read_only (cfg st) || (count h =? 0) || (NETBLK_PROTOCOL_MAX_SECTORS <? count h) ||
     negb (hbytes h =? need) || out_of_range h
  then reject_write h
  else
    ok ← recv_image_write (u64 (lba h * SECTOR_SIZE)) need max_bytes;
    if negb ok then
      _ ← send_header NETBLK_OP_WRITE 0 0 0 NETBLK_STATUS_WRITE 0; mret (Out (-1))
    else
      ok ← send_header NETBLK_OP_WRITE (lba h) (count h) 0 0 0;
      if negb ok then mret (Out (-1)) else
      _ ← modify (fun s => s <| write_count := u64 (write_count s + 1) |>);
      n ← gets write_count;
      _ ← lift (throttle n 16);
      mret Continue.

Definition handle_flush (h : NetBlockHeader) : ST session verdict :=
  status ← (if negb (read_only (cfg st)) && strict_flush (cfg st)
            then ok ← flush_image; mret (if ok : bool then NETBLK_STATUS_OK else NETBLK_STATUS_WRITE)
            else mret NETBLK_STATUS_OK);
  ok ← send_header NETBLK_OP_FLUSH 0 0 0 status 0;
  if negb ok then mret (Out (-1)) else
  _ ← modify (fun s => s <| flush_count := u64 (flush_count s + 1) |>);
  n ← gets flush_count;
  _ ← lift (throttle n 8);
  mret Continue.

(** The payload of PING and of unknown operations is read and dropped. *)
Definition take_payload (h : NetBlockHeader) : ST session bool :=
  if max_bytes <? hbytes h then mret false else
  if hbytes h =? 0 then mret true else
  r ← recv_all (hbytes h); mret (bool_decide (is_Some r)).

Definition handle_ping (h : NetBlockHeader) : ST session verdict :=
  ok ← take_payload h;
  if negb ok then mret (Out (-1)) else
  ok ← send_header NETBLK_OP_PING 0 0 0 0 0;
  if negb ok then mret (Out (-1)) else
  _ ← modify (fun s => s <| ping_count := u64 (ping_count s + 1) |>);
  n ← gets ping_count;
  _ ← lift (throttle n 8);
  mret Continue.

Definition handle_unknown (h : NetBlockHeader) : ST session verdict :=
  ok ← take_payload h;
  if negb ok then mret (Out (-1)) else
  ok ← send_header (op h) 0 0 0 NETBLK_STATUS_BAD_OP 0;
  mret (sent ok).

(** The [switch] on the operation. *)
Definition handle_op (h : NetBlockHeader) : ST session verdict :=
  match op h with
  | 8 => handle_time h
  | 1 => handle_hello h
  | 2 => handle_read h
  | 3 => handle_write h
  | 4 => handle_flush h
  | 5 => handle_ping h
  | _ => handle_unknown h
  end.

(** One round of the request loop. *)
Definition handle_request : ST session verdict :=
  r ← recv_all 32;
  match r with
  | None => mret (Out 0)
  | Some b =>
      let h := header_of b in
      if negb (bool_decide (magic h = NETBLK_MAGIC)) then mret (Out (-1)) else
      if negb (version h =? NETBLK_VERSION) then
        _ ← send_header (op h) 0 0 0 NETBLK_STATUS_BAD_VERSION 0; mret Continue
      else handle_op h
  end.

(** The session; a peer that never stops sending keeps it going for ever. *)
Fixpoint client_loop (fuel : nat) : ST session Z :=
  match fuel with
  | O => stuck Diverges
  | Datatypes.S fuel =>
      v ← handle_request;
      match v with
      | Continue => client_loop fuel
      | Out rc =>
          n ← gets write_count;
          _ ← (if negb (read_only (cfg st)) && nz n then flush_image else mret true);
          mret rc
      end
  end.

Definition handle_client (fuel : nat) (so : S) (im : F) (view : option (list Z)) :
    outcome (Z * session) :=
  client_loop fuel (mkSession so im view 0 0 0 0 0).

End Operations.

(** ** What the operating system promises

    [inbox] is what the peer has sent, or will send, that is not yet received;
    [outbox] what has been sent to it.  An [up] connection fails only at the
    end of the inbox; a [sound] file never fails inside its contents. *)

Class SocketLaws (S : Type) `{SocketOps S} := {
  inbox : S -> list Z;
  outbox : S -> list Z;
  up : S -> Prop;
  recv_sane so len : 0 < len ->
    let '(n, b, so') := recv so len in n <= len /\ (0 < n -> alen b = n) /\ Wire.bytes b;
  send_sane so p : let '(n, so') := send so p in n <= alen p;
  recv_up so len : up so -> 0 < len -> inbox so <> [] ->
    exists n b so', recv so len = (n, b, so') /\ 0 < n <= len /\ alen b = n /\
      inbox so = b ++ inbox so' /\ outbox so' = outbox so /\ up so';
  recv_end so len : up so -> 0 < len -> inbox so = [] ->
    exists n b so', recv so len = (n, b, so') /\ n <= 0 /\ inbox so' = [] /\
      outbox so' = outbox so /\ up so';
  send_up so p : up so -> p <> [] ->
    exists n so', send so p = (n, so') /\ 0 < n <= alen p /\
      outbox so' = outbox so ++ take (Z.to_nat n) p /\ inbox so' = inbox so /\ up so';
}.

Class FileLaws (F : Type) `{FileOps F} := {
  contents : F -> list Z;
  position : F -> Z;
  sound : F -> Prop;
  seek_keeps f off : contents (set_file_pointer f off).2 = contents f;
  read_keeps f n : 0 <= n -> let '(_, b, f') := read_file f n in contents f' = contents f /\ alen b <= n;
  write_sane f p : let '(ok, w, _) := write_file f p in ok = true -> 0 <= w <= alen p;
  flush_view_keeps f v : contents (flush_view f v).2 = contents f;
  flush_buffers_keeps f : contents (flush_file_buffers f).2 = contents f;
  seek_sound f off : sound f -> 0 <= off ->
    exists f', set_file_pointer f off = (true, f') /\ position f' = off /\ sound f';
  read_sound f n : sound f -> 0 < n -> 0 <= position f < alen (contents f) ->
    exists b f', read_file f n = (true, b, f') /\ 0 < alen b <= n /\
      b = slice (contents f) (position f) (alen b) /\
      position f' = position f + alen b /\ sound f';
  write_sound f p : sound f -> p <> [] -> 0 <= position f -> position f + alen p <= alen (contents f) ->
    exists w f', write_file f p = (true, w, f') /\ 0 < w <= alen p /\
      contents f' = splice (contents f) (position f) (take (Z.to_nat w) p) /\
      position f' = position f + w /\ sound f';
  flush_view_sound f v : sound f -> sound (flush_view f v).2;
  flush_buffers_sound f : sound f -> sound (flush_file_buffers f).2;
}.

(** ** Slices and splices *)

Lemma slice_length l off n : 0 <= off -> 0 <= n -> off + n <= alen l -> alen (slice l off n) = n.
Proof. unfold slice, alen. intros. rewrite length_take, length_drop. lia. Qed.
Lemma splice_length l off p : 0 <= off -> off + alen p <= alen l -> alen (splice l off p) = alen l.
Proof. unfold splice, alen. intros. rewrite !length_app, length_take, length_drop. lia. Qed.
Lemma slice_splice l off p :
  0 <= off -> off + alen p <= alen l -> slice (splice l off p) off (alen p) = p.
Proof.
  unfold slice, splice, alen. intros. rewrite drop_app_length' by (rewrite length_take; lia).
  rewrite Nat2Z.id, take_app_length. done.
Qed.
Lemma splice_nil l off : splice l off [] = l.
Proof. unfold splice. cbn. rewrite Nat.add_0_r. apply take_drop. Qed.
Lemma splice_app l off p q :
  0 <= off -> off + alen p + alen q <= alen l ->
  splice (splice l off p) (off + alen p) q = splice l off (p ++ q).
Proof.
  unfold splice, alen. intros Ho Hl.
  replace (Z.to_nat (off + Z.of_nat (length p))) with (Z.to_nat off + length p)%nat by lia.
  assert (Ha : length (take (Z.to_nat off) l) = Z.to_nat off) by (rewrite length_take; lia).
  set (a := take (Z.to_nat off) l) in *. set (b := drop (Z.to_nat off + length p) l).
  replace (a ++ p ++ b) with ((a ++ p) ++ b) by (symmetry; apply app_assoc).
  rewrite take_app_length' by (rewrite length_app; lia).
  rewrite drop_app_ge by (rewrite length_app; lia). unfold b. rewrite drop_drop.
  rewrite <- !app_assoc, !length_app. do 4 f_equal. lia.
Qed.
Lemma slice_app l off n m :
  0 <= off -> 0 <= n -> 0 <= m -> slice l off n ++ slice l (off + n) m = slice l off (n + m).
Proof.
  unfold slice. intros. rewrite !Z2Nat.inj_add by lia.
  rewrite <- drop_drop. apply take_take_drop.
Qed.
Lemma slice_all l : slice l 0 (alen l) = l.
Proof. unfold slice, alen. cbn. rewrite Nat2Z.id. apply firstn_all. Qed.

Lemma alen_nil_inv (l : list Z) : alen l <= 0 -> l = [].
Proof. destruct l; unfold alen; cbn [length]; [done|lia]. Qed.
Lemma alen_app (l l' : list Z) : alen (l ++ l') = alen l + alen l'.
Proof. unfold alen. rewrite length_app. lia. Qed.
Lemma alen_take (l : list Z) n : 0 <= n <= alen l -> alen (take (Z.to_nat n) l) = n.
Proof. unfold alen. rewrite length_take. lia. Qed.
Lemma alen_drop (l : list Z) n : 0 <= n <= alen l -> alen (drop (Z.to_nat n) l) = alen l - n.
Proof. unfold alen. rewrite length_drop. lia. Qed.
Lemma alen_nonneg (l : list Z) : 0 <= alen l.
Proof. unfold alen. lia. Qed.

(** [throttle] never divides by zero under a command line's configuration. *)
Definition cfg_wf (c : ServerConfig) : Prop :=
  1 <= max_sectors c <= 1024 /\ 1 <= progress_every c <= 1000000 /\ 1 <= port c <= 65535.

(** The image, as the disk it holds. *)
Section Laws.
Context {S F : Type} `{SocketLaws S} `{FileLaws F}.
Implicit Types s : Session S F.

Definition disk s : list Z :=
  match image_view s with Some v => v | None => contents (image s) end.
(** The mapped view, when there is one, has the size of the image. *)
Definition view_fits (size : Z) s : Prop :=
  match image_view s with Some v => alen v = size | None => True end.

(** *** On any connection *)

(** Transfers touch the socket only. *)
Definition only_sock {A} s (a : A) (s' : Session S F) : Prop := exists so, s' = s <| sock := so |>.

Lemma only_sock_trans {A B} s (a : A) (b : B) s1 s2 :
  only_sock s a s1 -> only_sock s1 b s2 -> only_sock s b s2.
Proof. intros [? ->] [so ->]. by exists so. Qed.

Definition chunk_of (n : Z) : Z := if NETBLK_IO_CHUNK_BYTES <? n then NETBLK_IO_CHUNK_BYTES else n.
Lemma chunk_of_range n : 0 < n -> 0 < chunk_of n <= n /\ chunk_of n <= NETBLK_IO_CHUNK_BYTES.
Proof.
  unfold chunk_of, NETBLK_IO_CHUNK_BYTES. destruct (Z.ltb_spec (64 * 1024) n); lia.
Qed.

Lemma send_loop_sane fuel p s :
  (length p < fuel)%nat -> run_to (send_loop fuel p) s (only_sock s).
Proof.
  revert p s. induction fuel as [|fuel IH]; intros p s Hf; [lia|]. cbn [send_loop].
  destruct p as [|b p']; [exists true, s; split; [done|]; exists (sock s); by destruct s|].
  set (p := b :: p') in *. fold (chunk_of (alen p)).
  assert (Hp : 0 < alen p) by (unfold alen; subst p; cbn; lia).
  pose proof (chunk_of_range _ Hp) as [Hc _].
  pose proof (send_sane (sock s) (take (Z.to_nat (chunk_of (alen p))) p)) as Hs.
  unfold run_to in *. destruct (send (sock s) _) as [n so]. rewrite alen_take in Hs by lia.
  destruct (Z.leb_spec n 0); [exists false, (s <| sock := so |>); split; [done|by exists so]|].
  destruct (IH (drop (Z.to_nat n) p) (s <| sock := so |>)) as (a & s' & E & [so' ->]);
    [unfold alen in *; rewrite length_drop; lia|].
  exists a, (s <| sock := so' |>). split; [exact E|]. by exists so'.
Qed.
Lemma send_all_sane p s : run_to (send_all p) s (only_sock s).
Proof. apply send_loop_sane. lia. Qed.

Definition recv_result (n : Z) (r : option (list Z)) : Prop :=
  match r with Some b => alen b = n /\ bytes b | None => True end.

Lemma recv_loop_sane fuel n got s :
  0 <= n < Z.of_nat fuel -> bytes got ->
  run_to (recv_loop fuel n got) s (fun r s' => recv_result (alen got + n) r /\ only_sock s r s').
Proof.
  revert n got s. induction fuel as [|fuel IH]; intros n got s Hf Hg; [lia|]. cbn [recv_loop].
  destruct (Z.leb_spec n 0) as [Hn|Hn].
  { exists (Some got), s. split; [done|]. split; [split; [lia|done]|]. exists (sock s). by destruct s. }
  fold (chunk_of n). pose proof (chunk_of_range _ Hn) as [Hc _].
  pose proof (recv_sane (sock s) (chunk_of n)) as Hs.
  unfold run_to in *. destruct (recv (sock s) _) as [[k b] so]. destruct Hs as (Hk & Hb & Hby); [lia|].
  destruct (Z.leb_spec k 0).
  { exists None, (s <| sock := so |>). split; [done|]. split; [done|by exists so]. }
  destruct (IH (n - k) (got ++ b) (s <| sock := so |>)) as (a & s' & E & Hr & [so' ->]);
    [lia|by apply Forall_app|].
  exists a, (s <| sock := so' |>). split; [exact E|]. split; [|by exists so'].
  rewrite alen_app, Hb in Hr by lia. by replace (alen got + n) with (alen got + k + (n - k)) by lia.
Qed.
Lemma recv_all_sane n s : 0 <= n ->
  run_to (recv_all n) s (fun r s' => recv_result n r /\ only_sock s r s').
Proof. intros. apply (recv_loop_sane _ n []); [lia|constructor]. Qed.

Lemma discard_loop_sane fuel scratch n s :
  0 < scratch -> 0 <= n < 2 ^ 32 -> n < Z.of_nat fuel ->
  run_to (discard_loop fuel scratch n) s (only_sock s).
Proof.
  intros Hs. revert n s. induction fuel as [|fuel IH]; intros n s Hn Hf; [lia|]. cbn [discard_loop].
  assert (Hret : forall b : bool, run_to (mret b) s (only_sock s)).
  { intros b. apply run_ret. exists (sock s). by destruct s. }
  destruct (Z.eqb_spec n 0); [apply Hret|].
  set (chunk := if n <? scratch then n else scratch).
  assert (0 < chunk <= n) by (unfold chunk; destruct (Z.ltb_spec n scratch); lia).
  destruct (Z.eqb_spec chunk 0); [lia|].
  eapply run_bind; [apply recv_all_sane; lia|]. intros [b|] s1 [_ Hk1]; cbn beta iota.
  - eapply run_mono; [apply IH; rewrite u32_id by (unfold inw; lia); lia|].
    intros a s2 Hk2. by eapply only_sock_trans.
  - by apply run_ret.
Qed.

(** The image is as it was. *)
Definition keeps {A} s (a : A) (s' : Session S F) : Prop :=
  image_view s' = image_view s /\ contents (image s') = contents (image s).

Lemma only_sock_keeps {A} s (a : A) s' : only_sock s a s' -> keeps s a s'.
Proof. intros [so ->]. done. Qed.
Lemma keeps_trans {A B} s (a : A) (b : B) s1 s2 : keeps s a s1 -> keeps s1 b s2 -> keeps s b s2.
Proof. intros [Ha Hb] [Hc Hd]. split; congruence. Qed.

Lemma read_loop_sane fuel n got s :
  n < 2 ^ 32 -> (Z.to_nat (n - alen got) < fuel)%nat -> run_to (read_loop fuel n got) s (keeps s).
Proof.
  intros Hn. revert got s. induction fuel as [|fuel IH]; intros got s Hf; [lia|]. cbn [read_loop].
  destruct (Z.leb_spec n (alen got)); [by exists (Some got), s|].
  pose proof (alen_nonneg got). rewrite u32_id by (unfold inw; lia).
  pose proof (read_keeps (image s) (n - alen got) ltac:(lia)) as Hr.
  unfold run_to in *. destruct (read_file (image s) _) as [[ok b] im]. destruct Hr as [Hc Hb].
  destruct (negb ok || (alen b =? 0)) eqn:E.
  { exists None, (s <| image := im |>). split; [done|]. by split. }
  apply orb_false_iff in E as [_ E]. apply Z.eqb_neq in E. pose proof (alen_nonneg b).
  destruct (IH (got ++ b) (s <| image := im |>)) as (a & s' & Hrun & [Hv Hc']);
    [rewrite alen_app; lia|].
  exists a, s'. split; [exact Hrun|]. split; [exact Hv|]. etransitivity; [exact Hc'|exact Hc].
Qed.

Lemma read_file_exact_sane off n s :
  n < 2 ^ 32 -> run_to (read_file_exact off n) s (keeps s).
Proof.
  intros Hn. unfold read_file_exact. pose proof (seek_keeps (image s) off) as Hk.
  unfold run_to. destruct (set_file_pointer (image s) off) as [[|] im]; cbn in Hk.
  - destruct (read_loop_sane (Datatypes.S (Z.to_nat n)) n [] (s <| image := im |>)) as (a & s' & E & Hs);
      [done|unfold alen; cbn; lia|].
    exists a, s'. split; [exact E|]. eapply (keeps_trans _ tt); [|exact Hs]. by split.
  - exists None, (s <| image := im |>). split; [done|]. by split.
Qed.

Lemma write_loop_sane fuel p s :
  (length p < fuel)%nat -> run_to (write_loop fuel p) s (fun _ s' => image_view s' = image_view s).
Proof.
  revert p s. induction fuel as [|fuel IH]; intros p s Hf; [lia|]. cbn [write_loop].
  destruct p as [|b p']; [by exists true, s|]. set (p := b :: p') in *.
  pose proof (write_sane (image s) p) as Hw. unfold run_to in *.
  destruct (write_file (image s) p) as [[ok w] im].
  destruct (negb ok || (w =? 0)) eqn:E; [by exists false, (s <| image := im |>)|].
  apply orb_false_iff in E as [Eo Ew]. apply negb_false_iff in Eo. apply Z.eqb_neq in Ew.
  destruct (IH (drop (Z.to_nat w) p) (s <| image := im |>)) as (a & s' & Hr & Hv);
    [unfold alen in *; rewrite length_drop; specialize (Hw Eo); lia|].
  exists a, s'. split; [exact Hr|exact Hv].
Qed.

Lemma send_image_exact_sane size off n s :
  view_fits size s -> 0 <= off -> 0 <= n < 2 ^ 32 -> off + n <= size ->
  run_to (send_image_exact off n) s (keeps s).
Proof.
  intros Hv Ho Hn Hs. unfold view_fits in Hv. destruct (image_view s) as [v|] eqn:E.
  - assert (Heq : send_image_exact off n s = send_all (slice v off n) s).
    { unfold send_image_exact. rewrite E. destruct (Z.ltb_spec (alen v) (off + n)); [lia|done]. }
    destruct (send_all_sane (slice v off n) s) as (a & s' & Hr & Hk).
    exists a, s'. rewrite Heq. split; [done|by apply only_sock_keeps].
  - assert (Heq : send_image_exact off n s = (r ← read_file_exact off n;
       match r with None => mret false | Some b => send_all b end) s)
      by (unfold send_image_exact; by rewrite E).
    unfold run_to. rewrite Heq. eapply run_bind; [apply read_file_exact_sane; lia|].
    intros [b|] s1 Hk1; [|by apply run_ret].
    eapply run_mono; [apply send_all_sane|]. intros a s2 Hk2.
    eapply keeps_trans; [exact Hk1|by apply only_sock_keeps].
Qed.

(** The view keeps its size. *)
Definition view_len s : option Z := alen <$> image_view s.

Lemma keeps_view_len {A} s (a : A) s' : keeps s a s' -> view_len s' = view_len s.
Proof. intros [Hv _]. unfold view_len. by rewrite Hv. Qed.
Lemma view_len_fits size s s' : view_len s' = view_len s -> view_fits size s -> view_fits size s'.
Proof.
  unfold view_len, view_fits. destruct (image_view s), (image_view s'); cbn; intros [=]; congruence.
Qed.

Lemma write_image_exact_sane size off p s :
  view_fits size s -> 0 <= off -> off + alen p <= size ->
  run_to (write_image_exact off p) s (fun _ s' => view_len s' = view_len s).
Proof.
  intros Hv Ho Hs. unfold view_fits in Hv. unfold run_to, write_image_exact.
  destruct (image_view s) as [v|] eqn:E.
  - destruct (Z.ltb_spec (alen v) (off + alen p)); [lia|].
    eexists _, _. split; [reflexivity|]. unfold view_len. rewrite E. cbn. f_equal.
    apply splice_length; lia.
  - unfold write_file_exact. destruct (set_file_pointer (image s) off) as [[|] im].
    + destruct (write_loop_sane (Datatypes.S (length p)) p (s <| image := im |>)) as (a & s' & Hr & Hk);
        [lia|]. exists a, s'. split; [exact Hr|]. unfold view_len. by rewrite Hk.
    + exists false, (s <| image := im |>). done.
Qed.

Lemma image_write_loop_sane size fuel off n scratch s :
  0 < scratch -> 0 <= n < 2 ^ 32 -> n < Z.of_nat fuel -> view_fits size s ->
  0 <= off -> off + n <= size < 2 ^ 64 ->
  run_to (image_write_loop fuel off n scratch) s (fun _ s' => view_len s' = view_len s).
Proof.
  intros Hs. revert off n s. induction fuel as [|fuel IH]; intros off n s Hn Hf Hv Ho Hz; [lia|].
  cbn [image_write_loop]. destruct (Z.eqb_spec n 0); [by apply run_ret|].
  set (chunk := if n <? scratch then n else scratch).
  assert (0 < chunk <= n) by (unfold chunk; destruct (Z.ltb_spec n scratch); lia).
  destruct (Z.eqb_spec chunk 0); [lia|].
  eapply run_bind; [apply recv_all_sane; lia|]. intros [b|] s1 [Hb Hk1]; cbn beta iota in *;
    apply only_sock_keeps in Hk1; apply keeps_view_len in Hk1 as Hl1; [|by apply run_ret].
  destruct Hb as [Hb _]. eapply run_bind.
  - apply (write_image_exact_sane size); [by eapply view_len_fits|done|lia].
  - intros ok s2 Hl2. cbn beta in Hl2. rewrite Hl1 in Hl2. destruct ok; [|by apply run_ret].
    rewrite u32_id, u64_id by (unfold inw; lia).
    eapply run_mono; [apply IH; try lia; by eapply view_len_fits|].
    intros a s3 Hl3. cbn beta in *. congruence.
Qed.

Lemma flush_image_keeps s : run_to flush_image s (keeps s).
Proof.
  unfold run_to, flush_image. destruct (image_view s) as [v|] eqn:E.
  - pose proof (flush_view_keeps (image s) v) as Hv. destruct (flush_view (image s) v) as [[|] im]; cbn in Hv.
    + cbn [image set_field eta_record eta_Session].
      pose proof (flush_buffers_keeps im) as Hb. destruct (flush_file_buffers im) as [ok im2].
      exists ok, (s <| image := im2 |>). split; [done|]. split; [done|]. cbn in *. congruence.
    + exists false, (s <| image := im |>). split; [done|]. by split.
  - pose proof (flush_buffers_keeps (image s)) as Hb. destruct (flush_file_buffers (image s)) as [ok im].
    exists ok, (s <| image := im |>). split; [done|]. by split.
Qed.

(** *** A request on any connection

    A server of [sector_count] whole sectors on an image of [size] bytes. *)

Section Requests.
Context (st : Export) (wall_time size : Z).
Hypothesis Hcfg : cfg_wf (cfg st).
Hypothesis Hsize : 0 <= sector_count st /\ sector_count st * SECTOR_SIZE <= size < 2 ^ 63.

(** The view keeps its size, and a read-only export its contents. *)
Definition safe {A} s (a : A) (s' : Session S F) : Prop :=
  view_len s' = view_len s /\ (read_only (cfg st) = true -> disk s' = disk s).

Lemma keeps_safe {A} s (a : A) s' : keeps s a s' -> safe s a s'.
Proof.
  intros Hk. split; [by eapply keeps_view_len|]. intros _. destruct Hk as [Hv Hc].
  unfold disk. by rewrite Hv, Hc.
Qed.
Lemma safe_trans {A B} s (a : A) (b : B) s1 s2 : safe s a s1 -> safe s1 b s2 -> safe s b s2.
Proof. intros [? Ha] [? Hb]. split; [congruence|]. intros Hr. rewrite Hb, Ha; done. Qed.

Lemma send_header_safe o l c b x f s : run_to (send_header o l c b x f) s (safe s).
Proof.
  eapply run_mono; [apply send_all_sane|]. intros. by apply keeps_safe, only_sock_keeps.
Qed.

(** Sequencing under [safe]. *)
Lemma safe_bind {A B} (m : ST (Session S F) A) (k : A -> ST (Session S F) B) s :
  run_to m s (safe s) -> (forall a s', run_to (k a) s' (safe s')) -> run_to (m ≫= k) s (safe s).
Proof.
  intros Hm Hk. eapply run_bind; [exact Hm|]. intros a s1 H1'.
  eapply run_mono; [apply Hk|]. intros b s2 H2'. by eapply safe_trans.
Qed.
Lemma safe_ret {A} (a : A) s : run_to (mret a) s (safe s).
Proof. apply run_ret. by split. Qed.
Lemma safe_modify (f : Session S F -> Session S F) s :
  image_view (f s) = image_view s -> image (f s) = image s -> run_to (modify f) s (safe s).
Proof. intros Hv Hi. apply run_modify, keeps_safe. split; congruence. Qed.
Lemma safe_throttle n first s : run_to (lift (throttle st n first)) s (safe s).
Proof.
  apply (run_lift _ tt); [|by split]. unfold throttle. destruct (n <=? first); [done|].
  destruct Hcfg as (_ & Hp & _). destruct (Z.eqb_spec (progress_every (cfg st)) 0); [lia|done].
Qed.
Lemma safe_gets {A} (f : Session S F -> A) s : run_to (gets f) s (safe s).
Proof. apply run_gets. by split. Qed.

Lemma max_bytes_range : 512 <= max_bytes st <= 524288.
Proof.
  destruct Hcfg as (Hm & _). unfold max_bytes, SECTOR_SIZE.
  rewrite u32_id by (unfold inw; lia). lia.
Qed.

Lemma take_payload_safe h s : header_wf h -> run_to (take_payload st h) s (safe s).
Proof.
  intros Hh. unfold take_payload. case_match; [apply safe_ret|]. case_match; [apply safe_ret|].
  apply safe_bind; [|intros; apply safe_ret].
  eapply run_mono; [apply recv_all_sane, (wf_bytes h Hh)|].
  intros a s' [_ Hk]. by apply keeps_safe, only_sock_keeps.
Qed.

Ltac safe_steps :=
  repeat first
    [ apply safe_ret | apply send_header_safe | apply safe_gets | apply safe_throttle
    | (apply safe_modify; done) | (apply take_payload_safe; done)
    | (apply safe_bind; [|intros]) | (case_match; cbn [negb]) ].

Lemma handle_small_safe h s :
  header_wf h ->
  run_to (handle_time wall_time h) s (safe s) /\ run_to (handle_hello st h) s (safe s) /\
  run_to (handle_ping st h) s (safe s) /\ run_to (handle_unknown st h) s (safe s).
Proof.
  intros Hh. unfold handle_time, handle_hello, handle_ping, handle_unknown.
  repeat apply conj; safe_steps.
Qed.

Lemma handle_flush_safe h s : run_to (handle_flush st h) s (safe s).
Proof.
  unfold handle_flush. safe_steps. eapply run_mono; [apply flush_image_keeps|].
  intros. by apply keeps_safe.
Qed.

(** A range the test accepts lies inside the image. *)
Lemma in_range_bytes h :
  header_wf h -> out_of_range st h = false -> count h <= 1024 ->
  u64 (lba h + count h) = lba h + count h /\ u64 (lba h * SECTOR_SIZE) = lba h * SECTOR_SIZE /\
  u32 (count h * SECTOR_SIZE) = count h * SECTOR_SIZE /\ 0 <= lba h /\ 0 <= count h /\
  (lba h + count h) * SECTOR_SIZE <= size /\ lba h + count h <= sector_count st.
Proof.
  intros Hh Hr Hc. unfold out_of_range in Hr. apply orb_false_iff in Hr as [Hr1 Hr2].
  apply Z.ltb_ge in Hr1, Hr2. pose proof (wf_lba h Hh) as [Hl0 Hl1]. pose proof (wf_count h Hh) as [Hc0 _].
  unfold SECTOR_SIZE in *.
  assert (E : u64 (lba h + count h) = lba h + count h).
  { unfold u64 in *. destruct (Z.lt_ge_cases (lba h + count h) (2 ^ 64)); [apply Z.mod_small; lia|].
    exfalso. rewrite <- (Z.mod_unique (lba h + count h) (2 ^ 64) 1 (lba h + count h - 2 ^ 64)) in Hr1; lia. }
  rewrite E in *. rewrite u64_id, u32_id by (unfold inw; lia). lia.
Qed.

Lemma handle_read_safe h s : header_wf h -> view_fits size s -> run_to (handle_read st h) s (safe s).
Proof.
  intros Hh Hv. unfold handle_read. destruct (_ || _) eqn:E; [safe_steps|].
  apply orb_false_iff in E as [E Er]. apply orb_false_iff in E as [E0 E1].
  apply Z.ltb_ge in E1. destruct Hcfg as ([_ Hm] & _).
  destruct (in_range_bytes h Hh Er) as (_ & -> & -> & ? & ? & ? & _); [lia|].
  eapply run_bind; [apply send_header_safe|]. intros [|] s1 Hs1; cbn [negb]; [|by apply run_ret].
  assert (Hv1 : view_fits size s1) by (eapply view_len_fits; [apply Hs1|done]).
  eapply run_mono; [|intros a s2 Hs2; eapply safe_trans; [exact Hs1|exact Hs2]].
  apply safe_bind; [|intros [|] ?; safe_steps].
  eapply run_mono; [apply (send_image_exact_sane size); try done; unfold SECTOR_SIZE in *; lia|].
  intros. by apply keeps_safe.
Qed.

Lemma reject_write_safe h s : header_wf h -> run_to (reject_write st h) s (safe s).
Proof.
  intros Hh. unfold reject_write. safe_steps. eapply run_mono.
  - apply discard_loop_sane; [pose proof max_bytes_range; lia|apply (wf_bytes h Hh)|].
    pose proof (wf_bytes h Hh) as [? _]. lia.
  - intros. by apply keeps_safe, only_sock_keeps.
Qed.

Lemma handle_write_safe h s : header_wf h -> view_fits size s -> run_to (handle_write st h) s (safe s).
Proof.
  intros Hh Hv. unfold handle_write. destruct (_ || _) eqn:E; [by apply reject_write_safe|].
  apply orb_false_iff in E as [E Er]. apply orb_false_iff in E as [E _].
  apply orb_false_iff in E as [E E1]. apply orb_false_iff in E as [Ero _].
  apply Z.ltb_ge in E1. unfold NETBLK_PROTOCOL_MAX_SECTORS in E1.
  destruct (in_range_bytes h Hh Er) as (_ & -> & -> & ? & ? & ? & _); [lia|].
  eapply run_bind.
  - apply (image_write_loop_sane size); try done; unfold SECTOR_SIZE in *;
      try (pose proof max_bytes_range; lia).
  - intros ok s1 Hl. assert (Hs1 : safe s ok s1) by (split; [done|congruence]).
    eapply run_mono; [|intros a s2 Hs2; eapply safe_trans; [exact Hs1|exact Hs2]].
    destruct ok; cbn [negb]; safe_steps.
Qed.

Lemma handle_op_safe h s :
  header_wf h -> view_fits size s -> run_to (handle_op st wall_time h) s (safe s).
Proof.
  intros Hh Hv. destruct (handle_small_safe h s Hh) as (Ht & Hl & Hp & Hu). unfold handle_op.
  repeat case_match; lazymatch goal with
  | |- run_to (handle_time _ _) _ _ => exact Ht
  | |- run_to (handle_hello _ _) _ _ => exact Hl
  | |- run_to (handle_ping _ _) _ _ => exact Hp
  | |- run_to (handle_unknown _ _) _ _ => exact Hu
  | |- run_to (handle_read _ _) _ _ => exact (handle_read_safe h s Hh Hv)
  | |- run_to (handle_write _ _) _ _ => exact (handle_write_safe h s Hh Hv)
  | |- run_to (handle_flush _ _) _ _ => exact (handle_flush_safe h s)
  end.
Qed.

(** C15. On any connection and any image file, failing ones included, a
    request of any 32 bytes and payload is served without an access outside the
    image view, without dividing by zero and in finitely many steps; the view
    keeps its size, and a read-only export its contents, byte for byte. *)
Theorem handle_request_safe s :
  view_fits size s ->
  run_to (handle_request st wall_time) s (fun _ s' =>
    view_fits size s' /\ (read_only (cfg st) = true -> disk s' = disk s)).
Proof.
  intros Hv. eapply (run_mono _ _ (safe s)).
  2:{ intros a s' [Hl Hd]. split; [by eapply view_len_fits|done]. }
  unfold handle_request. eapply run_bind; [apply recv_all_sane; lia|].
  intros [b|] s1 [Hb Hk]; apply only_sock_keeps, keeps_safe in Hk; [|by apply run_ret].
  eapply run_mono; [|intros a s2 Hs2; eapply safe_trans; [exact Hk|exact Hs2]].
  destruct Hb as [Hb Hby].
  assert (Hh : header_wf (header_of b)) by apply header_of_wf.
  cbv zeta. case_match; [safe_steps|]. case_match; [safe_steps|].
  apply handle_op_safe; [done|]. eapply view_len_fits; [apply Hk|done].
Qed.

End Requests.

(** *** On a working connection *)

(** The session at disk [D], with [i] still to receive and [o] sent. *)
Definition here (D i o : list Z) s : Prop :=
  up (sock s) /\ (image_view s = None -> sound (image s)) /\ disk s = D /\
  inbox (sock s) = i /\ outbox (sock s) = o.

Lemma here_sock D i o s so i' o' :
  here D i o s -> up so -> inbox so = i' -> outbox so = o' -> here D i' o' (s <| sock := so |>).
Proof. intros (_ & Hs & Hd & _ & _) ? ? ?. done. Qed.

Lemma send_loop_up fuel p D i o s :
  (length p < fuel)%nat -> here D i o s ->
  run_to (send_loop fuel p) s (fun ok s' => ok = true /\ here D i (o ++ p) s').
Proof.
  revert p o s. induction fuel as [|fuel IH]; intros p o s Hf Hh; [lia|]. cbn [send_loop].
  destruct p as [|b p']; [exists true, s; rewrite app_nil_r; done|]. set (p := b :: p') in *.
  fold (chunk_of (alen p)). assert (Hp : 0 < alen p) by (unfold alen; subst p; cbn; lia).
  pose proof (chunk_of_range _ Hp) as [Hc _]. set (d := take (Z.to_nat (chunk_of (alen p))) p).
  assert (Hd : alen d = chunk_of (alen p)) by (apply alen_take; lia).
  destruct (send_up (sock s) d) as (n & so & E & Hn & Ho & Hi & Hu);
    [apply Hh|intros Hz; apply (f_equal alen) in Hz; change (alen (@nil Z)) with 0 in Hz; lia|].
  unfold run_to in *. rewrite E. destruct (Z.leb_spec n 0); [lia|].
  assert (Ht : take (Z.to_nat n) d = take (Z.to_nat n) p)
    by (unfold d; rewrite take_take; f_equal; lia).
  destruct Hh as (Hup & Hso & Hdk & Hin & Hout).
  destruct (IH (drop (Z.to_nat n) p) (o ++ take (Z.to_nat n) p) (s <| sock := so |>))
    as (a & s' & Hr & -> & Hs'); [unfold alen in *; rewrite length_drop; lia| |].
  - eapply here_sock; [done|done|congruence|]. rewrite Ho, Ht. congruence.
  - exists true, s'. split; [exact Hr|]. split; [done|].
    by rewrite <- app_assoc, take_drop in Hs'.
Qed.
Lemma send_all_up p D i o s : here D i o s ->
  run_to (send_all p) s (fun ok s' => ok = true /\ here D i (o ++ p) s').
Proof. apply send_loop_up. lia. Qed.

Lemma recv_loop_up fuel n got D i o s :
  0 <= n < Z.of_nat fuel -> here D i o s ->
  run_to (recv_loop fuel n got) s (fun r s' =>
    if n <=? alen i then r = Some (got ++ take (Z.to_nat n) i) /\ here D (drop (Z.to_nat n) i) o s'
    else r = None /\ here D [] o s').
Proof.
  revert n got i s. induction fuel as [|fuel IH]; intros n got i s Hf Hh; [lia|]. cbn [recv_loop].
  pose proof (alen_nonneg i). destruct (Z.leb_spec n 0) as [Hn|Hn].
  { assert (n = 0) as -> by lia. destruct (Z.leb_spec 0 (alen i)); [|lia].
    exists (Some got), s. rewrite app_nil_r. done. }
  fold (chunk_of n). pose proof (chunk_of_range _ Hn) as [Hc _].
  pose proof Hh as (Hup & Hso & Hdk & Hin & Hout). destruct (decide (i = [])) as [->|Hne].
  - destruct (recv_end (sock s) (chunk_of n)) as (k & b & so & E & Hk & Hi' & Ho & Hu); [done|lia|done|].
    unfold run_to. rewrite E. destruct (Z.leb_spec k 0); [|lia].
    change (alen (@nil Z)) with 0. destruct (Z.leb_spec n 0); [lia|].
    exists None, (s <| sock := so |>). split; [done|]. split; [done|].
    eapply here_sock; [done|done|done|congruence].
  - destruct (recv_up (sock s) (chunk_of n)) as (k & b & so & E & Hk & Hb & Hi' & Ho & Hu);
      [done|lia|congruence|].
    unfold run_to in *. rewrite E. destruct (Z.leb_spec k 0); [lia|].
    rewrite Hin in Hi'. destruct (IH (n - k) (got ++ b) (inbox so) (s <| sock := so |>))
      as (r & s' & Hr & Hs'); [lia|eapply here_sock; [done|done|done|congruence]|].
    exists r, s'. split; [exact Hr|]. rewrite Hi', alen_app, Hb.
    destruct (Z.leb_spec (n - k) (alen (inbox so))), (Z.leb_spec n (k + alen (inbox so))); try lia;
      [|done].
    replace (Z.to_nat n) with (length b + Z.to_nat (n - k))%nat by (unfold alen in *; lia).
    rewrite take_app_add, drop_app_add, app_assoc. done.
Qed.
Lemma recv_all_up n D i o s : 0 <= n -> here D i o s ->
  run_to (recv_all n) s (fun r s' =>
    if n <=? alen i then r = Some (take (Z.to_nat n) i) /\ here D (drop (Z.to_nat n) i) o s'
    else r = None /\ here D [] o s').
Proof. intros. apply (recv_loop_up _ n []); [lia|done]. Qed.

(** The image file, when there is no view. *)
Definition here_file (D i o : list Z) (pos : Z) s : Prop :=
  here D i o s /\ image_view s = None /\ position (image s) = pos.

Lemma read_loop_up fuel off n got D i o s :
  0 <= off -> n < 2 ^ 32 -> off + n <= alen D -> alen got <= n ->
  got = slice D off (alen got) -> (Z.to_nat (n - alen got) < fuel)%nat ->
  here_file D i o (off + alen got) s ->
  run_to (read_loop fuel n got) s (fun r s' => r = Some (slice D off n) /\ here D i o s').
Proof.
  intros Ho Hn32 Hn. revert got s. induction fuel as [|fuel IH]; intros got s Hgn Hg Hf (Hh & Hv & Hp); [lia|].
  cbn [read_loop]. destruct (Z.leb_spec n (alen got)).
  { exists (Some got), s. split; [done|]. split; [|done]. rewrite Hg. do 2 f_equal. lia. }
  pose proof (alen_nonneg got). rewrite u32_id by (unfold inw; lia).
  destruct Hh as (Hup & Hso & Hdk & Hin & Hout). specialize (Hso Hv).
  unfold disk in Hdk. rewrite Hv in Hdk.
  destruct (read_sound (image s) (n - alen got)) as (b & f' & E & Hb & Hsl & Hpos & Hs');
    [done|lia|rewrite Hp, Hdk; lia|].
  pose proof (read_keeps (image s) (n - alen got) ltac:(lia)) as Hk. rewrite E in Hk. destruct Hk as [Hk _].
  unfold run_to in *. rewrite E. cbn [negb orb]. destruct (Z.eqb_spec (alen b) 0); [lia|].
  destruct (IH (got ++ b) (s <| image := f' |>)) as (a & s' & Hr & Hs2).
  - rewrite alen_app. lia.
  - rewrite alen_app, <- slice_app by lia. f_equal; [done|]. by rewrite Hsl, Hdk, Hp at 1.
  - rewrite alen_app. lia.
  - split; [|split; [done|cbn; rewrite alen_app; lia]]. unfold here, disk. cbn. rewrite Hv. repeat split; congruence.
  - by exists a, s'.
Qed.

Lemma read_file_exact_up off n D i o s :
  0 <= off -> 0 <= n < 2 ^ 32 -> off + n <= alen D -> image_view s = None -> here D i o s ->
  run_to (read_file_exact off n) s (fun r s' => r = Some (slice D off n) /\ here D i o s').
Proof.
  intros Ho Hn Hl Hv Hh. pose proof Hh as (Hup & Hso & Hdk & Hin & Hout). specialize (Hso Hv).
  destruct (seek_sound (image s) off) as (f' & E & Hp & Hs); [done|done|].
  pose proof (seek_keeps (image s) off) as Hk. rewrite E in Hk. cbn in Hk.
  unfold run_to, read_file_exact. rewrite E.
  apply (read_loop_up _ off n [] D i o); change (alen (@nil Z)) with 0; try lia; try done.
  unfold disk in Hdk. rewrite Hv in Hdk.
  split; [|split; [done|cbn; lia]]. unfold here, disk. cbn. rewrite Hv. repeat split; congruence.
Qed.

Lemma write_loop_up fuel p D i o pos s :
  (length p < fuel)%nat -> 0 <= pos -> pos + alen p <= alen D -> here_file D i o pos s ->
  run_to (write_loop fuel p) s (fun ok s' => ok = true /\ here (splice D pos p) i o s').
Proof.
  revert p D pos s. induction fuel as [|fuel IH]; intros p D pos s Hf Hpos Hl (Hh & Hv & Hp); [lia|].
  cbn [write_loop]. destruct p as [|b p']; [by exists true, s; rewrite splice_nil|].
  set (p := b :: p') in *. destruct Hh as (Hup & Hso & Hdk & Hin & Hout). specialize (Hso Hv).
  unfold disk in Hdk. rewrite Hv in Hdk.
  destruct (write_sound (image s) p) as (w & f' & E & Hw & Hc & Hp' & Hs');
    [done|done|lia|rewrite Hp, Hdk; lia|].
  unfold run_to in *. rewrite E. cbn [negb orb]. destruct (Z.eqb_spec w 0); [lia|].
  set (q := take (Z.to_nat w) p) in *. assert (Hq : alen q = w) by (apply alen_take; lia).
  destruct (IH (drop (Z.to_nat w) p) (splice D pos q) (pos + w) (s <| image := f' |>))
    as (a & s' & Hr & -> & Hs2).
  - unfold alen in *. rewrite length_drop. lia.
  - lia.
  - rewrite alen_drop, splice_length by lia. lia.
  - split; [|split; [done|cbn; lia]]. unfold here, disk. cbn. rewrite Hv. repeat split; congruence.
  - exists true, s'. split; [exact Hr|]. split; [done|]. replace (pos + w) with (pos + alen q) in Hs2 by lia.
    rewrite splice_app in Hs2 by (rewrite ?alen_drop by lia; lia). unfold q in Hs2. by rewrite take_drop in Hs2.
Qed.

Lemma send_image_exact_up off n D i o s :
  0 <= off -> 0 <= n < 2 ^ 32 -> off + n <= alen D -> here D i o s ->
  run_to (send_image_exact off n) s (fun ok s' => ok = true /\ here D i (o ++ slice D off n) s').
Proof.
  intros Ho Hn Hl Hh. pose proof Hh as (_ & _ & Hdk & _). unfold disk in Hdk.
  unfold run_to, send_image_exact. destruct (image_view s) as [v|] eqn:Hv.
  - subst v. destruct (Z.ltb_spec (alen D) (off + n)); [lia|]. by apply send_all_up.
  - eapply run_bind; [by apply (read_file_exact_up off n D i o)|]. intros r s1 [-> H1'].
    by apply send_all_up.
Qed.

Lemma write_image_exact_up off p D i o s :
  0 <= off -> off + alen p <= alen D -> here D i o s ->
  run_to (write_image_exact off p) s (fun ok s' => ok = true /\ here (splice D off p) i o s').
Proof.
  intros Ho Hl Hh. pose proof Hh as (Hup & Hso & Hdk & Hin & Hout). unfold disk in Hdk.
  unfold run_to, write_image_exact. destruct (image_view s) as [v|] eqn:Hv.
  - subst v. destruct (Z.ltb_spec (alen D) (off + alen p)); [lia|].
    exists true, (s <| image_view := Some (splice D off p) |>). by repeat split.
  - specialize (Hso eq_refl). destruct (seek_sound (image s) off) as (f' & E & Hp & Hs); [done|done|].
    pose proof (seek_keeps (image s) off) as Hk. rewrite E in Hk. cbn in Hk.
    unfold write_file_exact. rewrite E. apply write_loop_up; [lia|done|done|].
    split; [|split; [done|done]]. unfold here, disk. cbn. rewrite Hv. repeat split; congruence.
Qed.

(** What a payload of [n] bytes, received in pieces of [scratch], leaves on the
    disk: all of it, or the whole pieces that arrived. *)
Definition arrived (scratch n : Z) (i : list Z) : Z :=
  if n <=? alen i then n else alen i / scratch * scratch.

Lemma arrived_step scratch n i :
  0 < scratch -> 0 < n ->
  let chunk := if n <? scratch then n else scratch in
  arrived scratch n i =
    if chunk <=? alen i then chunk + arrived scratch (n - chunk) (drop (Z.to_nat chunk) i) else 0.
Proof.
  intros Hs Hn chunk. unfold arrived. pose proof (alen_nonneg i).
  assert (Hc : 0 < chunk <= n) by (unfold chunk; destruct (Z.ltb_spec n scratch); lia).
  destruct (Z.leb_spec chunk (alen i)).
  - rewrite alen_drop by lia. destruct (Z.leb_spec n (alen i)), (Z.leb_spec (n - chunk) (alen i - chunk)); try lia.
    assert (chunk = scratch) as -> by (unfold chunk in *; destruct (Z.ltb_spec n scratch); lia).
    replace (alen i - scratch) with (alen i + (-1) * scratch) by lia. rewrite Z.div_add by lia. lia.
  - destruct (Z.leb_spec n (alen i)); [lia|].
    rewrite Z.div_small; [lia|]. unfold chunk in *. destruct (Z.ltb_spec n scratch); lia.
Qed.

Lemma arrived_range scratch n i : 0 < scratch -> 0 <= n -> 0 <= arrived scratch n i <= n /\ arrived scratch n i <= alen i.
Proof.
  intros Hs Hn. unfold arrived. pose proof (alen_nonneg i). destruct (Z.leb_spec n (alen i)); [lia|].
  pose proof (Z.mul_div_le (alen i) scratch). pose proof (Z.div_pos (alen i) scratch). nia.
Qed.

Lemma image_write_loop_up fuel off n scratch D i o s :
  0 < scratch -> 0 <= n < 2 ^ 32 -> n < Z.of_nat fuel -> 0 <= off -> off + n <= alen D < 2 ^ 63 ->
  here D i o s ->
  run_to (image_write_loop fuel off n scratch) s (fun ok s' => ok = (n <=? alen i) /\
    here (splice D off (take (Z.to_nat (arrived scratch n i)) i))
         (if n <=? alen i then drop (Z.to_nat n) i else []) o s').
Proof.
  intros Hs. revert off n D i s. induction fuel as [|fuel IH]; intros off n D i s Hn Hf Ho Hl Hh; [lia|].
  cbn [image_write_loop]. pose proof (alen_nonneg i). destruct (Z.eqb_spec n 0) as [->|Hn0].
  { apply run_ret. unfold arrived. destruct (Z.leb_spec 0 (alen i)); [|lia]. by rewrite splice_nil. }
  pose proof (arrived_step scratch n i Hs ltac:(lia)) as Hst. cbv zeta in Hst.
  set (chunk := if n <? scratch then n else scratch) in *.
  assert (Hc : 0 < chunk <= n) by (unfold chunk; destruct (Z.ltb_spec n scratch); lia).
  destruct (Z.eqb_spec chunk 0); [lia|].
  eapply run_bind; [apply (recv_all_up chunk D i o); [lia|done]|].
  intros r s1 H1'. destruct (Z.leb_spec chunk (alen i)) as [Hle|Hgt]; destruct H1' as [-> Hh1].
  2:{ apply run_ret. rewrite Hst, splice_nil. destruct (Z.leb_spec n (alen i)); [lia|done]. }
  set (b := take (Z.to_nat chunk) i) in *. assert (Hb : alen b = chunk) by (apply alen_take; lia).
  eapply run_bind; [apply (write_image_exact_up off b D); [done|lia|exact Hh1]|].
  intros ok s2 [-> Hh2]. rewrite u32_id, u64_id by (unfold inw; lia).
  eapply run_mono; [apply (IH _ _ (splice D off b)); try lia; [|exact Hh2]; rewrite splice_length; lia|].
  intros ok s3. rewrite alen_drop by lia. intros [-> Hh3].
  pose proof (arrived_range scratch (n - chunk) (drop (Z.to_nat chunk) i) Hs ltac:(lia)) as [? ?].
  rewrite alen_drop in * by lia.
  replace (off + chunk) with (off + alen b) in Hh3 by lia. rewrite splice_app in Hh3 by (rewrite ?alen_take by (rewrite alen_drop; lia); lia).
  rewrite Hst. destruct (Z.leb_spec (n - chunk) (alen i - chunk)), (Z.leb_spec n (alen i)); try lia;
    (split; [done|]); rewrite Z2Nat.inj_add by lia; rewrite <- take_take_drop; fold b;
    rewrite ?drop_drop in Hh3; [|exact Hh3].
  by replace (Z.to_nat n) with (Z.to_nat chunk + Z.to_nat (n - chunk))%nat by lia.
Qed.

Lemma discard_loop_up fuel scratch n D i o s :
  0 < scratch -> 0 <= n < 2 ^ 32 -> n < Z.of_nat fuel -> here D i o s ->
  run_to (discard_loop fuel scratch n) s (fun ok s' => ok = (n <=? alen i) /\
    here D (if n <=? alen i then drop (Z.to_nat n) i else []) o s').
Proof.
  intros Hs. revert n i s. induction fuel as [|fuel IH]; intros n i s Hn Hf Hh; [lia|].
  cbn [discard_loop]. pose proof (alen_nonneg i). destruct (Z.eqb_spec n 0) as [->|Hn0].
  { apply run_ret. by destruct (Z.leb_spec 0 (alen i)); [|lia]. }
  set (chunk := if n <? scratch then n else scratch) in *.
  assert (Hc : 0 < chunk <= n) by (unfold chunk; destruct (Z.ltb_spec n scratch); lia).
  destruct (Z.eqb_spec chunk 0); [lia|].
  eapply run_bind; [apply (recv_all_up chunk D i o); [lia|done]|].
  intros r s1 H1'. destruct (Z.leb_spec chunk (alen i)); destruct H1' as [-> Hh1].
  - rewrite u32_id by (unfold inw; lia).
    eapply run_mono; [apply IH; [lia|lia|exact Hh1]|]. intros ok s2. rewrite alen_drop by lia.
    intros [-> Hh2]. destruct (Z.leb_spec (n - chunk) (alen i - chunk)), (Z.leb_spec n (alen i)); try lia; [|done].
    split; [done|]. rewrite drop_drop in Hh2.
    by replace (Z.to_nat n) with (Z.to_nat chunk + Z.to_nat (n - chunk))%nat by lia.
  - apply run_ret. destruct (Z.leb_spec n (alen i)); [lia|done].
Qed.

Lemma flush_image_up D i o s : here D i o s -> run_to flush_image s (fun _ s' => here D i o s').
Proof.
  intros Hh. pose proof Hh as (Hup & Hso & Hdk & Hin & Hout). unfold disk in Hdk.
  unfold run_to, flush_image. destruct (image_view s) as [v|] eqn:Hv.
  - destruct (flush_view (image s) v) as [[|] im].
    + cbn [image set_field eta_record eta_Session]. destruct (flush_file_buffers im) as [ok im2].
      eexists _, _. split; [reflexivity|]. unfold here, disk. cbn. by rewrite Hv.
    + eexists _, _. split; [reflexivity|]. unfold here, disk. cbn. by rewrite Hv.
  - pose proof (flush_buffers_keeps (image s)) as Hk. pose proof (flush_buffers_sound (image s) (Hso eq_refl)) as Hs.
    destruct (flush_file_buffers (image s)) as [ok im]. cbn in Hk, Hs.
    eexists _, _. split; [reflexivity|]. unfold here, disk. cbn. rewrite Hv. repeat split; congruence.
Qed.

(** ** The specification of a session

    A request as a function of the disk [D] and of the bytes [i] the peer
    sends: the disk after it, the bytes not consumed, the bytes replied, and
    whether the session goes on.  [flushed] is the outcome of the operating
    system's flush, which only a strict FLUSH reports. *)

Section Spec.
Context (st : Export) (wall_time size : Z).

Definition reply (o l c b x f : Z) : list Z := header_bytes (init_header o l c b x f).

Definition valid_range (h : NetBlockHeader) (limit : Z) : bool :=
  (1 <=? count h) && (count h <=? limit) && (lba h + count h <=? sector_count st).
Definition valid_write (h : NetBlockHeader) : bool :=
  negb (read_only (cfg st)) && valid_range h NETBLK_PROTOCOL_MAX_SECTORS &&
  (hbytes h =? count h * SECTOR_SIZE).

Definition effect : Type := list Z * list Z * list Z * verdict.

(** A payload of [n] bytes is dropped, then [out] is sent. *)
Definition spec_payload (n limit : Z) (D i out : list Z) : effect :=
  if limit <? n then (D, i, [], Out (-1))
  else if n <=? alen i then (D, drop (Z.to_nat n) i, out, Continue) else (D, [], [], Out (-1)).

Definition spec_write (h : NetBlockHeader) (D i : list Z) : effect :=
  if valid_write h then
    let D' := splice D (lba h * SECTOR_SIZE)
                (take (Z.to_nat (arrived (max_bytes st) (hbytes h) i)) i) in
    if hbytes h <=? alen i
    then (D', drop (Z.to_nat (hbytes h)) i, reply NETBLK_OP_WRITE (lba h) (count h) 0 0 0, Continue)
    else (D', [], reply NETBLK_OP_WRITE 0 0 0 NETBLK_STATUS_WRITE 0, Out (-1))
  else spec_payload (hbytes h) NETBLK_PROTOCOL_MAX_PAYLOAD D i
         (reply NETBLK_OP_WRITE 0 0 0 NETBLK_STATUS_WRITE 0).

Definition spec_op (flushed : bool) (h : NetBlockHeader) (D i : list Z) : effect :=
  match op h with
  | 8 => if wall_time <? 0 then (D, i, reply NETBLK_OP_TIME 0 0 0 NETBLK_STATUS_BAD_OP 0, Continue)
         else (D, i, reply NETBLK_OP_TIME (u64 wall_time) 0 0 0 0, Out 0)
  | 1 => (D, i, reply NETBLK_OP_HELLO (sector_count st) SECTOR_SIZE (max_sectors (cfg st)) 0
                  (b2z (negb (read_only (cfg st)))), Continue)
  | 2 => (D, i, if valid_range h (max_sectors (cfg st))
                then reply NETBLK_OP_READ (lba h) (count h) (count h * SECTOR_SIZE) 0 0 ++
                     slice D (lba h * SECTOR_SIZE) (count h * SECTOR_SIZE)
                else reply NETBLK_OP_READ 0 0 0 NETBLK_STATUS_RANGE 0, Continue)
  | 3 => spec_write h D i
  | 4 => (D, i, reply NETBLK_OP_FLUSH 0 0 0
                  (if negb (read_only (cfg st)) && strict_flush (cfg st) && negb flushed
                   then NETBLK_STATUS_WRITE else NETBLK_STATUS_OK) 0, Continue)
  | 5 => spec_payload (hbytes h) (max_bytes st) D i (reply NETBLK_OP_PING 0 0 0 0 0)
  | o => spec_payload (hbytes h) (max_bytes st) D i (reply o 0 0 0 NETBLK_STATUS_BAD_OP 0)
  end.

Definition spec_request (flushed : bool) (D i : list Z) : effect :=
  if alen i <? 32 then (D, [], [], Out 0) else
  let h := header_of (take 32 i) in
  let i := drop 32 i in
  if negb (bool_decide (magic h = NETBLK_MAGIC)) then (D, i, [], Out (-1))
  else if negb (version h =? NETBLK_VERSION)
  then (D, i, reply (op h) 0 0 0 NETBLK_STATUS_BAD_VERSION 0, Continue)
  else spec_op flushed h D i.

(** *** The server meets it *)

Hypothesis Hcfg : cfg_wf (cfg st).
Hypothesis Hsize : 0 <= sector_count st /\ sector_count st * SECTOR_SIZE <= size < 2 ^ 63.

(** [m], from the state [(D, i)] with [o] sent, has the effect [e]. *)
Definition has_effect (m : ST (Session S F) verdict) (o : list Z) s (e : effect) : Prop :=
  run_to m s (fun v s' => v = e.2 /\ here e.1.1.1 e.1.1.2 (o ++ e.1.2) s').

(** A reply is sent, then [k] goes on with the session there. *)
Lemma send_then {B} (k : bool -> ST (Session S F) B) D i o s x l c b y f (Q : B -> Session S F -> Prop) :
  here D i o s ->
  (forall s', here D i (o ++ reply x l c b y f) s' -> run_to (k true) s' Q) ->
  run_to (send_header x l c b y f ≫= k) s Q.
Proof.
  intros Hh Hk. eapply run_bind; [by apply (send_all_up _ D i o)|]. intros ok s' [-> Hh']. by apply Hk.
Qed.

Lemma here_frame D i o s s' :
  here D i o s -> sock s' = sock s -> image s' = image s -> image_view s' = image_view s -> here D i o s'.
Proof. unfold here, disk. intros Hh -> -> ->. exact Hh. Qed.

(** Counters and throttling leave the session where it is. *)
Lemma count_then (f : Session S F -> Session S F) (g : Session S F -> Z) first D i o s :
  (forall s, sock (f s) = sock s /\ image (f s) = image s /\ image_view (f s) = image_view s) ->
  here D i o s ->
  run_to (_ ← modify f; n ← gets g; _ ← lift (throttle st n first); mret Continue) s
    (fun v s' => v = Continue /\ here D i o s').
Proof.
  intros Hf Hh. destruct (Hf s) as (? & ? & ?).
  apply run_modify_then, run_gets_then. apply (run_lift_then _ tt).
  { unfold throttle. destruct (_ <=? first); [done|]. destruct Hcfg as (_ & Hp & _).
    destruct (Z.eqb_spec (progress_every (cfg st)) 0); [lia|done]. }
  apply run_ret. split; [done|by eapply here_frame].
Qed.

Lemma handle_time_effect fl h D i o s :
  op h = 8 -> here D i o s -> has_effect (handle_time wall_time h) o s (spec_op fl h D i).
Proof.
  intros Ho Hh. unfold has_effect, handle_time, spec_op. rewrite Ho. destruct (wall_time <? 0).
  - eapply send_then; [done|]. intros s' Hs'. by apply run_ret.
  - eapply send_then; [done|]. intros s' Hs'. by apply run_ret.
Qed.

Lemma handle_hello_effect fl h D i o s :
  op h = 1 -> here D i o s -> has_effect (handle_hello st h) o s (spec_op fl h D i).
Proof.
  intros Ho Hh. unfold has_effect, handle_hello, spec_op. rewrite Ho.
  apply run_modify_then.
  eapply send_then; [by eapply here_frame|]. intros s' Hs'. apply run_ret. split; [done|].
  cbn [fst snd]. by destruct (read_only (cfg st)).
Qed.

Lemma valid_range_spec h limit :
  header_wf h -> 0 <= limit <= 1024 ->
  valid_range h limit = negb ((count h =? 0) || (limit <? count h) || out_of_range st h).
Proof.
  intros Hh Hl. unfold valid_range. pose proof (wf_count h Hh) as [? _]. pose proof (wf_lba h Hh) as [? ?].
  destruct (Z.leb_spec 1 (count h)), (Z.leb_spec (count h) limit), (Z.eqb_spec (count h) 0),
    (Z.ltb_spec limit (count h)); cbn; try lia; try done.
  destruct (out_of_range st h) eqn:E; cbn.
  - unfold out_of_range in E. apply orb_true_iff in E. rewrite !Z.ltb_lt in E. apply Z.leb_gt.
    unfold SECTOR_SIZE in *. unfold u64 in E. destruct E as [E|E].
    + destruct (Z.lt_ge_cases (lba h + count h) (2 ^ 64)); [rewrite Z.mod_small in E|]; lia.
    + pose proof (Z.mod_le (lba h + count h) (2 ^ 64)). lia.
  - apply Z.leb_le. destruct (in_range_bytes st size Hsize h Hh E) as (_ & _ & _ & _ & _ & _ & ?); [lia|done].
Qed.

Lemma handle_read_effect fl h D i o s :
  header_wf h -> op h = 2 -> alen D = size -> here D i o s ->
  has_effect (handle_read st h) o s (spec_op fl h D i).
Proof.
  intros Hwf Ho HD Hh. destruct Hcfg as ([Hm0 Hm1] & _). unfold has_effect, handle_read, spec_op. rewrite Ho.
  rewrite valid_range_spec by (done || lia).
  destruct ((count h =? 0) || (max_sectors (cfg st) <? count h) || out_of_range st h) eqn:E; cbn [negb].
  { eapply send_then; [done|]. intros s' Hs'. by apply run_ret. }
  apply orb_false_iff in E as [E Er]. apply orb_false_iff in E as [E0 E1]. apply Z.ltb_ge in E1.
  destruct (in_range_bytes st size Hsize h Hwf Er) as (_ & -> & -> & ? & ? & Hr & _); [lia|].
  unfold SECTOR_SIZE in *. eapply send_then; [done|]. intros s1 Hs1. cbn [negb].
  eapply run_bind; [apply (send_image_exact_up _ _ D i); [..|exact Hs1]; lia|].
  intros ok s2 [-> Hs2]. cbn [negb].
  apply run_modify_then.
  apply run_ret. split; [done|]. cbn [fst snd]. rewrite app_assoc. by eapply here_frame.
Qed.

Lemma handle_flush_effect h D i o s :
  op h = 4 -> here D i o s -> exists fl, has_effect (handle_flush st h) o s (spec_op fl h D i).
Proof.
  intros Ho Hh. unfold has_effect, handle_flush, spec_op. rewrite Ho.
  destruct (negb (read_only (cfg st)) && strict_flush (cfg st)); cbn [andb].
  - destruct (flush_image_up D i o s Hh) as (fl & s1 & E & Hs1). exists fl.
    eapply run_step; [by rewrite (st_bind_done _ _ _ _ _ E)|].
    eapply send_then; [exact Hs1|]. intros s3 Hs3. cbn [negb].
    eapply run_mono; [by apply count_then|]. intros v s4 [-> Hs4]. split; [done|].
    cbn [fst snd]. by destruct fl.
  - exists true. apply run_ret_then. eapply send_then; [exact Hh|]. intros s3 Hs3. cbn [negb].
    by apply count_then.
Qed.

Lemma take_payload_effect h D i o s {B} (k : bool -> ST (Session S F) B) (Q : B -> Session S F -> Prop) :
  header_wf h -> here D i o s ->
  (max_bytes st < hbytes h -> run_to (k false) s Q) ->
  (hbytes h <= max_bytes st -> alen i < hbytes h -> forall s', here D [] o s' -> run_to (k false) s' Q) ->
  (hbytes h <= max_bytes st -> hbytes h <= alen i ->
     forall s', here D (drop (Z.to_nat (hbytes h)) i) o s' -> run_to (k true) s' Q) ->
  run_to (take_payload st h ≫= k) s Q.
Proof.
  intros Hwf Hh K1 K2 K3. unfold take_payload. pose proof (wf_bytes h Hwf) as [? _]. pose proof (alen_nonneg i).
  destruct (Z.ltb_spec (max_bytes st) (hbytes h)).
  { apply run_ret_then. auto. }
  destruct (Z.eqb_spec (hbytes h) 0) as [E|E].
  { apply run_ret_then. apply K3; [done|lia|]. by rewrite E. }
  eapply (run_bind _ _ _ (fun ok s' => ok = (hbytes h <=? alen i) /\
    here D (if hbytes h <=? alen i then drop (Z.to_nat (hbytes h)) i else []) o s')).
  - eapply run_bind; [by apply (recv_all_up (hbytes h) D i o)|]. intros r s' Hr.
    destruct (hbytes h <=? alen i); destruct Hr as [-> Hs']; by apply run_ret.
  - intros ok s' [-> Hs']. destruct (Z.leb_spec (hbytes h) (alen i)); auto.
Qed.

Lemma handle_ping_effect fl h D i o s :
  header_wf h -> op h = 5 -> here D i o s -> has_effect (handle_ping st h) o s (spec_op fl h D i).
Proof.
  intros Hwf Ho Hh. unfold has_effect, handle_ping, spec_op, spec_payload. rewrite Ho.
  eapply take_payload_effect; [done|exact Hh|..].
  - intros Hb. apply run_ret. destruct (Z.ltb_spec (max_bytes st) (hbytes h)); [|lia].
    cbn [fst snd]. by rewrite app_nil_r.
  - intros Hb Hi s' Hs'. apply run_ret. destruct (Z.ltb_spec (max_bytes st) (hbytes h)); [lia|].
    destruct (Z.leb_spec (hbytes h) (alen i)); [lia|]. cbn [fst snd]. by rewrite app_nil_r.
  - intros Hb Hi s' Hs'. destruct (Z.ltb_spec (max_bytes st) (hbytes h)); [lia|].
    destruct (Z.leb_spec (hbytes h) (alen i)); [|lia]. cbn [negb].
    eapply send_then; [done|]. intros s2 Hs2. by apply count_then.
Qed.

Lemma handle_unknown_effect h D i o s :
  header_wf h -> here D i o s ->
  has_effect (handle_unknown st h) o s
    (spec_payload (hbytes h) (max_bytes st) D i (reply (op h) 0 0 0 NETBLK_STATUS_BAD_OP 0)).
Proof.
  intros Hwf Hh. unfold has_effect, handle_unknown, spec_payload.
  eapply take_payload_effect; [done|exact Hh|..].
  - intros Hb. apply run_ret. destruct (Z.ltb_spec (max_bytes st) (hbytes h)); [|lia].
    cbn [fst snd]. by rewrite app_nil_r.
  - intros Hb Hi s' Hs'. apply run_ret. destruct (Z.ltb_spec (max_bytes st) (hbytes h)); [lia|].
    destruct (Z.leb_spec (hbytes h) (alen i)); [lia|]. cbn [fst snd]. by rewrite app_nil_r.
  - intros Hb Hi s' Hs'. destruct (Z.ltb_spec (max_bytes st) (hbytes h)); [lia|].
    destruct (Z.leb_spec (hbytes h) (alen i)); [|lia]. cbn [negb].
    eapply send_then; [done|]. intros s2 Hs2. by apply run_ret.
Qed.

Lemma reject_write_effect h D i o s :
  header_wf h -> here D i o s ->
  has_effect (reject_write st h) o s
    (spec_payload (hbytes h) NETBLK_PROTOCOL_MAX_PAYLOAD D i
       (reply NETBLK_OP_WRITE 0 0 0 NETBLK_STATUS_WRITE 0)).
Proof.
  intros Hwf Hh. pose proof (wf_bytes h Hwf) as [? ?]. pose proof (alen_nonneg i).
  pose proof (max_bytes_range st Hcfg). unfold has_effect, reject_write, spec_payload, nz.
  destruct (Z.eqb_spec (hbytes h) 0) as [E|E]; cbn [negb andb].
  { apply run_ret_then. rewrite E. unfold NETBLK_PROTOCOL_MAX_PAYLOAD, NETBLK_PROTOCOL_MAX_SECTORS, SECTOR_SIZE.
    cbn [negb Z.ltb Z.compare Z.mul]. destruct (Z.leb_spec 0 (alen i)); [|lia].
    eapply send_then; [done|]. intros s' Hs'. by apply run_ret. }
  destruct (Z.leb_spec (hbytes h) NETBLK_PROTOCOL_MAX_PAYLOAD),
    (Z.ltb_spec NETBLK_PROTOCOL_MAX_PAYLOAD (hbytes h)); try lia.
  - eapply run_bind; [apply (discard_loop_up _ _ _ D i o); lia || done|].
    intros ok s1 [-> Hs1]. destruct (hbytes h <=? alen i); cbn [negb].
    + eapply send_then; [done|]. intros s' Hs'. by apply run_ret.
    + apply run_ret. cbn [fst snd]. by rewrite app_nil_r.
  - apply run_ret_then. cbn [negb]. apply run_ret. cbn [fst snd]. by rewrite app_nil_r.
Qed.

Lemma valid_write_spec h :
  header_wf h ->
  valid_write h = negb (read_only (cfg st) || (count h =? 0) ||
    (NETBLK_PROTOCOL_MAX_SECTORS <? count h) || negb (hbytes h =? u32 (count h * SECTOR_SIZE)) ||
    out_of_range st h).
Proof.
  intros Hwf. unfold valid_write. pose proof (wf_count h Hwf) as [? _].
  rewrite valid_range_spec by (done || unfold NETBLK_PROTOCOL_MAX_SECTORS; lia).
  destruct (read_only (cfg st)); [done|]. cbn [negb andb orb].
  destruct (Z.eqb_spec (count h) 0); [done|].
  destruct (Z.ltb_spec NETBLK_PROTOCOL_MAX_SECTORS (count h)) as [|Hc]; [done|]. cbn [orb].
  unfold NETBLK_PROTOCOL_MAX_SECTORS, SECTOR_SIZE in *. rewrite u32_id by (unfold inw; lia).
  destruct (out_of_range st h), (hbytes h =? count h * 512); done.
Qed.

Lemma handle_write_effect fl h D i o s :
  header_wf h -> op h = 3 -> alen D = size -> here D i o s ->
  has_effect (handle_write st h) o s (spec_op fl h D i).
Proof.
  intros Hwf Ho HD Hh. unfold spec_op, spec_write. rewrite Ho, valid_write_spec by done.
  unfold has_effect, handle_write.
  destruct (read_only _ || _ || _ || _ || _) eqn:E; cbn [negb]; [by apply reject_write_effect|].
  apply orb_false_iff in E as [E Er]. apply orb_false_iff in E as [E Eb].
  apply orb_false_iff in E as [E E1]. apply Z.ltb_ge in E1. unfold NETBLK_PROTOCOL_MAX_SECTORS in E1.
  apply negb_false_iff, Z.eqb_eq in Eb. rewrite Eb.
  destruct (in_range_bytes st size Hsize h Hwf Er) as (_ & -> & -> & ? & ? & Hr & _); [lia|].
  unfold SECTOR_SIZE in *. pose proof (max_bytes_range st Hcfg).
  eapply run_bind; [apply (image_write_loop_up _ _ _ _ D i o); lia || done|].
  intros ok s1 [-> Hs1]. destruct (count h * 512 <=? alen i); cbn [negb].
  - eapply send_then; [exact Hs1|]. intros s2 Hs2. cbn [negb]. by apply count_then.
  - eapply send_then; [exact Hs1|]. intros s2 Hs2. by apply run_ret.
Qed.

Lemma handle_op_effect h D i o s :
  header_wf h -> alen D = size -> here D i o s ->
  exists fl, has_effect (handle_op st wall_time h) o s (spec_op fl h D i).
Proof.
  intros Hwf HD Hh. destruct (decide (op h = 4)) as [E|E4].
  { destruct (handle_flush_effect h D i o s E Hh) as [fl Hf]. exists fl. unfold handle_op. by rewrite E. }
  exists true. unfold handle_op.
  destruct (decide (op h = 8)) as [E|E8]; [rewrite E; by apply handle_time_effect|].
  destruct (decide (op h = 1)) as [E|E1]; [rewrite E; by apply handle_hello_effect|].
  destruct (decide (op h = 2)) as [E|E2]; [rewrite E; by apply handle_read_effect|].
  destruct (decide (op h = 3)) as [E|E3]; [rewrite E; by apply handle_write_effect|].
  destruct (decide (op h = 5)) as [E|E5]; [rewrite E; by apply handle_ping_effect|].
  pose proof (handle_unknown_effect h D i o s Hwf Hh) as Hu. unfold spec_op.
  destruct (op h) as [|[[[[]|[]|]|[[]|[]|]|]|[[[]|[]|]|[[]|[]|]|]|]|]; try exact Hu; exfalso; lia.
Qed.

Lemma handle_request_effect D i o s :
  alen D = size -> bytes i -> here D i o s ->
  exists flushed, has_effect (handle_request st wall_time) o s (spec_request flushed D i).
Proof.
  intros HD Hb Hh. unfold handle_request, spec_request.
  destruct (recv_all_up 32 D i o s ltac:(lia) Hh) as (r & s1 & E & Hr).
  destruct (Z.leb_spec 32 (alen i)) as [Hl|Hl]; destruct Hr as [-> Hs1].
  2:{ exists true. destruct (Z.ltb_spec (alen i) 32); [|lia]. eapply run_step; [exact E|].
      apply run_ret. cbn [fst snd]. by rewrite app_nil_r. }
  destruct (Z.ltb_spec (alen i) 32); [lia|]. change (Z.to_nat 32) with 32%nat in *.
  set (h := header_of (take 32 i)) in *. set (rest := drop 32 i) in *.
  assert (Hwf : header_wf h).
  { apply header_of_wf. }
  destruct (handle_op_effect h D rest o s1 Hwf HD Hs1) as [fl Hf]. exists fl.
  eapply run_step; [exact E|]. cbv beta iota zeta. fold h.
  destruct (negb (bool_decide (magic h = NETBLK_MAGIC))).
  { apply run_ret. cbn [fst snd]. by rewrite app_nil_r. }
  destruct (negb (version h =? NETBLK_VERSION)); [|exact Hf].
  eapply send_then; [exact Hs1|]. intros s2 Hs2. by apply run_ret.
Qed.

(** C4. On a working connection every request does exactly what the
    specification says, for an image mapped in memory and for one read and
    written through the file alike: the reply, the bytes consumed, the disk
    after a whole or a truncated WRITE, and whether the session goes on. *)
Theorem handle_request_refines D i o s :
  alen D = size -> bytes i -> here D i o s ->
  exists flushed, has_effect (handle_request st wall_time) o s (spec_request flushed D i).
Proof. apply handle_request_effect. Qed.

(** *** Sessions *)

(** What a well-formed request leaves for the next. *)
Lemma spec_op_progress fl h D i D' i' out v :
  header_wf h -> alen D = size -> bytes i -> spec_op fl h D i = (D', i', out, v) ->
  alen D' = size /\ bytes i' /\ alen i' <= alen i.
Proof.
  intros Hwf HD Hb. pose proof (wf_bytes h Hwf) as [? _]. pose proof (alen_nonneg i).
  assert (Hdrop : forall n, bytes (drop n i) /\ alen (drop n i) <= alen i).
  { intros n. split; [by apply Forall_drop|]. unfold alen. rewrite length_drop. lia. }
  assert (Hnil : bytes [] /\ alen (@nil Z) <= alen i) by (split; [constructor|done]).
  assert (Hp : forall n lim o, spec_payload n lim D i o = (D', i', out, v) ->
    alen D' = size /\ bytes i' /\ alen i' <= alen i).
  { intros n lim o. unfold spec_payload. repeat case_match; intros [= <- <- <- <-];
      (split; [done|]); first [by split | apply Hdrop | apply Hnil]. }
  assert (Hself : forall o w, (D, i, o, w) = (D', i', out, v) ->
    alen D' = size /\ bytes i' /\ alen i' <= alen i) by (by intros o w [= <- <- <- <-]).
  unfold spec_op. repeat case_match; try (intros He; exact (Hp _ _ _ He)); try (intros He; exact (Hself _ _ He)).
  unfold spec_write. destruct (valid_write h) eqn:Hv; [|intros He; exact (Hp _ _ _ He)].
  assert (HD' : alen (splice D (lba h * SECTOR_SIZE)
    (take (Z.to_nat (arrived (max_bytes st) (hbytes h) i)) i)) = size).
  { rewrite splice_length; [done|pose proof (wf_lba h Hwf) as [? _]; unfold SECTOR_SIZE; lia|].
    pose proof (max_bytes_range st Hcfg).
    destruct (arrived_range (max_bytes st) (hbytes h) i) as [[? ?] ?]; [lia|lia|].
    rewrite alen_take by lia. unfold valid_write, valid_range in Hv.
    rewrite !andb_true_iff, !Z.leb_le, Z.eqb_eq in Hv. unfold SECTOR_SIZE in *. lia. }
  case_match; intros [= <- <- <- <-]; (split; [done|]); first [apply Hdrop | apply Hnil].
Qed.

Lemma spec_request_progress fl D i D' i' out v :
  alen D = size -> bytes i -> spec_request fl D i = (D', i', out, v) ->
  alen D' = size /\ bytes i' /\ (v = Continue -> alen i' + 32 <= alen i).
Proof.
  intros HD Hb. unfold spec_request. destruct (Z.ltb_spec (alen i) 32).
  { intros [= <- <- <- <-]. repeat split; [done|constructor|done]. }
  assert (Hl : alen (drop 32 i) + 32 = alen i) by (unfold alen in *; rewrite length_drop; lia).
  assert (Hd : bytes (drop 32 i)) by (by apply Forall_drop).
  case_match; [intros [= <- <- <- <-]; done|].
  case_match; [intros [= <- <- <- <-]; split; [done|split; [done|lia]]|].
  intros He. apply spec_op_progress in He; try done; [naive_solver lia|].
  apply header_of_wf.
Qed.

(** A session: requests until one ends it. *)
Inductive spec_session : list Z -> list Z -> list Z -> list Z -> Z -> Prop :=
| session_out fl D i D' i' out rc :
    spec_request fl D i = (D', i', out, Out rc) -> spec_session D i out D' rc
| session_more fl D i D1 i1 out D' out' rc :
    spec_request fl D i = (D1, i1, out, Continue) -> spec_session D1 i1 out' D' rc ->
    spec_session D i (out ++ out') D' rc.

Lemma client_loop_effect fuel D i o s :
  alen D = size -> bytes i -> (length i < 32 * fuel)%nat -> here D i o s ->
  run_to (client_loop st wall_time fuel) s (fun rc s' => exists out D',
    spec_session D i out D' rc /\ disk s' = D' /\ outbox (sock s') = o ++ out).
Proof.
  revert D i o s. induction fuel as [|fuel IH]; intros D i o s HD Hb Hf Hh; [lia|]. cbn [client_loop].
  destruct (handle_request_effect D i o s HD Hb Hh) as (fl & v & s1 & E & -> & Hs1).
  destruct (spec_request fl D i) as [[[D1 i1] out] v] eqn:Es. cbn [fst snd] in *.
  destruct (spec_request_progress fl D i D1 i1 out v HD Hb Es) as (HD1 & Hb1 & Hc).
  eapply run_step; [exact E|]. destruct v as [|rc].
  - specialize (Hc eq_refl). eapply run_mono; [apply (IH D1 i1 (o ++ out)); try done; unfold alen in *; lia|].
    intros rc s2 (out' & D' & Hsp & Hd & Ho). exists (out ++ out'), D'.
    split; [by eapply session_more|]. split; [done|]. by rewrite Ho, app_assoc.
  - apply run_gets_then. eapply (run_bind _ _ _ (fun _ s' => here D1 i1 (o ++ out) s')).
    + case_match; [by apply (flush_image_up D1 i1 (o ++ out))|by apply run_ret].
    + intros _ s2 (_ & _ & Hd & _ & Ho). apply run_ret. exists out, D1.
      split; [by eapply session_out|done].
Qed.

(** C18. A session with a peer that sends finitely many bytes comes to an end:
    one round per 32 bytes received is enough.  Its replies and the disk it
    leaves are those of the specification, request after request. *)
Theorem client_session_ends so im view D fuel :
  here D (inbox so) (outbox so) (mkSession so im view 0 0 0 0 0) ->
  alen D = size -> bytes (inbox so) -> alen (inbox so) / 32 < Z.of_nat fuel ->
  exists rc s' out, handle_client st wall_time fuel so im view = Done (rc, s') /\
    spec_session D (inbox so) out (disk s') rc /\ outbox (sock s') = outbox so ++ out.
Proof.
  intros Hh HD Hb Hf. destruct (client_loop_effect fuel D (inbox so) (outbox so)
    (mkSession so im view 0 0 0 0 0) HD Hb) as (rc & s' & E & out & D' & Hs & <- & Ho); [|done|].
  - unfold alen in *. pose proof (Z.mod_pos_bound (Z.of_nat (length (inbox so))) 32).
    pose proof (Z.div_mod (Z.of_nat (length (inbox so))) 32). lia.
  - by exists rc, s', out.
Qed.

(** *** Reading back what was written *)

Lemma spec_request_header fl D h i :
  header_wf h -> magic h = NETBLK_MAGIC -> version h = NETBLK_VERSION ->
  spec_request fl D (header_bytes h ++ i) = spec_op fl h D i.
Proof.
  intros Hwf Hm Hv. pose proof (header_bytes_length h (proj1 (wf_magic h Hwf))) as Hl.
  unfold spec_request. rewrite alen_app. pose proof (alen_nonneg i).
  destruct (Z.ltb_spec (alen (header_bytes h) + alen i) 32); [unfold alen in *; lia|].
  rewrite take_app_length', drop_app_length' by done. rewrite header_read_back by done.
  rewrite Hm, bool_decide_true, Hv by done. done.
Qed.

Lemma valid_range_pos h limit : valid_range h limit = true ->
  1 <= count h <= limit /\ lba h + count h <= sector_count st.
Proof. unfold valid_range. rewrite !andb_true_iff, !Z.leb_le. lia. Qed.

Lemma session_step D i D1 i1 out1 out D' rc :
  (forall fl, spec_request fl D i = (D1, i1, out1, Continue)) -> spec_session D i out D' rc ->
  exists out2, out = out1 ++ out2 /\ spec_session D1 i1 out2 D' rc.
Proof. intros Hf Hs. inversion Hs as [fl ? ? ? ? ? ? E|fl ? ? ? ? ? ? ? ? E]; subst; rewrite Hf in E; simplify_eq/=; eauto. Qed.

Lemma session_nil D out D' rc : spec_session D [] out D' rc -> rc = 0 /\ D' = D /\ out = [].
Proof.
  assert (Hn : forall fl, spec_request fl D [] = (D, [], [], Out 0)) by done.
  intros Hs. inversion Hs as [fl ? ? ? ? ? ? E|fl ? ? ? ? ? ? ? ? E]; subst; rewrite Hn in E; by simplify_eq.
Qed.

Lemma range_header o l n b :
  0 <= l -> 1 <= n <= 1024 -> l + n <= sector_count st -> 0 <= b <= 524288 ->
  let h := init_header o l n b 0 0 in lba h = l /\ count h = n /\ hbytes h = b.
Proof.
  intros Hl Hn Hs Hb. unfold SECTOR_SIZE in *. cbn.
  rewrite u64_id, !u32_id by (unfold inw; lia). done.
Qed.

Lemma spec_write_request fl D l n p i :
  0 <= l -> 1 <= n <= 1024 -> l + n <= sector_count st -> alen p = n * SECTOR_SIZE ->
  read_only (cfg st) = false ->
  spec_request fl D (header_bytes (init_header NETBLK_OP_WRITE l n (n * SECTOR_SIZE) 0 0) ++ p ++ i) =
    (splice D (l * SECTOR_SIZE) p, i, reply NETBLK_OP_WRITE l n 0 0 0, Continue).
Proof.
  intros Hl Hn Hs Hp Hro. unfold SECTOR_SIZE in *.
  set (h := init_header NETBLK_OP_WRITE l n (n * 512) 0 0).
  destruct (range_header NETBLK_OP_WRITE l n (n * 512) Hl Hn Hs ltac:(lia)) as (E1 & E2 & E3). fold h in E1, E2, E3.
  rewrite spec_request_header by (done || apply init_header_wf). change (spec_op fl h D (p ++ i)) with (spec_write h D (p ++ i)).
  unfold spec_write, valid_write, valid_range, arrived. rewrite E1, E2, E3, Hro, alen_app, Hp.
  pose proof (alen_nonneg i). unfold NETBLK_PROTOCOL_MAX_SECTORS, SECTOR_SIZE.
  destruct (Z.leb_spec 1 n), (Z.leb_spec n 1024), (Z.leb_spec (l + n) (sector_count st)); try lia.
  rewrite Z.eqb_refl. cbn [negb andb].
  destruct (Z.leb_spec (n * 512) (n * 512 + alen i)); [|lia].
  rewrite take_app_length', drop_app_length' by (unfold alen in *; lia). done.
Qed.

Lemma spec_read_request fl D l n :
  0 <= l -> 1 <= n <= max_sectors (cfg st) -> l + n <= sector_count st ->
  spec_request fl D (header_bytes (init_header NETBLK_OP_READ l n 0 0 0)) =
    (D, [], reply NETBLK_OP_READ l n (n * SECTOR_SIZE) 0 0 ++ slice D (l * SECTOR_SIZE) (n * SECTOR_SIZE), Continue).
Proof.
  intros Hl Hn Hs. destruct Hcfg as ([_ Hm] & _). unfold SECTOR_SIZE in *.
  set (h := init_header NETBLK_OP_READ l n 0 0 0).
  destruct (range_header NETBLK_OP_READ l n 0 Hl ltac:(lia) Hs ltac:(lia)) as (E1 & E2 & E3). fold h in E1, E2, E3.
  rewrite <- (app_nil_r (header_bytes h)), spec_request_header by (done || apply init_header_wf).
  unfold spec_op. change (op h) with 2. cbv iota. unfold valid_range, SECTOR_SIZE. rewrite E1, E2.
  destruct (Z.leb_spec 1 n), (Z.leb_spec n (max_sectors (cfg st))), (Z.leb_spec (l + n) (sector_count st)); try lia.
  done.
Qed.

(** C26. A client that writes sectors and then reads them gets back exactly
    what it wrote, whatever chunks the transfers come in: the session replies
    the WRITE acknowledgement, the READ header and the written bytes, and the
    disk has the payload at the written range and nothing else changed. *)
Theorem write_then_read so im view D l n p :
  let wr := init_header NETBLK_OP_WRITE l n (n * SECTOR_SIZE) 0 0 in
  let rd := init_header NETBLK_OP_READ l n 0 0 0 in
  here D (inbox so) (outbox so) (mkSession so im view 0 0 0 0 0) -> alen D = size ->
  bytes p -> inbox so = header_bytes wr ++ p ++ header_bytes rd ->
  0 <= l -> 1 <= n <= max_sectors (cfg st) -> l + n <= sector_count st ->
  alen p = n * SECTOR_SIZE -> read_only (cfg st) = false ->
  exists fuel s', handle_client st wall_time fuel so im view = Done (0, s') /\
    outbox (sock s') = outbox so ++ reply NETBLK_OP_WRITE l n 0 0 0 ++
      reply NETBLK_OP_READ l n (n * SECTOR_SIZE) 0 0 ++ p /\
    disk s' = splice D (l * SECTOR_SIZE) p.
Proof.
  intros wr rd Hh HD Hb Hi Hl Hn Hln Hp Hro. destruct Hcfg as ([_ Hm] & _). unfold SECTOR_SIZE in *.
  assert (Hi' : bytes (inbox so)).
  { rewrite Hi. unfold bytes. rewrite !Forall_app. split; [apply header_bytes_bytes, init_header_wf|].
    split; [done|apply header_bytes_bytes, init_header_wf]. }
  destruct (client_loop_effect (Datatypes.S (length (inbox so))) D (inbox so) (outbox so)
    (mkSession so im view 0 0 0 0 0) HD Hi' ltac:(lia) Hh) as (rc & s' & E & out & D' & Hs & Hd & Ho).
  exists (Datatypes.S (length (inbox so))), s'.
  assert (Hspec : rc = 0 /\ D' = splice D (l * 512) p /\ out = reply NETBLK_OP_WRITE l n 0 0 0 ++
      reply NETBLK_OP_READ l n (n * 512) 0 0 ++ p).
  { rewrite Hi in Hs. assert (Hp' : alen p = n * 512) by done.
    apply (session_step D _ (splice D (l * 512) p) (header_bytes rd) (reply NETBLK_OP_WRITE l n 0 0 0))
      in Hs as (out1 & -> & Hs); [|intros fl; apply spec_write_request; unfold SECTOR_SIZE; auto; lia].
    apply (session_step _ _ (splice D (l * 512) p) []
      (reply NETBLK_OP_READ l n (n * 512) 0 0 ++ p)) in Hs as (out2 & -> & Hs).
    2:{ intros fl. unfold rd. rewrite spec_read_request by (unfold SECTOR_SIZE; lia). unfold SECTOR_SIZE. do 3 f_equal. f_equal.
        rewrite <- Hp'. apply slice_splice; lia. }
    apply session_nil in Hs as (-> & -> & ->). by rewrite app_nil_r. }
  by destruct Hspec as (-> & -> & ->).
Qed.

End Spec.

End Laws.

(** ** The command line *)

Record args_wf (c : ServerConfig) : Prop := {
  awf_server : cfg_wf c;
  awf_buffer : 16 <= socket_buffer_kb c <= 8192;
  awf_recv : 0 <= recv_timeout_ms c <= 3600000;
  awf_send : 0 <= send_timeout_ms c <= 3600000;
  awf_time : 1000 <= keepalive_time_ms c <= 3600000;
  awf_interval : 500 <= keepalive_interval_ms c <= 3600000;
}.

Lemma parse_u32_range s lo hi v : parse_u32 s lo hi = Some v -> lo <= v <= hi.
Proof.
  unfold parse_u32. destruct (strtoul s) as [[n err] rest]. case_match eqn:E; [done|]. intros [= <-].
  rewrite !orb_false_iff, !Z.ltb_ge in E. lia.
Qed.

Ltac args_wf_tac :=
  match goal with Hw : args_wf _ |- args_wf _ => destruct Hw as [(? & ? & ?) ? ? ? ? ?] end;
  constructor; unfold cfg_wf; cbn; try done; try lia.

Lemma value_option_wf a lo hi set c v :
  value_option_of a = Some (OptNum lo hi set) -> args_wf c -> lo <= v <= hi -> args_wf (set c v).
Proof.
  unfold value_option_of. intros Ho Hc Hv. repeat case_match; simplify_eq; args_wf_tac.
  rewrite u16_id by (unfold inw; lia). lia.
Qed.

Lemma flag_option_wf a c c' : flag_option a c = ArgsOk c' -> args_wf c -> args_wf c'.
Proof. unfold flag_option. intros Ho Hc. repeat case_match; simplify_eq; args_wf_tac. Qed.

Lemma args_loop_wf n argv c c' :
  (length argv <= n)%nat -> args_wf c -> args_loop argv c = ArgsOk c' -> args_wf c'.
Proof.
  revert argv c. induction n as [|n IH]; intros argv c Hn Hc Ha.
  { destruct argv; [|cbn in Hn; lia]. cbn in Ha. by simplify_eq. }
  destruct argv as [|a rest]; cbn in Ha, Hn; [by simplify_eq|].
  assert (Hflag : match flag_option a c with ArgsOk c => args_loop rest c | r => r end = ArgsOk c' ->
    args_wf c').
  { destruct (flag_option a c) eqn:E; try done. apply IH; [lia|by eapply flag_option_wf]. }
  destruct (value_option_of a) as [o|] eqn:Eo; [|auto]. destruct rest as [|v rest]; [auto|].
  cbn in Hn. destruct o as [| |lo hi set].
  - eapply IH; [|..|exact Ha]; [lia|args_wf_tac].
  - eapply IH; [|..|exact Ha]; [lia|args_wf_tac].
  - destruct (parse_u32 v lo hi) as [k|] eqn:Ek; [|done]. apply parse_u32_range in Ek.
    eapply IH; [|..|exact Ha]; [lia|by eapply value_option_wf].
Qed.

(** C30. A command line the server accepts names an image and leaves every
    number in the range its option allows, whatever the order and repetition of
    the options; with it the server's progress messages never divide by zero and
    its transfer buffer holds 1 to 1024 sectors. *)
Theorem parse_args_ranges argv c :
  parse_args argv = ArgsOk c ->
  args_wf c /\ (exists p, image_path c = Some p /\ p <> EmptyString) /\
  512 <= max_bytes (mkExport c 0) <= 524288 /\
  forall n first, throttle (mkExport c 0) n first = Done tt.
Proof.
  unfold parse_args. destruct (args_loop argv config0) as [c1| |] eqn:E; try done.
  assert (Hw : args_wf c1).
  { eapply args_loop_wf; [reflexivity| |exact E]. constructor; unfold cfg_wf; cbn; lia. }
  destruct (image_path c1) as [p|] eqn:Ep; [|done]. case_bool_decide; [done|]. intros [= <-].
  pose proof (awf_server c1 Hw) as Hc. split; [done|]. split; [by exists p|].
  split; [by apply (max_bytes_range (mkExport c1 0))|]. intros n first. unfold throttle. cbn.
  destruct (n <=? first); [done|]. destruct Hc as (_ & ? & _).
  destruct (Z.eqb_spec (progress_every c1) 0); [lia|done].
Qed.

Lemma parse_args_ranges_witness :
  exists c, parse_args ["--max-sectors"; "64"; "--readonly"; "disk.img"; "--port"; "4000"] = ArgsOk c /\
    args_wf c /\ read_only c = true /\ max_sectors c = 64 /\ port c = 4000.
Proof.
  eexists. split; [vm_compute; reflexivity|].
  split; [|done]. eapply (parse_args_ranges ["--max-sectors"; "64"; "--readonly"; "disk.img"; "--port"; "4000"]).
  vm_compute. reflexivity.
Defined.

(** ** A concrete machine

    A connection that moves at most 100 bytes a call, and a file in memory. *)

Definition pipe : Type := list Z * list Z.
#[local] Instance pipe_ops : SocketOps pipe := {
  recv so len := let b := map u8 (take (Z.to_nat (Z.min len 100)) so.1) in
                 (alen b, b, (drop (Z.to_nat (Z.min len 100)) so.1, so.2));
  send so p := let k := Z.min (alen p) 100 in (k, (so.1, so.2 ++ take (Z.to_nat k) p));
}.

Lemma alen_map (f : Z -> Z) l : alen (map f l) = alen l.
Proof. unfold alen. by rewrite length_map. Qed.

#[local] Instance pipe_laws : SocketLaws pipe.
Proof.
  refine {| inbox so := map u8 so.1; outbox so := so.2; up _ := True |}.
  - intros [rx tx] len Hl. cbn. rewrite alen_map. unfold alen. rewrite length_take.
    split; [lia|]. split; [done|]. unfold bytes. rewrite Forall_map. apply Forall_true.
    intros z. apply inw_u8.
  - intros [rx tx] p. cbn. lia.
  - intros [rx tx] len _ Hl Hne. cbn in *.
    assert (rx <> []) by (by intros ->). assert (0 < alen rx) by (destruct rx; [done|unfold alen; cbn; lia]).
    do 3 eexists. split; [reflexivity|]. rewrite alen_map. unfold alen in *. rewrite length_take. cbn.
    split; [lia|]. split; [done|]. split; [by rewrite <- map_app, take_drop|done].
  - intros [rx tx] len _ Hl He. cbn in *. destruct rx; [|done]. rewrite take_nil, drop_nil.
    do 3 eexists. split; [reflexivity|]. done.
  - intros [rx tx] p _ Hp. assert (0 < alen p) by (destruct p; [done|unfold alen; cbn; lia]).
    cbn. do 2 eexists. split; [reflexivity|]. split; [lia|done].
Defined.

Definition mem_file : Type := list Z * Z.
#[local] Instance mem_ops : FileOps mem_file := {
  set_file_pointer f off := (true, (f.1, off));
  read_file f n := let b := slice f.1 f.2 n in (true, b, (f.1, f.2 + alen b));
  write_file f p := (true, alen p, (splice f.1 f.2 p, f.2 + alen p));
  flush_view f v := (true, f);
  flush_file_buffers f := (true, f);
}.
#[local] Instance mem_laws : FileLaws mem_file.
Proof.
  refine {| contents f := f.1; position f := f.2; sound _ := True |}; try done.
  - intros [l pos] n Hn. cbn. split; [done|]. unfold slice, alen. rewrite length_take, length_drop. lia.
  - intros [l pos] p. cbn. pose proof (alen_nonneg p). lia.
  - intros [l pos] off _ Hoff. by eexists.
  - intros [l pos] n _ Hn Hp. cbn in *.
    assert (Hal : alen (slice l pos n) = Z.min n (alen l - pos))
      by (unfold slice, alen in *; rewrite length_take, length_drop; lia).
    do 2 eexists. split; [reflexivity|]. rewrite Hal. split; [lia|]. split; [|done].
    unfold slice, alen in *. destruct (Z.le_gt_cases n (Z.of_nat (length l) - pos)).
    + do 2 f_equal. lia.
    + rewrite !take_ge by (rewrite length_drop; lia). done.
  - intros [l pos] p _ Hp H0 Hl. cbn in *. assert (0 < alen p) by (destruct p; [done|unfold alen; cbn; lia]).
    do 2 eexists. split; [reflexivity|]. split; [lia|].
    rewrite firstn_all2 by (unfold alen; lia). done.
Defined.

Definition demo : Export := mkExport (config0 <| image_path := Some "disk.img" |>) 2.
Definition demo_cfg : cfg_wf (cfg demo).
Proof. unfold cfg_wf. cbn. lia. Defined.
Definition demo_disk : list Z := replicate 1024 0.
Definition demo_session (i : list Z) : Session pipe mem_file :=
  mkSession (i, []) (demo_disk, 0) None 0 0 0 0 0.

Lemma header_roundtrip_sample :
  header_of (header_bytes (init_header NETBLK_OP_READ 0x1122334455 8 4096 0 7)) =
    init_header NETBLK_OP_READ 0x1122334455 8 4096 0 7.
Proof. reflexivity. Qed.

Lemma handle_request_safe_witness :
  run_to (handle_request demo 0) (demo_session (replicate 40 255)) (fun _ s' =>
    view_fits 1024 s' /\ (read_only (cfg demo) = true -> disk s' = disk (demo_session (replicate 40 255)))).
Proof.
  apply (handle_request_safe demo 0 1024 demo_cfg); [unfold SECTOR_SIZE; cbn; lia|exact I].
Defined.

(** A READ that is out of range. *)
Definition bad_read : list Z := header_bytes (init_header NETBLK_OP_READ 1 2 0 0 0).

Lemma handle_request_refines_witness :
  exists fl, has_effect (handle_request demo 0) [] (demo_session bad_read) (spec_request demo 0 fl demo_disk bad_read).
Proof.
  apply (handle_request_refines demo 0 1024 demo_cfg); [unfold SECTOR_SIZE; cbn; lia|reflexivity| |].
  - apply header_bytes_bytes, init_header_wf.
  - repeat split.
Defined.

Lemma client_session_ends_witness :
  exists rc s' out, handle_client demo 0 3 (bad_read, []) (demo_disk, 0) None = Done (rc, s') /\
    spec_session demo 0 demo_disk (inbox (bad_read, [])) out (disk s') rc /\
    outbox (sock s') = outbox ((bad_read, []) : pipe) ++ out.
Proof.
  apply (client_session_ends demo 0 1024 demo_cfg); [unfold SECTOR_SIZE; cbn; lia| |reflexivity| |].
  - repeat split.
  - unfold bytes. apply Forall_map, Forall_true. intros z. apply inw_u8.
  - vm_compute. reflexivity.
Defined.

Definition payload : list Z := replicate 512 7.
Definition write_read : list Z :=
  header_bytes (init_header NETBLK_OP_WRITE 1 1 (1 * SECTOR_SIZE) 0 0) ++ payload ++
  header_bytes (init_header NETBLK_OP_READ 1 1 0 0 0).

Lemma write_then_read_witness :
  exists fuel s', handle_client demo 0 fuel (write_read, []) (demo_disk, 0) None = Done (0, s') /\
    outbox (sock s') = outbox ((write_read, []) : pipe) ++ reply NETBLK_OP_WRITE 1 1 0 0 0 ++
      reply NETBLK_OP_READ 1 1 (1 * SECTOR_SIZE) 0 0 ++ payload /\
    disk s' = splice demo_disk (1 * SECTOR_SIZE) payload.
Proof.
  apply (write_then_read demo 0 1024 demo_cfg); [unfold SECTOR_SIZE; cbn; lia| |reflexivity| |vm_compute; reflexivity|..];
    [repeat split| |lia|cbn; lia|cbn; lia|reflexivity|reflexivity].
  unfold bytes, payload. apply Forall_replicate. split; vm_compute; congruence.
Defined.

End Server.
