(* ===== verification/NetblockClient.v ===== *)
(** The network block device of the IDE model (the [netblk_] functions of
    src/source/winspire/ide.c): requests to the disk server, the read cache with
    its prefetch windows, the write buffer and the writeback table.

    The C buffers are modelled by the bytes written to them so far, so that a
    read of memory never written is stuck like one outside the buffer.  The
    socket, the clock behind [net_wait_us] and whether [pcmalloc] succeeds are
    parameters. *)

From Stdlib Require Import Ascii.
From stdpp Require Import strings.
From S2P Require Import Prelude Wire NetblockServer.
Local Open Scope Z_scope.
Set Warnings "-clear-no-such-hyp".

Module Client.

Import Server(slice, splice).

(** ** Data *)

Definition NETBLK_MAX_SECTORS : Z := 1024.
Definition NETBLK_READ_CACHE_SECTORS : Z := 512.
Definition NETBLK_READ_CACHE_WINDOWS : Z := 8.
Definition NETBLK_WRITE_BUFFER_SECTORS : Z := 1024.
Definition NETBLK_WRITEBACK_SECTORS : Z := 2048.
Definition NETBLK_IO_CHUNK_BYTES : Z := 64 * 1024.
Definition NETBLK_DEFAULT_PORT : Z := 3860.
Definition UINT64_MAX : Z := 2 ^ 64 - 1.

(** A read window: [read_cache], [read_cache_sector] and [read_cache_sectors]
    at one index; [None] is a null buffer. *)
Record Window := mkWindow { w_data : option (list Z); w_sector : Z; w_sectors : Z }.
#[export] Instance eta_Window : Eta Window := fun w => mkWindow (w_data w) (w_sector w) (w_sectors w).
#[export] Instance window_inhabited : Inhabited Window := populate (mkWindow None 0 0).

(** A slot of the writeback table: [writeback_sector], [writeback_dirty] and
    [writeback_data] at one index. *)
Record Entry := mkEntry { e_sector : Z; e_dirty : bool; e_data : list Z }.
#[export] Instance entry_inhabited : Inhabited Entry := populate (mkEntry 0 false []).

(** [writeback] is [None] while the three arrays are null, and otherwise the
    slots below [writeback_count]. *)
Record NetClient (S : Type) := mkNet {
  fd : S; read_only : bool; writable : bool; max_sectors : Z; prefetch_sectors : Z; nb_sectors : Z;
  windows : list Window; read_cache_next : Z;
  write_buffer : option (list Z); write_sector : Z; write_sectors : Z;
  writeback : option (list Entry); writeback_enabled : bool;
  net_wait_us : Z; cache_hits : Z; cache_misses : Z; stored_sectors : Z; writeback_flushes : Z;
}.
Arguments mkNet {S} _ _ _ _ _ _ _ _ _ _ _ _ _ _ _ _ _ _.
Arguments fd {S} _.
Arguments read_only {S} _.
Arguments writable {S} _.
Arguments max_sectors {S} _.
Arguments prefetch_sectors {S} _.
Arguments nb_sectors {S} _.
Arguments windows {S} _.
Arguments read_cache_next {S} _.
Arguments write_buffer {S} _.
Arguments write_sector {S} _.
Arguments write_sectors {S} _.
Arguments writeback {S} _.
Arguments writeback_enabled {S} _.
Arguments net_wait_us {S} _.
Arguments cache_hits {S} _.
Arguments cache_misses {S} _.
Arguments stored_sectors {S} _.
Arguments writeback_flushes {S} _.
#[export] Instance eta_NetClient S : Eta (NetClient S) := fun c =>
  mkNet (fd c) (read_only c) (writable c) (max_sectors c) (prefetch_sectors c) (nb_sectors c)
    (windows c) (read_cache_next c) (write_buffer c) (write_sector c) (write_sectors c)
    (writeback c) (writeback_enabled c) (net_wait_us c) (cache_hits c) (cache_misses c)
    (stored_sectors c) (writeback_flushes c).

(** The monotonic clock, in microseconds. *)
Class WallClock (S : Type) := wall_us : S -> Z * S.

(** [memcpy] of [b] to offset [off] of a buffer of [cap] bytes. *)
Definition buf_write (cap : Z) (l : list Z) (off : Z) (b : list Z) : outcome (list Z) :=
  if (off <? 0) || (alen l <? off) || (cap <? off + alen b) then Stuck OutOfBounds
  else Done (splice l off b).
(** [n] bytes at offset [off]. *)
Definition buf_read (l : list Z) (off n : Z) : outcome (list Z) :=
  if (off <? 0) || (alen l <? off + n) then Stuck OutOfBounds else Done (slice l off n).

(** The index of the first element that satisfies [p], or -1. *)
Fixpoint find_index {A} (p : A -> bool) (l : list A) (i : Z) : Z :=
  match l with [] => -1 | a :: l => if p a then i else find_index p l (i + 1) end.

Definition SUCCESS : Z := 0.
Definition FAILURE : Z := -1.

Section Operations.
Context {S : Type} `{Server.SocketOps S} `{WallClock S}.
Implicit Types c : NetClient S.

(** ** Transfers *)

Fixpoint send_loop (fuel : nat) (p : list Z) : ST S Z :=
  match fuel with
  | O => stuck Diverges
  | Datatypes.S fuel => fun so =>
      match p with
      | [] => Done (SUCCESS, so)
      | _ =>
          let todo := if NETBLK_IO_CHUNK_BYTES <? alen p then NETBLK_IO_CHUNK_BYTES else alen p in
          let '(n, so) := Server.send so (take (Z.to_nat todo) p) in
          if n <=? 0 then Done (FAILURE, so) else send_loop fuel (drop (Z.to_nat n) p) so
      end
  end.
Definition netblk_send_all (p : list Z) : ST S Z := send_loop (Datatypes.S (length p)) p.

(** The return code and the bytes stored, on failure too. *)
Fixpoint recv_loop (fuel : nat) (len : Z) (got : list Z) : ST S (Z * list Z) :=
  match fuel with
  | O => stuck Diverges
  | Datatypes.S fuel => fun so =>
      if len <=? 0 then Done ((SUCCESS, got), so) else
      let todo := if NETBLK_IO_CHUNK_BYTES <? len then NETBLK_IO_CHUNK_BYTES else len in
      let '(n, b, so) := Server.recv so todo in
      if n <=? 0 then Done ((FAILURE, got), so) else recv_loop fuel (len - n) (got ++ b) so
  end.
Definition netblk_recv_all (len : Z) : ST S (Z * list Z) :=
  recv_loop (Datatypes.S (Z.to_nat len)) len [].

(** An operation on the socket. *)
Definition on_fd {A} (m : ST S A) : ST (NetClient S) A := fun c =>
  match m (fd c) with Done r => Done (r.1, c <| fd := r.2 |>) | Stuck f => Stuck f end.

(** [netblk_profile ()] reads WINSPIRE_PROFILE. *)
Variable profile : Z.

(** ** Requests *)

Definition netblk_header_init (o l n b f : Z) : NetBlockHeader := init_header o l n b 0 f.
Definition netblk_header_ok (h : NetBlockHeader) (o : Z) : bool :=
  bool_decide (magic h = NETBLK_MAGIC) && (version h =? NETBLK_VERSION) && (op h =? o) && (hstatus h =? 0).

(** The response header when the request succeeded, and the bytes stored in
    [in]. *)
Definition netblk_exchange (o l n : Z) (out : list Z) (in_len : Z) :
    ST (NetClient S) (option NetBlockHeader * list Z) :=
  let req := netblk_header_init o l n (alen out) (if o =? NETBLK_OP_HELLO then profile else 0) in
  rc ← on_fd (netblk_send_all (header_bytes req));
  if rc <? 0 then mret (None, []) else
  rc ← (if nz (alen out) then on_fd (netblk_send_all out) else mret SUCCESS);
  if rc <? 0 then mret (None, []) else
  r ← on_fd (netblk_recv_all 32);
  if r.1 <? 0 then mret (None, []) else
  let resp := header_of r.2 in
  if negb (netblk_header_ok resp o) then mret (None, []) else
  if nz in_len && negb (hbytes resp =? in_len) then mret (None, []) else
  if nz in_len then
    d ← on_fd (netblk_recv_all in_len);
    mret (if d.1 <? 0 then None else Some resp, d.2)
  else mret (Some resp, []).

Definition netblk_request (o l n : Z) (out : list Z) (in_len : Z) :
    ST (NetClient S) (option NetBlockHeader * list Z) :=
  t0 ← on_fd (fun so => Done (wall_us so));
  r ← netblk_exchange o l n out in_len;
  t1 ← on_fd (fun so => Done (wall_us so));
  _ ← modify (fun c => c <| net_wait_us := u64 (net_wait_us c + (t1 - t0)) |>);
  mret r.

(** The return code alone. *)
Definition request_rc (o l n : Z) (out : list Z) : ST (NetClient S) Z :=
  r ← netblk_request o l n out 0;
  mret (match r.1 with Some _ => SUCCESS | None => FAILURE end).

Definition PING_MAGIC : Z := 0x50494e47.
Definition code_word (code : option (list Z)) (i : Z) : Z :=
  match code with
  | None => 0
  | Some b => Z.lor (Z.lor (Z.lor (Z.shiftl (arr b i) 24) (Z.shiftl (arr b (i + 1)) 16))
                (Z.shiftl (arr b (i + 2)) 8)) (arr b (i + 3))
  end.

(** The telemetry of a PING: eighteen words, of which six stay zero. *)
Definition telemetry c (phys flags_ state : Z) (code : option (list Z)) : list Z :=
  concat (le_bytes 4 <$>
    [PING_MAGIC; phys; flags_; state; code_word code 0; code_word code 4; 0; 0; 0; 0; 0; 0;
     u32 (net_wait_us c); u32 (Z.shiftr (net_wait_us c) 32); u32 (cache_hits c);
     u32 (cache_misses c); u32 (stored_sectors c); writeback_flushes c]).

Definition netblk_ping (loop cycles cs ip phys flags_ state : Z) (code : option (list Z)) :
    ST (NetClient S) Z :=
  tel ← gets (fun c => telemetry c phys flags_ state code);
  let h := netblk_header_init NETBLK_OP_PING loop cycles (alen tel) phys in
  let h := mkHeader (magic h) (version h) (op h) (lba h) (count h) (hbytes h) (Z.shiftr ip 16)
             (u32 (Z.lor (Z.shiftl (Z.land cs 0xffff) 16) (Z.land ip 0xffff))) in
  rc ← on_fd (netblk_send_all (header_bytes h));
  if rc <? 0 then mret FAILURE else
  rc ← on_fd (netblk_send_all tel);
  if rc <? 0 then mret FAILURE else
  r ← on_fd (netblk_recv_all 32);
  mret (if r.1 <? 0 then FAILURE else
        if netblk_header_ok (header_of r.2) NETBLK_OP_PING then SUCCESS else FAILURE).

(** ** The read cache *)

Definition w_end (w : Window) : Z := u64 (w_sector w + w_sectors w).

Definition invalidate_window (sector_num write_end : Z) (w : Window) : Window :=
  if nz (w_sectors w) && (sector_num <? w_end w) && (w_sector w <? write_end)
  then w <| w_sectors := 0 |> else w.
Definition netblk_invalidate c (sector_num n : Z) : NetClient S :=
  if n <=? 0 then c else
  c <| windows := invalidate_window sector_num (u64 (sector_num + n)) <$> windows c |>.

Definition in_use (w : Window) : bool := bool_decide (is_Some (w_data w)) && nz (w_sectors w).
Definition holds (sector_num : Z) (w : Window) : bool :=
  in_use w && (w_sector w <=? sector_num) && (sector_num <? w_end w).

Definition netblk_find_cache c (sector_num : Z) : Z := find_index (holds sector_num) (windows c) 0.

Definition netblk_next_cached c (sector_num request_end : Z) : Z :=
  fold_left (fun next w =>
    if in_use w && (sector_num <? w_sector w) && (w_sector w <? next) then w_sector w else next)
    (windows c) request_end.

(** ** The writeback table *)

Definition is_dirty (sector_num : Z) (e : Entry) : bool := e_dirty e && (e_sector e =? sector_num).
Definition table c : list Entry := default [] (writeback c).
Definition netblk_writeback_find c (sector_num : Z) : Z := find_index (is_dirty sector_num) (table c) 0.

Definition netblk_flush_writes : ST (NetClient S) Z := fun c =>
  if write_sectors c =? 0 then Done (SUCCESS, c) else
  (b ← lift (match write_buffer c with
             | None => Stuck OutOfBounds
             | Some b => buf_read b 0 (write_sectors c * SECTOR_SIZE)
             end);
   rc ← request_rc NETBLK_OP_WRITE (write_sector c) (write_sectors c) b;
   _ ← (if rc =? 0 then modify (fun c => c <| write_sectors := 0 |>) else mret tt);
   mret rc) c.

(** The dirty slot with the lowest sector. *)
Fixpoint lowest_dirty (l : list Entry) (i best best_idx : Z) : Z * Z :=
  match l with
  | [] => (best, best_idx)
  | e :: l => if e_dirty e && (e_sector e <? best) then lowest_dirty l (i + 1) (e_sector e) i
              else lowest_dirty l (i + 1) best best_idx
  end.

Definition clean (e : Entry) : Entry := mkEntry (e_sector e) false (e_data e).

(** Moves the run of consecutive dirty sectors from [sector] on to the write
    buffer; [room] is what is left of it. *)
Fixpoint gather (room : nat) (sector run : Z) : ST (NetClient S) Z :=
  match room with
  | O => mret run
  | Datatypes.S room => fun c =>
      let idx := netblk_writeback_find c (u64 (sector + run)) in
      if idx <? 0 then Done (run, c) else
      (e ← lift (rd (table c) idx);
       wb ← lift (match write_buffer c with
                  | None => Stuck OutOfBounds
                  | Some b => buf_write (NETBLK_WRITE_BUFFER_SECTORS * SECTOR_SIZE) b (run * SECTOR_SIZE) (e_data e)
                  end);
       t ← lift (wr (table c) idx (clean e));
       _ ← modify (fun c => c <| write_buffer := Some wb |> <| writeback := Some t |>);
       gather room sector (run + 1)) c
  end.

Fixpoint drain_loop (fuel : nat) : ST (NetClient S) Z :=
  match fuel with
  | O => stuck Diverges
  | Datatypes.S fuel => fun c =>
      let '(best, best_idx) := lowest_dirty (table c) 0 UINT64_MAX (-1) in
      if best_idx <? 0 then Done (SUCCESS, c <| writeback := Some [] |>) else
      if bool_decide (write_buffer c = None) then Done (FAILURE, c) else
      (run ← gather (Z.to_nat NETBLK_WRITE_BUFFER_SECTORS) best 0;
       if run <=? 0 then mret FAILURE else
       wb ← gets write_buffer;
       b ← lift (buf_read (default [] wb) 0 (run * SECTOR_SIZE));
       rc ← request_rc NETBLK_OP_WRITE best run b;
       if rc <? 0 then mret FAILURE else
       _ ← modify (fun c => c <| writeback_flushes := u32 (writeback_flushes c + 1) |>);
       drain_loop fuel) c
  end.

Definition netblk_drain_writes : ST (NetClient S) Z := fun c =>
  match writeback c with
  | None | Some [] => netblk_flush_writes c
  | Some t =>
      (rc ← netblk_flush_writes;
       if rc <? 0 then mret FAILURE else drain_loop (Datatypes.S (length t))) c
  end.

Definition netblk_flush : ST (NetClient S) Z := fun c =>
  if read_only c || negb (writable c) then Done (SUCCESS, c) else
  (rc ← netblk_drain_writes;
   if rc <? 0 then mret FAILURE else request_rc NETBLK_OP_FLUSH 0 0 []) c.

(** [pcmalloc n] succeeds. *)
Variable pcmalloc : Z -> bool.

Definition netblk_alloc_writes c : bool * NetClient S :=
  if negb (writeback_enabled c) then (false, c) else
  if bool_decide (is_Some (writeback c)) then (true, c) else
  if pcmalloc (NETBLK_WRITEBACK_SECTORS * SECTOR_SIZE) && pcmalloc (NETBLK_WRITEBACK_SECTORS * 8) &&
     pcmalloc NETBLK_WRITEBACK_SECTORS
  then (true, c <| writeback := Some [] |>) else (false, c).

(** Stores sectors [s ..] of [buf]: [idx] is the slot they go to. *)
Definition store_slot (sector : Z) (data : list Z) : ST (NetClient S) Z := fun c =>
  let idx := netblk_writeback_find c sector in
  if 0 <=? idx then
    (t ← lift (wr (table c) idx (mkEntry sector true data));
     _ ← modify (fun c => c <| writeback := Some t |>);
     mret SUCCESS) c
  else
    (rc ← (if NETBLK_WRITEBACK_SECTORS <=? alen (table c) then netblk_drain_writes else mret SUCCESS);
     if rc <? 0 then mret FAILURE else
     t ← gets table;
     if NETBLK_WRITEBACK_SECTORS <=? alen t then stuck OutOfBounds else
     _ ← modify (fun c => c <| writeback := Some (t ++ [mkEntry sector true data]) |>);
     mret SUCCESS) c.

Fixpoint store_loop (todo : nat) (sector_num : Z) (buf : list Z) (s : Z) : ST (NetClient S) Z :=
  match todo with
  | O => mret 1
  | Datatypes.S todo =>
      data ← lift (buf_read buf (s * SECTOR_SIZE) SECTOR_SIZE);
      rc ← store_slot (u64 (sector_num + s)) data;
      if rc <? 0 then mret FAILURE else
      _ ← modify (fun c => c <| stored_sectors := u64 (stored_sectors c + 1) |>);
      store_loop todo sector_num buf (s + 1)
  end.

Definition netblk_store_write (sector_num : Z) (buf : list Z) (n : Z) : ST (NetClient S) Z := fun c =>
  if negb (writeback_enabled c) || (n <=? 0) then Done (0, c) else
  let '(ok, c) := netblk_alloc_writes c in
  if negb ok then Done (0, c) else store_loop (Z.to_nat n) sector_num buf 0 c.

Definition netblk_write_overlaps c (sector_num n : Z) : bool :=
  if n <=? 0 then false else
  let read_end := u64 (sector_num + n) in
  (nz (write_sectors c) && (sector_num <? u64 (write_sector c + write_sectors c)) &&
   (write_sector c <? read_end)) ||
  (writeback_enabled c &&
   existsb (fun e => e_dirty e && (sector_num <=? e_sector e) && (e_sector e <? read_end)) (table c)).

(** ** Reads *)

(** [(uint64_t) bf->nb_sectors]: the server's announcement, also when it is negative
    as the [int64_t] it is kept in. *)
Definition capacity c : Z := u64 (nb_sectors c).

(** The request [netblk_read_async] makes for a missing sector. *)
Definition fetch_range c (cur request_end : Z) : Z * Z :=
  let next_cached := netblk_next_cached c cur request_end in
  let missing := s32 (next_cached - cur) in
  let fetch_start := cur in
  let fetch_sectors := if missing <=? 0 then 1 else missing in
  let '(fetch_start, fetch_sectors) :=
    if (next_cached =? request_end) && (fetch_sectors <? prefetch_sectors c) then
      (if 1 <? prefetch_sectors c then cur / prefetch_sectors c * prefetch_sectors c else fetch_start,
       prefetch_sectors c)
    else (fetch_start, fetch_sectors) in
  let fetch_sectors := if max_sectors c <? fetch_sectors then max_sectors c else fetch_sectors in
  let fetch_sectors :=
    if NETBLK_READ_CACHE_SECTORS <? fetch_sectors then NETBLK_READ_CACHE_SECTORS else fetch_sectors in
  let avail := u64 (capacity c - fetch_start) in
  let fetch_sectors := if avail <? u64 fetch_sectors then s32 avail else fetch_sectors in
  if u64 (fetch_start + u64 fetch_sectors) <=? cur
  then (cur, if 0 <? missing then missing else 1)
  else (fetch_start, fetch_sectors).

(** [n] bytes received at the start of a buffer. *)
Definition received (old : option (list Z)) (b : list Z) : option (list Z) :=
  (fun l => splice l 0 b) <$> old.

(** The fetch into the next window; the result is whether it succeeded. *)
Definition fetch (cur request_end : Z) : ST (NetClient S) bool := fun c =>
  let slot := read_cache_next c in
  match rd (windows c) slot with
  | Stuck f => Stuck f
  | Done w =>
      if bool_decide (w_data w = None) then Done (false, c) else
      let '(start, n) := fetch_range c cur request_end in
      if n <=? 0 then Done (false, c) else
      if NETBLK_READ_CACHE_SECTORS * SECTOR_SIZE <? n * SECTOR_SIZE then Stuck OutOfBounds else
      (r ← netblk_request NETBLK_OP_READ start n [] (n * SECTOR_SIZE);
       match r.1 with
       | Some _ =>
           _ ← modify (fun c => c
             <| cache_misses := u64 (cache_misses c + n) |>
             <| windows := arr_set (windows c) slot (mkWindow (received (w_data w) r.2) start n) |>
             <| read_cache_next := (slot + 1) mod NETBLK_READ_CACHE_WINDOWS |>);
           mret true
       | None =>
           _ ← modify (fun c => c
             <| windows := arr_set (windows c) slot (mkWindow (received (w_data w) r.2) (w_sector w) 0) |>);
           mret false
       end) c
  end.

(** The loop of [netblk_read_async]; [got] is what it has copied to [buf]. *)
Fixpoint read_loop (fuel : nat) (cur request_end : Z) (got : list Z) : ST (NetClient S) (Z * list Z) :=
  match fuel with
  | O => stuck Diverges
  | Datatypes.S fuel => fun c =>
      if request_end <=? cur then Done ((SUCCESS, got), c) else
      let slot := netblk_find_cache c cur in
      if 0 <=? slot then
        (w ← lift (rd (windows c) slot);
         let copy_end := if w_end w <? request_end then w_end w else request_end in
         let copy_sectors := s32 (copy_end - cur) in
         b ← lift (buf_read (default [] (w_data w)) ((cur - w_sector w) * SECTOR_SIZE) (copy_sectors * SECTOR_SIZE));
         _ ← modify (fun c => c <| cache_hits := u64 (cache_hits c + copy_sectors) |>);
         read_loop fuel (u64 (cur + copy_sectors)) request_end (got ++ b)) c
      else
        (ok ← fetch cur request_end;
         if ok : bool then read_loop fuel cur request_end got else mret (FAILURE, got)) c
  end.

Definition bad_range c (sector_num n : Z) : bool :=
  (n <? 0) || (max_sectors c <? n) || (capacity c <? sector_num) ||
  (u64 (capacity c - sector_num) <? n).

Definition netblk_read_async (sector_num n : Z) : ST (NetClient S) (Z * list Z) := fun c =>
  if bad_range c sector_num n then Done ((FAILURE, []), c) else
  (rc ← (if netblk_write_overlaps c sector_num n then netblk_drain_writes else mret SUCCESS);
   if rc <? 0 then mret (FAILURE, []) else
   read_loop (Z.to_nat (2 * n + 1)) sector_num (u64 (sector_num + n)) []) c.

(** ** Writes *)

(** The write through the write buffer, when the table is not used. *)
Definition buffer_write (sector_num : Z) (buf : list Z) (n : Z) : ST (NetClient S) Z := fun c =>
  if (NETBLK_WRITE_BUFFER_SECTORS <? n) || bool_decide (write_buffer c = None) then
    (rc ← netblk_drain_writes;
     if rc <? 0 then mret FAILURE else
     b ← lift (buf_read buf 0 (n * SECTOR_SIZE));
     request_rc NETBLK_OP_WRITE sector_num n b) c
  else
    (rc ← (if nz (write_sectors c) &&
              (negb (u64 (write_sector c + write_sectors c) =? sector_num) ||
               (NETBLK_WRITE_BUFFER_SECTORS <? write_sectors c + n))
           then netblk_flush_writes else mret SUCCESS);
     if rc <? 0 then mret FAILURE else
     _ ← modify (fun c => if write_sectors c =? 0 then c <| write_sector := sector_num |> else c);
     b ← lift (buf_read buf 0 (n * SECTOR_SIZE));
     k ← gets write_sectors;
     old ← gets write_buffer;
     wb ← lift (buf_write (NETBLK_WRITE_BUFFER_SECTORS * SECTOR_SIZE) (default [] old) (k * SECTOR_SIZE) b);
     _ ← modify (fun c => c <| write_buffer := Some wb |> <| write_sectors := k + n |>);
     if NETBLK_WRITE_BUFFER_SECTORS <=? k + n then netblk_flush_writes else mret SUCCESS) c.

Definition netblk_write_async (sector_num : Z) (buf : list Z) (n : Z) : ST (NetClient S) Z := fun c =>
  if read_only c || negb (writable c) || bad_range c sector_num n then Done (FAILURE, c) else
  let c := netblk_invalidate c sector_num n in
  (stored ← (if n <=? NETBLK_WRITEBACK_SECTORS then netblk_store_write sector_num buf n else mret 0);
   if nz stored then mret SUCCESS else buffer_write sector_num buf n) c.

(** ** Opening and closing *)

Definition starts_with (p s : string) : option string :=
  if String.prefix p s then Some (String.substring (String.length p) (String.length s - String.length p) s)
  else None.

(** The text before and after the last colon. *)
Fixpoint last_colon (s : string) : option (string * string) :=
  match s with
  | EmptyString => None
  | String ch s' =>
      match last_colon s' with
      | Some (a, b) => Some (String ch a, b)
      | None => if bool_decide (ch = ":"%char) then Some (EmptyString, s') else None
      end
  end.

Definition slen (s : string) : Z := Z.of_nat (String.length s).

(** Read-only flag, host and port of a disk specification. *)
Definition netblk_parse_endpoint (spec : string) (host_len port_len : Z) : option (bool * string * string) :=
  match (match starts_with "netro:" spec with
         | Some p => Some (true, p)
         | None => match starts_with "net:" spec with Some p => Some (false, p) | None => None end
         end) with
  | None => None
  | Some (ro, p) =>
      match last_colon p with
      | Some (host, port) =>
          if (slen host =? 0) || (slen port =? 0) || (host_len <=? slen host) || (port_len <=? slen port)
          then None else Some (ro, host, port)
      | None => if (slen p =? 0) || (host_len <=? slen p) then None else Some (ro, p, "3860"%string)
      end
  end.

(** [prefetch_sectors] from TINY386_NET_PREFETCH_SECTORS, [atoi]'s result when
    the variable is set and not empty. *)
Definition clamp_max (hello_bytes : Z) : Z :=
  let m := if nz hello_bytes then s32 hello_bytes else NETBLK_MAX_SECTORS in
  let m := if NETBLK_MAX_SECTORS <? m then NETBLK_MAX_SECTORS else m in
  if m <? 1 then 1 else m.
Definition clamp_prefetch (env : option Z) (max : Z) : Z :=
  let p := match env with Some r => if 0 <? r then r else 64 | None => 64 end in
  let p := if max <? p then max else p in
  let p := if NETBLK_READ_CACHE_SECTORS <? p then NETBLK_READ_CACHE_SECTORS else p in
  if p <? 1 then 1 else p.

(** [block_device_init_net] once the socket is connected: [None] is a null
    device. *)
Definition block_device_init_net (so : S) (ro : bool) (env_writeback env_prefetch : option Z) :
    outcome (option (NetClient S)) :=
  let enabled := match env_writeback with None => true | Some v => nz v end in
  if negb (pcmalloc (NETBLK_READ_CACHE_SECTORS * SECTOR_SIZE)) ||
     negb (pcmalloc (NETBLK_WRITE_BUFFER_SECTORS * SECTOR_SIZE)) then Done None else
  let c := mkNet so ro false 0 0 0 (replicate (Z.to_nat NETBLK_READ_CACHE_WINDOWS) (mkWindow (Some []) 0 0)) 0
             (Some []) 0 0 None enabled 0 0 0 0 0 in
  match netblk_request NETBLK_OP_HELLO 0 0 [] 0 c with
  | Stuck f => Stuck f
  | Done (r, c) =>
      match r.1 with
      | None => Done None
      | Some hello =>
          if negb (count hello =? SECTOR_SIZE) || (lba hello =? 0) then Done None else
          match netblk_ping 0 0 0 0 0 0 0 None c with
          | Stuck f => Stuck f
          | Done (_, c) =>
              let m := clamp_max (hbytes hello) in
              Done (Some (c <| nb_sectors := sgn 64 (lba hello) |> <| max_sectors := m |>
                            <| prefetch_sectors := clamp_prefetch env_prefetch m |>
                            <| writable := Z.testbit (flags hello) 0 |>))
          end
      end
  end.

(** What [ide_free] does before it closes the socket. *)
Definition net_close : ST (NetClient S) unit := fun c =>
  if negb (read_only c) && writable c then
    (_ ← netblk_drain_writes; _ ← request_rc NETBLK_OP_FLUSH 0 0 []; mret tt) c
  else Done (tt, c).

End Operations.

(** ** The peer

    What the client relies on.  On any connection [send] and [recv] move no more
    than asked; [link] is, while the connection is up and a server that meets
    [Server.spec_request] is at the other end, that server's disk and the bytes
    under way in the two directions. *)

Record Link := mkLink { server_disk : list Z; to_server : list Z; to_client : list Z }.

(** The length of the request that [i] starts: a header, and a payload for
    WRITE and PING. *)
Definition request_size (i : list Z) : Z :=
  if alen i <? 32 then 32 else
  let h := header_of (take 32 i) in
  32 + (if (op h =? NETBLK_OP_WRITE) || (op h =? NETBLK_OP_PING) then hbytes h else 0).

(** What [recv] and [send] promise whoever the peer is: they move no more than
    they are given room for. *)
Class SaneSocket (S : Type) `{Server.SocketOps S} := {
  net_recv_sane so len : 0 < len ->
    let '(n, b, so') := Server.recv so len in n <= len /\ (0 < n -> alen b = n);
  net_send_sane so p : let '(n, so') := Server.send so p in n <= alen p;
}.

Section Peer.
Context (st : Server.Export) (wall_time : Z).

(** A complete request is served. *)
Definition deliver (L : Link) : Link :=
  if request_size (to_server L) <=? alen (to_server L) then
    let '(D, i, out, _) := Server.spec_request st wall_time true (server_disk L) (to_server L) in
    mkLink D i (to_client L ++ out)
  else L.

Class NetLaws (S : Type) `{Server.SocketOps S} `{WallClock S} := {
  net_sane :: SaneSocket S;
  link : S -> option Link;
  (** [send] while no reply is awaited, of no more than one request *)
  link_send so p D i : link so = Some (mkLink D i []) -> p <> [] ->
    alen (i ++ p) <= request_size (i ++ p) ->
    exists n so', Server.send so p = (n, so') /\ 0 < n <= alen p /\
      link so' = Some (deliver (mkLink D (i ++ take (Z.to_nat n) p) []));
  link_recv so len D i o : link so = Some (mkLink D i o) -> 0 < len -> o <> [] ->
    exists n b so' o', Server.recv so len = (n, b, so') /\ 0 < n <= len /\ alen b = n /\
      o = b ++ o' /\ link so' = Some (mkLink D i o');
  link_clock so : link (wall_us so).2 = link so;
}.

Context {S : Type} `{NetLaws S}.

(** *** Transfers *)

Definition rc_ok (rc : Z) : Prop := rc = SUCCESS \/ rc = FAILURE.

Lemma request_size_prefix i p q :
  alen (i ++ p ++ q) <= request_size (i ++ p ++ q) -> q <> [] ->
  alen (i ++ p) < request_size (i ++ p).
Proof.
  intros Hr Hq. assert (0 < alen q) by (destruct q; [done|unfold alen; cbn; lia]).
  unfold request_size in *. rewrite !app_assoc, (Server.alen_app (i ++ p) q) in Hr.
  pose proof (Server.alen_nonneg (i ++ p)).
  destruct (Z.ltb_spec (alen (i ++ p)) 32); [lia|].
  destruct (Z.ltb_spec (alen (i ++ p) + alen q) 32); [lia|].
  rewrite take_app_le in Hr by (unfold alen in *; lia). lia.
Qed.

Lemma deliver_incomplete D i o : alen i < request_size i -> deliver (mkLink D i o) = mkLink D i o.
Proof. intros Hr. unfold deliver. cbn [to_server]. destruct (Z.leb_spec (request_size i) (alen i)); [lia|done]. Qed.

Definition todo_of (n : Z) : Z := if NETBLK_IO_CHUNK_BYTES <? n then NETBLK_IO_CHUNK_BYTES else n.
Lemma todo_range n : 0 < n -> 0 < todo_of n <= n.
Proof. unfold todo_of, NETBLK_IO_CHUNK_BYTES. destruct (Z.ltb_spec (64 * 1024) n); lia. Qed.

Lemma take_shorter {A} (p : list A) n m : n <= m -> 0 <= n ->
  take (Z.to_nat n) (take (Z.to_nat m) p) = take (Z.to_nat n) p.
Proof. intros. rewrite take_take. f_equal. lia. Qed.

Lemma send_loop_spec fuel p so :
  (length p < fuel)%nat ->
  run_to (send_loop fuel p) so (fun rc so' => rc_ok rc /\
    forall D i, link so = Some (mkLink D i []) -> p <> [] -> alen (i ++ p) <= request_size (i ++ p) ->
      rc = SUCCESS /\ link so' = Some (deliver (mkLink D (i ++ p) []))).
Proof.
  revert p so. induction fuel as [|fuel IH]; intros p so Hf; [lia|]. cbn [send_loop].
  destruct p as [|b p']; [exists SUCCESS, so; split; [done|]; split; [by left|done]|].
  set (p := b :: p') in *. fold (todo_of (alen p)).
  assert (Hp : 0 < alen p) by (unfold alen; subst p; cbn; lia).
  pose proof (todo_range _ Hp) as Ht. set (q := take (Z.to_nat (todo_of (alen p))) p).
  pose proof (net_send_sane so q) as Hs. assert (Hq : alen q = todo_of (alen p)) by (apply Server.alen_take; lia).
  unfold run_to in *. destruct (Server.send so q) as [n so1] eqn:Es.
  assert (Hlink : forall D i, link so = Some (mkLink D i []) -> alen (i ++ p) <= request_size (i ++ p) ->
    0 < n <= alen p /\ link so1 = Some (deliver (mkLink D (i ++ take (Z.to_nat n) p) []))).
  { intros D i Hl Hr. destruct (link_send so q D i Hl) as (n' & so' & Es' & Hn & Hl').
    - intros E. rewrite E in Hq. change (alen (@nil Z)) with 0 in Hq. lia.
    - rewrite <- (take_drop (Z.to_nat (todo_of (alen p))) p) in Hr. fold q in Hr.
      destruct (drop (Z.to_nat (todo_of (alen p))) p) as [|x l] eqn:Ed; [by rewrite app_nil_r in Hr|].
      apply Z.lt_le_incl, (request_size_prefix i q (x :: l)); done.
    - rewrite Es in Es'. simplify_eq. split; [lia|]. rewrite Hl'. unfold q. by rewrite take_shorter by lia. }
  destruct (Z.leb_spec n 0) as [Hn|Hn].
  { exists FAILURE, so1. split; [done|]. split; [by right|]. intros D i Hl _ Hr.
    destruct (Hlink D i Hl Hr). lia. }
  destruct (IH (drop (Z.to_nat n) p) so1) as (rc & so' & E & Hrc & Hk);
    [unfold alen in *; rewrite length_drop; lia|].
  exists rc, so'. split; [done|]. split; [done|]. intros D i Hl _ Hr.
  destruct (Hlink D i Hl Hr) as [Hn' Hl1].
  pose proof (take_drop (Z.to_nat n) p) as Hp2.
  destruct (drop (Z.to_nat n) p) as [|x l] eqn:Ed.
  - rewrite app_nil_r in Hp2. rewrite Hp2 in Hl1.
    destruct fuel; [discriminate|]. cbn in E. by injection E as <- <-.
  - rewrite <- Hp2 in Hr |- *. rewrite app_assoc.
    apply Hk; [|done|by rewrite <- app_assoc]. rewrite Hl1. f_equal.
    apply deliver_incomplete. by apply (request_size_prefix i _ (x :: l)).
Qed.
Lemma send_all_spec p so :
  run_to (netblk_send_all p) so (fun rc so' => rc_ok rc /\
    forall D i, link so = Some (mkLink D i []) -> p <> [] -> alen (i ++ p) <= request_size (i ++ p) ->
      rc = SUCCESS /\ link so' = Some (deliver (mkLink D (i ++ p) []))).
Proof. apply send_loop_spec. lia. Qed.

Lemma recv_loop_spec fuel n got so :
  (Z.to_nat n < fuel)%nat ->
  run_to (recv_loop fuel n got) so (fun r so' => rc_ok r.1 /\
    alen got <= alen r.2 <= alen got + Z.max n 0 /\
    (r.1 = SUCCESS -> alen r.2 = alen got + Z.max n 0) /\
    forall D i o, link so = Some (mkLink D i o) -> 0 <= n <= alen o ->
      r = (SUCCESS, got ++ take (Z.to_nat n) o) /\ link so' = Some (mkLink D i (drop (Z.to_nat n) o))).
Proof.
  revert n got so. induction fuel as [|fuel IH]; intros n got so Hf; [lia|]. cbn [recv_loop].
  destruct (Z.leb_spec n 0).
  { exists (SUCCESS, got), so. cbn. split; [done|]. split; [by left|]. split; [lia|]. split; [lia|].
    intros D i o Hl Hn. replace (Z.to_nat n) with 0%nat by lia. cbn. by rewrite app_nil_r. }
  fold (todo_of n). pose proof (todo_range n ltac:(lia)) as Ht.
  pose proof (net_recv_sane so (todo_of n) ltac:(lia)) as Hs. unfold run_to in *.
  destruct (Server.recv so (todo_of n)) as [[k b] so1] eqn:Es. destruct Hs as (Hk & Hb).
  assert (Hlink : forall D i o, link so = Some (mkLink D i o) -> 0 <= n <= alen o ->
    0 < k <= n /\ alen b = k /\ exists o', o = b ++ o' /\ link so1 = Some (mkLink D i o')).
  { intros D i o Hl Ho. destruct (link_recv so (todo_of n) D i o Hl) as (k' & b' & so' & o' & Es' & ? & ? & -> & ?);
      [lia|intros ->; change (alen (@nil Z)) with 0 in Ho; lia|]. rewrite Es in Es'. simplify_eq. split; [lia|]. split; [done|]. by exists o'. }
  destruct (Z.leb_spec k 0).
  { exists (FAILURE, got), so1. cbn. split; [done|]. split; [by right|]. split; [lia|]. split; [done|].
    intros D i o Hl Ho. destruct (Hlink D i o Hl Ho). lia. }
  specialize (Hb ltac:(lia)).
  destruct (IH (n - k) (got ++ b) so1) as (r & so' & E & Hrc & Hr1 & Hr2 & Hr4); [lia|].
  rewrite Server.alen_app in *. exists r, so'. split; [done|]. split; [done|]. split; [lia|].
  split; [intros ?; rewrite Hr2 by done; lia|].
  intros D i o Hl Ho. destruct (Hlink D i o Hl Ho) as (Hk' & Hbk & o' & -> & Hl1).
  rewrite Server.alen_app in Ho. destruct (Hr4 D i o' Hl1) as [-> Hl']; [lia|].
  replace (Z.to_nat n) with (length b + Z.to_nat (n - k))%nat by (unfold alen in *; lia).
  rewrite <- app_assoc, take_app_add, drop_app_add. done.
Qed.
Lemma recv_all_spec n so :
  run_to (netblk_recv_all n) so (fun r so' => rc_ok r.1 /\ alen r.2 <= Z.max n 0 /\
    (r.1 = SUCCESS -> alen r.2 = Z.max n 0) /\
    forall D i o, link so = Some (mkLink D i o) -> 0 <= n <= alen o ->
      r = (SUCCESS, take (Z.to_nat n) o) /\ link so' = Some (mkLink D i (drop (Z.to_nat n) o))).
Proof.
  eapply run_mono; [apply recv_loop_spec; lia|]. intros r so' (? & ? & ? & ?).
  change (alen (@nil Z)) with 0 in *.
  split; [done|]. split; [lia|]. by split.
Qed.

Lemma run_on_fd {A B} (m : ST S A) (k : A -> ST (NetClient S) B) (c : NetClient S) (Q : A -> S -> Prop) R :
  run_to m (fd c) Q -> (forall a so, Q a so -> run_to (k a) (c <| fd := so |>) R) ->
  run_to (on_fd m ≫= k) c R.
Proof.
  intros (a & so & E & HQ) HR. destruct (HR a so HQ) as (b & c' & E' & HR').
  exists b, c'. split; [|done]. unfold on_fd. unfold mbind at 1, ST_bind. rewrite E. exact E'.
Qed.

(** *** Requests *)

Implicit Types c : NetClient S.

(** A request touches the socket and the waiting time only. *)
Definition touched c c' : Prop := exists so w, c' = c <| fd := so |> <| net_wait_us := w |>.

Lemma touched_fd c so : touched c (c <| fd := so |>).
Proof. by exists so, (net_wait_us c). Qed.
Lemma touched_trans c1 c2 c3 : touched c1 c2 -> touched c2 c3 -> touched c1 c3.
Proof. intros (? & ? & ->) (so & w & ->). by exists so, w. Qed.

Lemma request_size_header h out :
  header_wf h -> request_size (header_bytes h ++ out) =
    32 + (if (op h =? NETBLK_OP_WRITE) || (op h =? NETBLK_OP_PING) then hbytes h else 0).
Proof.
  intros Hw. pose proof (header_bytes_length h (proj1 (wf_magic h Hw))) as Hl.
  unfold request_size. rewrite Server.alen_app. pose proof (Server.alen_nonneg out).
  destruct (Z.ltb_spec (alen (header_bytes h) + alen out) 32); [unfold alen in *; lia|].
  rewrite take_app_length' by done. by rewrite header_read_back.
Qed.

Context (profile : Z).

Definition request_header (o l n : Z) (out : list Z) : NetBlockHeader :=
  netblk_header_init o l n (alen out) (if o =? NETBLK_OP_HELLO then profile else 0).

(** The server answers the request with [rh] and [data], and [D'] is its disk
    afterwards. *)
Record answered (o l n : Z) (out : list Z) (in_len : Z) (D D' : list Z) (rh : NetBlockHeader) (data : list Z) : Prop := {
  ans_size : request_size (header_bytes (request_header o l n out) ++ out) = 32 + alen out;
  ans_spec : Server.spec_request st wall_time true D (header_bytes (request_header o l n out) ++ out) =
    (D', [], header_bytes rh ++ data, Server.Continue);
  ans_wf : header_wf rh;
  ans_ok : netblk_header_ok rh o = true;
  ans_bytes : in_len <> 0 -> hbytes rh = in_len;
  ans_data : alen data = in_len;
}.

Definition request_post (o l n : Z) (out : list Z) (in_len : Z) c
    (r : option NetBlockHeader * list Z) c' : Prop :=
  touched c c' /\ alen r.2 <= Z.max in_len 0 /\ (forall rh, r.1 = Some rh -> header_wf rh /\ alen r.2 = Z.max in_len 0) /\
  forall D D' rh data, link (fd c) = Some (mkLink D [] []) -> answered o l n out in_len D D' rh data ->
    r = (Some rh, data) /\ link (fd c') = Some (mkLink D' [] []).

Lemma header_init_wf o l n b f : header_wf (netblk_header_init o l n b f).
Proof. apply init_header_wf. Qed.

(** After the header: the payload, when there is one. *)
Lemma send_payload_spec o l n out in_len c so {B} (k : Z -> ST (NetClient S) B) R :
  (forall D D' rh data, link (fd c) = Some (mkLink D [] []) -> answered o l n out in_len D D' rh data ->
     link so = Some (deliver (mkLink D (header_bytes (request_header o l n out)) []))) ->
  (forall rc so', rc_ok rc ->
     (forall D D' rh data, link (fd c) = Some (mkLink D [] []) -> answered o l n out in_len D D' rh data ->
        rc = SUCCESS /\ link so' = Some (mkLink D' [] (header_bytes rh ++ data))) ->
     run_to (k rc) (c <| fd := so' |>) R) ->
  run_to ((if nz (alen out) then on_fd (netblk_send_all out) else mret SUCCESS) ≫= k) (c <| fd := so |>) R.
Proof.
  intros Hso Hk. set (req := request_header o l n out) in *.
  assert (Hl : alen (header_bytes req) = 32).
  { unfold alen. rewrite header_bytes_length; [done|]. apply (wf_magic req), header_init_wf. }
  assert (Hdone : forall D D' rh data, answered o l n out in_len D D' rh data ->
    deliver (mkLink D (header_bytes req ++ out) []) = mkLink D' [] (header_bytes rh ++ data)).
  { intros D D' rh data [Hs He _ _ _ _]. change (request_header o l n out) with req in Hs, He. unfold deliver. cbn [to_server to_client server_disk].
    rewrite Hs, He, Server.alen_app, Hl. by rewrite Z.leb_refl. }
  unfold nz. destruct (Z.eqb_spec (alen out) 0) as [E|E]; cbn [negb].
  - pose proof (Server.alen_nil_inv out ltac:(lia)) as E'. apply run_ret_then. apply Hk; [by left|].
    intros D D' rh data Hd Ha. split; [done|]. rewrite (Hso D D' rh data Hd Ha).
    by rewrite <- (Hdone D D' rh data Ha), E', app_nil_r.
  - eapply run_on_fd; [apply send_all_spec|]. intros rc so' [Hrc Hsend].
    assert (out <> []) by (intros ->; by apply E).
    change ((c <| fd := so |>) <| fd := so' |>) with (c <| fd := so' |>).
    apply Hk; [done|]. intros D D' rh data Hd Ha. pose proof Ha as [Hs _ _ _ _ _]. change (request_header o l n out) with req in Hs.
    destruct (Hsend D (header_bytes req)) as [-> Hl']; [|done|rewrite Server.alen_app; lia|].
    + change (fd (c <| fd := so |>)) with so. rewrite (Hso D D' rh data Hd Ha). f_equal.
      apply deliver_incomplete, (request_size_prefix [] (header_bytes req) out); [|done].
      cbn [app]. rewrite Server.alen_app. lia.
    + split; [done|]. by rewrite Hl', (Hdone D D' rh data Ha).
Qed.

Lemma rc_cases rc : rc_ok rc -> (rc = SUCCESS /\ (rc <? 0) = false) \/ (rc = FAILURE /\ (rc <? 0) = true).
Proof. intros [-> | ->]; auto. Qed.

Lemma exchange_spec o l n out in_len c :
  run_to (netblk_exchange profile o l n out in_len) c (request_post o l n out in_len c).
Proof.
  unfold netblk_exchange. fold (request_header o l n out). set (req := request_header o l n out).
  assert (Hw : header_wf req) by apply header_init_wf.
  pose proof (header_bytes_length req (proj1 (wf_magic req Hw))) as Hl.
  assert (Hfail : forall c', touched c c' ->
    (forall D D' rh data, link (fd c) = Some (mkLink D [] []) -> ~ answered o l n out in_len D D' rh data) ->
    run_to (mret (None, [])) c' (request_post o l n out in_len c)).
  { intros c' Ht Hno. apply run_ret. split; [done|]. cbn [fst snd]. change (alen (@nil Z)) with 0.
    split; [lia|]. split; [by intros ? [=]|]. intros D D' rh data H1' H2'. by destruct (Hno D D' rh data H1'). }
  eapply run_on_fd; [apply send_all_spec|]. intros rc so1 [Hrc Hsend].
  assert (Hs1 : forall D D' rh data, link (fd c) = Some (mkLink D [] []) -> answered o l n out in_len D D' rh data ->
    rc = SUCCESS /\ link so1 = Some (deliver (mkLink D (header_bytes req) []))).
  { intros D D' rh data Hd _. apply (Hsend D []); [done|by intros E; rewrite E in Hl|].
    cbn [app]. rewrite <- (app_nil_r (header_bytes req)) at 2. rewrite request_size_header by done.
    unfold alen. rewrite Hl. pose proof (wf_bytes req Hw) as [? _]. case_match; lia. }
  destruct (rc_cases rc Hrc) as [[-> Eb]|[-> Eb]]; rewrite Eb; clear Eb.
  2:{ apply Hfail; [apply touched_fd|]. intros D D' rh data Hd Ha. by destruct (Hs1 D D' rh data Hd Ha). }
  apply (send_payload_spec o l n out in_len); [intros D D' rh data Hd Ha; by destruct (Hs1 D D' rh data Hd Ha)|].
  clear Hsend Hs1 so1. intros rc so2 Hrc2 Hs2.
  destruct (rc_cases rc Hrc2) as [[-> Eb]|[-> Eb]]; rewrite Eb; clear Eb.
  2:{ apply Hfail; [apply touched_fd|]. intros D D' rh data Hd Ha. by destruct (Hs2 D D' rh data Hd Ha). }
  eapply run_on_fd; [apply recv_all_spec|]. intros [rc3 b3] so3 (Hrc3 & _ & Hlen & Hr3).
  change (fd (c <| fd := so2 |>)) with so2 in Hr3. change ((c <| fd := so2 |>) <| fd := so3 |>) with (c <| fd := so3 |>).
  cbn [fst snd] in *.
  assert (Hs3 : forall D D' rh data, link (fd c) = Some (mkLink D [] []) -> answered o l n out in_len D D' rh data ->
    rc3 = SUCCESS /\ header_of b3 = rh /\ link so3 = Some (mkLink D' [] data)).
  { intros D D' rh data Hd Ha. destruct (Hs2 D D' rh data Hd Ha) as [_ Hl2].
    pose proof (header_bytes_length rh (proj1 (wf_magic rh (ans_wf _ _ _ _ _ _ _ _ _ Ha)))) as Hlr.
    destruct (Hr3 D' [] (header_bytes rh ++ data) Hl2) as [[= -> ->] Hl3].
    - rewrite Server.alen_app. unfold alen. lia.
    - rewrite Hl3. change (Z.to_nat 32) with 32%nat. rewrite take_app_length', drop_app_length' by done.
      split; [done|]. split; [by apply header_read_back, Ha|done]. }
  destruct (rc_cases rc3 Hrc3) as [[-> Eb]|[-> Eb]]; rewrite Eb; clear Eb.
  2:{ apply Hfail; [apply touched_fd|]. intros D D' rh data Hd Ha. by destruct (Hs3 D D' rh data Hd Ha). }
  destruct (netblk_header_ok (header_of b3) o) eqn:Eok; cbn [negb].
  2:{ apply Hfail; [apply touched_fd|]. intros D D' rh data Hd Ha. destruct (Hs3 D D' rh data Hd Ha) as (_ & E & _).
      rewrite E in Eok. by rewrite (ans_ok _ _ _ _ _ _ _ _ _ Ha) in Eok. }
  destruct (nz in_len && negb (hbytes (header_of b3) =? in_len)) eqn:Esz.
  { apply Hfail; [apply touched_fd|]. intros D D' rh data Hd Ha. destruct (Hs3 D D' rh data Hd Ha) as (_ & E & _).
    apply andb_true_iff in Esz as [En Eb]. unfold nz in En. rewrite negb_true_iff, Z.eqb_neq in En.
    rewrite E, (ans_bytes _ _ _ _ _ _ _ _ _ Ha En), Z.eqb_refl in Eb. done. }
  unfold nz. destruct (Z.eqb_spec in_len 0) as [->|Hin]; cbn [negb].
  { apply run_ret. split; [apply touched_fd|]. split; [done|]. split; [intros ? [= <-]; split; [apply header_of_wf|done]|]. intros D D' rh data Hd Ha.
    destruct (Hs3 D D' rh data Hd Ha) as (_ & -> & Hl3).
    pose proof (ans_data _ _ _ _ _ _ _ _ _ Ha) as Hda.
    assert (data = []) as E by (apply Server.alen_nil_inv; lia). rewrite E in Hl3 |- *. done. }
  eapply run_on_fd; [apply recv_all_spec|]. intros [rc4 b4] so4 (Hrc4 & Hle & Hlen4 & Hr4).
  change (fd (c <| fd := so3 |>)) with so3 in Hr4. change ((c <| fd := so3 |>) <| fd := so4 |>) with (c <| fd := so4 |>).
  apply run_ret. cbn [fst snd] in *. split; [apply touched_fd|]. cbn [fst snd]. split; [lia|]. split.
  - intros x Hx. destruct (rc_cases rc4 Hrc4) as [[-> _]|[-> _]]; [|discriminate]. injection Hx as <-. split; [apply header_of_wf|by apply Hlen4].
  - intros D D' rh data Hd Ha. destruct (Hs3 D D' rh data Hd Ha) as (_ & -> & Hl3).
    pose proof (ans_data _ _ _ _ _ _ _ _ _ Ha) as Hda. pose proof (Server.alen_nonneg data).
    destruct (Hr4 D' [] data Hl3) as [[= -> ->] Hl4]; [lia|]. cbn [Z.ltb].
    rewrite <- Hda in Hl4 |- *. unfold alen in *. rewrite Nat2Z.id, firstn_all, drop_all in *. done.
Qed.

Lemma request_spec o l n out in_len c :
  run_to (netblk_request profile o l n out in_len) c (request_post o l n out in_len c).
Proof.
  unfold netblk_request. set (c1 := c <| fd := (wall_us (fd c)).2 |>).
  apply (run_step _ _ c (wall_us (fd c)).1 c1); [done|].
  eapply run_bind; [apply exchange_spec|]. intros r c2 (Ht & Hle & Hlen & Hans).
  apply (run_step _ _ c2 (wall_us (fd c2)).1 (c2 <| fd := (wall_us (fd c2)).2 |>)); [done|].
  apply run_modify_then, run_ret. split.
  { apply (touched_trans c c1); [apply touched_fd|]. apply (touched_trans c1 c2); [done|]. by eexists _, _. }
  split; [done|]. split; [done|]. intros D D' rh data Hd Ha.
  destruct (Hans D D' rh data) as [-> Hl]; [|done|].
  - change (fd c1) with (wall_us (fd c)).2. by rewrite link_clock.
  - split; [done|].
    change (fd (c2 <| fd := (wall_us (fd c2)).2 |> <| net_wait_us := _ |>)) with (wall_us (fd c2)).2.
    by rewrite link_clock.
Qed.

(** *** The requests the client makes *)

Context (size : Z) (Hcfg : Server.cfg_wf (Server.cfg st))
  (Hsize : 0 <= Server.sector_count st /\ Server.sector_count st * SECTOR_SIZE <= size < 2 ^ 63)
  (Hrw : Server.read_only (Server.cfg st) = false).

Lemma ask_read D l n :
  0 <= l -> 1 <= n <= Server.max_sectors (Server.cfg st) -> l + n <= Server.sector_count st -> alen D = size ->
  answered NETBLK_OP_READ l n [] (n * SECTOR_SIZE) D D
    (init_header NETBLK_OP_READ l n (n * SECTOR_SIZE) 0 0) (slice D (l * SECTOR_SIZE) (n * SECTOR_SIZE)).
Proof.
  intros Hl Hn Hs HD. destruct Hcfg as ([_ Hm] & _). split.
  - rewrite request_size_header by apply header_init_wf. done.
  - change (request_header NETBLK_OP_READ l n []) with (init_header NETBLK_OP_READ l n 0 0 0).
    rewrite app_nil_r. by rewrite (Server.spec_read_request st wall_time size).
  - apply init_header_wf.
  - done.
  - intros _. cbn. apply u32_id. unfold inw, SECTOR_SIZE. lia.
  - unfold SECTOR_SIZE in *. apply Server.slice_length; lia.
Qed.

Lemma ask_write D l n b :
  0 <= l -> 1 <= n <= 1024 -> l + n <= Server.sector_count st -> alen b = n * SECTOR_SIZE ->
  answered NETBLK_OP_WRITE l n b 0 D (splice D (l * SECTOR_SIZE) b)
    (init_header NETBLK_OP_WRITE l n 0 0 0) [].
Proof.
  intros Hl Hn Hs Hb. assert (Eh : request_header NETBLK_OP_WRITE l n b = init_header NETBLK_OP_WRITE l n (n * SECTOR_SIZE) 0 0)
    by (unfold request_header, netblk_header_init; by rewrite Hb).
  split; rewrite ?Eh.
  - rewrite request_size_header by apply init_header_wf. cbn [op init_header hbytes].
    change (u16 NETBLK_OP_WRITE =? NETBLK_OP_WRITE) with true. cbn [orb].
    rewrite u32_id by (unfold inw, SECTOR_SIZE; lia). lia.
  - rewrite app_nil_r, <- (app_nil_r b) at 1. by rewrite (Server.spec_write_request st wall_time size).
  - apply init_header_wf.
  - done.
  - done.
  - done.
Qed.

Lemma ask_flush D : answered NETBLK_OP_FLUSH 0 0 [] 0 D D (init_header NETBLK_OP_FLUSH 0 0 0 0 0) [].
Proof.
  split; [|..|apply init_header_wf|done|done|done].
  - rewrite request_size_header by apply header_init_wf. done.
  - rewrite Server.spec_request_header by (done || apply header_init_wf).
    rewrite app_nil_r. unfold Server.spec_op. change (op (request_header NETBLK_OP_FLUSH 0 0 [])) with 4.
    cbv iota. by rewrite andb_false_r.
Qed.

Definition served (D : list Z) c : Prop := link (fd c) = Some (mkLink D [] []) /\ alen D = size.

Lemma request_write_spec l n b c :
  run_to (request_rc profile NETBLK_OP_WRITE l n b) c (fun rc c' => touched c c' /\ rc_ok rc /\
    forall D, served D c -> 0 <= l -> 1 <= n <= 1024 -> l + n <= Server.sector_count st ->
      alen b = n * SECTOR_SIZE -> rc = SUCCESS /\ served (splice D (l * SECTOR_SIZE) b) c').
Proof.
  unfold request_rc. eapply run_bind; [apply request_spec|]. intros r c' (Ht & _ & _ & Ha). apply run_ret.
  split; [done|]. split; [case_match; [by left|by right]|]. intros D [Hd HD] Hl Hn Hs Hb.
  destruct (Ha _ _ _ _ Hd (ask_write D l n b Hl Hn Hs Hb)) as [-> Hl']. split; [done|]. split; [done|].
  unfold SECTOR_SIZE in *. rewrite Server.splice_length; lia.
Qed.

Lemma request_flush_spec c :
  run_to (request_rc profile NETBLK_OP_FLUSH 0 0 []) c (fun rc c' => touched c c' /\ rc_ok rc /\
    forall D, served D c -> rc = SUCCESS /\ served D c').
Proof.
  unfold request_rc. eapply run_bind; [apply request_spec|]. intros r c' (Ht & _ & _ & Ha). apply run_ret.
  split; [done|]. split; [case_match; [by left|by right]|]. intros D [Hd HD].
  by destruct (Ha _ _ _ _ Hd (ask_flush D)) as [-> Hl'].
Qed.

Lemma request_read_spec l n c :
  run_to (netblk_request profile NETBLK_OP_READ l n [] (n * SECTOR_SIZE)) c (fun r c' => touched c c' /\
    (0 <= n -> alen r.2 <= n * SECTOR_SIZE) /\ (is_Some r.1 -> 0 <= n -> alen r.2 = n * SECTOR_SIZE) /\
    forall D, served D c -> 0 <= l -> 1 <= n <= Server.max_sectors (Server.cfg st) ->
      l + n <= Server.sector_count st ->
      is_Some r.1 /\ r.2 = slice D (l * SECTOR_SIZE) (n * SECTOR_SIZE) /\ served D c').
Proof.
  eapply run_mono; [apply request_spec|]. intros r c' (Ht & Hle & Hlen & Ha). unfold SECTOR_SIZE in *.
  split; [done|]. split; [lia|]. split; [intros [rh Hrh] ?; destruct (Hlen rh Hrh) as [_ ->]; lia|].
  intros D [Hd HD] Hl Hn Hs. destruct (Ha _ _ _ _ Hd (ask_read D l n Hl Hn Hs HD)) as [-> Hl'].
  split; [by eexists|]. by split.
Qed.

(** *** Disks by the sector *)

Lemma buf_read_in l off n : 0 <= off -> off + n <= alen l -> buf_read l off n = Done (slice l off n).
Proof.
  intros. unfold buf_read. destruct (Z.ltb_spec off 0); [lia|]. by destruct (Z.ltb_spec (alen l) (off + n)); [lia|].
Qed.
Lemma buf_write_in cap l off b :
  0 <= off <= alen l -> off + alen b <= cap -> buf_write cap l off b = Done (splice l off b).
Proof.
  intros. unfold buf_write. destruct (Z.ltb_spec off 0); [lia|]. destruct (Z.ltb_spec (alen l) off); [lia|].
  by destruct (Z.ltb_spec cap (off + alen b)); [lia|].
Qed.
Lemma splice_alen l off b : 0 <= off <= alen l -> alen (splice l off b) = Z.max (alen l) (off + alen b).
Proof. unfold splice, alen. intros. rewrite !length_app, length_take, length_drop. lia. Qed.

Definition sec (D : list Z) (k : Z) : list Z := slice D (k * SECTOR_SIZE) SECTOR_SIZE.

Lemma sec_length D k : 0 <= k -> (k + 1) * SECTOR_SIZE <= alen D -> alen (sec D k) = SECTOR_SIZE.
Proof. unfold sec, SECTOR_SIZE. intros. apply Server.slice_length; lia. Qed.

Lemma slice_sub l off n o m :
  0 <= off -> 0 <= o -> 0 <= m -> o + m <= n -> slice (slice l off n) o m = slice l (off + o) m.
Proof.
  unfold slice. intros. rewrite skipn_firstn_comm, drop_drop, take_take. f_equal; [lia|]. f_equal. lia.
Qed.

Lemma slice_splice_before l off p o m :
  0 <= o -> 0 <= m -> o + m <= off <= alen l -> slice (splice l off p) o m = slice l o m.
Proof.
  unfold slice, splice, alen. intros Hoo Hm Hl.
  rewrite drop_app_le by (rewrite length_take; lia). rewrite take_app_le by (rewrite length_drop, length_take; lia).
  rewrite skipn_firstn_comm, take_take. f_equal. lia.
Qed.
Lemma slice_splice_after l off p o m :
  0 <= off -> 0 <= m -> off + alen p <= alen l -> off + alen p <= o ->
  slice (splice l off p) o m = slice l o m.
Proof.
  unfold slice, splice, alen. intros Ho Hm Hl Ha.
  rewrite app_assoc, drop_app_ge by (rewrite length_app, length_take; lia).
  rewrite drop_drop, length_app, length_take. do 2 f_equal. lia.
Qed.
Lemma slice_splice_in l off p o m :
  0 <= off <= alen l -> off <= o -> 0 <= m -> o + m <= off + alen p ->
  slice (splice l off p) o m = slice p (o - off) m.
Proof.
  unfold slice, splice, alen. intros. rewrite drop_app_ge by (rewrite length_take; lia).
  rewrite length_take, drop_app_le by lia. rewrite take_app_le by (rewrite length_drop; lia). do 2 f_equal. lia.
Qed.

Lemma sec_splice D l n p k :
  0 <= l -> 0 <= n -> 0 <= k -> alen p = n * SECTOR_SIZE -> (l + n) * SECTOR_SIZE <= alen D ->
  sec (splice D (l * SECTOR_SIZE) p) k = if (l <=? k) && (k <? l + n) then sec p (k - l) else sec D k.
Proof.
  unfold sec, SECTOR_SIZE. intros Hl Hn Hk Hp HD.
  destruct (Z.leb_spec l k), (Z.ltb_spec k (l + n)); cbn [andb].
  - rewrite slice_splice_in by lia. f_equal. lia.
  - apply slice_splice_after; lia.
  - apply slice_splice_before; lia.
  - lia.
Qed.

Lemma sec_slice D l n k : 0 <= l -> 0 <= k < n ->
  sec (slice D (l * SECTOR_SIZE) (n * SECTOR_SIZE)) k = sec D (l + k).
Proof. unfold sec, SECTOR_SIZE. intros. rewrite slice_sub by lia. f_equal. lia. Qed.

(** *** The writeback table as a map *)

Fixpoint dirty_data (t : list Entry) (k : Z) : option (list Z) :=
  match t with
  | [] => None
  | e :: t => if is_dirty k e then Some (e_data e) else dirty_data t k
  end.
Definition dirty_sectors (t : list Entry) : list Z := e_sector <$> List.filter e_dirty t.

Lemma dirty_data_app l l' k :
  dirty_data (l ++ l') k = match dirty_data l k with Some d => Some d | None => dirty_data l' k end.
Proof. induction l as [|e l IH]; cbn; [done|]. by destruct (is_dirty k e). Qed.
Lemma dirty_sectors_app l l' : dirty_sectors (l ++ l') = dirty_sectors l ++ dirty_sectors l'.
Proof. unfold dirty_sectors. by rewrite List.filter_app, fmap_app. Qed.
Lemma dirty_sectors_cons e l :
  dirty_sectors (e :: l) = if e_dirty e then e_sector e :: dirty_sectors l else dirty_sectors l.
Proof. unfold dirty_sectors. cbn. by destruct (e_dirty e). Qed.

Lemma dirty_data_none t k : dirty_data t k = None <-> k ∉ dirty_sectors t.
Proof.
  induction t as [|e t IH]; [cbn; split; [intros _; by apply not_elem_of_nil|done]|].
  cbn [dirty_data]. rewrite dirty_sectors_cons. unfold is_dirty.
  destruct (e_dirty e); cbn [andb]; [|done].
  rewrite not_elem_of_cons, <- IH. destruct (Z.eqb_spec (e_sector e) k); naive_solver.
Qed.

Lemma is_dirty_true k e : is_dirty k e = true <-> e_dirty e = true /\ e_sector e = k.
Proof. unfold is_dirty. rewrite andb_true_iff, Z.eqb_eq. done. Qed.

(** An array access splits the array. *)
Lemma rd_split {A} (l : list A) i a : rd l i = Done a ->
  exists l1 l2, l = l1 ++ a :: l2 /\ i = alen l1 /\
    (forall b, wr l i b = Done (l1 ++ b :: l2)).
Proof.
  unfold rd. destruct (Z.ltb_spec i 0); [done|]. destruct (l !! Z.to_nat i) as [x|] eqn:E; [|done].
  intros [= ->]. apply list_elem_of_split_length in E as (l1 & l2 & -> & Hi).
  exists l1, l2. split; [done|]. assert (Ei : i = alen l1) by (unfold alen; lia). split; [done|]. intros b.
  rewrite wr_in by (unfold alen in *; rewrite length_app; cbn; lia).
  unfold arr_set. rewrite Hi. by rewrite insert_app_r_alt, Nat.sub_diag by done.
Qed.

Lemma find_index_spec {A} (p : A -> bool) l i :
  0 <= i ->
  (find_index p l i = -1 /\ forall a, a ∈ l -> p a = false) \/
  (exists j a, 0 <= j < alen l /\ find_index p l i = i + j /\ rd l j = Done a /\ p a = true).
Proof.
  revert i. induction l as [|a l IH]; intros i Hi; cbn [find_index].
  { left. split; [done|]. intros a Ha. by apply elem_of_nil in Ha. }
  destruct (p a) eqn:E.
  { right. exists 0, a. unfold alen. cbn [length]. split; [lia|]. split; [lia|]. done. }
  destruct (IH (i + 1) ltac:(lia)) as [[-> Hn]|(j & b & Hj & -> & Hr & Hb)].
  - left. split; [done|]. intros b Hb. apply elem_of_cons in Hb as [->|]; auto.
  - right. exists (j + 1), b. unfold alen in *. cbn [length]. split; [lia|]. split; [lia|]. split; [|done].
    unfold rd in *. destruct (Z.ltb_spec j 0); [lia|]. destruct (Z.ltb_spec (j + 1) 0); [lia|].
    replace (Z.to_nat (j + 1)) with (Datatypes.S (Z.to_nat j)) by lia. done.
Qed.

(** The slot found for a sector, and the table around it. *)
Lemma find_dirty t k :
  (find_index (is_dirty k) t 0 = -1 /\ dirty_data t k = None) \/
  (exists j e t1 t2, find_index (is_dirty k) t 0 = j /\ 0 <= j /\ rd t j = Done e /\ t = t1 ++ e :: t2 /\
     e_dirty e = true /\ e_sector e = k /\ (forall b, wr t j b = Done (t1 ++ b :: t2))).
Proof.
  destruct (find_index_spec (is_dirty k) t 0 ltac:(lia)) as [[-> Hn]|(j & e & Hj & -> & Hr & He)].
  - left. split; [done|]. revert Hn. clear. induction t as [|e t IH]; intros Hn; [done|]. cbn [dirty_data].
    rewrite (Hn e) by apply list_elem_of_here. apply IH. intros a Ha. apply Hn. by apply list_elem_of_further.
  - right. destruct (rd_split t j e Hr) as (t1 & t2 & Ht & _ & Hw). exists j, e, t1, t2.
    apply is_dirty_true in He as [? ?]. split; [lia|]. split; [lia|]. done.
Qed.

Lemma dirty_unique t1 e t2 k :
  NoDup (dirty_sectors (t1 ++ e :: t2)) -> e_dirty e = true -> e_sector e = k ->
  dirty_data t1 k = None /\ dirty_data t2 k = None /\ NoDup (dirty_sectors t1 ++ dirty_sectors t2).
Proof.
  intros Hnd Hd Hk. rewrite dirty_sectors_app, dirty_sectors_cons, Hd, Hk in Hnd.
  rewrite !dirty_data_none. apply NoDup_app in Hnd as (H1' & H2' & H3'). apply NoDup_cons in H3' as [H4' H5'].
  split; [intros Hin; apply (H2' k Hin); apply list_elem_of_here|]. split; [done|].
  apply NoDup_app. split; [done|]. split; [|done]. intros x Hx Hx'. apply (H2' x Hx). by apply list_elem_of_further.
Qed.

(** Cleaning a dirty slot takes its sector out of the map. *)
Lemma clean_slot t1 e t2 k :
  NoDup (dirty_sectors (t1 ++ e :: t2)) -> e_dirty e = true -> e_sector e = k ->
  NoDup (dirty_sectors (t1 ++ clean e :: t2)) /\
  length (dirty_sectors (t1 ++ e :: t2)) = Datatypes.S (length (dirty_sectors (t1 ++ clean e :: t2))) /\
  dirty_data (t1 ++ e :: t2) k = Some (e_data e) /\
  forall k', dirty_data (t1 ++ clean e :: t2) k' = if k =? k' then None else dirty_data (t1 ++ e :: t2) k'.
Proof.
  intros Hnd Hd Hk. destruct (dirty_unique t1 e t2 k Hnd Hd Hk) as (H1' & H2' & H3').
  rewrite !dirty_sectors_app, !dirty_sectors_cons, Hd. change (e_dirty (clean e)) with false. cbv iota.
  split; [done|]. split; [rewrite !length_app; cbn; lia|].
  assert (He : is_dirty k e = true) by (apply is_dirty_true; done).
  split; [rewrite dirty_data_app, H1'; cbn; by rewrite He|].
  intros k'. rewrite !dirty_data_app. cbn [dirty_data]. change (is_dirty k' (clean e)) with false. cbv iota.
  destruct (Z.eqb_spec k k') as [<-|Hne]; [by rewrite H1', H2'|].
  unfold is_dirty. rewrite Hd, Hk. by destruct (Z.eqb_spec k k').
Qed.

(** New data for a slot, and a new slot. *)
Lemma dirty_slot t1 e t2 k d :
  NoDup (dirty_sectors (t1 ++ e :: t2)) -> e_dirty e = true -> e_sector e = k ->
  dirty_sectors (t1 ++ mkEntry k true d :: t2) = dirty_sectors (t1 ++ e :: t2) /\
  forall k', dirty_data (t1 ++ mkEntry k true d :: t2) k' = if k =? k' then Some d else dirty_data (t1 ++ e :: t2) k'.
Proof.
  intros Hnd Hd Hk. destruct (dirty_unique t1 e t2 k Hnd Hd Hk) as (H1' & H2' & H3').
  rewrite !dirty_sectors_app, !dirty_sectors_cons, Hd, Hk. split; [done|].
  intros k'. rewrite !dirty_data_app. cbn [dirty_data]. unfold is_dirty. cbn [e_dirty e_sector e_data].
  rewrite Hd, Hk. cbn [andb]. destruct (Z.eqb_spec k k') as [<-|Hne]; [by rewrite H1'|done].
Qed.
Lemma new_slot t k d :
  NoDup (dirty_sectors t) -> dirty_data t k = None ->
  NoDup (dirty_sectors (t ++ [mkEntry k true d])) /\
  forall k', dirty_data (t ++ [mkEntry k true d]) k' = if k =? k' then Some d else dirty_data t k'.
Proof.
  intros Hnd Hn. rewrite dirty_sectors_app. cbn. split.
  - apply NoDup_app. split; [done|]. split; [|by repeat constructor; apply not_elem_of_nil].
    intros x Hx Hx'. apply list_elem_of_singleton in Hx' as ->. by apply dirty_data_none in Hn.
  - intros k'. rewrite dirty_data_app. cbn. unfold is_dirty. cbn. destruct (Z.eqb_spec k k') as [<-|]; [by rewrite Hn|].
    by destruct (dirty_data t k').
Qed.

(** *** The client's state *)

Definition window_ok (nb : Z) (w : Window) : Prop :=
  exists d, w_data w = Some d /\ alen d <= NETBLK_READ_CACHE_SECTORS * SECTOR_SIZE /\ 0 <= w_sector w /\
    0 <= w_sectors w <= NETBLK_READ_CACHE_SECTORS /\ w_sectors w * SECTOR_SIZE <= alen d /\
    w_sector w + w_sectors w <= nb.
Definition entry_ok (nb : Z) (e : Entry) : Prop := 0 <= e_sector e < nb /\ alen (e_data e) = SECTOR_SIZE.

Definition buffer c : list Z := default [] (write_buffer c).

Record mem_ok c : Prop := {
  mo_max : 1 <= max_sectors c <= NETBLK_MAX_SECTORS;
  mo_prefetch : 1 <= prefetch_sectors c <= NETBLK_READ_CACHE_SECTORS /\ prefetch_sectors c <= max_sectors c;
  mo_nb : 0 < capacity c < 2 ^ 64;
  mo_windows : alen (windows c) = NETBLK_READ_CACHE_WINDOWS /\ Forall (window_ok (capacity c)) (windows c);
  mo_next : 0 <= read_cache_next c < NETBLK_READ_CACHE_WINDOWS;
  mo_buffer : write_buffer c = Some (buffer c) /\
    write_sectors c * SECTOR_SIZE <= alen (buffer c) <= NETBLK_WRITE_BUFFER_SECTORS * SECTOR_SIZE;
  mo_ws : 0 <= write_sectors c <= NETBLK_WRITE_BUFFER_SECTORS /\ 0 <= write_sector c /\
    write_sector c + write_sectors c <= capacity c;
  mo_table : alen (table c) <= NETBLK_WRITEBACK_SECTORS /\ Forall (entry_ok (capacity c)) (table c) /\
    NoDup (dirty_sectors (table c));
  mo_enabled : is_Some (writeback c) -> writeback_enabled c = true;
}.

(** What draining the writes leaves alone. *)
Definition fixed c : bool * bool * Z * Z * Z * list Window * Z * bool :=
  (read_only c, writable c, max_sectors c, prefetch_sectors c, nb_sectors c, windows c, read_cache_next c,
   writeback_enabled c).
Definition frame c c' : Prop := fixed c' = fixed c.

Lemma frame_trans c1 c2 c3 : frame c1 c2 -> frame c2 c3 -> frame c1 c3.
Proof. unfold frame. congruence. Qed.
Lemma frame_nb c c' : frame c c' -> capacity c' = capacity c.
Proof. unfold frame, fixed, capacity. intros [=]. congruence. Qed.
Lemma frame_enabled c c' : frame c c' -> writeback_enabled c' = writeback_enabled c.
Proof. unfold frame, fixed. by intros [=]. Qed.

Lemma touched_mem c c' : touched c c' -> mem_ok c -> mem_ok c'.
Proof. intros (so & w & ->) Hm. destruct Hm. by constructor. Qed.
Lemma touched_frame c c' : touched c c' -> frame c c'.
Proof. by intros (so & w & ->). Qed.

(** The sectors the server does not have yet. *)
Definition pending c (k : Z) : option (list Z) :=
  match dirty_data (table c) k with
  | Some d => Some d
  | None => if (write_sector c <=? k) && (k <? write_sector c + write_sectors c)
            then Some (sec (buffer c) (k - write_sector c)) else None
  end.

(** The client and the server together are the disk [V]. *)
Definition live c (V : Z -> list Z) : Prop :=
  capacity c = Server.sector_count st /\ max_sectors c <= Server.max_sectors (Server.cfg st) /\
  exists D, served D c /\ forall k, 0 <= k < capacity c -> V k = default (sec D k) (pending c k).

Lemma capacity_server c : nb_sectors c = Server.sector_count st -> capacity c = Server.sector_count st.
Proof. intros Hn. unfold capacity. rewrite Hn. apply u64_id. destruct Hsize. unfold inw, SECTOR_SIZE in *. lia. Qed.
Lemma capacity_ext c c' : nb_sectors c' = nb_sectors c -> capacity c' = capacity c.
Proof. unfold capacity. congruence. Qed.

(** The fields [pending] reads. *)
Definition pend_fields c : list Entry * Z * Z * list Z := (table c, write_sector c, write_sectors c, buffer c).
Lemma pending_ext c c' k : pend_fields c' = pend_fields c -> pending c' k = pending c k.
Proof. unfold pend_fields, pending. intros [= -> -> -> ->]. done. Qed.
Lemma touched_pending c c' k : touched c c' -> pending c' k = pending c k.
Proof. by intros (so & w & ->). Qed.

Lemma frame_max c c' : frame c c' -> max_sectors c' = max_sectors c.
Proof. unfold frame, fixed. by intros [=]. Qed.

(** A server write moves sectors from the pending ones to the disk. *)
Lemma live_after_write c c1 c' V l n b :
  live c V -> mem_ok c -> frame c c' ->
  (forall D, served D c -> served (splice D (l * SECTOR_SIZE) b) c') ->
  0 <= l -> 0 <= n -> l + n <= capacity c -> alen b = n * SECTOR_SIZE ->
  (forall k, 0 <= k < capacity c ->
     (pending c1 k = pending c k /\ (pending c k = None -> (l <=? k) && (k <? l + n) = false)) \/
     ((l <=? k) && (k <? l + n) = true /\ pending c k = Some (sec b (k - l)) /\ pending c1 k = None)) ->
  (forall k, pending c' k = pending c1 k) ->
  live c' V.
Proof.
  intros (Hnb & Hmx & D & Hs & HV) Hm Hf Hsv Hl Hn Hln Hb Hp He.
  split; [by rewrite (frame_nb c c' Hf)|]. split; [by rewrite (frame_max c c' Hf)|].
  exists (splice D (l * SECTOR_SIZE) b). split; [by apply Hsv|]. rewrite (frame_nb c c' Hf).
  intros k Hk. rewrite (HV k Hk), He. destruct Hs as [_ HD].
  rewrite (sec_splice D l n b k) by (done || (unfold SECTOR_SIZE in *; lia)).
  destruct (Hp k Hk) as [[-> Hnone]|(-> & -> & ->)]; [|done].
  destruct (pending c k) as [d|]; [done|]. by rewrite Hnone.
Qed.

(** *** Flushing the write buffer *)

Definition flushed c c' : Prop :=
  mem_ok c' /\ frame c c' /\ (is_Some (writeback c') <-> is_Some (writeback c)).

Lemma flush_writes_spec c :
  mem_ok c ->
  run_to (netblk_flush_writes profile) c (fun rc c' => flushed c c' /\ writeback c' = writeback c /\
    rc_ok rc /\ (rc = SUCCESS -> write_sectors c' = 0) /\
    forall V, live c V -> rc = SUCCESS /\ live c' V).
Proof.
  intros Hm. unfold netblk_flush_writes. destruct (Z.eqb_spec (write_sectors c) 0) as [E|E].
  { exists SUCCESS, c. split; [by rewrite E|]. split; [done|]. split; [done|]. split; [by left|]. done. }
  destruct (mo_buffer c Hm) as [Eb Hbl]. destruct (mo_ws c Hm) as (Hws & Hs0 & Hsn).
  unfold SECTOR_SIZE, NETBLK_WRITE_BUFFER_SECTORS in *.
  set (b := slice (buffer c) 0 (write_sectors c * 512)).
  assert (Hb : alen b = write_sectors c * 512) by (apply Server.slice_length; lia).
  eapply run_as; [cbv beta; rewrite (proj2 (Z.eqb_neq _ _) E); reflexivity|].
  apply (run_lift_then _ b).
  { rewrite Eb. apply buf_read_in; lia. }
  eapply run_bind; [apply request_write_spec|]. intros rc c1 (Ht & Hrc & Hw).
  assert (Hfl : flushed c c1) by (split; [by eapply touched_mem|]; split; [by apply touched_frame|];
    by destruct Ht as (? & ? & ->)).
  assert (Hwb : writeback c1 = writeback c) by (by destruct Ht as (? & ? & ->)).
  destruct (rc_cases rc Hrc) as [[-> _]|[-> _]].
  2:{ cbn [Z.eqb FAILURE]. apply run_ret_then, run_ret. split; [done|]. split; [done|]. split; [by right|]. split; [done|].
      intros V (Hnb & Hmx & D & Hs & _). unfold SECTOR_SIZE in Hw.
      destruct (Hw D Hs); [lia|lia|lia|exact Hb|done]. }
  change (SUCCESS =? 0) with true. cbv iota. apply run_modify_then, run_ret.
  assert (Hfl2 : flushed c (c1 <| write_sectors := 0 |>)).
  { destruct Hfl as (Hm1 & Hf1 & Hi1). split; [|by split]. pose proof (Server.alen_nonneg (buffer c1)).
    destruct Hm1 as [? ? ? ? ? [? ?] (? & ? & ?) ? ?]. constructor; try done.
    - change (buffer (c1 <| write_sectors := 0 |>)) with (buffer c1). split; [done|].
      change (write_sectors (c1 <| write_sectors := 0 |>)) with 0. lia.
    - cbn. unfold NETBLK_WRITE_BUFFER_SECTORS. change (capacity (c1 <| write_sectors := 0 |>)) with (capacity c1); lia. }
  split; [done|]. split; [done|]. split; [by left|]. split; [done|].
  intros V Hlv. split; [done|]. pose proof Hlv as (Hnb & _).
  apply (live_after_write c (c <| write_sectors := 0 |>) _ V (write_sector c) (write_sectors c) b Hlv Hm);
    [apply Hfl2| |lia|lia|lia|exact Hb| |].
  - intros D Hs. unfold SECTOR_SIZE in Hw. destruct (Hw D Hs) as [_ Hs1]; [lia|lia|lia|exact Hb|]. exact Hs1.
  - intros k Hk. unfold pending.
    change (table (c <| write_sectors := 0 |>)) with (table c).
    change (write_sector (c <| write_sectors := 0 |>)) with (write_sector c).
    change (write_sectors (c <| write_sectors := 0 |>)) with 0.
    destruct (dirty_data (table c) k) as [d|]; [by left|].
    destruct (Z.leb_spec (write_sector c) k); cbn [andb]; [|by left].
    destruct (Z.ltb_spec k (write_sector c + 0)); [lia|].
    destruct (Z.ltb_spec k (write_sector c + write_sectors c)); [right|by left].
    split; [done|]. split; [|done]. f_equal. unfold b. symmetry.
    apply (sec_slice (buffer c) 0 (write_sectors c)); lia.
  - intros k. apply pending_ext. by destruct Ht as (? & ? & ->).
Qed.

(** *** Draining the table *)

Definition ndirty c : nat := length (dirty_sectors (table c)).

(** A run of dirty sectors, from [sector + run] to [sector + run'], moved from
    the table of [c] to the buffer of [c']. *)
Record gathered (sector run : Z) c (run' : Z) c' : Prop := {
  ga_mem : mem_ok c';
  ga_frame : frame c c';
  ga_fd : fd c' = fd c;
  ga_wb : is_Some (writeback c');
  ga_ws : write_sectors c' = 0 /\ write_sector c' = write_sector c;
  ga_run : run <= run' <= NETBLK_WRITE_BUFFER_SECTORS;
  ga_len : run' * SECTOR_SIZE <= alen (buffer c');
  ga_old : forall j, 0 <= j < run -> sec (buffer c') j = sec (buffer c) j;
  ga_new : forall j, run <= j < run' -> dirty_data (table c) (sector + j) = Some (sec (buffer c') j);
  ga_data : forall k, dirty_data (table c') k =
    if (sector + run <=? k) && (k <? sector + run') then None else dirty_data (table c) k;
  ga_end : sector + run' <= capacity c;
  ga_dirty : Z.of_nat (ndirty c') + (run' - run) = Z.of_nat (ndirty c);
}.

Lemma gather_spec room sector run c :
  mem_ok c -> is_Some (writeback c) -> write_sectors c = 0 -> 0 <= run -> run + Z.of_nat room = NETBLK_WRITE_BUFFER_SECTORS ->
  0 <= sector -> sector + run <= capacity c -> run * SECTOR_SIZE <= alen (buffer c) ->
  run_to (gather room sector run) c (fun run' c' => gathered sector run c run' c' /\
    ((0 < room)%nat -> dirty_data (table c) (sector + run) <> None -> run < run')).
Proof.
  revert run c. induction room as [|room IH]; intros run c Hm Hwb Hws Hrun Hroom Hs Hnb Hlen.
  { apply run_ret. split; [|lia]. constructor; try done; try lia.
    intros k. destruct (Z.leb_spec (sector + run) k), (Z.ltb_spec k (sector + run)); try lia; done. }
  cbn [gather]. unfold netblk_writeback_find. pose proof (mo_nb c Hm) as Hnb63. pose proof (mo_table c Hm) as (Ht1 & Ht2 & Ht3).
  assert (Eu : u64 (sector + run) = sector + run) by (apply u64_id; unfold inw; lia).
  destruct (find_dirty (table c) (sector + run)) as [[Ef En]|(j & e & t1 & t2 & Ef & Hj & Er & Et & Hd & Hk & Hw)].
  { exists run, c. rewrite Eu, Ef. split; [done|]. split; [|by rewrite En]. constructor; try done; try lia.
    intros k. destruct (Z.leb_spec (sector + run) k), (Z.ltb_spec k (sector + run)); try lia; done. }
  eapply run_as; [cbv beta; rewrite Eu, Ef; destruct (Z.ltb_spec j 0); [lia|reflexivity]|].
  apply (run_lift_then _ e); [exact Er|]. destruct (mo_buffer c Hm) as [Eb [_ Hcap]].
  rewrite Et in Ht2, Ht3. destruct (clean_slot t1 e t2 (sector + run) Ht3 Hd Hk) as (Hnd & Hcnt & Hde & Hdk).
  apply Forall_app in Ht2 as [Hf1 Hf2]. apply Forall_cons in Hf2 as [[Her Hed] Hf2].
  unfold SECTOR_SIZE, NETBLK_WRITE_BUFFER_SECTORS in *.
  set (b' := splice (buffer c) (run * 512) (e_data e)).
  apply (run_lift_then _ b'); [rewrite Eb; apply buf_write_in; lia|].
  apply (run_lift_then _ (t1 ++ clean e :: t2)); [apply Hw|]. apply run_modify_then.
  set (c1 := c <| write_buffer := Some b' |> <| writeback := Some (t1 ++ clean e :: t2) |>).
  assert (Hb' : alen b' = Z.max (alen (buffer c)) (run * 512 + 512))
    by (unfold b'; rewrite splice_alen by lia; by rewrite Hed).
  assert (Htab : alen (t1 ++ clean e :: t2) = alen (table c)).
  { rewrite Et. unfold alen. rewrite !length_app. cbn. done. }
  assert (Hm1 : mem_ok c1).
  { destruct Hm as [? ? ? ? ? ? (? & ? & ?) ? He]. constructor; try done.
    - change (buffer c1) with b'. change (write_sectors c1) with (write_sectors c). split; [done|].
      unfold SECTOR_SIZE, NETBLK_WRITE_BUFFER_SECTORS. lia.
    - change (table c1) with (t1 ++ clean e :: t2). rewrite Htab. split; [done|]. split; [|done].
      apply Forall_app. split; [done|]. by constructor.
    - intros _. by apply He. }
  eapply run_mono; [apply (IH (run + 1) c1 Hm1)|]; try done; try lia.
  { change (capacity c1) with (capacity c). lia. }
  { change (buffer c1) with b'. lia. }
  intros run' c' [[G1 G2 G3 G4 G5 G6 G7 G8 G9 G10 G11 G12] _]. change (buffer c1) with b' in G8.
  change (table c1) with (t1 ++ clean e :: t2) in G9, G10. unfold SECTOR_SIZE, NETBLK_WRITE_BUFFER_SECTORS in *.
  assert (Hsec : forall j, 0 <= j < run + 1 -> sec b' j = if j =? run then e_data e else sec (buffer c) j).
  { intros i Hi. unfold sec, b', SECTOR_SIZE. destruct (Z.eqb_spec i run) as [->|].
    - rewrite slice_splice_in by lia. rewrite Z.sub_diag, <- Hed. apply Server.slice_all.
    - apply slice_splice_before; lia. }
  split; [|lia]. constructor; try done; try lia.
  - unfold NETBLK_WRITE_BUFFER_SECTORS. lia.
  - intros i Hi. rewrite G8, Hsec by lia. by destruct (Z.eqb_spec i run); [lia|].
  - intros i Hi. destruct (Z.eq_dec i run) as [->|].
    + rewrite Et, Hde. rewrite G8, Hsec by lia. by rewrite Z.eqb_refl.
    + rewrite <- G9 by lia. rewrite Et, Hdk. by destruct (Z.eqb_spec (sector + run) (sector + i)); [lia|].
  - intros k. rewrite G10, Hdk, Et.
    destruct (Z.leb_spec (sector + (run + 1)) k), (Z.ltb_spec k (sector + run')), (Z.leb_spec (sector + run) k),
      (Z.eqb_spec (sector + run) k); cbn [andb]; try lia; done.
  - unfold ndirty in *. change (table c1) with (t1 ++ clean e :: t2) in G12. rewrite Et, Hcnt. lia.
Qed.

Lemma lowest_dirty_spec l i best bi :
  0 <= i ->
  let '(b, idx) := lowest_dirty l i best bi in
  ((b, idx) = (best, bi) /\ forall e, e ∈ l -> e_dirty e = true -> best <= e_sector e) \/
  (0 <= idx /\ exists e, e ∈ l /\ e_dirty e = true /\ e_sector e = b).
Proof.
  revert i best bi. induction l as [|e l IH]; intros i best bi Hi; cbn [lowest_dirty].
  { left. split; [done|]. intros e He. by apply elem_of_nil in He. }
  destruct (e_dirty e && (e_sector e <? best)) eqn:E.
  - apply andb_true_iff in E as [Ed Es]. apply Z.ltb_lt in Es.
    specialize (IH (i + 1) (e_sector e) i ltac:(lia)). destruct (lowest_dirty l (i + 1) (e_sector e) i) as [b idx].
    destruct IH as [[[= -> ->] _]|(Hx & e' & He' & ?)]; right; (split; [lia|]).
    + exists e. split; [apply list_elem_of_here|done].
    + exists e'. split; [by apply list_elem_of_further|done].
  - specialize (IH (i + 1) best bi ltac:(lia)). destruct (lowest_dirty l (i + 1) best bi) as [b idx].
    destruct IH as [[Heq Hall]|(Hx & e' & He' & ?)]; [left|right]; (split; [done|]).
    + intros x Hx Hd. apply elem_of_cons in Hx as [->|Hx]; [|by apply Hall].
      rewrite Hd in E. apply Z.ltb_ge in E. done.
    + exists e'. split; [by apply list_elem_of_further|done].
Qed.

Definition drained c (rc : Z) c' : Prop :=
  flushed c c' /\ rc_ok rc /\ (rc = SUCCESS -> write_sectors c' = 0 /\ table c' = []) /\
  forall V, live c V -> rc = SUCCESS /\ live c' V.

Lemma flushed_trans c1 c2 c3 : flushed c1 c2 -> flushed c2 c3 -> flushed c1 c3.
Proof. intros (? & ? & ?) (? & ? & ?). split; [done|]. split; [by eapply frame_trans|naive_solver]. Qed.

Lemma elem_dirty e t : e ∈ t -> e_dirty e = true -> e_sector e ∈ dirty_sectors t.
Proof.
  intros He Hd. apply list_elem_of_split in He as (l1 & l2 & ->).
  rewrite dirty_sectors_app, dirty_sectors_cons, Hd. apply elem_of_app. right. apply list_elem_of_here.
Qed.

(** A table with no dirty slot is as good as empty. *)
Lemma empty_table c :
  mem_ok c -> is_Some (writeback c) -> dirty_sectors (table c) = [] ->
  flushed c (c <| writeback := Some [] |>) /\ forall V, live c V -> live (c <| writeback := Some [] |>) V.
Proof.
  intros Hm Hwb Hd. split.
  - split; [|split; [done|by split]]. destruct Hm as [? ? ? ? ? ? ? ? He]. constructor; try done.
    + cbn. split; [done|]. split; [done|]. apply NoDup_nil_2.
    + intros _. by apply He.
  - intros V (Hnb & Hmx & D & Hs & HV). split; [done|]. split; [done|]. exists D. split; [done|].
    intros k Hk. rewrite (HV k Hk). f_equal. unfold pending.
    change (table (c <| writeback := Some [] |>)) with (@nil Entry). cbn [dirty_data].
    by rewrite (proj2 (dirty_data_none (table c) k)) by (rewrite Hd; by apply not_elem_of_nil).
Qed.

(** One run of the table goes to the server. *)
Lemma drain_run_live c c1 c2 V sector run :
  live c V -> mem_ok c -> write_sectors c = 0 -> 0 <= sector -> gathered sector 0 c run c1 -> 0 < run ->
  frame c c2 -> (forall k, pending c2 k = pending c1 k) ->
  (forall D, served D c1 -> served (splice D (sector * SECTOR_SIZE) (slice (buffer c1) 0 (run * SECTOR_SIZE))) c2) ->
  live c2 V.
Proof.
  intros Hlv Hm Hws Hs [G1 G2 G3 _ [G5 _] G6 G7 G8 G9 G10 G11 G12] Hr Hf Hp Hsv.
  apply (live_after_write c c1 c2 V sector run (slice (buffer c1) 0 (run * SECTOR_SIZE))); try done; try lia.
  - intros D [Hd HD]. apply Hsv. split; [by rewrite G3|done].
  - unfold SECTOR_SIZE in *. apply Server.slice_length; lia.
  - intros k Hk. unfold pending. rewrite G10, G5, Hws, !Z.add_0_r. rewrite Z.add_0_r in G10.
    destruct ((sector <=? k) && (k <? sector + run)) eqn:E.
    + right. apply andb_true_iff in E as [E1 E2]. apply Z.leb_le in E1. apply Z.ltb_lt in E2.
      split; [done|]. replace k with (sector + (k - sector)) at 1 by lia. rewrite G9 by lia.
      split; [f_equal; symmetry; apply (sec_slice (buffer c1) 0 run); lia|].
      destruct (Z.leb_spec (write_sector c1) k), (Z.ltb_spec k (write_sector c1)); try lia; done.
    + left. split; [|done]. destruct (dirty_data (table c) k) as [d|]; [done|].
      destruct (Z.leb_spec (write_sector c1) k), (Z.ltb_spec k (write_sector c1)); try lia;
      destruct (Z.leb_spec (write_sector c) k), (Z.ltb_spec k (write_sector c)); try lia; done.
Qed.

Lemma drain_loop_spec fuel c :
  mem_ok c -> write_sectors c = 0 -> is_Some (writeback c) -> (ndirty c < fuel)%nat ->
  run_to (drain_loop profile fuel) c (drained c).
Proof.
  revert c. induction fuel as [|fuel IH]; intros c Hm Hws Hwb Hf; [lia|]. cbn [drain_loop].
  pose proof (lowest_dirty_spec (table c) 0 UINT64_MAX (-1) ltac:(lia)) as Hlow.
  destruct (lowest_dirty (table c) 0 UINT64_MAX (-1)) as [best idx] eqn:El.
  pose proof (mo_table c Hm) as (_ & Hent & _). rewrite Forall_forall in Hent. pose proof (mo_nb c Hm) as Hnb.
  destruct Hlow as [[[= -> ->] Hall]|(Hidx & e & He & Hd & Hk)].
  { assert (Hnil : dirty_sectors (table c) = []).
    { unfold dirty_sectors. destruct (List.filter e_dirty (table c)) as [|x l] eqn:Ef; [done|exfalso].
      assert (Hx : In x (List.filter e_dirty (table c))) by (rewrite Ef; by left).
      apply filter_In in Hx as [Hx Hdx]. apply list_elem_of_In in Hx.
      pose proof (Hall x Hx Hdx). destruct (Hent x Hx). unfold UINT64_MAX in *. lia. }
    exists SUCCESS, (c <| writeback := Some [] |>). rewrite El. split; [done|].
    destruct (empty_table c Hm Hwb Hnil) as [Hfl Hlv]. split; [done|]. split; [by left|]. split; [done|]. auto. }
  eapply run_as; [cbv beta; rewrite El; destruct (Z.ltb_spec idx 0); [lia|];
    rewrite (proj1 (mo_buffer c Hm)), bool_decide_false by done; reflexivity|].
  destruct (Hent e He) as [Hrange _]. rewrite Hk in Hrange.
  eapply run_bind; [apply (gather_spec (Z.to_nat NETBLK_WRITE_BUFFER_SECTORS) best 0 c)|]; try done; try lia.
  { pose proof (Server.alen_nonneg (buffer c)). lia. }
  intros run c1 [Hg Hpos]. assert (Hrun : 0 < run).
  { apply Hpos; [unfold NETBLK_WRITE_BUFFER_SECTORS; lia|]. rewrite Z.add_0_r, dirty_data_none.
    intros Hn. apply Hn. rewrite <- Hk. by apply elem_dirty. }
  destruct (Z.leb_spec run 0); [lia|]. pose proof Hg as [G1 G2 _ G4 [G5 _] G6 G7 _ _ _ G11 G12].
  apply run_gets_then. apply (run_lift_then _ (slice (buffer c1) 0 (run * SECTOR_SIZE))).
  { apply buf_read_in; [done|]. exact G7. }
  eapply run_bind; [apply request_write_spec|]. intros rc c2 (Ht & Hrc & Hreq).
  assert (Hm2 : mem_ok c2) by (by eapply touched_mem).
  assert (Hf2 : frame c c2) by (eapply frame_trans; [exact G2|by apply touched_frame]).
  assert (Hwb2 : is_Some (writeback c2) /\ write_sectors c2 = 0 /\ ndirty c2 = ndirty c1 /\
    forall k, pending c2 k = pending c1 k) by (by destruct Ht as (? & ? & ->)).
  destruct Hwb2 as (Hwb2 & Hws2 & Hnd2 & Hp2).
  assert (Hfl2 : flushed c c2) by (split; [done|]; split; [done|]; done).
  assert (Hlive : forall V, live c V -> rc = SUCCESS /\ live c2 V).
  { intros V Hlv. pose proof Hlv as (Hnbs & _ & D0 & [Hd0 HD0] & _).
    assert (Hlen : alen (slice (buffer c1) 0 (run * SECTOR_SIZE)) = run * SECTOR_SIZE)
      by (unfold SECTOR_SIZE in *; apply Server.slice_length; lia).
    assert (Hr : forall D, served D c1 -> rc = SUCCESS /\
      served (splice D (best * SECTOR_SIZE) (slice (buffer c1) 0 (run * SECTOR_SIZE))) c2).
    { intros D' Hs. apply Hreq; [done|lia|unfold NETBLK_WRITE_BUFFER_SECTORS in *; lia|lia|done]. }
    split; [apply (Hr D0); split; [by rewrite (ga_fd _ _ _ _ _ Hg)|done]|].
    apply (drain_run_live c c1 c2 V best run); try done; [lia|]. intros D' Hs. by apply Hr. }
  destruct (rc_cases rc Hrc) as [[-> Eb]|[-> Eb]]; rewrite Eb; clear Eb.
  2:{ apply run_ret. split; [done|]. split; [by right|]. split; [done|]. intros V Hlv.
      by destruct (Hlive V Hlv). }
  apply run_modify_then. set (c3 := c2 <| writeback_flushes := _ |>).
  assert (Hm3 : mem_ok c3) by (destruct Hm2; by constructor).
  eapply run_mono; [apply (IH c3 Hm3)|]; try done.
  { change (ndirty c3) with (ndirty c2). lia. }
  intros rc' c' (Hfl & Hrc' & Hz & Hlv'). split; [apply (flushed_trans c c3); [|done]|].
  { destruct Hfl2 as (_ & ? & ?). by split. }
  split; [done|]. split; [done|]. intros V Hlv. apply Hlv'. destruct (Hlive V Hlv) as [_ H3]. exact H3.
Qed.

Lemma drain_writes_spec c : mem_ok c -> run_to (netblk_drain_writes profile) c (drained c).
Proof.
  intros Hm. unfold netblk_drain_writes.
  assert (Hflush : table c = [] -> run_to (netblk_flush_writes profile) c (drained c)).
  { intros Ht. eapply run_mono; [by apply flush_writes_spec|]. intros rc c' (Hfl & Hwb & Hrc & Hz & Hlv).
    split; [done|]. split; [done|]. split; [|done]. intros Hok. split; [by apply Hz|]. unfold table in *. by rewrite Hwb. }
  destruct (writeback c) as [t|] eqn:Ewb.
  2:{ eapply run_as; [cbv beta; rewrite Ewb; reflexivity|]. apply Hflush. unfold table. by rewrite Ewb. }
  destruct t as [|e t]; [eapply run_as; [cbv beta; rewrite Ewb; reflexivity|]; apply Hflush; unfold table; by rewrite Ewb|].
  eapply run_as; [cbv beta; rewrite Ewb; reflexivity|].
  eapply run_bind; [by apply flush_writes_spec|]. intros rc c1 (Hfl & Hwb & Hrc & Hz & Hlv).
  destruct (rc_cases rc Hrc) as [[-> Eb]|[-> Eb]]; rewrite Eb; clear Eb.
  2:{ apply run_ret. split; [done|]. split; [by right|]. split; [done|]. intros V HV. by destruct (Hlv V HV). }
  eapply run_mono; [apply drain_loop_spec|].
  - apply Hfl.
  - by apply Hz.
  - rewrite Hwb, Ewb. by eexists.
  - unfold ndirty, table. rewrite Hwb, Ewb. change (default [] (Some (e :: t))) with (e :: t). unfold dirty_sectors. rewrite length_fmap.
    pose proof (List.filter_length_le e_dirty (e :: t)). lia.
  - intros rc' c' (Hfl' & Hrc' & Hz' & Hlv'). split; [by eapply flushed_trans|]. split; [done|]. split; [done|].
    intros V HV. apply Hlv'. by apply Hlv.
Qed.

(** *** Storing writes *)

(** The disk [V] with sectors [l ..] replaced by the [n] sectors of [b]. *)
Definition vwrite (V : Z -> list Z) (l n : Z) (b : list Z) (k : Z) : list Z :=
  if (l <=? k) && (k <? l + n) then sec b (k - l) else V k.

Lemma live_ext c V V' : (forall k, 0 <= k < capacity c -> V k = V' k) -> live c V -> live c V'.
Proof.
  intros HV (H1' & H2' & D & Hs & Hk). split; [done|]. split; [done|]. exists D. split; [done|].
  intros k Hkk. rewrite <- HV by done. by apply Hk.
Qed.

(** Live after a change of the pending sectors that the server does not see. *)
Lemma live_local c c' V V' :
  live c V -> fd c' = fd c -> capacity c' = capacity c -> max_sectors c' = max_sectors c ->
  (forall k, 0 <= k < capacity c ->
     (pending c' k = Some (V' k)) \/ (pending c' k = pending c k /\ V' k = V k)) ->
  live c' V'.
Proof.
  intros (Hnb & Hmx & D & [Hd HD] & HV) Hfd En Em Hp. split; [congruence|]. split; [congruence|].
  exists D. split; [by split; [rewrite Hfd|]|]. rewrite En. intros k Hk.
  destruct (Hp k Hk) as [-> |[-> ->]]; [done|]. by apply HV.
Qed.

(** The table with sector [k] set to [d]. *)
Definition table_set c (t : list Entry) (k : Z) (d : list Z) : Prop :=
  NoDup (dirty_sectors t) /\ Forall (entry_ok (capacity c)) t /\
  forall k', dirty_data t k' = if k =? k' then Some d else dirty_data (table c) k'.

Lemma set_table_spec c t k d :
  mem_ok c -> is_Some (writeback c) -> alen t <= NETBLK_WRITEBACK_SECTORS -> table_set c t k d -> alen d = SECTOR_SIZE ->
  let c' := c <| writeback := Some t |> in
  flushed c c' /\ forall V, live c V -> live c' (vwrite V k 1 d).
Proof.
  intros Hm Hwb Hl (Hnd & Hok & Hd) Hdl c'. split.
  - split; [|split; [done|by split]]. destruct Hm as [? ? ? ? ? ? ? ? He]. constructor; try done.
    intros _. by apply He.
  - intros V Hlv. apply (live_local c c' V); try done. intros k' Hk'. unfold pending, vwrite.
    change (table c') with t. rewrite Hd.
    destruct (Z.eqb_spec k k') as [<-|Hne]; [left|right].
    + destruct (Z.leb_spec k k), (Z.ltb_spec k (k + 1)); try lia. cbn [andb].
      rewrite Z.sub_diag. unfold sec. rewrite Z.mul_0_l, <- Hdl, Server.slice_all. done.
    + destruct (Z.leb_spec k k'), (Z.ltb_spec k' (k + 1)); try lia; done.
Qed.

Lemma store_slot_spec c sector data :
  mem_ok c -> is_Some (writeback c) -> 0 <= sector < capacity c -> alen data = SECTOR_SIZE ->
  run_to (store_slot profile sector data) c (fun rc c' => flushed c c' /\ rc_ok rc /\
    forall V, live c V -> rc = SUCCESS /\ live c' (vwrite V sector 1 data)).
Proof.
  intros Hm Hwb Hs Hd. unfold store_slot, netblk_writeback_find.
  pose proof (mo_table c Hm) as (Ht1 & Ht2 & Ht3).
  destruct (find_dirty (table c) sector) as [[Ef En]|(j & e & t1 & t2 & Ef & Hj & Er & Et & Hdi & Hk & Hw)].
  - eapply run_as; [cbv beta; rewrite Ef; reflexivity|].
    assert (Hnew : forall c1 (Hfl : flushed c c1), alen (table c1) < NETBLK_WRITEBACK_SECTORS ->
      dirty_data (table c1) sector = None ->
      let c' := c1 <| writeback := Some (table c1 ++ [mkEntry sector true data]) |> in
      flushed c1 c' /\ forall V, live c1 V -> live c' (vwrite V sector 1 data)).
    { intros c1 (Hm1 & Hf1 & Hi1) Hl Hn. destruct (mo_table c1 Hm1) as (_ & Hok & Hnd).
      destruct (new_slot (table c1) sector data Hnd Hn) as [Hnd' Hdata].
      apply set_table_spec; [done|by apply Hi1|unfold alen in *; rewrite length_app; cbn; lia| |done].
      split; [done|]. split; [|done]. apply Forall_app. split; [done|].
      constructor; [|constructor]. split; [|done]. cbn. by rewrite (frame_nb c c1 Hf1). }
    assert (Hput : forall c1, flushed c c1 -> alen (table c1) < NETBLK_WRITEBACK_SECTORS ->
      dirty_data (table c1) sector = None -> (forall V, live c V -> live c1 V) ->
      run_to (t ← gets table;
              if NETBLK_WRITEBACK_SECTORS <=? alen t then stuck OutOfBounds else
              _ ← modify (fun c => c <| writeback := Some (t ++ [mkEntry sector true data]) |>);
              mret SUCCESS) c1 (fun rc c' => flushed c c' /\ rc_ok rc /\
        forall V, live c V -> rc = SUCCESS /\ live c' (vwrite V sector 1 data))).
    { intros c1 Hfl Hl Hn Hlv. apply run_gets_then.
      destruct (Z.leb_spec NETBLK_WRITEBACK_SECTORS (alen (table c1))); [lia|].
      apply run_modify_then, run_ret. destruct (Hnew c1 Hfl Hl Hn) as [Hfl' Hlv'].
      split; [by eapply flushed_trans|]. split; [by left|]. auto. }
    destruct (Z.leb_spec NETBLK_WRITEBACK_SECTORS (alen (table c))).
    + eapply run_bind; [by apply drain_writes_spec|]. intros rc c1 (Hfl & Hrc & Hz & Hlv).
      destruct (rc_cases rc Hrc) as [[-> Eb]|[-> Eb]]; rewrite Eb; clear Eb.
      * destruct (Hz eq_refl) as [_ Htz]. apply Hput; [done|by rewrite Htz|by rewrite Htz|].
        intros V HV. by apply Hlv.
      * apply run_ret. split; [done|]. split; [by right|]. intros V HV. by destruct (Hlv V HV).
    + apply run_ret_then. apply Hput; [|lia|done|auto]. split; [done|]. by split.
  - eapply run_as; [cbv beta; rewrite Ef; destruct (Z.leb_spec 0 j); [reflexivity|lia]|].
    apply (run_lift_then _ (t1 ++ mkEntry sector true data :: t2)); [apply Hw|].
    apply run_modify_then, run_ret.
    rewrite Et in Ht1, Ht2, Ht3. destruct (dirty_slot t1 e t2 sector data Ht3 Hdi Hk) as [Hds Hdata].
    destruct (set_table_spec c (t1 ++ mkEntry sector true data :: t2) sector data Hm Hwb) as [Hfl Hlv];
      [unfold alen in *; rewrite length_app in *; cbn in *; lia| |done|].
    + split; [by rewrite Hds|]. rewrite Et. split; [|done]. apply Forall_app in Ht2 as [? Ht2].
      apply Forall_cons in Ht2 as [? ?]. apply Forall_app. split; [done|]. by constructor.
    + split; [done|]. split; [by left|]. auto.
Qed.

Lemma store_loop_spec todo c l buf s :
  mem_ok c -> is_Some (writeback c) -> 0 <= l -> 0 <= s -> l + s + Z.of_nat todo <= capacity c ->
  (s + Z.of_nat todo) * SECTOR_SIZE <= alen buf ->
  run_to (store_loop profile todo l buf s) c (fun rc c' => flushed c c' /\ (rc = 1 \/ rc = FAILURE) /\
    forall V, live c V -> rc = 1 /\
      live c' (fun k => if (l + s <=? k) && (k <? l + s + Z.of_nat todo) then sec buf (k - l) else V k)).
Proof.
  revert c s. induction todo as [|todo IH]; intros c s Hm Hwb Hl Hs Hn Hb; cbn [store_loop].
  { apply run_ret. split; [by split|]. split; [by left|]. intros V Hlv. split; [done|].
    eapply live_ext; [|exact Hlv]. intros k Hk. cbv beta.
    destruct (Z.leb_spec (l + s) k), (Z.ltb_spec k (l + s + Z.of_nat 0)); try lia; done. }
  pose proof (mo_nb c Hm). unfold SECTOR_SIZE in *.
  apply (run_lift_then _ (sec buf s)); [apply buf_read_in; lia|].
  rewrite u64_id by (unfold inw; lia).
  assert (Hd : alen (sec buf s) = SECTOR_SIZE) by (apply sec_length; unfold SECTOR_SIZE; lia).
  eapply run_bind; [apply (store_slot_spec c (l + s) (sec buf s)); [done|done|lia|exact Hd]|].
  intros rc c1 (Hfl & Hrc & Hlv). destruct (rc_cases rc Hrc) as [[-> Eb]|[-> Eb]]; rewrite Eb; clear Eb.
  2:{ apply run_ret. split; [done|]. split; [by right|]. intros V HV. by destruct (Hlv V HV). }
  apply run_modify_then. set (c2 := c1 <| stored_sectors := _ |>).
  assert (Hfl2 : flushed c c2) by (destruct Hfl as (Hm1 & ? & ?); split; [by destruct Hm1; constructor|by split]).
  pose proof Hfl2 as (Hm2 & Hf2 & Hi2).
  eapply run_mono; [apply (IH c2 (s + 1)); try done; [by apply Hi2|lia| |lia]|].
  { rewrite (frame_nb c c2 Hf2). lia. }
  intros rc c' (Hfl' & Hrc' & Hlv'). split; [by eapply flushed_trans|]. split; [done|]. intros V HV.
  destruct (Hlv V HV) as [_ HV1]. destruct (Hlv' _ HV1) as [-> HV2]. split; [done|].
  eapply live_ext; [|exact HV2]. intros k Hk. cbv beta. unfold vwrite.
  destruct (Z.leb_spec (l + (s + 1)) k), (Z.ltb_spec k (l + (s + 1) + Z.of_nat todo)),
    (Z.leb_spec (l + s) k), (Z.ltb_spec k (l + s + 1)), (Z.ltb_spec k (l + s + Z.of_nat (Datatypes.S todo)));
    cbn [andb]; try lia; try done.
  replace (k - (l + s)) with 0 by lia. replace (k - l) with s by lia.
  unfold sec at 1. rewrite Z.mul_0_l, <- Hd. apply Server.slice_all.
Qed.

Context (pcmalloc : Z -> bool).

Lemma alloc_spec c :
  mem_ok c -> exists ok c1, netblk_alloc_writes pcmalloc c = (ok, c1) /\
    mem_ok c1 /\ frame c c1 /\ (forall V, live c V -> live c1 V) /\
    if ok : bool then is_Some (writeback c1) else c1 = c /\ writeback c = None.
Proof.
  intros Hm. unfold netblk_alloc_writes. destruct (writeback_enabled c) eqn:Een; cbn [negb].
  2:{ exists false, c. split; [done|]. split; [done|]. split; [done|]. split; [auto|]. split; [done|].
      destruct (writeback c) eqn:Ew; [|done]. pose proof (mo_enabled c Hm). rewrite Ew, Een in *. naive_solver. }
  case_bool_decide as Hs; [by exists true, c|].
  assert (Hn : writeback c = None) by (destruct (writeback c); [exfalso; apply Hs; by eexists|done]).
  case_match; [|by exists false, c]. eexists true, _. split; [reflexivity|]. split; [|split; [done|split; [|by eexists]]].
  - destruct Hm as [? ? ? ? ? ? ? Ht ?]. unfold table in Ht. rewrite Hn in Ht. by constructor.
  - intros V Hlv. apply (live_local c _ V V Hlv); try done. intros k Hk. right. split; [|done].
    apply pending_ext. unfold pend_fields, table. by rewrite Hn.
Qed.

Definition writes_post c (l n : Z) (buf : list Z) (rc : Z) c' : Prop :=
  mem_ok c' /\ frame c c' /\ rc_ok rc /\ forall V, live c V -> rc = SUCCESS /\ live c' (vwrite V l n buf).

Lemma sec_slice_0 buf n k : 0 <= k < n -> sec (slice buf 0 (n * SECTOR_SIZE)) k = sec buf k.
Proof. intros Hk. apply (sec_slice buf 0 n k); lia. Qed.

(** Sectors appended to the run in the write buffer. *)
Lemma append_buffer c l n buf :
  mem_ok c -> 0 <= l -> 0 <= n -> l + n <= capacity c -> n * SECTOR_SIZE <= alen buf ->
  n = 0 \/ writeback c = None -> write_sectors c + n <= NETBLK_WRITE_BUFFER_SECTORS ->
  write_sectors c = 0 \/ write_sector c + write_sectors c = l ->
  let ws := if write_sectors c =? 0 then l else write_sector c in
  let b := splice (buffer c) (write_sectors c * SECTOR_SIZE) (slice buf 0 (n * SECTOR_SIZE)) in
  let c' := c <| write_sector := ws |> <| write_buffer := Some b |> <| write_sectors := write_sectors c + n |> in
  mem_ok c' /\ forall V, live c V -> live c' (vwrite V l n buf).
Proof.
  intros Hm Hl Hn Hln Hb Hwb Hroom Hcont ws b c'.
  destruct (mo_ws c Hm) as (Hws & Hs0 & Hsn). destruct (mo_buffer c Hm) as [_ Hbl].
  assert (Ews : ws + write_sectors c = l) by (unfold ws; destruct (Z.eqb_spec (write_sectors c) 0); lia).
  assert (Hsl : alen (slice buf 0 (n * SECTOR_SIZE)) = n * SECTOR_SIZE)
    by (unfold SECTOR_SIZE in *; apply Server.slice_length; lia).
  assert (Hbl' : alen b = Z.max (alen (buffer c)) ((write_sectors c + n) * SECTOR_SIZE)).
  { unfold b. rewrite splice_alen, Hsl; unfold SECTOR_SIZE in *; lia. }
  split.
  - destruct Hm. constructor; try done.
    + change (buffer c') with b. change (write_sectors c') with (write_sectors c + n). split; [done|].
      unfold SECTOR_SIZE, NETBLK_WRITE_BUFFER_SECTORS in *. lia.
    + change (write_sectors c') with (write_sectors c + n). change (write_sector c') with ws.
      change (capacity c') with (capacity c). unfold ws in *. case_match; lia.
  - intros V Hlv. apply (live_local c c' V); try done. intros k Hk. unfold vwrite, pending.
    change (table c') with (table c). change (write_sector c') with ws. change (buffer c') with b.
    change (write_sectors c') with (write_sectors c + n).
    destruct (Z.leb_spec l k), (Z.ltb_spec k (l + n)); cbn [andb].
    + left. destruct Hwb as [->|Hwb]; [lia|]. unfold table. rewrite Hwb. cbn [default dirty_data].
      change (dirty_data (default [] None) k) with (@None (list Z)). cbv iota.
      destruct (Z.leb_spec ws k), (Z.ltb_spec k (ws + (write_sectors c + n))); try lia. cbn [andb].
      f_equal. unfold sec, b, SECTOR_SIZE in *. rewrite slice_splice_in by lia.
      rewrite slice_sub by lia. f_equal. lia.
    + right. split; [|done]. destruct (dirty_data (table c) k); [done|].
      destruct (Z.ltb_spec k (ws + (write_sectors c + n))); [lia|]. rewrite andb_false_r.
      destruct (Z.leb_spec (write_sector c) k), (Z.ltb_spec k (write_sector c + write_sectors c)); try done. lia.
    + right. split; [|done]. destruct (dirty_data (table c) k); [done|].
      destruct (Z.eqb_spec (write_sectors c) 0) as [E|E]; unfold ws in *.
      * destruct (Z.leb_spec l k); [lia|]. rewrite E. cbn [andb].
        destruct (Z.leb_spec (write_sector c) k), (Z.ltb_spec k (write_sector c + 0)); try done. lia.
      * destruct (Z.leb_spec (write_sector c) k); [|done]. cbn [andb].
        destruct (Z.ltb_spec k (write_sector c + (write_sectors c + n))), (Z.ltb_spec k (write_sector c + write_sectors c)); try lia.
        f_equal. unfold sec, b, SECTOR_SIZE in *. apply slice_splice_before; lia.
    + lia.
Qed.

Lemma buffer_write_spec c l n buf :
  mem_ok c -> 0 <= l -> 0 <= n <= max_sectors c -> l + n <= capacity c -> n * SECTOR_SIZE <= alen buf ->
  n = 0 \/ writeback c = None ->
  run_to (buffer_write profile l buf n) c (writes_post c l n buf).
Proof.
  intros Hm Hl Hn Hln Hb Hwb. unfold buffer_write. pose proof (mo_max c Hm) as Hmax.
  pose proof (mo_nb c Hm) as Hnb. destruct (mo_ws c Hm) as (Hws & Hs0 & Hsn).
  unfold NETBLK_MAX_SECTORS in *.
  eapply run_as. { cbv beta. rewrite (proj1 (mo_buffer c Hm)), bool_decide_false by done.
    destruct (Z.ltb_spec NETBLK_WRITE_BUFFER_SECTORS n); [unfold NETBLK_WRITE_BUFFER_SECTORS in *; lia|]. cbn [orb]. reflexivity. }
  set (need := nz (write_sectors c) && _).
  eapply (run_bind _ _ _ (fun rc c1 => flushed c c1 /\ writeback c1 = writeback c /\ rc_ok rc /\
    (forall V, live c V -> rc = SUCCESS /\ live c1 V) /\
    (rc = SUCCESS -> write_sectors c1 + n <= NETBLK_WRITE_BUFFER_SECTORS /\
       (write_sectors c1 = 0 \/ write_sector c1 + write_sectors c1 = l)))).
  { destruct need eqn:En.
    - eapply run_mono; [by apply flush_writes_spec|]. intros rc c1 (Hfl & Hw & Hrc & Hz & Hlv).
      split; [done|]. split; [done|]. split; [done|]. split; [done|]. intros Hok. rewrite (Hz Hok).
      unfold NETBLK_WRITE_BUFFER_SECTORS. split; [lia|by left].
    - apply run_ret. split; [done|]. split; [done|]. split; [by left|]. split; [done|]. intros _.
      unfold need, nz in En. rewrite u64_id in En by (unfold inw; lia).
      unfold NETBLK_WRITE_BUFFER_SECTORS in *. apply andb_false_iff in En as [En|En].
      + apply negb_false_iff, Z.eqb_eq in En. split; [lia|by left].
      + apply orb_false_iff in En as [E1 E2]. apply negb_false_iff, Z.eqb_eq in E1. apply Z.ltb_ge in E2.
        split; [lia|by right]. }
  intros rc c1 (Hfl & Hw1 & Hrc & Hlv & Hfit). destruct Hfl as (Hm1 & Hf1 & Hi1).
  destruct (rc_cases rc Hrc) as [[-> Eb]|[-> Eb]]; rewrite Eb; clear Eb.
  2:{ apply run_ret. split; [done|]. split; [done|]. split; [by right|]. intros V HV. by destruct (Hlv V HV). }
  destruct (Hfit eq_refl) as [Hroom Hcont]. pose proof (frame_nb c c1 Hf1) as En1.
  destruct (append_buffer c1 l n buf Hm1) as [Hm' Hlv']; try done; try lia; [by rewrite Hw1|].
  apply run_modify_then. set (ws := if write_sectors c1 =? 0 then l else write_sector c1) in *.
  replace (if write_sectors c1 =? 0 then c1 <| write_sector := l |> else c1) with (c1 <| write_sector := ws |>)
    by (unfold ws; destruct (write_sectors c1 =? 0); [done|by destruct c1]).
  apply (run_lift_then _ (slice buf 0 (n * SECTOR_SIZE))); [apply buf_read_in; lia|].
  apply run_gets_then, run_gets_then.
  change (write_sectors (c1 <| write_sector := ws |>)) with (write_sectors c1).
  change (default [] (write_buffer (c1 <| write_sector := ws |>))) with (buffer c1).
  set (b := splice (buffer c1) (write_sectors c1 * SECTOR_SIZE) (slice buf 0 (n * SECTOR_SIZE))) in *.
  destruct (mo_ws c1 Hm1) as (Hws1 & _ & _). destruct (mo_buffer c1 Hm1) as [_ Hbl1].
  apply (run_lift_then _ b).
  { apply buf_write_in; [unfold SECTOR_SIZE in *; lia|].
    rewrite Server.slice_length by (unfold SECTOR_SIZE in *; lia).
    unfold SECTOR_SIZE, NETBLK_WRITE_BUFFER_SECTORS in *. lia. }
  apply run_modify_then. set (c2 := c1 <| write_sector := ws |> <| write_buffer := Some b |> <| write_sectors := write_sectors c1 + n |>) in *.
  assert (Hf2 : frame c c2) by (by eapply frame_trans; [exact Hf1|]).
  destruct (Z.leb_spec NETBLK_WRITE_BUFFER_SECTORS (write_sectors c1 + n)).
  - eapply run_mono; [by apply flush_writes_spec|]. intros rc c3 ((Hm3 & Hf3 & _) & _ & Hrc3 & _ & Hlv3).
    split; [done|]. split; [by eapply frame_trans|]. split; [done|]. intros V HV. apply Hlv3, Hlv'. by apply Hlv.
  - apply run_ret. split; [done|]. split; [done|]. split; [by left|]. intros V HV. split; [done|].
    apply Hlv'. by apply Hlv.
Qed.

(** *** Cached windows *)

(** Code that goes on from another state. *)
Lemma run_at {A} (m m' : ST (NetClient S) A) c c' Q :
  m c = m' c' -> run_to m' c' Q -> run_to m c Q.
Proof. unfold run_to. by intros ->. Qed.

Definition dims c : bool * bool * Z * Z * Z * bool :=
  (read_only c, writable c, max_sectors c, prefetch_sectors c, nb_sectors c, writeback_enabled c).
Definition same_dims c c' : Prop := dims c' = dims c.
Lemma frame_dims c c' : frame c c' -> same_dims c c'.
Proof. unfold frame, fixed, same_dims, dims. intros [=]. congruence. Qed.
Lemma dims_trans c1 c2 c3 : same_dims c1 c2 -> same_dims c2 c3 -> same_dims c1 c3.
Proof. unfold same_dims. congruence. Qed.
Lemma dims_nb c c' : same_dims c c' -> capacity c' = capacity c.
Proof. unfold same_dims, dims, capacity. intros [=]. congruence. Qed.
Lemma dims_prefetch c c' : same_dims c c' -> prefetch_sectors c' = prefetch_sectors c.
Proof. unfold same_dims, dims. by intros [=]. Qed.

(** The window agrees with the disk [V]. *)
Definition shows (V : Z -> list Z) (w : Window) : Prop :=
  forall d k, w_data w = Some d -> w_sector w <= k < w_sector w + w_sectors w -> sec d (k - w_sector w) = V k.
Definition cached c (V : Z -> list Z) : Prop := Forall (shows V) (windows c).

Lemma frame_cached c c' V : frame c c' -> cached c V -> cached c' V.
Proof. unfold frame, fixed, cached. by intros [= ? ? ? ? ? -> ? ?]. Qed.

Lemma window_end nb w : window_ok nb w -> nb < 2 ^ 64 -> w_end w = w_sector w + w_sectors w.
Proof.
  intros (d & _ & _ & Hs & Hn & _ & He) Hnb. unfold w_end. apply u64_id. unfold inw. lia.
Qed.

Lemma holds_spec nb w k : window_ok nb w -> nb < 2 ^ 64 -> 0 <= k ->
  holds k w = true <-> w_sector w <= k < w_sector w + w_sectors w.
Proof.
  intros Hw Hnb Hk. unfold holds, in_use. rewrite (window_end nb w Hw Hnb).
  destruct Hw as (d & -> & _ & Hs & Hn & _). rewrite bool_decide_true by (by eexists).
  unfold nz. rewrite !andb_true_iff, negb_true_iff, Z.leb_le, Z.ltb_lt, Z.eqb_neq. lia.
Qed.

Lemma invalidate_spec c l n :
  mem_ok c -> 0 <= l -> 0 <= n -> l + n <= capacity c ->
  let c' := netblk_invalidate c l n in
  mem_ok c' /\ same_dims c c' /\ (forall V, live c V -> live c' V) /\ writeback c' = writeback c /\
  (forall V b, cached c V -> cached c' (vwrite V l n b)).
Proof.
  intros Hm Hl Hn Hln. unfold netblk_invalidate. destruct (Z.leb_spec n 0); cbv zeta.
  { split; [done|]. split; [done|]. split; [auto|]. split; [done|]. intros V b Hc. eapply Forall_impl; [exact Hc|]. intros w Hw d k Hd Hk.
    unfold vwrite. destruct (Z.leb_spec l k), (Z.ltb_spec k (l + n)); try lia; by apply Hw. }
  pose proof (mo_nb c Hm) as Hnb. rewrite u64_id by (unfold inw; lia). destruct (mo_windows c Hm) as [Hwl Hwf].
  set (f := invalidate_window l (l + n)). split; [|split; [done|split; [|split; [done|]]]].
  - destruct Hm. constructor; try done. change (windows (c <| windows := f <$> windows c |>)) with (f <$> windows c).
    split; [unfold alen in *; by rewrite length_fmap|]. apply Forall_fmap. eapply Forall_impl; [exact Hwf|].
    intros w (d & Hd & Hdl & Hs & Hws & Hwd & He). unfold compose, f, invalidate_window. case_match; exists d; [|done].
    cbn [w_data w_sector w_sectors set_field]. repeat (split; [done|]). unfold SECTOR_SIZE, NETBLK_READ_CACHE_SECTORS in *.
    pose proof (Server.alen_nonneg d). split; [lia|]. change (w_sector w + 0 <= capacity c). lia.
  - intros V Hlv. by apply (live_local c _ V V Hlv); [..|intros k Hk; right].
  - intros V b Hc. unfold cached in *. change (windows (c <| windows := f <$> windows c |>)) with (f <$> windows c).
    apply Forall_fmap. rewrite Forall_forall in *. intros w Hw d k. unfold compose, f, invalidate_window.
    destruct (nz (w_sectors w) && (l <? w_end w) && (w_sector w <? l + n)) eqn:E; intros Hd Hk.
    { change (w_sectors (w <| w_sectors := 0 |>)) with 0 in Hk. lia. }
    rewrite (window_end (capacity c) w) in E by (by apply Hwf || lia).
    unfold vwrite. destruct (Z.leb_spec l k), (Z.ltb_spec k (l + n)); cbn [andb]; try (by apply (Hc w Hw)).
    exfalso. unfold nz in E. destruct (Z.eqb_spec (w_sectors w) 0); [lia|].
    destruct (Z.ltb_spec l (w_sector w + w_sectors w)); [|lia]. destruct (Z.ltb_spec (w_sector w) (l + n)); [done|lia].
Qed.

(** *** Writes *)

Lemma in_range_spec c l n : mem_ok c -> inw 64 l -> bad_range c l n = false <->
  0 <= n <= max_sectors c /\ l + n <= capacity c.
Proof.
  intros Hm [Hl _]. pose proof (mo_nb c Hm). pose proof (mo_max c Hm). unfold bad_range.
  rewrite !orb_false_iff, !Z.ltb_ge.
  destruct (Z.le_gt_cases l (capacity c)) as [H'|H'].
  - rewrite u64_id by (unfold inw; lia). lia.
  - lia.
Qed.

(** What a write leaves, success or not. *)
Definition wrote c (l n : Z) (buf : list Z) (rc : Z) c' : Prop :=
  mem_ok c' /\ same_dims c c' /\ rc_ok rc /\
  (read_only c = false -> writable c = true -> 0 <= n <= max_sectors c -> l + n <= capacity c ->
   forall V, live c V -> rc = SUCCESS /\ live c' (vwrite V l n buf) /\
     (cached c V -> cached c' (vwrite V l n buf))).

Lemma write_async_spec c l n buf :
  mem_ok c -> inw 64 l -> (0 <= n -> n * SECTOR_SIZE <= alen buf) ->
  run_to (netblk_write_async profile pcmalloc l buf n) c (wrote c l n buf).
Proof.
  intros Hm Hl Hb. unfold netblk_write_async.
  destruct (read_only c || negb (writable c) || bad_range c l n) eqn:Eg.
  { exists FAILURE, c. rewrite Eg. split; [done|]. split; [done|]. split; [done|]. split; [by right|].
    intros Hro Hwr Hn Hln. rewrite Hro, Hwr in Eg. by rewrite (proj2 (in_range_spec c l n Hm Hl)) in Eg. }
  apply (run_at _ (stored ← (if n <=? NETBLK_WRITEBACK_SECTORS then netblk_store_write profile pcmalloc l buf n else mret 0);
                   if nz stored then mret SUCCESS else buffer_write profile l buf n) c (netblk_invalidate c l n));
    [by rewrite Eg|].
  apply orb_false_iff in Eg as [_ Eg]. apply (in_range_spec c l n Hm Hl) in Eg as [Hn Hln].
  destruct Hl as [Hl _]. specialize (Hb ltac:(lia)).
  destruct (invalidate_spec c l n Hm Hl ltac:(lia) Hln) as (Hm1 & Hd1 & Hlv1 & Hwb1 & Hca1).
  set (c1 := netblk_invalidate c l n) in *. pose proof (dims_nb c c1 Hd1) as En1.
  assert (Hmx1 : max_sectors c1 = max_sectors c) by (unfold same_dims, dims in Hd1; by injection Hd1).
  assert (Hend : forall rc c', writes_post c1 l n buf rc c' -> wrote c l n buf rc c').
  { intros rc c' (Hm' & Hf' & Hrc & Hlv). split; [done|]. split; [eapply dims_trans; [exact Hd1|by apply frame_dims]|].
    split; [done|]. intros _ _ _ _ V HV. destruct (Hlv V (Hlv1 V HV)) as [-> HV']. split; [done|]. split; [done|].
    intros Hc. eapply frame_cached; [exact Hf'|]. by apply Hca1. }
  destruct (mo_max c Hm) as [_ Hmax]. unfold NETBLK_MAX_SECTORS in Hmax.
  destruct (Z.leb_spec n NETBLK_WRITEBACK_SECTORS); [|unfold NETBLK_WRITEBACK_SECTORS in *; lia].
  assert (Hbuf : forall c2, mem_ok c2 -> frame c1 c2 -> (forall V, live c1 V -> live c2 V) ->
    n = 0 \/ writeback c2 = None ->
    run_to (buffer_write profile l buf n) c2 (wrote c l n buf)).
  { intros c2 Hm2 Hf2 Hlv2 Hw2. eapply run_mono; [apply buffer_write_spec; try done|].
    - rewrite (frame_max c1 c2 Hf2). lia.
    - rewrite (frame_nb c1 c2 Hf2). lia.
    - intros rc c' (Hm' & Hf' & Hrc & Hlv). apply Hend. split; [done|]. split; [by eapply frame_trans|].
      split; [done|]. intros V HV. by apply Hlv, Hlv2. }
  unfold netblk_store_write.
  destruct (alloc_spec c1 Hm1) as (ok & c2 & Ea & Hm2 & Hf2 & Hlv2 & Hw2).
  destruct (Z.leb_spec n 0) as [Hn0|Hn0].
  { apply (run_step _ _ c1 0 c1); [by rewrite orb_true_r|]. cbn [nz Z.eqb negb].
    apply Hbuf; [done|done|auto|left; lia]. }
  destruct (writeback_enabled c1) eqn:Een.
  2:{ apply (run_step _ _ c1 0 c1); [by rewrite Een|]. change (nz 0) with false. cbv iota.
      apply Hbuf; [done|done|auto|right]. unfold netblk_alloc_writes in Ea. rewrite Een in Ea.
      injection Ea as <- <-. by destruct Hw2. }
  destruct ok.
  2:{ destruct Hw2 as [-> Hw2]. apply (run_step _ _ c1 0 c1); [by rewrite Een, Ea|]. change (nz 0) with false. cbv iota.
      apply Hbuf; [done|done|auto|by right]. }
  destruct (store_loop_spec (Z.to_nat n) c2 l buf 0 Hm2 Hw2 Hl ltac:(lia)) as (rc & c3 & Es & (Hm3 & Hf3 & _) & Hrc & Hlv3).
  { rewrite (frame_nb c1 c2 Hf2). lia. }
  { unfold SECTOR_SIZE in *. lia. }
  apply (run_step _ _ c1 rc c3); [by rewrite Een, Ea|].
  assert (nz rc = true) as -> by (by destruct Hrc as [-> | ->]).
  apply run_ret. apply Hend. split; [done|]. split; [by eapply frame_trans|]. split; [by left|]. intros V HV. split; [done|].
  destruct (Hlv3 V (Hlv2 V HV)) as [_ HV3]. eapply live_ext; [|exact HV3]. intros k Hk. cbv beta. unfold vwrite.
  rewrite !Z.add_0_r, Z2Nat.id by lia. done.
Qed.

(** *** Reads *)

Lemma next_cached_spec c k re : k < re -> k < netblk_next_cached c k re <= re.
Proof.
  unfold netblk_next_cached. intros Hk. assert (Hg : forall l next, k < next <= re ->
    k < fold_left (fun next w => if in_use w && (k <? w_sector w) && (w_sector w <? next) then w_sector w else next) l next <= re).
  { induction l as [|w l IH]; intros next Hn; [done|]. cbn [fold_left]. apply IH.
    destruct (in_use w && (k <? w_sector w) && (w_sector w <? next)) eqn:E; [|done].
    rewrite !andb_true_iff, !Z.ltb_lt in E. lia. }
  apply Hg. lia.
Qed.

Lemma s32_fits z : 0 <= z < 2 ^ 31 -> s32 z = z.
Proof.
  intros Hz. unfold s32, sgn. rewrite Z.mod_small by lia. change (2 ^ (32 - 1)) with (2 ^ 31).
  by destruct (Z.ltb_spec z (2 ^ 31)); [|lia].
Qed.

(** The aligned block of [k]. *)
Definition block (p k : Z) : Z := k / p * p.
Lemma block_spec p k : 0 < p -> 0 <= k -> 0 <= block p k <= k /\ k < block p k + p.
Proof.
  intros Hp Hk. unfold block. pose proof (Z.div_mod k p ltac:(lia)). pose proof (Z.mod_pos_bound k p Hp).
  pose proof (Z.div_pos k p Hk Hp). nia.
Qed.
Lemma block_mono p a b : 0 < p -> a <= b -> block p a <= block p b.
Proof. intros Hp Hab. unfold block. pose proof (Z.div_le_mono a b p Hp Hab). nia. Qed.

(** A fetch covers the missing sector, fits a window and the disk, and stays in
    the request or in the prefetch block of the sector. *)
Lemma fetch_range_spec c cur re :
  mem_ok c -> 0 <= cur < re -> re <= capacity c -> re - cur <= NETBLK_MAX_SECTORS ->
  let '(s, n) := fetch_range c cur re in
  0 <= s <= cur /\ cur < s + n /\ 1 <= n <= max_sectors c /\ n <= NETBLK_READ_CACHE_SECTORS /\
  s + n <= capacity c /\ block (prefetch_sectors c) cur <= s /\
  (s + n <= re \/ s + n <= block (prefetch_sectors c) cur + prefetch_sectors c).
Proof.
  intros Hm Hcur Hre Hlen. unfold fetch_range.
  pose proof (mo_max c Hm) as Hmax. destruct (mo_prefetch c Hm) as [Hpf Hpm]. pose proof (mo_nb c Hm) as Hnb.
  pose proof (next_cached_spec c cur re ltac:(lia)) as Hnx. set (nx := netblk_next_cached c cur re) in *. clearbody nx.
  pose proof (block_spec (prefetch_sectors c) cur ltac:(lia) ltac:(lia)) as Hbk.
  fold (block (prefetch_sectors c) cur). set (bk := block (prefetch_sectors c) cur) in *. clearbody bk.
  unfold NETBLK_MAX_SECTORS, NETBLK_READ_CACHE_SECTORS in *.
  rewrite (s32_fits (nx - cur)) by lia.
  destruct (Z.leb_spec (nx - cur) 0); [lia|].
  assert (Hend : forall s n, 0 <= s <= cur -> cur < s + n -> 1 <= n <= 2048 -> bk <= s ->
    (s = cur /\ s + n <= re \/ s + n <= bk + prefetch_sectors c /\ n <= max_sectors c /\ n <= 512) ->
    let n := if max_sectors c <? n then max_sectors c else n in
    let n := if 512 <? n then 512 else n in
    let avail := u64 (capacity c - s) in
    let n := if avail <? u64 n then s32 avail else n in
    let '(s, n) := if u64 (s + u64 n) <=? cur then (cur, if 0 <? nx - cur then nx - cur else 1) else (s, n) in
    0 <= s <= cur /\ cur < s + n /\ 1 <= n <= max_sectors c /\ n <= 512 /\ s + n <= capacity c /\ bk <= s /\
    (s + n <= re \/ s + n <= bk + prefetch_sectors c)).
  { intros s n Hs Hcov Hn Hb Hcase. cbv zeta.
    assert (Hn1 : 1 <= (if max_sectors c <? n then max_sectors c else n) <= max_sectors c)
      by (destruct (Z.ltb_spec (max_sectors c) n); lia).
    assert (Hc1 : cur < s + (if max_sectors c <? n then max_sectors c else n))
      by (destruct (Z.ltb_spec (max_sectors c) n); lia).
    assert (Hle1 : (if max_sectors c <? n then max_sectors c else n) <= n)
      by (destruct (Z.ltb_spec (max_sectors c) n); lia).
    set (n1 := if max_sectors c <? n then max_sectors c else n) in *. clearbody n1.
    assert (Hn2 : 1 <= (if 512 <? n1 then 512 else n1) <= 512) by (destruct (Z.ltb_spec 512 n1); lia).
    assert (Hle2 : (if 512 <? n1 then 512 else n1) <= n1) by (destruct (Z.ltb_spec 512 n1); lia).
    assert (Hc2 : cur < s + (if 512 <? n1 then 512 else n1)) by (destruct (Z.ltb_spec 512 n1); lia).
    set (n2 := if 512 <? n1 then 512 else n1) in *. clearbody n2.
    rewrite (u64_id (capacity c - s)), (u64_id n2) by (unfold inw; lia).
    assert (Hn3 : exists n3, (if capacity c - s <? n2 then s32 (capacity c - s) else n2) = n3 /\
      1 <= n3 <= n2 /\ cur < s + n3 /\ s + n3 <= capacity c).
    { destruct (Z.ltb_spec (capacity c - s) n2); eexists; (split; [reflexivity|]); [rewrite s32_fits by lia|]; lia. }
    destruct Hn3 as (n3 & -> & Hn3 & Hc3 & He3).
    rewrite (u64_id n3), (u64_id (s + n3)) by (unfold inw; lia).
    destruct (Z.leb_spec (s + n3) cur); [lia|]. lia. }
  destruct ((nx =? re) && (nx - cur <? prefetch_sectors c)) eqn:Epf.
  - apply andb_true_iff in Epf as [Epf1 Epf2]. apply Z.eqb_eq in Epf1. apply Z.ltb_lt in Epf2.
    destruct (Z.ltb_spec 1 (prefetch_sectors c)); [|lia].
    apply (Hend bk (prefetch_sectors c)); lia.
  - apply (Hend cur (nx - cur)); lia.
Qed.

Lemma slice_concat l a n : 0 <= a -> (a + Z.of_nat n) * SECTOR_SIZE <= alen l ->
  slice l (a * SECTOR_SIZE) (Z.of_nat n * SECTOR_SIZE) = concat (sec l <$> seqZ a (Z.of_nat n)).
Proof.
  revert a. induction n as [|n IH]; intros a Ha Hl.
  { unfold slice. rewrite seqZ_nil by lia. by replace (Z.to_nat (Z.of_nat 0 * SECTOR_SIZE)) with 0%nat by lia. }
  rewrite seqZ_cons by lia. cbn [fmap list_fmap concat]. rewrite <- Z.add_1_r.
  replace (Z.pred (Z.of_nat (Datatypes.S n))) with (Z.of_nat n) by lia.
  rewrite <- IH by (unfold SECTOR_SIZE in *; lia). unfold sec, SECTOR_SIZE in *.
  replace ((a + 1) * 512) with (a * 512 + 512) by lia. rewrite Server.slice_app by lia.
  f_equal. lia.
Qed.

Lemma find_cache_spec c k :
  mem_ok c -> 0 <= k ->
  (netblk_find_cache c k = -1 /\ forall w, w ∈ windows c -> ~ (w_sector w <= k < w_sector w + w_sectors w)) \/
  (exists w, 0 <= netblk_find_cache c k /\ rd (windows c) (netblk_find_cache c k) = Done w /\ w ∈ windows c /\
     w_sector w <= k < w_sector w + w_sectors w).
Proof.
  intros Hm Hk. destruct (mo_windows c Hm) as [_ Hwf]. pose proof (mo_nb c Hm) as Hnb. rewrite Forall_forall in Hwf.
  unfold netblk_find_cache. destruct (find_index_spec (holds k) (windows c) 0 ltac:(lia)) as [[-> Hn]|(j & w & Hj & -> & Hr & Hw)].
  - left. split; [done|]. intros w Hw Hin. specialize (Hn w Hw).
    rewrite (proj2 (holds_spec (capacity c) w k (Hwf w Hw) ltac:(lia) Hk)) in Hn; done.
  - right. exists w. split; [lia|]. split; [done|].
    assert (Hel : w ∈ windows c).
    { destruct (rd_split _ _ _ Hr) as (l1 & l2 & -> & _). apply elem_of_app. right. apply list_elem_of_here. }
    split; [done|]. by apply (holds_spec (capacity c) w k (Hwf w Hel)) in Hw; [|lia..].
Qed.

(** Replacing the window at a slot. *)
Lemma set_window_mem c c1 slot w :
  mem_ok c -> 0 <= slot < NETBLK_READ_CACHE_WINDOWS -> window_ok (capacity c) w ->
  dims c1 = dims c -> pend_fields c1 = pend_fields c -> writeback c1 = writeback c -> write_buffer c1 = write_buffer c ->
  windows c1 = arr_set (windows c) slot w -> 0 <= read_cache_next c1 < NETBLK_READ_CACHE_WINDOWS ->
  mem_ok c1.
Proof.
  intros [H1' H2' H3' [H4' H4''] H5' [H6' H6''] H7' H8' H9'] Hs Hw Hd Hp Hwb Hbuf Hwin Hnx.
  unfold dims in Hd. injection Hd as E1 E2 E3 E4 E5 E6. unfold pend_fields in Hp. injection Hp as P1 P2 P3 P4.
  assert (E7 : capacity c1 = capacity c) by (unfold capacity; congruence).
  constructor; rewrite ?E3, ?E4, ?E7, ?E6, ?P1, ?P2, ?P3, ?P4, ?Hwb, ?Hwin, ?Hbuf; try done.
  split; [by rewrite alen_set|]. by apply Forall_insert.
Qed.

Lemma arr_set_mem {A} (l : list A) i a b : b ∈ arr_set l i a -> b = a \/ b ∈ l.
Proof.
  unfold arr_set. intros Hb. apply list_elem_of_lookup in Hb as [j Hj].
  destruct (decide (j = Z.to_nat i)) as [->|Hne].
  - apply list_lookup_insert_Some in Hj as [(_ & -> & _)|(? & _)]; [by left|done].
  - rewrite list_lookup_insert_ne in Hj by done. right. by eapply list_elem_of_lookup_2.
Qed.
Lemma arr_set_here {A} (l : list A) i a : 0 <= i < alen l -> a ∈ arr_set l i a.
Proof.
  unfold arr_set, alen. intros Hi. eapply list_elem_of_lookup_2, list_lookup_insert_eq. lia.
Qed.

(** The sectors a fetch for [cur] may bring in. *)
Definition reach c (cur re k : Z) : Prop :=
  block (prefetch_sectors c) cur <= k /\ (k < re \/ k < block (prefetch_sectors c) cur + prefetch_sectors c).

Definition fetched c (cur re : Z) (ok : bool) c' : Prop :=
  mem_ok c' /\ same_dims c c' /\ (forall k, pending c' k = pending c k) /\
  (ok = true -> 0 <= netblk_find_cache c' cur) /\
  forall V, live c V -> ok = true /\ live c' V /\
    (cached c V -> (forall k, 0 <= k < capacity c -> reach c cur re k -> pending c k = None) -> cached c' V).

Lemma fetch_spec c cur re :
  mem_ok c -> 0 <= cur < re -> re <= capacity c -> re - cur <= NETBLK_MAX_SECTORS ->
  run_to (fetch profile cur re) c (fetched c cur re).
Proof.
  intros Hm Hcur Hre Hlen. unfold fetch. pose proof (mo_next c Hm) as Hnx. destruct (mo_windows c Hm) as [Hwl Hwf].
  set (slot := read_cache_next c) in *. set (w := arr (windows c) slot).
  assert (Hrd : rd (windows c) slot = Done w) by (apply rd_in; lia).
  assert (Hwok : window_ok (capacity c) w).
  { destruct (rd_split _ _ _ Hrd) as (l1 & l2 & E & _). rewrite E in Hwf. apply Forall_app in Hwf as [_ Hwf].
    by apply Forall_cons in Hwf as [? _]. }
  pose proof (fetch_range_spec c cur re Hm Hcur Hre Hlen) as Hfr. destruct (fetch_range c cur re) as [s n] eqn:Efr.
  destruct Hfr as (Hs & Hcov & Hn & Hn512 & Hsn & Hb1 & Hb2). destruct Hwok as (d & Hd & Hdl & Hw0 & Hwn & Hwd & Hwe).
  pose proof (mo_nb c Hm) as Hnb.
  eapply run_as. { cbv beta zeta. fold slot. rewrite Hrd, Efr, Hd, bool_decide_false by done.
    destruct (Z.leb_spec n 0); [lia|]. destruct (Z.ltb_spec (NETBLK_READ_CACHE_SECTORS * SECTOR_SIZE) (n * SECTOR_SIZE));
      [unfold SECTOR_SIZE in *; lia|]. reflexivity. }
  eapply run_bind; [apply request_read_spec|]. intros r c1 (Ht & Hle & Hlen1 & Hreq).
  specialize (Hle ltac:(lia)). set (w' := fun k => mkWindow (received (Some d) r.2) (if k =? 0 then w_sector w else s) k).
  pose proof (Server.alen_nonneg d) as Hd0. pose proof (Server.alen_nonneg r.2) as Hr0.
  assert (Hrl : alen (splice d 0 r.2) = Z.max (alen d) (alen r.2)) by (rewrite splice_alen by lia; lia).
  assert (Hdims : dims c1 = dims c /\ pend_fields c1 = pend_fields c /\ writeback c1 = writeback c /\
    write_buffer c1 = write_buffer c /\ windows c1 = windows c) by (by destruct Ht as (? & ? & ->)).
  destruct Hdims as (E1 & E2 & E3 & E4 & E5).
  destruct r as [[rh|] data]; cbn [fst snd] in *.
  - apply run_modify_then, run_ret. specialize (Hlen1 ltac:(by eexists) ltac:(lia)).
    set (w1 := mkWindow (received (Some d) data) s n). set (c2 := c1 <| cache_misses := _ |> <| windows := _ |> <| read_cache_next := _ |>).
    assert (Hwin : windows c2 = arr_set (windows c) slot w1) by (unfold c2; by rewrite <- E5).
    assert (Hm2 : mem_ok c2).
    { apply (set_window_mem c c2 slot w1); try done.
      - exists (splice d 0 data). cbn [w_data w_sector w_sectors w1]. unfold SECTOR_SIZE in *. split; [done|]. lia.
      - unfold NETBLK_READ_CACHE_WINDOWS in *. cbn. apply Z.mod_pos_bound. lia. }
    split; [done|]. split; [exact E1|]. split; [intros k; by apply pending_ext|]. split.
    + intros _. destruct (find_cache_spec c2 cur Hm2 ltac:(lia)) as [[_ Hno]|(x & Hx & _)]; [|done]. exfalso.
      apply (Hno w1); [rewrite Hwin; apply arr_set_here; lia|]. cbn. lia.
    + intros V (Hnbs & Hmx & D & Hsv & HV). destruct (Hreq D Hsv) as (_ & -> & Hsv1); [lia|lia|lia|].
      split; [done|]. split.
      * assert (En : capacity c2 = capacity c /\ max_sectors c2 = max_sectors c)
          by (unfold dims in E1; injection E1 as ? ? ? ? ? ?; split; [by apply capacity_ext|done]).
        destruct En as [En Em]. split; [congruence|]. split; [congruence|]. exists D. split; [exact Hsv1|].
        rewrite En. intros k Hk. rewrite (HV k Hk). f_equal. symmetry. by apply pending_ext.
      * unfold cached. rewrite Hwin. rewrite !Forall_forall. intros Hc Hno x Hx.
        apply arr_set_mem in Hx as [->|Hx]; [|by apply Hc]. intros d' k [= <-] Hk. cbn [w1 w_sector w_sectors] in *.
        rewrite (HV k) by lia. rewrite (Hno k) by (unfold reach; lia). cbn [default].
        unfold SECTOR_SIZE in *. change (default (sec D k) None) with (sec D k).
        unfold sec at 1. unfold SECTOR_SIZE. rewrite slice_splice_in by lia. rewrite Z.sub_0_r.
        rewrite slice_sub by lia. unfold sec, SECTOR_SIZE. f_equal. lia.
  - apply run_modify_then, run_ret. set (w1 := mkWindow (received (Some d) data) (w_sector w) 0).
    set (c2 := c1 <| windows := _ |>).
    assert (Hwin : windows c2 = arr_set (windows c) slot w1) by (unfold c2; by rewrite <- E5).
    assert (Hm2 : mem_ok c2).
    { apply (set_window_mem c c2 slot w1); try done.
      - exists (splice d 0 data). cbn [w_data w_sector w_sectors w1].
        unfold SECTOR_SIZE, NETBLK_READ_CACHE_SECTORS in *. split; [done|]. lia.
      - by destruct Ht as (? & ? & ->). }
    split; [done|]. split; [exact E1|]. split; [intros k; by apply pending_ext|]. split; [done|].
    intros V (Hnbs & Hmx & D & Hsv & HV). destruct (Hreq D Hsv) as ([? [=]] & _); lia.
Qed.

(** The sectors a read of [l .. re) may fetch: it and the blocks at its ends. *)
Definition hull c (l re k : Z) : Prop :=
  block (prefetch_sectors c) l <= k < block (prefetch_sectors c) (re - 1) + prefetch_sectors c.

Definition looped c (l cur re : Z) (got : list Z) (r : Z * list Z) c' : Prop :=
  mem_ok c' /\ same_dims c c' /\ rc_ok r.1 /\ alen r.2 <= alen got + (re - cur) * SECTOR_SIZE /\
  (forall k, pending c' k = pending c k) /\
  forall V, live c V -> r.1 = SUCCESS /\ live c' V /\
    (cached c V -> (forall k, 0 <= k < capacity c -> hull c l re k -> pending c k = None) ->
     r.2 = got ++ concat (V <$> seqZ cur (re - cur)) /\ cached c' V).

Lemma looped_step c l cur cur1 re got b c1 r c' :
  looped c1 l cur1 re (got ++ b) r c' -> cur <= cur1 <= re -> alen b = (cur1 - cur) * SECTOR_SIZE ->
  same_dims c c1 -> (forall k, pending c1 k = pending c k) ->
  (forall V, live c V -> live c1 V /\
     (cached c V -> (forall k, 0 <= k < capacity c -> hull c l re k -> pending c k = None) ->
      b = concat (V <$> seqZ cur (cur1 - cur)) /\ cached c1 V)) ->
  looped c l cur re got r c'.
Proof.
  intros (Hm & Hd & Hrc & Hle & Hp & Hlv) Hc Hb Hd1 Hp1 Hlv1.
  split; [done|]. split; [by eapply dims_trans|]. split; [done|].
  rewrite Server.alen_app in Hle. split; [unfold SECTOR_SIZE in *; lia|]. split; [intros k; by rewrite Hp, Hp1|].
  intros V HV. destruct (Hlv1 V HV) as [HV1 Hca]. destruct (Hlv V HV1) as (Hok & HV' & Hca').
  split; [done|]. split; [done|]. intros Hc0 Hno. destruct (Hca Hc0 Hno) as [-> Hc1].
  destruct (Hca' Hc1) as [-> Hc'].
  { intros k Hk Hh. rewrite Hp1. unfold hull in Hh. rewrite (dims_prefetch c c1 Hd1) in Hh. rewrite (dims_nb c c1 Hd1) in Hk.
    by apply Hno. }
  split; [|done]. rewrite <- app_assoc. f_equal.
  replace (re - cur) with ((cur1 - cur) + (re - cur1)) by lia. rewrite (seqZ_app cur (cur1 - cur)) by lia.
  rewrite fmap_app, concat_app. by replace (cur + (cur1 - cur)) with cur1 by lia.
Qed.

Lemma read_loop_spec fuel c l cur re got :
  mem_ok c -> 0 <= l <= cur -> cur <= re <= capacity c -> re - l <= NETBLK_MAX_SECTORS ->
  2 * (re - cur) + 1 <= Z.of_nat fuel \/
  (cur < re /\ 0 <= netblk_find_cache c cur /\ 2 * (re - cur) <= Z.of_nat fuel) ->
  run_to (read_loop profile fuel cur re got) c (looped c l cur re got).
Proof.
  revert c cur got. induction fuel as [|fuel IH]; intros c cur got Hm Hl Hcur Hlen Hf; [lia|]. cbn [read_loop].
  destruct (Z.leb_spec re cur) as [Hend|Hgo].
  { exists (SUCCESS, got), c. split; [done|]. split; [done|]. split; [done|]. split; [by left|].
    split; [cbn [snd]; unfold SECTOR_SIZE; lia|]. split; [done|]. intros V HV. split; [done|]. split; [done|]. intros Hc _.
    split; [|done]. rewrite seqZ_nil by lia. cbn. by rewrite app_nil_r. }
  pose proof (mo_nb c Hm) as Hnb. destruct (mo_prefetch c Hm) as [Hpf _]. unfold NETBLK_MAX_SECTORS in *.
  destruct (find_cache_spec c cur Hm ltac:(lia)) as [[Ef Hno]|(w & Hslot & Hr & Hw & Hin)].
  - eapply run_as; [cbv beta; rewrite Ef; reflexivity|].
    eapply run_bind; [apply (fetch_spec c cur re Hm); unfold NETBLK_MAX_SECTORS; lia|].
    intros ok c1 (Hm1 & Hd1 & Hp1 & Hok & Hlv). destruct ok.
    + eapply run_mono; [apply (IH c1 cur got Hm1)|].
      * lia.
      * rewrite (dims_nb c c1 Hd1). lia.
      * lia.
      * right. split; [done|]. split; [by apply Hok|lia].
      * intros r c' Hlp. apply (looped_step c l cur cur re got [] c1 r c'); [by rewrite app_nil_r|lia|change (alen (@nil Z)) with 0; unfold SECTOR_SIZE; lia|done|done|].
        intros V HV. destruct (Hlv V HV) as (_ & HV1 & Hca). split; [done|]. intros Hc Hhull.
        split; [rewrite seqZ_nil by lia; done|]. apply Hca; [done|]. intros k Hk [Hk1 Hk2]. apply Hhull; [done|].
        pose proof (block_mono (prefetch_sectors c) l cur ltac:(lia) ltac:(lia)).
        pose proof (block_mono (prefetch_sectors c) cur (re - 1) ltac:(lia) ltac:(lia)).
        pose proof (block_spec (prefetch_sectors c) (re - 1) ltac:(lia) ltac:(lia)). unfold hull. lia.
    + apply run_ret. split; [done|]. split; [done|]. split; [by right|].
      split; [cbn [snd]; unfold SECTOR_SIZE; lia|]. split; [done|]. intros V HV. by destruct (Hlv V HV).
  - destruct (mo_windows c Hm) as [_ Hwf]. rewrite Forall_forall in Hwf. pose proof (Hwf w Hw) as Hwok.
    assert (Hwe : w_end w = w_sector w + w_sectors w) by (apply (window_end (capacity c)); [done|lia]).
    destruct Hwok as (d & Hd & Hdl & Hw0 & Hwn & Hwd & Hwnb).
    set (ce := if w_end w <? re then w_end w else re).
    assert (Hce : cur < ce <= re /\ ce <= w_sector w + w_sectors w)
      by (unfold ce; rewrite Hwe; destruct (Z.ltb_spec (w_sector w + w_sectors w) re); lia).
    eapply run_as; [cbv beta; rewrite (proj2 (Z.leb_le 0 _)) by exact Hslot; reflexivity|].
    apply (run_lift_then _ w); [exact Hr|]. cbv zeta. fold ce. rewrite s32_fits by lia. rewrite Hd.
    change (default [] (Some d)) with d. unfold NETBLK_READ_CACHE_SECTORS, SECTOR_SIZE in *.
    set (b := slice d ((cur - w_sector w) * SECTOR_SIZE) ((ce - cur) * SECTOR_SIZE)).
    assert (Hb : alen b = (ce - cur) * SECTOR_SIZE) by (unfold b, SECTOR_SIZE; apply Server.slice_length; lia).
    apply (run_lift_then _ b); [apply buf_read_in; lia|]. apply run_modify_then.
    set (c1 := c <| cache_hits := _ |>). assert (Hm1 : mem_ok c1) by (destruct Hm; by constructor).
    rewrite u64_id by (unfold inw; lia). replace (cur + (ce - cur)) with ce by lia.
    eapply run_mono; [apply (IH c1 ce (got ++ b) Hm1)|]; try done; try lia.
    { change (capacity c1) with (capacity c). lia. }
    intros r c' Hlp. apply (looped_step c l cur ce re got b c1 r c'); try done; [lia|].
    intros V HV. split; [exact HV|]. intros Hc _. split; [|exact Hc]. unfold b.
    pose proof (slice_concat d (cur - w_sector w) (Z.to_nat (ce - cur)) ltac:(lia)) as Hsc.
    rewrite Z2Nat.id in Hsc by lia. rewrite Hsc by (unfold SECTOR_SIZE; lia). f_equal.
    unfold cached in Hc. rewrite Forall_forall in Hc. specialize (Hc w Hw d).
    replace (seqZ cur (ce - cur)) with (Z.add (w_sector w) <$> seqZ (cur - w_sector w) (ce - cur))
      by (rewrite fmap_add_seqZ; f_equal; lia).
    rewrite <- list_fmap_compose. apply list_fmap_ext. intros i k Hi. apply lookup_seqZ in Hi. unfold compose.
    rewrite <- Hc by (done || lia). f_equal. lia.
Qed.

(** What a read leaves, success or not. *)
Definition read_done c (l n : Z) (r : Z * list Z) c' : Prop :=
  mem_ok c' /\ same_dims c c' /\ rc_ok r.1 /\ alen r.2 <= Z.max 0 n * SECTOR_SIZE /\
  (0 <= n <= max_sectors c -> l + n <= capacity c -> forall V, live c V -> r.1 = SUCCESS /\ live c' V /\
     (cached c V ->
      (forall k, 0 <= k < capacity c -> hull c l (l + n) k -> pending c k <> None ->
         exists k', l <= k' < l + n /\ pending c k' <> None) ->
      r.2 = concat (V <$> seqZ l n) /\ cached c' V)).

Lemma overlaps_spec c l n : mem_ok c -> 0 <= l -> 0 <= n -> l + n <= capacity c ->
  netblk_write_overlaps c l n = false -> forall k, l <= k < l + n -> pending c k = None.
Proof.
  intros Hm Hl Hn Hln. unfold netblk_write_overlaps. destruct (Z.leb_spec n 0); [lia|].
  pose proof (mo_nb c Hm) as Hnb. destruct (mo_ws c Hm) as (Hws & Hs0 & Hsn). destruct (mo_table c Hm) as (_ & Hok & _).
  unfold NETBLK_WRITE_BUFFER_SECTORS in *.
  rewrite !u64_id by (unfold inw; lia). rewrite orb_false_iff. intros [Hbuf Htab] k Hk. unfold pending.
  destruct (dirty_data (table c) k) as [d|] eqn:Ed.
  - exfalso. assert (He : writeback_enabled c = true).
    { apply (mo_enabled c Hm). unfold table in Ed. destruct (writeback c); [by eexists|discriminate]. }
    rewrite He in Htab. cbn [andb] in Htab. destruct (find_dirty (table c) k) as [[_ Hno]|(j & e & t1 & t2 & _ & _ & _ & Et & Hd & Hek & _)];
      [congruence|]. apply not_true_iff_false in Htab. apply Htab. apply existsb_exists. exists e.
    split; [rewrite Et; apply in_app_iff; right; by left|]. rewrite Hd, Hek.
    destruct (Z.leb_spec l k), (Z.ltb_spec k (l + n)); try lia; done.
  - unfold nz in Hbuf. destruct (Z.eqb_spec (write_sectors c) 0) as [E|E]; cbn [negb andb] in Hbuf.
    + rewrite E. destruct (Z.leb_spec (write_sector c) k), (Z.ltb_spec k (write_sector c + 0)); try lia; done.
    + destruct (Z.leb_spec (write_sector c) k), (Z.ltb_spec k (write_sector c + write_sectors c)); try done.
      destruct (Z.ltb_spec l (write_sector c + write_sectors c)), (Z.ltb_spec (write_sector c) (l + n)); try lia; done.
Qed.

Lemma read_async_spec c l n :
  mem_ok c -> inw 64 l -> run_to (netblk_read_async profile l n) c (read_done c l n).
Proof.
  intros Hm Hl. unfold netblk_read_async. destruct (bad_range c l n) eqn:Eg.
  { exists (FAILURE, []), c. rewrite Eg. split; [done|]. split; [done|]. split; [done|]. split; [by right|].
    split; [change (alen (FAILURE, @nil Z).2) with 0; unfold SECTOR_SIZE; lia|].
    intros Hn Hln. by rewrite (proj2 (in_range_spec c l n Hm Hl)) in Eg. }
  eapply run_as; [cbv beta; rewrite Eg; reflexivity|].
  apply (in_range_spec c l n Hm Hl) in Eg as [Hn Hln]. destruct Hl as [Hl _]. pose proof (mo_nb c Hm) as Hnb.
  destruct (mo_max c Hm) as [_ Hmax].
  eapply (run_bind _ _ _ (fun rc c1 => mem_ok c1 /\ frame c c1 /\ rc_ok rc /\
    forall V, live c V -> rc = SUCCESS /\ live c1 V /\
      ((exists k', l <= k' < l + n /\ pending c k' <> None) -> forall k, pending c1 k = None) /\
      ((forall k', l <= k' < l + n -> pending c k' = None) -> c1 = c \/ forall k, pending c1 k = None))).
  { destruct (netblk_write_overlaps c l n) eqn:Eo.
    - eapply run_mono; [by apply drain_writes_spec|]. intros rc c1 ((Hm1 & Hf1 & _) & Hrc & Hz & Hlv).
      split; [done|]. split; [done|]. split; [done|]. intros V HV. destruct (Hlv V HV) as [-> HV1].
      destruct (Hz eq_refl) as [Hz1 Hz2]. split; [done|]. split; [done|].
      assert (Hnone : forall k, pending c1 k = None).
      { intros k. unfold pending. rewrite Hz2, Hz1. cbn [dirty_data].
        destruct (Z.leb_spec (write_sector c1) k), (Z.ltb_spec k (write_sector c1 + 0)); try lia; done. }
      split; [done|]. by right.
    - apply run_ret. split; [done|]. split; [done|]. split; [by left|]. intros V HV. split; [done|]. split; [done|].
      pose proof (overlaps_spec c l n Hm Hl ltac:(lia) Hln Eo) as Hno.
      split; [|by left]. intros (k' & Hk' & Hp). by rewrite Hno in Hp. }
  intros rc c1 (Hm1 & Hf1 & Hrc & Hlv).
  destruct (rc_cases rc Hrc) as [[-> Eb]|[-> Eb]]; rewrite Eb; clear Eb.
  2:{ apply run_ret. split; [done|]. split; [by apply frame_dims|]. split; [by right|].
      split; [change (alen (FAILURE, @nil Z).2) with 0; unfold SECTOR_SIZE; lia|].
      intros _ _ V HV. by destruct (Hlv V HV). }
  rewrite u64_id by (unfold inw; lia). pose proof (frame_nb c c1 Hf1) as En1. pose proof (frame_dims c c1 Hf1) as Hd1.
  eapply run_mono; [apply (read_loop_spec _ c1 l l (l + n) [] Hm1); unfold NETBLK_MAX_SECTORS in *; lia|].
  intros r c' (Hm' & Hd' & Hrc' & Hle & _ & Hlp). change (alen (@nil Z)) with 0 in Hle.
  split; [done|]. split; [by eapply dims_trans|]. split; [done|]. split; [unfold SECTOR_SIZE in *; lia|].
  intros _ _ V HV. destruct (Hlv V HV) as (_ & HV1 & Hov & Hnov). destruct (Hlp V HV1) as (Hok & HV' & Hca).
  split; [done|]. split; [done|]. intros Hc Hhid. replace (l + n - l) with n in Hca by lia. cbn [app] in Hca.
  apply Hca; [by eapply frame_cached|]. intros k Hk Hh. rewrite En1 in Hk.
  unfold hull in Hh. rewrite (dims_prefetch c c1 Hd1) in Hh.
  destruct (pending c k) as [dk|] eqn:Ek.
  - apply Hov. apply (Hhid k Hk Hh). by rewrite Ek.
  - destruct (decide (Exists (fun k' => pending c k' <> None) (seqZ l n))) as [He|He].
    + apply Hov. apply Exists_exists in He as (k' & Hin & Hp). apply elem_of_seqZ in Hin. by exists k'.
    + destruct Hnov as [-> | Hnone]; [|done|by apply Hnone].
      intros k' Hk'. destruct (pending c k') eqn:E; [|done]. exfalso. apply He, Exists_exists. exists k'.
      rewrite E. split; [apply elem_of_seqZ; lia|done].
Qed.

(** *** Flushing *)

(** Every sector is on the server. *)
Definition durable c (V : Z -> list Z) : Prop :=
  exists D, served D c /\ forall k, 0 <= k < capacity c -> sec D k = V k.

Lemma drained_durable c V : live c V -> write_sectors c = 0 -> table c = [] -> durable c V.
Proof.
  intros (_ & _ & D & Hs & HV) Hw Ht. exists D. split; [done|]. intros k Hk. rewrite (HV k Hk). unfold pending.
  rewrite Ht, Hw. cbn [dirty_data].
  destruct (Z.leb_spec (write_sector c) k), (Z.ltb_spec k (write_sector c + 0)); try lia; done.
Qed.

Definition flush_done c (rc : Z) c' : Prop :=
  flushed c c' /\ rc_ok rc /\
  forall V, live c V -> rc = SUCCESS /\ live c' V /\ (read_only c = false -> writable c = true -> durable c' V).

Lemma flush_rpc_spec c c1 :
  flushed c c1 -> run_to (request_rc profile NETBLK_OP_FLUSH 0 0 []) c1 (fun rc c' =>
    flushed c c' /\ rc_ok rc /\ forall V, live c1 V -> rc = SUCCESS /\ live c' V /\ (durable c1 V -> durable c' V)).
Proof.
  intros (Hm1 & Hf1 & Hi1). eapply run_mono; [apply request_flush_spec|]. intros rc c' (Ht & Hrc & Hreq).
  split; [split; [by eapply touched_mem|split; [eapply frame_trans; [exact Hf1|by apply touched_frame]|by destruct Ht as (? & ? & ->)]]|].
  split; [done|]. intros V (Hnb & Hmx & D & Hs & HV). destruct (Hreq D Hs) as [-> Hs']. split; [done|].
  assert (Hp : forall k, pending c' k = pending c1 k) by (intros k; by apply touched_pending).
  destruct Ht as (so & w & ->). split.
  - split; [done|]. split; [done|]. exists D. split; [done|]. intros k Hk. rewrite Hp. by apply HV.
  - intros (D' & Hs1 & HD). exists D'. split; [|done]. by apply Hreq.
Qed.

Lemma flush_spec c : mem_ok c -> run_to (netblk_flush profile) c (flush_done c).
Proof.
  intros Hm. unfold netblk_flush. destruct (read_only c || negb (writable c)) eqn:Eg.
  { exists SUCCESS, c. rewrite Eg. split; [done|]. split; [by split|]. split; [by left|]. intros V HV.
    split; [done|]. split; [done|]. intros Hro Hwr. by rewrite Hro, Hwr in Eg. }
  eapply run_as; [cbv beta; rewrite Eg; reflexivity|].
  eapply run_bind; [by apply drain_writes_spec|]. intros rc c1 (Hfl & Hrc & Hz & Hlv).
  destruct (rc_cases rc Hrc) as [[-> Eb]|[-> Eb]]; rewrite Eb; clear Eb.
  2:{ apply run_ret. split; [done|]. split; [by right|]. intros V HV. by destruct (Hlv V HV). }
  eapply run_mono; [by apply (flush_rpc_spec c c1)|]. intros rc c' (Hfl' & Hrc' & Hlv').
  split; [done|]. split; [done|]. intros V HV. destruct (Hlv V HV) as [_ HV1]. destruct (Hlv' V HV1) as (-> & HV' & Hd).
  split; [done|]. split; [done|]. intros _ _. apply Hd. destruct (Hz eq_refl). by apply drained_durable.
Qed.

(** *** PING *)

Lemma telemetry_length c phys fl state code : alen (telemetry c phys fl state code) = 72.
Proof. reflexivity. Qed.

Lemma ping_spec c loop cycles cs ip phys fl state code :
  inw 32 ip ->
  run_to (netblk_ping loop cycles cs ip phys fl state code) c (fun rc c' => touched c c' /\ rc_ok rc /\
    forall D, served D c -> rc = SUCCESS /\ served D c').
Proof.
  intros Hip. unfold netblk_ping. apply run_gets_then. set (tel := telemetry c phys fl state code).
  pose proof (telemetry_length c phys fl state code) as Htel. fold tel in Htel. clearbody tel. cbv zeta.
  set (h := mkHeader _ _ _ _ _ _ _ _).
  assert (Hw : header_wf h).
  { pose proof (header_init_wf NETBLK_OP_PING loop cycles (alen tel) phys) as [? ? ? ? ? ? ? ?].
    constructor; try done; cbn; [|apply inw_u32]. by apply inw_shiftr. }
  assert (Hl : alen (header_bytes h) = 32) by (unfold alen; rewrite header_bytes_length; [done|apply Hw]).
  assert (Hhb : hbytes h = 72) by (cbn; by rewrite Htel).
  assert (Hsz : forall out, request_size (header_bytes h ++ out) = 104)
    by (intros out; rewrite request_size_header by done; rewrite Hhb; done).
  assert (Hspec : forall D, deliver (mkLink D (header_bytes h ++ tel) []) = mkLink D [] (Server.reply NETBLK_OP_PING 0 0 0 0 0)).
  { intros D. unfold deliver. cbn [to_server to_client server_disk]. rewrite Hsz, Server.alen_app, Hl, Htel. cbn [Z.leb Z.add].
    change (104 <=? 32 + 72) with true. cbv iota.
    rewrite Server.spec_request_header by done. unfold Server.spec_op. change (op h) with 5. cbv iota.
    unfold Server.spec_payload. rewrite Hhb. pose proof (Server.max_bytes_range st Hcfg).
    destruct (Z.ltb_spec (Server.max_bytes st) 72); [lia|]. rewrite Htel. cbn [Z.leb].
    change (72 <=? 72) with true. cbv iota. rewrite drop_ge by (unfold alen in Htel; lia). done. }
  eapply run_on_fd; [apply send_all_spec|]. intros rc so1 [Hrc Hs1].
  assert (Hk1 : forall D, served D c -> rc = SUCCESS /\ link so1 = Some (mkLink D (header_bytes h) [])).
  { intros D [Hd _]. destruct (Hs1 D [] Hd) as [-> E].
    - intros E. rewrite E in Hl. discriminate.
    - cbn [app]. rewrite <- (app_nil_r (header_bytes h)) at 2. rewrite Hsz. lia.
    - split; [done|]. rewrite E. f_equal. apply deliver_incomplete. cbn [app].
      rewrite <- (app_nil_r (header_bytes h)) at 2. rewrite Hsz. lia. }
  destruct (rc_cases rc Hrc) as [[-> Eb]|[-> Eb]]; rewrite Eb; clear Eb.
  2:{ apply run_ret. split; [apply touched_fd|]. split; [by right|]. intros D Hs. by destruct (Hk1 D Hs). }
  eapply run_on_fd; [apply send_all_spec|]. intros rc so2 [Hrc2 Hs2].
  change (fd (c <| fd := so1 |>)) with so1 in Hs2. change ((c <| fd := so1 |>) <| fd := so2 |>) with (c <| fd := so2 |>).
  assert (Hk2 : forall D, served D c -> rc = SUCCESS /\ link so2 = Some (mkLink D [] (Server.reply NETBLK_OP_PING 0 0 0 0 0))).
  { intros D Hs. destruct (Hk1 D Hs) as [_ Hl1]. destruct (Hs2 D (header_bytes h) Hl1) as [-> E].
    - intros E. by rewrite E in Htel.
    - rewrite Hsz, Server.alen_app. lia.
    - split; [done|]. by rewrite E, Hspec. }
  destruct (rc_cases rc Hrc2) as [[-> Eb]|[-> Eb]]; rewrite Eb; clear Eb.
  2:{ apply run_ret. split; [apply touched_fd|]. split; [by right|]. intros D Hs. by destruct (Hk2 D Hs). }
  eapply run_on_fd; [apply recv_all_spec|]. intros [rc3 b] so3 (Hrc3 & _ & _ & Hs3).
  change (fd (c <| fd := so2 |>)) with so2 in Hs3. change ((c <| fd := so2 |>) <| fd := so3 |>) with (c <| fd := so3 |>).
  apply run_ret. cbn [fst snd] in *. split; [apply touched_fd|]. split.
  { destruct (rc3 <? 0); [by right|]. case_match; [by left|by right]. }
  intros D Hs. destruct (Hk2 D Hs) as [_ Hl2]. destruct (Hs3 D [] _ Hl2) as [[= -> ->] Hl3]; [vm_compute; intuition congruence|].
  split; [done|]. split; [exact Hl3|apply Hs].
Qed.

(** *** Opening the device *)

Lemma clamp_max_range b : 1 <= clamp_max b <= NETBLK_MAX_SECTORS.
Proof.
  unfold clamp_max, NETBLK_MAX_SECTORS. set (m := if nz b then s32 b else 1024). clearbody m.
  destruct (Z.ltb_spec 1024 m); [done|]. destruct (Z.ltb_spec m 1); lia.
Qed.
Lemma clamp_prefetch_range e m : 1 <= m ->
  1 <= clamp_prefetch e m <= NETBLK_READ_CACHE_SECTORS /\ clamp_prefetch e m <= m.
Proof.
  intros Hm. unfold clamp_prefetch, NETBLK_READ_CACHE_SECTORS.
  assert (Hp : 1 <= match e with Some r => if 0 <? r then r else 64 | None => 64 end)
    by (destruct e as [r|]; [destruct (Z.ltb_spec 0 r)|]; lia).
  set (p := match e with Some r => if 0 <? r then r else 64 | None => 64 end) in *. clearbody p.
  destruct (Z.ltb_spec m p).
  - destruct (Z.ltb_spec 512 m); [|destruct (Z.ltb_spec m 1)]; cbn; lia.
  - destruct (Z.ltb_spec 512 p); [|destruct (Z.ltb_spec p 1)]; cbn; lia.
Qed.

Definition fresh (so : S) (ro enabled : bool) : NetClient S :=
  mkNet so ro false 0 0 0 (replicate (Z.to_nat NETBLK_READ_CACHE_WINDOWS) (mkWindow (Some []) 0 0)) 0
    (Some []) 0 0 None enabled 0 0 0 0 0.

Lemma ask_hello D : 0 < Server.sector_count st ->
  answered NETBLK_OP_HELLO 0 0 [] 0 D D
    (init_header NETBLK_OP_HELLO (Server.sector_count st) SECTOR_SIZE (Server.max_sectors (Server.cfg st)) 0 1) [].
Proof.
  intros Hp. split; [|..|apply init_header_wf|done|done|done].
  - rewrite request_size_header by apply header_init_wf. done.
  - rewrite Server.spec_request_header by (done || apply header_init_wf). rewrite app_nil_r.
    unfold Server.spec_op. change (op (request_header NETBLK_OP_HELLO 0 0 [])) with 1. cbv iota.
    rewrite Hrw. done.
Qed.

(** The device opened on a server that announced [n] sectors. *)
Definition opened (c1 : NetClient S) (m p n : Z) (w : bool) : NetClient S :=
  c1 <| nb_sectors := n |> <| max_sectors := m |> <| prefetch_sectors := p |> <| writable := w |>.

Lemma opened_mem c1 so ro enabled m p n w :
  touched (fresh so ro enabled) c1 -> 1 <= m <= NETBLK_MAX_SECTORS -> 1 <= p <= NETBLK_READ_CACHE_SECTORS -> p <= m ->
  0 < u64 n -> mem_ok (opened c1 m p n w) /\ forall V, cached (opened c1 m p n w) V.
Proof.
  intros (so' & wt & ->) Hm Hp Hpm Hn. set (c0 := fresh so ro enabled).
  set (c := opened (c0 <| fd := so' |> <| net_wait_us := wt |>) m p n w).
  assert (Hw : windows c = replicate 8 (mkWindow (Some []) 0 0)) by reflexivity.
  assert (Hok : window_ok (u64 n) (mkWindow (Some []) 0 0)).
  { exists []. unfold NETBLK_READ_CACHE_SECTORS, SECTOR_SIZE. cbn [w_data w_sector w_sectors].
    change (alen (@nil Z)) with 0. split; [done|]. lia. }
  split.
  - constructor; rewrite ?Hw.
    + exact Hm.
    + exact (conj Hp Hpm).
    + split; [exact Hn|]. exact (proj2 (inw_u64 n)).
    + split; [reflexivity|]; by apply Forall_replicate.
    + by split.
    + split; [reflexivity|]; split; vm_compute; congruence.
    + change (0 <= 0 <= NETBLK_WRITE_BUFFER_SECTORS /\ 0 <= 0 /\ 0 + 0 <= u64 n).
      unfold NETBLK_WRITE_BUFFER_SECTORS. lia.
    + split; [vm_compute; congruence|]; split; [by apply List.Forall_nil|]; apply NoDup_nil_2.
    + by intros [? [=]].
  - intros V. unfold cached. rewrite Hw. apply Forall_replicate. intros d k _ Hk.
    change (0 <= k < 0 + 0) in Hk. lia.
Qed.

Lemma opened_pending c1 so ro enabled m p n w k :
  touched (fresh so ro enabled) c1 -> pending (opened c1 m p n w) k = None.
Proof.
  intros (so' & wt & ->). set (c := opened _ m p n w).
  assert (E : pend_fields c = ([], 0, 0, [])) by reflexivity. clearbody c.
  unfold pend_fields in E. injection E as E1 E2 E3 E4. unfold pending. rewrite E1, E2, E3. cbn [dirty_data].
  destruct (Z.leb_spec 0 k), (Z.ltb_spec k (0 + 0)); try lia; done.
Qed.

Lemma sgn64_id z : 0 <= z < 2 ^ 63 -> sgn 64 (u64 z) = z.
Proof.
  intros Hz. unfold sgn. rewrite u64_id, Z.mod_small by (unfold inw; lia).
  change (2 ^ (64 - 1)) with (2 ^ 63). by destruct (Z.ltb_spec z (2 ^ 63)); [|lia].
Qed.
(** The announced number survives the [int64_t]. *)
Lemma u64_sgn64 z : inw 64 z -> u64 (sgn 64 z) = z.
Proof.
  intros Hz. unfold sgn, u64. rewrite (Z.mod_small z) by exact Hz. case_match; [by apply Z.mod_small|].
  replace (z - 2 ^ 64) with (z + (-1) * 2 ^ 64) by lia. rewrite Z.mod_add by lia. by apply Z.mod_small.
Qed.

Lemma init_net_spec so ro ew ep :
  exists r, block_device_init_net profile pcmalloc so ro ew ep = Done r /\
    (forall c, r = Some c -> read_only c = ro /\ mem_ok c /\ forall V, cached c V) /\
    (forall D, link so = Some (mkLink D [] []) -> alen D = size -> 0 < Server.sector_count st ->
       (forall n, pcmalloc n = true) ->
       exists c, r = Some c /\ live c (sec D) /\ mem_ok c /\ cached c (sec D) /\ writable c = true /\
         nb_sectors c = Server.sector_count st /\
         prefetch_sectors c = clamp_prefetch ep (Server.max_sectors (Server.cfg st))).
Proof.
  unfold block_device_init_net. set (en := match ew with None => true | Some v => nz v end).
  destruct (negb (pcmalloc _) || negb (pcmalloc _)) eqn:Em.
  { exists None. split; [done|]. split; [done|]. intros D _ _ _ Hall. by rewrite !Hall in Em. }
  fold (fresh so ro en).
  destruct (request_spec NETBLK_OP_HELLO 0 0 [] 0 (fresh so ro en)) as (r & c1 & -> & Ht1 & _ & Hwf & Hans).
  assert (Hhello : forall D, link so = Some (mkLink D [] []) -> 0 < Server.sector_count st ->
    r = (Some (init_header NETBLK_OP_HELLO (Server.sector_count st) SECTOR_SIZE (Server.max_sectors (Server.cfg st)) 0 1), []) /\
    link (fd c1) = Some (mkLink D [] [])).
  { intros D Hd Hp. apply (Hans D D _ [] Hd). by apply ask_hello. }
  destruct r as [[hello|] data]; cbn [fst].
  2:{ exists None. split; [done|]. split; [done|]. intros D Hd _ Hp _. by destruct (Hhello D Hd Hp). }
  destruct Hsize as [Hsc0 Hsc]. destruct Hcfg as ([Hmx1 Hmx2] & _).
  destruct (negb (count hello =? SECTOR_SIZE) || (lba hello =? 0)) eqn:Eh.
  { exists None. split; [done|]. split; [done|]. intros D Hd _ Hp _. destruct (Hhello D Hd Hp) as [[= -> _] _].
    cbn in Eh. rewrite (u64_id (Server.sector_count st)) in Eh by (unfold inw, SECTOR_SIZE in *; lia).
    destruct (Z.eqb_spec (Server.sector_count st) 0); [lia|done]. }
  destruct (ping_spec c1 0 0 0 0 0 0 0 None) as (rc & c2 & -> & Ht2 & _ & Hping); [done|].
  pose proof (touched_trans _ _ _ Ht1 Ht2) as Ht. set (m := clamp_max (hbytes hello)).
  pose proof (clamp_max_range (hbytes hello)) as Hm. fold m in Hm.
  destruct (clamp_prefetch_range ep m) as [Hp Hpm]; [lia|].
  assert (Hnb : 0 < u64 (sgn 64 (lba hello))).
  { destruct (Hwf hello eq_refl) as [Hwh _]. rewrite u64_sgn64 by apply Hwh. apply orb_false_iff in Eh as [_ Eh]. apply Z.eqb_neq in Eh. destruct (wf_lba hello Hwh). lia. }
  remember (sgn 64 (lba hello)) as n eqn:En. remember (Z.testbit (flags hello) 0) as w eqn:Ew.
  remember (clamp_prefetch ep m) as p eqn:Ep. exists (Some (opened c2 m p n w)). split; [done|]. split.
  { intros c' [= <-]. split; [by destruct Ht as (? & ? & ->)|]. by apply (opened_mem c2 so ro en). }
  intros D Hd HD Hpos _. destruct (Hhello D Hd Hpos) as [[= Eh' _] Hl1]. exists (opened c2 m p n w). split; [done|].
  destruct (Hping D) as [_ [Hl2 _]]; [by split|].
  assert (Em' : m = Server.max_sectors (Server.cfg st)).
  { unfold m, clamp_max, NETBLK_MAX_SECTORS, nz. rewrite Eh'. cbn [hbytes init_header].
    rewrite u32_id by (unfold inw; lia). destruct (Z.eqb_spec (Server.max_sectors (Server.cfg st)) 0); [lia|]. cbn [negb].
    rewrite s32_fits by lia. destruct (Z.ltb_spec 1024 (Server.max_sectors (Server.cfg st))); [lia|].
    by destruct (Z.ltb_spec (Server.max_sectors (Server.cfg st)) 1); [lia|]. }
  assert (En' : n = Server.sector_count st).
  { rewrite En, Eh'. apply sgn64_id. unfold SECTOR_SIZE in *. lia. }
  assert (Ew' : w = true) by (by rewrite Ew, Eh'). rewrite Em' in Ep. clear Eh' En Ew. clearbody m. subst w p n m.
  destruct (opened_mem c2 so ro en (Server.max_sectors (Server.cfg st))
    (clamp_prefetch ep (Server.max_sectors (Server.cfg st))) (Server.sector_count st) true Ht Hm Hp Hpm) as [Hmem Hca];
    [unfold SECTOR_SIZE in *; lia|].
  split; [|done]. split; [by apply capacity_server|]. split; [done|].
  exists D. split; [by split|].
  intros k Hk. by rewrite (opened_pending c2 so ro en).
Qed.

(** *** Runs of the device *)

Inductive net_op :=
| NetRead (l n : Z)
| NetWrite (l : Z) (buf : list Z) (n : Z)
| NetFlush
| NetPing (loop cycles cs ip phys flags_ state : Z) (code : option (list Z)).

(** The arguments C can pass: a 64-bit sector, a buffer of [n] sectors. *)
Definition net_op_ok (o : net_op) : Prop :=
  match o with
  | NetRead l n => inw 64 l
  | NetWrite l buf n => inw 64 l /\ (0 <= n -> n * SECTOR_SIZE <= alen buf)
  | NetFlush => True
  | NetPing _ _ _ ip _ _ _ _ => inw 32 ip
  end.

(** The return code, and the bytes stored in the caller's buffer. *)
Definition run_net_op (o : net_op) : ST (NetClient S) (Z * list Z) :=
  match o with
  | NetRead l n => netblk_read_async profile l n
  | NetWrite l buf n => rc ← netblk_write_async profile pcmalloc l buf n; mret (rc, [])
  | NetFlush => rc ← netblk_flush profile; mret (rc, [])
  | NetPing loop cycles cs ip phys fl state code =>
      rc ← netblk_ping loop cycles cs ip phys fl state code; mret (rc, [])
  end.
Fixpoint run_net_ops (os : list net_op) : ST (NetClient S) (list (Z * list Z)) :=
  match os with
  | [] => mret []
  | o :: os => r ← run_net_op o; rs ← run_net_ops os; mret (r :: rs)
  end.

Definition result_fits (o : net_op) (r : Z * list Z) : Prop :=
  rc_ok r.1 /\ alen r.2 <= match o with NetRead _ n => Z.max 0 n * SECTOR_SIZE | _ => 0 end.

Lemma run_then_ret {A B} (m : ST (NetClient S) A) (f : A -> B) c (P : A -> NetClient S -> Prop) (Q : B -> NetClient S -> Prop) :
  run_to m c P -> (forall a c', P a c' -> Q (f a) c') -> run_to (a ← m; mret (f a)) c Q.
Proof. intros Hr HQ. eapply run_bind; [exact Hr|]. intros a c' HP. apply run_ret. auto. Qed.

Lemma net_op_safe o c : mem_ok c -> net_op_ok o ->
  run_to (run_net_op o) c (fun r c' => mem_ok c' /\ result_fits o r).
Proof.
  intros Hm Ho. destruct o as [l n|l buf n| |loop cycles cs ip phys fl state code]; cbn [run_net_op net_op_ok] in *.
  - eapply run_mono; [by apply read_async_spec|]. intros r c' (Hm' & _ & Hrc & Hle & _). done.
  - destruct Ho as [Hl Hb]. eapply run_then_ret; [by apply (write_async_spec c l n buf)|].
    intros rc c' (Hm' & _ & Hrc & _). done.
  - eapply run_then_ret; [by apply flush_spec|]. intros rc c' ((Hm' & _) & Hrc & _). done.
  - eapply run_then_ret; [by apply (ping_spec c)|]. intros rc c' (Ht & Hrc & _).
    split; [by eapply touched_mem|done].
Qed.

Lemma net_ops_safe os c : mem_ok c -> Forall net_op_ok os ->
  run_to (run_net_ops os) c (fun rs c' => mem_ok c' /\ Forall2 result_fits os rs).
Proof.
  revert c. induction os as [|o os IH]; intros c Hm Ho; cbn [run_net_ops].
  { apply run_ret. split; [done|constructor]. }
  apply Forall_cons in Ho as [Ho Hos]. eapply run_bind; [by apply net_op_safe|]. intros r c1 [Hm1 Hr].
  eapply run_then_ret; [by apply IH|]. intros rs c' [Hm' Hrs]. split; [done|by constructor].
Qed.

(** *** The abstract disk *)

Definition valid_op c (l n : Z) : bool := (0 <=? n) && (n <=? max_sectors c) && (l + n <=? capacity c).

(** An operation on a disk whose sectors are [V]. *)
Definition disk_op c (o : net_op) (V : Z -> list Z) : (Z * list Z) * (Z -> list Z) :=
  match o with
  | NetRead l n => if valid_op c l n then ((SUCCESS, concat (V <$> seqZ l n)), V) else ((FAILURE, []), V)
  | NetWrite l buf n => if valid_op c l n then ((SUCCESS, []), vwrite V l n buf) else ((FAILURE, []), V)
  | _ => ((SUCCESS, []), V)
  end.
Fixpoint disk_ops c (os : list net_op) (V : Z -> list Z) : list (Z * list Z) * (Z -> list Z) :=
  match os with
  | [] => ([], V)
  | o :: os => let (r, V) := disk_op c o V in let (rs, V) := disk_ops c os V in (r :: rs, V)
  end.

(** The device in use on a server. *)
Record device c (V : Z -> list Z) : Prop := {
  dev_mem : mem_ok c; dev_live : live c V; dev_cached : cached c V;
  dev_rw : read_only c = false /\ writable c = true;
}.

Lemma valid_range_bad c l n : mem_ok c -> inw 64 l -> bad_range c l n = negb (valid_op c l n).
Proof.
  intros Hm Hl. destruct (valid_op c l n) eqn:E; unfold valid_op in E.
  - rewrite !andb_true_iff, !Z.leb_le in E. by apply in_range_spec.
  - apply not_false_iff_true. rewrite in_range_spec by done. intros Hr.
    apply not_true_iff_false in E. apply E. rewrite !andb_true_iff, !Z.leb_le. lia.
Qed.

Lemma dims_rw c c' : same_dims c c' -> read_only c = false /\ writable c = true ->
  read_only c' = false /\ writable c' = true.
Proof. unfold same_dims, dims. intros [=]. intros []. split; congruence. Qed.

Lemma dims_disk_op c c' o V : same_dims c c' -> disk_op c' o V = disk_op c o V.
Proof. unfold same_dims, dims, disk_op, valid_op, capacity. intros [= _ _ -> _ -> _]. done. Qed.
Lemma dims_disk_ops c c' os V : same_dims c c' -> disk_ops c' os V = disk_ops c os V.
Proof.
  intros Hd. revert V. induction os as [|o os IH]; intros V; cbn [disk_ops]; [done|].
  rewrite (dims_disk_op c c' o V Hd). destruct (disk_op c o V) as [r V1]. by rewrite IH.
Qed.

(** What an operation of a read must not meet: a sector near the request that
    the server does not have yet, when the request itself holds none. *)
Definition no_hidden c (o : net_op) : Prop :=
  match o with
  | NetRead l n => forall k, 0 <= k < capacity c -> hull c l (l + n) k -> pending c k <> None ->
      exists k', l <= k' < l + n /\ pending c k' <> None
  | _ => True
  end.

Lemma run_as_done {A} (m : ST (NetClient S) A) c a c' (Q : A -> NetClient S -> Prop) :
  m c = Done (a, c') -> Q a c' -> run_to m c Q.
Proof. intros E HQ. by exists a, c'. Qed.

Lemma valid_op_true c l n : valid_op c l n = true -> 0 <= n <= max_sectors c /\ l + n <= capacity c.
Proof. unfold valid_op. rewrite !andb_true_iff, !Z.leb_le. lia. Qed.

Lemma device_op o c V :
  device c V -> net_op_ok o -> no_hidden c o ->
  run_to (run_net_op o) c (fun r c' => same_dims c c' /\ r = (disk_op c o V).1 /\ device c' (disk_op c o V).2).
Proof.
  intros [Hm Hlv Hca Hrw'] Ho Hh.
  destruct o as [l n|l buf n| |loop cycles cs ip phys fl state code]; cbn [run_net_op net_op_ok disk_op no_hidden] in *.
  - destruct (valid_op c l n) eqn:Ev.
    + apply valid_op_true in Ev as [Hn Hln]. eapply run_mono; [by apply read_async_spec|].
      intros [rc data] c' (Hm' & Hd & _ & _ & Hr). destruct (Hr Hn Hln V Hlv) as (Hok & Hlv' & Hc).
      cbn [fst snd] in *. destruct (Hc Hca Hh) as [-> Hca']. split; [done|]. split; [by rewrite Hok|].
      split; try done. by apply (dims_rw c).
    + apply (run_as_done _ c (FAILURE, []) c); [|by split]. unfold netblk_read_async.
      by rewrite (valid_range_bad c l n Hm Ho), Ev.
  - destruct Ho as [Hl Hb]. destruct (valid_op c l n) eqn:Ev.
    + apply valid_op_true in Ev as [Hn Hln]. eapply run_then_ret; [by apply (write_async_spec c l n buf)|].
      intros rc c' (Hm' & Hd & _ & Hw). destruct Hrw' as [Hro Hwr].
      destruct (Hw Hro Hwr Hn Hln V Hlv) as (-> & Hlv' & Hc). split; [done|]. split; [done|].
      split; [done|done|by apply Hc|]. by apply (dims_rw c).
    + apply (run_as_done _ c (FAILURE, []) c); [|by split]. unfold mbind, ST_bind, netblk_write_async.
      by rewrite (valid_range_bad c l n Hm Hl), Ev, orb_true_r.
  - eapply run_then_ret; [by apply flush_spec|]. intros rc c' ((Hm' & Hf & _) & _ & Hfl).
    destruct (Hfl V Hlv) as (-> & Hlv' & _). split; [by apply frame_dims|]. split; [done|].
    split; [done|done|by eapply frame_cached|]. apply (dims_rw c); [by apply frame_dims|done].
  - eapply run_then_ret; [by apply (ping_spec c)|]. intros rc c' (Ht & _ & Hp).
    destruct Hlv as (Hnb & Hmx & D & Hs & HV). destruct (Hp D Hs) as [-> Hs'].
    assert (Hpd : forall k, pending c' k = pending c k) by (intros k; by apply touched_pending).
    assert (Hm' : mem_ok c') by (by eapply touched_mem). destruct Ht as (so & w & ->).
    split; [done|]. split; [done|]. split; [done| |done|done].
    split; [done|]. split; [done|]. exists D. split; [done|]. intros k Hk. rewrite Hpd. by apply HV.
Qed.

Lemma hidden_one c o : prefetch_sectors c = 1 -> no_hidden c o.
Proof.
  intros Hp. destruct o as [l n|l buf n| |]; cbn [no_hidden]; try done. intros k Hk Hh Hpd. exists k.
  split; [|done]. unfold hull, block in Hh. rewrite Hp, !Z.div_1_r, !Z.mul_1_r in Hh. lia.
Qed.

(** C1. With prefetching off (TINY386_NET_PREFETCH_SECTORS=1) the client and
    the server together are a disk: every run of operations gives the return
    codes and data of the same run on an array of sectors, through the cache,
    the write buffer, the writeback table and its drains, and leaves that array. *)
Theorem client_is_disk os c V :
  device c V -> prefetch_sectors c = 1 -> Forall net_op_ok os ->
  exists c', run_net_ops os c = Done ((disk_ops c os V).1, c') /\ device c' (disk_ops c os V).2.
Proof.
  revert c V. induction os as [|o os IH]; intros c V Hd Hp Ho; cbn [run_net_ops disk_ops]; [by exists c|].
  apply Forall_cons in Ho as [Ho Hos].
  destruct (device_op o c V Hd Ho (hidden_one c o Hp)) as (r & c1 & E & Hdim & -> & Hd1).
  destruct (IH c1 _ Hd1) as (c' & E' & Hd'); [by rewrite (dims_prefetch c c1)|done|].
  rewrite (dims_disk_ops c c1) in E', Hd' by done. destruct (disk_op c o V) as [r1 V1]. cbn [fst snd] in *.
  destruct (disk_ops c os V1) as [rs V2]. cbn [fst snd] in *. exists c'. split; [|done].
  by rewrite (st_bind_done _ _ _ _ _ E), (st_bind_done _ _ _ _ _ E').
Qed.

(** With any prefetch setting, a read returns the current sectors, and
    leaves the cache right, when no unsent sector lies in the prefetch blocks
    of the request unless one lies in the request itself. *)
Theorem read_current c V l n :
  device c V -> inw 64 l -> 0 <= n <= max_sectors c -> l + n <= capacity c ->
  no_hidden c (NetRead l n) ->
  exists c', netblk_read_async profile l n c = Done ((SUCCESS, concat (V <$> seqZ l n)), c') /\ device c' V.
Proof.
  intros Hd Hl Hn Hln Hh. destruct (device_op (NetRead l n) c V Hd Hl Hh) as (r & c' & E & _ & -> & Hd').
  cbn [disk_op run_net_op] in *. assert (Ev : valid_op c l n = true)
    by (unfold valid_op; rewrite !andb_true_iff, !Z.leb_le; lia). rewrite Ev in *. by exists c'.
Qed.

(** C19. A flush is durable: once [netblk_flush] returns, the server's disk
    holds every sector as last written, and the device goes on working; closing
    the device sends everything too. *)
Theorem flush_durable c V :
  device c V ->
  (exists c', netblk_flush profile c = Done (SUCCESS, c') /\ device c' V /\ durable c' V) /\
  (exists c', net_close profile c = Done (tt, c') /\ durable c' V).
Proof.
  intros [Hm Hlv Hca Hrw']. split.
  - destruct (flush_spec c Hm) as (rc & c' & E & (Hm' & Hf & _) & _ & Hfl).
    destruct (Hfl V Hlv) as (-> & Hlv' & Hd). exists c'. split; [done|]. split; [|apply Hd; apply Hrw'].
    split; [done|done|by eapply frame_cached|]. apply (dims_rw c); [by apply frame_dims|done].
  - unfold net_close. destruct Hrw' as [-> ->]. cbn [negb andb].
    destruct (drain_writes_spec c Hm) as (rc & c1 & E & Hfl & _ & Hz & Hd). destruct (Hd V Hlv) as [-> Hlv1].
    destruct (Hz eq_refl) as [Hz1 Hz2].
    destruct (flush_rpc_spec c c1 Hfl) as (rc2 & c' & E2 & _ & _ & Hf). destruct (Hf V Hlv1) as (-> & _ & Hdur).
    exists c'. split; [|by apply Hdur, drained_durable].
    by rewrite (st_bind_done _ _ _ _ _ E), (st_bind_done _ _ _ _ _ E2).
Qed.

End Peer.
(** ** A concrete peer

    A server of sixteen sectors behind a connection that moves at most 100 bytes
    a call, with a clock that ticks once per reading. *)

Definition demo : Server.Export := Server.mkExport Server.config0 16.
Definition demo_size : Z := 16 * 512.

Definition wire : Type := Link * Z.
#[local] Instance wire_ops : Server.SocketOps wire := {
  recv w len := let k := Z.min len 100 in let b := take (Z.to_nat k) (to_client w.1) in
    (alen b, b, (mkLink (server_disk w.1) (to_server w.1) (drop (Z.to_nat k) (to_client w.1)), w.2));
  send w p := let k := Z.min (alen p) 100 in
    (k, (deliver demo 0 (mkLink (server_disk w.1) (to_server w.1 ++ take (Z.to_nat k) p) (to_client w.1)), w.2));
}.
#[local] Instance wire_clock : WallClock wire := fun w => (w.2, (w.1, w.2 + 1)).
#[local] Instance wire_laws : NetLaws demo 0 wire.
Proof.
  refine {| link w := Some w.1 |}.
  - constructor.
    + intros [L t] len Hl. cbn. unfold alen. rewrite length_take. split; [lia|]. lia.
    + intros [L t] p. cbn. lia.
  - intros [L t] p D i [= ->] Hp _. assert (0 < alen p) by (destruct p; [done|unfold alen; cbn; lia]).
    cbn. do 2 eexists. split; [reflexivity|]. split; [lia|done].
  - intros [L t] len D i o [= ->] Hl Ho. assert (0 < alen o) by (destruct o; [done|unfold alen; cbn; lia]).
    cbn. do 4 eexists. split; [reflexivity|]. unfold alen in *. rewrite length_take.
    split; [lia|]. split; [done|]. split; [symmetry; apply take_drop|done].
  - done.
Defined.

Definition demo_cfg : Server.cfg_wf (Server.cfg demo).
Proof. unfold Server.cfg_wf. cbn. lia. Defined.
Definition demo_sizes : 0 <= Server.sector_count demo /\ Server.sector_count demo * SECTOR_SIZE <= demo_size < 2 ^ 63.
Proof. unfold demo_size, SECTOR_SIZE. cbn. lia. Defined.

Definition demo_wire : wire := (mkLink (replicate (Z.to_nat demo_size) 0) [] [], 0).
Definition zero_sector : list Z := replicate 512 0.
Definition seven_sector : list Z := replicate 512 7.
Definition all_alloc : Z -> bool := fun _ => true.

Definition demo_disk : Z -> list Z := sec (replicate (Z.to_nat demo_size) 0).

(** The device opened with the given prefetch setting. *)
Lemma demo_device env :
  exists c, block_device_init_net 0 all_alloc demo_wire false None env = Done (Some c) /\
    device demo 0 demo_size c demo_disk /\ prefetch_sectors c = clamp_prefetch env 1024 /\ nb_sectors c = 16.
Proof.
  destruct (init_net_spec demo 0 0 demo_size demo_cfg demo_sizes eq_refl all_alloc demo_wire false None env)
    as (r & E & Hr & Hd).
  destruct (Hd (replicate (Z.to_nat demo_size) 0)) as (c & -> & Hlv & Hm & Hc & Hw & Hn & Hp);
    [reflexivity|vm_compute; reflexivity|reflexivity|reflexivity|].
  exists c. destruct (Hr c eq_refl) as [Hro _].
  split; [exact E|]. split; [constructor; [exact Hm|exact Hlv|exact Hc|exact (conj Hro Hw)]|]. split; [exact Hp|exact Hn].
Qed.

(** ** A socket with anyone behind it

    No server need be at the other end: the laws of the peer hold of a socket
    without a link. *)

Section Anyone.
Context {S : Type} `{SaneSocket S} `{!WallClock S} (profile : Z) (pcmalloc : Z -> bool).

Definition no_peer : NetLaws demo 0 S.
Proof. by refine {| link := fun _ => None |}. Defined.

(** C7. Memory safety and termination of the network disk, whatever the socket
    does that moves no more bytes than a call asks for: opening the device ends, and
    on the device it returns, whatever the reply to the HELLO announced, every run
    of reads, writes, flushes and pings, in range or not, ends with a return code
    for each; no buffer, window or table is accessed out of bounds or before it is
    written, and no read stores more bytes than the caller asked for. *)
Theorem client_memory_safe so ro env_writeback env_prefetch os :
  Forall net_op_ok os ->
  exists r, block_device_init_net profile pcmalloc so ro env_writeback env_prefetch = Done r /\
    forall c, r = Some c ->
      exists rs c', run_net_ops profile pcmalloc os c = Done (rs, c') /\ mem_ok c' /\ Forall2 result_fits os rs.
Proof.
  intros Ho. destruct (@init_net_spec demo 0 S _ _ no_peer profile demo_size demo_cfg demo_sizes eq_refl pcmalloc
    so ro env_writeback env_prefetch) as (r & E & Hr & _).
  exists r. split; [done|]. intros c ->. destruct (Hr c eq_refl) as (_ & Hm & _).
  destruct (@net_ops_safe demo 0 S _ _ no_peer profile demo_size demo_cfg demo_sizes eq_refl pcmalloc os c Hm Ho)
    as (rs & c' & Er & ?).
  by exists rs, c'.
Qed.

End Anyone.

Definition demo_ops : list net_op :=
  [NetWrite 10 seven_sector 1; NetRead 5 2; NetFlush; NetRead 10 1; NetRead 15 2; NetPing 1 2 3 4 5 6 7 None].
Lemma demo_ops_ok : Forall net_op_ok demo_ops.
Proof.
  assert (Hb : alen seven_sector = 512) by (unfold alen, seven_sector; by rewrite length_replicate).
  unfold demo_ops. rewrite !Forall_cons, Forall_nil. unfold net_op_ok, inw. rewrite Hb. unfold SECTOR_SIZE. lia.
Qed.

(** A socket that answers a HELLO with 2^63 + 5 sectors, which [nb_sectors]
    stores as a negative number, and everything else with nothing. *)
Definition huge_hello : list Z := header_bytes (init_header NETBLK_OP_HELLO (2 ^ 63 + 5) SECTOR_SIZE 64 0 1).
Definition liar : Type := list Z.
#[local] Instance liar_ops : Server.SocketOps liar := {
  recv so len := let b := take (Z.to_nat len) so in (alen b, b, drop (Z.to_nat len) so);
  send so p := (alen p, so);
}.
#[local] Instance liar_clock : WallClock liar := fun so => (0, so).
#[local] Instance liar_sane : SaneSocket liar.
Proof.
  constructor.
  - intros so len Hl. cbn. unfold alen. rewrite length_take. split; [lia|]. done.
  - intros so p. cbn. lia.
Defined.

Lemma client_memory_safe_witness :
  option_map nb_sectors (match block_device_init_net 0 all_alloc (huge_hello : liar) false None None with
                         | Done r => r | _ => None end) = Some (5 - 2 ^ 63) /\
  exists r, block_device_init_net 0 all_alloc (huge_hello : liar) false None None = Done r /\
    forall c, r = Some c ->
      exists rs c', run_net_ops 0 all_alloc demo_ops c = Done (rs, c') /\ mem_ok c' /\ Forall2 result_fits demo_ops rs.
Proof.
  split; [vm_compute; reflexivity|].
  exact (client_memory_safe (S := liar) 0 all_alloc huge_hello false None None demo_ops demo_ops_ok).
Defined.

Lemma client_is_disk_witness :
  exists c c', block_device_init_net 0 all_alloc demo_wire false None (Some 1) = Done (Some c) /\
    run_net_ops 0 all_alloc demo_ops c = Done ((disk_ops c demo_ops demo_disk).1, c') /\
    device demo 0 demo_size c' (disk_ops c demo_ops demo_disk).2.
Proof.
  destruct (demo_device (Some 1)) as (c & E & Hd & Hp & _).
  destruct (client_is_disk demo 0 0 demo_size demo_cfg demo_sizes eq_refl all_alloc demo_ops c demo_disk Hd Hp demo_ops_ok)
    as (c' & E' & Hd'). exists c, c'. split; [exact E|]. split; [exact E'|exact Hd'].
Defined.

Lemma demo_max c : device demo 0 demo_size c demo_disk -> 1 <= max_sectors c.
Proof. intros Hd. pose proof (mo_max _ (dev_mem _ _ _ _ _ Hd)). lia. Qed.

Lemma read_current_witness :
  exists c c', block_device_init_net 0 all_alloc demo_wire false None (Some 1) = Done (Some c) /\
    netblk_read_async 0 10 1 c = Done ((SUCCESS, concat (demo_disk <$> seqZ 10 1)), c').
Proof.
  destruct (demo_device (Some 1)) as (c & E & Hd & Hp & Hn). pose proof (demo_max c Hd).
  destruct (read_current demo 0 0 demo_size demo_cfg demo_sizes eq_refl all_alloc c demo_disk 10 1 Hd)
    as (c' & E' & _); [unfold inw; lia|lia|unfold capacity; rewrite Hn; by vm_compute|by apply hidden_one|]. exists c, c'. split; [exact E|exact E'].
Defined.

Lemma flush_durable_witness :
  exists c, block_device_init_net 0 all_alloc demo_wire false None None = Done (Some c) /\
    exists c', netblk_flush 0 c = Done (SUCCESS, c') /\ durable demo 0 demo_size c' demo_disk.
Proof.
  destruct (demo_device None) as (c & E & Hd & _).
  destruct (flush_durable demo 0 0 demo_size demo_sizes eq_refl c demo_disk Hd) as [(c' & E' & _ & Hu) _].
  exists c. split; [exact E|]. exists c'. split; [exact E'|exact Hu].
Defined.

(** A stale read, on the device above. With the default prefetch of 64 sectors the device is not a
    disk: a read of sector 5 while the write of sector 10 is still buffered
    prefetches the old sector 10 into a window (only the requested sectors are
    compared with the unsent writes), and the next read of sector 10 sends the
    write and then answers from that window: it returns the sector as it was
    before the write, with return code 0. *)
Theorem prefetch_stale_read :
  exists c c', block_device_init_net 0 all_alloc demo_wire false None None = Done (Some c) /\
    run_net_ops 0 all_alloc [NetWrite 10 seven_sector 1; NetRead 5 1; NetRead 10 1] c =
      Done ([(SUCCESS, []); (SUCCESS, zero_sector); (SUCCESS, zero_sector)], c') /\
    (disk_ops c [NetWrite 10 seven_sector 1; NetRead 5 1; NetRead 10 1] demo_disk).1 =
      [(SUCCESS, []); (SUCCESS, zero_sector); (SUCCESS, seven_sector)].
Proof.
  assert (E : exists c, block_device_init_net 0 all_alloc demo_wire false None None = Done (Some c) /\
    match run_net_ops 0 all_alloc [NetWrite 10 seven_sector 1; NetRead 5 1; NetRead 10 1] c with
    | Done (rs, _) => rs | _ => [] end = [(SUCCESS, []); (SUCCESS, zero_sector); (SUCCESS, zero_sector)] /\
    (disk_ops c [NetWrite 10 seven_sector 1; NetRead 5 1; NetRead 10 1] demo_disk).1 =
      [(SUCCESS, []); (SUCCESS, zero_sector); (SUCCESS, seven_sector)]).
  { eexists. split; [vm_compute; reflexivity|]. split; vm_compute; reflexivity. }
  destruct E as (c & E & Er & Ed). exists c.
  destruct (run_net_ops _ _ _ c) as [[rs c']|] eqn:Eo; try discriminate Er.
  exists c'. split; [exact E|]. split; [|exact Ed]. exact (f_equal (fun l => Done (l, c')) Er).
Qed.

End Client.
