(* ===== verification/I8042.v ===== *)
(** The 8042 keyboard controller with its PS/2 keyboard and mouse
    (src/source/winspire/i8042.c).

    [KBDState P] is the controller with both devices; the two [update_irq]
    callbacks [i8042_init] installs are [kbd_update_kbd_irq] and
    [kbd_update_aux_irq], so the queue operations take the device they act on.
    The build is the single-threaded one (no THREAD_SAFE). *)

From S2P Require Import Prelude I8259.
Local Open Scope Z_scope.
Set Warnings "-clear-no-such-hyp".

Module Kbd.

(** ** Data *)

Definition PS2_QUEUE_SIZE : Z := 256.

Record PS2Queue := mkQueue { data : list Z; rptr : Z; wptr : Z; count : Z }.
#[export] Instance eta_PS2Queue : Eta PS2Queue := fun q =>
  mkQueue (data q) (rptr q) (wptr q) (count q).

Record PS2State := mkPS2 { queue : PS2Queue; write_cmd : Z }.
#[export] Instance eta_PS2State : Eta PS2State := fun s => mkPS2 (queue s) (write_cmd s).

Record PS2KbdState := mkKbd {
  kcommon : PS2State; scan_enabled : Z; translate : Z;
  delay : bool; delay_time : Z; delay_keycode : Z;
}.
#[export] Instance eta_PS2KbdState : Eta PS2KbdState := fun s =>
  mkKbd (kcommon s) (scan_enabled s) (translate s) (delay s) (delay_time s) (delay_keycode s).

Record PS2MouseState := mkMouse {
  mcommon : PS2State; mouse_status : Z; mouse_resolution : Z; mouse_sample_rate : Z;
  mouse_wrap : Z; mouse_type : Z; mouse_detect_state : Z;
  mouse_dx : Z; mouse_dy : Z; mouse_dz : Z; mouse_buttons : Z;
}.
#[export] Instance eta_PS2MouseState : Eta PS2MouseState := fun s =>
  mkMouse (mcommon s) (mouse_status s) (mouse_resolution s) (mouse_sample_rate s)
    (mouse_wrap s) (mouse_type s) (mouse_detect_state s)
    (mouse_dx s) (mouse_dy s) (mouse_dz s) (mouse_buttons s).

Record KBDState (P : Type) := mkKBD {
  cmd : Z; status : Z; mode : Z; pending : Z; kbd : PS2KbdState; mouse : PS2MouseState;
  irq_kbd : Z; irq_mouse : Z; pic : P; reset_request : bool;
}.
Arguments mkKBD {P} _ _ _ _ _ _ _ _ _ _.
Arguments cmd {P} _.
Arguments status {P} _.
Arguments mode {P} _.
Arguments pending {P} _.
Arguments kbd {P} _.
Arguments mouse {P} _.
Arguments irq_kbd {P} _.
Arguments irq_mouse {P} _.
Arguments pic {P} _.
Arguments reset_request {P} _.
#[export] Instance eta_KBDState P : Eta (KBDState P) := fun s =>
  mkKBD (cmd s) (status s) (mode s) (pending s) (kbd s) (mouse s) (irq_kbd s) (irq_mouse s)
    (pic s) (reset_request s).

Definition KBD_STAT_OBF : Z := 0x01.
Definition KBD_STAT_SELFTEST : Z := 0x04.
Definition KBD_STAT_MOUSE_OBF : Z := 0x20.
Definition KBD_MODE_KBD_INT : Z := 0x01.
Definition KBD_MODE_MOUSE_INT : Z := 0x02.
Definition KBD_MODE_DISABLE_KBD : Z := 0x10.
Definition KBD_MODE_DISABLE_MOUSE : Z := 0x20.
Definition KBD_MODE_KCC : Z := 0x40.
Definition KBD_PENDING_KBD : Z := 1.
Definition KBD_PENDING_AUX : Z := 2.
Definition ACK : Z := 0xfa.

(** The two devices, by the callback they are registered with. *)
Inductive device := Keyboard | Aux.
#[export] Instance device_eq_dec : EqDecision device.
Proof. solve_decision. Defined.

Definition pending_bit (d : device) : Z :=
  match d with Keyboard => KBD_PENDING_KBD | Aux => KBD_PENDING_AUX end.

Definition after_eq (a b : Z) : bool := u32 (a - b) <? Z.shiftl 1 31.

Section Controller.
Context {P : Type} `{IrqSink P}.

Definition common (s : KBDState P) (d : device) : PS2State :=
  match d with Keyboard => kcommon (kbd s) | Aux => mcommon (mouse s) end.
Definition set_common (s : KBDState P) (d : device) (c : PS2State) : KBDState P :=
  match d with
  | Keyboard => s <| kbd := (kbd s) <| kcommon := c |> |>
  | Aux => s <| mouse := (mouse s) <| mcommon := c |> |>
  end.

(** ** Interrupts *)

(** The levels of the two lines, and the two status bits. *)
Definition irq_kbd_level (s : KBDState P) : Z :=
  if nz (pending s) && negb (pending s =? KBD_PENDING_AUX) &&
     nz (Z.land (mode s) KBD_MODE_KBD_INT) && (Z.land (mode s) KBD_MODE_DISABLE_KBD =? 0)
  then 1 else 0.
Definition irq_mouse_level (s : KBDState P) : Z :=
  if (pending s =? KBD_PENDING_AUX) && nz (Z.land (mode s) KBD_MODE_MOUSE_INT) then 1 else 0.

Definition kbd_update_irq (s : KBDState P) : KBDState P :=
  let s := s <| status := u8 (Z.land (status s) (Z.lnot (Z.lor KBD_STAT_OBF KBD_STAT_MOUSE_OBF))) |> in
  let s := if nz (pending s) then
             let s := s <| status := u8 (Z.lor (status s) KBD_STAT_OBF) |> in
             if pending s =? KBD_PENDING_AUX
             then s <| status := u8 (Z.lor (status s) KBD_STAT_MOUSE_OBF) |> else s
           else s in
  s <| pic := set_irq (set_irq (pic s) (irq_kbd s) (irq_kbd_level s)) (irq_mouse s) (irq_mouse_level s) |>.

(** [kbd_update_kbd_irq] and [kbd_update_aux_irq]. *)
Definition update_irq (s : KBDState P) (d : device) (level : Z) : KBDState P :=
  kbd_update_irq
    (if nz level then s <| pending := u8 (Z.lor (pending s) (pending_bit d)) |>
     else s <| pending := u8 (Z.land (pending s) (Z.lnot (pending_bit d))) |>).

(** ** The queues *)

Definition ps2_queue (s : KBDState P) (d : device) (b : Z) : outcome (KBDState P) :=
  let c := common s d in let q := queue c in
  if PS2_QUEUE_SIZE <=? count q then Done s else
  dat ← wr (data q) (wptr q) (u8 b);
  let w := wptr q + 1 in
  let w := if w =? PS2_QUEUE_SIZE then 0 else w in
  Done (update_irq (set_common s d (c <| queue := mkQueue dat (rptr q) w (count q + 1) |>)) d 1).

Fixpoint ps2_queue_all (s : KBDState P) (d : device) (bs : list Z) : outcome (KBDState P) :=
  match bs with [] => Done s | b :: bs => s ← ps2_queue s d b; ps2_queue_all s d bs end.

Definition ps2_read_data (s : KBDState P) (d : device) : outcome (Z * KBDState P) :=
  let c := common s d in let q := queue c in
  if count q =? 0 then
    let index := rptr q - 1 in
    let index := if index <? 0 then PS2_QUEUE_SIZE - 1 else index in
    val ← rd (data q) index;
    Done (val, s)
  else
    val ← rd (data q) (rptr q);
    let r := rptr q + 1 in
    let r := if r =? PS2_QUEUE_SIZE then 0 else r in
    let n := count q - 1 in
    let s := set_common s d (c <| queue := mkQueue (data q) r (wptr q) n |>) in
    Done (val, update_irq (update_irq s d 0) d (b2z (negb (n =? 0)))).

(** ** The keyboard *)

Definition linux_input_to_keycode_set1 : list Z :=
  [0x1c; 0x1d; 0x35; 0x00; 0x38; 0x00; 0x47; 0x48;
   0x49; 0x4b; 0x4d; 0x4f; 0x50; 0x51; 0x52; 0x53;
   0x00; 0x00; 0x00; 0x00; 0x00; 0x00; 0x00; 0x00;
   0x00; 0x00; 0x00; 0x00; 0x00; 0x5b; 0x5c; 0x5d].

(** The second byte of a key event is held back until a time. *)
Definition hold (s : KBDState P) (t : Z) (code : Z) : KBDState P :=
  s <| kbd := (kbd s) <| delay := true |> <| delay_time := u32 t |> <| delay_keycode := code |> |>.
Definition released (is_down : bool) : Z := Z.shiftl (b2z (negb is_down)) 7.

Definition flush_delay (s : KBDState P) : outcome (KBDState P) :=
  if delay (kbd s)
  then ps2_queue (s <| kbd := (kbd s) <| delay := false |> |>) Keyboard (delay_keycode (kbd s))
  else Done s.

Definition ps2_put_keycode (s : KBDState P) (now : Z) (is_down : bool) (keycode : Z) :
    outcome (KBDState P) :=
  s ← flush_delay s;
  if 0xe000 <=? keycode then
    s ← ps2_queue s Keyboard (Z.shiftr keycode 8);
    Done (hold s (now + 10000) (Z.lor (Z.land keycode 0xff) (released is_down)))
  else if 96 <=? keycode then
    if 127 <? keycode then Done s else
    k ← rd linux_input_to_keycode_set1 (keycode - 96);
    if k =? 0 then Done s else
    s ← ps2_queue s Keyboard 0xe0;
    Done (hold s (now + 1000) (Z.lor k (released is_down)))
  else ps2_queue s Keyboard (Z.lor keycode (released is_down)).

Definition kbd_step (s : KBDState P) (now : Z) : outcome (KBDState P) :=
  if delay (kbd s) && after_eq now (delay_time (kbd s)) then flush_delay s else Done s.

Definition set_scan (s : KBDState P) (v : Z) : KBDState P :=
  s <| kbd := (kbd s) <| scan_enabled := v |> |>.
Definition ps2_reset_keyboard (s : KBDState P) : KBDState P := set_scan s 1.
Definition set_write_cmd (s : KBDState P) (d : device) (v : Z) : KBDState P :=
  set_common s d ((common s d) <| write_cmd := v |>).

Definition ps2_write_keyboard (s : KBDState P) (val : Z) : outcome (KBDState P) :=
  let q s bs := ps2_queue_all s Keyboard bs in
  match write_cmd (kcommon (kbd s)) with
  | 0xed | 0xf3 => s ← q s [ACK]; Done (set_write_cmd s Keyboard (-1))
  | _ =>
      match val with
      | 0x00 => q s [ACK]
      | 0x05 => q s [0xfe]
      | 0xf2 => q s [ACK; 0xab; 0x83]
      | 0xee => q s [0xee]
      | 0xf4 => q (set_scan s 1) [ACK]
      | 0xed | 0xf3 => q (set_write_cmd s Keyboard val) [ACK]
      | 0xf5 => q (set_scan (ps2_reset_keyboard s) 0) [ACK]
      | 0xf6 => q (set_scan (ps2_reset_keyboard s) 1) [ACK]
      | 0xff => q (ps2_reset_keyboard s) [ACK; 0xaa]
      | _ => q s [ACK]
      end
  end.

Definition ps2_keyboard_set_translation (s : KBDState P) (m : Z) : KBDState P :=
  s <| kbd := (kbd s) <| translate := m |> |>.

(** ** The mouse *)

Definition clamp (lim d : Z) : Z := if lim <? d then lim else if d <? - lim then - lim else d.

(** The delta a packet carries, for a mouse of type [t]. *)
Definition wheel (t dz : Z) : Z :=
  match t with 3 => clamp 127 dz | 4 => clamp 7 dz | _ => dz end.

(** The packet: flags and buttons, two deltas, and a byte for the wheel. *)
Definition packet (t buttons dx dy dz : Z) : list Z :=
  let dx1 := clamp 127 dx in let dy1 := clamp 127 dy in let dz1 := wheel t dz in
  [Z.lor (Z.lor (Z.lor 0x08 (Z.shiftl (b2z (dx1 <? 0)) 4)) (Z.shiftl (b2z (dy1 <? 0)) 5))
     (Z.land buttons 0x07);
   Z.land dx1 0xff; Z.land dy1 0xff] ++
  match t with
  | 3 => [Z.land dz1 0xff]
  | 4 => [Z.lor (Z.land dz1 0x0f) (Z.shiftl (Z.land buttons 0x18) 1)]
  | _ => []
  end.

Definition set_deltas (s : KBDState P) (dx dy dz : Z) : KBDState P :=
  s <| mouse := (mouse s) <| mouse_dx := dx |> <| mouse_dy := dy |> <| mouse_dz := dz |> |>.

Definition ps2_mouse_send_packet (s : KBDState P) : outcome (KBDState P) :=
  let m := mouse s in
  s ← ps2_queue_all s Aux (packet (mouse_type m) (mouse_buttons m) (mouse_dx m) (mouse_dy m) (mouse_dz m));
  Done (set_deltas s (mouse_dx m - clamp 127 (mouse_dx m)) (mouse_dy m - clamp 127 (mouse_dy m))
          (mouse_dz m - wheel (mouse_type m) (mouse_dz m))).

Definition at_rest (m : PS2MouseState) : bool :=
  (mouse_dx m =? 0) && (mouse_dy m =? 0) && (mouse_dz m =? 0).

Fixpoint packet_loop (fuel : nat) (s : KBDState P) : outcome (KBDState P) :=
  match fuel with
  | O => Stuck Diverges
  | S fuel =>
      s ← ps2_mouse_send_packet s;
      if at_rest (mouse s) then Done s else packet_loop fuel s
  end.

(** One packet more than the largest distance in units of the smallest step. *)
Definition packet_fuel (m : PS2MouseState) : nat :=
  S (Z.to_nat (Z.abs (mouse_dx m) + Z.abs (mouse_dy m) + Z.abs (mouse_dz m))).

Definition ps2_mouse_event (s : KBDState P) (dx dy dz buttons_state : Z) : outcome (KBDState P) :=
  if Z.land (mouse_status (mouse s)) 0x20 =? 0 then Done s else
  let s := set_deltas s (s32 (mouse_dx (mouse s) + dx)) (s32 (mouse_dy (mouse s) - dy))
             (s32 (mouse_dz (mouse s) + dz)) in
  if at_rest (mouse s) && (mouse_buttons (mouse s) =? buttons_state) then Done s else
  let s := s <| mouse := (mouse s) <| mouse_buttons := u8 buttons_state |> |> in
  if (Z.land (mouse_status (mouse s)) 0x40 =? 0) && (count (queue (mcommon (mouse s))) <? PS2_QUEUE_SIZE - 16)
  then packet_loop (packet_fuel (mouse s)) s else Done s.

Definition map_mouse (s : KBDState P) (f : PS2MouseState -> PS2MouseState) : KBDState P :=
  s <| mouse := f (mouse s) |>.

(** The sample-rate knock: the identity after 200, 100, 80 or 200, 200, 80. *)
Definition detect (m : PS2MouseState) (val : Z) : PS2MouseState :=
  match mouse_detect_state m with
  | 1 => m <| mouse_detect_state := if val =? 100 then 2 else if val =? 200 then 3 else 0 |>
  | 2 => (if val =? 80 then m <| mouse_type := 3 |> else m) <| mouse_detect_state := 0 |>
  | 3 => (if val =? 80 then m <| mouse_type := 4 |> else m) <| mouse_detect_state := 0 |>
  | _ => if val =? 200 then m <| mouse_detect_state := 1 |> else m
  end.

Definition mouse_command (s : KBDState P) (val : Z) : outcome (KBDState P) :=
  let q s bs := ps2_queue_all s Aux bs in
  let st s v := map_mouse s (fun m => m <| mouse_status := v |>) in
  let m := mouse s in
  match val with
  | 0xe6 => q (st s (u8 (Z.land (mouse_status m) (Z.lnot 0x10)))) [ACK]
  | 0xe7 => q (st s (u8 (Z.lor (mouse_status m) 0x10))) [ACK]
  | 0xea => q (st s (u8 (Z.land (mouse_status m) (Z.lnot 0x40)))) [ACK]
  | 0xee => q (map_mouse s (fun m => m <| mouse_wrap := 1 |>)) [ACK]
  | 0xf0 => q (st s (u8 (Z.lor (mouse_status m) 0x40))) [ACK]
  | 0xf2 => q s [ACK; mouse_type m]
  | 0xe8 | 0xf3 => q (set_write_cmd s Aux val) [ACK]
  | 0xe9 => q s [ACK; mouse_status m; mouse_resolution m; mouse_sample_rate m]
  | 0xeb => s ← q s [ACK]; ps2_mouse_send_packet s
  | 0xf4 => q (st s (u8 (Z.lor (mouse_status m) 0x20))) [ACK]
  | 0xf5 => q (st s (u8 (Z.land (mouse_status m) (Z.lnot 0x20)))) [ACK]
  | 0xf6 => q (map_mouse s (fun m => m <| mouse_sample_rate := 100 |> <| mouse_resolution := 2 |>
                                       <| mouse_status := 0 |>)) [ACK]
  | 0xff => q (map_mouse s (fun m => m <| mouse_sample_rate := 100 |> <| mouse_resolution := 2 |>
                                       <| mouse_status := 0 |> <| mouse_type := 0 |>)) [ACK; 0xaa; 0]
  | _ => Done s
  end.

Definition ps2_write_mouse (s : KBDState P) (val : Z) : outcome (KBDState P) :=
  match write_cmd (mcommon (mouse s)) with
  | 0xf3 =>
      let s := map_mouse s (fun m => detect (m <| mouse_sample_rate := u8 val |>) val) in
      s ← ps2_queue_all s Aux [ACK]; Done (set_write_cmd s Aux (-1))
  | 0xe8 =>
      let s := map_mouse s (fun m => m <| mouse_resolution := u8 val |>) in
      s ← ps2_queue_all s Aux [ACK]; Done (set_write_cmd s Aux (-1))
  | _ =>
      if nz (mouse_wrap (mouse s)) then
        if val =? 0xec then ps2_queue_all (map_mouse s (fun m => m <| mouse_wrap := 0 |>)) Aux [ACK]
        else if val =? 0xff then mouse_command s val
        else ps2_queue_all s Aux [val]
      else mouse_command s val
  end.

(** ** The ports *)

Definition kbd_read_status (s : KBDState P) : Z := status s.

Definition kbd_queue (s : KBDState P) (b : Z) (aux : bool) : outcome (KBDState P) :=
  ps2_queue s (if aux then Aux else Keyboard) b.

(** [system_reset_request]: [pc_reset_request] sets a flag of the PC. *)
Definition request_reset (s : KBDState P) : KBDState P := s <| reset_request := true |>.

Definition kbd_write_command (s : KBDState P) (val : Z) : outcome (KBDState P) :=
  match val with
  | 0x20 => kbd_queue s (mode s) true
  | 0x60 | 0xd2 | 0xd3 | 0xd4 | 0xd1 => Done (s <| cmd := val |>)
  | 0xa7 => Done (s <| mode := u8 (Z.lor (mode s) KBD_MODE_DISABLE_MOUSE) |>)
  | 0xa8 => Done (s <| mode := u8 (Z.land (mode s) (Z.lnot KBD_MODE_DISABLE_MOUSE)) |>)
  | 0xa9 => kbd_queue s 0 false
  | 0xaa => kbd_queue (s <| status := u8 (Z.lor (status s) KBD_STAT_SELFTEST) |>) 0x55 false
  | 0xab => kbd_queue s 0 false
  | 0xad => Done (kbd_update_irq (s <| mode := u8 (Z.lor (mode s) KBD_MODE_DISABLE_KBD) |>))
  | 0xae => Done (kbd_update_irq (s <| mode := u8 (Z.land (mode s) (Z.lnot KBD_MODE_DISABLE_KBD)) |>))
  | 0xc0 => kbd_queue s 0 false
  | 0xd0 =>
      let v := Z.lor 0x01 (Z.shiftl 1 1) in
      let v := if nz (Z.land (status s) KBD_STAT_OBF) then Z.lor v 0x10 else v in
      let v := if nz (Z.land (status s) KBD_STAT_MOUSE_OBF) then Z.lor v 0x20 else v in
      kbd_queue s v false
  | 0xfe => Done (request_reset s)
  | _ => Done s
  end.

Definition kbd_read_data (s : KBDState P) : outcome (Z * KBDState P) :=
  ps2_read_data s (if pending s =? KBD_PENDING_AUX then Aux else Keyboard).

Definition kbd_write_data (s : KBDState P) (val : Z) : outcome (KBDState P) :=
  s ← (match cmd s with
       | 0 => ps2_write_keyboard s val
       | 0x60 =>
           let s := s <| mode := u8 val |> in
           Done (kbd_update_irq (ps2_keyboard_set_translation s (b2z (nz (Z.land (mode s) KBD_MODE_KCC)))))
       | 0xd2 => kbd_queue s val false
       | 0xd3 => kbd_queue s val true
       | 0xd1 => Done (if Z.land val 1 =? 0 then request_reset s else s)
       | 0xd4 => ps2_write_mouse s val
       | _ => Done s
       end);
  Done (s <| cmd := 0 |>).

Definition ps2_reset : PS2State := mkPS2 (mkQueue (replicate 256 0) 0 0 0) (-1).
Definition ps2_kbd_init : PS2KbdState := mkKbd ps2_reset 0 0 false 0 0.
Definition ps2_mouse_init : PS2MouseState := mkMouse ps2_reset 0 0 0 0 0 0 0 0 0 0.

Definition i8042_init (kbd_irq mouse_irq : Z) (p : P) : KBDState P :=
  mkKBD 0 (Z.lor 0x08 0x10) (Z.lor (Z.lor KBD_MODE_KBD_INT KBD_MODE_MOUSE_INT) KBD_MODE_KCC) 0
    ps2_kbd_init ps2_mouse_init kbd_irq mouse_irq p false.

End Controller.

(** ** The ring buffer as a queue *)

Record queue_wf (q : PS2Queue) : Prop := {
  qwf_len : alen (data q) = PS2_QUEUE_SIZE;
  qwf_r : 0 <= rptr q < PS2_QUEUE_SIZE;
  qwf_count : 0 <= count q <= PS2_QUEUE_SIZE;
  qwf_w : wptr q = (rptr q + count q) mod PS2_QUEUE_SIZE;
}.

(** The bytes waiting, oldest first. *)
Definition waiting (q : PS2Queue) : list Z :=
  (fun i => arr (data q) ((rptr q + i) mod PS2_QUEUE_SIZE)) <$> seqZ 0 (count q).

Definition enqueue (q : PS2Queue) (b : Z) : PS2Queue :=
  let w := wptr q + 1 in
  mkQueue (arr_set (data q) (wptr q) b) (rptr q) (if w =? PS2_QUEUE_SIZE then 0 else w) (count q + 1).
Definition dequeue (q : PS2Queue) : PS2Queue :=
  let r := rptr q + 1 in
  mkQueue (data q) (if r =? PS2_QUEUE_SIZE then 0 else r) (wptr q) (count q - 1).

Lemma wrap_succ a : 0 <= a < 256 -> (if a + 1 =? 256 then 0 else a + 1) = (a + 1) mod 256.
Proof.
  intros Ha. destruct (Z.eqb_spec (a + 1) 256) as [->|]; [done|].
  rewrite Z.mod_small; lia.
Qed.

Lemma waiting_length q : queue_wf q -> alen (waiting q) = count q.
Proof.
  intros Hq. unfold waiting, alen. rewrite length_fmap, length_seqZ. pose proof (qwf_count q Hq). lia.
Qed.

Lemma enqueue_spec q b :
  queue_wf q -> count q < PS2_QUEUE_SIZE ->
  queue_wf (enqueue q b) /\ waiting (enqueue q b) = waiting q ++ [b].
Proof.
  intros [Hl Hr Hc Hw] Hn. unfold PS2_QUEUE_SIZE in *.
  assert (Hwr : 0 <= wptr q < 256) by (rewrite Hw; apply Z.mod_pos_bound; lia).
  split.
  - constructor; cbn; unfold PS2_QUEUE_SIZE; [by rewrite alen_set|lia|lia|].
    rewrite (wrap_succ (wptr q)) by lia.
    rewrite Hw, Z.add_mod_idemp_l by lia. f_equal. lia.
  - unfold waiting, enqueue. cbn [data rptr count].
    replace (seqZ 0 (count q + 1)) with (seqZ 0 (count q) ++ [count q]).
    2:{ rewrite (seqZ_app 0 (count q) 1) by lia. f_equal. }
    rewrite fmap_app. f_equal.
    + apply list_fmap_ext. intros k i Hi. apply lookup_seqZ in Hi.
      unfold PS2_QUEUE_SIZE. apply arr_set_ne; [lia|apply Z.mod_pos_bound; lia|]. rewrite Hw.
      intros E. assert (Hcong : (rptr q + count q - (rptr q + i)) mod 256 = 0)
        by (rewrite Zminus_mod, E, Z.sub_diag; done).
      rewrite Z.mod_small in Hcong by lia. lia.
    + cbn. unfold PS2_QUEUE_SIZE. rewrite <- Hw. rewrite arr_set_eq by lia. done.
Qed.

Lemma dequeue_spec q :
  queue_wf q -> count q <> 0 ->
  queue_wf (dequeue q) /\ waiting q = arr (data q) (rptr q) :: waiting (dequeue q).
Proof.
  intros [Hl Hr Hc Hw] Hn. unfold PS2_QUEUE_SIZE in *. split.
  - constructor; cbn; unfold PS2_QUEUE_SIZE; [done| |lia|].
    + destruct (Z.eqb_spec (rptr q + 1) 256); lia.
    + rewrite (wrap_succ (rptr q)) by lia.
      rewrite Hw, Z.add_mod_idemp_l by lia. f_equal. lia.
  - unfold waiting, dequeue. cbn [data rptr count].
    rewrite seqZ_cons by lia. cbn [fmap list_fmap]. f_equal.
    + rewrite Z.add_0_r, Z.mod_small by (unfold PS2_QUEUE_SIZE; lia). done.
    + rewrite <- Z.sub_1_r. change (Z.succ 0) with (1 + 0). rewrite <- (fmap_add_seqZ 1).
      rewrite <- list_fmap_compose. apply list_fmap_ext. intros k i _. unfold compose. f_equal.
      unfold PS2_QUEUE_SIZE. rewrite (wrap_succ (rptr q)) by lia.
      rewrite Z.add_mod_idemp_l by lia. f_equal. lia.
Qed.

(** ** The controller's state

    [core] is what every operation keeps; [shown] says that the status register
    and the two interrupt lines show [pending], and [tracked] that [pending]
    tells which queues have data. *)

Section Invariant.
Context {P : Type} `{IrqSinkLaws P}.
Implicit Types s : KBDState P.

Definition queue_of s (d : device) : PS2Queue := queue (common s d).

Record core s : Prop := {
  core_kbd : queue_wf (queue_of s Keyboard);
  core_aux : queue_wf (queue_of s Aux);
  core_mode : inw 8 (mode s);
  core_status : inw 8 (status s);
  core_pending : inw 2 (pending s);
  core_sink : sink_ok (pic s);
  core_line1 : irq_line (irq_kbd s);
  core_line2 : irq_line (irq_mouse s);
  core_lines : irq_kbd s <> irq_mouse s;
}.

Record shown s : Prop := {
  shown_obf : Z.testbit (status s) 0 = nz (pending s);
  shown_aux : Z.testbit (status s) 5 = (pending s =? KBD_PENDING_AUX);
  shown_kbd_line : sink_high (pic s) (irq_kbd s) <-> irq_kbd_level s = 1;
  shown_aux_line : sink_high (pic s) (irq_mouse s) <-> irq_mouse_level s = 1;
}.

Definition has_data s (d : device) : bool := nz (count (queue_of s d)).
Definition tracked s : Prop :=
  pending s = b2z (has_data s Keyboard) + 2 * b2z (has_data s Aux).

Definition kbd_inv s : Prop := core s /\ shown s /\ tracked s.

(** The controller beside its status register, pending mask and lines. *)
Definition same_devices s s' : Prop :=
  cmd s' = cmd s /\ mode s' = mode s /\ kbd s' = kbd s /\ mouse s' = mouse s /\
  irq_kbd s' = irq_kbd s /\ irq_mouse s' = irq_mouse s /\ reset_request s' = reset_request s.

Lemma set_line_high p irq l : irq_line irq -> sink_ok p -> l = 0 \/ l = 1 ->
  sink_high (set_irq p irq l) irq <-> l = 1.
Proof.
  intros Hl Hp [-> | ->].
  - split; [|done]. intros Hh. by destruct (sink_fall p irq Hl Hp).
  - split; [done|]. intros _. by apply sink_high_set.
Qed.

Lemma irq_kbd_level_01 s : irq_kbd_level s = 0 \/ irq_kbd_level s = 1.
Proof. unfold irq_kbd_level. case_match; auto. Qed.
Lemma irq_mouse_level_01 s : irq_mouse_level s = 0 \/ irq_mouse_level s = 1.
Proof. unfold irq_mouse_level. case_match; auto. Qed.

(** The status register after an update. *)
Definition new_status (st p : Z) : Z :=
  let st := u8 (Z.land st (Z.lnot (Z.lor KBD_STAT_OBF KBD_STAT_MOUSE_OBF))) in
  if nz p then
    let st := u8 (Z.lor st KBD_STAT_OBF) in
    if p =? KBD_PENDING_AUX then u8 (Z.lor st KBD_STAT_MOUSE_OBF) else st
  else st.

Lemma new_status_bits st p : inw 8 st -> inw 2 p ->
  inw 8 (new_status st p) /\ Z.testbit (new_status st p) 0 = nz p /\
  Z.testbit (new_status st p) 5 = (p =? KBD_PENDING_AUX).
Proof.
  intros Hs Hp. split; [unfold new_status; repeat case_match; apply inw_u8|].
  assert (Hall : forall p, In p [0; 1; 2; 3] -> all_below 256 (fun st =>
    eqb (Z.testbit (new_status st p) 0) (nz p) &&
    eqb (Z.testbit (new_status st p) 5) (p =? KBD_PENDING_AUX)) = true).
  { intros q [<- | [<- | [<- | [<- | []]]]]; vm_compute; reflexivity. }
  assert (Hin : In p [0; 1; 2; 3]) by (destruct Hp; change (2 ^ 2) with 4 in *; cbn; lia).
  pose proof (all_below_spec _ _ st (Hall p Hin) Hs) as Hb. cbv beta in Hb.
  apply andb_true_iff in Hb as [H1' H2']. by apply eqb_prop in H1', H2'.
Qed.

Lemma update_eq s : kbd_update_irq s =
  mkKBD (cmd s) (new_status (status s) (pending s)) (mode s) (pending s) (kbd s) (mouse s)
    (irq_kbd s) (irq_mouse s)
    (set_irq (set_irq (pic s) (irq_kbd s) (irq_kbd_level s)) (irq_mouse s) (irq_mouse_level s))
    (reset_request s).
Proof.
  unfold kbd_update_irq, new_status. cbv zeta.
  change (pending (s <| status := _ |>)) with (pending s).
  destruct (nz (pending s)); [|reflexivity].
  change (pending (s <| status := _ |> <| status := _ |>)) with (pending s).
  destruct (pending s =? KBD_PENDING_AUX); reflexivity.
Qed.

Lemma kbd_update_irq_shown s :
  core s -> core (kbd_update_irq s) /\ shown (kbd_update_irq s) /\
    same_devices s (kbd_update_irq s) /\ pending (kbd_update_irq s) = pending s.
Proof.
  intros Hc. destruct Hc as [Hk Ha Hm Hs Hp Hok Hl1 Hl2 Hne].
  destruct (new_status_bits (status s) (pending s) Hs Hp) as (Hw & Hb0 & Hb5).
  assert (Hok1 : sink_ok (set_irq (pic s) (irq_kbd s) (irq_kbd_level s))) by (by apply sink_set_ok).
  rewrite update_eq. split; [|split; [|done]].
  - constructor; cbn; try done. by apply sink_set_ok.
  - constructor; cbn; try done.
    + rewrite sink_other by auto. by apply set_line_high, irq_kbd_level_01.
    + by apply set_line_high, irq_mouse_level_01.
Qed.

(** *** A device's callback *)

Definition other (d : device) : device := match d with Keyboard => Aux | Aux => Keyboard end.

(** The mask with the bit of [d] set to [b]. *)
Definition mask_with (p : Z) (d : device) (b : bool) : Z :=
  if b then u8 (Z.lor p (pending_bit d)) else u8 (Z.land p (Z.lnot (pending_bit d))).

Lemma mask_tracks k a d b :
  mask_with (b2z k + 2 * b2z a) d b =
    match d with Keyboard => b2z b + 2 * b2z a | Aux => b2z k + 2 * b2z b end.
Proof. destruct k, a, d, b; reflexivity. Qed.

Lemma update_irq_spec s d level :
  core s ->
  core (update_irq s d level) /\ shown (update_irq s d level) /\ same_devices s (update_irq s d level) /\
  pending (update_irq s d level) = mask_with (pending s) d (nz level).
Proof.
  intros Hc. unfold update_irq.
  assert (Hm : (if nz level then s <| pending := u8 (Z.lor (pending s) (pending_bit d)) |>
     else s <| pending := u8 (Z.land (pending s) (Z.lnot (pending_bit d))) |>) =
     s <| pending := mask_with (pending s) d (nz level) |>) by (unfold mask_with; by destruct (nz level)).
  rewrite Hm. set (s1 := s <| pending := _ |>).
  assert (Hc1 : core s1).
  { destruct Hc. constructor; cbn; try done. destruct core_pending0 as [? Hlt].
    change (2 ^ 2) with 4 in Hlt.
    assert (pending s = 0 \/ pending s = 1 \/ pending s = 2 \/ pending s = 3) as Hp by lia.
    destruct Hp as [-> |[-> |[-> | -> ]]]; destruct d, (nz level); by vm_compute. }
  destruct (kbd_update_irq_shown s1 Hc1) as (? & ? & ? & Hp). done.
Qed.

(** *** The queue operations *)

(** Nothing but the queues, the pending mask and what shows it has changed. *)
Record only_queues s s' : Prop := {
  oq_cmd : cmd s' = cmd s;
  oq_mode : mode s' = mode s;
  oq_reset : reset_request s' = reset_request s;
  oq_kbd : kbd s' = (kbd s) <| kcommon := (kcommon (kbd s)) <| queue := queue_of s' Keyboard |> |>;
  oq_mouse : mouse s' = (mouse s) <| mcommon := (mcommon (mouse s)) <| queue := queue_of s' Aux |> |>;
}.

Lemma only_queues_refl s : only_queues s s.
Proof. constructor; try done; destruct s as [? ? ? ? [[] ] [[] ] ]; done. Qed.
Lemma only_queues_trans s1 s2 s3 : only_queues s1 s2 -> only_queues s2 s3 -> only_queues s1 s3.
Proof.
  intros [? ? ? E1 E2] [? ? ? E3 E4]. constructor; try congruence.
  - rewrite E3, E1. done.
  - rewrite E4, E2. done.
Qed.

Definition set_queue s (d : device) (q : PS2Queue) : KBDState P :=
  set_common s d ((common s d) <| queue := q |>).

Lemma set_queue_core s d q : core s -> queue_wf q -> core (set_queue s d q).
Proof. intros [] Hq. destruct d; by constructor. Qed.
Lemma set_queue_same s d q : queue_of (set_queue s d q) d = q.
Proof. by destruct d. Qed.
Lemma set_queue_other s d q : queue_of (set_queue s d q) (other d) = queue_of s (other d).
Proof. by destruct d. Qed.
Lemma set_queue_only s d q : only_queues s (set_queue s d q).
Proof. destruct d; constructor; try done; destruct s as [? ? ? ? [[] ] [[] ] ]; done. Qed.

Lemma same_devices_only s s' : same_devices s s' -> only_queues s s'.
Proof.
  intros (? & ? & Ek & Em & ? & ? & ?). constructor; try done.
  - rewrite Ek. unfold queue_of, common. rewrite Ek. by destruct (kbd s) as [[] ].
  - rewrite Em. unfold queue_of, common. rewrite Em. by destruct (mouse s) as [[] ].
Qed.
Lemma same_devices_queue s s' d : same_devices s s' -> queue_of s' d = queue_of s d.
Proof. intros (_ & _ & Ek & Em & _). unfold queue_of, common. rewrite Ek, Em. done. Qed.

(** [pending] stays right when the queue of [d] changes and its bit follows. *)
Lemma tracked_with s d q s' :
  tracked s -> queue_of s' d = q -> queue_of s' (other d) = queue_of s (other d) ->
  pending s' = mask_with (pending s) d (nz (count q)) -> tracked s'.
Proof.
  unfold tracked, has_data. intros Ht Hq Ho Hp. rewrite Hp, Ht, mask_tracks.
  destruct d; cbn [other] in Ho; rewrite Hq, Ho; done.
Qed.

(** What a byte queued does to the bytes waiting: a full queue drops it. *)
Definition push (l : list Z) (b : Z) : list Z :=
  if PS2_QUEUE_SIZE <=? alen l then l else l ++ [u8 b].

Lemma ps2_queue_spec s d b :
  kbd_inv s ->
  exists s', ps2_queue s d b = Done s' /\ kbd_inv s' /\ only_queues s s' /\
    waiting (queue_of s' d) = push (waiting (queue_of s d)) b /\
    queue_of s' (other d) = queue_of s (other d).
Proof.
  intros (Hc & Hs & Ht). assert (Hq : queue_wf (queue_of s d)) by (destruct d; apply Hc).
  unfold ps2_queue, push. rewrite waiting_length by done. fold (queue_of s d). cbv zeta.
  destruct (Z.leb_spec PS2_QUEUE_SIZE (count (queue_of s d))) as [Hfull|Hroom].
  { exists s. split; [done|]. split; [done|]. split; [apply only_queues_refl|done]. }
  pose proof (qwf_len _ Hq) as Hl. pose proof (qwf_w _ Hq) as Hw.
  assert (0 <= wptr (queue_of s d) < PS2_QUEUE_SIZE) by (rewrite Hw; apply Z.mod_pos_bound; done).
  rewrite wr_in by lia. cbn [mbind outcome_bind].
  change (mkQueue _ _ _ _) with (enqueue (queue_of s d) (u8 b)).
  fold (set_queue s d (enqueue (queue_of s d) (u8 b))).
  destruct (enqueue_spec (queue_of s d) (u8 b) Hq Hroom) as [Hq' Hwt].
  set (s1 := set_queue s d _).
  destruct (update_irq_spec s1 d 1 (set_queue_core s d _ Hc Hq')) as (Hc' & Hs' & Hsd & Hp).
  assert (Hqs : forall d', queue_of (update_irq s1 d 1) d' = queue_of s1 d')
    by (intros; by apply same_devices_queue).
  assert (H1s : queue_of (update_irq s1 d 1) d = enqueue (queue_of s d) (u8 b))
    by (rewrite Hqs; apply set_queue_same).
  assert (H2s : queue_of (update_irq s1 d 1) (other d) = queue_of s (other d))
    by (rewrite Hqs; apply set_queue_other).
  eexists. split; [reflexivity|]. rewrite H1s.
  split; [|split; [|done]].
  - split; [done|]. split; [done|].
    apply (tracked_with s d (enqueue (queue_of s d) (u8 b))); [done..|].
    rewrite Hp. cbn [count enqueue]. pose proof (qwf_count _ Hq).
    unfold nz at 2. destruct (Z.eqb_spec (count (queue_of s d) + 1) 0); [lia|]. by destruct d.
  - eapply only_queues_trans; [apply set_queue_only|by apply same_devices_only].
Qed.

Lemma ps2_queue_all_spec bs s d :
  kbd_inv s ->
  exists s', ps2_queue_all s d bs = Done s' /\ kbd_inv s' /\ only_queues s s' /\
    waiting (queue_of s' d) = fold_left push bs (waiting (queue_of s d)) /\
    queue_of s' (other d) = queue_of s (other d).
Proof.
  revert s. induction bs as [|b bs IH]; intros s Hi; cbn [ps2_queue_all fold_left].
  { exists s. split; [done|]. split; [done|]. split; [apply only_queues_refl|done]. }
  destruct (ps2_queue_spec s d b Hi) as (s1 & -> & Hi1 & Ho1 & Hw1 & Hx1). cbn [mbind outcome_bind].
  destruct (IH s1 Hi1) as (s2 & -> & Hi2 & Ho2 & Hw2 & Hx2). exists s2. split; [done|]. split; [done|].
  split; [by eapply only_queues_trans|]. rewrite Hw2, Hw1. split; [done|congruence].
Qed.

Lemma ps2_read_data_spec s d :
  kbd_inv s ->
  exists v s', ps2_read_data s d = Done (v, s') /\ kbd_inv s' /\ only_queues s s' /\
    queue_of s' (other d) = queue_of s (other d) /\
    match waiting (queue_of s d) with
    | [] => s' = s
    | b :: l => v = b /\ waiting (queue_of s' d) = l
    end.
Proof.
  intros (Hc & Hs & Ht). assert (Hq : queue_wf (queue_of s d)) by (destruct d; apply Hc).
  pose proof (qwf_len _ Hq) as Hl. pose proof (qwf_r _ Hq) as Hr. unfold ps2_read_data. fold (queue_of s d).
  cbv zeta. destruct (Z.eqb_spec (count (queue_of s d)) 0) as [E|E].
  - rewrite rd_in by (unfold PS2_QUEUE_SIZE in *; destruct (Z.ltb_spec (rptr (queue_of s d) - 1) 0); lia).
    do 2 eexists. split; [reflexivity|]. split; [done|]. split; [apply only_queues_refl|]. split; [done|].
    unfold waiting. by rewrite E.
  - rewrite rd_in by (unfold PS2_QUEUE_SIZE in *; lia). cbn [mbind outcome_bind].
    change (mkQueue _ _ _ _) with (dequeue (queue_of s d)). fold (set_queue s d (dequeue (queue_of s d))).
    destruct (dequeue_spec (queue_of s d) Hq E) as [Hq' Hwt]. set (s1 := set_queue s d _).
    destruct (update_irq_spec s1 d 0 (set_queue_core s d _ Hc Hq')) as (Hc2 & Hs2 & Hsd2 & Hp2).
    set (s2 := update_irq s1 d 0) in *. set (l := b2z _).
    destruct (update_irq_spec s2 d l Hc2) as (Hc3 & Hs3 & Hsd3 & Hp3). set (s3 := update_irq s2 d l) in *.
    assert (Hqs : forall d', queue_of s3 d' = queue_of s1 d').
    { intros d'. rewrite (same_devices_queue s2 s3) by done. by apply same_devices_queue. }
    exists (arr (data (queue_of s d)) (rptr (queue_of s d))), s3. split; [done|].
    assert (H1s : queue_of s3 d = dequeue (queue_of s d)) by (rewrite Hqs; apply set_queue_same).
    assert (H2s : queue_of s3 (other d) = queue_of s (other d)) by (rewrite Hqs; apply set_queue_other).
    split; [|split; [|split; [done|by rewrite Hwt, H1s]]].
    + split; [done|]. split; [done|]. apply (tracked_with s d (dequeue (queue_of s d))); [done..|].
      rewrite Hp3, Hp2. replace (nz l) with (nz (count (dequeue (queue_of s d))))
        by (unfold l, nz; cbn; by destruct (count (queue_of s d) - 1 =? 0)).
      replace (pending s1) with (pending s) by (by destruct d). rewrite Ht.
      change (nz 0) with false.
      by destruct (has_data s Keyboard), (has_data s Aux), d, (nz (count (dequeue _))).
    + eapply only_queues_trans; [apply set_queue_only|].
      eapply only_queues_trans; by apply same_devices_only.
Qed.

(** *** The invariant through every operation *)

Lemma kbd_inv_ext s s' :
  kbd_inv s -> mode s' = mode s -> status s' = status s -> pending s' = pending s ->
  pic s' = pic s -> irq_kbd s' = irq_kbd s -> irq_mouse s' = irq_mouse s ->
  (forall d, queue_of s' d = queue_of s d) -> kbd_inv s'.
Proof.
  intros ([Hk Ha Hm Hst Hp Hok Hl1 Hl2 Hne] & [S1 S2 S3 S4] & Ht) Em Es Ep Ei E1 E2 Hq. split; [|split].
  - constructor; rewrite ?Hq, ?Em, ?Es, ?Ep, ?Ei, ?E1, ?E2; done.
  - constructor; unfold irq_kbd_level, irq_mouse_level in *;
      rewrite ?Em, ?Es, ?Ep, ?Ei, ?E1, ?E2; done.
  - unfold tracked, has_data in *. by rewrite !Hq, Ep.
Qed.

(** A change of fields the invariant does not read. *)
Ltac inv_fields := first [done | eapply kbd_inv_ext; [eassumption|try done..]; by intros [|]].

(** [m] finishes in a good state. *)
Definition good (m : outcome (KBDState P)) : Prop := exists s', m = Done s' /\ kbd_inv s'.

Lemma good_done s : kbd_inv s -> good (Done s).
Proof. intros. by exists s. Qed.
Lemma good_bind m k : good m -> (forall s, kbd_inv s -> good (k s)) -> good (m ≫= k).
Proof. intros (s & -> & Hi) Hk. by apply Hk. Qed.
Lemma good_queue s d b : kbd_inv s -> good (ps2_queue s d b).
Proof. intros Hi. destruct (ps2_queue_spec s d b Hi) as (s' & -> & ? & _). by exists s'. Qed.
Lemma good_queue_all s d bs : kbd_inv s -> good (ps2_queue_all s d bs).
Proof. intros Hi. destruct (ps2_queue_all_spec bs s d Hi) as (s' & -> & ? & _). by exists s'. Qed.

Lemma good_write_cmd s d v : kbd_inv s -> kbd_inv (set_write_cmd s d v).
Proof. intros Hi. destruct d; inv_fields. Qed.

(** An update of the mode register followed by [kbd_update_irq]. *)
Lemma good_mode s m : kbd_inv s -> inw 8 m -> kbd_inv (kbd_update_irq (s <| mode := m |>)).
Proof.
  intros (Hc & _ & Ht) Hm. assert (Hc1 : core (s <| mode := m |>)) by (destruct Hc; by constructor).
  destruct (kbd_update_irq_shown _ Hc1) as (Hc2 & Hs2 & Hsd & Hp). split; [done|]. split; [done|].
  unfold tracked, has_data in *. rewrite Hp, !(same_devices_queue _ _ _ Hsd). exact Ht.
Qed.

(** The mouse disable bit is not one the lines depend on. *)
Lemma good_mouse_mode s m :
  kbd_inv s -> inw 8 m -> Z.land m KBD_MODE_KBD_INT = Z.land (mode s) KBD_MODE_KBD_INT ->
  Z.land m KBD_MODE_DISABLE_KBD = Z.land (mode s) KBD_MODE_DISABLE_KBD ->
  Z.land m KBD_MODE_MOUSE_INT = Z.land (mode s) KBD_MODE_MOUSE_INT -> kbd_inv (s <| mode := m |>).
Proof.
  intros ([] & [S1 S2 S3 S4] & Ht) Hm E1 E2 E3. split; [by constructor|]. split; [|done].
  constructor; unfold irq_kbd_level, irq_mouse_level in *; cbn; rewrite ?E1, ?E2, ?E3; done.
Qed.

Lemma selftest_status s : kbd_inv s -> kbd_inv (s <| status := u8 (Z.lor (status s) KBD_STAT_SELFTEST) |>).
Proof.
  intros ([] & [S1 S2 S3 S4] & Ht). split; [constructor; cbn; try done; apply inw_u8|]. split; [|done].
  assert (Hw : inw 8 (Z.lor (status s) 4)) by eauto with width.
  constructor; [..|exact S3|exact S4].
  - change (Z.testbit (u8 (Z.lor (status s) 4)) 0 = nz (pending s)).
    rewrite u8_id, Z.lor_spec, S1 by done. apply orb_false_r.
  - change (Z.testbit (u8 (Z.lor (status s) 4)) 5 = (pending s =? KBD_PENDING_AUX)).
    rewrite u8_id, Z.lor_spec, S2 by done. apply orb_false_r.
Qed.

Lemma good_flush_delay s : kbd_inv s -> good (flush_delay s).
Proof.
  intros Hi. unfold flush_delay. case_match; [|by apply good_done]. apply good_queue. inv_fields.
Qed.

Lemma good_put_keycode s now down code : kbd_inv s -> good (ps2_put_keycode s now down code).
Proof.
  intros Hi. unfold ps2_put_keycode. apply good_bind; [by apply good_flush_delay|]. intros s1 Hi1.
  case_match; [apply good_bind; [by apply good_queue|]; intros; apply good_done; inv_fields|].
  destruct (Z.leb_spec 96 code); [|by apply good_queue].
  destruct (Z.ltb_spec 127 code); [by apply good_done|].
  rewrite rd_in by (change (alen linux_input_to_keycode_set1) with 32; lia). cbn [mbind outcome_bind].
  case_match; [by apply good_done|].
  apply good_bind; [by apply good_queue|]. intros; apply good_done; inv_fields.
Qed.

Lemma good_write_keyboard s val : kbd_inv s -> good (ps2_write_keyboard s val).
Proof.
  intros Hi. unfold ps2_write_keyboard.
  assert (Hack : good (s ← ps2_queue_all s Keyboard [ACK]; Done (set_write_cmd s Keyboard (-1)))).
  { apply good_bind; [by apply good_queue_all|]. intros s1 H1'. by apply good_done, good_write_cmd. }
  assert (Hscan : forall v bs, good (ps2_queue_all (set_scan s v) Keyboard bs))
    by (intros; apply good_queue_all; inv_fields).
  assert (Hcmd : forall bs, good (ps2_queue_all (set_write_cmd s Keyboard val) Keyboard bs))
    by (intros; by apply good_queue_all, good_write_cmd).
  assert (Hq : forall bs, good (ps2_queue_all s Keyboard bs)) by (intros; by apply good_queue_all).
  repeat case_match; first [exact Hack | apply Hq | apply Hscan | apply Hcmd].
Qed.

(** *** Packets *)

Lemma clamp_spec lim d : 0 < lim ->
  -lim <= clamp lim d <= lim /\ Z.abs (d - clamp lim d) <= Z.abs d /\
  (d <> 0 -> Z.abs (d - clamp lim d) < Z.abs d) /\ (-lim <= d <= lim -> clamp lim d = d).
Proof.
  intros. unfold clamp. destruct (Z.ltb_spec lim d); [lia|]. destruct (Z.ltb_spec d (-lim)); lia.
Qed.
Lemma wheel_spec t d :
  Z.abs (d - wheel t d) <= Z.abs d /\ (d <> 0 -> Z.abs (d - wheel t d) < Z.abs d).
Proof.
  unfold wheel. pose proof (clamp_spec 127 d). pose proof (clamp_spec 7 d).
  repeat case_match; lia.
Qed.

(** What is left of the motion after a packet. *)
Definition leftover (m : PS2MouseState) : Z * Z * Z :=
  (mouse_dx m - clamp 127 (mouse_dx m), mouse_dy m - clamp 127 (mouse_dy m),
   mouse_dz m - wheel (mouse_type m) (mouse_dz m)).

Definition packet_of (m : PS2MouseState) : list Z :=
  packet (mouse_type m) (mouse_buttons m) (mouse_dx m) (mouse_dy m) (mouse_dz m).

Lemma send_packet_spec s :
  kbd_inv s ->
  exists s', ps2_mouse_send_packet s = Done s' /\ kbd_inv s' /\
    waiting (queue_of s' Aux) = fold_left push (packet_of (mouse s)) (waiting (queue_of s Aux)) /\
    kbd s' = kbd s /\ mouse_type (mouse s') = mouse_type (mouse s) /\
    mouse_buttons (mouse s') = mouse_buttons (mouse s) /\
    (mouse_dx (mouse s'), mouse_dy (mouse s'), mouse_dz (mouse s')) = leftover (mouse s).
Proof.
  intros Hi. unfold ps2_mouse_send_packet. fold (packet_of (mouse s)).
  destruct (ps2_queue_all_spec (packet_of (mouse s)) s Aux Hi) as (s1 & -> & Hi1 & [_ _ _ Hk Hm] & Hw & Hx).
  cbn [mbind outcome_bind]. eexists. split; [reflexivity|]. split; [inv_fields|]. split; [exact Hw|].
  split; [|split; [|split; [|done]]].
  - change (kbd (set_deltas s1 _ _ _)) with (kbd s1). rewrite Hk. cbn [other] in Hx.
    rewrite Hx. unfold queue_of, common. by destruct (kbd s) as [[] ].
  - cbn. by rewrite Hm.
  - cbn. by rewrite Hm.
Qed.

Definition distance (m : PS2MouseState) : Z := Z.abs (mouse_dx m) + Z.abs (mouse_dy m) + Z.abs (mouse_dz m).

Lemma leftover_distance m m' :
  (mouse_dx m', mouse_dy m', mouse_dz m') = leftover m ->
  (at_rest m = true -> distance m' = 0) /\ (at_rest m = false -> distance m' < distance m).
Proof.
  unfold leftover, at_rest, distance. intros [= -> -> ->].
  pose proof (clamp_spec 127 (mouse_dx m) ltac:(lia)). pose proof (clamp_spec 127 (mouse_dy m) ltac:(lia)).
  pose proof (wheel_spec (mouse_type m) (mouse_dz m)).
  destruct (Z.eqb_spec (mouse_dx m) 0), (Z.eqb_spec (mouse_dy m) 0), (Z.eqb_spec (mouse_dz m) 0); cbn; lia.
Qed.

Lemma at_rest_distance m : at_rest m = true <-> distance m = 0.
Proof. unfold at_rest, distance. rewrite !andb_true_iff, !Z.eqb_eq. lia. Qed.

(** The packets of a motion, in order. *)
Fixpoint packets (fuel : nat) (m : PS2MouseState) : list PS2MouseState :=
  match fuel with
  | O => []
  | S fuel =>
      let '(dx, dy, dz) := leftover m in
      let m' := m <| mouse_dx := dx |> <| mouse_dy := dy |> <| mouse_dz := dz |> in
      m :: if at_rest m' then [] else packets fuel m'
  end.

(** A mouse beside its queue. *)
Definition body (m : PS2MouseState) : Z * Z * Z * Z * Z :=
  (mouse_type m, mouse_buttons m, mouse_dx m, mouse_dy m, mouse_dz m).

Lemma packets_body fuel m m' :
  body m = body m' -> packet_of <$> packets fuel m = packet_of <$> packets fuel m'.
Proof.
  revert m m'. induction fuel as [|fuel IH]; intros m m' E; [done|]. cbn [packets].
  unfold body in E. injection E as E1 E2 E3 E4 E5.
  assert (Ep : packet_of m = packet_of m') by (unfold packet_of; congruence).
  assert (El : leftover m = leftover m') by (unfold leftover; congruence). rewrite El.
  destruct (leftover m') as [[dx dy] dz]. rewrite !fmap_cons, Ep. f_equal.
  set (n := m <| mouse_dx := dx |> <| mouse_dy := dy |> <| mouse_dz := dz |>).
  set (n' := m' <| mouse_dx := dx |> <| mouse_dy := dy |> <| mouse_dz := dz |>).
  change (at_rest n) with (at_rest n'). destruct (at_rest n'); [done|].
  apply IH. unfold body, n, n'. cbn. by rewrite E1, E2.
Qed.

Lemma packet_loop_spec fuel s :
  kbd_inv s -> (Z.to_nat (distance (mouse s)) < fuel)%nat ->
  exists s', packet_loop fuel s = Done s' /\ kbd_inv s' /\ at_rest (mouse s') = true /\
    kbd s' = kbd s /\
    waiting (queue_of s' Aux) =
      fold_left push (concat (packet_of <$> packets fuel (mouse s))) (waiting (queue_of s Aux)).
Proof.
  revert s. induction fuel as [|fuel IH]; intros s Hi Hf; [lia|]. cbn [packet_loop packets].
  destruct (send_packet_spec s Hi) as (s1 & -> & Hi1 & Hw1 & Hk1 & Ht1 & Hb1 & Hl1).
  cbn [mbind outcome_bind]. destruct (leftover_distance _ _ Hl1) as [Hr0 Hr1].
  destruct (leftover (mouse s)) as [[dx dy] dz] eqn:El. injection Hl1 as E1 E2 E3.
  set (m' := (mouse s) <| mouse_dx := dx |> <| mouse_dy := dy |> <| mouse_dz := dz |>).
  assert (Hb : body m' = body (mouse s1)) by (unfold body, m'; cbn; by rewrite Ht1, Hb1, E1, E2, E3).
  assert (Hr : at_rest m' = at_rest (mouse s1)) by (unfold at_rest, m'; cbn; by rewrite E1, E2, E3).
  rewrite Hr. cbn [fmap list_fmap concat]. rewrite fold_left_app.
  destruct (at_rest (mouse s1)) eqn:Ea.
  { exists s1. cbn. rewrite Hw1. done. }
  destruct (at_rest (mouse s)) eqn:Ea0.
  { specialize (Hr0 eq_refl). apply at_rest_distance in Hr0. congruence. }
  specialize (Hr1 eq_refl).
  destruct (IH s1 Hi1) as (s2 & E & Hi2 & Ha2 & Hk2 & Hw2).
  { unfold distance in *. lia. }
  exists s2. split; [done|]. split; [done|]. split; [done|]. split; [congruence|].
  by rewrite Hw2, Hw1, (packets_body fuel m' (mouse s1)).
Qed.

Lemma good_mouse_event s dx dy dz b : kbd_inv s -> good (ps2_mouse_event s dx dy dz b).
Proof.
  intros Hi. unfold ps2_mouse_event. case_match; [by apply good_done|]. cbv zeta.
  set (s1 := set_deltas s _ _ _). assert (Hi1 : kbd_inv s1) by inv_fields.
  case_match; [by apply good_done|]. set (s2 := s1 <| mouse := _ |>).
  assert (Hi2 : kbd_inv s2) by inv_fields. case_match; [|by apply good_done].
  destruct (packet_loop_spec (packet_fuel (mouse s2)) s2 Hi2) as (s' & -> & ? & _).
  { unfold packet_fuel, distance. lia. }
  by exists s'.
Qed.

Lemma good_mouse_command s val : kbd_inv s -> good (mouse_command s val).
Proof.
  intros Hi. unfold mouse_command.
  assert (Hm : forall f bs, (forall m, mcommon (f m) = mcommon m) -> good (ps2_queue_all (map_mouse s f) Aux bs)).
  { intros f bs Hf. apply good_queue_all. eapply kbd_inv_ext; [eassumption|done..|].
    intros [|]; [done|]. unfold queue_of, common, map_mouse. cbn. by rewrite Hf. }
  assert (Hq : forall bs, good (ps2_queue_all s Aux bs)) by (intros; by apply good_queue_all).
  assert (Hc : forall bs, good (ps2_queue_all (set_write_cmd s Aux val) Aux bs))
    by (intros; by apply good_queue_all, good_write_cmd).
  assert (Hp : good (s ← ps2_queue_all s Aux [ACK]; ps2_mouse_send_packet s)).
  { apply good_bind; [by apply good_queue_all|]. intros s1 H1'.
    destruct (send_packet_spec s1 H1') as (s2 & -> & ? & _). by exists s2. }
  repeat case_match; first
    [by apply good_done | apply Hq | apply Hc | exact Hp | by apply Hm].
Qed.

Lemma good_write_mouse s val : kbd_inv s -> good (ps2_write_mouse s val).
Proof.
  intros Hi. unfold ps2_write_mouse.
  assert (Hm : forall f, (forall m, mcommon (f m) = mcommon m) -> kbd_inv (map_mouse s f)).
  { intros f Hf. eapply kbd_inv_ext; [eassumption|done..|].
    intros [|]; [done|]. unfold queue_of, common, map_mouse. cbn. by rewrite Hf. }
  assert (Hset : forall s1 bs, kbd_inv s1 ->
    good (s ← ps2_queue_all s1 Aux bs; Done (set_write_cmd s Aux (-1)))).
  { intros s1 bs H1'. apply good_bind; [by apply good_queue_all|]. intros. by apply good_done, good_write_cmd. }
  assert (Hwrap : good (if nz (mouse_wrap (mouse s)) then
        if val =? 0xec then ps2_queue_all (map_mouse s (fun m => m <| mouse_wrap := 0 |>)) Aux [ACK]
        else if val =? 0xff then mouse_command s val else ps2_queue_all s Aux [val]
      else mouse_command s val)).
  { repeat case_match; try (by apply good_mouse_command); apply good_queue_all; auto. }
  assert (Hd : kbd_inv (map_mouse s (fun m => detect (m <| mouse_sample_rate := u8 val |>) val))).
  { apply Hm. intros m. unfold detect. repeat case_match; done. }
  repeat case_match; first [exact Hwrap | by apply Hset | apply Hset; by apply Hm].
Qed.

Lemma mode_bit5 m : inw 8 m ->
  let on := u8 (Z.lor m KBD_MODE_DISABLE_MOUSE) in
  let off := u8 (Z.land m (Z.lnot KBD_MODE_DISABLE_MOUSE)) in
  forall b, In b [KBD_MODE_KBD_INT; KBD_MODE_DISABLE_KBD; KBD_MODE_MOUSE_INT] ->
    Z.land on b = Z.land m b /\ Z.land off b = Z.land m b.
Proof.
  intros Hm on off b Hb.
  assert (Hall : forall b, In b [KBD_MODE_KBD_INT; KBD_MODE_DISABLE_KBD; KBD_MODE_MOUSE_INT] ->
    all_below 256 (fun m => (Z.land (u8 (Z.lor m KBD_MODE_DISABLE_MOUSE)) b =? Z.land m b) &&
      (Z.land (u8 (Z.land m (Z.lnot KBD_MODE_DISABLE_MOUSE))) b =? Z.land m b)) = true).
  { intros c [<- | [<- | [<- | []]]]; vm_compute; reflexivity. }
  pose proof (all_below_spec _ _ m (Hall b Hb) Hm) as Hx. cbv beta in Hx.
  apply andb_true_iff in Hx as [Ha Hc]. by apply Z.eqb_eq in Ha, Hc.
Qed.

Lemma good_write_command s val : kbd_inv s -> good (kbd_write_command s val).
Proof.
  intros Hi. pose proof (core_mode s (proj1 Hi)) as Hm. unfold kbd_write_command, kbd_queue.
  assert (Hcmd : good (Done (s <| cmd := val |>))) by (apply good_done; inv_fields).
  assert (Hq : forall d b, good (ps2_queue s d b)) by (intros; by apply good_queue).
  assert (Hmouse : forall m, inw 8 m ->
    (forall b, In b [KBD_MODE_KBD_INT; KBD_MODE_DISABLE_KBD; KBD_MODE_MOUSE_INT] ->
       Z.land m b = Z.land (mode s) b) -> good (Done (s <| mode := m |>))).
  { intros m Hw Hb. apply good_done, good_mouse_mode; try done; apply Hb; cbn; auto. }
  assert (Hkbd : forall m, inw 8 m -> good (Done (kbd_update_irq (s <| mode := m |>))))
    by (intros; by apply good_done, good_mode).
  assert (Hreset : good (Done (request_reset s))) by (apply good_done; inv_fields).
  repeat case_match; first
    [ exact Hcmd | apply Hq | exact Hreset | by apply good_done
    | apply Hmouse; [apply inw_u8|intros b Hb; by apply (mode_bit5 (mode s) Hm b Hb)]
    | apply Hkbd, inw_u8 | by apply good_queue, selftest_status ].
Qed.

Lemma good_write_data s val : kbd_inv s -> good (kbd_write_data s val).
Proof.
  intros Hi. unfold kbd_write_data, kbd_queue.
  apply good_bind; [|intros; apply good_done; inv_fields].
  assert (Hmode : good (Done (kbd_update_irq (ps2_keyboard_set_translation (s <| mode := u8 val |>)
    (b2z (nz (Z.land (mode (s <| mode := u8 val |>)) KBD_MODE_KCC))))))).
  { apply good_done. set (v := b2z _).
    change (ps2_keyboard_set_translation (s <| mode := u8 val |>) v)
      with ((ps2_keyboard_set_translation s v) <| mode := u8 val |>).
    apply good_mode; [|apply inw_u8]. inv_fields. }
  assert (Hr : good (Done (if Z.land val 1 =? 0 then request_reset s else s)))
    by (apply good_done; case_match; [inv_fields|done]).
  repeat case_match; first
    [ by apply good_write_keyboard | by apply good_queue | by apply good_write_mouse | by apply good_done
    | exact Hmode | exact Hr ].
Qed.

(** *** Every run of the controller *)

Inductive kbd_op :=
| WriteCommand (val : Z) | WriteData (val : Z) | ReadData | ReadStatus
| KeyEvent (now : Z) (is_down : bool) (keycode : Z) | Step (now : Z)
| MouseEvent (dx dy dz buttons : Z).

Definition run_kbd_op s (o : kbd_op) : outcome (KBDState P) :=
  match o with
  | WriteCommand val => kbd_write_command s val
  | WriteData val => kbd_write_data s val
  | ReadData => r ← kbd_read_data s; Done r.2
  | ReadStatus => Done s
  | KeyEvent now down code => ps2_put_keycode s now down code
  | Step now => kbd_step s now
  | MouseEvent dx dy dz b => ps2_mouse_event s dx dy dz b
  end.
Fixpoint run_kbd_ops s (os : list kbd_op) : outcome (KBDState P) :=
  match os with [] => Done s | o :: os => s ← run_kbd_op s o; run_kbd_ops s os end.

Lemma kbd_op_good s o : kbd_inv s -> good (run_kbd_op s o).
Proof.
  intros Hi. destruct o; cbn [run_kbd_op].
  - by apply good_write_command.
  - by apply good_write_data.
  - unfold kbd_read_data. destruct (ps2_read_data_spec s (if pending s =? KBD_PENDING_AUX then Aux else Keyboard) Hi)
      as (v & s' & -> & ? & _). by apply good_done.
  - by apply good_done.
  - by apply good_put_keycode.
  - unfold kbd_step. case_match; [by apply good_flush_delay|by apply good_done].
  - by apply good_mouse_event.
Qed.

Lemma kbd_ops_good os s : kbd_inv s -> good (run_kbd_ops s os).
Proof.
  revert s. induction os as [|o os IH]; intros s Hi; cbn [run_kbd_ops]; [by apply good_done|].
  apply good_bind; [by apply kbd_op_good|auto].
Qed.

Lemma init_inv i1 i2 (p : P) :
  irq_line i1 -> irq_line i2 -> i1 <> i2 -> sink_ok p -> ~ sink_high p i1 -> ~ sink_high p i2 ->
  kbd_inv (i8042_init i1 i2 p).
Proof.
  intros H1' H2' Hne Hp Hl1 Hl2.
  assert (Hq : queue_wf (queue ps2_reset)) by (constructor; by vm_compute).
  split; [constructor; try done; by vm_compute|]. split; [|done].
  constructor; try done; cbn; split; intros; (done || (exfalso; auto; lia)).
Qed.

(** C13. From power-on, no sequence of port accesses, key and mouse events and
    timer steps gets the controller stuck: the rings stay rings, the packet loop
    of every mouse event ends, the output-full status bit says whether either
    device has data, the mouse bit whether only the mouse has, and the two
    interrupt lines are held high exactly when the mode register lets the
    pending device raise them. *)
Theorem kbd_reachable_shown i1 i2 (p : P) os :
  irq_line i1 -> irq_line i2 -> i1 <> i2 -> sink_ok p -> ~ sink_high p i1 -> ~ sink_high p i2 ->
  exists s, run_kbd_ops (i8042_init i1 i2 p) os = Done s /\
    let k := has_data s Keyboard in let a := has_data s Aux in
    Z.testbit (status s) 0 = k || a /\ Z.testbit (status s) 5 = negb k && a /\
    (sink_high (pic s) (irq_kbd s) <->
       k = true /\ Z.testbit (mode s) 0 = true /\ Z.testbit (mode s) 4 = false) /\
    (sink_high (pic s) (irq_mouse s) <-> k = false /\ a = true /\ Z.testbit (mode s) 1 = true).
Proof.
  intros H1' H2' Hne Hp Hl1 Hl2.
  destruct (kbd_ops_good os _ (init_inv i1 i2 p H1' H2' Hne Hp Hl1 Hl2)) as (s & -> & Hc & [S1 S2 S3 S4] & Ht).
  exists s. split; [done|]. cbv zeta. unfold tracked in Ht. rewrite S1, S2, S3, S4, Ht.
  pose proof (land_bit_nz (mode s) 0 ltac:(lia)) as B0. pose proof (land_bit_nz (mode s) 1 ltac:(lia)) as B1.
  pose proof (land_bit_nz (mode s) 4 ltac:(lia)) as B4.
  unfold irq_kbd_level, irq_mouse_level. rewrite Ht.
  change KBD_MODE_KBD_INT with (Z.shiftl 1 0). change KBD_MODE_MOUSE_INT with (Z.shiftl 1 1).
  change KBD_MODE_DISABLE_KBD with (Z.shiftl 1 4). rewrite B0, B1.
  assert (B4' : (Z.land (mode s) (Z.shiftl 1 4) =? 0) = negb (Z.testbit (mode s) 4))
    by (rewrite <- B4; unfold nz; by rewrite negb_involutive).
  rewrite B4'. clear.
  destruct (has_data s Keyboard), (has_data s Aux);
    destruct (Z.testbit (mode s) 0), (Z.testbit (mode s) 1), (Z.testbit (mode s) 4);
    (split; [reflexivity|split; [reflexivity|split; split; vm_compute; intuition congruence]]).
Qed.

(** *** Draining the data port *)

Fixpoint read_port (n : nat) s : outcome (list Z * KBDState P) :=
  match n with
  | O => Done ([], s)
  | S n => r ← kbd_read_data s; rs ← read_port n r.2; Done (r.1 :: rs.1, rs.2)
  end.

Lemma waiting_empty s d : kbd_inv s -> waiting (queue_of s d) = [] <-> has_data s d = false.
Proof.
  intros (Hc & _ & _). assert (Hq : queue_wf (queue_of s d)) by (destruct d; apply Hc).
  pose proof (waiting_length _ Hq) as Hl. unfold has_data, nz. pose proof (qwf_count _ Hq).
  destruct (Z.eqb_spec (count (queue_of s d)) 0); split; intros Hx; try done.
  - apply length_zero_iff_nil. unfold alen in Hl. lia.
  - rewrite Hx in Hl. unfold alen in Hl. cbn in Hl. lia.
Qed.

Lemma read_next s :
  kbd_inv s ->
  exists v s', kbd_read_data s = Done (v, s') /\ kbd_inv s' /\
    match waiting (queue_of s Keyboard), waiting (queue_of s Aux) with
    | b :: k, a => v = b /\ waiting (queue_of s' Keyboard) = k /\ waiting (queue_of s' Aux) = a
    | [], b :: a => v = b /\ waiting (queue_of s' Keyboard) = [] /\ waiting (queue_of s' Aux) = a
    | [], [] => s' = s
    end.
Proof.
  intros Hi. pose proof Hi as (_ & _ & Ht). unfold kbd_read_data.
  pose proof (waiting_empty s Keyboard Hi) as Wk. pose proof (waiting_empty s Aux Hi) as Wa.
  unfold tracked in Ht. rewrite Ht.
  destruct (waiting (queue_of s Keyboard)) as [|b k] eqn:Ek.
  - rewrite (proj1 Wk) by done. destruct (waiting (queue_of s Aux)) as [|b a] eqn:Ea.
    + rewrite (proj1 Wa) by done.
      change (b2z false + 2 * b2z false =? KBD_PENDING_AUX) with false. cbv iota.
      destruct (ps2_read_data_spec s Keyboard Hi) as (v & s' & -> & Hi' & _ & _ & Hw).
      rewrite Ek in Hw. by exists v, s'.
    + assert (Ha : has_data s Aux = true) by (destruct (has_data s Aux); [done|]; naive_solver).
      rewrite Ha. change (b2z false + 2 * b2z true =? KBD_PENDING_AUX) with true. cbv iota.
      destruct (ps2_read_data_spec s Aux Hi) as (v & s' & -> & Hi' & _ & Ho & Hw).
      rewrite Ea in Hw. destruct Hw as [-> Hw]. exists b, s'. cbn [other] in Ho. rewrite Ho. done.
  - assert (Hk : has_data s Keyboard = true) by (destruct (has_data s Keyboard); [done|]; naive_solver).
    rewrite Hk. assert ((b2z true + 2 * b2z (has_data s Aux) =? KBD_PENDING_AUX) = false) as ->
      by (by destruct (has_data s Aux)).
    destruct (ps2_read_data_spec s Keyboard Hi) as (v & s' & -> & Hi' & _ & Ho & Hw).
    rewrite Ek in Hw. destruct Hw as [-> Hw]. exists b, s'. cbn [other] in Ho. rewrite Ho. done.
Qed.

Lemma read_port_spec n s k a :
  kbd_inv s -> waiting (queue_of s Keyboard) = k -> waiting (queue_of s Aux) = a ->
  n = length (k ++ a) ->
  exists s', read_port n s = Done (k ++ a, s') /\ kbd_inv s' /\
    waiting (queue_of s' Keyboard) = [] /\ waiting (queue_of s' Aux) = [].
Proof.
  revert s k a. induction n as [|n IH]; intros s k a Hi Hk Ha Hn.
  { symmetry in Hn. apply length_zero_iff_nil, app_eq_nil in Hn as [-> ->]. by exists s. }
  cbn [read_port]. destruct (read_next s Hi) as (v & s1 & -> & Hi1 & Hw). cbn [mbind outcome_bind fst snd].
  rewrite Hk, Ha in Hw. destruct k as [|b k]; [destruct a as [|b a]; [done|]|]; destruct Hw as (-> & Hk1 & Ha1).
  - destruct (IH s1 [] a Hi1 Hk1 Ha1) as (s' & -> & ?); [cbn in *; lia|]. by exists s'.
  - destruct (IH s1 k a Hi1 Hk1 Ha1) as (s' & -> & ?); [cbn in *; lia|]. by exists s'.
Qed.

(** C23. The data port is a queue: reading it as many times as bytes wait
    returns every keyboard byte in the order it was queued, then every mouse
    byte in its order, nothing lost and nothing twice, and leaves the
    output-full bit clear. *)
Theorem data_port_order s :
  kbd_inv s ->
  let k := waiting (queue_of s Keyboard) in let a := waiting (queue_of s Aux) in
  exists s', read_port (length (k ++ a)) s = Done (k ++ a, s') /\
    waiting (queue_of s' Keyboard) = [] /\ waiting (queue_of s' Aux) = [] /\
    Z.testbit (status s') 0 = false.
Proof.
  intros Hi k a. destruct (read_port_spec (length (k ++ a)) s k a Hi eq_refl eq_refl eq_refl)
    as (s' & E & Hi' & Hk & Ha). exists s'. split; [done|]. split; [done|]. split; [done|].
  apply (waiting_empty s' _ Hi') in Hk, Ha. destruct Hi' as (_ & [-> _ _ _] & Ht).
  unfold tracked in Ht. by rewrite Ht, Hk, Ha.
Qed.

(** *** The motion a mouse driver reads back

    [decode] reads a byte stream the way a PS/2 driver does for a mouse of type
    [t]: nine-bit deltas, and for types 3 and 4 a wheel byte. *)

Record report := mkReport { r_dx : Z; r_dy : Z; r_dz : Z; r_buttons : Z }.

Fixpoint decode (t : Z) (l : list Z) : option (list report) :=
  match l with
  | [] => Some []
  | b0 :: bx :: by_ :: l' =>
      let r dz hi := mkReport (bx - 256 * b2z (Z.testbit b0 4)) (by_ - 256 * b2z (Z.testbit b0 5)) dz
                       (Z.land b0 7 + hi) in
      match t, l' with
      | 3, bz :: l'' => cons (r (s8 bz) 0) <$> decode t l''
      | 4, bz :: l'' => cons (r (sgn 4 bz) (Z.land (Z.shiftr bz 1) 0x18)) <$> decode t l''
      | 3, [] | 4, [] => None
      | _, _ => cons (r 0 0) <$> decode t l'
      end
  | _ => None
  end.

Definition mouse_type_ok (t : Z) : Prop := t = 0 \/ t = 3 \/ t = 4.

(** What a packet says: the deltas it carries and the buttons it shows. *)
Definition said (m : PS2MouseState) : report :=
  mkReport (clamp 127 (mouse_dx m)) (clamp 127 (mouse_dy m))
    (if mouse_type m =? 0 then 0 else wheel (mouse_type m) (mouse_dz m))
    (Z.land (mouse_buttons m) (if mouse_type m =? 4 then 0x1f else 7)).

Lemma delta_byte d : -127 <= d <= 127 ->
  inw 8 (Z.land d 255) /\ Z.land d 255 - 256 * b2z (d <? 0) = d /\ s8 (Z.land d 255) = d.
Proof.
  intros Hd. rewrite land_255. split; [apply (inw_mod 8); lia|].
  unfold s8, sgn. change (2 ^ 8) with 256. change (2 ^ (8 - 1)) with 128.
  rewrite Zmod_mod. destruct (Z.ltb_spec d 0).
  - assert (d mod 256 = d + 256) as ->. { symmetry. apply (Z.mod_unique _ _ (-1)); lia. }
    cbn [b2z]. destruct (Z.ltb_spec (d + 256) 128); lia.
  - rewrite Z.mod_small by lia. cbn [b2z]. destruct (Z.ltb_spec d 128); lia.
Qed.

Definition flag_byte (sx sy : bool) (b : Z) : Z :=
  Z.lor (Z.lor (Z.lor 0x08 (Z.shiftl (b2z sx) 4)) (Z.shiftl (b2z sy) 5)) (Z.land b 0x07).

Lemma flag_byte_spec sx sy b : inw 8 b ->
  inw 8 (flag_byte sx sy b) /\ Z.testbit (flag_byte sx sy b) 4 = sx /\
  Z.testbit (flag_byte sx sy b) 5 = sy /\ Z.land (flag_byte sx sy b) 7 = Z.land b 7.
Proof.
  intros Hb.
  assert (Hall : all_below 256 (fun b => bool_decide (inw 8 (flag_byte sx sy b) /\
    Z.testbit (flag_byte sx sy b) 4 = sx /\ Z.testbit (flag_byte sx sy b) 5 = sy /\
    Z.land (flag_byte sx sy b) 7 = Z.land b 7)) = true)
    by (destruct sx, sy; vm_compute; reflexivity).
  pose proof (all_below_spec _ _ b Hall Hb) as Hx. cbv beta in Hx. by apply bool_decide_eq_true in Hx.
Qed.

Definition imex_byte (d b : Z) : Z := Z.lor (Z.land d 0x0f) (Z.shiftl (Z.land b 0x18) 1).

Lemma imex_byte_spec d b : -7 <= d <= 7 -> inw 8 b ->
  inw 8 (imex_byte d b) /\ sgn 4 (imex_byte d b) = d /\
  Z.land b 7 + Z.land (Z.shiftr (imex_byte d b) 1) 0x18 = Z.land b 0x1f.
Proof.
  intros Hd Hb.
  assert (Hall : all_below 15 (fun i => all_below 256 (fun b =>
    bool_decide (inw 8 (imex_byte (i - 7) b) /\ sgn 4 (imex_byte (i - 7) b) = i - 7 /\
      Z.land b 7 + Z.land (Z.shiftr (imex_byte (i - 7) b) 1) 0x18 = Z.land b 0x1f))) = true)
    by (vm_compute; reflexivity).
  pose proof (all_below_spec _ _ (d + 7) Hall ltac:(lia)) as Hx. cbv beta in Hx.
  pose proof (all_below_spec _ _ b Hx Hb) as Hy. cbv beta in Hy. apply bool_decide_eq_true in Hy.
  by replace (d + 7 - 7) with d in Hy by lia.
Qed.

Lemma clamp_range lim d : 0 < lim -> -lim <= clamp lim d <= lim.
Proof. intros Hl. by apply clamp_spec. Qed.

Ltac bytes_ok := repeat (apply List.Forall_cons; [done|]); apply List.Forall_nil.

Lemma packet_decodes m l :
  mouse_type_ok (mouse_type m) -> inw 8 (mouse_buttons m) ->
  Forall (inw 8) (packet_of m) /\
  decode (mouse_type m) (packet_of m ++ l) = cons (said m) <$> decode (mouse_type m) l.
Proof.
  intros Ht Hb. unfold packet_of, packet, said.
  destruct (delta_byte _ (clamp_range 127 (mouse_dx m) eq_refl)) as (X1 & X2 & _).
  destruct (delta_byte _ (clamp_range 127 (mouse_dy m) eq_refl)) as (Y1 & Y2 & _).
  set (sx := clamp 127 (mouse_dx m) <? 0) in *. set (sy := clamp 127 (mouse_dy m) <? 0) in *.
  fold (flag_byte sx sy (mouse_buttons m)).
  destruct (flag_byte_spec sx sy (mouse_buttons m) Hb) as (F1 & F2 & F3 & F4).
  set (F := flag_byte sx sy (mouse_buttons m)) in *. clearbody F.
  destruct Ht as [-> |[-> | ->]]; cbn [app decode wheel Z.eqb]; cbv zeta; rewrite F2, F3, F4, X2, Y2.
  - split; [bytes_ok|]. by rewrite Z.add_0_r.
  - destruct (delta_byte _ (clamp_range 127 (mouse_dz m) eq_refl)) as (Z1 & _ & Z3).
    split; [bytes_ok|]. by rewrite Z3, Z.add_0_r.
  - destruct (imex_byte_spec _ (mouse_buttons m) (clamp_range 7 (mouse_dz m) eq_refl) Hb) as (Z1 & Z2 & Z3).
    fold (imex_byte (clamp 7 (mouse_dz m)) (mouse_buttons m)). set (I := imex_byte _ _) in *.
    change (Pos.eqb 4 4) with true. cbv iota.
    split; [bytes_ok|]. by rewrite Z2, Z3.
Qed.

Definition total (f : report -> Z) (rs : list report) : Z := fold_right (fun r z => f r + z) 0 rs.

(** The motion fits [n] packets. *)
Definition fits (n : Z) (m : PS2MouseState) : Prop :=
  Z.abs (mouse_dx m) <= 127 * n /\ Z.abs (mouse_dy m) <= 127 * n /\ Z.abs (mouse_dz m) <= 7 * n.

Lemma clamp_fits lim k n d :
  0 < k <= lim -> 0 <= n -> Z.abs d <= k * (n + 1) -> Z.abs (d - clamp lim d) <= k * n.
Proof.
  intros. pose proof (Z.mul_nonneg_nonneg k n ltac:(lia) ltac:(lia)).
  unfold clamp. destruct (Z.ltb_spec lim d); [lia|]. destruct (Z.ltb_spec d (- lim)); lia.
Qed.

Lemma leftover_fits n m m' :
  0 <= n -> mouse_type_ok (mouse_type m) -> fits (n + 1) m ->
  (mouse_dx m', mouse_dy m', mouse_dz m') = leftover m -> fits n m'.
Proof.
  intros Hn Ht (Hx & Hy & Hz). unfold leftover, fits. intros [= -> -> ->].
  split; [by apply clamp_fits|]. split; [by apply clamp_fits|].
  destruct Ht as [-> |[-> | ->]]; cbn [wheel]; [rewrite Z.sub_diag; lia|by apply clamp_fits..].
Qed.

Lemma fits_rest m : fits 0 m -> at_rest m = true.
Proof. intros (? & ? & ?). apply at_rest_distance. unfold distance. lia. Qed.

Lemma s32_signed z : -2 ^ 31 <= z < 2 ^ 31 -> s32 z = z.
Proof.
  intros. unfold s32, sgn. change (2 ^ (32 - 1)) with (2 ^ 31). destruct (Z.lt_ge_cases z 0).
  - replace (z mod 2 ^ 32) with (z + 2 ^ 32) by (apply (Z.mod_unique _ _ (-1)); lia).
    destruct (Z.ltb_spec (z + 2 ^ 32) (2 ^ 31)); lia.
  - rewrite Z.mod_small by lia. destruct (Z.ltb_spec z (2 ^ 31)); lia.
Qed.

Lemma push_room bs l :
  Forall (inw 8) bs -> alen l + alen bs <= PS2_QUEUE_SIZE -> fold_left push bs l = l ++ bs.
Proof.
  revert l. induction bs as [|b bs IH]; intros l Hb Hr; cbn [fold_left]; [by rewrite app_nil_r|].
  apply Forall_cons in Hb as [Hb Hbs]. unfold alen in *. cbn [length] in Hr.
  unfold push at 2. unfold alen. destruct (Z.leb_spec PS2_QUEUE_SIZE (Z.of_nat (length l))); [lia|].
  rewrite IH; [by rewrite u8_id, <- app_assoc|done|]. rewrite length_app. cbn [length]. lia.
Qed.

(** The packets of a motion that fits [n] of them: at most [n], and together
    they say the motion. *)
Lemma packets_say n fuel m :
  mouse_type_ok (mouse_type m) -> inw 8 (mouse_buttons m) -> fits (Z.of_nat (S n)) m ->
  (Z.to_nat (distance m) < fuel)%nat ->
  let bs := concat (packet_of <$> packets fuel m) in
  Forall (inw 8) bs /\ alen bs <= 4 * Z.of_nat (S n) /\
  exists rs, decode (mouse_type m) bs = Some rs /\
    total r_dx rs = mouse_dx m /\ total r_dy rs = mouse_dy m /\
    total r_dz rs = (if mouse_type m =? 0 then 0 else mouse_dz m) /\
    rs <> [] /\ Forall (fun r => r_buttons r = r_buttons (said m)) rs.
Proof.
  revert m n. induction fuel as [|fuel IH]; intros m n Ht Hb Hf Hfu; [lia|]. cbv zeta. cbn [packets].
  destruct (leftover m) as [[dx dy] dz] eqn:El.
  set (m' := m <| mouse_dx := dx |> <| mouse_dy := dy |> <| mouse_dz := dz |>).
  assert (Hl : (mouse_dx m', mouse_dy m', mouse_dz m') = leftover m) by (by rewrite El).
  assert (Hsz : alen (packet_of m) <= 4).
  { unfold alen, packet_of, packet. destruct Ht as [-> |[-> | ->]]; cbn; lia. }
  assert (Hsum : mouse_dx m = r_dx (said m) + mouse_dx m' /\ mouse_dy m = r_dy (said m) + mouse_dy m' /\
    (if mouse_type m =? 0 then 0 else mouse_dz m) =
      r_dz (said m) + (if mouse_type m =? 0 then 0 else mouse_dz m')).
  { unfold leftover in El. injection El as <- <- <-. unfold m', said. cbn. destruct (mouse_type m =? 0); lia. }
  destruct Hsum as (Sx & Sy & Sz). destruct (leftover_distance m m' Hl) as [Hr0 Hr1].
  replace (Z.of_nat (S n)) with (Z.of_nat n + 1) in Hf by lia.
  pose proof (leftover_fits (Z.of_nat n) m m' ltac:(lia) Ht Hf Hl) as Hf'.
  cbn [fmap list_fmap concat].
  destruct (packet_decodes m (concat (packet_of <$> if at_rest m' then [] else packets fuel m')) Ht Hb) as [Hw Hd].
  rewrite Hd. destruct (at_rest m') eqn:Ea.
  { cbn [fmap list_fmap concat]. rewrite app_nil_r. split; [done|]. split; [lia|].
    apply at_rest_distance in Ea. unfold distance in Ea.
    exists [said m]. split; [by destruct Ht as [-> |[-> | ->]]|]. unfold total. cbn [fold_right].
    split; [lia|]. split; [lia|]. split; [destruct (mouse_type m =? 0); lia|]. split; [done|]. by constructor. }
  destruct n as [|n]; [by rewrite (fits_rest m' Hf') in Ea|].
  assert (Hdist : distance m' < distance m).
  { apply Hr1. destruct (at_rest m); [|done]. specialize (Hr0 eq_refl). apply at_rest_distance in Hr0. congruence. }
  destruct (IH m' n Ht Hb Hf') as (Hw' & Hn' & rs & Hd' & Tx & Ty & Tz & Hne & Hbt).
  { unfold distance in *. lia. }
  set (bs := concat (packet_of <$> packets fuel m')) in *.
  split; [by apply Forall_app|]. split; [unfold alen in *; rewrite length_app; lia|].
  exists (said m :: rs). change (mouse_type m) with (mouse_type m') at 1. rewrite Hd'. split; [done|].
  unfold total in *. cbn [fold_right]. rewrite Tx, Ty, Tz. change (mouse_type m') with (mouse_type m).
  split; [lia|]. split; [lia|]. split; [lia|]. split; [done|]. constructor; [done|exact Hbt].
Qed.

(** C32. A mouse event on an enabled mouse in stream mode whose pending motion
    fits the free part of the queue reaches the guest whole: the deltas the
    packets carry, decoded as the driver of that mouse type does, sum to the
    motion, the wheel included for wheel mice; every packet shows the new
    buttons, the bytes go after those already waiting, and no motion is left. *)
Theorem mouse_motion_arrives s dx dy dz b n :
  kbd_inv s -> mouse_type_ok (mouse_type (mouse s)) -> at_rest (mouse s) = true -> inw 8 b ->
  Z.land (mouse_status (mouse s)) 0x20 <> 0 -> Z.land (mouse_status (mouse s)) 0x40 = 0 ->
  1 <= n -> alen (waiting (queue_of s Aux)) + 4 * n <= PS2_QUEUE_SIZE ->
  alen (waiting (queue_of s Aux)) < PS2_QUEUE_SIZE - 16 ->
  Z.abs dx <= 127 * n -> Z.abs dy <= 127 * n -> Z.abs dz <= 7 * n ->
  (dx, dy, dz) <> (0, 0, 0) \/ mouse_buttons (mouse s) <> b ->
  exists s' bytes rs, ps2_mouse_event s dx dy dz b = Done s' /\ at_rest (mouse s') = true /\
    waiting (queue_of s' Aux) = waiting (queue_of s Aux) ++ bytes /\
    decode (mouse_type (mouse s)) bytes = Some rs /\ rs <> [] /\
    total r_dx rs = dx /\ total r_dy rs = - dy /\
    total r_dz rs = (if mouse_type (mouse s) =? 0 then 0 else dz) /\
    Forall (fun r => r_buttons r = Z.land b (if mouse_type (mouse s) =? 4 then 0x1f else 7)) rs.
Proof.
  intros Hi Ht Hr Hb He Hrm Hn Hroom H16 Hx Hy Hz Hnz. unfold PS2_QUEUE_SIZE in *.
  assert (Hq : queue_wf (queue_of s Aux)) by apply Hi.
  assert (Hn64 : n <= 64) by (unfold alen in Hroom; lia).
  apply at_rest_distance in Hr. unfold distance in Hr. unfold ps2_mouse_event.
  destruct (Z.eqb_spec (Z.land (mouse_status (mouse s)) 0x20) 0); [done|].
  replace (s32 (mouse_dx (mouse s) + dx)) with dx by (rewrite s32_signed; lia).
  replace (s32 (mouse_dy (mouse s) - dy)) with (- dy) by (rewrite s32_signed; lia).
  replace (s32 (mouse_dz (mouse s) + dz)) with dz by (rewrite s32_signed; lia).
  cbv zeta. set (s1 := set_deltas s dx (- dy) dz).
  change (mouse_buttons (mouse s1)) with (mouse_buttons (mouse s)).
  assert (at_rest (mouse s1) && (mouse_buttons (mouse s) =? b) = false) as ->.
  { apply andb_false_iff. rewrite Z.eqb_neq. destruct Hnz as [Hnz|]; [left|by right].
    unfold at_rest. cbn. apply not_true_is_false. rewrite !andb_true_iff, !Z.eqb_eq. intros [[??]?].
    apply Hnz. f_equal; [f_equal|]; lia. }
  set (s2 := s1 <| mouse := _ |>). assert (Hi2 : kbd_inv s2) by inv_fields.
  change (mouse_status (mouse s2)) with (mouse_status (mouse s)). rewrite Hrm.
  assert ((count (queue (mcommon (mouse s2))) <? PS2_QUEUE_SIZE - 16) = true) as ->.
  { apply Z.ltb_lt. change (queue (mcommon (mouse s2))) with (queue_of s Aux).
    unfold PS2_QUEUE_SIZE. rewrite <- (waiting_length _ Hq). lia. }
  cbn [Z.eqb andb].
  assert (Hfu : (Z.to_nat (distance (mouse s2)) < packet_fuel (mouse s2))%nat)
    by (unfold packet_fuel, distance; lia).
  destruct (packet_loop_spec (packet_fuel (mouse s2)) s2 Hi2 Hfu) as (s' & -> & _ & Ha & _ & Hw).
  destruct (packets_say (Z.to_nat (n - 1)) (packet_fuel (mouse s2)) (mouse s2)) as (Hwb & Hlb & rs & Hd & Tx & Ty & Tz & Hne & Hbt);
    [done|apply inw_u8| |exact Hfu|].
  { replace (Z.of_nat (S (Z.to_nat (n - 1)))) with n by lia. repeat split; cbn; lia. }
  replace (Z.of_nat (S (Z.to_nat (n - 1)))) with n in Hlb by lia.
  change (waiting (queue_of s2 Aux)) with (waiting (queue_of s Aux)) in Hw.
  rewrite push_room in Hw by (done || (unfold PS2_QUEUE_SIZE; lia)).
  eexists s', _, rs. split; [done|]. split; [done|]. split; [exact Hw|]. split; [exact Hd|].
  split; [done|]. split; [exact Tx|]. split; [exact Ty|]. split; [exact Tz|].
  eapply Forall_impl; [exact Hbt|]. intros r ->. unfold said. cbn. by rewrite u8_id.
Qed.

(** *** Key events *)

(** The bytes of a key event in scan code set 1. *)
Definition key_bytes (down : bool) (keycode : Z) : list Z :=
  if 0xe000 <=? keycode then
    [u8 (Z.shiftr keycode 8); u8 (Z.lor (Z.land keycode 0xff) (released down))]
  else if 96 <=? keycode then
    if 127 <? keycode then [] else
    let k := arr linux_input_to_keycode_set1 (keycode - 96) in
    if k =? 0 then [] else [0xe0; u8 (Z.lor k (released down))]
  else [u8 (Z.lor keycode (released down))].

(** The bytes waiting, and the byte held back behind them. *)
Definition key_stream s : list Z :=
  waiting (queue_of s Keyboard) ++ (if delay (kbd s) then [u8 (delay_keycode (kbd s))] else []).

Inductive key_op := Key (now : Z) (down : bool) (keycode : Z) | Tick (now : Z).
Definition run_key_op s (o : key_op) : outcome (KBDState P) :=
  match o with Key now down k => ps2_put_keycode s now down k | Tick now => kbd_step s now end.
Fixpoint run_key_ops s (os : list key_op) : outcome (KBDState P) :=
  match os with [] => Done s | o :: os => s ← run_key_op s o; run_key_ops s os end.
Definition op_bytes (o : key_op) : list Z :=
  match o with Key _ down k => key_bytes down k | Tick _ => [] end.

Definition key_room s (n : Z) : Prop := alen (key_stream s) + n <= PS2_QUEUE_SIZE.

Lemma queue_key s b :
  kbd_inv s -> delay (kbd s) = false -> key_room s 1 ->
  exists s', ps2_queue s Keyboard b = Done s' /\ kbd_inv s' /\ delay (kbd s') = false /\
    key_stream s' = key_stream s ++ [u8 b].
Proof.
  intros Hi Hd Hr. destruct (ps2_queue_spec s Keyboard b Hi) as (s' & E & Hi' & [_ _ _ Hk _] & Hw & _).
  exists s'. split; [done|]. split; [done|].
  assert (Hd' : delay (kbd s') = false) by (by rewrite Hk). split; [done|].
  unfold key_room, key_stream in *. rewrite Hd in *. rewrite Hd', Hw. rewrite app_nil_r in *.
  unfold push. destruct (Z.leb_spec PS2_QUEUE_SIZE (alen (waiting (queue_of s Keyboard)))); [lia|].
  by rewrite !app_nil_r.
Qed.

(** Flushing the held byte does not change the stream. *)
Lemma flush_key s :
  kbd_inv s -> key_room s 0 ->
  exists s', flush_delay s = Done s' /\ kbd_inv s' /\ delay (kbd s') = false /\
    key_stream s' = key_stream s.
Proof.
  intros Hi Hr. unfold flush_delay. destruct (delay (kbd s)) eqn:Hd; [|by exists s].
  set (s1 := s <| kbd := _ |>). assert (Hi1 : kbd_inv s1) by inv_fields.
  assert (Hs : key_stream s = key_stream s1 ++ [u8 (delay_keycode (kbd s))]).
  { unfold key_stream. rewrite Hd. change (delay (kbd s1)) with false. cbv iota. by rewrite app_nil_r. }
  destruct (queue_key s1 (delay_keycode (kbd s)) Hi1 eq_refl) as (s' & E & Hi' & Hd' & Hst).
  { unfold key_room, alen in *. rewrite Hs, length_app in Hr. cbn in Hr. lia. }
  exists s'. split; [done|]. split; [done|]. split; [done|]. by rewrite Hst, Hs.
Qed.

Lemma hold_key s t code :
  kbd_inv s -> delay (kbd s) = false ->
  kbd_inv (hold s t code) /\ key_stream (hold s t code) = key_stream s ++ [u8 code].
Proof.
  intros Hi Hd. split; [unfold hold; inv_fields|]. unfold key_stream. rewrite Hd, app_nil_r. done.
Qed.

(** A first byte queued and a second held. *)
Lemma key_pair s b t code :
  kbd_inv s -> delay (kbd s) = false -> key_room s 2 ->
  exists s', (s ← ps2_queue s Keyboard b; Done (hold s t code)) = Done s' /\ kbd_inv s' /\
    key_stream s' = key_stream s ++ [u8 b; u8 code].
Proof.
  intros Hi Hd Hr. destruct (queue_key s b Hi Hd) as (s' & -> & Hi' & Hd' & Hs); [unfold key_room in *; lia|].
  destruct (hold_key s' t code Hi' Hd') as [Hi2 Hs2]. cbn [mbind outcome_bind].
  exists (hold s' t code). split; [done|]. split; [done|]. by rewrite Hs2, Hs, <- app_assoc.
Qed.

Lemma key_op_stream s o :
  kbd_inv s -> key_room s (alen (op_bytes o)) ->
  exists s', run_key_op s o = Done s' /\ kbd_inv s' /\ key_stream s' = key_stream s ++ op_bytes o.
Proof.
  intros Hi Hr. assert (Hr0 : key_room s 0) by (unfold key_room, alen in *; lia).
  destruct (flush_key s Hi Hr0) as (s1 & Ef & Hi1 & Hd1 & Hs1).
  destruct o as [now down k|now]; cbn [run_key_op op_bytes] in *.
  2:{ unfold kbd_step. rewrite app_nil_r. case_match; [by exists s1|by exists s]. }
  unfold ps2_put_keycode. rewrite Ef. cbn [mbind outcome_bind]. unfold key_bytes in *.
  assert (Hr1 : forall n, key_room s n -> key_room s1 n) by (unfold key_room; by rewrite Hs1).
  rewrite <- Hs1. destruct (0xe000 <=? k); [apply key_pair; [done|done|by apply Hr1]|].
  destruct (Z.leb_spec 96 k).
  2:{ destruct (queue_key s1 (Z.lor k (released down)) Hi1 Hd1) as (s2 & E & Hi2 & _ & Hs2); [by apply Hr1|].
      by exists s2. }
  destruct (Z.ltb_spec 127 k); [exists s1; by rewrite app_nil_r|].
  rewrite rd_in by (change (alen linux_input_to_keycode_set1) with 32; lia). cbn [mbind outcome_bind].
  cbv zeta in *. destruct (arr linux_input_to_keycode_set1 (k - 96) =? 0); [exists s1; by rewrite app_nil_r|].
  apply key_pair; [done|done|by apply Hr1].
Qed.

(** Key events and timer steps in any interleaving put the scan codes of
    the keys in the keyboard's stream in the order of the events: no byte is
    lost, doubled or reordered by the byte held back between steps, as long as
    the queue has room for them. *)
Theorem keys_in_order s os :
  kbd_inv s -> key_room s (alen (concat (op_bytes <$> os))) ->
  exists s', run_key_ops s os = Done s' /\ kbd_inv s' /\
    key_stream s' = key_stream s ++ concat (op_bytes <$> os).
Proof.
  revert s. induction os as [|o os IH]; intros s Hi Hr; cbn [run_key_ops fmap list_fmap concat].
  { exists s. by rewrite app_nil_r. }
  unfold key_room, alen in Hr. cbn [fmap list_fmap concat] in Hr. rewrite length_app in Hr.
  destruct (key_op_stream s o Hi) as (s1 & -> & Hi1 & Hs1); [unfold key_room, alen; lia|].
  cbn [mbind outcome_bind]. destruct (IH s1 Hi1) as (s2 & E & Hi2 & Hs2).
  { unfold key_room, alen. rewrite Hs1, length_app. lia. }
  exists s2. split; [done|]. split; [done|]. by rewrite Hs2, Hs1, <- app_assoc.
Qed.

(** *** The mouse identity *)

(** A byte sent to the mouse through the controller. *)
Definition write_aux s (v : Z) : outcome (KBDState P) :=
  s ← kbd_write_command s 0xd4; kbd_write_data s v.
Fixpoint write_aux_all s (vs : list Z) : outcome (KBDState P) :=
  match vs with [] => Done s | v :: vs => s ← write_aux s v; write_aux_all s vs end.

Definition pushes (l bs : list Z) : list Z := fold_left push bs l.

(** [m'] is [m] up to its queue. *)
Definition as_mouse s (c : Z) (m : PS2MouseState) : Prop :=
  exists q, mouse s = m <| mcommon := mkPS2 q c |>.

Lemma write_aux_eq s v : write_aux s v =
  (s ← ps2_write_mouse (s <| cmd := 0xd4 |>) v; Done (s <| cmd := 0 |>)).
Proof. reflexivity. Qed.

Lemma answer s f bs :
  kbd_inv s -> (forall m, mcommon (f m) = mcommon m) ->
  exists s', ps2_queue_all (map_mouse s f) Aux bs = Done s' /\ kbd_inv s' /\
    as_mouse s' (write_cmd (mcommon (mouse s))) (f (mouse s)) /\
    waiting (queue_of s' Aux) = pushes (waiting (queue_of s Aux)) bs.
Proof.
  intros Hi Hf. assert (Hi1 : kbd_inv (map_mouse s f)).
  { eapply kbd_inv_ext; [eassumption|done..|]. intros [|]; [done|].
    unfold queue_of, common, map_mouse. cbn. by rewrite Hf. }
  destruct (ps2_queue_all_spec bs _ Aux Hi1) as (s' & E & Hi' & [_ _ _ _ Hm] & Hw & _).
  exists s'. split; [done|]. split; [done|]. split.
  - exists (queue_of s' Aux). rewrite Hm. unfold map_mouse. cbn. by rewrite Hf.
  - rewrite Hw. unfold queue_of, common, map_mouse. cbn. by rewrite Hf.
Qed.

(** Setting the sample rate: command 0xf3 and the rate. *)
Lemma set_rate s r :
  kbd_inv s -> write_cmd (mcommon (mouse s)) = -1 -> mouse_wrap (mouse s) = 0 ->
  exists s', write_aux_all s [0xf3; r] = Done s' /\ kbd_inv s' /\
    as_mouse s' (-1) (detect ((mouse s) <| mouse_sample_rate := u8 r |>) r) /\
    waiting (queue_of s' Aux) = pushes (waiting (queue_of s Aux)) [ACK; ACK].
Proof.
  intros Hi Hc Hwr. cbn [write_aux_all]. rewrite write_aux_eq.
  set (s0 := s <| cmd := 0xd4 |>). assert (Hi0 : kbd_inv s0) by inv_fields.
  assert (E1 : ps2_write_mouse s0 0xf3 = ps2_queue_all (set_write_cmd s0 Aux 0xf3) Aux [ACK]).
  { unfold ps2_write_mouse. change (mouse s0) with (mouse s). by rewrite Hc, Hwr. }
  rewrite E1. destruct (answer _ (fun m => m) [ACK] (good_write_cmd s0 Aux 0xf3 Hi0)) as (s1 & Ea & Hi1 & (q1 & Hm1) & Hw1);
    [done|].
  change (map_mouse (set_write_cmd s0 Aux 0xf3) (fun m => m)) with (set_write_cmd s0 Aux 0xf3) in Ea.
  rewrite Ea. cbn [mbind outcome_bind]. rewrite write_aux_eq.
  set (s2 := s1 <| cmd := 0 |> <| cmd := 0xd4 |>). assert (Hi2 : kbd_inv s2) by inv_fields.
  unfold ps2_write_mouse. change (mouse s2) with (mouse s1).
  assert (Hc1 : write_cmd (mcommon (mouse s1)) = 0xf3) by (by rewrite Hm1). rewrite Hc1.
  destruct (answer s2 (fun m => detect (m <| mouse_sample_rate := u8 r |>) r) [ACK] Hi2) as (s3 & -> & Hi3 & (q3 & Hm3) & Hw3).
  { intros m. unfold detect. repeat case_match; reflexivity. }
  cbn [mbind outcome_bind]. eexists. split; [reflexivity|].
  split; [pose proof (good_write_cmd s3 Aux (-1) Hi3); inv_fields|]. split.
  - exists q3. unfold set_write_cmd, set_common, common. cbn. rewrite Hm3.
    change (mouse s2) with (mouse s1). rewrite Hm1.
    unfold detect. cbn. destruct (mouse_detect_state (mouse s)) as [|[[]|[]|]|]; cbn; repeat case_match; reflexivity.
  - change (waiting (queue_of s3 Aux) = pushes (waiting (queue_of s Aux)) [ACK; ACK]). rewrite Hw3.
    change (queue_of s2 Aux) with (queue_of s1 Aux). by rewrite Hw1.
Qed.

Lemma write_aux_all_app s vs ws :
  write_aux_all s (vs ++ ws) = (s ← write_aux_all s vs; write_aux_all s ws).
Proof.
  revert s. induction vs as [|v vs IH]; intros s; [done|]. cbn [app write_aux_all].
  rewrite bind_assoc_outcome. destruct (write_aux s v); [apply IH|done].
Qed.

(** The wheel knock: on an idle mouse in its initial detection state,
    setting the sample rates 200, x, 80 and asking for the identity answers 3
    (a wheel mouse) when x is 100 and 4 (five buttons) when x is 200, after one
    acknowledge per byte sent, and later packets have that type. *)
Theorem mouse_knock s x :
  kbd_inv s -> write_cmd (mcommon (mouse s)) = -1 -> mouse_wrap (mouse s) = 0 ->
  mouse_detect_state (mouse s) = 0 -> waiting (queue_of s Aux) = [] -> x = 100 \/ x = 200 ->
  exists s' t, t = (if x =? 100 then 3 else 4) /\
    write_aux_all s [0xf3; 200; 0xf3; x; 0xf3; 80; 0xf2] = Done s' /\
    mouse_type (mouse s') = t /\ mouse_detect_state (mouse s') = 0 /\
    waiting (queue_of s' Aux) = replicate 7 ACK ++ [t].
Proof.
  intros Hi Hc Hwr Hd Hw0 Hx.
  change [0xf3; 200; 0xf3; x; 0xf3; 80; 0xf2] with ([0xf3; 200] ++ [0xf3; x] ++ [0xf3; 80] ++ [0xf2]).
  rewrite write_aux_all_app.
  destruct (set_rate s 200 Hi Hc Hwr) as (s1 & -> & Hi1 & (q1 & Hm1) & Hw1).
  cbn [mbind outcome_bind]. unfold detect in Hm1. cbn in Hm1. rewrite Hd in Hm1. cbn in Hm1.
  rewrite write_aux_all_app.
  destruct (set_rate s1 x Hi1) as (s2 & -> & Hi2 & (q2 & Hm2) & Hw2); [by rewrite Hm1|by rewrite Hm1|].
  cbn [mbind outcome_bind]. rewrite Hm1 in Hm2. unfold detect in Hm2. cbn in Hm2.
  rewrite write_aux_all_app.
  destruct (set_rate s2 80 Hi2) as (s3 & -> & Hi3 & (q3 & Hm3) & Hw3);
    [by rewrite Hm2; destruct Hx as [-> | ->]|by rewrite Hm2; destruct Hx as [-> | ->]|].
  cbn [mbind outcome_bind]. cbn [write_aux_all]. rewrite write_aux_eq.
  set (s4 := s3 <| cmd := 0xd4 |>). assert (Hi4 : kbd_inv s4) by inv_fields.
  assert (Ht : mouse_type (mouse s3) = (if x =? 100 then 3 else 4) /\ mouse_detect_state (mouse s3) = 0 /\
    write_cmd (mcommon (mouse s3)) = -1 /\ mouse_wrap (mouse s3) = 0).
  { rewrite Hm3, Hm2. by destruct Hx as [-> | ->]. }
  destruct Ht as (Ht & Hd3 & Hc3 & Hwr3).
  assert (E4 : ps2_write_mouse s4 0xf2 = ps2_queue_all (map_mouse s4 (fun m => m)) Aux [ACK; mouse_type (mouse s3)]).
  { unfold ps2_write_mouse. change (mouse s4) with (mouse s3). by rewrite Hc3, Hwr3. }
  rewrite E4. destruct (answer s4 (fun m => m) [ACK; mouse_type (mouse s3)] Hi4) as (s5 & -> & Hi5 & (q5 & Hm5) & Hw5);
    [done|].
  cbn [mbind outcome_bind]. eexists _, _. split; [reflexivity|]. split; [reflexivity|].
  change (mouse (s5 <| cmd := 0 |>)) with (mouse s5). rewrite Hm5. split; [by rewrite <- Ht|]. split; [done|].
  change (queue_of (s5 <| cmd := 0 |>) Aux) with (queue_of s5 Aux). rewrite Hw5.
  change (queue_of s4 Aux) with (queue_of s3 Aux). rewrite Hw3, Hw2, Hw1, Hw0, Ht.
  by destruct Hx as [-> | ->].
Qed.

End Invariant.

(** ** Witnesses: the controller on the machine's lines 1 and 12, behind the 8259 *)

#[local] Existing Instances Pic.pic_sink Pic.pic_sink_laws.

Definition power_on : KBDState (outcome Pic.PicState2) := i8042_init 1 12 (Done Pic.i8259_init).

Lemma quiet irq : 0 <= irq < 16 -> ~ sink_high (Done Pic.i8259_init) irq.
Proof.
  intros Hi (s & [= <-] & Hb). revert Hb. unfold Pic.pics. case_match; cbn; by rewrite Z.testbit_0_l.
Qed.

Lemma power_on_inv : kbd_inv power_on.
Proof.
  apply init_inv; [by repeat split..|done| | |]; [|apply quiet; lia..].
  exists Pic.i8259_init. split; [done|]. split; apply Pic.pic_reset_wf.
Qed.

(** A mouse enabled, wheel detected, beside an idle keyboard. *)
Definition streaming : KBDState (outcome Pic.PicState2) :=
  power_on <| mouse := ps2_mouse_init <| mouse_status := 0x20 |> <| mouse_type := 3 |> |>.

Lemma streaming_inv : kbd_inv streaming.
Proof. eapply kbd_inv_ext; [exact power_on_inv|done..|]. by intros [|]. Qed.

Lemma kbd_reachable_shown_witness :
  exists s, run_kbd_ops power_on [KeyEvent 0 true 0x1e; WriteCommand 0xad] = Done s /\
    let k := has_data s Keyboard in let a := has_data s Aux in
    Z.testbit (status s) 0 = k || a /\ Z.testbit (status s) 5 = negb k && a /\
    (sink_high (pic s) (irq_kbd s) <->
       k = true /\ Z.testbit (mode s) 0 = true /\ Z.testbit (mode s) 4 = false) /\
    (sink_high (pic s) (irq_mouse s) <-> k = false /\ a = true /\ Z.testbit (mode s) 1 = true).
Proof.
  apply (kbd_reachable_shown 1 12 (Done Pic.i8259_init)); [by repeat split..|done| | |]; [|apply quiet; lia..].
  exists Pic.i8259_init. split; [done|]. split; apply Pic.pic_reset_wf.
Defined.

Lemma data_port_order_witness :
  let k := waiting (queue_of streaming Keyboard) in let a := waiting (queue_of streaming Aux) in
  exists s', read_port (length (k ++ a)) streaming = Done (k ++ a, s') /\
    waiting (queue_of s' Keyboard) = [] /\ waiting (queue_of s' Aux) = [] /\
    Z.testbit (status s') 0 = false.
Proof. apply (data_port_order streaming). apply streaming_inv. Defined.

Lemma mouse_motion_arrives_witness :
  exists s' bytes rs, ps2_mouse_event streaming 200 (-300) 1 5 = Done s' /\ at_rest (mouse s') = true /\
    waiting (queue_of s' Aux) = waiting (queue_of streaming Aux) ++ bytes /\
    decode (mouse_type (mouse streaming)) bytes = Some rs /\ rs <> [] /\
    total r_dx rs = 200 /\ total r_dy rs = 300 /\ total r_dz rs = 1 /\
    Forall (fun r => r_buttons r = 5) rs.
Proof.
  apply (mouse_motion_arrives streaming 200 (-300) 1 5 3);
    [apply streaming_inv|by right; left|done|done|done|done|lia|vm_compute; congruence|done|lia..|by left].
Defined.

Lemma keys_in_order_witness :
  exists s', run_key_ops power_on [Key 0 true 0x1e; Key 5 true 103; Tick 6; Key 7 false 0xe048] = Done s' /\
    kbd_inv s' /\ key_stream s' = [0x1e; 0xe0; 0x48; 0xe0; 0xc8].
Proof.
  apply (keys_in_order power_on [Key 0 true 0x1e; Key 5 true 103; Tick 6; Key 7 false 0xe048]).
  - apply power_on_inv.
  - vm_compute; congruence.
Defined.

Lemma mouse_knock_witness :
  exists s' t, t = 3 /\
    write_aux_all power_on [0xf3; 200; 0xf3; 100; 0xf3; 80; 0xf2] = Done s' /\
    mouse_type (mouse s') = t /\ mouse_detect_state (mouse s') = 0 /\
    waiting (queue_of s' Aux) = replicate 7 ACK ++ [t].
Proof.
  apply (mouse_knock power_on 100); [apply power_on_inv|reflexivity..|auto].
Defined.

(** A burst of motion larger than the queue is cut in the middle of a packet:
    the 86 packets of a move of 10922 steps are 258 bytes, of which 256 fit. *)
Lemma mouse_flood_truncates :
  exists s', ps2_mouse_event (streaming <| mouse := (mouse streaming) <| mouse_type := 0 |> |>)
               10922 0 0 0 = Done s' /\
    length (waiting (queue_of s' Aux)) = 256%nat /\ decode 0 (waiting (queue_of s' Aux)) = None.
Proof. vm_compute. eexists. by split. Qed.

End Kbd.
