(* ===== verification/Doubles.v ===== *)
(** * Doubles: the host's floating point

    fpu.c computes with the [double] and [float] of C.  A value of these types is its
    bit pattern, a [Z] of 64 or 32 bits; IEEE arithmetic, rounding to nearest, is that
    of [SpecFloat] on the number the pattern stands for.  What IEEE and C leave to the
    host is the class [HostMath]: which NaN an operation gives, and the functions of
    <math.h> whose last bits no standard fixes.  A conversion to an integer type that
    cannot hold the number is undefined in C, here the fault [Overflow]. *)

From Stdlib Require Import Floats.SpecFloat.
From S2P Require Import Prelude.

Module Double.

(** ** Bit patterns

    A format has [mw] bits of mantissa, [ew] of exponent and a sign. *)

Section Format.
Context (mw ew : Z).

Definition fbias : Z := 2 ^ (ew - 1) - 1.
Definition fsign (v : Z) : bool := Z.testbit v (mw + ew).
Definition fexpo (v : Z) : Z := Z.land (Z.shiftr v mw) (Z.ones ew).
Definition fmant (v : Z) : Z := Z.land v (Z.ones mw).
Definition sf_finite (s : bool) (m e : Z) : spec_float :=
  match m with Zpos p => S754_finite s p e | _ => S754_zero s end.

Definition value_of (v : Z) : spec_float :=
  if fexpo v =? Z.ones ew then (if fmant v =? 0 then S754_infinity (fsign v) else S754_nan)
  else if fexpo v =? 0 then sf_finite (fsign v) (fmant v) (1 - fbias - mw)
  else sf_finite (fsign v) (fmant v + 2 ^ mw) (fexpo v - fbias - mw).

(** The pattern with sign [s], exponent field [e] and mantissa field [m]. *)
Definition pack (s : bool) (e m : Z) : Z :=
  (Z.lor (Z.lor m (Z.shiftl e mw)) (Z.shiftl (b2z s) (mw + ew))) mod 2 ^ (mw + ew + 1).
Definition bits_of (nan : Z) (x : spec_float) : Z :=
  match x with
  | S754_zero s => pack s 0 0
  | S754_infinity s => pack s (Z.ones ew) 0
  | S754_nan => nan mod 2 ^ (mw + ew + 1)
  | S754_finite s m e =>
      if Zpos m <? 2 ^ mw then pack s 0 (Zpos m) else pack s (e + fbias + mw) (Zpos m - 2 ^ mw)
  end.
Definition is_nan (v : Z) : bool := (fexpo v =? Z.ones ew) && negb (fmant v =? 0).
End Format.

Definition value64 : Z -> spec_float := value_of 52 11.
Definition bits64 : Z -> spec_float -> Z := bits_of 52 11.
Definition value32 : Z -> spec_float := value_of 23 8.
Definition bits32 : Z -> spec_float -> Z := bits_of 23 8.

(** ** The operators and <math.h> *)

(** [nan_of a b]: the NaN an operation on [a] and [b] gives, when it gives one;
    [nan_wide] and [nan_narrow]: the conversions of a NaN; [frexp_special]: the exponent
    [frexp] reports for an infinity or a NaN. *)
Class HostMath := {
  nan_of : Z -> Z -> Z; nan_wide : Z -> Z; nan_narrow : Z -> Z; frexp_special : Z -> Z;
  libm_pow : Z -> Z -> Z; libm_log2 : Z -> Z; libm_tan : Z -> Z; libm_atan2 : Z -> Z -> Z;
  libm_sin : Z -> Z; libm_cos : Z -> Z;
}.

Definition dsign (a : Z) : bool := Z.testbit a 63.
Definition dnan (a : Z) : bool := is_nan 52 11 a.
Definition dfinite (a : Z) : bool := negb (fexpo 52 11 a =? Z.ones 11).
Definition dabs (a : Z) : Z := Z.land a (Z.ones 63).
Definition dcopysign (a b : Z) : Z := Z.lor (dabs a) (Z.shiftl (b2z (dsign b)) 63).
Definition dcompare (a b : Z) : option comparison := SFcompare (value64 a) (value64 b).
Definition dltb (a b : Z) : bool := SFltb (value64 a) (value64 b).
Definition dgeb (a b : Z) : bool := SFleb (value64 b) (value64 a).

(** An integer as a [double]. *)
Definition of_int (n : Z) : Z := bits64 0 (binary_normalize 53 1024 n 0 false).

(** The number without its fraction; a NaN or an infinity has none. *)
Definition scaled (m e : Z) : Z := if 0 <=? e then m * 2 ^ e else m ÷ 2 ^ (- e).
Definition truncated (a : Z) : option Z :=
  match value64 a with
  | S754_zero _ => Some 0
  | S754_finite s m e => Some (scaled (if s then Zneg m else Zpos m) e)
  | _ => None
  end.
(** [(intw_t) a] *)
Definition to_int (w a : Z) : outcome Z :=
  match truncated a with
  | Some n => if (- 2 ^ (w - 1) <=? n) && (n <? 2 ^ (w - 1)) then Done n else Stuck Overflow
  | None => Stuck Overflow
  end.

(** The numerator [n] of a fraction of denominator [d], rounded to an integer. *)
Definition half_even (n d : Z) : Z :=
  match 2 * (n mod d) ?= d with
  | Lt => n / d
  | Gt => n / d + 1
  | Eq => if Z.even (n / d) then n / d else n / d + 1
  end.

Section Host.
Context `{HostMath}.

Definition dadd (a b : Z) : Z := bits64 (nan_of a b) (SFadd 53 1024 (value64 a) (value64 b)).
Definition dsub (a b : Z) : Z := bits64 (nan_of a b) (SFsub 53 1024 (value64 a) (value64 b)).
Definition dmul (a b : Z) : Z := bits64 (nan_of a b) (SFmul 53 1024 (value64 a) (value64 b)).
Definition ddiv (a b : Z) : Z := bits64 (nan_of a b) (SFdiv 53 1024 (value64 a) (value64 b)).
Definition dsqrt (a : Z) : Z := bits64 (nan_of a a) (SFsqrt 53 1024 (value64 a)).
Definition dpow (a b : Z) : Z := u64 (libm_pow a b).
Definition dlog2 (a : Z) : Z := u64 (libm_log2 a).
Definition dtan (a : Z) : Z := u64 (libm_tan a).
Definition datan2 (a b : Z) : Z := u64 (libm_atan2 a b).
Definition dsin (a : Z) : Z := u64 (libm_sin a).
Definition dcos (a : Z) : Z := u64 (libm_cos a).

(** [float] to [double] and back. *)
Definition of_float (v : Z) : Z :=
  bits64 (nan_wide v)
    match value32 v with S754_finite s m e => binary_round 53 1024 s m e | x => x end.
Definition to_float (a : Z) : Z :=
  bits32 (nan_narrow a)
    match value64 a with S754_finite s m e => binary_round 24 128 s m e | x => x end.

(** [nearbyint], [floor], [ceil] and [trunc]: the integer [f n d] near [n / d], with the
    sign of the argument when it is zero. *)
Definition round_with (f : Z -> Z -> Z) (a : Z) : Z :=
  match value64 a with
  | S754_finite s m e =>
      if 0 <=? e then a
      else bits64 0 (binary_normalize 53 1024 (f (if s then Zneg m else Zpos m) (2 ^ (- e))) 0 s)
  | S754_nan => u64 (nan_of a a)
  | _ => a
  end.
Definition dnearbyint : Z -> Z := round_with half_even.
Definition dfloor : Z -> Z := round_with Z.div.
Definition dceil : Z -> Z := round_with (fun n d => - ((- n) / d)).
Definition dtrunc : Z -> Z := round_with Z.quot.

(** [frexp (a, &exp)] *)
Definition dfrexp (a : Z) : Z * Z :=
  match value64 a with
  | S754_zero _ => (a, 0)
  | S754_infinity _ => (a, s32 (frexp_special a))
  | S754_nan => (u64 (nan_of a a), s32 (frexp_special a))
  | S754_finite s m e => let r := SFfrexp 53 1024 (S754_finite s m e) in (bits64 0 r.1, r.2)
  end.
End Host.

(** ** Widths, and patterns and their numbers *)

Lemma inw_bits_of mw ew nan x : 0 <= mw -> 0 <= ew -> inw (mw + ew + 1) (bits_of mw ew nan x).
Proof. intros Hm He. destruct x; cbn [bits_of]; try apply inw_mod; try lia. case_match; apply inw_mod; lia. Qed.
Lemma inw_bits64 nan x : inw 64 (bits64 nan x).
Proof. apply (inw_bits_of 52 11); lia. Qed.
Lemma inw_bits32 nan x : inw 32 (bits32 nan x).
Proof. apply (inw_bits_of 23 8); lia. Qed.

Section Patterns.
Context (mw ew : Z) (Hmw : 0 < mw) (Hew : 0 < ew).

Lemma fmant_range v : 0 <= fmant mw v < 2 ^ mw.
Proof. unfold fmant. rewrite Z.land_ones by lia. by apply Z.mod_pos_bound, pow2_pos; lia. Qed.
Lemma fexpo_range v : 0 <= fexpo mw ew v <= Z.ones ew.
Proof.
  unfold fexpo. rewrite Z.land_ones by lia. pose proof (Z.mod_pos_bound (Z.shiftr v mw) (2 ^ ew) ltac:(apply pow2_pos; lia)).
  rewrite Z.ones_equiv. lia.
Qed.
(** A pattern is its three fields. *)
Lemma pack_fields v : inw (mw + ew + 1) v -> pack mw ew (fsign mw ew v) (fexpo mw ew v) (fmant mw v) = v.
Proof.
  intros Hv. unfold pack. apply (bits_ext (mw + ew + 1)); [lia|apply inw_mod; lia|done|].
  intros i Hi. rewrite Z.mod_pow2_bits_low, !Z.lor_spec, !Z.shiftl_spec by lia. unfold fmant, fexpo, fsign.
  destruct (Z.lt_ge_cases i mw).
  { rewrite Z.land_spec, Z.ones_spec_low by lia. rewrite !(Z.testbit_neg_r _ (_ - _)) by lia. by rewrite andb_true_r, !orb_false_r. }
  rewrite Z.land_spec, Z.ones_spec_high, andb_false_r by lia. cbn [orb].
  rewrite Z.land_spec, Z.shiftr_spec by lia. replace (i - mw + mw) with i by lia.
  destruct (Z.lt_ge_cases i (mw + ew)).
  - rewrite Z.ones_spec_low, (Z.testbit_neg_r _ (i - (mw + ew))) by lia. by rewrite andb_true_r, orb_false_r.
  - rewrite Z.ones_spec_high, andb_false_r by lia. replace i with (mw + ew) by lia. rewrite Z.sub_diag. cbn [orb]. by destruct (Z.testbit v (mw + ew)).
Qed.
Lemma bits_finite nan s m e : 0 <= m -> bits_of mw ew nan (sf_finite s m e) =
  if m =? 0 then pack mw ew s 0 0 else if m <? 2 ^ mw then pack mw ew s 0 m else pack mw ew s (e + fbias ew + mw) (m - 2 ^ mw).
Proof. intros Hm. unfold sf_finite, bits_of. by destruct m. Qed.
(** A pattern is the pattern of its number, NaNs apart. *)
Lemma bits_value nan v : inw (mw + ew + 1) v -> is_nan mw ew v = false -> bits_of mw ew nan (value_of mw ew v) = v.
Proof.
  intros Hv Hn. pose proof (fmant_range v) as Hm. pose proof (pow2_pos mw ltac:(lia)). rewrite <- (pack_fields v Hv) at 2.
  unfold value_of, is_nan in *. destruct (Z.eqb_spec (fexpo mw ew v) (Z.ones ew)) as [->|_].
  { destruct (Z.eqb_spec (fmant mw v) 0) as [->|]; [done|discriminate]. }
  destruct (Z.eqb_spec (fexpo mw ew v) 0) as [->|]; rewrite bits_finite by lia.
  - destruct (Z.eqb_spec (fmant mw v) 0) as [->|]; [done|]. by rewrite (proj2 (Z.ltb_lt _ _)) by lia.
  - rewrite (proj2 (Z.eqb_neq _ _)), (proj2 (Z.ltb_ge _ _)) by lia. f_equal; lia.
Qed.
End Patterns.

(** A host whose operations give the quiet NaN and that has no transcendental functions. *)
Definition plain_math : HostMath :=
  {| nan_of _ _ := 0x7ff8000000000000; nan_wide _ := 0x7ff8000000000000; nan_narrow _ := 0x7fc00000; frexp_special _ := 0;
     libm_pow _ _ := 0; libm_log2 _ := 0; libm_tan _ := 0; libm_atan2 _ _ := 0; libm_sin _ := 0; libm_cos _ := 0 |}.
#[local] Existing Instance plain_math.
(** *** Examples: 0.1 + 0.2, a third, rounding halves to even, and single precision. *)
Example tenths : dadd 0x3fb999999999999a 0x3fc999999999999a = 0x3fd3333333333334.
Proof. by vm_compute. Qed.
Example third : ddiv (of_int 1) (of_int 3) = 0x3fd5555555555555 /\ to_float 0x3fd5555555555555 = 0x3eaaaaab.
Proof. by vm_compute. Qed.
Example halves : dnearbyint 0x4004000000000000 = of_int 2 /\ dnearbyint 0xbfe0000000000000 = 0x8000000000000000.
Proof. by vm_compute. Qed.
Example smallest : of_float 1 = 0x36a0000000000000 /\ to_float 0x36a0000000000000 = 1.
Proof. by vm_compute. Qed.
End Double.
