(* ===== verification/Fpu.v ===== *)
(** * Fpu: the registers of the floating-point unit (winspire/fpu.c)

    The eight registers hold C doubles; an 80-bit image of a register is kept as the
    program stored it until somebody reads the register ([rawtagr]) or overwrites it
    ([rawtagw]).  This file has the unit's state, the conversions [tof80] and
    [fromf80], the stack and the arithmetic on it; the instructions that go to the CPU
    are in [I386Fpu]. *)

From S2P Require Import Prelude Doubles.

Module Fpu.
Import Double.

(** ** The 80-bit format *)

Record F80 := mkF80 { mant0 : Z; mant1 : Z; high : Z }.
#[global] Instance eta_F80 : Eta F80 := fun r => mkF80 (mant0 r) (mant1 r) (high r).
#[global] Instance F80_inhabited : Inhabited F80 := populate (mkF80 0 0 0).

Definition BIAS80 : Z := 16383.
Definition BIAS64 : Z := 1023.

(** [__builtin_ffsll]: one more than the index of the lowest bit set, 0 for 0. *)
Fixpoint ctz_pos (p : positive) : Z := match p with xO p => 1 + ctz_pos p | _ => 0 end.
Definition ffsll (v : Z) : Z := match v with Zpos p => 1 + ctz_pos p | _ => 0 end.

Definition f80_of (sign exp mant80 : Z) : F80 :=
  mkF80 (u32 mant80) (u32 (Z.shiftr mant80 32)) (u16 (Z.lor (Z.shiftl sign 15) (u16 exp))).
Definition tof80 (v : Z) : F80 :=
  let sign := Z.shiftr v 63 in
  let exp := Z.land (Z.shiftr v 52) 0x7ff in
  let mant80 := u64 (Z.shiftl (Z.land v (2 ^ 52 - 1)) 11) in
  if exp =? 0 then
    if mant80 =? 0 then f80_of sign exp mant80
    else
      let shift := 64 - ffsll mant80 in
      f80_of sign (exp + BIAS80 - BIAS64 + 1 - shift) (u64 (Z.shiftl mant80 shift))
  else if exp =? 0x7ff then f80_of sign 0x7fff (Z.lor mant80 (2 ^ 63))
  else f80_of sign (exp + BIAS80 - BIAS64) (Z.lor mant80 (2 ^ 63)).

Definition fromf80 (r : F80) : Z :=
  let sign := Z.shiftr (high r) 15 in
  let exp := Z.land (high r) 0x7fff in
  let mant80 := Z.lor (u64 (Z.shiftl (mant1 r) 32)) (mant0 r) in
  let '(exp, mant64) :=
    if exp =? 0 then (0, 0)
    else if exp =? 0x7fff then
      let mant64 := Z.shiftr mant80 11 in
      (0x7ff, if (mant64 =? 0) && nz mant80 then 1 else mant64)
    else
      let exp := exp + (BIAS64 - BIAS80) in
      if exp <=? -52 then (0, 0)
      else if exp <=? 0 then (0, Z.shiftr mant80 (12 - exp))
      else if 0x7ff <=? exp then (0x7ff, 0)
      else (exp, Z.land (Z.shiftr mant80 11) (2 ^ 52 - 1)) in
  Z.lor (Z.lor (u64 (Z.shiftl sign 63)) (u64 (Z.shiftl exp 52))) mant64.

(** ** The unit *)

Record FPU := mkFPU {
  cw : Z; sw : Z; top : Z; st : list Z; rawst : list F80; rawtagr : Z; rawtagw : Z;
}.
#[global] Instance eta_FPU : Eta FPU := fun f => mkFPU (cw f) (sw f) (top f) (st f) (rawst f) (rawtagr f) (rawtagw f).

Definition getsw (f : FPU) : Z := u16 (Z.lor (Z.land (sw f) 0xc7ff) (Z.shiftl (top f) 11)).
Definition setsw (v : Z) (f : FPU) : FPU := f <| sw := v |> <| top := Z.land (Z.shiftr v 11) 7 |>.
Definition fpu_new : FPU := mkFPU 0x40 0 0 (replicate 8 0) (replicate 8 (mkF80 0 0 0)) 0 0.

Definition slot (i : Z) (f : FPU) : Z := Z.land (u32 (top f + i)) 7.
Definition fpget (i : Z) : ST FPU Z := fun f =>
  let idx := slot i f in
  let mask := Z.shiftl 1 idx in
  if negb (nz (Z.land (rawtagr f) mask)) && negb (nz (Z.land (rawtagw f) mask))
  then let v := fromf80 (arr (rawst f) idx) in
       Done (v, f <| st := arr_set (st f) idx v |> <| rawtagr := Z.lor (rawtagr f) mask |>)
  else Done (arr (st f) idx, f).
Definition fpset (i v : Z) : ST FPU unit := fun f =>
  let idx := slot i f in
  Done (tt, f <| st := arr_set (st f) idx v |> <| rawtagw := Z.lor (rawtagw f) (Z.shiftl 1 idx) |>).
Definition turn_top (n : Z) : ST FPU unit := modify (fun f => f <| top := Z.land (u32 (top f + n)) 7 |>).
Definition fppush (v : Z) : ST FPU unit := _ ← turn_top (-1); fpset 0 v.
Definition fppop : ST FPU unit := turn_top 1.
(** [fpu->sw |= set; fpu->sw &= ~clear] *)
Definition sw_bits (set clear : Z) : ST FPU unit :=
  modify (fun f => f <| sw := Z.land (u16 (Z.lor (sw f) set)) (u16 (Z.lnot clear)) |>).

(** FRSTOR and FNSAVE go through the registers one by one: an image replaces a register,
    and a register that was written becomes an image. *)
Definition set_raw (j : Z) (g : F80 -> F80) (f : FPU) : FPU := f <| rawst := arr_set (rawst f) j (g (arr (rawst f) j)) |>.
Definition clear_tag (j t : Z) : Z := Z.land t (u8 (Z.lnot (Z.shiftl 1 j))).
Definition clear_tags (j : Z) (f : FPU) : FPU := f <| rawtagr := clear_tag j (rawtagr f) |> <| rawtagw := clear_tag j (rawtagw f) |>.
Definition write_back (j : Z) (f : FPU) : FPU :=
  if nz (Z.land (rawtagw f) (Z.shiftl 1 j))
  then (set_raw j (fun _ => tof80 (arr (st f) j)) f) <| rawtagw := clear_tag j (rawtagw f) |> else f.
(** The image of register [j] that FNSAVE stores. *)
Definition save_reg (j : Z) : ST FPU F80 := _ ← modify (write_back j); gets (fun f => arr (rawst f) j).

Definition C0 : Z := 0x100.
Definition C1 : Z := 0x200.
Definition C2 : Z := 0x400.
Definition C3 : Z := 0x4000.

Definition fcom (a b : Z) : ST FPU unit :=
  match dcompare a b with
  | None => sw_bits (Z.lor (Z.lor C0 C2) C3) 0
  | Some Eq => sw_bits C3 (Z.lor C0 C2)
  | Some Lt => sw_bits C0 (Z.lor C2 C3)
  | Some Gt => sw_bits 0 (Z.lor (Z.lor C0 C2) C3)
  end.

Section Arithmetic.
Context `{HostMath}.

Definition fparith (group d a b : Z) : ST FPU unit :=
  match group with
  | 0 => fpset d (dadd a b)
  | 1 => fpset d (dmul a b)
  | 2 => fcom a b
  | 3 => _ ← fcom a b; fppop
  | 4 => fpset d (dsub a b)
  | 5 => fpset d (dsub b a)
  | 6 => fpset d (ddiv a b)
  | 7 => fpset d (ddiv b a)
  | _ => stuck Aborted
  end.

Definition fpround (x rc : Z) : Z :=
  match rc with 0 => dnearbyint x | 1 => dfloor x | 2 => dceil x | 3 => dtrunc x | _ => x end.
Definition rounding (f : FPU) : Z := Z.land (Z.shiftr (cw f) 10) 3.

(** What a store puts in memory: the integer, or the smallest one when it does not fit. *)
Definition stored_int (w v : Z) : outcome Z :=
  if dltb v (of_int (2 ^ (w - 1))) && dgeb v (of_int (- 2 ^ (w - 1))) then to_int w v else Done (- 2 ^ (w - 1)).

(** ** Packed decimals *)

Definition bcd100 (b : Z) : Z := b - 6 * Z.shiftr b 4.
(** [n] turns of a digit loop on the word [x]. *)
Fixpoint bcd_digits (n : nat) (x val : Z) : Z :=
  match n with O => val | S n => bcd_digits n (Z.shiftr x 8) (u64 (val * 100 + bcd100 (u8 x))) end.
Definition bcd_value (lo mi hi : Z) : Z :=
  let sign := Z.land hi 0x8000 in
  let val := bcd_digits 2 (Z.land hi 0x7fff) (bcd_digits 4 mi (bcd_digits 4 lo 0)) in
  dcopysign (of_int val) (of_int (if nz sign then -1 else 1)).
Definition bcd_pair (v : Z) : Z := Z.lor (Z.rem v 10) (Z.shiftl (Z.rem (v ÷ 10) 10) 4).
(** The sign and magnitude a packed decimal is made of; [- INT64_MIN] overflows. *)
Definition bcd_split (val : Z) : outcome (bool * Z) :=
  v ← stored_int 64 val;
  if v <? 0 then (if v =? - 2 ^ 63 then Stuck Overflow else Done (true, - v)) else Done (false, v).

(** ** Register instructions without the CPU *)

Definition fxch (i : Z) : ST FPU unit := t ← fpget i; t2 ← fpget 0; _ ← fpset i t2; fpset 0 t.
Definition fstp (i : Z) : ST FPU unit := t ← fpget 0; _ ← fpset i t; fppop.
Definition fpu_init (f : FPU) : FPU := f <| sw := 0 |> <| top := 0 |> <| cw := 0x37f |>.

(** FXAM *)
Definition fxam (t : Z) : ST FPU unit :=
  _ ← (if dsign t then sw_bits C1 0 else sw_bits 0 C1);
  match dcompare t (of_int 0) with
  | Some Eq => sw_bits C3 (Z.lor C0 C2)
  | _ => if dnan t then sw_bits C0 (Z.lor C2 C3)
         else if dfinite t then sw_bits C2 (Z.lor C0 C3)
         else sw_bits (Z.lor C0 C2) C3
  end.

(** The bits of a quotient that FPREM and FPREM1 report. *)
Definition quotient_bit (q k c : Z) : ST FPU unit := if nz (Z.land q k) then sw_bits c 0 else sw_bits 0 c.
Definition fprem (round : Z -> Z) (t : Z) : ST FPU unit :=
  t2 ← fpget 1;
  q ← lift (to_int 64 (round (ddiv t t2)));
  _ ← fpset 0 (dsub t (dmul (of_int q) t2));
  _ ← sw_bits 0 C2; _ ← quotient_bit q 1 C1; _ ← quotient_bit q 2 C3; quotient_bit q 4 C0.

(** D9 /6: the register forms, the first operand read. *)
Definition transcend6 (i t : Z) : ST FPU unit :=
  match i with
  | 0 => fpset 0 (dsub (dpow (of_int 2) t) (of_int 1))
  | 1 => t2 ← fpget 1; _ ← fpset 1 (dmul t2 (dlog2 t)); fppop
  | 2 => _ ← fpset 0 (dtan t); _ ← fppush (of_int 1); sw_bits 0 C2
  | 3 => t2 ← fpget 1; _ ← fpset 1 (datan2 t2 t); fppop
  | 4 => let '(mant, exp) := dfrexp t in
         _ ← fpset 0 (of_int (exp - 1)); fppush (dmul mant (of_int 2))
  | 5 => fprem dnearbyint t
  | 6 => turn_top (-1)
  | 7 => turn_top 1
  | _ => mret tt
  end.
(** D9 /7 *)
Definition transcend7 (i t : Z) : ST FPU unit :=
  match i with
  | 0 => fprem id t
  | 1 => t2 ← fpget 1; _ ← fpset 1 (dmul t2 (dlog2 (dadd (of_int 1) t))); fppop
  | 2 => fpset 0 (dsqrt t)
  | 3 => _ ← fpset 0 (dsin t); _ ← fppush (dcos t); sw_bits 0 C2
  | 4 => rc ← gets rounding; fpset 0 (fpround t rc)
  | 5 => t2 ← fpget 1; fpset 0 (dmul t (dpow (of_int 2) (dtrunc t2)))
  | 6 => _ ← fpset 0 (dsin t); sw_bits 0 C2
  | 7 => _ ← fpset 0 (dcos t); sw_bits 0 C2
  | _ => mret tt
  end.
(** D9 /5: the constants. *)
Definition fldconst (i : Z) : ST FPU unit :=
  match i with
  | 0 => fppush (of_int 1)
  | 1 => fppush 0x400a934f0979a371 (* L2T *)
  | 2 => fppush 0x3ff71547652b82fe (* L2E *)
  | 3 => fppush 0x400921fb54442d18 (* PI *)
  | 4 => fppush 0x3fd34413509f79ff (* LG2 *)
  | 5 => fppush 0x3fe62e42fefa39ef (* LN2 *)
  | _ => fppush (of_int 0)
  end.
End Arithmetic.

(** ** Doubles through the 80-bit format *)

Lemma f80_fields s e m : 0 <= s < 2 -> 0 <= e < 2 ^ 15 -> 0 <= m < 2 ^ 64 ->
  let r := f80_of s e m in
  Z.shiftr (high r) 15 = s /\ Z.land (high r) 0x7fff = e /\ Z.lor (u64 (Z.shiftl (mant1 r) 32)) (mant0 r) = m.
Proof.
  intros Hs He Hm. unfold f80_of. cbn [high mant0 mant1].
  assert (Eh : u16 (Z.lor (Z.shiftl s 15) (u16 e)) = e + s * 2 ^ 15).
  { rewrite (u16_id e), Z.lor_comm, lor_shiftl_add by (unfold inw; lia). apply u16_id. unfold inw. lia. }
  rewrite Eh, (land_ones_mod 15), !Z.shiftr_div_pow2 by lia. split; [|split].
  - rewrite Z.div_add, Z.div_small by lia. lia.
  - rewrite Z.mod_add, Z.mod_small by lia. lia.
  - assert (Hhi : 0 <= m / 2 ^ 32 < 2 ^ 32) by (split; [apply Z.div_pos; lia|apply Z.div_lt_upper_bound; lia]).
    rewrite (u32_id (m / 2 ^ 32)) by exact Hhi. rewrite u64_id by (rewrite Z.shiftl_mul_pow2 by lia; unfold inw; lia).
    rewrite Z.lor_comm, lor_shiftl_add by (lia || apply inw_u32). unfold u32. pose proof (Z.div_mod m (2 ^ 32)). lia.
Qed.
Lemma join_fields s e m : 0 <= s < 2 -> 0 <= e < 2048 -> 0 <= m < 2 ^ 52 ->
  Z.lor (Z.lor (u64 (Z.shiftl s 63)) (u64 (Z.shiftl e 52))) m = s * 2 ^ 63 + e * 2 ^ 52 + m.
Proof.
  intros Hs He Hm. rewrite !u64_id by (rewrite Z.shiftl_mul_pow2 by lia; unfold inw; lia).
  rewrite <- Z.lor_assoc, (Z.lor_comm (Z.shiftl e 52)), (lor_shiftl_add 52 m), Z.lor_comm by (unfold inw; lia).
  rewrite lor_shiftl_add by (unfold inw; lia). lia.
Qed.
Lemma fields_of v : inw 64 v -> exists s e m, v = s * 2 ^ 63 + e * 2 ^ 52 + m /\ 0 <= s < 2 /\ 0 <= e < 2048 /\ 0 <= m < 2 ^ 52 /\
  Z.shiftr v 63 = s /\ Z.land (Z.shiftr v 52) 0x7ff = e /\ Z.land v (2 ^ 52 - 1) = m.
Proof.
  intros Hv. unfold inw in Hv. exists (v / 2 ^ 63), ((v / 2 ^ 52) mod 2 ^ 11), (v mod 2 ^ 52).
  rewrite (land_ones_mod 11), (land_ones_mod 52), !Z.shiftr_div_pow2 by lia.
  split; [Z.div_mod_to_equations; lia|]. split_and!; try done; Z.div_mod_to_equations; lia.
Qed.

(** The lowest set bit. *)
Lemma ctz_spec p : exists q, Zpos p = (2 * q + 1) * 2 ^ ctz_pos p /\ 0 <= q /\ 0 <= ctz_pos p.
Proof.
  induction p as [p _|p [q (E & Hq & Hc)]|]; cbn [ctz_pos].
  - exists (Zpos p). lia.
  - exists q. rewrite Z.pow_add_r by lia. lia.
  - by exists 0.
Qed.
Lemma ctz_shift p n : 0 <= n -> ffsll (Zpos p * 2 ^ n) = ffsll (Zpos p) + n.
Proof.
  intros Hn. pattern n. apply natlike_ind; [by rewrite Z.mul_1_r, Z.add_0_r| |exact Hn]. clear n Hn. intros n Hn IH.
  rewrite Z.pow_succ_r by lia. replace (Zpos p * (2 * 2 ^ n)) with (2 * (Zpos p * 2 ^ n)) by lia.
  pose proof (pow2_pos n Hn). destruct (Zpos p * 2 ^ n) as [|q|q] eqn:E; try lia. change (2 * Zpos q) with (Zpos (xO q)). cbn [ffsll ctz_pos] in *. lia.
Qed.

(** A double whose exponent field is 0 and whose mantissa is not: a subnormal number. *)
Definition subnormal (v : Z) : bool := (Z.land (Z.shiftr v 52) 0x7ff =? 0) && nz (Z.land v (2 ^ 52 - 1)).
Definition lowest_bit (m : Z) : Z := 2 ^ (ffsll m - 1).

Lemma lor_high m : 0 <= m < 2 ^ 52 -> Z.lor (m * 2 ^ 11) (2 ^ 63) = m * 2 ^ 11 + 2 ^ 63.
Proof. intros Hm. change (2 ^ 63) with (Z.shiftl 1 63) at 1. rewrite lor_shiftl_add by (unfold inw; lia). lia. Qed.
Lemma half_shift m : (m * 2 ^ 11 + 2 ^ 63) / 2 ^ 11 = m + 1 * 2 ^ 52.
Proof. replace (m * 2 ^ 11 + 2 ^ 63) with ((m + 1 * 2 ^ 52) * 2 ^ 11) by lia. by apply Z.div_mul. Qed.

Lemma from_special s m : 0 <= s < 2 -> 0 <= m < 2 ^ 52 -> fromf80 (f80_of s 0x7fff (m * 2 ^ 11 + 2 ^ 63)) = s * 2 ^ 63 + 2047 * 2 ^ 52 + m.
Proof.
  intros Hs Hm. destruct (f80_fields s 0x7fff (m * 2 ^ 11 + 2 ^ 63)) as (E1 & E2 & E3); [lia..|].
  unfold fromf80. rewrite E1, E2, E3. cbn [Z.eqb Pos.eqb]. rewrite Z.shiftr_div_pow2, half_shift by lia.
  rewrite (proj2 (Z.eqb_neq _ _)) by lia. cbn [andb]. rewrite <- (lor_shiftl_add 52 m 1), (Z.lor_comm m), Z.lor_assoc by (unfold inw; lia).
  rewrite <- (Z.lor_assoc (u64 (Z.shiftl s 63))). change (Z.lor (u64 (Z.shiftl 0x7ff 52)) (Z.shiftl 1 52)) with (u64 (Z.shiftl 0x7ff 52)).
  apply join_fields; lia.
Qed.
Lemma from_normal s e m : 0 <= s < 2 -> 0 < e < 2047 -> 0 <= m < 2 ^ 52 ->
  fromf80 (f80_of s (e + BIAS80 - BIAS64) (m * 2 ^ 11 + 2 ^ 63)) = s * 2 ^ 63 + e * 2 ^ 52 + m.
Proof.
  intros Hs He Hm. unfold BIAS80, BIAS64. destruct (f80_fields s (e + 16383 - 1023) (m * 2 ^ 11 + 2 ^ 63)) as (E1 & E2 & E3); [lia..|].
  unfold fromf80, BIAS80, BIAS64. rewrite E1, E2, E3. rewrite !(proj2 (Z.eqb_neq _ _)) by lia.
  replace (e + 16383 - 1023 + (1023 - 16383)) with e by lia. rewrite !(proj2 (Z.leb_gt _ _)) by lia.
  rewrite Z.shiftr_div_pow2, half_shift, (land_ones_mod 52), Z.mod_add, (Z.mod_small m) by lia. apply join_fields; lia.
Qed.
(** The exponent of the lowest bit, and only that bit. *)
Lemma from_single s k : 0 <= s < 2 -> 0 <= k < 52 -> fromf80 (f80_of s (15309 + k) (2 ^ 63)) = Z.lor (Z.shiftl s 63) (2 ^ k).
Proof.
  intros Hs Hk. destruct (f80_fields s (15309 + k) (2 ^ 63)) as (E1 & E2 & E3); [lia..|].
  unfold fromf80, BIAS80, BIAS64. rewrite E1, E2, E3. rewrite !(proj2 (Z.eqb_neq _ _)) by lia.
  replace (15309 + k + (1023 - 16383)) with (k - 51) by lia. rewrite (proj2 (Z.leb_gt _ _)) by lia.
  rewrite (proj2 (Z.leb_le (k - 51) 0)) by lia. replace (12 - (k - 51)) with (63 - k) by lia.
  replace (2 ^ 63) with (2 ^ k * 2 ^ (63 - k)) by (rewrite <- Z.pow_add_r by lia; f_equal; lia).
  rewrite Z.shiftr_div_pow2, Z.div_mul by (try apply Z.pow_nonzero; lia).
  rewrite (u64_id (Z.shiftl s 63)) by (rewrite Z.shiftl_mul_pow2 by lia; unfold inw; lia). by rewrite Z.lor_0_r.
Qed.
(** Normalising a subnormal number by its lowest bit. *)
Lemma to_subnormal s p : 0 <= s < 2 -> Zpos p < 2 ^ 52 ->
  let shift := 64 - ffsll (Zpos p * 2 ^ 11) in
  f80_of s (0 + BIAS80 - BIAS64 + 1 - shift) (u64 (Z.shiftl (Zpos p * 2 ^ 11) shift)) = f80_of s (15309 + ctz_pos p) (2 ^ 63) /\ 0 <= ctz_pos p < 52.
Proof.
  intros Hs Hp. rewrite ctz_shift by lia. cbn [ffsll]. destruct (ctz_spec p) as (q & E & Hq & Hc). cbv zeta.
  assert (Hk : ctz_pos p < 52). { apply (Z.pow_lt_mono_r_iff 2); [lia|lia|]. pose proof (pow2_pos (ctz_pos p) Hc). nia. }
  split; [|lia]. set (k := ctz_pos p) in *. replace (64 - (1 + k + 11)) with (52 - k) by lia.
  f_equal; [unfold BIAS80, BIAS64; lia|]. rewrite Z.shiftl_mul_pow2, E by lia.
  replace ((2 * q + 1) * 2 ^ k * 2 ^ 11 * 2 ^ (52 - k)) with (2 ^ 63 + q * 2 ^ 64).
  - unfold u64. rewrite Z.mod_add by lia. by apply Z.mod_small.
  - replace (2 ^ 63) with (2 ^ k * 2 ^ (52 - k) * 2 ^ 11) by (rewrite <- !Z.pow_add_r by lia; f_equal; lia). 
    replace (2 ^ 64) with (2 * (2 ^ k * 2 ^ (52 - k) * 2 ^ 11)) by (rewrite <- !Z.pow_add_r by lia; rewrite <- Z.pow_succ_r by lia; f_equal; lia). lia.
Qed.

Lemma f80_exact v : inw 64 v -> subnormal v = false -> fromf80 (tof80 v) = v.
Proof.
  intros Hv Hn. destruct (fields_of v Hv) as (s & e & m & E & Hs & He & Hm & Es & Ee & Em).
  unfold subnormal, nz in Hn. unfold tof80. rewrite Es, Ee, Em. rewrite Ee, Em in Hn. rewrite (u64_id (Z.shiftl m 11)), Z.shiftl_mul_pow2 by (rewrite ?Z.shiftl_mul_pow2 by lia; unfold inw; lia).
  destruct (Z.eqb_spec e 0) as [->|He0]; cbn [andb] in Hn.
  - apply negb_false_iff, Z.eqb_eq in Hn. rewrite Hn. rewrite E, Hn. assert (s = 0 \/ s = 1) as [-> | ->] by lia; by vm_compute.
  - rewrite lor_high by lia. destruct (Z.eqb_spec e 0x7ff) as [->|]; [rewrite from_special|rewrite from_normal]; lia.
Qed.
Lemma f80_subnormal v : inw 64 v -> subnormal v = true ->
  fromf80 (tof80 v) = Z.lor (Z.shiftl (Z.shiftr v 63) 63) (lowest_bit (Z.land v (2 ^ 52 - 1))).
Proof.
  intros Hv Hn. destruct (fields_of v Hv) as (s & e & m & E & Hs & He & Hm & Es & Ee & Em).
  unfold subnormal, nz in Hn. unfold tof80. rewrite Es, Ee, Em. rewrite Ee, Em in Hn. apply andb_true_iff in Hn as [He0 Hm0]. rewrite He0. apply Z.eqb_eq in He0 as ->.
  apply negb_true_iff, Z.eqb_neq in Hm0. rewrite (u64_id (Z.shiftl m 11)), Z.shiftl_mul_pow2 by (rewrite ?Z.shiftl_mul_pow2 by lia; unfold inw; lia).
  rewrite (proj2 (Z.eqb_neq _ _)) by lia. destruct m as [|p|p]; [done| |lia]. destruct (to_subnormal s p) as [Et Hk]; [lia..|].
  rewrite Et, from_single by lia. unfold lowest_bit. cbn [ffsll]. do 2 f_equal. lia.
Qed.

(** C29. Doubles through the 80-bit format of FSTP, FNSAVE and FRSTOR: every zero, normal
    number, infinity and NaN comes back bit for bit; a subnormal number comes back as
    its sign and its lowest set bit alone, and so is itself only when it has one bit. *)
Theorem f80_roundtrip v : inw 64 v ->
  fromf80 (tof80 v) =
    if subnormal v then Z.lor (Z.shiftl (Z.shiftr v 63) 63) (lowest_bit (Z.land v (2 ^ 52 - 1))) else v.
Proof. intros Hv. destruct (subnormal v) eqn:E; [by apply f80_subnormal|by apply f80_exact]. Qed.
Lemma f80_roundtrip_witness :
  inw 64 0x3ff8000000000000 /\ fromf80 (tof80 0x3ff8000000000000) = 0x3ff8000000000000 /\ fromf80 (tof80 0x8000000000000006) = 0x8000000000000002.
Proof.
  split; [split; vm_compute; congruence|]. split; (rewrite f80_roundtrip; [by vm_compute|split; vm_compute; congruence]).
Defined.
(** A NaN whose payload is in the low bits of an 80-bit image becomes an infinity. *)
Example nan_to_infinity : fromf80 (mkF80 1 0x80000000 0x7fff) = 0x7ff0000000000000.
Proof. by vm_compute. Qed.
(** FBLD takes the lowest byte of a packed decimal for the highest: 12 becomes 12 * 10^18. *)
Example fbld_reads_backwards : bcd_value 0x12 0 0 = of_int (12 * 10 ^ 18).
Proof. by vm_compute. Qed.
(** FBSTP of a number that does not fit 64 bits, or of a NaN, negates INT64_MIN. *)
Lemma fbstp_overflows v : dltb v (of_int (2 ^ 63)) && dgeb v (of_int (- 2 ^ 63)) = false -> bcd_split v = Stuck Overflow.
Proof. intros Hv. unfold bcd_split, stored_int. change (64 - 1) with 63. by rewrite Hv. Qed.
Example fbstp_nan : bcd_split 0x7ff8000000000000 = Stuck Overflow.
Proof. by vm_compute. Qed.
(** FPREM of a quotient beyond 64 bits converts it out of range. *)
Example fprem_overflows : let _ := plain_math in to_int 64 (ddiv (of_int (2 ^ 70)) (of_int 1)) = Stuck Overflow.
Proof. by vm_compute. Qed.
End Fpu.
