(* ===== verification/FpuStack.v ===== *)
(** * FpuStack: the register file is a stack of numbers

    [Fpu] converts between doubles and 80-bit images lazily, under two tag bytes.  The
    abstract register file here has no tags: a register holds either the image that was
    loaded into it or the number that was put there.  Any session of reads, writes,
    pushes, pops, saves and restores gives the same answers on both. *)

From S2P Require Import Prelude Doubles Fpu.

Module FpuStack.
Import Fpu.

(** ** The specification *)

Inductive Content := Image (r : F80) | Number (v : Z).
#[global] Instance Content_inhabited : Inhabited Content := populate (Number 0).
Definition number (k : Content) : Z := match k with Image r => fromf80 r | Number v => v end.
Definition image (k : Content) : F80 := match k with Image r => r | Number v => tof80 v end.
Record Stack := mkStack { at_top : Z; cells : list Content }.
Definition cell (s : Stack) (i : Z) : Z := (at_top s + i) mod 8.

Inductive RegOp := RGet (i : Z) | RSet (i v : Z) | RPush (v : Z) | RPop | RTop (w : Z) | RSave | RRestore (l : list F80).
Inductive Answer := Value (v : Z) | Images (l : list F80) | Quiet.

Definition spec_op (o : RegOp) (s : Stack) : Answer * Stack :=
  match o with
  | RGet i => (Value (number (arr (cells s) (cell s i))), s)
  | RSet i v => (Quiet, mkStack (at_top s) (arr_set (cells s) (cell s i) (Number v)))
  | RPush v => let t := cell s (-1) in (Quiet, mkStack t (arr_set (cells s) t (Number v)))
  | RPop => (Quiet, mkStack (cell s 1) (cells s))
  | RTop w => (Quiet, mkStack (w / 2 ^ 11 mod 8) (cells s))
  | RSave => (Images (image <$> cells s), mkStack 0 (cells s))
  | RRestore l => (Quiet, mkStack (at_top s) (Image <$> l))
  end.
Fixpoint spec_ops (l : list RegOp) (s : Stack) : list Answer * Stack :=
  match l with [] => ([], s) | o :: l => let r := spec_op o s in let q := spec_ops l r.2 in (r.1 :: q.1, q.2) end.

(** ** The unit

    The register part of FNSAVE and FRSTOR: the loops [save_regs] and [restore_regs]
    of [FpuExec] when none of their stores and loads faults. *)

Fixpoint save_from (n : nat) (j : Z) : ST FPU (list F80) :=
  match n with O => mret [] | S n => r ← save_reg j; l ← save_from n (j + 1); mret (r :: l) end.
Definition load_reg (j : Z) (r : F80) (f : FPU) : FPU :=
  clear_tags j (set_raw j (fun x => x <| high := high r |>) (set_raw j (fun x => x <| mant1 := mant1 r |>)
    (set_raw j (fun x => x <| mant0 := mant0 r |>) f))).
Fixpoint load_from (l : list F80) (j : Z) (f : FPU) : FPU :=
  match l with [] => f | r :: l => load_from l (j + 1) (load_reg j r f) end.

Definition run_op (o : RegOp) : ST FPU Answer :=
  match o with
  | RGet i => v ← fpget i; mret (Value v)
  | RSet i v => _ ← fpset i v; mret Quiet
  | RPush v => _ ← fppush v; mret Quiet
  | RPop => _ ← fppop; mret Quiet
  | RTop w => _ ← modify (setsw w); mret Quiet
  | RSave => l ← save_from 8 0; _ ← modify fpu_init; mret (Images l)
  | RRestore l => _ ← modify (load_from l 0); mret Quiet
  end.
Fixpoint run_ops (l : list RegOp) : ST FPU (list Answer) :=
  match l with [] => mret [] | o :: l => a ← run_op o; q ← run_ops l; mret (a :: q) end.

(** A number that the 80-bit format holds, see [Fpu]. *)
Definition storable (v : Z) : Prop := inw 64 v /\ subnormal v = false.
Definition op_ok (o : RegOp) : Prop :=
  match o with RSet _ v | RPush v => storable v | RRestore l => length l = 8%nat | _ => True end.

(** ** The tags *)

Definition read_tag (f : FPU) (k : Z) : bool := Z.testbit (rawtagr f) k.
Definition written_tag (f : FPU) (k : Z) : bool := Z.testbit (rawtagw f) k.
Definition holds (f : FPU) (k : Z) (x : Content) : Prop :=
  match x with
  | Image r => written_tag f k = false /\ arr (rawst f) k = r /\ (read_tag f k = true -> arr (st f) k = fromf80 r)
  | Number v => storable v /\
      (written_tag f k = true /\ arr (st f) k = v \/
       written_tag f k = false /\ arr (rawst f) k = tof80 v /\ (read_tag f k = true -> arr (st f) k = v))
  end.
Record shows (f : FPU) (s : Stack) : Prop := {
  sh_st : alen (st f) = 8; sh_raw : alen (rawst f) = 8; sh_top : top f = at_top s; sh_range : 0 <= at_top s < 8;
  sh_cells : alen (cells s) = 8; sh_holds : forall k, 0 <= k < 8 -> holds f k (arr (cells s) k);
}.

Lemma cell_range s i : 0 <= cell s i < 8.
Proof. apply Z.mod_pos_bound. lia. Qed.
Lemma slot_cell f s i : shows f s -> slot i f = cell s i.
Proof.
  intros Hs. unfold slot, cell. rewrite (land_ones_mod 3) by lia. rewrite (sh_top f s Hs). unfold u32. by rewrite (mod_mod_pow2 _ 3 32) by lia.
Qed.
Lemma clear_tag_bit j t k : 0 <= j < 8 -> 0 <= k < 8 -> Z.testbit (clear_tag j t) k = Z.testbit t k && negb (bool_decide (j = k)).
Proof.
  intros Hj Hk. unfold clear_tag. rewrite Z.land_spec. unfold u8. rewrite Z.mod_pow2_bits_low, Z.lnot_spec, shiftl_1_testbit by lia. done.
Qed.
(** What a register holds depends on its own entries. *)
Lemma holds_ext f g k x : written_tag g k = written_tag f k -> read_tag g k = read_tag f k ->
  arr (st g) k = arr (st f) k -> arr (rawst g) k = arr (rawst f) k -> holds f k x -> holds g k x.
Proof. intros Ew Er Es Ea. unfold holds. by rewrite Ew, Er, Es, Ea. Qed.

(** Changing one register and its cell. *)
Lemma shows_one f g s j x t : shows f s -> 0 <= j < 8 -> alen (st g) = 8 -> alen (rawst g) = 8 -> top g = t -> 0 <= t < 8 -> holds g j x ->
  (forall k, 0 <= k < 8 -> k <> j -> written_tag g k = written_tag f k /\ read_tag g k = read_tag f k /\ arr (st g) k = arr (st f) k /\ arr (rawst g) k = arr (rawst f) k) ->
  shows g (mkStack t (arr_set (cells s) j x)).
Proof.
  intros Hs Hj H1 H2 Ht Hr Hx Ho. pose proof (sh_cells f s Hs) as Hc. constructor; cbn; try done; [by rewrite alen_set|].
  intros k Hk. destruct (Z.eq_dec k j) as [->|Hn]; [by rewrite arr_set_eq by lia|]. rewrite arr_set_ne by lia.
  destruct (Ho k Hk Hn) as (? & ? & ? & ?). by apply (holds_ext f); [..|apply (sh_holds f s Hs)].
Qed.
(** Changing how a register is kept. *)
Lemma shows_same f g s j : shows f s -> 0 <= j < 8 -> alen (st g) = 8 -> alen (rawst g) = 8 -> top g = top f -> holds g j (arr (cells s) j) ->
  (forall k, 0 <= k < 8 -> k <> j -> written_tag g k = written_tag f k /\ read_tag g k = read_tag f k /\ arr (st g) k = arr (st f) k /\ arr (rawst g) k = arr (rawst f) k) ->
  shows g s.
Proof.
  intros Hs Hj H1 H2 Ht Hx Ho. constructor; try done; try apply Hs; [by rewrite Ht; apply Hs|].
  intros k Hk. destruct (Z.eq_dec k j) as [->|Hn]; [done|]. destruct (Ho k Hk Hn) as (? & ? & ? & ?). by apply (holds_ext f); [..|apply (sh_holds f s Hs)].
Qed.

(** ** The operations *)

Lemma get_shows f s i : shows f s -> exists f', fpget i f = Done (number (arr (cells s) (cell s i)), f') /\ shows f' s.
Proof.
  intros Hs. pose proof (cell_range s i) as Hj. unfold fpget. rewrite (slot_cell f s i Hs). set (j := cell s i) in *.
  pose proof (sh_holds f s Hs j Hj) as Hh. rewrite !land_bit_nz by lia. fold (read_tag f j) (written_tag f j).
  pose proof (sh_cells f s Hs). pose proof (sh_st f s Hs).
  destruct (negb (read_tag f j) && negb (written_tag f j)) eqn:E.
  - apply andb_true_iff in E as [Er Ew]. apply negb_true_iff in Er, Ew.
    assert (Hv : fromf80 (arr (rawst f) j) = number (arr (cells s) j)).
    { destruct (arr (cells s) j) as [r|v]; cbn in *; [by destruct Hh as (_ & -> & _)|].
      destruct Hh as [[Hw Hn] [[? _]|(_ & -> & _)]]; [congruence|by apply f80_exact]. }
    rewrite Hv. eexists. split; [reflexivity|].
    apply (shows_same f _ _ j); cbn; try done; try apply Hs; [by rewrite alen_set| |].
    + assert (Hst : arr (arr_set (st f) j (number (arr (cells s) j))) j = number (arr (cells s) j)) by (apply arr_set_eq; lia).
      destruct (arr (cells s) j) as [r|v]; cbn in *; unfold written_tag, read_tag in *; cbn in *; rewrite Hst.
      * destruct Hh as (Hw & Hr & _). done.
      * destruct Hh as [Hn [[? _]|(_ & Hr & _)]]; [congruence|]. split; [done|]. right. done.
    + intros k Hk Hne. unfold written_tag, read_tag. cbn. rewrite testbit_set, bool_decide_false, orb_false_r, arr_set_ne by (lia || congruence). done.
  - exists f. split; [|done]. do 2 f_equal. destruct (arr (cells s) j) as [r|v]; cbn in *.
    + destruct Hh as (Hw & _ & Hr). rewrite Hw in E. cbn in E. rewrite andb_true_r in E. apply negb_false_iff in E. by apply Hr.
    + destruct Hh as [_ [[_ Hv]|(Hw & _ & Hr)]]; [done|]. rewrite Hw in E. cbn in E. rewrite andb_true_r in E. apply negb_false_iff in E. by apply Hr.
Qed.
Lemma set_shows f s i v : shows f s -> storable v ->
  exists f', fpset i v f = Done (tt, f') /\ shows f' (mkStack (at_top s) (arr_set (cells s) (cell s i) (Number v))).
Proof.
  intros Hs Hv. pose proof (cell_range s i) as Hj. unfold fpset. rewrite (slot_cell f s i Hs). set (j := cell s i) in *. eexists. split; [reflexivity|].
  pose proof (sh_st f s Hs). apply (shows_one f); cbn; try done; try apply Hs; [by rewrite alen_set| |].
  - split; [done|]. left. unfold written_tag. cbn. rewrite testbit_set, bool_decide_true, orb_true_r by (done || lia). split; [done|]. apply arr_set_eq. lia.
  - intros k Hk Hne. unfold written_tag, read_tag. cbn. rewrite testbit_set, bool_decide_false, orb_false_r, arr_set_ne by (lia || congruence). done.
Qed.
Lemma turn_shows f s n : shows f s -> exists f', turn_top n f = Done (tt, f') /\ shows f' (mkStack (cell s n) (cells s)).
Proof.
  intros Hs. eexists. split; [reflexivity|]. fold (slot n f). rewrite (slot_cell f s n Hs). destruct Hs. constructor; cbn; try done; apply cell_range.
Qed.
Lemma top_shows f s w : shows f s -> shows (setsw w f) (mkStack (w / 2 ^ 11 mod 8) (cells s)).
Proof.
  intros []. constructor; cbn [at_top cells]; try done; [|apply Z.mod_pos_bound; lia]. unfold setsw. cbn. by rewrite (land_ones_mod 3), Z.shiftr_div_pow2 by lia.
Qed.

(** FNSAVE *)
Lemma write_back_shows f s j : shows f s -> 0 <= j < 8 -> shows (write_back j f) s /\ arr (rawst (write_back j f)) j = image (arr (cells s) j).
Proof.
  intros Hs Hj. pose proof (sh_holds f s Hs j Hj) as Hh. pose proof (sh_raw f s Hs). pose proof (sh_cells f s Hs). unfold write_back. rewrite land_bit_nz by lia. fold (written_tag f j).
  destruct (written_tag f j) eqn:E.
  - destruct (arr (cells s) j) as [r|v] eqn:Ec; cbn in Hh; [destruct Hh; congruence|]. destruct Hh as [Hn [[_ Hv]|[? _]]]; [|congruence].
    assert (Hr : arr (arr_set (rawst f) j (tof80 (arr (st f) j))) j = tof80 v) by (rewrite arr_set_eq by lia; by rewrite Hv).
    split; [|exact Hr]. apply (shows_same f _ _ j); cbn; try done; try apply Hs; [by rewrite alen_set| |].
    + rewrite Ec. split; [done|]. right. unfold written_tag, read_tag. cbn. rewrite clear_tag_bit, bool_decide_true, andb_false_r by (done || lia). done.
    + intros k Hk Hne. unfold written_tag, read_tag. cbn. rewrite clear_tag_bit, bool_decide_false, andb_true_r, arr_set_ne by (lia || congruence). done.
  - split; [done|]. destruct (arr (cells s) j) as [r|v]; cbn in *; [by destruct Hh as (_ & -> & _)|]. destruct Hh as [_ [[? _]|(_ & -> & _)]]; [congruence|done].
Qed.
Lemma save_shows n f s j : shows f s -> 0 <= j -> j + Z.of_nat n = 8 ->
  exists f', save_from n j f = Done (image <$> drop (Z.to_nat j) (cells s), f') /\ shows f' s.
Proof.
  revert f j. induction n as [|n IH]; intros f j Hs Hj Hn; cbn [save_from]; pose proof (sh_cells f s Hs) as Hc; unfold alen in Hc.
  { exists f. split; [|done]. by rewrite drop_ge by lia. }
  destruct (write_back_shows f s j Hs ltac:(lia)) as [H1 Hr]. destruct (IH _ (j + 1) H1 ltac:(lia) ltac:(lia)) as (f' & E & Hf'). exists f'.
  assert (Es : save_reg j f = Done (image (arr (cells s) j), write_back j f)) by (rewrite <- Hr; done).
  rewrite (st_bind_done _ _ _ _ _ Es), (st_bind_done _ _ _ _ _ E). split; [|done].
  destruct (lookup_lt_is_Some_2 (cells s) (Z.to_nat j)) as [x Ex]; [lia|]. unfold arr. rewrite (drop_S (cells s) x _ Ex).
  rewrite fmap_cons, (list_lookup_total_correct _ _ _ Ex). by replace (Z.to_nat (j + 1)) with (S (Z.to_nat j)) by lia.
Qed.
Lemma init_shows f s : shows f s -> shows (fpu_init f) (mkStack 0 (cells s)).
Proof. intros []. by constructor. Qed.

(** FRSTOR *)
Lemma load_reg_shows f s j r : shows f s -> 0 <= j < 8 -> shows (load_reg j r f) (mkStack (at_top s) (arr_set (cells s) j (Image r))).
Proof.
  intros Hs Hj. pose proof (sh_raw f s Hs) as Hr.
  apply (shows_one f); try done; try apply Hs; unfold load_reg, clear_tags, set_raw; cbn; [by rewrite !alen_set| |].
  - unfold written_tag, read_tag. cbn. rewrite !clear_tag_bit, bool_decide_true, !andb_false_r by (done || lia). rewrite !arr_set_eq by (rewrite ?alen_set; lia). by destruct r.
  - intros k Hk Hne. unfold written_tag, read_tag. cbn. rewrite !clear_tag_bit, bool_decide_false, !andb_true_r by (lia || congruence). rewrite !arr_set_ne by lia. done.
Qed.
Lemma load_shows l : forall f s j, shows f s -> 0 <= j -> j + Z.of_nat (length l) = 8 ->
  shows (load_from l j f) (mkStack (at_top s) (take (Z.to_nat j) (cells s) ++ (Image <$> l))).
Proof.
  induction l as [|r l IH]; intros f s j Hs Hj Hl; cbn [load_from]; pose proof (sh_cells f s Hs) as Hc; unfold alen in Hc.
  { cbn in *. rewrite app_nil_r, take_ge by lia. by destruct s. }
  cbn [length] in Hl. pose proof (IH _ _ (j + 1) (load_reg_shows f s j r Hs ltac:(lia)) ltac:(lia) ltac:(lia)) as Hn. cbn [at_top cells] in Hn.
  replace (take (Z.to_nat (j + 1)) (arr_set (cells s) j (Image r))) with (take (Z.to_nat j) (cells s) ++ [Image r]) in Hn.
  - rewrite fmap_cons. by rewrite <- app_assoc in Hn.
  - unfold arr_set. replace (Z.to_nat (j + 1)) with (S (Z.to_nat j)) by lia. rewrite (take_S_r _ _ (Image r)) by (apply list_lookup_insert_eq; lia).
    by rewrite take_insert_ge by lia.
Qed.

Lemma op_shows o f s : op_ok o -> shows f s -> exists f', run_op o f = Done ((spec_op o s).1, f') /\ shows f' (spec_op o s).2.
Proof.
  intros Ho Hs. destruct o as [i|i v|v| |w| |l]; cbn [run_op spec_op fst snd].
  - destruct (get_shows f s i Hs) as (f' & E & H1). exists f'. by rewrite (st_bind_done _ _ _ _ _ E).
  - destruct (set_shows f s i v Hs Ho) as (f' & E & H1). exists f'. by rewrite (st_bind_done _ _ _ _ _ E).
  - destruct (turn_shows f s (-1) Hs) as (f1 & E1 & H1). destruct (set_shows f1 _ 0 v H1 Ho) as (f' & E & H2). exists f'. unfold fppush.
    assert (E0 : fppush v f = Done (tt, f')) by (unfold fppush; by rewrite (st_bind_done _ _ _ _ _ E1)). unfold fppush in E0. rewrite (st_bind_done _ _ _ _ _ E0).
    split; [done|]. unfold cell in H2. cbn [at_top cells] in H2. rewrite Z.add_0_r, (Z.mod_small (cell s (-1))) in H2 by apply cell_range. exact H2.
  - destruct (turn_shows f s 1 Hs) as (f' & E & H1). exists f'. unfold fppop. by rewrite (st_bind_done _ _ _ _ _ E).
  - eexists. split; [reflexivity|by apply top_shows].
  - destruct (save_shows 8 f s 0 Hs) as (f' & E & H1); [done|done|]. exists (fpu_init f'). rewrite (st_bind_done _ _ _ _ _ E). split; [done|by apply init_shows].
  - eexists. split; [reflexivity|]. cbn in Ho. pose proof (load_shows l f s 0 Hs) as Hl. rewrite Ho in Hl. by apply Hl.
Qed.

Definition empty_stack : Stack := mkStack 0 (replicate 8 (Image (mkF80 0 0 0))).
Lemma new_shows : shows fpu_new empty_stack.
Proof.
  constructor; try done. intros k Hk. assert (Hc : k = 0 \/ k = 1 \/ k = 2 \/ k = 3 \/ k = 4 \/ k = 5 \/ k = 6 \/ k = 7) by lia.
  by destruct Hc as [->|[->|[->|[->|[->|[->|[->| ->]]]]]]].
Qed.
Lemma ops_show l : forall f s, Forall op_ok l -> shows f s -> exists f', run_ops l f = Done ((spec_ops l s).1, f') /\ shows f' (spec_ops l s).2.
Proof.
  induction l as [|o l IH]; intros f s Hl Hs; [by exists f|]. inversion_clear Hl as [|? ? Ho Hr].
  destruct (op_shows o f s Ho Hs) as (f1 & E1 & H1). destruct (IH f1 _ Hr H1) as (f2 & E2 & H2). exists f2. cbn [run_ops spec_ops fst snd].
  rewrite (st_bind_done _ _ _ _ _ E1), (st_bind_done _ _ _ _ _ E2). done.
Qed.

(** C31. The register file of the floating-point unit is a stack of eight cells.  From a
    new unit, any session of reads, writes, pushes, pops, status loads, saves and
    restores that puts no subnormal number into a register gets the answers of the
    abstract stack: a number that was put is read back bit for bit, also after its
    lazy conversion to 80 bits, and an image that was restored and not written is saved
    again bit for bit.  The tags are never visible. *)
Theorem register_file l : Forall op_ok l ->
  exists f', run_ops l fpu_new = Done ((spec_ops l empty_stack).1, f') /\ shows f' (spec_ops l empty_stack).2.
Proof. intros Hl. apply ops_show; [done|exact new_shows]. Qed.

(** A NaN with a payload in its low bits survives being carried from one context to another. *)
Definition nan80 : F80 := mkF80 0x123 0x80000000 0x7fff.
Definition carried : list RegOp :=
  [RPush 0x3ff8000000000000; RGet 0; RSave; RGet 7; RRestore (replicate 8 nan80); RPush 0x4000000000000000; RSave; RTop 0x3800; RPop].
Lemma register_file_witness : exists f', run_ops carried fpu_new =
    Done ([Quiet; Value 0x3ff8000000000000; Images (replicate 7 (mkF80 0 0 0) ++ [mkF80 0 0xc0000000 0x3fff]); Value 0x3ff8000000000000; Quiet; Quiet;
           Images (replicate 7 nan80 ++ [mkF80 0 0x80000000 0x4000]); Quiet; Quiet], f') /\
  shows f' (spec_ops carried empty_stack).2.
Proof. exact (register_file carried ltac:(repeat constructor; cbn; try done; vm_compute; congruence)). Defined.
End FpuStack.
