(* ===== verification/I386.v ===== *)
(** * I386: the CPU state and its lazy flags (winspire/i386.c)

    The [struct CPUI386] of the interpreter, its general registers, the
    arithmetic flags that are computed only when somebody asks for them
    ([get_CF] ... [get_OF], [refresh_flags], [cpu_getflags], [cpu_setflags]), and
    the reset state.  A C function that returns [false] after recording an
    exception in [excno]/[excerr] is a value of [Exc]; one that cannot fail is a
    value of [ST]. *)

From S2P Require Import Prelude Fpu.

Module I386.

(** ** Functions that may raise a guest exception

    [None] is the C result [false]. *)

Definition Exc (S A : Type) : Type := S -> outcome (option A * S).
#[export] Instance Exc_ret S : MRet (Exc S) := fun A a s => Done (Some a, s).
#[export] Instance Exc_bind S : MBind (Exc S) := fun A B f m s =>
  match m s with
  | Done (Some a, s') => f a s'
  | Done (None, s') => Done (None, s')
  | Stuck e => Stuck e
  end.

(** Code that cannot raise. *)
Definition ok {S A} (m : ST S A) : Exc S A := fun s =>
  match m s with Done (a, s') => Done (Some a, s') | Stuck e => Stuck e end.
Lemma exc_bind_done {S A B} (m : Exc S A) (k : A -> Exc S B) s v s' : m s = Done (Some v, s') -> (m ≫= k) s = k v s'.
Proof. intros E. unfold mbind, Exc_bind. by rewrite E. Qed.
Lemma exc_bind_none {S A B} (m : Exc S A) (k : A -> Exc S B) s s' : m s = Done (None, s') -> (m ≫= k) s = Done (None, s').
Proof. intros E. unfold mbind, Exc_bind. by rewrite E. Qed.
Lemma ok_bind {S A B} (m : ST S A) (k : A -> Exc S B) s v s' : m s = Done (v, s') -> (ok m ≫= k) s = k v s'.
Proof. intros E. unfold mbind, Exc_bind, ok. by rewrite E. Qed.

(** ** Constants *)

Definition CF : Z := 0x1.
Definition PF : Z := 0x4.
Definition AF : Z := 0x10.
Definition ZF : Z := 0x40.
Definition SF : Z := 0x80.
Definition TF : Z := 0x100.
Definition IF_ : Z := 0x200.
Definition DF : Z := 0x400.
Definition OF : Z := 0x800.
Definition IOPL : Z := 0x3000.
Definition NT : Z := 0x4000.
Definition RF : Z := 0x10000.
Definition VM : Z := 0x20000.

Definition EFLAGS_MASK_386 : Z := 0x37fd7.
Definition EFLAGS_MASK_486 : Z := 0x77fd7.
Definition EFLAGS_MASK_586 : Z := 0x277fd7.

Definition SEG_D_BIT : Z := Z.shiftl 1 14.
Definition SEG_B_BIT : Z := Z.shiftl 1 14.

Definition EX_DE : Z := 0.
Definition EX_UD : Z := 6.
Definition EX_NM : Z := 7.
Definition EX_NP : Z := 11.
Definition EX_SS : Z := 12.
Definition EX_GP : Z := 13.
Definition EX_PF : Z := 14.

Definition SEG_ES : Z := 0.
Definition SEG_CS : Z := 1.
Definition SEG_SS : Z := 2.
Definition SEG_DS : Z := 3.
Definition SEG_FS : Z := 4.
Definition SEG_GS : Z := 5.
Definition SEG_LDT : Z := 6.
Definition SEG_TR : Z := 7.

(** [tlb_size] and [NSPIRE_DTLB_FAST_SLOTS] of the Server build. *)
Definition tlb_size : Z := 1024.
Definition NSPIRE_DTLB_FAST_SLOTS : Z := 1024.

(** The lazy-flag operations. *)
Inductive CcOp : Set :=
| CC_ADC | CC_ADD | CC_SBB | CC_SUB
| CC_NEG8 | CC_NEG16 | CC_NEG32
| CC_DEC8 | CC_DEC16 | CC_DEC32
| CC_INC8 | CC_INC16 | CC_INC32
| CC_IMUL8 | CC_IMUL16 | CC_IMUL32 | CC_MUL8 | CC_MUL16 | CC_MUL32
| CC_SAR | CC_SHL | CC_SHR
| CC_SHLD | CC_SHRD | CC_BSF | CC_BSR
| CC_AND | CC_OR | CC_XOR.
#[export] Instance CcOp_eq_dec : EqDecision CcOp.
Proof. solve_decision. Defined.

(** ** State *)

(** [cpu->cc] *)
Record CC := mkCC {
  op : CcOp; dst : Z; dst2 : Z; src1 : Z; src2 : Z; mask : Z;
}.

(** One element of [cpu->seg]; [sflags] is its [flags]. *)
Record Seg := mkSeg { sel : Z; base : Z; limit : Z; sflags : Z }.
#[export] Instance Seg_inhabited : Inhabited Seg := populate (mkSeg 0 0 0 0).

(** [struct tlb_entry]: [pte_lookup] points to the row of the permission table
    for (WP, the two permission bits), [ppte] to a byte of the guest memory. *)
Record TlbEntry := mkTlb { lpgno : Z; xaddr : Z; lookup_row : bool * Z; ppte : Z }.
#[export] Instance TlbEntry_inhabited : Inhabited TlbEntry := populate (mkTlb 0 0 (false, 0) 0).

(** A read slot and a write slot of [dtlb_fast]. *)
Record FastRead := mkFR { read_lpgno : Z; read_xaddr : Z; read_cpl : Z }.
Record FastWrite := mkFW {
  write_lpgno : Z; write_xaddr : Z; write_ppte : option Z; write_dirty : Z; write_cpl : Z;
}.
#[export] Instance FastRead_inhabited : Inhabited FastRead := populate (mkFR 0 0 0).
#[export] Instance FastWrite_inhabited : Inhabited FastWrite := populate (mkFW 0 0 None 0 0).

(** [ifetch]: the page the instruction stream is in. *)
Record Ifetch := mkIf { if_laddr : Z; if_xaddr : Z; if_paddr : Z }.

(** [struct CPUI386].  [dev] is what the callbacks of [cb] act on: the ports,
    the memory-mapped devices and the interrupt controller. *)
Record CPUI386 (D : Type) := mkCPU {
  gpr : list Z;
  ip : Z; next_ip : Z;
  flags : Z; flags_mask : Z;
  cpl : Z; code16 : bool; sp_mask : Z; halt : bool;
  fpu : option Fpu.FPU;  (* a null pointer without the unit *)
  seg : list Seg;
  idt_base : Z; idt_limit : Z; gdt_base : Z; gdt_limit : Z;
  cr0 : Z; cr2 : Z; cr3 : Z;
  ifetch : Ifetch;
  fast_read : list FastRead; fast_write : list FastWrite;
  cc : CC;
  tlb : list TlbEntry;
  phys_mem : list Z;
  excno : Z; excerr : Z;
  intr : bool;
  dr : list Z; cycle : Z; gen : Z; rep_yield : bool;
  nspire_bulk_rep_ram : bool; nspire_bulk_rep_stos : bool; win2k_boot_fast : bool;
  sysenter_cs : Z; sysenter_eip : Z; sysenter_esp : Z;
  dev : D;
}.
Arguments mkCPU {D}.
Arguments gpr {D} _. Arguments ip {D} _. Arguments next_ip {D} _. Arguments flags {D} _.
Arguments flags_mask {D} _. Arguments cpl {D} _. Arguments code16 {D} _. Arguments sp_mask {D} _.
Arguments halt {D} _. Arguments fpu {D} _. Arguments seg {D} _. Arguments idt_base {D} _.
Arguments idt_limit {D} _. Arguments gdt_base {D} _. Arguments gdt_limit {D} _. Arguments cr0 {D} _.
Arguments cr2 {D} _. Arguments cr3 {D} _. Arguments ifetch {D} _. Arguments fast_read {D} _.
Arguments fast_write {D} _. Arguments cc {D} _. Arguments tlb {D} _. Arguments phys_mem {D} _.
Arguments excno {D} _. Arguments excerr {D} _. Arguments intr {D} _. Arguments dev {D} _.
Arguments dr {D} _. Arguments cycle {D} _. Arguments gen {D} _. Arguments rep_yield {D} _.
Arguments nspire_bulk_rep_ram {D} _. Arguments nspire_bulk_rep_stos {D} _. Arguments win2k_boot_fast {D} _.
Arguments sysenter_cs {D} _. Arguments sysenter_eip {D} _. Arguments sysenter_esp {D} _.
#[export] Instance eta_cpu D : Eta (CPUI386 D) := fun c =>
  mkCPU (gpr c) (ip c) (next_ip c) (flags c) (flags_mask c) (cpl c) (code16 c) (sp_mask c) (halt c)
    (fpu c) (seg c) (idt_base c) (idt_limit c) (gdt_base c) (gdt_limit c) (cr0 c) (cr2 c) (cr3 c)
    (ifetch c) (fast_read c) (fast_write c) (cc c) (tlb c) (phys_mem c) (excno c) (excerr c) (intr c)
    (dr c) (cycle c) (gen c) (rep_yield c) (nspire_bulk_rep_ram c) (nspire_bulk_rep_stos c) (win2k_boot_fast c)
    (sysenter_cs c) (sysenter_eip c) (sysenter_esp c) (dev c).
#[export] Instance eta_cc : Eta CC := fun k => mkCC (op k) (dst k) (dst2 k) (src1 k) (src2 k) (mask k).
#[export] Instance eta_fw : Eta FastWrite := fun w =>
  mkFW (write_lpgno w) (write_xaddr w) (write_ppte w) (write_dirty w) (write_cpl w).
#[export] Instance eta_tlb : Eta TlbEntry := fun e => mkTlb (lpgno e) (xaddr e) (lookup_row e) (ppte e).
#[export] Instance eta_if : Eta Ifetch := fun i => mkIf (if_laddr i) (if_xaddr i) (if_paddr i).

(** ** Sign extension to a machine word *)

Definition sext (w z : Z) : Z := u32 (sgn w z).
Definition sext8 (a : Z) : Z := u32 (s8 a).
Definition sext16 (a : Z) : Z := u32 (s16 a).
Definition sext32 (a : Z) : Z := u32 (s32 a).

(** [SET_BIT (w, f, m)] *)
Definition SET_BIT (w f m : Z) : Z := Z.lor (Z.land w (u32 (Z.lnot m))) (Z.land (u32 (- f)) m).

Section Operations.
Context {D : Type}.
Implicit Types c : CPUI386 D.

(** [THROW (ex, err)] and [THROW0 (ex)] *)
Definition THROW {A} (ex err : Z) : Exc (CPUI386 D) A := fun c => Done (None, c <| excno := ex |> <| excerr := err |>).
Definition THROW0 {A} (ex : Z) : Exc (CPUI386 D) A := fun c => Done (None, c <| excno := ex |>).

(** ** Registers *)

Definition REGi c (i : Z) : Z := arr (gpr c) i.
Definition set_REGi (i v : Z) c : CPUI386 D := c <| gpr := arr_set (gpr c) i v |>.
Definition lreg8 (i : Z) c : Z := if 3 <? i then u8 (Z.shiftr (REGi c (i - 4)) 8) else u8 (REGi c i).
Definition sreg8 (i v : Z) c : CPUI386 D :=
  if 3 <? i then
    set_REGi (i - 4) (Z.lor (Z.land (REGi c (i - 4)) (Z.lxor 0xffffffff 0xff00)) (Z.shiftl (Z.land v 0xff) 8)) c
  else set_REGi i (Z.lor (Z.land (REGi c i) (Z.lxor 0xffffffff 0xff)) (Z.land v 0xff)) c.
Definition lreg16 (i : Z) c : Z := u16 (REGi c i).
Definition sreg16 (i v : Z) c : CPUI386 D :=
  set_REGi i (Z.lor (Z.land (REGi c i) (Z.lxor 0xffffffff 0xffff)) (Z.land v 0xffff)) c.
Definition lreg32 (i : Z) c : Z := u32 (REGi c i).
Definition sreg32 (i v : Z) c : CPUI386 D :=
  set_REGi i (Z.lor (Z.land (REGi c i) (Z.lxor 0xffffffff 0xffffffff)) (Z.land v 0xffffffff)) c.

(** ** Guest physical memory, little endian *)

Definition pload8 (addr : Z) : ST (CPUI386 D) Z := fun c => lift (rd (phys_mem c) addr) c.
Definition pstore8 (addr v : Z) : ST (CPUI386 D) unit := fun c =>
  match wr (phys_mem c) addr (u8 v) with Done m => Done (tt, c <| phys_mem := m |>) | Stuck e => Stuck e end.
Definition pload16 (addr : Z) : ST (CPUI386 D) Z :=
  b0 ← pload8 addr; b1 ← pload8 (addr + 1); mret (Z.lor b0 (Z.shiftl b1 8)).
Definition pload32 (addr : Z) : ST (CPUI386 D) Z :=
  b0 ← pload8 addr; b1 ← pload8 (addr + 1); b2 ← pload8 (addr + 2); b3 ← pload8 (addr + 3);
  mret (Z.lor (Z.lor (Z.lor b0 (Z.shiftl b1 8)) (Z.shiftl b2 16)) (Z.shiftl b3 24)).
Definition pstore16 (addr v : Z) : ST (CPUI386 D) unit :=
  _ ← pstore8 addr v; pstore8 (addr + 1) (Z.shiftr v 8).
Definition pstore32 (addr v : Z) : ST (CPUI386 D) unit :=
  _ ← pstore8 addr v; _ ← pstore8 (addr + 1) (Z.shiftr v 8); _ ← pstore8 (addr + 2) (Z.shiftr v 16);
  pstore8 (addr + 3) (Z.shiftr v 24).

(** ** Lazy flags *)

(** The test [cpu->cc.mask & f], and the eager reading of a flag. *)
Definition lazy c (f : Z) : bool := nz (Z.land (mask (cc c)) f).
Definition eager c (f : Z) : Z := b2z (nz (Z.land (flags c) f)).

Definition get_CF c : outcome Z :=
  let k := cc c in
  if lazy c CF then
    match op k with
    | CC_ADC => Done (b2z (dst k <=? src2 k))
    | CC_ADD => Done (b2z (dst k <? src2 k))
    | CC_SBB => Done (b2z (src1 k <=? src2 k))
    | CC_SUB => Done (b2z (src1 k <? src2 k))
    | CC_NEG8 | CC_NEG16 | CC_NEG32 => Done (b2z (nz (dst k)))
    | CC_DEC8 | CC_DEC16 | CC_DEC32 | CC_INC8 | CC_INC16 | CC_INC32 => Stuck Aborted
    | CC_IMUL8 => Done (b2z (negb (sext8 (dst k) =? dst k)))
    | CC_IMUL16 => Done (b2z (negb (sext16 (dst k) =? dst k)))
    | CC_IMUL32 => Done (b2z (negb (u32 (Z.shiftr (s32 (dst k)) 31) =? dst2 k)))
    | CC_MUL8 => Done (b2z (nz (Z.shiftr (dst k) 8)))
    | CC_MUL16 => Done (b2z (nz (Z.shiftr (dst k) 16)))
    | CC_MUL32 => Done (b2z (nz (dst2 k)))
    | CC_SHL | CC_SHR | CC_SAR => Done (Z.land (dst2 k) 1)
    | CC_SHLD => Done (Z.shiftr (dst2 k) 31)
    | CC_SHRD => Done (Z.land (dst2 k) 1)
    | CC_BSF | CC_BSR => Done 0
    | CC_AND | CC_OR | CC_XOR => Done 0
    end
  else Done (eager c CF).

Definition parity_tab : list Z := [
  1; 0; 0; 1; 0; 1; 1; 0; 0; 1; 1; 0; 1; 0; 0; 1;
  0; 1; 1; 0; 1; 0; 0; 1; 1; 0; 0; 1; 0; 1; 1; 0;
  0; 1; 1; 0; 1; 0; 0; 1; 1; 0; 0; 1; 0; 1; 1; 0;
  1; 0; 0; 1; 0; 1; 1; 0; 0; 1; 1; 0; 1; 0; 0; 1;
  0; 1; 1; 0; 1; 0; 0; 1; 1; 0; 0; 1; 0; 1; 1; 0;
  1; 0; 0; 1; 0; 1; 1; 0; 0; 1; 1; 0; 1; 0; 0; 1;
  1; 0; 0; 1; 0; 1; 1; 0; 0; 1; 1; 0; 1; 0; 0; 1;
  0; 1; 1; 0; 1; 0; 0; 1; 1; 0; 0; 1; 0; 1; 1; 0;
  0; 1; 1; 0; 1; 0; 0; 1; 1; 0; 0; 1; 0; 1; 1; 0;
  1; 0; 0; 1; 0; 1; 1; 0; 0; 1; 1; 0; 1; 0; 0; 1;
  1; 0; 0; 1; 0; 1; 1; 0; 0; 1; 1; 0; 1; 0; 0; 1;
  0; 1; 1; 0; 1; 0; 0; 1; 1; 0; 0; 1; 0; 1; 1; 0;
  1; 0; 0; 1; 0; 1; 1; 0; 0; 1; 1; 0; 1; 0; 0; 1;
  0; 1; 1; 0; 1; 0; 0; 1; 1; 0; 0; 1; 0; 1; 1; 0;
  0; 1; 1; 0; 1; 0; 0; 1; 1; 0; 0; 1; 0; 1; 1; 0;
  1; 0; 0; 1; 0; 1; 1; 0; 0; 1; 1; 0; 1; 0; 0; 1].

Definition get_PF c : Z :=
  if lazy c PF then arr parity_tab (Z.land (dst (cc c)) 0xff) else eager c PF.

Definition get_AF c : Z :=
  let k := cc c in
  if lazy c AF then
    match op k with
    | CC_ADC | CC_ADD | CC_SBB | CC_SUB =>
        Z.land (Z.shiftr (Z.lxor (Z.lxor (src1 k) (src2 k)) (dst k)) 4) 1
    | CC_NEG8 | CC_NEG16 | CC_NEG32 => b2z (nz (Z.land (dst k) 0xf))
    | CC_DEC8 | CC_DEC16 | CC_DEC32 => b2z (Z.land (dst k) 0xf =? 0xf)
    | CC_INC8 | CC_INC16 | CC_INC32 => b2z (Z.land (dst k) 0xf =? 0)
    | CC_IMUL8 | CC_IMUL16 | CC_IMUL32 | CC_MUL8 | CC_MUL16 | CC_MUL32 => 0
    | CC_SAR | CC_SHL | CC_SHR | CC_SHLD | CC_SHRD | CC_BSF | CC_BSR
    | CC_AND | CC_OR | CC_XOR => 0
    end
  else eager c AF.

Definition get_ZF c : Z := if lazy c ZF then b2z (dst (cc c) =? 0) else eager c ZF.
Definition get_SF c : Z := if lazy c SF then Z.shiftr (dst (cc c)) 31 else eager c SF.

Definition get_OF c : outcome Z :=
  let k := cc c in
  if lazy c OF then
    match op k with
    | CC_ADC | CC_ADD =>
        Done (Z.shiftr (Z.land (u32 (Z.lnot (Z.lxor (src1 k) (src2 k)))) (Z.lxor (dst k) (src2 k))) 31)
    | CC_SBB | CC_SUB =>
        Done (Z.shiftr (Z.land (Z.lxor (src1 k) (src2 k)) (Z.lxor (dst k) (src1 k))) 31)
    | CC_DEC8 => Done (b2z (dst k =? sext8 (u8 (Z.lnot (Z.shiftl 1 7)))))
    | CC_DEC16 => Done (b2z (dst k =? sext16 (u16 (Z.lnot (Z.shiftl 1 15)))))
    | CC_DEC32 => Done (b2z (dst k =? sext32 (u32 (Z.lnot (Z.shiftl 1 31)))))
    | CC_INC8 | CC_NEG8 => Done (b2z (dst k =? sext8 (Z.shiftl 1 7)))
    | CC_INC16 | CC_NEG16 => Done (b2z (dst k =? sext16 (Z.shiftl 1 15)))
    | CC_INC32 | CC_NEG32 => Done (b2z (dst k =? sext32 (Z.shiftl 1 31)))
    | CC_IMUL8 | CC_IMUL16 | CC_IMUL32 | CC_MUL8 | CC_MUL16 | CC_MUL32 => get_CF c
    | CC_SAR => Done 0
    | CC_SHL => Done (Z.lxor (Z.shiftr (dst k) 31) (Z.land (dst2 k) 1))
    | CC_SHR => Done (Z.shiftr (src1 k) 31)
    | CC_SHLD | CC_SHRD => Done (Z.shiftr (Z.lxor (src1 k) (dst k)) 31)
    | CC_BSF | CC_BSR => Done 0
    | CC_AND | CC_OR | CC_XOR => Done 0
    end
  else Done (eager c OF).

Definition set_flag (f v : Z) : ST (CPUI386 D) unit := modify (fun c => c <| flags := SET_BIT (flags c) v f |>).

Definition refresh_flags : ST (CPUI386 D) unit :=
  cf ← (fun c => lift (get_CF c) c); _ ← set_flag CF cf;
  pf ← gets get_PF; _ ← set_flag PF pf;
  af ← gets get_AF; _ ← set_flag AF af;
  zf ← gets get_ZF; _ ← set_flag ZF zf;
  sf ← gets get_SF; _ ← set_flag SF sf;
  o ← (fun c => lift (get_OF c) c); set_flag OF o.

Definition get_IOPL c : Z := Z.shiftr (Z.land (flags c) IOPL) 12.

(** [cpu->cc.mask = m] *)
Definition set_mask (m : Z) c : CPUI386 D := c <| cc := (cc c) <| mask := m |> |>.

Definition cpu_setax (ax : Z) : ST (CPUI386 D) unit := modify (sreg16 0 ax).
Definition cpu_getax c : Z := lreg16 0 c.
Definition cpu_setexc (no err : Z) : ST (CPUI386 D) unit := modify (fun c => c <| excno := no |> <| excerr := err |>).

Definition cpu_setflags (set clear : Z) : ST (CPUI386 D) unit :=
  lz ← gets (fun c => lazy c (Z.lor set clear));
  _ ← (if lz : bool then _ ← refresh_flags; modify (set_mask 0) else mret tt);
  modify (fun c => c <| flags := Z.land (Z.land (Z.lor (flags c) set) (u32 (Z.lnot clear))) (flags_mask c) |>).

Definition cpu_getflags : ST (CPUI386 D) Z :=
  lz ← gets (fun c => nz (mask (cc c)));
  _ ← (if lz : bool then _ ← refresh_flags; modify (set_mask 0) else mret tt);
  gets flags.

(** ** Reset *)

Definition NO_PAGE : Z := 0xffffffff.
Definition clear_entry (e : TlbEntry) : TlbEntry := e <| lpgno := NO_PAGE |>.
Definition clear_write (w : FastWrite) : FastWrite :=
  w <| write_lpgno := NO_PAGE |> <| write_ppte := None |> <| write_dirty := 0 |>.
Definition clear_read (r : FastRead) : FastRead := mkFR NO_PAGE (read_xaddr r) (read_cpl r).
Definition tlb_clear c : CPUI386 D :=
  c <| tlb := clear_entry <$> tlb c |>
    <| ifetch := (ifetch c) <| if_laddr := NO_PAGE |> <| if_paddr := 0 |> |>
    <| fast_read := clear_read <$> fast_read c |> <| fast_write := clear_write <$> fast_write c |>.

Definition has_fpu c : bool := match fpu c with Some _ => true | None => false end.
Definition cpui386_enable_fpu c : CPUI386 D := if has_fpu c then c else c <| fpu := Some Fpu.fpu_new |>.

Definition reset_segs : list Seg := [
  mkSeg 0 0 0 0; mkSeg 0xf000 0xf0000 0 (Z.shiftl 1 22); mkSeg 0 0 0 (Z.shiftl 1 22); mkSeg 0 0 0 0;
  mkSeg 0 0 0 0; mkSeg 0 0 0 0; mkSeg 0 0 0 0; mkSeg 0 0 0 0].
Definition cpui386_reset c : CPUI386 D :=
  tlb_clear (set_mask 0
   (c <| gpr := replicate 8 0 |> <| flags := 0x2 |> <| cpl := 0 |> <| code16 := true |> <| sp_mask := 0xffff |>
      <| halt := false |> <| seg := reset_segs |> <| ip := 0xfff0 |> <| next_ip := 0xfff0 |>
      <| idt_base := 0 |> <| idt_limit := 0x3ff |> <| gdt_base := 0 |> <| gdt_limit := 0 |>
      <| cr0 := if has_fpu c then 0x10 else 0 |> <| cr2 := 0 |> <| cr3 := 0 |> <| dr := replicate 8 0 |>))
    <| sysenter_cs := 0 |> <| sysenter_eip := 0 |> <| sysenter_esp := 0 |>.

Definition flat32 (s : Z) : Seg := mkSeg s 0 0xffffffff SEG_B_BIT.
Definition cpui386_reset_pm (start_addr : Z) c : CPUI386 D :=
  let c := cpui386_reset c in
  let s := arr_set (arr_set (seg c) SEG_CS (mkSeg 0x8 0 0xffffffff SEG_D_BIT)) SEG_SS (flat32 0x10) in
  c <| cr0 := 1 |> <| next_ip := start_addr |> <| cpl := 0 |> <| code16 := false |> <| sp_mask := 0xffffffff |>
    <| seg := arr_set (arr_set s SEG_DS (flat32 0x10)) SEG_ES (flat32 0x10) |>.

Definition cpui386_raise_irq c : CPUI386 D := c <| intr := true |>.
Definition cpui386_set_gpr (i v : Z) c : CPUI386 D := sreg32 i v c.

(** A new CPU in the memory [raw] that [malloc] returned.  The environment sets the
    three switches. *)
Definition gen_mask (gen : Z) : outcome Z :=
  if gen =? 3 then Done EFLAGS_MASK_386 else if gen =? 4 then Done EFLAGS_MASK_486 else
  if (gen =? 5) || (gen =? 6) then Done EFLAGS_MASK_586 else Stuck Aborted.
Definition cpui386_new (g : Z) (mem : list Z) (bulk_ram bulk_stos boot_fast : bool) (raw : CPUI386 D) : outcome (CPUI386 D) :=
  m ← gen_mask g;
  mret (cpui386_reset (raw <| flags_mask := m |> <| gen := g |> <| phys_mem := mem |>
                         <| nspire_bulk_rep_ram := bulk_ram |> <| nspire_bulk_rep_stos := bulk_stos |> <| win2k_boot_fast := boot_fast |>
                         <| rep_yield := (g <=? 4) || bulk_ram || bulk_stos |> <| cycle := 0 |> <| intr := false |> <| fpu := None |>)).

End Operations.

(** ** Bits of the flags word *)

Lemma sgn_range w z : 0 < w -> - 2 ^ (w - 1) <= sgn w z < 2 ^ (w - 1).
Proof.
  intros Hw. unfold sgn. pose proof (Z.mod_pos_bound z (2 ^ w) (pow2_pos w ltac:(lia))).
  assert (2 ^ w = 2 * 2 ^ (w - 1)) by (rewrite <- Z.pow_succ_r by lia; f_equal; lia).
  cbv zeta. destruct (Z.ltb_spec (z mod 2 ^ w) (2 ^ (w - 1))); lia.
Qed.

(** Bit [i] of a word in which the flag [2 ^ i] was set to [f]. *)
Lemma SET_BIT_testbit w f i j :
  inw 32 w -> f = 0 \/ f = 1 -> 0 <= i < 32 -> 0 <= j ->
  Z.testbit (SET_BIT w f (Z.shiftl 1 i)) j = if decide (j = i) then f =? 1 else Z.testbit w j.
Proof.
  intros Hw Hf Hi Hj. unfold SET_BIT. rewrite Z.lor_spec, !Z.land_spec, shiftl_1_testbit by lia.
  destruct (Z.lt_ge_cases j 32).
  - unfold u32. rewrite !Z.mod_pow2_bits_low by lia. rewrite Z.lnot_spec, shiftl_1_testbit by lia.
    destruct (decide (j = i)) as [->|].
    + rewrite bool_decide_true by done. rewrite andb_false_r, andb_true_r.
      destruct Hf as [-> | ->]; cbn [orb]; [by rewrite Z.testbit_0_l|].
      change (- (1)) with (-1). by rewrite Z.bits_m1 by lia.
    + rewrite bool_decide_false by congruence. cbn [negb]. by rewrite andb_true_r, andb_false_r, orb_false_r.
  - rewrite decide_False by lia. rewrite (inw_testbit_high 32 w) by (done || lia).
    rewrite bool_decide_false by lia. by rewrite andb_false_r.
Qed.
Lemma SET_BIT_inw w f m : inw 32 w -> inw 32 m -> inw 32 (SET_BIT w f m).
Proof. unfold SET_BIT. eauto with width. Qed.

Definition bool_val (v : Z) : Prop := v = 0 \/ v = 1.
Lemma bool_val_b2z b : bool_val (b2z b).
Proof. unfold bool_val. destruct b; cbn; lia. Qed.
Lemma bool_val_bit z : bool_val (Z.land z 1).
Proof.
  change 1 with (2 ^ 1 - 1) at 1. rewrite land_ones_mod by lia.
  pose proof (Z.mod_pos_bound z (2 ^ 1)). unfold bool_val. lia.
Qed.
Lemma bool_val_top z : inw 32 z -> bool_val (Z.shiftr z 31).
Proof. intros Hz. pose proof (inw_shiftr_to 1 31 z). unfold bool_val, inw in *. lia. Qed.

Ltac bool_val_tac :=
  lazymatch goal with
  | |- bool_val (b2z _) => apply bool_val_b2z
  | |- bool_val (Z.land _ 1) => apply bool_val_bit
  | |- bool_val (Z.shiftr _ 31) => apply bool_val_top; eauto 6 with width
  | |- bool_val 0 => left; reflexivity
  | |- bool_val (if ?b then _ else _) => destruct b; bool_val_tac
  | |- exists v, Done ?x = Done v /\ _ => exists x; split; [reflexivity|bool_val_tac]
  | _ => idtac
  end.

(** ** The register file *)

Section Registers.
Context {D : Type}.
Implicit Types c : CPUI386 D.

Record regs_ok c : Prop := {
  ro_len : alen (gpr c) = 8; ro_word : forall i, 0 <= i < 8 -> inw 32 (REGi c i);
}.

Lemma REGi_set c i j v : alen (gpr c) = 8 -> 0 <= i < 8 -> 0 <= j < 8 ->
  REGi (set_REGi i v c) j = if decide (j = i) then v else REGi c j.
Proof.
  intros Hl Hi Hj. unfold REGi, set_REGi. cbn [gpr set_field]. destruct (decide (j = i)) as [->|].
  - apply arr_set_eq. lia.
  - apply arr_set_ne; lia.
Qed.
Lemma regs_ok_set c i v : regs_ok c -> 0 <= i < 8 -> inw 32 v -> regs_ok (set_REGi i v c).
Proof.
  intros [Hl Hw] Hi Hv. constructor.
  - unfold set_REGi. cbn [gpr set_field]. by rewrite alen_set.
  - intros j Hj. rewrite REGi_set by done. destruct (decide (j = i)); auto.
Qed.

(** The bytes of the word each store leaves. *)
Lemma merge_bit r v m k j : 0 <= j -> inw 32 r ->
  Z.testbit (Z.lor (Z.land r (Z.lxor 0xffffffff (Z.shiftl m k))) (Z.shiftl (Z.land v m) k)) j =
    if (0 <=? j - k) && Z.testbit m (j - k) then Z.testbit v (j - k) else Z.testbit r j.
Proof.
  intros Hj Hr. rewrite Z.lor_spec, Z.land_spec, Z.lxor_spec, !Z.shiftl_spec, Z.land_spec by done.
  destruct (Z.leb_spec 0 (j - k)); cbn [andb].
  - destruct (Z.lt_ge_cases j 32).
    + assert (Z.testbit 0xffffffff j = true) as ->.
      { change 0xffffffff with (Z.ones 32). by apply Z.ones_spec_low. }
      destruct (Z.testbit m (j - k)); cbn [xorb negb]; by rewrite ?andb_true_r, ?andb_false_r, ?orb_false_r.
    + rewrite (inw_testbit_high 32 r) by (done || lia). cbn [andb orb].
      by destruct (Z.testbit m (j - k)); rewrite ?andb_true_r, ?andb_false_r.
  - rewrite (Z.testbit_neg_r m), (Z.testbit_neg_r v) by lia. cbn [andb]. rewrite orb_false_r, xorb_false_r.
    destruct (Z.lt_ge_cases j 32).
    + assert (Z.testbit 0xffffffff j = true) as -> by (change 0xffffffff with (Z.ones 32); by apply Z.ones_spec_low).
      apply andb_true_r.
    + by rewrite (inw_testbit_high 32 r) by (done || lia).
Qed.

Lemma ones_bit n j : 0 <= n -> 0 <= j -> Z.testbit (Z.ones n) j = (j <? n).
Proof. intros. apply Z.testbit_ones_nonneg; lia. Qed.

Lemma inw_merge r v m k w : inw 32 r -> 0 <= k -> inw w m -> w + k <= 32 ->
  inw 32 (Z.lor (Z.land r (Z.lxor 0xffffffff (Z.shiftl m k))) (Z.shiftl (Z.land v m) k)).
Proof.
  intros Hr Hk Hm Hw. apply inw_lor; [by apply inw_land_l|].
  pose proof (inw_nonneg_width _ _ Hm). apply (inw_mono (w + k)); [|lia]. apply inw_shiftl; [done|]. by apply inw_land_r.
Qed.

(** Byte registers: [AL CL DL BL] are the low bytes, [AH CH DH BH] the second ones. *)
Lemma lreg8_sreg8 c i j v : regs_ok c -> 0 <= i < 8 -> 0 <= j < 8 ->
  lreg8 j (sreg8 i v c) = if decide (j = i) then u8 v else lreg8 j c.
Proof.
  intros [Hl Hw] Hi Hj. unfold lreg8, sreg8.
  assert (Hcase : forall r v0 k k', inw 32 r -> (k = 0 \/ k = 8) -> (k' = 0 \/ k' = 8) ->
    u8 (Z.shiftr (Z.lor (Z.land r (Z.lxor 0xffffffff (Z.shiftl 0xff k))) (Z.shiftl (Z.land v0 0xff) k)) k') =
      if decide (k = k') then u8 v0 else u8 (Z.shiftr r k')).
  { intros r v0 k k' Hr Hk Hk'. unfold u8. apply (bits_ext 8); [lia|apply inw_mod; lia|destruct (decide (k = k')); apply inw_mod; lia|].
    intros n Hn. rewrite Z.mod_pow2_bits_low, Z.shiftr_spec, merge_bit by (done || lia).
    change 0xff with (Z.ones 8).
    destruct (decide (k = k')) as [->|Hne]; rewrite Z.mod_pow2_bits_low by lia.
    - replace (n + k' - k') with n by lia. rewrite ones_bit by lia.
      rewrite (proj2 (Z.leb_le 0 n)), (proj2 (Z.ltb_lt n 8)) by lia. done.
    - rewrite Z.shiftr_spec by lia. destruct (Z.leb_spec 0 (n + k' - k)); cbn [andb]; [|done].
      rewrite ones_bit by lia. destruct (Z.ltb_spec (n + k' - k) 8); [lia|done]. }
  destruct (Z.ltb_spec 3 i), (Z.ltb_spec 3 j); rewrite REGi_set by lia.
  - pose proof (Hcase (REGi c (i - 4)) v 8 8 ltac:(apply Hw; lia) ltac:(auto) ltac:(auto)) as E.
    destruct (decide (j - 4 = i - 4)), (decide (j = i)); try lia; exact E.
  - pose proof (Hcase (REGi c (i - 4)) v 8 0 ltac:(apply Hw; lia) ltac:(auto) ltac:(auto)) as E. rewrite !Z.shiftr_0_r in E.
    destruct (decide (j = i)); [lia|]. destruct (decide (j = i - 4)) as [->|]; [exact E|done].
  - pose proof (Hcase (REGi c i) v 0 8 ltac:(apply Hw; lia) ltac:(auto) ltac:(auto)) as E. rewrite !Z.shiftl_0_r in E.
    destruct (decide (j = i)); [lia|]. destruct (decide (j - 4 = i)) as [<-|]; [exact E|done].
  - pose proof (Hcase (REGi c i) v 0 0 ltac:(apply Hw; lia) ltac:(auto) ltac:(auto)) as E. rewrite !Z.shiftl_0_r, !Z.shiftr_0_r in E.
    destruct (decide (j = i)) as [->|]; [exact E|done].
Qed.
Lemma lreg16_sreg16 c i j v : regs_ok c -> 0 <= i < 8 -> 0 <= j < 8 ->
  lreg16 j (sreg16 i v c) = if decide (j = i) then u16 v else lreg16 j c.
Proof.
  intros [Hl Hw] Hi Hj. unfold lreg16, sreg16. rewrite REGi_set by done. destruct (decide (j = i)) as [->|]; [|done].
  unfold u16. apply (bits_ext 16); [lia|apply inw_mod; lia..|]. intros n Hn. rewrite !Z.mod_pow2_bits_low by lia.
  pose proof (merge_bit (REGi c i) v 0xffff 0 n ltac:(lia) (Hw i Hi)) as E. rewrite !Z.shiftl_0_r, Z.sub_0_r in E. rewrite E.
  change 0xffff with (Z.ones 16). rewrite ones_bit by lia. by rewrite (proj2 (Z.leb_le 0 n)), (proj2 (Z.ltb_lt n 16)) by lia.
Qed.
Lemma lreg32_sreg32 c i j v : regs_ok c -> 0 <= i < 8 -> 0 <= j < 8 ->
  lreg32 j (sreg32 i v c) = if decide (j = i) then u32 v else lreg32 j c.
Proof.
  intros [Hl Hw] Hi Hj. unfold lreg32, sreg32. rewrite REGi_set by done. destruct (decide (j = i)) as [->|]; [|done].
  unfold u32. apply (bits_ext 32); [lia|apply inw_mod; lia..|]. intros n Hn. rewrite !Z.mod_pow2_bits_low by lia.
  pose proof (merge_bit (REGi c i) v 0xffffffff 0 n ltac:(lia) (Hw i Hi)) as E. rewrite !Z.shiftl_0_r, Z.sub_0_r in E. rewrite E.
  change 0xffffffff with (Z.ones 32). rewrite ones_bit by lia. by rewrite (proj2 (Z.leb_le 0 n)), (proj2 (Z.ltb_lt n 32)) by lia.
Qed.
Lemma regs_ok_sreg16 c i v : regs_ok c -> 0 <= i < 8 -> regs_ok (sreg16 i v c).
Proof.
  intros Hr Hi. unfold sreg16. apply regs_ok_set; [done|done|].
  pose proof (inw_merge (REGi c i) v 0xffff 0 16 (ro_word c Hr i Hi)) as E. rewrite !Z.shiftl_0_r in E.
  apply E; try lia. split; vm_compute; congruence.
Qed.
Lemma regs_ok_sreg32 c i v : regs_ok c -> 0 <= i < 8 -> regs_ok (sreg32 i v c).
Proof.
  intros Hr Hi. unfold sreg32. apply regs_ok_set; [done|done|].
  pose proof (inw_merge (REGi c i) v 0xffffffff 0 32 (ro_word c Hr i Hi)) as E. rewrite !Z.shiftl_0_r in E.
  apply E; try lia. split; vm_compute; congruence.
Qed.
Lemma regs_ok_sreg8 c i v : regs_ok c -> 0 <= i < 8 -> regs_ok (sreg8 i v c).
Proof.
  intros Hr Hi. unfold sreg8. destruct (Z.ltb_spec 3 i).
  - apply regs_ok_set; [done|lia|]. pose proof (inw_merge (REGi c (i - 4)) v 0xff 8 8 (ro_word c Hr (i - 4) ltac:(lia))) as E.
    apply E; try lia. split; vm_compute; congruence.
  - apply regs_ok_set; [done|lia|]. pose proof (inw_merge (REGi c i) v 0xff 0 8 (ro_word c Hr i Hi)) as E.
    rewrite !Z.shiftl_0_r in E. apply E; try lia. split; vm_compute; congruence.
Qed.

End Registers.

(** ** Well-formed flag state

    The saved operands are machine words, and the carry is never left to a lazy
    INC or DEC, the case in which [get_CF] would abort. *)

Definition incdec (o : CcOp) : bool :=
  match o with CC_DEC8 | CC_DEC16 | CC_DEC32 | CC_INC8 | CC_INC16 | CC_INC32 => true | _ => false end.

Section Lazy.
Context {D : Type}.
Implicit Types c : CPUI386 D.

Record flags_ok c : Prop := {
  fo_flags : inw 32 (flags c);
  fo_dst : inw 32 (dst (cc c)); fo_dst2 : inw 32 (dst2 (cc c));
  fo_src1 : inw 32 (src1 (cc c)); fo_src2 : inw 32 (src2 (cc c));
  fo_cf : lazy c CF = true -> incdec (op (cc c)) = false;
}.

Lemma bool_val_eager c f : bool_val (eager c f).
Proof. apply bool_val_b2z. Qed.

Lemma get_CF_total c : flags_ok c -> exists v, get_CF c = Done v /\ bool_val v.
Proof.
  intros [_ _ Hd2 _ _ Hcf]. unfold get_CF, eager. destruct (lazy c CF); [|bool_val_tac].
  specialize (Hcf eq_refl). destruct (op (cc c)); try discriminate Hcf; bool_val_tac.
Qed.
Lemma get_OF_total c : flags_ok c -> exists v, get_OF c = Done v /\ bool_val v.
Proof.
  intros Hok. pose proof (get_CF_total c Hok) as Hcf. destruct Hok as [_ Hd Hd2 Hs1 Hs2 _].
  unfold get_OF, eager. destruct (lazy c OF); [|bool_val_tac].
  destruct (op (cc c)); try exact Hcf; bool_val_tac.
  destruct (bool_val_top _ Hd) as [-> | ->], (bool_val_bit (dst2 (cc c))) as [-> | ->]; first [by left|by right].
Qed.
Lemma parity_bool z : bool_val (arr parity_tab (Z.land z 0xff)).
Proof.
  rewrite land_255. pose proof (Z.mod_pos_bound z 256 ltac:(lia)) as Hb.
  assert (all_below 256 (fun z => (arr parity_tab z =? 0) || (arr parity_tab z =? 1)) = true) as Hall
    by (vm_compute; reflexivity).
  apply (all_below_spec _ _ (z mod 256)) in Hall; [|lia].
  apply orb_true_iff in Hall. rewrite !Z.eqb_eq in Hall. exact Hall.
Qed.
Lemma get_PF_bool c : bool_val (get_PF c).
Proof. unfold get_PF, eager. destruct (lazy c PF); [apply parity_bool|bool_val_tac]. Qed.
Lemma get_AF_bool c : bool_val (get_AF c).
Proof. unfold get_AF, eager. destruct (lazy c AF); [|bool_val_tac]. destruct (op (cc c)); bool_val_tac. Qed.
Lemma get_ZF_bool c : bool_val (get_ZF c).
Proof. unfold get_ZF, eager. bool_val_tac. Qed.
Lemma get_SF_bool c : flags_ok c -> bool_val (get_SF c).
Proof. intros [_ Hd _ _ _ _]. unfold get_SF, eager. bool_val_tac. Qed.

(** A getter reads the saved operation and its own bit. *)
Lemma eager_bit c i : 0 <= i -> eager c (Z.shiftl 1 i) = b2z (Z.testbit (flags c) i).
Proof. intros. unfold eager. by rewrite land_bit_nz. Qed.
Lemma eager_ext c c' i : 0 <= i -> Z.testbit (flags c') i = Z.testbit (flags c) i ->
  eager c' (Z.shiftl 1 i) = eager c (Z.shiftl 1 i).
Proof. intros. rewrite !eager_bit by done. congruence. Qed.
Lemma lazy_ext c c' f : cc c' = cc c -> lazy c' f = lazy c f.
Proof. unfold lazy. by intros ->. Qed.

Lemma get_CF_ext c c' : cc c' = cc c -> Z.testbit (flags c') 0 = Z.testbit (flags c) 0 -> get_CF c' = get_CF c.
Proof.
  intros Hc Hb. unfold get_CF. rewrite (lazy_ext c c') by done. rewrite Hc.
  change CF with (Z.shiftl 1 0). by rewrite (eager_ext c c') by (done || lia).
Qed.
Lemma get_PF_ext c c' : cc c' = cc c -> Z.testbit (flags c') 2 = Z.testbit (flags c) 2 -> get_PF c' = get_PF c.
Proof.
  intros Hc Hb. unfold get_PF. rewrite (lazy_ext c c') by done. rewrite Hc.
  change PF with (Z.shiftl 1 2). by rewrite (eager_ext c c') by (done || lia).
Qed.
Lemma get_AF_ext c c' : cc c' = cc c -> Z.testbit (flags c') 4 = Z.testbit (flags c) 4 -> get_AF c' = get_AF c.
Proof.
  intros Hc Hb. unfold get_AF. rewrite (lazy_ext c c') by done. rewrite Hc.
  change AF with (Z.shiftl 1 4). by rewrite (eager_ext c c') by (done || lia).
Qed.
Lemma get_ZF_ext c c' : cc c' = cc c -> Z.testbit (flags c') 6 = Z.testbit (flags c) 6 -> get_ZF c' = get_ZF c.
Proof.
  intros Hc Hb. unfold get_ZF. rewrite (lazy_ext c c') by done. rewrite Hc.
  change ZF with (Z.shiftl 1 6). by rewrite (eager_ext c c') by (done || lia).
Qed.
Lemma get_SF_ext c c' : cc c' = cc c -> Z.testbit (flags c') 7 = Z.testbit (flags c) 7 -> get_SF c' = get_SF c.
Proof.
  intros Hc Hb. unfold get_SF. rewrite (lazy_ext c c') by done. rewrite Hc.
  change SF with (Z.shiftl 1 7). by rewrite (eager_ext c c') by (done || lia).
Qed.
Lemma get_OF_ext c c' :
  cc c' = cc c -> get_CF c' = get_CF c -> Z.testbit (flags c') 11 = Z.testbit (flags c) 11 -> get_OF c' = get_OF c.
Proof.
  intros Hc Hcf Hb. unfold get_OF. rewrite (lazy_ext c c'), Hcf by done. rewrite Hc.
  change OF with (Z.shiftl 1 11). by rewrite (eager_ext c c') by (done || lia).
Qed.

(** The flag shown in bit [j], for the six arithmetic flags. *)
Definition is1 (o : outcome Z) : bool := match o with Done v => v =? 1 | Stuck _ => false end.
Definition arith_flag c (j : Z) : option bool :=
  if j =? 0 then Some (is1 (get_CF c)) else
  if j =? 2 then Some (get_PF c =? 1) else
  if j =? 4 then Some (get_AF c =? 1) else
  if j =? 6 then Some (get_ZF c =? 1) else
  if j =? 7 then Some (get_SF c =? 1) else
  if j =? 11 then Some (is1 (get_OF c)) else None.

(** The flags register a guest sees, bit by bit. *)
Definition eflag c (j : Z) : bool := default (Z.testbit (flags c) j) (arith_flag c j).

(** A carry already in its bit stays the carry. *)
Lemma get_CF_kept c w : flags_ok c -> Z.testbit w 0 = is1 (get_CF c) -> get_CF (c <| flags := w |>) = get_CF c.
Proof.
  intros Hok Hw. destruct (get_CF_total c Hok) as (v & E & Hb). rewrite E in *. rewrite <- E. cbn [is1] in Hw.
  unfold get_CF in *. rewrite (lazy_ext c _) by done. cbn [cc set_field]. destruct (lazy c CF) eqn:El; [done|].
  injection E as E. f_equal. change CF with (Z.shiftl 1 0) in *. rewrite !eager_bit in * by lia.
  cbn [flags set_field]. rewrite Hw, <- E. by destruct (Z.testbit (flags c) 0).
Qed.

(** [w] is the flags word of [c] with the flags of [ds] refreshed. *)
Definition partly c (ds : list Z) (w : Z) : Prop :=
  inw 32 w /\ forall j, 0 <= j -> Z.testbit w j = if decide (j ∈ ds) then eflag c j else Z.testbit (flags c) j.

Lemma partly_set c ds w i v : partly c ds w -> 0 <= i < 32 -> bool_val v -> eflag c i = (v =? 1) ->
  partly c (i :: ds) (SET_BIT w v (Z.shiftl 1 i)).
Proof.
  intros [Hw Hb] Hi Hv He. split; [by apply SET_BIT_inw, inw_bit|]. intros j Hj.
  rewrite SET_BIT_testbit by done. destruct (decide (j = i)) as [->|Hne].
  - rewrite decide_True by (apply list_elem_of_here). by rewrite He.
  - rewrite Hb by done. destruct (decide (j ∈ ds)).
    + by rewrite decide_True by (by apply list_elem_of_further).
    + rewrite decide_False; [done|]. rewrite elem_of_cons. tauto.
Qed.

Lemma partly_other c ds w i : partly c ds w -> 0 <= i -> i ∉ ds -> Z.testbit w i = Z.testbit (flags c) i.
Proof. intros [_ Hb] Hi Hn. rewrite Hb by done. by rewrite decide_False. Qed.

Ltac not_in := rewrite ?elem_of_cons, elem_of_nil; lia.

Lemma refresh_flags_spec c : flags_ok c ->
  exists w, refresh_flags c = Done (tt, c <| flags := w |>) /\ partly c [11; 7; 6; 4; 2; 0] w.
Proof.
  intros Hok. destruct (get_CF_total c Hok) as (cf & Ecf & Hcf). destruct (get_OF_total c Hok) as (o & Eo & Ho).
  assert (P0 : partly c [] (flags c)) by (split; [apply Hok|done]).
  pose proof (partly_set c _ _ 0 cf P0 ltac:(lia) Hcf) as P1.
  specialize (P1 ltac:(unfold eflag; cbn [arith_flag Z.eqb default is1]; by rewrite Ecf)).
  pose proof (partly_set c _ _ 2 _ P1 ltac:(lia) (get_PF_bool c) eq_refl) as P2.
  pose proof (partly_set c _ _ 4 _ P2 ltac:(lia) (get_AF_bool c) eq_refl) as P3.
  pose proof (partly_set c _ _ 6 _ P3 ltac:(lia) (get_ZF_bool c) eq_refl) as P4.
  pose proof (partly_set c _ _ 7 _ P4 ltac:(lia) (get_SF_bool c Hok) eq_refl) as P5.
  pose proof (partly_set c _ _ 11 o P5 ltac:(lia) Ho) as P6.
  specialize (P6 ltac:(unfold eflag; cbn [arith_flag Z.eqb default is1 Pos.eqb]; by rewrite Eo)).
  eexists. split; [|exact P6]. unfold refresh_flags, set_flag, lift.
  rewrite (st_bind_done _ _ c cf c) by (by rewrite Ecf).
  unfold mbind, ST_bind, modify, gets. cbn [fst snd].
  change CF with (Z.shiftl 1 0). change PF with (Z.shiftl 1 2). change AF with (Z.shiftl 1 4).
  change ZF with (Z.shiftl 1 6). change SF with (Z.shiftl 1 7). change OF with (Z.shiftl 1 11).
  cbn [flags set_field].
  rewrite (get_PF_ext c _) by (done || (apply (partly_other _ _ _ _ P1); [lia|not_in])).
  rewrite (get_AF_ext c _) by (done || (apply (partly_other _ _ _ _ P2); [lia|not_in])).
  rewrite (get_ZF_ext c _) by (done || (apply (partly_other _ _ _ _ P3); [lia|not_in])).
  rewrite (get_SF_ext c _) by (done || (apply (partly_other _ _ _ _ P4); [lia|not_in])).
  rewrite (get_OF_ext c _); [by rewrite Eo|done| |apply (partly_other _ _ _ _ P5); [lia|not_in]].
  lazymatch type of P5 with partly _ _ ?w => refine (get_CF_kept c w Hok _) end. destruct P5 as [_ P5]. rewrite P5 by lia. by rewrite decide_True by set_solver.
Qed.

(** ** Reading and writing the flags register *)

Definition arith_bits : list Z := [0; 2; 4; 6; 7; 11].

Lemma arith_flag_None c j : j ∉ arith_bits -> arith_flag c j = None.
Proof.
  unfold arith_bits. rewrite !elem_of_cons, elem_of_nil. intros Hj. unfold arith_flag.
  repeat (match goal with |- context [Z.eqb j ?k] => destruct (Z.eqb_spec j k); [tauto|] end). done.
Qed.

Lemma eflag_ext c c' j : cc c' = cc c -> flags c' = flags c -> eflag c' j = eflag c j.
Proof.
  intros Hc Hf. pose proof (get_CF_ext c c' Hc ltac:(by rewrite Hf)) as Ecf.
  unfold eflag, arith_flag. rewrite Hf, Ecf, (get_PF_ext c c'), (get_AF_ext c c'), (get_ZF_ext c c'), (get_SF_ext c c'),
    (get_OF_ext c c') by (done || by rewrite Hf). done.
Qed.

(** OF of a multiplication is its carry, so it needs the lazy carry. *)
Definition mul_op (o : CcOp) : bool :=
  match o with CC_IMUL8 | CC_IMUL16 | CC_IMUL32 | CC_MUL8 | CC_MUL16 | CC_MUL32 => true | _ => false end.
Definition mul_ok c : Prop := lazy c OF = true -> mul_op (op (cc c)) = true -> lazy c CF = true.

Lemma b2z_1 b : (b2z b =? 1) = b.
Proof. by destruct b. Qed.

Lemma eager_is c i : 0 <= i -> (eager c (Z.shiftl 1 i) =? 1) = Z.testbit (flags c) i.
Proof. intros. by rewrite eager_bit, b2z_1. Qed.

(** A flag comes from the saved operation when its mask bit is set, and from the
    flags word otherwise. *)
Lemma eflag_cases_gen c i : (i = 11 -> mul_ok c) -> i ∈ arith_bits ->
  eflag c i = if lazy c (Z.shiftl 1 i) then eflag (c <| flags := 0 |>) i else Z.testbit (flags c) i.
Proof.
  intros Hm Hi. unfold arith_bits in Hi. rewrite !elem_of_cons, elem_of_nil in Hi.
  destruct Hi as [-> |[-> |[-> |[-> |[-> |[-> |[]]]]]]]; unfold eflag; cbn [arith_flag Z.eqb Pos.eqb default].
  - unfold get_CF. change (lazy (c <| flags := 0 |>) CF) with (lazy c CF). change (Z.shiftl 1 0) with CF.
    destruct (lazy c CF); [done|]. by apply (eager_is c 0).
  - unfold get_PF. change (lazy (c <| flags := 0 |>) PF) with (lazy c PF). change (Z.shiftl 1 2) with PF.
    destruct (lazy c PF); [done|]. by apply (eager_is c 2).
  - unfold get_AF. change (lazy (c <| flags := 0 |>) AF) with (lazy c AF). change (Z.shiftl 1 4) with AF.
    destruct (lazy c AF); [done|]. by apply (eager_is c 4).
  - unfold get_ZF. change (lazy (c <| flags := 0 |>) ZF) with (lazy c ZF). change (Z.shiftl 1 6) with ZF.
    destruct (lazy c ZF); [done|]. by apply (eager_is c 6).
  - unfold get_SF. change (lazy (c <| flags := 0 |>) SF) with (lazy c SF). change (Z.shiftl 1 7) with SF.
    destruct (lazy c SF); [done|]. by apply (eager_is c 7).
  - unfold get_OF. change (lazy (c <| flags := 0 |>) OF) with (lazy c OF). change (Z.shiftl 1 11) with OF.
    cbn [cc set_field]. specialize (Hm eq_refl). unfold mul_ok in Hm. destruct (lazy c OF); [|by apply (eager_is c 11)].
    specialize (Hm eq_refl). destruct (op (cc c)) eqn:Eo; try done; cbn [mul_op] in Hm; specialize (Hm eq_refl);
      unfold get_CF; change (lazy (c <| flags := 0 |>) CF) with (lazy c CF); rewrite Hm; cbn [cc set_field]; by rewrite Eo.
Qed.

Lemma eflag_cases c i : mul_ok c -> i ∈ arith_bits ->
  eflag c i = if lazy c (Z.shiftl 1 i) then eflag (c <| flags := 0 |>) i else Z.testbit (flags c) i.
Proof. intros Hm. by apply eflag_cases_gen. Qed.
Lemma eflag_cases_but c i : i <> 11 -> i ∈ arith_bits ->
  eflag c i = if lazy c (Z.shiftl 1 i) then eflag (c <| flags := 0 |>) i else Z.testbit (flags c) i.
Proof. intros Hi. by apply eflag_cases_gen. Qed.

Lemma lazy_bit c i : 0 <= i -> lazy c (Z.shiftl 1 i) = Z.testbit (mask (cc c)) i.
Proof. intros. unfold lazy. by apply land_bit_nz. Qed.

Lemma arith_bits_range i : i ∈ arith_bits -> 0 <= i < 32.
Proof. unfold arith_bits. rewrite !elem_of_cons, elem_of_nil. lia. Qed.

Lemma mask_0_mul_ok c : mask (cc c) = 0 -> mul_ok c.
Proof. intros Hm. unfold mul_ok, lazy. by rewrite Hm. Qed.

Lemma eflag_eager c j : mask (cc c) = 0 -> 0 <= j -> eflag c j = Z.testbit (flags c) j.
Proof.
  intros Hm Hj. destruct (decide (j ∈ arith_bits)).
  - rewrite eflag_cases by (done || by apply mask_0_mul_ok). rewrite lazy_bit, Hm, Z.testbit_0_l by done. done.
  - unfold eflag. by rewrite arith_flag_None.
Qed.

(** The flags register with nothing left lazy. *)
Lemma settle_spec c : flags_ok c ->
  exists w, (_ ← refresh_flags; modify (set_mask 0)) c = Done (tt, set_mask 0 (c <| flags := w |>)) /\
    inw 32 w /\ forall j, 0 <= j -> Z.testbit w j = eflag c j.
Proof.
  intros Hok. destruct (refresh_flags_spec c Hok) as (w & E & Hw & Hb). exists w.
  split; [by rewrite (st_bind_done _ _ _ _ _ E)|]. split; [done|]. intros j Hj. rewrite Hb by done.
  destruct (decide (j ∈ _)) as [|Hn]; [done|]. unfold eflag. rewrite arith_flag_None; [done|].
  unfold arith_bits. rewrite !elem_of_cons, elem_of_nil in *. tauto.
Qed.

Lemma eflag_set_mask c w j : 0 <= j -> eflag (set_mask 0 (c <| flags := w |>)) j = Z.testbit w j.
Proof. intros. by rewrite eflag_eager. Qed.

(** The invariant is about the saved operation and the flags word only. *)
Lemma flags_ok_settled c w : flags_ok c -> inw 32 w -> flags_ok (set_mask 0 (c <| flags := w |>)).
Proof. intros [? ? ? ? ? ?] Hw. constructor; try done. Qed.

(** Reading the flags register: [cpu_getflags] returns the word whose six
    arithmetic bits are the six flags the getters show and whose other bits are
    those of [flags]; afterwards nothing is left lazy and every flag shows the
    same value. *)
Theorem getflags_exact c : flags_ok c ->
  exists w c', cpu_getflags c = Done (w, c') /\ flags_ok c' /\ mask (cc c') = 0 /\ flags c' = w /\
    (forall j, 0 <= j -> Z.testbit w j = eflag c j) /\ (forall j, 0 <= j -> eflag c' j = eflag c j).
Proof.
  intros Hok. unfold cpu_getflags. rewrite (st_bind_done _ _ c _ c eq_refl).
  destruct (nz (mask (cc c))) eqn:Em.
  - destruct (settle_spec c Hok) as (w & E & Hw & Hb). exists w. eexists. rewrite (st_bind_done _ _ _ _ _ E).
    split; [reflexivity|]. split; [by apply flags_ok_settled|]. split; [done|]. split; [done|]. split; [done|].
    intros j Hj. by rewrite eflag_set_mask, Hb.
  - apply negb_false_iff, Z.eqb_eq in Em. exists (flags c), c. split; [done|]. split; [done|]. split; [done|].
    split; [done|]. split; [|done]. intros j Hj. by rewrite eflag_eager.
Qed.

Lemma setflags_bits w set clear fm j : 0 <= j < 32 ->
  Z.testbit (Z.land (Z.land (Z.lor w set) (u32 (Z.lnot clear))) fm) j =
    (Z.testbit w j || Z.testbit set j) && negb (Z.testbit clear j) && Z.testbit fm j.
Proof.
  intros. rewrite !Z.land_spec, Z.lor_spec. unfold u32. by rewrite Z.mod_pow2_bits_low, Z.lnot_spec by lia.
Qed.

Lemma lazy_lor_false c s k i : lazy c (Z.lor s k) = false -> 0 <= i -> Z.testbit (mask (cc c)) i = true ->
  Z.testbit s i = false /\ Z.testbit k i = false.
Proof.
  intros Hl Hi Hm. unfold lazy, nz in Hl. apply negb_false_iff, Z.eqb_eq in Hl.
  pose proof (f_equal (fun z => Z.testbit z i) Hl) as Hb. cbn beta in Hb.
  rewrite Z.land_spec, Z.lor_spec, Hm, Z.testbit_0_l in Hb. by apply orb_false_iff in Hb.
Qed.

(** Writing flags: [cpu_setflags set clear] shows every flag of [set], none of
    [clear], and leaves the others as they were, whatever was still lazy; only
    bits of the CPU generation's EFLAGS mask survive. *)
Theorem setflags_exact c set clear :
  flags_ok c -> mul_ok c -> inw 32 set -> (forall i, i ∈ arith_bits -> Z.testbit (flags_mask c) i = true) ->
  inw 32 (flags_mask c) ->
  exists c', cpu_setflags set clear c = Done (tt, c') /\ flags_ok c' /\
    forall j, 0 <= j < 32 -> eflag c' j =
      (eflag c j || Z.testbit set j) && negb (Z.testbit clear j) && Z.testbit (flags_mask c) j.
Proof.
  intros Hok Hmul Hset Hfm Hfm32. unfold cpu_setflags. rewrite (st_bind_done _ _ c _ c eq_refl).
  set (out := fun w => Z.land (Z.land (Z.lor w set) (u32 (Z.lnot clear))) (flags_mask c)).
  assert (Hout : forall w, inw 32 (out w)) by (intros; unfold out; by apply inw_land_r).
  destruct (lazy c (Z.lor set clear)) eqn:El.
  - destruct (settle_spec c Hok) as (w & E & Hw & Hb). rewrite (st_bind_done _ _ _ _ _ E).
    eexists. split; [reflexivity|]. split; [exact (flags_ok_settled c (out w) Hok (Hout w))|].
    intros j Hj. change (eflag (set_mask 0 (c <| flags := out w |>)) j =
      (eflag c j || Z.testbit set j) && negb (Z.testbit clear j) && Z.testbit (flags_mask c) j).
    rewrite eflag_set_mask by lia. unfold out. by rewrite setflags_bits, Hb by lia.
  - eexists. split; [reflexivity|].
    split; [destruct Hok; constructor; try done; apply Hout|].
    intros j Hj. set (c' := c <| flags := out (flags c) |>). assert (Hm' : mul_ok c') by exact Hmul.
    change (eflag c' j = (eflag c j || Z.testbit set j) && negb (Z.testbit clear j) && Z.testbit (flags_mask c) j).
    destruct (decide (j ∈ arith_bits)) as [Hin|Hn].
    + rewrite (eflag_cases c' j), (eflag_cases c j) by done. rewrite !lazy_bit by lia. change (cc c') with (cc c).
      destruct (Z.testbit (mask (cc c)) j) eqn:Eb; [|exact (setflags_bits _ _ _ _ _ Hj)].
      destruct (lazy_lor_false _ _ _ j El) as [-> ->]; [lia|done|].
      rewrite (Hfm j Hin), orb_false_r, !andb_true_r. by apply eflag_ext.
    + unfold eflag. rewrite !arith_flag_None by done. exact (setflags_bits _ _ _ _ _ Hj).
Qed.

End Lazy.

(** A 386 after reset, with 64 bytes of memory, in the middle of an addition. *)
Definition raw_cpu (mem : list Z) : CPUI386 unit :=
  mkCPU [] 0 0 0 0 0 false 0 false None [] 0 0 0 0 0 0 0 (mkIf 0 0 0) [] [] (mkCC CC_ADC 0 0 0 0 0) [] mem 0 0 false
    [] 0 0 false false false false 0 0 0 tt.
Definition demo_cpu : CPUI386 unit :=
  match cpui386_new 3 (replicate 64 0) false false false (raw_cpu []) with Done c => c | Stuck _ => raw_cpu [] end.
Definition adding_cpu : CPUI386 unit :=
  demo_cpu <| cc := mkCC CC_ADD 0x10 0 0xffffffff 0x11 (Z.lor (Z.lor (Z.lor CF PF) (Z.lor AF ZF)) (Z.lor SF OF)) |>.

Lemma adding_ok : flags_ok adding_cpu.
Proof. constructor; first [by (unfold inw; cbn; lia) | done]. Qed.

Lemma getflags_exact_witness :
  flags_ok adding_cpu /\ exists w c', cpu_getflags adding_cpu = Done (w, c') /\ Z.testbit w 0 = eflag adding_cpu 0.
Proof.
  split; [exact adding_ok|]. destruct (getflags_exact adding_cpu adding_ok) as (w & c' & E & _ & _ & _ & Hw & _).
  exists w, c'. split; [exact E|]. apply Hw. lia.
Defined.

Lemma setflags_exact_witness :
  exists c', cpu_setflags ZF CF adding_cpu = Done (tt, c') /\ eflag c' 6 = true.
Proof.
  destruct (setflags_exact adding_cpu ZF CF adding_ok) as (c' & E & _ & Hb).
  - intros _ Hm. discriminate Hm.
  - split; vm_compute; congruence.
  - intros i Hi. unfold arith_bits in Hi. rewrite !elem_of_cons, elem_of_nil in Hi.
    by destruct Hi as [-> |[-> |[-> |[-> |[-> |[-> |[]]]]]]].
  - split; vm_compute; congruence.
  - exists c'. split; [exact E|]. rewrite Hb by lia. reflexivity.
Defined.

End I386.
