(* ===== verification/I386Alu.v ===== *)
(** * I386Alu: arithmetic and logic instructions (winspire/i386.c)

    The instruction macros ([ACOP_helper], [LOP_helper], [SHL_helper], ...) as
    functions of the CPU over abstract operands, and their results and flags
    against a reference x86 semantics over unbounded integers. *)

From S2P Require Import Prelude I386.

Module Alu.
Import I386.

(** ** Operands

    A macro receives for each operand a pair [la]/[sa] of accessors. *)

Record Operand (D : Type) := mkOperand {
  la : ST (CPUI386 D) Z;
  sa : Z -> ST (CPUI386 D) unit;
}.
Arguments mkOperand {D}. Arguments la {D} _. Arguments sa {D} _ _.

Section Operations.
Context {D : Type}.
Implicit Types c : CPUI386 D.
Implicit Types a b : Operand D.

Definition reg8 (i : Z) : Operand D := mkOperand (gets (lreg8 i)) (fun v => modify (sreg8 i v)).
Definition reg16 (i : Z) : Operand D := mkOperand (gets (lreg16 i)) (fun v => modify (sreg16 i v)).
Definition reg32 (i : Z) : Operand D := mkOperand (gets (lreg32 i)) (fun v => modify (sreg32 i v)).
(** [limm]: an immediate; nothing is ever stored in one. *)
Definition imm (v : Z) : Operand D := mkOperand (mret v) (fun _ => mret tt).

Definition set_cc (f : CC -> CC) : ST (CPUI386 D) unit := modify (fun c => c <| cc := f (cc c) |>).
Definition fetch_CF : ST (CPUI386 D) Z := fun c => lift (get_CF c) c.

Definition ARITH : Z := Z.lor (Z.lor (Z.lor (Z.lor (Z.lor CF PF) AF) ZF) SF) OF.
Definition LOGIC : Z := Z.lor (Z.lor (Z.lor (Z.lor CF PF) ZF) SF) OF.
Definition NO_CARRY : Z := Z.lor (Z.lor (Z.lor (Z.lor PF AF) ZF) SF) OF.

(** ADC and SBB: [f] is the C operator, [name1] the lazy operation when the
    carry is set, [name2] otherwise. *)
Definition ACOP_helper (name1 name2 : CcOp) (w : Z) (f : Z -> Z -> Z) a b : ST (CPUI386 D) unit :=
  cf ← fetch_CF;
  x ← la a; _ ← set_cc (fun k => k <| src1 := sext w x |>);
  y ← la b; _ ← set_cc (fun k => k <| src2 := sext w y |>);
  _ ← set_cc (fun k => k <| dst := sext w (u32 (f (f (src1 k) (src2 k)) cf)) |>);
  _ ← set_cc (fun k => k <| op := if nz cf then name1 else name2 |> <| mask := ARITH |>);
  d ← gets (fun c => dst (cc c)); sa a d.

(** ADD, SUB and, without the store, CMP *)
Definition AOP0_helper (name : CcOp) (w : Z) (f : Z -> Z -> Z) a b : ST (CPUI386 D) unit :=
  x ← la a; _ ← set_cc (fun k => k <| src1 := sext w x |>);
  y ← la b; _ ← set_cc (fun k => k <| src2 := sext w y |>);
  _ ← set_cc (fun k => k <| dst := sext w (u32 (f (src1 k) (src2 k))) |>);
  set_cc (fun k => k <| op := name |> <| mask := ARITH |>).
Definition AOP_helper (name : CcOp) (w : Z) (f : Z -> Z -> Z) a b : ST (CPUI386 D) unit :=
  _ ← AOP0_helper name w f a b; d ← gets (fun c => dst (cc c)); sa a d.

(** AND, OR, XOR and, without the store, TEST *)
Definition LOP0_helper (name : CcOp) (w : Z) (f : Z -> Z -> Z) a b : ST (CPUI386 D) unit :=
  x ← la a; y ← la b; _ ← set_cc (fun k => k <| dst := sext w (f x y) |>);
  set_cc (fun k => k <| op := name |> <| mask := LOGIC |>).
Definition LOP_helper (name : CcOp) (w : Z) (f : Z -> Z -> Z) a b : ST (CPUI386 D) unit :=
  _ ← LOP0_helper name w f a b; d ← gets (fun c => dst (cc c)); sa a d.

(** INC and DEC keep the carry, in the flags word. *)
Definition INCDEC_helper (name : CcOp) (w : Z) (f : Z -> Z -> Z) a : ST (CPUI386 D) unit :=
  cf ← fetch_CF;
  x ← la a; _ ← set_cc (fun k => k <| dst := sext w (u32 (f (sext w x) 1)) |>);
  _ ← set_cc (fun k => k <| op := name |>);
  _ ← set_flag CF cf;
  _ ← set_cc (fun k => k <| mask := NO_CARRY |>);
  d ← gets (fun c => dst (cc c)); sa a d.

Definition NEG_helper (name : CcOp) (w : Z) a : ST (CPUI386 D) unit :=
  x ← la a; _ ← set_cc (fun k => k <| src1 := sext w x |>);
  _ ← set_cc (fun k => k <| dst := sext w (u32 (- src1 k)) |>);
  _ ← set_cc (fun k => k <| op := name |> <| mask := ARITH |>);
  d ← gets (fun c => dst (cc c)); sa a d.

(** [NOTb] ... [NOTd] *)
Definition NOT_helper a : ST (CPUI386 D) unit := x ← la a; sa a (u32 (Z.lnot x)).

(** A compare or test followed by a short JZ or JNZ: the jump is taken here,
    when the instruction bytes are in the fetched page. *)
Definition try_jcc8 : ST (CPUI386 D) unit := fun c =>
  if nz (if_paddr (ifetch c)) then
    (o ← pload8 (if_paddr (ifetch c));
     if Z.land o (Z.lnot 1) =? 0x74 then
       if nz (Z.lxor (b2z (dst (cc c) =? 0)) (Z.land o 1)) then
         d ← pload8 (if_paddr (ifetch c) + 1);
         modify (fun c => c <| next_ip := u32 (next_ip c + sext8 d + 2) |>)
       else mret tt
     else mret tt) c
  else Done (tt, c).
Definition CMP_helper (name : CcOp) (w : Z) (f : Z -> Z -> Z) a b : ST (CPUI386 D) unit :=
  _ ← AOP0_helper name w f a b; try_jcc8.
Definition TEST_helper (name : CcOp) (w : Z) (f : Z -> Z -> Z) a b : ST (CPUI386 D) unit :=
  _ ← LOP0_helper name w f a b; try_jcc8.

(** [COND ()]: the sixteen condition codes. *)
Definition COND (b1 : Z) c : outcome bool :=
  let n := Z.land b1 0xf in
  if n =? 0x0 then o ← get_OF c; mret (nz o) else
  if n =? 0x1 then o ← get_OF c; mret (negb (nz o)) else
  if n =? 0x2 then cf ← get_CF c; mret (nz cf) else
  if n =? 0x3 then cf ← get_CF c; mret (negb (nz cf)) else
  if n =? 0x4 then mret (nz (get_ZF c)) else
  if n =? 0x5 then mret (negb (nz (get_ZF c))) else
  if n =? 0x6 then (if nz (get_ZF c) then mret true else cf ← get_CF c; mret (nz cf)) else
  if n =? 0x7 then (if nz (get_ZF c) then mret false else cf ← get_CF c; mret (negb (nz cf))) else
  if n =? 0x8 then mret (nz (get_SF c)) else
  if n =? 0x9 then mret (negb (nz (get_SF c))) else
  if n =? 0xa then mret (nz (get_PF c)) else
  if n =? 0xb then mret (negb (nz (get_PF c))) else
  if n =? 0xc then o ← get_OF c; mret (negb (get_SF c =? o)) else
  if n =? 0xd then o ← get_OF c; mret (get_SF c =? o) else
  if n =? 0xe then (if nz (get_ZF c) then mret true else o ← get_OF c; mret (negb (get_SF c =? o))) else
  (if nz (get_ZF c) then mret false else o ← get_OF c; mret (get_SF c =? o)).

(** [JCCb], [JCCw], [JCCd] and [SETCCb] *)
Definition cond_of (b1 : Z) : ST (CPUI386 D) bool := fun c => lift (COND b1 c) c.
Definition jump (d : Z) c : CPUI386 D := c <| next_ip := u32 (next_ip c + d) |>.
Definition JCCb (b1 i : Z) : ST (CPUI386 D) unit :=
  t ← cond_of b1; if t : bool then modify (jump (sext8 i)) else mret tt.
Definition JCCw (b1 i : Z) : ST (CPUI386 D) unit :=
  t ← cond_of b1;
  if t : bool then modify (fun c => c <| next_ip := Z.land (u32 (next_ip c + sext16 i)) 0xffff |>) else mret tt.
Definition JCCd (b1 i : Z) : ST (CPUI386 D) unit :=
  t ← cond_of b1; if t : bool then modify (jump (sext32 i)) else mret tt.
Definition SETCCb (b1 : Z) a : ST (CPUI386 D) unit := t ← cond_of b1; sa a (b2z t).

(** The instructions at each operand size. *)
Definition by_width (w : Z) (o8 o16 o32 : CcOp) : CcOp :=
  if w =? 8 then o8 else if w =? 16 then o16 else o32.
Definition ADC (w : Z) := ACOP_helper CC_ADC CC_ADD w Z.add.
Definition SBB (w : Z) := ACOP_helper CC_SBB CC_SUB w Z.sub.
Definition ADD (w : Z) := AOP_helper CC_ADD w Z.add.
Definition SUB (w : Z) := AOP_helper CC_SUB w Z.sub.
Definition OR (w : Z) := LOP_helper CC_OR w Z.lor.
Definition AND (w : Z) := LOP_helper CC_AND w Z.land.
Definition XOR (w : Z) := LOP_helper CC_XOR w Z.lxor.
Definition CMP (w : Z) := CMP_helper CC_SUB w Z.sub.
Definition TEST (w : Z) := TEST_helper CC_AND w Z.land.
Definition INC (w : Z) := INCDEC_helper (by_width w CC_INC8 CC_INC16 CC_INC32) w Z.add.
Definition DEC (w : Z) := INCDEC_helper (by_width w CC_DEC8 CC_DEC16 CC_DEC32) w Z.sub.
Definition NEG (w : Z) := NEG_helper (by_width w CC_NEG8 CC_NEG16 CC_NEG32) w.

End Operations.

(** * Reference semantics

    What the instruction set manual says, on unbounded integers: the result and
    the flags of an operation on [w]-bit operands; [None] is a flag the manual
    leaves undefined. *)

Record Ref := mkRef {
  r_res : Z; r_cf : bool; r_zf : bool; r_sf : bool; r_of : bool; r_pf : bool; r_af : option bool;
}.

Definition in_signed (w z : Z) : bool := (- 2 ^ (w - 1) <=? z) && (z <? 2 ^ (w - 1)).
(** Parity flag: an even number of ones in the low byte. *)
Definition even_parity (z : Z) : bool :=
  negb (foldr xorb false (map (Z.testbit z) [0; 1; 2; 3; 4; 5; 6; 7])).
Definition mk_result (w r : Z) (cf o : bool) (af : option bool) : Ref :=
  mkRef (r mod 2 ^ w) cf (r mod 2 ^ w =? 0) (Z.testbit r (w - 1)) o (even_parity r) af.

Definition ref_add (w x y ci : Z) : Ref :=
  mk_result w (x + y + ci) (2 ^ w <=? x + y + ci)
    (negb (in_signed w (sgn w x + sgn w y + ci))) (Some (16 <=? x mod 16 + y mod 16 + ci)).
Definition ref_sub (w x y ci : Z) : Ref :=
  mk_result w (x - y - ci) (x <? y + ci)
    (negb (in_signed w (sgn w x - sgn w y - ci))) (Some (x mod 16 <? y mod 16 + ci)).
Definition ref_logic (w r : Z) : Ref := mk_result w r false false None.
(** INC and DEC leave the carry alone. *)
Definition with_cf (cf : bool) (r : Ref) : Ref :=
  mkRef (r_res r) cf (r_zf r) (r_sf r) (r_of r) (r_pf r) (r_af r).

(** The CPU [c'] shows the flags of [r]; every other bit is that of [c]. *)
Definition flags_are {D} (c c' : CPUI386 D) (r : Ref) : Prop :=
  flags_ok c' /\ eflag c' 0 = r_cf r /\ eflag c' 2 = r_pf r /\ eflag c' 6 = r_zf r /\ eflag c' 7 = r_sf r /\
  eflag c' 11 = r_of r /\ (match r_af r with Some b => eflag c' 4 = b | None => True end) /\
  forall j, 0 <= j -> j ∉ arith_bits -> Z.testbit (flags c') j = Z.testbit (flags c) j.

(** The two differ in the flag state only. *)
Definition only_flags {D} (c c' : CPUI386 D) : Prop := c' = c <| cc := cc c' |> <| flags := flags c' |>.

(** An operand read without side effect, whatever the flag state. *)
Definition reads {D} (a : Operand D) (x : Z) (c : CPUI386 D) : Prop :=
  forall k f, la a (c <| cc := k |> <| flags := f |>) = Done (x, c <| cc := k |> <| flags := f |>).

(** ** Sign extension *)

(** An operand size. *)
Class OpSize (w : Z) : Prop := op_size : 8 <= w <= 32.
#[export] Instance op_size_8 : OpSize 8. Proof. unfold OpSize. lia. Qed.
#[export] Instance op_size_16 : OpSize 16. Proof. unfold OpSize. lia. Qed.
#[export] Instance op_size_32 : OpSize 32. Proof. unfold OpSize. lia. Qed.

Lemma pow2_half w : 0 < w -> 2 ^ w = 2 * 2 ^ (w - 1).
Proof. intros. rewrite <- Z.pow_succ_r by lia. f_equal. lia. Qed.

Section Sext.
Context (w : Z) `{OpSize w}.
Let Hw : 8 <= w <= 32 := op_size.

Lemma pow2_le_32 : 2 ^ w <= 2 ^ 32.
Proof. apply Z.pow_le_mono_r; lia. Qed.

Lemma sext_eq z : sext w z =
  if z mod 2 ^ w <? 2 ^ (w - 1) then z mod 2 ^ w else z mod 2 ^ w + (2 ^ 32 - 2 ^ w).
Proof.
  unfold sext, sgn, u32. pose proof pow2_le_32. pose proof (pow2_half w ltac:(lia)).
  pose proof (Z.mod_pos_bound z (2 ^ w) (pow2_pos w ltac:(lia))).
  cbv zeta. destruct (Z.ltb_spec (z mod 2 ^ w) (2 ^ (w - 1))).
  - apply Z.mod_small. lia.
  - replace (z mod 2 ^ w - 2 ^ w) with (z mod 2 ^ w + (2 ^ 32 - 2 ^ w) + (-1) * 2 ^ 32) by lia.
    rewrite Z.mod_add by lia. apply Z.mod_small. lia.
Qed.

Lemma inw_sext z : inw 32 (sext w z).
Proof. apply inw_u32. Qed.

(** It depends on the low bits only. *)
Lemma sext_mod z : sext w (z mod 2 ^ w) = sext w z.
Proof. rewrite !sext_eq. by rewrite Z.mod_mod by (pose proof (pow2_pos w); lia). Qed.
Lemma sext_u32 z : sext w (u32 z) = sext w z.
Proof. rewrite <- (sext_mod (u32 z)), <- (sext_mod z). unfold u32. by rewrite mod_mod_pow2 by lia. Qed.
Lemma sext_low z : sext w z mod 2 ^ w = z mod 2 ^ w.
Proof.
  rewrite sext_eq. pose proof (pow2_pos w ltac:(lia)). destruct (_ <? _); [by rewrite Z.mod_mod by lia|].
  replace (2 ^ 32 - 2 ^ w) with ((2 ^ (32 - w) - 1) * 2 ^ w).
  - rewrite Z.mod_add, Z.mod_mod by lia. done.
  - rewrite Z.mul_sub_distr_r, <- Z.pow_add_r by lia. replace (32 - w + w) with 32 by lia. lia.
Qed.
Lemma sext_congr y z : y mod 2 ^ w = z mod 2 ^ w -> sext w y = sext w z.
Proof. intros E. by rewrite <- sext_mod, E, sext_mod. Qed.
Lemma sext_shifted z : exists k, sext w z = z + k * 2 ^ w.
Proof.
  pose proof (sext_low z) as E. rewrite !Z.mod_eq in E by (pose proof (pow2_pos w); lia).
  exists (sext w z / 2 ^ w - z / 2 ^ w). lia.
Qed.
Lemma sext_add y z ci : sext w (sext w y + sext w z + ci) = sext w (y + z + ci).
Proof.
  apply sext_congr. destruct (sext_shifted y) as [ky ->], (sext_shifted z) as [kz ->].
  replace (y + ky * 2 ^ w + (z + kz * 2 ^ w) + ci) with (y + z + ci + (ky + kz) * 2 ^ w) by lia.
  by rewrite Z.mod_add by (pose proof (pow2_pos w); lia).
Qed.
Lemma sext_sub y z ci : sext w (sext w y - sext w z - ci) = sext w (y - z - ci).
Proof.
  apply sext_congr. destruct (sext_shifted y) as [ky ->], (sext_shifted z) as [kz ->].
  replace (y + ky * 2 ^ w - (z + kz * 2 ^ w) - ci) with (y - z - ci + (ky - kz) * 2 ^ w) by lia.
  by rewrite Z.mod_add by (pose proof (pow2_pos w); lia).
Qed.

Lemma sext_plus z k : sext w (sext w z + k) = sext w (z + k).
Proof.
  apply sext_congr. destruct (sext_shifted z) as [kz ->]. replace (z + kz * 2 ^ w + k) with (z + k + kz * 2 ^ w) by lia.
  by rewrite Z.mod_add by (pose proof (pow2_pos w); lia).
Qed.
Lemma sext_opp z : sext w (- sext w z) = sext w (- z).
Proof.
  apply sext_congr. destruct (sext_shifted z) as [kz ->]. replace (- (z + kz * 2 ^ w)) with (- z + (- kz) * 2 ^ w) by lia.
  by rewrite Z.mod_add by (pose proof (pow2_pos w); lia).
Qed.

(** Bits: the low ones are the value's, the others its sign. *)
Lemma sext_bit z j : 0 <= j < w -> Z.testbit (sext w z) j = Z.testbit z j.
Proof. intros. by rewrite <- (Z.mod_pow2_bits_low _ w), sext_low, Z.mod_pow2_bits_low by lia. Qed.
Lemma top_bit z : Z.testbit z (w - 1) = negb (z mod 2 ^ w <? 2 ^ (w - 1)).
Proof.
  rewrite <- (Z.mod_pow2_bits_low z w) by lia. pose proof (pow2_half w ltac:(lia)).
  pose proof (Z.mod_pos_bound z (2 ^ w) (pow2_pos w ltac:(lia))). set (r := z mod 2 ^ w) in *.
  rewrite Z.testbit_odd, Z.shiftr_div_pow2 by lia. destruct (Z.ltb_spec r (2 ^ (w - 1))).
  - by rewrite Z.div_small by lia.
  - replace (r / 2 ^ (w - 1)) with 1; [done|]. apply (Z.div_unique r (2 ^ (w - 1)) 1 (r - 2 ^ (w - 1))); lia.
Qed.
Lemma sext_sign z : Z.testbit (sext w z) 31 = Z.testbit z (w - 1).
Proof.
  rewrite top_bit, sext_eq. pose proof pow2_le_32. pose proof (pow2_half w ltac:(lia)).
  pose proof (Z.mod_pos_bound z (2 ^ w) (pow2_pos w ltac:(lia))).
  assert (2 ^ w <= 2 ^ 31 \/ w = 32) as Hc.
  { destruct (decide (w = 32)); [by right|left; apply Z.pow_le_mono_r; lia]. }
  assert (2 ^ (w - 1) <= 2 ^ 31) by (apply Z.pow_le_mono_r; lia).
  rewrite Z.testbit_odd, Z.shiftr_div_pow2 by lia. destruct (Z.ltb_spec (z mod 2 ^ w) (2 ^ (w - 1))).
  - by rewrite Z.div_small by lia.
  - match goal with |- Z.odd (?v / _) = _ => replace (v / 2 ^ 31) with 1; [done|];
      apply (Z.div_unique v (2 ^ 31) 1 (v - 2 ^ 31)); lia end.
Qed.
Lemma sext_top z : Z.shiftr (sext w z) 31 = b2z (Z.testbit z (w - 1)).
Proof.
  rewrite <- sext_sign. pose proof (inw_shiftr_to 1 31 (sext w z) ltac:(lia) ltac:(lia) (inw_sext z)) as Hi.
  rewrite Z.testbit_odd. unfold inw in Hi. assert (Z.shiftr (sext w z) 31 = 0 \/ Z.shiftr (sext w z) 31 = 1) as [-> | ->] by lia; done.
Qed.

(** Order: two [w]-bit values compare as their extensions. *)
Lemma sext_id z : inw w z -> sext w z = if z <? 2 ^ (w - 1) then z else z + (2 ^ 32 - 2 ^ w).
Proof. intros Hz. rewrite sext_eq. by rewrite (Z.mod_small z) by exact Hz. Qed.
Lemma sext_ltb y z : inw w y -> inw w z -> (sext w y <? sext w z) = (y <? z).
Proof.
  intros Hy Hz. rewrite !sext_id by done. pose proof pow2_le_32. unfold inw in *.
  destruct (Z.ltb_spec y (2 ^ (w - 1))), (Z.ltb_spec z (2 ^ (w - 1))), (Z.ltb_spec y z);
    first [done | apply Z.ltb_lt; lia | apply Z.ltb_ge; lia].
Qed.
Lemma sext_leb y z : inw w y -> inw w z -> (sext w y <=? sext w z) = (y <=? z).
Proof. intros. by rewrite !Z.leb_antisym, sext_ltb. Qed.
Lemma sext_eqb y z : inw w y -> inw w z -> (sext w y =? sext w z) = (y =? z).
Proof.
  intros Hy Hz. rewrite !sext_id by done. pose proof pow2_le_32. unfold inw in *.
  destruct (Z.ltb_spec y (2 ^ (w - 1))), (Z.ltb_spec z (2 ^ (w - 1))), (Z.eqb_spec y z);
    first [done | apply Z.eqb_eq; lia | apply Z.eqb_neq; lia].
Qed.
Lemma sext_zero z : (sext w z =? 0) = (z mod 2 ^ w =? 0).
Proof.
  rewrite <- sext_mod. assert (E : sext w 0 = 0).
  { rewrite sext_id by (split; [lia|apply pow2_pos; lia]). pose proof (pow2_pos (w - 1)).
    destruct (Z.ltb_spec 0 (2 ^ (w - 1))); lia. }
  rewrite <- E at 1. apply sext_eqb; [apply inw_mod; lia|split; [lia|apply pow2_pos; lia]].
Qed.

(** A value in the signed range is its own reading. *)
Lemma sgn_range_id v : - 2 ^ (w - 1) <= v < 2 ^ (w - 1) -> sgn w v = v.
Proof.
  intros Hv. pose proof (pow2_half w ltac:(lia)). unfold sgn. cbv zeta.
  destruct (Z.ltb_spec v 0).
  - assert (v mod 2 ^ w = v + 2 ^ w) as -> by (symmetry; apply (Z.mod_unique v (2 ^ w) (-1)); lia).
    destruct (Z.ltb_spec (v + 2 ^ w) (2 ^ (w - 1))); lia.
  - rewrite Z.mod_small by lia. destruct (Z.ltb_spec v (2 ^ (w - 1))); lia.
Qed.
Lemma s32_sext x : s32 (sext w x) = sgn w x.
Proof.
  pose proof (sgn_range w x ltac:(lia)).
  assert (2 ^ (w - 1) <= 2 ^ 31) by (apply Z.pow_le_mono_r; lia).
  assert (E : sgn 32 (sgn w x) = sgn w x).
  { unfold sgn at 1. cbv zeta. change (2 ^ (32 - 1)) with (2 ^ 31). destruct (Z.ltb_spec (sgn w x) 0).
    - assert (sgn w x mod 2 ^ 32 = sgn w x + 2 ^ 32) as -> by (symmetry; apply (Z.mod_unique _ (2 ^ 32) (-1)); lia).
      destruct (Z.ltb_spec (sgn w x + 2 ^ 32) (2 ^ 31)); lia.
    - rewrite (Z.mod_small (sgn w x)) by lia. destruct (Z.ltb_spec (sgn w x) (2 ^ 31)); lia. }
  transitivity (sgn 32 (sgn w x)); [|exact E]. unfold s32, sext, u32, sgn at 1 3. by rewrite Z.mod_mod by lia.
Qed.

(** The sign, as a value. *)
Lemma sgn_sign z : inw w z -> sgn w z = z - b2z (Z.testbit z (w - 1)) * 2 ^ w.
Proof.
  intros Hz. rewrite top_bit. unfold sgn. rewrite (Z.mod_small z) by exact Hz.
  cbv zeta. destruct (z <? 2 ^ (w - 1)); cbn [negb b2z]; lia.
Qed.

End Sext.

(** ** The flag formulas *)

Lemma top31 v : inw 32 v -> Z.shiftr v 31 = b2z (Z.testbit v 31).
Proof.
  intros Hv. rewrite Z.testbit_odd. destruct (bool_val_top v Hv) as [-> | ->]; done.
Qed.
Lemma low1 v : Z.land v 1 = b2z (Z.odd v).
Proof. change 1 with (2 ^ 1 - 1). rewrite land_ones_mod by lia. change (2 ^ 1) with 2. by rewrite Zmod_odd. Qed.
Lemma bit4 v : Z.testbit v 4 = Z.odd (v / 16).
Proof. rewrite Z.testbit_odd, Z.shiftr_div_pow2 by lia. done. Qed.

Lemma even_parity_low z : even_parity (z mod 256) = even_parity z.
Proof.
  unfold even_parity. cbn [map foldr]. change 256 with (2 ^ 8). rewrite !Z.mod_pow2_bits_low by lia. done.
Qed.
Lemma parity_tab_spec z : (arr parity_tab (Z.land z 0xff) =? 1) = even_parity z.
Proof.
  rewrite land_255, <- even_parity_low. apply eqb_true_iff.
  apply (all_below_spec 256 (fun z => eqb (arr parity_tab z =? 1) (even_parity z))); [vm_compute; reflexivity|].
  apply Z.mod_pos_bound. lia.
Qed.

Section Formulas.
Context (w : Z) `{OpSize w}.
Let Hw : 8 <= w <= 32 := op_size.
Context (x y : Z) (Hx : inw w x) (Hy : inw w y) (ci : bool).

Lemma sum_mod s : 0 <= s < 2 * 2 ^ w -> s mod 2 ^ w = if 2 ^ w <=? s then s - 2 ^ w else s.
Proof.
  intros Hs. destruct (Z.leb_spec (2 ^ w) s); [|apply Z.mod_small; lia].
  symmetry. apply (Z.mod_unique s (2 ^ w) 1); lia.
Qed.
Lemma diff_mod s : - 2 ^ w <= s < 2 ^ w -> s mod 2 ^ w = if s <? 0 then s + 2 ^ w else s.
Proof.
  intros Hs. destruct (Z.ltb_spec s 0); [|apply Z.mod_small; lia].
  symmetry. apply (Z.mod_unique s (2 ^ w) (-1)); lia.
Qed.
Lemma inw_modw z : inw w (z mod 2 ^ w).
Proof. apply inw_mod. lia. Qed.

Lemma add_carry :
  (if ci then sext w (x + y + 1) <=? sext w y else sext w (x + y + 0) <? sext w y) = (2 ^ w <=? x + y + b2z ci).
Proof.
  unfold inw in *. destruct ci; cbn [b2z]; rewrite <- sext_mod by done;
    [rewrite sext_leb by (done || apply inw_modw)|rewrite sext_ltb by (done || apply inw_modw)];
    rewrite sum_mod by lia.
  - destruct (Z.leb_spec (2 ^ w) (x + y + 1)); [apply Z.leb_le|apply Z.leb_gt]; lia.
  - destruct (Z.leb_spec (2 ^ w) (x + y + 0)); [apply Z.ltb_lt|apply Z.ltb_ge]; lia.
Qed.
Lemma sub_borrow : (if ci then sext w x <=? sext w y else sext w x <? sext w y) = (x <? y + b2z ci).
Proof.
  destruct ci; cbn [b2z]; [rewrite sext_leb by done|rewrite sext_ltb by done].
  - destruct (Z.leb_spec x y); [symmetry; apply Z.ltb_lt|symmetry; apply Z.ltb_ge]; lia.
  - by rewrite Z.add_0_r.
Qed.

Lemma aux_bits d : Z.land (Z.shiftr (Z.lxor (Z.lxor (sext w x) (sext w y)) (sext w d)) 4) 1 =
  b2z (xorb (xorb (Z.testbit x 4) (Z.testbit y 4)) (Z.testbit d 4)).
Proof.
  rewrite low1, <- Z.bit0_odd, Z.shiftr_spec, !Z.lxor_spec by lia. by rewrite !(sext_bit w) by lia.
Qed.
Lemma add_aux : xorb (xorb (Z.testbit x 4) (Z.testbit y 4)) (Z.testbit (x + y + b2z ci) 4) =
  (16 <=? x mod 16 + y mod 16 + b2z ci).
Proof.
  rewrite !bit4. pose proof (Z.div_mod x 16 ltac:(lia)) as Ex. pose proof (Z.div_mod y 16 ltac:(lia)) as Ey.
  pose proof (Z.mod_pos_bound x 16 ltac:(lia)). pose proof (Z.mod_pos_bound y 16 ltac:(lia)).
  remember (x mod 16 + y mod 16 + b2z ci) as l eqn:El.
  replace ((x + y + b2z ci) / 16) with (x / 16 + y / 16 + b2z (16 <=? l)).
  - rewrite !Z.odd_add. destruct (16 <=? l); cbn [b2z]; destruct (Z.odd (x / 16)), (Z.odd (y / 16)); done.
  - apply (Z.div_unique _ 16 _ (l - 16 * b2z (16 <=? l))); destruct ci; cbn [b2z] in *;
      destruct (Z.leb_spec 16 l); cbn [b2z]; lia.
Qed.
Lemma sub_aux : xorb (xorb (Z.testbit x 4) (Z.testbit y 4)) (Z.testbit (x - y - b2z ci) 4) =
  (x mod 16 <? y mod 16 + b2z ci).
Proof.
  rewrite !bit4. pose proof (Z.div_mod x 16 ltac:(lia)) as Ex. pose proof (Z.div_mod y 16 ltac:(lia)) as Ey.
  pose proof (Z.mod_pos_bound x 16 ltac:(lia)). pose proof (Z.mod_pos_bound y 16 ltac:(lia)).
  set (bw := x mod 16 <? y mod 16 + b2z ci).
  replace ((x - y - b2z ci) / 16) with (x / 16 - y / 16 - b2z bw).
  - rewrite !Z.odd_sub. destruct bw; cbn [b2z]; destruct (Z.odd (x / 16)), (Z.odd (y / 16)); done.
  - apply (Z.div_unique _ 16 _ (x mod 16 - y mod 16 - b2z ci + 16 * b2z bw)); subst bw; destruct ci; cbn [b2z] in *;
      match goal with |- context [?p <? ?q] => destruct (Z.ltb_spec p q) end; cbn [b2z]; lia.
Qed.

(** Overflow, from the three signs. *)
Lemma add_signs : negb (xorb (Z.testbit x (w - 1)) (Z.testbit y (w - 1))) &&
    xorb (Z.testbit (x + y + b2z ci) (w - 1)) (Z.testbit y (w - 1)) =
  negb (in_signed w (sgn w x + sgn w y + b2z ci)).
Proof.
  unfold in_signed. rewrite !sgn_sign, !top_bit, !(Z.mod_small x), !(Z.mod_small y) by done.
  pose proof (pow2_half w ltac:(lia)). unfold inw in *. rewrite sum_mod by (destruct ci; cbn [b2z]; lia).
  destruct ci; cbn [b2z]; repeat match goal with |- context [Z.leb ?p ?q] => destruct (Z.leb_spec p q)
    | |- context [Z.ltb ?p ?q] => destruct (Z.ltb_spec p q) end; cbn [negb andb orb xorb b2z] in *; first [done | exfalso; lia].
Qed.
Lemma sub_signs : xorb (Z.testbit x (w - 1)) (Z.testbit y (w - 1)) &&
    xorb (Z.testbit (x - y - b2z ci) (w - 1)) (Z.testbit x (w - 1)) =
  negb (in_signed w (sgn w x - sgn w y - b2z ci)).
Proof.
  unfold in_signed. rewrite !sgn_sign, !top_bit, !(Z.mod_small x), !(Z.mod_small y) by done.
  pose proof (pow2_half w ltac:(lia)). unfold inw in *. rewrite diff_mod by (destruct ci; cbn [b2z]; lia).
  destruct ci; cbn [b2z]; match goal with |- context [?s <? 0] => destruct (Z.ltb_spec s 0) end;
    repeat match goal with |- context [Z.leb ?p ?q] => destruct (Z.leb_spec p q)
    | |- context [Z.ltb ?p ?q] => destruct (Z.ltb_spec p q) end; cbn [negb andb orb xorb b2z] in *; first [done | exfalso; lia].
Qed.

Lemma add_over : Z.shiftr (Z.land (u32 (Z.lnot (Z.lxor (sext w x) (sext w y))))
    (Z.lxor (sext w (x + y + b2z ci)) (sext w y))) 31 = b2z (negb (in_signed w (sgn w x + sgn w y + b2z ci))).
Proof.
  rewrite top31 by (apply inw_land_l, inw_u32). rewrite <- add_signs. rewrite Z.land_spec. unfold u32.
  rewrite Z.mod_pow2_bits_low, Z.lnot_spec, !Z.lxor_spec by lia. by rewrite !sext_sign.
Qed.
Lemma sub_over : Z.shiftr (Z.land (Z.lxor (sext w x) (sext w y))
    (Z.lxor (sext w (x - y - b2z ci)) (sext w x))) 31 = b2z (negb (in_signed w (sgn w x - sgn w y - b2z ci))).
Proof.
  rewrite top31 by (apply inw_land_l, inw_lxor; apply inw_u32). rewrite <- sub_signs.
  rewrite Z.land_spec, !Z.lxor_spec. by rewrite !sext_sign.
Qed.

End Formulas.

(** ** What a saved operation shows *)

Section Shown.
Context {D : Type}.
Implicit Types c : CPUI386 D.

Lemma cpu_eta c : c <| cc := cc c |> <| flags := flags c |> = c.
Proof. by destruct c. Qed.
Lemma only_flags_cc c k : only_flags c (c <| cc := k |>).
Proof. reflexivity. Qed.
Lemma only_flags_both c k f : only_flags c (c <| cc := k |> <| flags := f |>).
Proof. reflexivity. Qed.

(** Reading an operand before and after the flag state changes. *)
Lemma reads_here (a : Operand D) x c : reads a x c -> la a c = Done (x, c).
Proof. intros Hr. rewrite <- (cpu_eta c) at 1 2. apply Hr. Qed.
Lemma reads_cc (a : Operand D) x c k : reads a x c -> la a (c <| cc := k |>) = Done (x, c <| cc := k |>).
Proof. intros Hr. apply (Hr k (flags c)). Qed.
Lemma reads_reg (g : Z -> CPUI386 D -> Z) st i c :
  (forall k f, g i (c <| cc := k |> <| flags := f |>) = g i c) -> reads (mkOperand (gets (g i)) st) (g i c) c.
Proof. intros Hg k f. cbn [la]. unfold gets. by rewrite Hg. Qed.
Lemma reads_reg8 i c : reads (reg8 i) (lreg8 i c) c.
Proof. by apply reads_reg. Qed.
Lemma reads_reg16 i c : reads (reg16 i) (lreg16 i c) c.
Proof. by apply reads_reg. Qed.
Lemma reads_reg32 i c : reads (reg32 i) (lreg32 i c) c.
Proof. by apply reads_reg. Qed.
Lemma reads_imm v c : reads (imm v) v c.
Proof. done. Qed.

Lemma even_parity_sext w z `{OpSize w} : even_parity (sext w z) = even_parity z.
Proof.
  assert (8 <= w <= 32) by done. unfold even_parity. cbn [map foldr]. by rewrite !(sext_bit w) by lia.
Qed.

Lemma lazy_on c i : 0 <= i -> Z.testbit (mask (cc c)) i = true -> lazy c (Z.shiftl 1 i) = true.
Proof. intros. by rewrite lazy_bit. Qed.

(** PF, ZF and SF of a lazily kept result. *)
Lemma shown_result w z c `{OpSize w} :
  dst (cc c) = sext w z -> Z.testbit (mask (cc c)) 2 = true -> Z.testbit (mask (cc c)) 6 = true ->
  Z.testbit (mask (cc c)) 7 = true ->
  eflag c 2 = even_parity z /\ eflag c 6 = (z mod 2 ^ w =? 0) /\ eflag c 7 = Z.testbit z (w - 1).
Proof.
  intros Hd H2 H6 H7. unfold eflag; cbn [arith_flag Z.eqb Pos.eqb default].
  unfold get_PF, get_ZF, get_SF. change PF with (Z.shiftl 1 2). change ZF with (Z.shiftl 1 6). change SF with (Z.shiftl 1 7).
  rewrite !lazy_on, Hd by done. rewrite parity_tab_spec, even_parity_sext by done.
  split; [done|]. split; [by rewrite b2z_1, sext_zero|]. by rewrite (sext_top w), b2z_1.
Qed.

(** CF, AF and OF of one, by evaluation of the getters. *)
Ltac show_lazy Hk :=
  unfold eflag; cbn [arith_flag Z.eqb Pos.eqb default]; unfold get_CF, get_AF, get_OF, lazy; rewrite ?Hk;
  cbn [mask op dst dst2 src1 src2].

Lemma shown_add w x y ci c d2 `{OpSize w} : inw w x -> inw w y ->
  cc c = mkCC (if ci : bool then CC_ADC else CC_ADD) (sext w (x + y + b2z ci)) d2 (sext w x) (sext w y) ARITH ->
  eflag c 0 = r_cf (ref_add w x y (b2z ci)) /\ Some (eflag c 4) = r_af (ref_add w x y (b2z ci)) /\
  eflag c 11 = r_of (ref_add w x y (b2z ci)).
Proof.
  intros Hx Hy Hk. unfold ref_add, mk_result. cbn [r_cf r_af r_of].
  assert (8 <= w <= 32) by done.
  split; [|split].
  - rewrite <- (add_carry w x y Hx Hy ci). show_lazy Hk.
    change (nz (Z.land ARITH CF)) with true. cbv iota. destruct ci; cbn [is1 b2z]; by rewrite b2z_1.
  - rewrite <- (add_aux x y ci). show_lazy Hk. change (nz (Z.land ARITH AF)) with true. cbv iota.
    destruct ci; cbn [id]; by rewrite (aux_bits w), b2z_1.
  - show_lazy Hk. change (nz (Z.land ARITH OF)) with true. cbv iota.
    destruct ci; cbn [is1 id]; by rewrite (add_over w x y Hx Hy), b2z_1.
Qed.

Lemma shown_sub w x y ci c d2 `{OpSize w} : inw w x -> inw w y ->
  cc c = mkCC (if ci : bool then CC_SBB else CC_SUB) (sext w (x - y - b2z ci)) d2 (sext w x) (sext w y) ARITH ->
  eflag c 0 = r_cf (ref_sub w x y (b2z ci)) /\ Some (eflag c 4) = r_af (ref_sub w x y (b2z ci)) /\
  eflag c 11 = r_of (ref_sub w x y (b2z ci)).
Proof.
  intros Hx Hy Hk. unfold ref_sub, mk_result. cbn [r_cf r_af r_of].
  assert (8 <= w <= 32) by done.
  split; [|split].
  - rewrite <- (sub_borrow w x y Hx Hy ci). show_lazy Hk.
    change (nz (Z.land ARITH CF)) with true. cbv iota. destruct ci; cbn [is1]; by rewrite b2z_1.
  - rewrite <- (sub_aux x y ci). show_lazy Hk. change (nz (Z.land ARITH AF)) with true. cbv iota.
    destruct ci; cbn [id]; by rewrite (aux_bits w), b2z_1.
  - show_lazy Hk. change (nz (Z.land ARITH OF)) with true. cbv iota.
    destruct ci; cbn [is1 id]; by rewrite (sub_over w x y Hx Hy), b2z_1.
Qed.

End Shown.

(** ** Running the helpers *)

Section Run.
Context {D : Type}.
Implicit Types (c : CPUI386 D) (a b : Operand D).

Lemma bind_set_cc {B} f (k : unit -> ST (CPUI386 D) B) c : (set_cc f ≫= k) c = k tt (c <| cc := f (cc c) |>).
Proof. reflexivity. Qed.

Lemma AOP0_eval name w f a b x y c : reads a x c -> reads b y c ->
  AOP0_helper name w f a b c =
    Done (tt, c <| cc := mkCC name (sext w (u32 (f (sext w x) (sext w y)))) (dst2 (cc c)) (sext w x) (sext w y) ARITH |>).
Proof.
  intros Ha Hb. unfold AOP0_helper. rewrite (st_bind_done _ _ _ _ _ (reads_here _ _ _ Ha)). rewrite bind_set_cc. cbv beta.
  by rewrite (st_bind_done _ _ _ _ _ (reads_cc _ _ _ _ Hb)).
Qed.
Lemma ACOP_eval n1 n2 w f a b x y cf c : reads a x c -> reads b y c -> get_CF c = Done cf ->
  ACOP_helper n1 n2 w f a b c =
    sa a (sext w (u32 (f (f (sext w x) (sext w y)) cf)))
      (c <| cc := mkCC (if nz cf then n1 else n2) (sext w (u32 (f (f (sext w x) (sext w y)) cf)))
                    (dst2 (cc c)) (sext w x) (sext w y) ARITH |>).
Proof.
  intros Ha Hb Hcf. unfold ACOP_helper.
  rewrite (st_bind_done _ _ c cf c) by (unfold fetch_CF, lift; by rewrite Hcf).
  rewrite (st_bind_done _ _ _ _ _ (reads_here _ _ _ Ha)). rewrite bind_set_cc. cbv beta.
  by rewrite (st_bind_done _ _ _ _ _ (reads_cc _ _ _ _ Hb)).
Qed.
Lemma LOP0_eval name w f a b x y c : reads a x c -> reads b y c ->
  LOP0_helper name w f a b c =
    Done (tt, c <| cc := mkCC name (sext w (f x y)) (dst2 (cc c)) (src1 (cc c)) (src2 (cc c)) LOGIC |>).
Proof.
  intros Ha Hb. unfold LOP0_helper. rewrite (st_bind_done _ _ _ _ _ (reads_here _ _ _ Ha)).
  by rewrite (st_bind_done _ _ _ _ _ (reads_here _ _ _ Hb)).
Qed.
Lemma NEG_eval name w a x c : reads a x c ->
  NEG_helper name w a c =
    sa a (sext w (u32 (- sext w x)))
      (c <| cc := mkCC name (sext w (u32 (- sext w x))) (dst2 (cc c)) (sext w x) (src2 (cc c)) ARITH |>).
Proof. intros Ha. unfold NEG_helper. by rewrite (st_bind_done _ _ _ _ _ (reads_here _ _ _ Ha)). Qed.
Lemma INCDEC_eval name w f a x cf c : reads a x c -> get_CF c = Done cf ->
  INCDEC_helper name w f a c =
    sa a (sext w (u32 (f (sext w x) 1)))
      (c <| cc := mkCC name (sext w (u32 (f (sext w x) 1))) (dst2 (cc c)) (src1 (cc c)) (src2 (cc c)) NO_CARRY |>
         <| flags := SET_BIT (flags c) cf CF |>).
Proof.
  intros Ha Hcf. unfold INCDEC_helper.
  rewrite (st_bind_done _ _ c cf c) by (unfold fetch_CF, lift; by rewrite Hcf).
  by rewrite (st_bind_done _ _ _ _ _ (reads_here _ _ _ Ha)).
Qed.

Lemma flags_ok_cc c k : flags_ok c -> inw 32 (dst k) -> inw 32 (dst2 k) -> inw 32 (src1 k) -> inw 32 (src2 k) ->
  incdec (op k) = false -> flags_ok (c <| cc := k |>).
Proof. intros [? ? ? ? ? ?] ? ? ? ? Hi. by constructor. Qed.

(** The flags of a saved operation, all together. *)
Lemma flags_are_lazy w z c c' cf o af `{OpSize w} :
  flags_ok c' -> dst (cc c') = sext w z ->
  (forall j, 0 <= j -> j ∉ arith_bits -> Z.testbit (flags c') j = Z.testbit (flags c) j) ->
  (forall i, i ∈ [2; 6; 7] -> Z.testbit (mask (cc c')) i = true) ->
  eflag c' 0 = cf -> eflag c' 11 = o -> (match af with Some b => eflag c' 4 = b | None => True end) ->
  flags_are c c' (mk_result w z cf o af).
Proof.
  intros Hok Hd Hf Hm H0 H11 H4.
  destruct (shown_result w z c' Hd) as (E2 & E6 & E7); [apply Hm; set_solver..|].
  unfold flags_are, mk_result; cbn. split; [done|]. split; [done|]. split; [done|]. split; [done|]. split; [done|].
  split; [done|]. split; [done|]. exact Hf.
Qed.

End Run.

(** ** The two-operand instructions against the reference *)

Inductive binop : Set := OpADD | OpADC | OpSUB | OpSBB | OpAND | OpOR | OpXOR.
Definition run_binop {D} (o : binop) (w : Z) : Operand D -> Operand D -> ST (CPUI386 D) unit :=
  match o with
  | OpADD => ADD w | OpADC => ADC w | OpSUB => SUB w | OpSBB => SBB w
  | OpAND => AND w | OpOR => OR w | OpXOR => XOR w
  end.
Definition ref_binop (o : binop) (w x y : Z) (carry : bool) : Ref :=
  match o with
  | OpADD => ref_add w x y 0 | OpADC => ref_add w x y (b2z carry)
  | OpSUB => ref_sub w x y 0 | OpSBB => ref_sub w x y (b2z carry)
  | OpAND => ref_logic w (Z.land x y) | OpOR => ref_logic w (Z.lor x y) | OpXOR => ref_logic w (Z.lxor x y)
  end.

Section Reference.
Context {D : Type} (w : Z) `{OpSize w}.
Implicit Types (c : CPUI386 D) (a b : Operand D).

Definition add_cc (ci : bool) (x y d2 : Z) : CC :=
  mkCC (if ci then CC_ADC else CC_ADD) (sext w (x + y + b2z ci)) d2 (sext w x) (sext w y) ARITH.
Definition sub_cc (ci : bool) (x y d2 : Z) : CC :=
  mkCC (if ci then CC_SBB else CC_SUB) (sext w (x - y - b2z ci)) d2 (sext w x) (sext w y) ARITH.

Lemma arith_mask i : i ∈ [2; 6; 7] -> Z.testbit ARITH i = true.
Proof. rewrite !elem_of_cons, elem_of_nil. by intros [-> |[-> |[-> |[]]]]. Qed.
Lemma logic_mask i : i ∈ [2; 6; 7] -> Z.testbit LOGIC i = true.
Proof. rewrite !elem_of_cons, elem_of_nil. by intros [-> |[-> |[-> |[]]]]. Qed.
Lemma no_carry_mask i : i ∈ [2; 6; 7] -> Z.testbit NO_CARRY i = true.
Proof. rewrite !elem_of_cons, elem_of_nil. by intros [-> |[-> |[-> |[]]]]. Qed.

Lemma add_flags ci x y c : flags_ok c -> inw w x -> inw w y ->
  flags_are c (c <| cc := add_cc ci x y (dst2 (cc c)) |>) (ref_add w x y (b2z ci)).
Proof.
  intros Hok Hx Hy. set (c' := c <| cc := _ |>).
  destruct (shown_add w x y ci c' (dst2 (cc c)) Hx Hy eq_refl) as (E0 & E4 & E11).
  apply flags_are_lazy; try done.
  - apply flags_ok_cc; try done; try apply inw_u32; [apply Hok|by destruct ci].
  - exact arith_mask.
  - cbn [r_af ref_add mk_result] in E4. congruence.
Qed.
Lemma sub_flags ci x y c : flags_ok c -> inw w x -> inw w y ->
  flags_are c (c <| cc := sub_cc ci x y (dst2 (cc c)) |>) (ref_sub w x y (b2z ci)).
Proof.
  intros Hok Hx Hy. set (c' := c <| cc := _ |>).
  destruct (shown_sub w x y ci c' (dst2 (cc c)) Hx Hy eq_refl) as (E0 & E4 & E11).
  apply flags_are_lazy; try done.
  - apply flags_ok_cc; try done; try apply inw_u32; [apply Hok|by destruct ci].
  - exact arith_mask.
  - cbn [r_af ref_sub mk_result] in E4. congruence.
Qed.
Lemma logic_flags o r c : flags_ok c -> o ∈ [CC_AND; CC_OR; CC_XOR] ->
  flags_are c (c <| cc := mkCC o (sext w r) (dst2 (cc c)) (src1 (cc c)) (src2 (cc c)) LOGIC |>) (ref_logic w r).
Proof.
  intros Hok Ho. rewrite !elem_of_cons, elem_of_nil in Ho.
  apply flags_are_lazy; try done; try exact logic_mask;
    try (apply flags_ok_cc; try done; try apply inw_u32; try apply Hok);
    by destruct Ho as [-> |[-> |[-> |[]]]].
Qed.

Lemma sext_u32_add x y ci : sext w (u32 (sext w x + sext w y + ci)) = sext w (x + y + ci).
Proof. by rewrite (sext_u32 w), (sext_add w). Qed.
Lemma sext_u32_sub x y ci : sext w (u32 (sext w x - sext w y - ci)) = sext w (x - y - ci).
Proof. by rewrite (sext_u32 w), (sext_sub w). Qed.

(** The carry in, as the getter gives it. *)
Lemma carry_in c : flags_ok c -> get_CF c = Done (b2z (eflag c 0)).
Proof.
  intros Hok. destruct (get_CF_total c Hok) as (v & E & Hv). unfold eflag. cbn [arith_flag Z.eqb default].
  rewrite E. cbn [is1 id]. by destruct Hv as [-> | ->].
Qed.
Lemma nz_b2z (t : bool) : nz (b2z t) = t.
Proof. by destruct t. Qed.

Lemma ADC_spec a b x y c : flags_ok c -> reads a x c -> reads b y c ->
  ADC w a b c = sa a (sext w (x + y + b2z (eflag c 0))) (c <| cc := add_cc (eflag c 0) x y (dst2 (cc c)) |>).
Proof.
  intros Hok Ha Hb. unfold ADC. rewrite (ACOP_eval _ _ _ _ _ _ _ _ _ _ Ha Hb (carry_in c Hok)).
  by rewrite !sext_u32_add, nz_b2z.
Qed.
Lemma SBB_spec a b x y c : flags_ok c -> reads a x c -> reads b y c ->
  SBB w a b c = sa a (sext w (x - y - b2z (eflag c 0))) (c <| cc := sub_cc (eflag c 0) x y (dst2 (cc c)) |>).
Proof.
  intros Hok Ha Hb. unfold SBB. rewrite (ACOP_eval _ _ _ _ _ _ _ _ _ _ Ha Hb (carry_in c Hok)).
  by rewrite !sext_u32_sub, nz_b2z.
Qed.
Lemma ADD0_spec a b x y c : reads a x c -> reads b y c ->
  AOP0_helper CC_ADD w Z.add a b c = Done (tt, c <| cc := add_cc false x y (dst2 (cc c)) |>).
Proof.
  intros Ha Hb. rewrite (AOP0_eval _ _ _ _ _ _ _ _ Ha Hb). unfold add_cc. cbn [b2z].
  by rewrite <- (sext_u32_add x y 0), Z.add_0_r.
Qed.
Lemma SUB0_spec a b x y c : reads a x c -> reads b y c ->
  AOP0_helper CC_SUB w Z.sub a b c = Done (tt, c <| cc := sub_cc false x y (dst2 (cc c)) |>).
Proof.
  intros Ha Hb. rewrite (AOP0_eval _ _ _ _ _ _ _ _ Ha Hb). unfold sub_cc. cbn [b2z].
  by rewrite <- (sext_u32_sub x y 0), Z.sub_0_r.
Qed.

(** What every two-operand instruction does: store the reference result, with
    the flag state changed to show the reference flags. *)
Definition does (m : ST (CPUI386 D) unit) a (r : Ref) c : Prop :=
  exists c1, m c = sa a (sext w (r_res r)) c1 /\ only_flags c c1 /\ flags_are c c1 r.

(** C6. The two-operand instructions implement the reference: ADD, ADC, SUB, SBB,
    AND, OR and XOR at 8, 16 and 32 bits store the reference result and leave a
    state whose six lazily computed flags are those of the reference, the carry in
    being the one shown before; nothing else of the CPU changes. *)
Theorem binop_reference o a b x y c :
  flags_ok c -> reads a x c -> reads b y c -> inw w x -> inw w y ->
  does (run_binop o w a b) a (ref_binop o w x y (eflag c 0)) c.
Proof.
  intros Hok Ha Hb Hx Hy. unfold does. destruct o; cbn [run_binop ref_binop].
  - exists (c <| cc := add_cc false x y (dst2 (cc c)) |>). split; [|split; [done|by apply (add_flags false)]].
    unfold ADD, AOP_helper. rewrite (st_bind_done _ _ _ _ _ (ADD0_spec a b x y c Ha Hb)). cbn [r_res ref_add mk_result].
    by rewrite (sext_mod w).
  - exists (c <| cc := add_cc (eflag c 0) x y (dst2 (cc c)) |>). split; [|split; [done|by apply add_flags]].
    rewrite (ADC_spec a b x y) by done. cbn [r_res ref_add mk_result]. by rewrite (sext_mod w).
  - exists (c <| cc := sub_cc false x y (dst2 (cc c)) |>). split; [|split; [done|by apply (sub_flags false)]].
    unfold SUB, AOP_helper. rewrite (st_bind_done _ _ _ _ _ (SUB0_spec a b x y c Ha Hb)). cbn [r_res ref_sub mk_result].
    by rewrite (sext_mod w).
  - exists (c <| cc := sub_cc (eflag c 0) x y (dst2 (cc c)) |>). split; [|split; [done|by apply sub_flags]].
    rewrite (SBB_spec a b x y) by done. cbn [r_res ref_sub mk_result]. by rewrite (sext_mod w).
  - eexists. split; [|split; [|by apply (logic_flags CC_AND); [|set_solver]]]; [|done]. unfold AND, LOP_helper.
    rewrite (st_bind_done _ _ _ _ _ (LOP0_eval _ w Z.land a b x y c Ha Hb)). cbn [r_res ref_logic mk_result]. by rewrite (sext_mod w).
  - eexists. split; [|split; [|by apply (logic_flags CC_OR); [|set_solver]]]; [|done]. unfold OR, LOP_helper.
    rewrite (st_bind_done _ _ _ _ _ (LOP0_eval _ w Z.lor a b x y c Ha Hb)). cbn [r_res ref_logic mk_result]. by rewrite (sext_mod w).
  - eexists. split; [|split; [|by apply (logic_flags CC_XOR); [|set_solver]]]; [|done]. unfold XOR, LOP_helper.
    rewrite (st_bind_done _ _ _ _ _ (LOP0_eval _ w Z.lxor a b x y c Ha Hb)). cbn [r_res ref_logic mk_result]. by rewrite (sext_mod w).
Qed.

(** ** One-operand instructions *)

Lemma low_nibble z : Z.land (sext w z) 0xf = z mod 16.
Proof.
  assert (8 <= w <= 32) by done. change 0xf with (2 ^ 4 - 1). rewrite land_ones_mod by lia.
  rewrite <- (mod_mod_pow2 _ 4 w), (sext_low w), mod_mod_pow2 by lia. done.
Qed.

Lemma inw_half : inw w (2 ^ (w - 1)).
Proof. assert (8 <= w <= 32) by done. pose proof (pow2_half w ltac:(lia)). pose proof (pow2_pos (w - 1)). unfold inw. lia. Qed.

Ltac over_cases := repeat match goal with |- context [Z.leb ?p ?q] => destruct (Z.leb_spec p q)
    | |- context [Z.ltb ?p ?q] => destruct (Z.ltb_spec p q) | |- context [Z.eqb ?p ?q] => destruct (Z.eqb_spec p q) end;
    cbn [negb andb orb]; first [done | exfalso; lia].

Lemma incr_over x : inw w x -> (sext w (x + 1) =? sext w (2 ^ (w - 1))) = negb (in_signed w (sgn w x + 1)).
Proof.
  assert (8 <= w <= 32) by done. intros Hx. rewrite <- (sext_mod w (x + 1)), (sext_eqb w) by (first [apply inw_half | apply inw_mod; lia]).
  unfold in_signed, sgn. rewrite (Z.mod_small x) by done. pose proof (pow2_half w ltac:(lia)). unfold inw in Hx.
  rewrite (sum_mod w) by lia. cbv zeta. destruct (Z.leb_spec (2 ^ w) (x + 1)), (Z.ltb_spec x (2 ^ (w - 1))); over_cases.
Qed.
Lemma decr_over x : inw w x -> (sext w (x - 1) =? sext w (2 ^ (w - 1) - 1)) = negb (in_signed w (sgn w x - 1)).
Proof.
  assert (8 <= w <= 32) by done. intros Hx. pose proof (pow2_half w ltac:(lia)). pose proof (pow2_pos (w - 1) ltac:(lia)).
  rewrite <- (sext_mod w (x - 1)), (sext_eqb w) by (first [apply inw_mod; lia | unfold inw; lia]).
  unfold in_signed, sgn. rewrite (Z.mod_small x) by done. unfold inw in Hx.
  rewrite (diff_mod w) by lia. cbv zeta. destruct (Z.ltb_spec (x - 1) 0), (Z.ltb_spec x (2 ^ (w - 1))); over_cases.
Qed.
Lemma neg_over x : inw w x -> (sext w (- x) =? sext w (2 ^ (w - 1))) = negb (in_signed w (- sgn w x)).
Proof.
  assert (8 <= w <= 32) by done. intros Hx. rewrite <- (sext_mod w (- x)), (sext_eqb w) by (first [apply inw_half | apply inw_mod; lia]).
  unfold in_signed, sgn. rewrite (Z.mod_small x) by done. pose proof (pow2_half w ltac:(lia)). unfold inw in Hx.
  rewrite (diff_mod w) by lia. cbv zeta. destruct (Z.ltb_spec (- x) 0), (Z.ltb_spec x (2 ^ (w - 1))); over_cases.
Qed.
Lemma neg_nonzero x : inw w x -> nz (sext w (- x)) = (0 <? x).
Proof.
  intros Hx. unfold nz. rewrite (sext_zero w). unfold inw in Hx. rewrite (diff_mod w) by lia.
  destruct (Z.ltb_spec (- x) 0); over_cases.
Qed.

Inductive unop : Set := OpINC | OpDEC | OpNEG.
Definition run_unop (o : unop) : Operand D -> ST (CPUI386 D) unit :=
  match o with OpINC => INC w | OpDEC => DEC w | OpNEG => NEG w end.
Definition ref_unop (o : unop) (x : Z) (carry : bool) : Ref :=
  match o with
  | OpINC => with_cf carry (ref_add w x 1 0)
  | OpDEC => with_cf carry (ref_sub w x 1 0)
  | OpNEG => ref_sub w 0 x 0
  end.

(** The state in which INC and DEC store. *)
Definition kept c (k : CC) : CPUI386 D := c <| cc := k |> <| flags := SET_BIT (flags c) (b2z (eflag c 0)) CF |>.

Lemma kept_carry c k : flags_ok c -> mask k = NO_CARRY -> eflag (kept c k) 0 = eflag c 0.
Proof.
  intros Hok Hm. unfold eflag at 1. cbn [arith_flag Z.eqb default]. unfold get_CF, lazy. cbn [cc set_field kept]. rewrite Hm.
  change (nz (Z.land NO_CARRY CF)) with false. cbn [is1 id]. change CF with (Z.shiftl 1 0). rewrite eager_is by lia.
  unfold kept. cbn [flags set_field]. change CF with (Z.shiftl 1 0).
  rewrite SET_BIT_testbit by (try apply Hok; try lia; destruct (eflag c 0); cbn; lia).
  rewrite decide_True by done. apply b2z_1.
Qed.
Lemma kept_flags c k z o af : flags_ok c -> mask k = NO_CARRY -> dst k = sext w z ->
  inw 32 (dst2 k) -> inw 32 (src1 k) -> inw 32 (src2 k) ->
  eflag (kept c k) 11 = o -> eflag (kept c k) 4 = af ->
  flags_are c (kept c k) (mk_result w z (eflag c 0) o (Some af)).
Proof.
  intros Hok Hm Hd H1 H2 H3 Ho Haf. apply flags_are_lazy; try done.
  - constructor; try done.
    + apply SET_BIT_inw; [apply Hok|]. change CF with (Z.shiftl 1 0). by apply inw_bit.
    + cbn [cc set_field kept]. rewrite Hd. apply inw_u32.
    + unfold lazy. cbn [cc set_field kept]. rewrite Hm. discriminate.
  - intros j Hj Hn. unfold kept. cbn [flags set_field]. change CF with (Z.shiftl 1 0).
    rewrite SET_BIT_testbit by (try apply Hok; try lia; destruct (eflag c 0); cbn; lia).
    rewrite decide_False; [done|]. intros ->. apply Hn. unfold arith_bits. set_solver.
  - cbn [cc set_field kept]. rewrite Hm. exact no_carry_mask.
  - by apply kept_carry.
Qed.

(** OF and AF of the lazy INC, DEC and NEG. *)
Definition one_mask (k : CC) : Prop := mask k = NO_CARRY \/ mask k = ARITH.
Definition op_width : Prop := w = 8 \/ w = 16 \/ w = 32.
Ltac one_flag Hw3 Hm Hk Ho b :=
  unfold eflag; cbn [arith_flag Z.eqb Pos.eqb default]; unfold get_OF, get_AF, lazy; rewrite Hk;
  assert (nz (Z.land _ b) = true) as -> by (by destruct Hm as [-> | ->]);
  destruct Hw3 as [-> |[-> | ->]]; rewrite Ho; cbn [by_width Z.eqb Pos.eqb is1 id]; by rewrite b2z_1.

Lemma of_inc c k f : op_width -> one_mask k -> cc c = k -> op k = by_width w CC_INC8 CC_INC16 CC_INC32 ->
  (dst k =? sext w (2 ^ (w - 1))) = f -> eflag c 11 = f.
Proof. intros Hw3 Hm Hk Ho <-. one_flag Hw3 Hm Hk Ho OF. Qed.
Lemma of_neg c k f : op_width -> one_mask k -> cc c = k -> op k = by_width w CC_NEG8 CC_NEG16 CC_NEG32 ->
  (dst k =? sext w (2 ^ (w - 1))) = f -> eflag c 11 = f.
Proof. intros Hw3 Hm Hk Ho <-. one_flag Hw3 Hm Hk Ho OF. Qed.
Lemma of_dec c k f : op_width -> one_mask k -> cc c = k -> op k = by_width w CC_DEC8 CC_DEC16 CC_DEC32 ->
  (dst k =? sext w (2 ^ (w - 1) - 1)) = f -> eflag c 11 = f.
Proof. intros Hw3 Hm Hk Ho <-. one_flag Hw3 Hm Hk Ho OF. Qed.
Lemma af_inc c k f : op_width -> one_mask k -> cc c = k -> op k = by_width w CC_INC8 CC_INC16 CC_INC32 ->
  (Z.land (dst k) 0xf =? 0) = f -> eflag c 4 = f.
Proof. intros Hw3 Hm Hk Ho <-. one_flag Hw3 Hm Hk Ho AF. Qed.
Lemma af_dec c k f : op_width -> one_mask k -> cc c = k -> op k = by_width w CC_DEC8 CC_DEC16 CC_DEC32 ->
  (Z.land (dst k) 0xf =? 0xf) = f -> eflag c 4 = f.
Proof. intros Hw3 Hm Hk Ho <-. one_flag Hw3 Hm Hk Ho AF. Qed.
Lemma af_neg c k f : op_width -> one_mask k -> cc c = k -> op k = by_width w CC_NEG8 CC_NEG16 CC_NEG32 ->
  nz (Z.land (dst k) 0xf) = f -> eflag c 4 = f.
Proof. intros Hw3 Hm Hk Ho <-. one_flag Hw3 Hm Hk Ho AF. Qed.

(** Nibbles *)
Lemma nibble_incr x : ((x + 1) mod 16 =? 0) = (16 <=? x mod 16 + 1 mod 16 + 0).
Proof.
  pose proof (Z.mod_pos_bound x 16 ltac:(lia)). rewrite Z.add_mod by lia. change (1 mod 16) with 1.
  destruct (Z.leb_spec 16 (x mod 16 + 1 + 0)).
  - replace (x mod 16) with 15 by lia. done.
  - rewrite Z.mod_small by lia. apply Z.eqb_neq. lia.
Qed.
Lemma nibble_decr x : ((x - 1) mod 16 =? 15) = (x mod 16 <? 1 mod 16 + 0).
Proof.
  pose proof (Z.mod_pos_bound x 16 ltac:(lia)). rewrite Zminus_mod. change (1 mod 16) with 1.
  destruct (Z.ltb_spec (x mod 16) (1 + 0)).
  - replace (x mod 16) with 0 by lia. done.
  - rewrite Z.mod_small by lia. apply Z.eqb_neq. lia.
Qed.
Lemma nibble_neg x : nz ((- x) mod 16) = (0 mod 16 <? x mod 16 + 0).
Proof.
  pose proof (Z.mod_pos_bound x 16 ltac:(lia)). unfold nz. change (0 mod 16) with 0.
  destruct (Z.eqb_spec (x mod 16) 0) as [E|E].
  - rewrite Z.mod_opp_l_z by lia. by rewrite E.
  - rewrite Z.mod_opp_l_nz by lia. destruct (Z.eqb_spec (16 - x mod 16) 0), (Z.ltb_spec 0 (x mod 16 + 0)); done || lia.
Qed.

Lemma sgn_small z : 0 <= z < 2 ^ (w - 1) -> sgn w z = z.
Proof.
  intros Hz. assert (8 <= w <= 32) by done. pose proof (pow2_half w ltac:(lia)). unfold sgn.
  rewrite (Z.mod_small z) by lia. cbv zeta. destruct (Z.ltb_spec z (2 ^ (w - 1))); lia.
Qed.

Lemma incdec_does a x c (name : CcOp) (f : Z -> Z -> Z) z r :
  flags_ok c -> reads a x c -> f (sext w x) 1 = sext w x + z -> (z = 1 \/ z = -1) ->
  let k := mkCC name (sext w (x + z)) (dst2 (cc c)) (src1 (cc c)) (src2 (cc c)) NO_CARRY in
  r_res r = (x + z) mod 2 ^ w -> flags_are c (kept c k) r -> does (INCDEC_helper name w f a) a r c.
Proof.
  intros Hok Ha Hf _ k Hr Hfl. exists (kept c k). split; [|split; [done|exact Hfl]].
  rewrite (INCDEC_eval _ w f a x _ c Ha (carry_in c Hok)), (sext_u32 w), Hf, (sext_plus w), Hr. by rewrite (sext_mod w).
Qed.

(** The one-operand instructions implement the reference: INC and DEC add
    and subtract one and keep the carry, NEG subtracts from zero; each stores the
    reference result and shows the reference flags. *)
Theorem unop_reference o a x c : op_width ->
  flags_ok c -> reads a x c -> inw w x -> does (run_unop o a) a (ref_unop o x (eflag c 0)) c.
Proof.
  intros Hw3 Hok Ha Hx. assert (8 <= w <= 32) by done.
  assert (1 < 2 ^ (w - 1)) by (apply Z.pow_gt_1; lia).
  destruct o; cbn [run_unop ref_unop].
  - apply (incdec_does a x c _ Z.add 1); try done; [by left|cbn; by rewrite Z.add_0_r|].
    unfold with_cf, ref_add. cbn [r_res r_zf r_sf r_of r_pf r_af mk_result]. rewrite !Z.add_0_r, (sgn_small 1) by lia.
    apply kept_flags; try done; try apply Hok.
    + eapply of_inc; [exact Hw3| |reflexivity| |]; [by left|done|]. by apply incr_over.
    + eapply af_inc; [exact Hw3| |reflexivity| |]; [by left|done|]. change (dst _) with (sext w (x + 1)).
      rewrite low_nibble, nibble_incr. by rewrite Z.add_0_r.
  - apply (incdec_does a x c _ Z.sub (-1)); try done; [by right|cbn; by rewrite Z.sub_0_r|].
    unfold with_cf, ref_sub. cbn [r_res r_zf r_sf r_of r_pf r_af mk_result]. rewrite !Z.sub_0_r, (sgn_small 1) by lia.
    apply kept_flags; try done; try apply Hok.
    + eapply of_dec; [exact Hw3| |reflexivity| |]; [by left|done|]. by apply decr_over.
    + eapply af_dec; [exact Hw3| |reflexivity| |]; [by left|done|]. change (dst _) with (sext w (x + -1)).
      rewrite low_nibble. change (x + -1) with (x - 1). rewrite nibble_decr. by rewrite Z.add_0_r.
  - unfold NEG, does. rewrite (NEG_eval _ w a x c Ha), (sext_u32 w), (sext_opp w). unfold ref_sub. rewrite !Z.sub_0_r.
    eexists. split; [cbn; by rewrite (sext_mod w)|]. split; [apply only_flags_cc|].
    set (k := mkCC _ _ _ _ _ _). assert (Hi : incdec (op k) = false) by (destruct Hw3 as [-> |[-> | ->]]; done).
    apply flags_are_lazy; try done.
    + apply flags_ok_cc; try done; try apply inw_u32; apply Hok.
    + exact arith_mask.
    + unfold eflag; cbn [arith_flag Z.eqb default]. unfold get_CF. cbn [cc set_field].
      change (lazy (c <| cc := k |>) CF) with true. cbv iota.
      assert (match op k with CC_NEG8 | CC_NEG16 | CC_NEG32 => True | _ => False end) by (destruct Hw3 as [-> |[-> | ->]]; done).
      destruct (op k) eqn:Eo; try done; cbn [is1 id]; rewrite b2z_1; cbn [dst k]; rewrite neg_nonzero, Z.add_0_r by done; done.
    + eapply of_neg; [exact Hw3| |reflexivity| |]; [by right|done|]. rewrite (sgn_small 0) by lia. by apply neg_over.
    + eapply af_neg; [exact Hw3| |reflexivity| |]; [by right|done|]. change (dst _) with (sext w (- x)). rewrite low_nibble. by rewrite nibble_neg, Z.add_0_r.
Qed.

End Reference.

(** ** Conditions *)

Section Conditions.
Context {D : Type} (w : Z) `{OpSize w}.
Implicit Types (c : CPUI386 D) (a b : Operand D).

Lemma overflow_in c : flags_ok c -> get_OF c = Done (b2z (eflag c 11)).
Proof.
  intros Hok. destruct (get_OF_total c Hok) as (v & E & Hv). unfold eflag. cbn [arith_flag Z.eqb Pos.eqb default].
  rewrite E. cbn [is1 id]. by destruct Hv as [-> | ->].
Qed.
Lemma bool_val_is v : bool_val v -> v = b2z (v =? 1).
Proof. by intros [-> | ->]. Qed.
Lemma zero_in c : get_ZF c = b2z (eflag c 6).
Proof. unfold eflag. cbn [arith_flag Z.eqb Pos.eqb default id]. apply bool_val_is, get_ZF_bool. Qed.
Lemma sign_in c : flags_ok c -> get_SF c = b2z (eflag c 7).
Proof. intros. unfold eflag. cbn [arith_flag Z.eqb Pos.eqb default id]. by apply bool_val_is, get_SF_bool. Qed.
Lemma b2z_eqb (s t : bool) : (b2z s =? b2z t) = eqb s t.
Proof. by destruct s, t. Qed.

Lemma signed_less x y : inw w x -> inw w y ->
  xorb (Z.testbit (x - y) (w - 1)) (negb (in_signed w (sgn w x - sgn w y))) = (sgn w x <? sgn w y).
Proof.
  assert (8 <= w <= 32) by done. intros Hx Hy. unfold in_signed, sgn. rewrite (top_bit w), (Z.mod_small x), (Z.mod_small y) by done.
  pose proof (pow2_half w ltac:(lia)). unfold inw in *. rewrite (diff_mod w) by lia. cbv zeta.
  destruct (Z.ltb_spec (x - y) 0), (Z.ltb_spec x (2 ^ (w - 1))), (Z.ltb_spec y (2 ^ (w - 1)));
    repeat match goal with |- context [Z.leb ?p ?q] => destruct (Z.leb_spec p q)
    | |- context [Z.ltb ?p ?q] => destruct (Z.ltb_spec p q) end; cbn [negb andb orb xorb]; first [done | exfalso; lia].
Qed.

(** Two [w]-bit values are equal when their signs' readings are. *)
Lemma sub_zero x y : inw w x -> inw w y -> ((x - y) mod 2 ^ w =? 0) = (x =? y).
Proof.
  intros Hx Hy. unfold inw in *. rewrite (diff_mod w) by lia.
  destruct (Z.ltb_spec (x - y) 0), (Z.eqb_spec x y); first [apply Z.eqb_eq; lia | apply Z.eqb_neq; lia].
Qed.
Lemma sgn_inj x y : inw w x -> inw w y -> (sgn w x =? sgn w y) = (x =? y).
Proof.
  assert (8 <= w <= 32) by done. intros Hx Hy. unfold sgn. rewrite (Z.mod_small x), (Z.mod_small y) by done. unfold inw in *.
  cbv zeta. destruct (Z.ltb_spec x (2 ^ (w - 1))), (Z.ltb_spec y (2 ^ (w - 1))), (Z.eqb_spec x y);
    first [done | apply Z.eqb_eq; lia | apply Z.eqb_neq; lia].
Qed.

(** The condition codes, from the two facts they combine. *)
Lemma below_or_equal p q : (if p =? q then Done true else Done (p <? q)) = Done (p <=? q).
Proof. destruct (Z.eqb_spec p q), (Z.ltb_spec p q), (Z.leb_spec p q); done || lia. Qed.
Lemma above p q : (if p =? q then Done false else Done (negb (p <? q))) = Done (q <? p).
Proof. destruct (Z.eqb_spec p q), (Z.ltb_spec p q), (Z.ltb_spec q p); done || lia. Qed.

Ltac low_code :=
  repeat match goal with |- context [Z.land (Zpos ?n) 0xf] =>
    let r := eval vm_compute in (Z.land (Zpos n) 0xf) in change (Z.land (Zpos n) 0xf) with r end;
  cbn [Z.eqb Pos.eqb]; unfold mret, outcome_ret.

(** Conditions mean comparisons: after a CMP of [x] and [y] the condition
    codes 2-7 and 12-15 are the unsigned and signed orders of the operands, the
    code 4 their equality; the rest of the instruction is the fused jump. *)
Theorem compare_conditions a b x y c :
  flags_ok c -> reads a x c -> reads b y c -> inw w x -> inw w y ->
  exists c1, CMP w a b c = try_jcc8 c1 /\ only_flags c c1 /\
    COND 0x2 c1 = Done (x <? y) /\ COND 0x3 c1 = Done (y <=? x) /\
    COND 0x4 c1 = Done (x =? y) /\ COND 0x5 c1 = Done (negb (x =? y)) /\
    COND 0x6 c1 = Done (x <=? y) /\ COND 0x7 c1 = Done (y <? x) /\
    COND 0xc c1 = Done (sgn w x <? sgn w y) /\ COND 0xd c1 = Done (sgn w y <=? sgn w x) /\
    COND 0xe c1 = Done (sgn w x <=? sgn w y) /\ COND 0xf c1 = Done (sgn w y <? sgn w x).
Proof.
  intros Hok Ha Hb Hx Hy. exists (c <| cc := sub_cc w false x y (dst2 (cc c)) |>).
  split; [unfold CMP, CMP_helper; by rewrite (st_bind_done _ _ _ _ _ (SUB0_spec w a b x y c Ha Hb))|].
  split; [done|]. pose proof (sub_flags w false x y c Hok Hx Hy) as (Hok1 & E0 & _ & E6 & E7 & E11 & _).
  set (c1 := c <| cc := _ |>) in *. unfold COND. low_code.
  rewrite !(carry_in c1 Hok1), !(overflow_in c1 Hok1), !zero_in, !(sign_in c1 Hok1), E0, E6, E7, E11.
  unfold ref_sub. cbn [r_cf r_zf r_sf r_of mk_result b2z mbind outcome_bind mret outcome_ret].
  rewrite !Z.sub_0_r, Z.add_0_r, !nz_b2z, !b2z_eqb, (sub_zero x y) by done.
  assert (Hl : eqb (Z.testbit (x - y) (w - 1)) (negb (in_signed w (sgn w x - sgn w y))) = negb (sgn w x <? sgn w y)).
  { rewrite <- signed_less by done. by destruct (Z.testbit _ _), (negb _). }
  rewrite !Hl, negb_involutive, below_or_equal, above, <- !(sgn_inj x y), below_or_equal, above by done.
  by rewrite <- !Z.leb_antisym.
Qed.

(** The fused jump, when the next instruction is in the fetched page. *)
Definition next_bytes c (o d : Z) : Prop :=
  if_paddr (ifetch c) <> 0 /\ rd (phys_mem c) (if_paddr (ifetch c)) = Done o /\
  rd (phys_mem c) (if_paddr (ifetch c) + 1) = Done d.

Lemma jz_opcode o : inw 8 o -> (Z.land o (Z.lnot 1) =? 0x74) = (o =? 0x74) || (o =? 0x75).
Proof.
  intros Ho. apply eqb_true_iff.
  apply (all_below_spec 256 (fun o => eqb (Z.land o (Z.lnot 1) =? 0x74) ((o =? 0x74) || (o =? 0x75)))); [vm_compute; reflexivity|].
  exact Ho.
Qed.

Lemma pload8_done c addr v : rd (phys_mem c) addr = Done v -> pload8 addr c = Done (v, c).
Proof. intros E. unfold pload8, lift. by rewrite E. Qed.

Lemma jump_twice c d : jump (sext8 d) (c <| next_ip := u32 (next_ip c + 2) |>) = c <| next_ip := u32 (next_ip c + sext8 d + 2) |>.
Proof.
  unfold jump. cbn [next_ip set_field]. replace (u32 (u32 (next_ip c + 2) + sext8 d)) with (u32 (next_ip c + sext8 d + 2)); [done|].
  unfold u32. rewrite Z.add_mod_idemp_l by lia. f_equal. lia.
Qed.

Definition taken (b1 : Z) c : bool := match COND b1 c with Done t => t | Stuck _ => false end.

(** C33. Fusing a compare with the jump after it is sound: when ZF is the lazily
    kept one, the fused JZ/JNZ does what executing the two-byte jump does if its
    condition holds, and nothing if it does not, or if the next instruction is
    another one, so that the jump is then executed on its own. *)
Theorem fused_jump_sound c o d :
  lazy c ZF = true -> next_bytes c o d -> inw 8 o ->
  try_jcc8 c =
    if ((o =? 0x74) || (o =? 0x75)) && taken o c
    then JCCb o d (c <| next_ip := u32 (next_ip c + 2) |>) else Done (tt, c).
Proof.
  intros Hz (Hp & Ho & Hd) Hb. unfold try_jcc8. unfold nz at 1. rewrite (proj2 (Z.eqb_neq _ _) Hp). cbn [negb].
  rewrite (st_bind_done _ _ _ _ _ (pload8_done _ _ _ Ho)), jz_opcode by done.
  assert (Ez : get_ZF c = b2z (dst (cc c) =? 0)) by (unfold get_ZF; by rewrite Hz).
  destruct (Z.eqb_spec o 0x74) as [->|]; [|destruct (Z.eqb_spec o 0x75) as [->|]; [|done]]; cbn [orb andb];
    unfold taken, JCCb, cond_of, COND; low_code; change (get_ZF (c <| next_ip := u32 (next_ip c + 2) |>)) with (get_ZF c);
    rewrite Ez; destruct (dst (cc c) =? 0); cbn [b2z]; change (nz 1) with true; change (nz 0) with false; cbn [negb].
  all: try reflexivity.
  all: lazymatch goal with |- (if ?b then _ else _) _ = _ => change b with true end; cbv iota;
    rewrite (st_bind_done _ _ _ _ _ (pload8_done _ _ _ Hd)); unfold mbind, ST_bind, lift; cbn [fst snd];
    change (get_ZF (c <| next_ip := u32 (next_ip c + 2) |>)) with (get_ZF c); rewrite Ez; cbn [b2z];
    unfold modify; change (nz 1) with true; change (nz 0) with false; cbn [negb]; by rewrite jump_twice.
Qed.
End Conditions.

(** ** The theorems at concrete instructions: 0xff in CX, DX and the immediates *)

Definition counting_cpu : CPUI386 unit := sreg32 1 0xff (demo_cpu <| flags := 0x2 |>).

Lemma counting_flags : flags_ok counting_cpu.
Proof. constructor; first [by (unfold inw; cbn; lia) | done]. Qed.
Lemma byte_255 : inw 8 255.
Proof. unfold inw. lia. Qed.

Lemma binop_reference_witness : does 8 (ADD 8 (reg8 1) (imm 1)) (reg8 1) (ref_add 8 255 1 0) counting_cpu.
Proof.
  apply (binop_reference 8 OpADD (reg8 1) (imm 1) 255 1 counting_cpu counting_flags (reads_reg8 1 counting_cpu)
    (reads_imm 1 counting_cpu) byte_255). unfold inw. lia.
Defined.

Lemma unop_reference_witness : does 8 (INC 8 (reg8 1)) (reg8 1) (ref_unop 8 OpINC 255 false) counting_cpu.
Proof.
  apply (unop_reference 8 OpINC (reg8 1) 255 counting_cpu (or_introl eq_refl) counting_flags (reads_reg8 1 counting_cpu) byte_255).
Defined.

Lemma compare_conditions_witness :
  exists c1, CMP 8 (reg8 1) (imm 1) counting_cpu = try_jcc8 c1 /\
    COND 0x2 c1 = Done false /\ COND 0xc c1 = Done true.
Proof.
  destruct (compare_conditions 8 (reg8 1) (imm 1) 255 1 counting_cpu counting_flags (reads_reg8 1 counting_cpu)
    (reads_imm 1 counting_cpu) byte_255) as (c1 & E & _ & Eb & _ & _ & _ & _ & _ & El & _); [unfold inw; lia|].
  exists c1. split; [exact E|]. split; [exact Eb|exact El].
Defined.

(** The bytes [74 05] (JZ +5) after a compare of equal values. *)
Definition jumping_cpu : CPUI386 unit :=
  counting_cpu <| phys_mem := replicate 16 0 ++ [0x74; 0x05] |> <| ifetch := mkIf 0 0 16 |>
    <| cc := mkCC CC_SUB 0 0 1 1 ARITH |>.
Lemma fused_jump_sound_witness :
  lazy jumping_cpu ZF = true /\ taken 0x74 jumping_cpu = true /\
  try_jcc8 jumping_cpu = JCCb 0x74 5 (jumping_cpu <| next_ip := u32 (next_ip jumping_cpu + 2) |>).
Proof.
  assert (Hz : lazy jumping_cpu ZF = true) by (vm_compute; reflexivity).
  assert (Ht : taken 0x74 jumping_cpu = true) by (vm_compute; reflexivity).
  split; [exact Hz|]. split; [exact Ht|].
  rewrite (fused_jump_sound jumping_cpu 0x74 5 Hz).
  - rewrite Ht. reflexivity.
  - split; [vm_compute; discriminate|]. split; vm_compute; reflexivity.
  - unfold inw. lia.
Defined.

End Alu.
