(* ===== verification/I386Shift.v ===== *)
(** * I386Shift: shifts, rotates and bit instructions (winspire/i386.c)

    The macros [SHL_helper] ... [SAR_helper], [SHLD_helper], [SHRD_helper],
    [BT_helper], [BTX_helper], [BSF_helper] and [BSR_helper], with C's shifts by
    too much as faults, against bit-level references. *)

From S2P Require Import Prelude I386 I386Alu.

Module Shift.
Import I386 Alu.

(** C's [x << y] and [x >> y] on a [uword]. *)
Definition shl32 (x y : Z) : outcome Z := if (0 <=? y) && (y <? 32) then Done (u32 (Z.shiftl x y)) else Stuck BadShift.
Definition shr32 (x y : Z) : outcome Z := if (0 <=? y) && (y <? 32) then Done (Z.shiftr x y) else Stuck BadShift.

Section Operations.
Context {D : Type}.
Implicit Types (c : CPUI386 D) (a b : Operand D).

Definition SHL_helper (w : Z) a b : ST (CPUI386 D) unit :=
  x ← la a; y0 ← la b;
  let y := Z.land y0 0x1f in
  if nz y then
    s ← lift (shl32 x y); t ← lift (shr32 x (w - y));
    _ ← set_cc (fun k => k <| dst := sext w s |> <| dst2 := Z.land t 1 |> <| op := CC_SHL |> <| mask := LOGIC |>);
    sa a (sext w s)
  else mret tt.

Definition SHR_helper (w : Z) a b : ST (CPUI386 D) unit :=
  x ← la a; y0 ← la b;
  let y := Z.land y0 0x1f in
  if nz y then
    s ← lift (shr32 x y); t ← lift (shr32 x (y - 1));
    _ ← set_cc (fun k => k <| src1 := sext w x |> <| dst := sext w s |> <| dst2 := Z.land t 1 |> <| op := CC_SHR |> <| mask := LOGIC |>);
    sa a (sext w s)
  else mret tt.

(** [>>] on a [sword] is arithmetic. *)
Definition SAR_helper (w : Z) a b : ST (CPUI386 D) unit :=
  x0 ← la a; y0 ← la b;
  let x := s32 (sext w x0) in
  let y := Z.land y0 0x1f in
  if nz y then
    let d := u32 (Z.shiftr x y) in
    _ ← set_cc (fun k => k <| dst := d |> <| dst2 := Z.land (Z.shiftr x (y - 1)) 1 |> <| op := CC_SAR |> <| mask := LOGIC |>);
    sa a d
  else mret tt.

(** The end of every rotate: CF and OF go to the flags word. *)
Definition rotate_flags (cf1 of1 : Z) : ST (CPUI386 D) unit :=
  _ ← set_flag CF cf1; _ ← set_flag OF of1;
  set_cc (fun k => k <| mask := Z.land (mask k) (Z.lnot (Z.lor CF OF)) |>).

Definition ROL_helper (w : Z) a b : ST (CPUI386 D) unit :=
  x ← la a; y0 ← la b;
  let y := Z.land y0 (w - 1) in
  res ← (if nz y then
           s ← lift (shl32 x y); t ← lift (shr32 x (w - y));
           let res := sext w (Z.lor s t) in _ ← sa a res; mret res
         else mret x);
  if nz y0 then
    let cf1 := Z.land res 1 in rotate_flags cf1 (Z.lxor (Z.shiftr res 31) cf1)
  else mret tt.

Definition ROR_helper (w : Z) a b : ST (CPUI386 D) unit :=
  x ← la a; y0 ← la b;
  let y := Z.land y0 (w - 1) in
  res ← (if nz y then
           s ← lift (shr32 x y); t ← lift (shl32 x (w - y));
           let res := sext w (Z.lor s t) in _ ← sa a res; mret res
         else mret x);
  if nz y0 then
    rotate_flags (Z.land (Z.shiftr res (w - 1)) 1)
      (Z.land (Z.shiftr (Z.lxor res (u32 (Z.shiftl res 1))) (w - 1)) 1)
  else mret tt.

Definition RCL_helper (w : Z) a b : ST (CPUI386 D) unit :=
  x ← la a; y0 ← la b;
  let y := Z.land y0 0x1f mod (w + 1) in
  if nz y then
    cf ← fetch_CF;
    s ← lift (shl32 x y); t ← lift (shl32 cf (y - 1));
    v ← lift (if negb (y =? 1) then shr32 x (w + 1 - y) else Done 0);
    let res := sext w (Z.lor (Z.lor s t) v) in
    q ← lift (shr32 x (w - y));
    let cf1 := Z.land q 1 in
    _ ← rotate_flags cf1 (Z.lxor (Z.shiftr res 31) cf1); sa a res
  else mret tt.

Definition RCR_helper (w : Z) a b : ST (CPUI386 D) unit :=
  x ← la a; y0 ← la b;
  let y := Z.land y0 0x1f mod (w + 1) in
  if nz y then
    cf ← fetch_CF;
    s ← lift (shr32 x y); t ← lift (shl32 cf (w - y));
    v ← lift (if negb (y =? 1) then shl32 x (w + 1 - y) else Done 0);
    let res := sext w (Z.lor (Z.lor s t) v) in
    q ← lift (shl32 x (w - y));
    _ ← rotate_flags (Z.land (Z.shiftr (sext w q) (w - 1)) 1)
          (Z.land (Z.shiftr (Z.lxor res (u32 (Z.shiftl res 1))) (w - 1)) 1);
    sa a res
  else mret tt.

(** The operands of SHLD and SHRD are swapped for a count above the width. *)
Definition SHLD_helper (w : Z) a b (cnt : Operand D) : ST (CPUI386 D) unit :=
  n0 ← la cnt; x0 ← la a; y0 ← la b;
  let count := Z.land n0 0x1f in
  if nz count then
    let '(x, y, n) := if w <? count then (y0, x0, count - w) else (x0, y0, count) in
    s ← lift (shl32 x n); t ← lift (shr32 y (w - n));
    d2 ← (if n =? 1 then mret (sext w x)
          else p ← lift (shl32 x (n - 1)); q ← lift (shr32 y (w - (n - 1))); mret (sext w (Z.lor p q)));
    _ ← set_cc (fun k => k <| src1 := sext w x0 |> <| dst := sext w (Z.lor s t) |> <| dst2 := d2 |>
                           <| op := CC_SHLD |> <| mask := LOGIC |>);
    sa a (sext w (Z.lor s t))
  else mret tt.

Definition SHRD_helper (w : Z) a b (cnt : Operand D) : ST (CPUI386 D) unit :=
  n0 ← la cnt; x0 ← la a; y0 ← la b;
  let count := Z.land n0 0x1f in
  if nz count then
    let '(x, y, n) := if w <? count then (y0, x0, count - w) else (x0, y0, count) in
    s ← lift (shr32 x n); t ← lift (shl32 y (w - n));
    d2 ← (if n =? 1 then mret (sext w x)
          else p ← lift (shr32 x (n - 1)); q ← lift (shl32 y (w - (n - 1))); mret (sext w (Z.lor p q)));
    _ ← set_cc (fun k => k <| src1 := sext w x |> <| dst := sext w (Z.lor s t) |> <| dst2 := d2 |>
                           <| op := CC_SHRD |> <| mask := LOGIC |>);
    sa a (sext w (Z.lor s t))
  else mret tt.

(** Bit tests: [f] is the change BTS, BTR or BTC makes with [1 << bb]. *)
Definition carry_out (bit : bool) : ST (CPUI386 D) unit :=
  _ ← set_cc (fun k => k <| mask := Z.land (mask k) (Z.lnot CF) |>); set_flag CF (b2z bit).
Definition BT_helper (w : Z) a b : ST (CPUI386 D) unit :=
  v ← la b; let bb := v mod w in
  x ← la a; carry_out (Z.testbit x bb).
Definition BTX_helper (f : Z -> Z -> Z) (w : Z) a b : ST (CPUI386 D) unit :=
  v ← la b; let bb := v mod w in
  x ← la a; let bit := Z.testbit x bb in
  x2 ← la a; _ ← sa a (u32 (f x2 (s32 (Z.shiftl 1 bb)))); carry_out bit.
Definition BTS (w : Z) := BTX_helper Z.lor w.
Definition BTR (w : Z) := BTX_helper (fun x m => Z.land x (Z.lnot m)) w.
Definition BTC (w : Z) := BTX_helper Z.lxor w.

(** Bit scans, [w] steps at most. *)
Fixpoint bsf_loop (fuel : nat) (src temp : Z) : outcome Z :=
  match fuel with
  | O => Stuck Diverges
  | S fuel => if Z.land src 1 =? 0 then bsf_loop fuel (Z.shiftr src 1) (temp + 1) else Done temp
  end.
Definition BSF_helper (w : Z) a b : ST (CPUI386 D) unit :=
  src ← la b;
  _ ← set_cc (fun k => k <| mask := 0 |>);
  if src =? 0 then modify (fun c => c <| flags := Z.lor (flags c) ZF |>)
  else
    _ ← modify (fun c => c <| flags := Z.land (flags c) (u32 (Z.lnot ZF)) |>);
    t ← lift (bsf_loop (Z.to_nat w) src 0); sa a t.

(** [src] is signed: its sign is its top bit, and [src <<= 1] wraps. *)
Fixpoint bsr_loop (fuel : nat) (w src temp : Z) : outcome Z :=
  match fuel with
  | O => Stuck Diverges
  | S fuel => if 0 <=? src then bsr_loop fuel w (sgn w (Z.shiftl src 1)) (temp - 1) else Done temp
  end.
Definition BSR_helper (w : Z) a b : ST (CPUI386 D) unit :=
  s ← la b; let src := sgn w s in
  _ ← set_cc (fun k => k <| mask := 0 |>);
  if src =? 0 then modify (fun c => c <| flags := Z.lor (flags c) ZF |>)
  else
    _ ← modify (fun c => c <| flags := Z.land (flags c) (u32 (Z.lnot ZF)) |>);
    t ← lift (bsr_loop (Z.to_nat w) w src (w - 1)); sa a t.

End Operations.
(** ** Shifts *)

Lemma count_low n : Z.land n 0x1f = n mod 32.
Proof. change 0x1f with (2 ^ 5 - 1). by rewrite land_ones_mod by lia. Qed.
Lemma count_range n : 0 <= n mod 32 < 32.
Proof. apply Z.mod_pos_bound. lia. Qed.
Lemma nz_count n : n mod 32 <> 0 -> nz (n mod 32) = true.
Proof. intros Hn. unfold nz. by rewrite (proj2 (Z.eqb_neq _ _) Hn). Qed.

Lemma shl32_done x y : 0 <= y < 32 -> shl32 x y = Done (u32 (Z.shiftl x y)).
Proof. intros Hy. unfold shl32. by rewrite (proj2 (Z.leb_le 0 y)), (proj2 (Z.ltb_lt y 32)) by lia. Qed.
Lemma shr32_done x y : 0 <= y < 32 -> shr32 x y = Done (Z.shiftr x y).
Proof. intros Hy. unfold shr32. by rewrite (proj2 (Z.leb_le 0 y)), (proj2 (Z.ltb_lt y 32)) by lia. Qed.
Lemma low_bit v i : 0 <= i -> Z.land (Z.shiftr v i) 1 = b2z (Z.testbit v i).
Proof. intros. by rewrite low1, <- Z.bit0_odd, Z.shiftr_spec, Z.add_0_l by lia. Qed.

Inductive shiftop : Set := OpSHL | OpSHR | OpSAR.
Definition run_shift {D} (o : shiftop) (w : Z) : Operand D -> Operand D -> ST (CPUI386 D) unit :=
  match o with OpSHL => SHL_helper w | OpSHR => SHR_helper w | OpSAR => SAR_helper w end.

(** The manual's result, carry and, for a shift by one, overflow. *)
Definition ref_shift (o : shiftop) (w x n : Z) : Z :=
  match o with OpSHL => x * 2 ^ n | OpSHR => x / 2 ^ n | OpSAR => sgn w x / 2 ^ n end.
Definition ref_shift_cf (o : shiftop) (w x n : Z) : bool :=
  match o with
  | OpSHL => Z.testbit x (w - n) | OpSHR => Z.testbit x (n - 1) | OpSAR => Z.testbit (sgn w x) (n - 1)
  end.
Definition ref_shift_of (o : shiftop) (w x : Z) : bool :=
  match o with
  | OpSHL => xorb (Z.testbit x (w - 1)) (Z.testbit x (w - 2)) | OpSHR => Z.testbit x (w - 1) | OpSAR => false
  end.

Section Shifts.
Context {D : Type} (w : Z) `{OpSize w}.
Implicit Types (c : CPUI386 D) (a b : Operand D).

Lemma shiftr_signed x n : 0 <= n -> u32 (Z.shiftr (sgn w x) n) = sext w (sgn w x / 2 ^ n).
Proof.
  intros Hn. assert (8 <= w <= 32) by done. rewrite Z.shiftr_div_pow2 by done. unfold sext. rewrite (sgn_range_id w (sgn w x / 2 ^ n)); [done|].
  pose proof (sgn_range w x ltac:(lia)). pose proof (pow2_pos n Hn). split.
  - apply Z.div_le_lower_bound; nia.
  - apply Z.div_lt_upper_bound; nia.
Qed.

(** What a lazy shift shows. *)
Lemma shift_flags o d2 s1 z c :
  flags_ok c -> inw 32 s1 -> bool_val d2 -> o ∈ [CC_SHL; CC_SHR; CC_SAR] ->
  let k := mkCC o (sext w z) d2 s1 (src2 (cc c)) LOGIC in
  flags_are c (c <| cc := k |>)
    (mk_result w z (d2 =? 1)
       (match o with CC_SHL => xorb (Z.testbit z (w - 1)) (d2 =? 1) | CC_SHR => Z.testbit s1 31 | _ => false end) None).
Proof.
  intros Hok Hs1 Hd Ho k. rewrite !elem_of_cons, elem_of_nil in Ho.
  assert (inw 32 d2) by (destruct Hd as [-> | ->]; split; lia).
  assert (Hl : Z.land d2 1 = d2) by (by destruct Hd as [-> | ->]).
  apply flags_are_lazy; try done.
  - apply flags_ok_cc; try done; [apply inw_u32|apply Hok|]. by destruct Ho as [-> |[-> |[-> |[]]]].
  - exact logic_mask.
  - unfold eflag; cbn [arith_flag Z.eqb default]. unfold get_CF, lazy. cbn [cc set_field k mask op dst2].
    change (nz (Z.land LOGIC CF)) with true. cbv iota. destruct Ho as [-> |[-> |[-> |[]]]]; cbn [is1 id]; by rewrite Hl.
  - unfold eflag; cbn [arith_flag Z.eqb Pos.eqb default]. unfold get_OF, lazy. cbn [cc set_field k mask op dst2 dst src1].
    change (nz (Z.land LOGIC OF)) with true. cbv iota. destruct Ho as [-> |[-> |[-> |[]]]]; cbn [is1 id]; [| |done].
    + rewrite (sext_top w), Hl. destruct Hd as [-> | ->], (Z.testbit z (w - 1)); done.
    + by rewrite top31, b2z_1.
Qed.

Lemma lift_bind {B} (v : Z) (k : Z -> ST (CPUI386 D) B) c : (lift (Done v) ≫= k) c = k v c.
Proof. reflexivity. Qed.
Ltac read_count Ha Hb Hn :=
  rewrite (st_bind_done _ _ _ _ _ (reads_here _ _ _ Ha)), (st_bind_done _ _ _ _ _ (reads_here _ _ _ Hb)), count_low, (nz_count _ Hn).

Lemma SHL_eval a b x n c : reads a x c -> reads b n c -> inw w x -> n mod 32 <> 0 -> n mod 32 <= w ->
  let y := n mod 32 in
  SHL_helper w a b c = sa a (sext w (x * 2 ^ y))
    (c <| cc := mkCC CC_SHL (sext w (x * 2 ^ y)) (b2z (Z.testbit x (w - y))) (src1 (cc c)) (src2 (cc c)) LOGIC |>).
Proof.
  intros Ha Hb Hx Hn Hy y. assert (8 <= w <= 32) by done. pose proof (count_range n).
  unfold SHL_helper. read_count Ha Hb Hn. fold y. rewrite shl32_done, lift_bind, shr32_done, lift_bind by (subst y; lia).
  rewrite low_bit by (subst y; lia). rewrite (sext_u32 w), Z.shiftl_mul_pow2 by (subst y; lia). reflexivity.
Qed.
Lemma SHR_eval a b x n c : reads a x c -> reads b n c -> inw w x -> n mod 32 <> 0 ->
  let y := n mod 32 in
  SHR_helper w a b c = sa a (sext w (x / 2 ^ y))
    (c <| cc := mkCC CC_SHR (sext w (x / 2 ^ y)) (b2z (Z.testbit x (y - 1))) (sext w x) (src2 (cc c)) LOGIC |>).
Proof.
  intros Ha Hb Hx Hn y. assert (8 <= w <= 32) by done. pose proof (count_range n).
  unfold SHR_helper. read_count Ha Hb Hn. fold y. rewrite !shr32_done by (subst y; lia). rewrite !lift_bind.
  rewrite low_bit by (subst y; lia). rewrite Z.shiftr_div_pow2 by (subst y; lia). reflexivity.
Qed.
Lemma SAR_eval a b x n c : reads a x c -> reads b n c -> inw w x -> n mod 32 <> 0 ->
  let y := n mod 32 in
  SAR_helper w a b c = sa a (sext w (sgn w x / 2 ^ y))
    (c <| cc := mkCC CC_SAR (sext w (sgn w x / 2 ^ y)) (b2z (Z.testbit (sgn w x) (y - 1))) (src1 (cc c)) (src2 (cc c)) LOGIC |>).
Proof.
  intros Ha Hb Hx Hn y. assert (8 <= w <= 32) by done. pose proof (count_range n).
  unfold SAR_helper. read_count Ha Hb Hn. fold y. cbv zeta. rewrite (s32_sext w), shiftr_signed by (subst y; lia).
  rewrite low_bit by (subst y; lia). reflexivity.
Qed.

Lemma mul_pow2_bit x n i : 0 <= n -> 0 <= i -> Z.testbit (x * 2 ^ n) i = Z.testbit x (i - n).
Proof. intros. by rewrite Z.mul_pow2_bits. Qed.

(** C34. Shifts: with a count of zero (mod 32) nothing changes; otherwise SHL (by
    at most the operand size), SHR and SAR store the operand multiplied by the
    power of two, divided by it, or divided with its sign, show the last bit
    shifted out as the carry and the flags of the result, and for a shift by one
    the overflow of the manual. *)
Theorem shift_reference o a b x n c :
  flags_ok c -> reads a x c -> reads b n c -> inw w x ->
  (n mod 32 = 0 -> run_shift o w a b c = Done (tt, c)) /\
  (n mod 32 <> 0 -> (o = OpSHL -> n mod 32 <= w) ->
   exists ov, does w (run_shift o w a b) a (mk_result w (ref_shift o w x (n mod 32)) (ref_shift_cf o w x (n mod 32)) ov None) c /\
     (n mod 32 = 1 -> ov = ref_shift_of o w x)).
Proof.
  intros Hok Ha Hb Hx. assert (8 <= w <= 32) by done. split.
  - intros Hn. destruct o; cbn [run_shift]; unfold SHL_helper, SHR_helper, SAR_helper;
      rewrite (st_bind_done _ _ _ _ _ (reads_here _ _ _ Ha)), (st_bind_done _ _ _ _ _ (reads_here _ _ _ Hb)), count_low, Hn; done.
  - intros Hn Hshl. pose proof (count_range n) as Hr.
    destruct o; cbn [run_shift ref_shift ref_shift_cf ref_shift_of].
    + pose proof (shift_flags CC_SHL (b2z (Z.testbit x (w - n mod 32))) (src1 (cc c)) (x * 2 ^ (n mod 32)) c Hok
        (fo_src1 c Hok) (bool_val_b2z _) ltac:(rewrite !elem_of_cons; auto)) as Hf. cbv zeta in Hf. rewrite b2z_1 in Hf.
      eexists. split; [eexists; split; [|split; [|exact Hf]]|].
      * rewrite (SHL_eval a b x n c Ha Hb Hx Hn (Hshl eq_refl)). cbn [r_res mk_result]. by rewrite (sext_mod w).
      * done.
      * intros ->. rewrite mul_pow2_bit by lia. rewrite xorb_comm. do 2 f_equal; lia.
    + pose proof (shift_flags CC_SHR (b2z (Z.testbit x (n mod 32 - 1))) (sext w x) (x / 2 ^ (n mod 32)) c Hok
        (inw_u32 _) (bool_val_b2z _) ltac:(rewrite !elem_of_cons; auto)) as Hf. cbv zeta in Hf. rewrite b2z_1 in Hf.
      eexists. split; [eexists; split; [|split; [|exact Hf]]|].
      * rewrite (SHR_eval a b x n c Ha Hb Hx Hn). cbn [r_res mk_result]. by rewrite (sext_mod w).
      * done.
      * intros _. apply (sext_sign w).
    + pose proof (shift_flags CC_SAR (b2z (Z.testbit (sgn w x) (n mod 32 - 1))) (src1 (cc c)) (sgn w x / 2 ^ (n mod 32)) c Hok
        (fo_src1 c Hok) (bool_val_b2z _) ltac:(rewrite !elem_of_cons; auto)) as Hf. cbv zeta in Hf. rewrite b2z_1 in Hf.
      eexists. split; [eexists; split; [|split; [|exact Hf]]|].
      * rewrite (SAR_eval a b x n c Ha Hb Hx Hn). cbn [r_res mk_result]. by rewrite (sext_mod w).
      * done.
      * done.
Qed.

End Shifts.

(** ** Rotates *)

(** Rotation of a [w]-bit value, and through the carry of a [w + 1]-bit one. *)
Definition rotl (w x n : Z) : Z := (x * 2 ^ n) mod 2 ^ w + x / 2 ^ (w - n).
Definition rotr (w x n : Z) : Z := x / 2 ^ n + (x * 2 ^ (w - n)) mod 2 ^ w.
Definition with_carry (w x : Z) (cf : bool) : Z := x + b2z cf * 2 ^ w.

Section Rotates.
Context {D : Type}.
Implicit Types (c : CPUI386 D) (a b : Operand D).

Definition rotated c (cf1 of1 : Z) : CPUI386 D :=
  c <| flags := SET_BIT (SET_BIT (flags c) cf1 CF) of1 OF |>
    <| cc := (cc c) <| mask := Z.land (mask (cc c)) (Z.lnot (Z.lor CF OF)) |> |>.
Lemma rotate_flags_eval c cf1 of1 : rotate_flags cf1 of1 c = Done (tt, rotated c cf1 of1).
Proof. reflexivity. Qed.

Lemma rotated_mask c cf1 of1 i : 0 <= i ->
  Z.testbit (mask (cc (rotated c cf1 of1))) i =
    Z.testbit (mask (cc c)) i && negb (bool_decide (i = 0)) && negb (bool_decide (i = 11)).
Proof.
  intros Hi. unfold rotated. cbn [cc set_field mask]. change (Z.lor CF OF) with (Z.lor (Z.shiftl 1 0) (Z.shiftl 1 11)).
  rewrite Z.land_spec, Z.lnot_spec, testbit_set, shiftl_1_testbit by lia.
  rewrite (bool_decide_ext (0 = i) (i = 0)), (bool_decide_ext (11 = i) (i = 11)) by (split; congruence).
  destruct (bool_decide (i = 0)), (bool_decide (i = 11)); by rewrite ?andb_true_r, ?andb_false_r.
Qed.
Lemma rotated_bit c cf1 of1 i : flags_ok c -> bool_val cf1 -> bool_val of1 -> 0 <= i ->
  Z.testbit (flags (rotated c cf1 of1)) i =
    if decide (i = 11) then of1 =? 1 else if decide (i = 0) then cf1 =? 1 else Z.testbit (flags c) i.
Proof.
  intros Hok Hc Ho Hi. unfold rotated. cbn [flags set_field]. change CF with (Z.shiftl 1 0). change OF with (Z.shiftl 1 11).
  rewrite !SET_BIT_testbit; try done; try lia; try apply Hok. apply SET_BIT_inw; [apply Hok|by apply inw_bit].
Qed.

Lemma eflag_lazy_same c c' j : j ∈ arith_bits -> j <> 0 -> j <> 11 ->
  lazy c (Z.shiftl 1 j) = true -> lazy c' (Z.shiftl 1 j) = true ->
  op (cc c') = op (cc c) -> dst (cc c') = dst (cc c) -> src1 (cc c') = src1 (cc c) -> src2 (cc c') = src2 (cc c) ->
  eflag c' j = eflag c j.
Proof.
  unfold arith_bits. rewrite !elem_of_cons, elem_of_nil. intros Hj H0 H11 Hl Hl' Eo Ed E1 E2.
  unfold eflag. destruct Hj as [-> |[-> |[-> |[-> |[-> |[-> |[]]]]]]]; try done; cbn [arith_flag Z.eqb Pos.eqb default];
    unfold get_PF, get_AF, get_ZF, get_SF; change PF with (Z.shiftl 1 2); change AF with (Z.shiftl 1 4);
    change ZF with (Z.shiftl 1 6); change SF with (Z.shiftl 1 7); by rewrite Hl, Hl', ?Eo, Ed, ?E1, ?E2.
Qed.

(** A rotate shows its carry and overflow and leaves every other flag. *)
Lemma rotate_flags_shows c cf1 of1 : flags_ok c -> bool_val cf1 -> bool_val of1 ->
  flags_ok (rotated c cf1 of1) /\ eflag (rotated c cf1 of1) 0 = (cf1 =? 1) /\ eflag (rotated c cf1 of1) 11 = (of1 =? 1) /\
  forall j, 0 <= j -> j <> 0 -> j <> 11 -> eflag (rotated c cf1 of1) j = eflag c j.
Proof.
  intros Hok Hc Ho. set (c' := rotated c cf1 of1).
  assert (Hl : forall i, i = 0 \/ i = 11 -> lazy c' (Z.shiftl 1 i) = false).
  { intros i Hi. rewrite lazy_bit by lia. unfold c'. rewrite rotated_mask by lia. destruct Hi as [-> | ->]; cbn; by rewrite andb_false_r. }
  assert (Hm : mul_ok c') by (intros Hb; change OF with (Z.shiftl 1 11) in Hb; by rewrite (Hl 11) in Hb by auto).
  split; [|split; [|split]].
  - destruct Hok. constructor; try done.
    + unfold c', rotated. cbn [flags set_field]. apply SET_BIT_inw; [apply SET_BIT_inw|]; try done; split; vm_compute; congruence.
    + intros Hb. change CF with (Z.shiftl 1 0) in Hb. by rewrite (Hl 0) in Hb by auto.
  - rewrite eflag_cases, Hl by (done || (unfold arith_bits; rewrite ?elem_of_cons; auto)).
    unfold c'. by rewrite rotated_bit by (done || lia).
  - rewrite eflag_cases, Hl by (done || (unfold arith_bits; rewrite ?elem_of_cons; auto 10)).
    unfold c'. by rewrite rotated_bit by (done || lia).
  - intros j Hj H0 H11. assert (Hf : Z.testbit (flags c') j = Z.testbit (flags c) j).
    { unfold c'. rewrite rotated_bit by done. by rewrite !decide_False by done. }
    destruct (decide (j ∈ arith_bits)) as [Hin|Hn]; [|unfold eflag; by rewrite !arith_flag_None].
    rewrite (eflag_cases_but c' j), (eflag_cases_but c j) by done. rewrite !lazy_bit by done.
    assert (Z.testbit (mask (cc c')) j = Z.testbit (mask (cc c)) j) as ->.
    { unfold c'. rewrite rotated_mask, !bool_decide_false by done. by rewrite !andb_true_r. }
    destruct (Z.testbit (mask (cc c)) j) eqn:Eb; [|done].
    apply eflag_lazy_same; try done; rewrite lazy_bit by done; [exact Eb|]. cbn [cc set_field].
    unfold c'. rewrite rotated_mask, !bool_decide_false by done. by rewrite !andb_true_r.
Qed.

(** Every bit of a rotation. *)
Lemma rotl_bit v x n i : inw v x -> 0 <= n <= v -> 0 <= i < v ->
  Z.testbit (rotl v x n) i = if i <? n then Z.testbit x (i + v - n) else Z.testbit x (i - n).
Proof.
  intros Hx Hn Hi. assert (Hs : inw n (Z.shiftr x (v - n))).
  { apply inw_shiftr_to; [lia..|]. by replace (n + (v - n)) with v by lia. }
  unfold rotl. rewrite <- Z.shiftr_div_pow2 by lia.
  replace ((x * 2 ^ n) mod 2 ^ v) with (x mod 2 ^ (v - n) * 2 ^ n).
  2:{ replace v with (v - n + n) at 2 by lia. rewrite Z.pow_add_r by lia.
      by rewrite Z.mul_mod_distr_r by (pose proof (pow2_pos n); pose proof (pow2_pos (v - n)); lia). }
  rewrite Z.add_comm, <- (lor_shiftl_add n) by (done || lia). rewrite Z.lor_spec, Z.shiftr_spec, Z.shiftl_spec by lia.
  destruct (Z.ltb_spec i n).
  - rewrite (Z.testbit_neg_r _ (i - n)) by lia. rewrite orb_false_r. f_equal. lia.
  - rewrite Z.mod_pow2_bits_low by lia. rewrite (inw_testbit_high v x) by (done || lia). done.
Qed.
Lemma rotr_rotl v x n : rotr v x n = rotl v x (v - n).
Proof. unfold rotr, rotl. replace (v - (v - n)) with n by lia. lia. Qed.
Lemma with_carry_bit w x cf i : inw w x -> 0 <= i <= w ->
  Z.testbit (with_carry w x cf) i = if i =? w then cf else Z.testbit x i.
Proof.
  intros Hx Hi. pose proof (inw_nonneg_width _ _ Hx). unfold with_carry. rewrite <- (lor_shiftl_add w) by done.
  rewrite Z.lor_spec, Z.shiftl_spec by lia. destruct (Z.eqb_spec i w) as [->|].
  - rewrite (inw_testbit_high w x) by (done || lia). rewrite Z.sub_diag. by destruct cf.
  - rewrite (Z.testbit_neg_r _ (i - w)) by lia. apply orb_false_r.
Qed.
Lemma inw_with_carry w x cf : inw w x -> inw (w + 1) (with_carry w x cf).
Proof.
  intros Hx. pose proof (inw_nonneg_width _ _ Hx). unfold with_carry, inw in *. rewrite Z.pow_add_r by lia.
  destruct cf; cbn [b2z]; lia.
Qed.

Context (w : Z) `{OpSize w}.

Lemma sext_bits y z : (forall i, 0 <= i < w -> Z.testbit y i = Z.testbit z i) -> sext w y = sext w z.
Proof.
  assert (8 <= w <= 32) by done. intros Hb. apply sext_congr; [done|]. apply (bits_ext w); [lia|apply inw_mod; lia..|].
  intros i Hi. rewrite !Z.mod_pow2_bits_low by lia. by apply Hb.
Qed.
Lemma u32_shl_bit x n i : 0 <= n -> 0 <= i < 32 -> Z.testbit (u32 (Z.shiftl x n)) i = Z.testbit x (i - n).
Proof. intros. unfold u32. by rewrite Z.mod_pow2_bits_low, Z.shiftl_spec by lia. Qed.

(** The words the rotates build, against the rotations. *)
Lemma rol_word x n : inw w x -> 0 < n < w -> sext w (Z.lor (u32 (Z.shiftl x n)) (Z.shiftr x (w - n))) = sext w (rotl w x n).
Proof.
  intros Hx Hn. assert (8 <= w <= 32) by done. apply sext_bits. intros i Hi.
  rewrite rotl_bit by (done || lia). rewrite Z.lor_spec, u32_shl_bit, Z.shiftr_spec by lia.
  destruct (Z.ltb_spec i n).
  - rewrite Z.testbit_neg_r by lia. cbn [orb]. f_equal. lia.
  - rewrite (inw_testbit_high w x (i + _)) by (done || lia). apply orb_false_r.
Qed.
Lemma ror_word x n : inw w x -> 0 < n < w -> sext w (Z.lor (Z.shiftr x n) (u32 (Z.shiftl x (w - n)))) = sext w (rotr w x n).
Proof.
  intros Hx Hn. rewrite rotr_rotl, <- rol_word by (done || lia). rewrite Z.lor_comm. do 3 f_equal. lia.
Qed.
Lemma rcl_word x n cf : inw w x -> 0 < n <= w -> n < 32 ->
  sext w (Z.lor (Z.lor (u32 (Z.shiftl x n)) (u32 (Z.shiftl (b2z cf) (n - 1))))
            (if negb (n =? 1) then Z.shiftr x (w + 1 - n) else 0)) = sext w (rotl (w + 1) (with_carry w x cf) n).
Proof.
  intros Hx Hn Hn32. assert (8 <= w <= 32) by done. apply sext_bits. intros i Hi.
  rewrite rotl_bit by (try apply inw_with_carry; done || lia). rewrite !Z.lor_spec, !u32_shl_bit by lia.
  assert (Hc : Z.testbit (b2z cf) (i - (n - 1)) = if i =? n - 1 then cf else false).
  { destruct (Z.eqb_spec i (n - 1)) as [->|]; [rewrite Z.sub_diag; by destruct cf|].
    destruct (Z.lt_ge_cases i (n - 1)); [by rewrite Z.testbit_neg_r by lia|].
    apply (inw_testbit_high 1); [destruct cf; split; cbn; lia|lia]. }
  rewrite Hc. destruct (Z.ltb_spec i n).
  - rewrite with_carry_bit by (done || lia). rewrite Z.testbit_neg_r by lia. cbn [orb].
    destruct (Z.eqb_spec (i + (w + 1) - n) w), (Z.eqb_spec i (n - 1)); try lia.
    + destruct (Z.eqb_spec n 1); cbn [negb]; [by rewrite Z.testbit_0_l, orb_false_r|].
      rewrite Z.shiftr_spec, (inw_testbit_high w x) by (done || lia). apply orb_false_r.
    + destruct (Z.eqb_spec n 1); cbn [negb]; [lia|]. rewrite Z.shiftr_spec by lia. cbn [orb]. f_equal. lia.
  - rewrite with_carry_bit by (done || lia). destruct (Z.eqb_spec (i - n) w), (Z.eqb_spec i (n - 1)); try lia.
    rewrite orb_false_r. destruct (negb _); [|by rewrite Z.testbit_0_l, orb_false_r].
    rewrite Z.shiftr_spec, (inw_testbit_high w x (i + _)) by (done || lia). apply orb_false_r.
Qed.
Lemma rcr_word x n cf : inw w x -> 0 < n <= w -> n < 32 ->
  sext w (Z.lor (Z.lor (Z.shiftr x n) (u32 (Z.shiftl (b2z cf) (w - n))))
            (if negb (n =? 1) then u32 (Z.shiftl x (w + 1 - n)) else 0)) = sext w (rotr (w + 1) (with_carry w x cf) n).
Proof.
  intros Hx Hn Hn32. assert (8 <= w <= 32) by done. apply sext_bits. intros i Hi.
  rewrite rotr_rotl, rotl_bit by (try apply inw_with_carry; done || lia). rewrite !Z.lor_spec, u32_shl_bit, Z.shiftr_spec by lia.
  assert (Hc : Z.testbit (b2z cf) (i - (w - n)) = if i =? w - n then cf else false).
  { destruct (Z.eqb_spec i (w - n)) as [->|]; [rewrite Z.sub_diag; by destruct cf|].
    destruct (Z.lt_ge_cases i (w - n)); [by rewrite Z.testbit_neg_r by lia|].
    apply (inw_testbit_high 1); [destruct cf; split; cbn; lia|lia]. }
  rewrite Hc. assert (Hv : Z.testbit (if negb (n =? 1) then u32 (Z.shiftl x (w + 1 - n)) else 0) i =
    if i <? w + 1 - n then false else Z.testbit x (i - (w + 1 - n))).
  { destruct (Z.eqb_spec n 1); cbn [negb].
    - rewrite Z.testbit_0_l. destruct (Z.ltb_spec i (w + 1 - n)); [done|lia].
    - rewrite u32_shl_bit by lia. destruct (Z.ltb_spec i (w + 1 - n)); [by rewrite Z.testbit_neg_r by lia|done]. }
  rewrite Hv. destruct (Z.ltb_spec i (w + 1 - n)).
  - rewrite with_carry_bit by (done || lia). rewrite orb_false_r.
    destruct (Z.eqb_spec (i + (w + 1) - (w + 1 - n)) w), (Z.eqb_spec i (w - n)); try lia.
    + by rewrite (inw_testbit_high w x) by (done || lia).
    + rewrite orb_false_r. f_equal. lia.
  - rewrite with_carry_bit by (done || lia). rewrite (inw_testbit_high w x (i + n)) by (done || lia).
    destruct (Z.eqb_spec (i - (w + 1 - n)) w), (Z.eqb_spec i (w - n)); try lia. done.
Qed.

Lemma lxor_b2z (s t : bool) : Z.lxor (b2z s) (b2z t) = b2z (xorb s t).
Proof. by destruct s, t. Qed.
Lemma low_sext_bit z : Z.land (sext w z) 1 = b2z (Z.testbit z 0).
Proof. assert (8 <= w <= 32) by done. rewrite low1, <- Z.bit0_odd. by rewrite (sext_bit w) by lia. Qed.
Lemma right_overflow z : Z.land (Z.shiftr (Z.lxor (sext w z) (u32 (Z.shiftl (sext w z) 1))) (w - 1)) 1 =
  b2z (xorb (Z.testbit z (w - 1)) (Z.testbit z (w - 2))).
Proof.
  assert (8 <= w <= 32) by done. rewrite low_bit, Z.lxor_spec, u32_shl_bit by lia.
  rewrite !(sext_bit w) by lia. do 3 f_equal; lia.
Qed.

Inductive rotop : Set := OpROL | OpROR | OpRCL | OpRCR.
Definition run_rotate (o : rotop) : Operand D -> Operand D -> ST (CPUI386 D) unit :=
  match o with OpROL => ROL_helper w | OpROR => ROR_helper w | OpRCL => RCL_helper w | OpRCR => RCR_helper w end.

(** The manual's count, result with the carry above it, and one-bit overflow. *)
Definition ref_count (o : rotop) (n : Z) : Z :=
  match o with OpROL | OpROR => n mod w | _ => n mod 32 mod (w + 1) end.
Definition ref_rotate (o : rotop) (x n : Z) (cf : bool) : Z :=
  match o with
  | OpROL => rotl w x n | OpROR => rotr w x n
  | OpRCL => rotl (w + 1) (with_carry w x cf) n | OpRCR => rotr (w + 1) (with_carry w x cf) n
  end.
Definition ref_rotate_cf (o : rotop) (r : Z) : bool :=
  match o with OpROL => Z.testbit r 0 | OpROR => Z.testbit r (w - 1) | _ => Z.testbit r w end.
Definition ref_rotate_of (o : rotop) (r : Z) : bool :=
  match o with
  | OpROL | OpRCL => xorb (Z.testbit r (w - 1)) (ref_rotate_cf o r)
  | OpROR | OpRCR => xorb (Z.testbit r (w - 1)) (Z.testbit r (w - 2))
  end.

Lemma mask_mod n : op_width w -> Z.land n (w - 1) = n mod w.
Proof.
  intros [E|[E|E]]; rewrite E; [apply (land_ones_mod 3)|apply (land_ones_mod 4)|apply (land_ones_mod 5)]; lia.
Qed.

Lemma ROL_eval a b x n c : op_width w -> reads a x c -> reads b n c -> inw w x -> n mod w <> 0 ->
  let r := rotl w x (n mod w) in
  ROL_helper w a b c = (_ ← sa a (sext w r);
    rotate_flags (b2z (ref_rotate_cf OpROL r)) (b2z (ref_rotate_of OpROL r))) c.
Proof.
  intros Hw Ha Hb Hx Hn r. assert (8 <= w <= 32) by done. pose proof (Z.mod_pos_bound n w ltac:(lia)).
  assert (Hn0 : nz n = true). { unfold nz. destruct (Z.eqb_spec n 0) as [->|]; [by rewrite Z.mod_0_l in Hn by lia|done]. }
  unfold ROL_helper. rewrite (st_bind_done _ _ _ _ _ (reads_here _ _ _ Ha)), (st_bind_done _ _ _ _ _ (reads_here _ _ _ Hb)).
  rewrite mask_mod, Hn0 by done. unfold nz. rewrite (proj2 (Z.eqb_neq _ _) Hn). cbn [negb].
  rewrite shl32_done, shr32_done by lia. unfold mbind, ST_bind, lift. cbn [fst snd].
  rewrite rol_word by (done || lia). fold r.
  destruct (sa a (sext w r) c) as [[u c1]|]; [|done]. cbn [fst snd mret ST_ret].
  rewrite low_sext_bit, (sext_top w), lxor_b2z. done.
Qed.
Lemma ROR_eval a b x n c : op_width w -> reads a x c -> reads b n c -> inw w x -> n mod w <> 0 ->
  let r := rotr w x (n mod w) in
  ROR_helper w a b c = (_ ← sa a (sext w r);
    rotate_flags (b2z (ref_rotate_cf OpROR r)) (b2z (ref_rotate_of OpROR r))) c.
Proof.
  intros Hw Ha Hb Hx Hn r. assert (8 <= w <= 32) by done. pose proof (Z.mod_pos_bound n w ltac:(lia)).
  assert (Hn0 : nz n = true). { unfold nz. destruct (Z.eqb_spec n 0) as [->|]; [by rewrite Z.mod_0_l in Hn by lia|done]. }
  unfold ROR_helper. rewrite (st_bind_done _ _ _ _ _ (reads_here _ _ _ Ha)), (st_bind_done _ _ _ _ _ (reads_here _ _ _ Hb)).
  rewrite mask_mod, Hn0 by done. unfold nz. rewrite (proj2 (Z.eqb_neq _ _) Hn). cbn [negb].
  rewrite shl32_done, shr32_done by lia. unfold mbind, ST_bind, lift. cbn [fst snd].
  rewrite ror_word by (done || lia). fold r.
  destruct (sa a (sext w r) c) as [[u c1]|]; [|done]. cbn [fst snd mret ST_ret].
  rewrite low_bit, right_overflow, (sext_bit w) by lia. done.
Qed.
Lemma RCL_eval a b x n c : flags_ok c -> reads a x c -> reads b n c -> inw w x -> n mod 32 mod (w + 1) <> 0 ->
  let r := rotl (w + 1) (with_carry w x (eflag c 0)) (n mod 32 mod (w + 1)) in
  RCL_helper w a b c =
    sa a (sext w r) (rotated c (b2z (ref_rotate_cf OpRCL r)) (b2z (ref_rotate_of OpRCL r))).
Proof.
  intros Hok Ha Hb Hx Hn r. assert (8 <= w <= 32) by done. pose proof (Z.mod_pos_bound (n mod 32) (w + 1) ltac:(lia)).
  pose proof (count_range n). assert (n mod 32 mod (w + 1) <= n mod 32) by (apply Z.mod_le; lia).
  set (y := n mod 32 mod (w + 1)) in *.
  unfold RCL_helper. rewrite (st_bind_done _ _ _ _ _ (reads_here _ _ _ Ha)), (st_bind_done _ _ _ _ _ (reads_here _ _ _ Hb)), count_low.
  fold y. unfold nz. rewrite (proj2 (Z.eqb_neq _ _) Hn). cbn [negb].
  rewrite (st_bind_done _ _ c (b2z (eflag c 0)) c) by (unfold fetch_CF, lift; by rewrite (carry_in c Hok)).
  assert (Ev : (if negb (y =? 1) then shr32 x (w + 1 - y) else Done 0) = Done (if negb (y =? 1) then Z.shiftr x (w + 1 - y) else 0)).
  { destruct (Z.eqb_spec y 1); [done|]. cbn [negb]. rewrite shr32_done by lia. done. }
  rewrite Ev, !shl32_done, shr32_done by lia. rewrite !lift_bind. rewrite rcl_word by (done || lia). fold r.
  rewrite (st_bind_done _ _ _ _ _ (rotate_flags_eval _ _ _)). rewrite low_bit, (sext_top w) by lia.
  assert (Er : ref_rotate_cf OpRCL r = Z.testbit x (w - y)).
  { cbn [ref_rotate_cf]. unfold r. rewrite rotl_bit by (try apply inw_with_carry; done || lia).
    destruct (Z.ltb_spec w y); [lia|]. rewrite with_carry_bit by (done || lia). destruct (Z.eqb_spec (w - y) w); [lia|done]. }
  rewrite lxor_b2z, <- Er. done.
Qed.
Lemma RCR_eval a b x n c : flags_ok c -> reads a x c -> reads b n c -> inw w x -> n mod 32 mod (w + 1) <> 0 ->
  let r := rotr (w + 1) (with_carry w x (eflag c 0)) (n mod 32 mod (w + 1)) in
  RCR_helper w a b c =
    sa a (sext w r) (rotated c (b2z (ref_rotate_cf OpRCR r)) (b2z (ref_rotate_of OpRCR r))).
Proof.
  intros Hok Ha Hb Hx Hn r. assert (8 <= w <= 32) by done. pose proof (Z.mod_pos_bound (n mod 32) (w + 1) ltac:(lia)).
  pose proof (count_range n). assert (n mod 32 mod (w + 1) <= n mod 32) by (apply Z.mod_le; lia).
  set (y := n mod 32 mod (w + 1)) in *.
  unfold RCR_helper. rewrite (st_bind_done _ _ _ _ _ (reads_here _ _ _ Ha)), (st_bind_done _ _ _ _ _ (reads_here _ _ _ Hb)), count_low.
  fold y. unfold nz. rewrite (proj2 (Z.eqb_neq _ _) Hn). cbn [negb].
  rewrite (st_bind_done _ _ c (b2z (eflag c 0)) c) by (unfold fetch_CF, lift; by rewrite (carry_in c Hok)).
  assert (Ev : (if negb (y =? 1) then shl32 x (w + 1 - y) else Done 0) = Done (if negb (y =? 1) then u32 (Z.shiftl x (w + 1 - y)) else 0)).
  { destruct (Z.eqb_spec y 1); [done|]. cbn [negb]. rewrite shl32_done by lia. done. }
  rewrite Ev, !shl32_done, shr32_done by lia. rewrite !lift_bind. rewrite rcr_word by (done || lia). fold r.
  rewrite (st_bind_done _ _ _ _ _ (rotate_flags_eval _ _ _)). rewrite low_bit, right_overflow, (sext_bit w) by lia.
  assert (Er : ref_rotate_cf OpRCR r = Z.testbit (u32 (Z.shiftl x (w - y))) (w - 1)).
  { cbn [ref_rotate_cf]. unfold r. rewrite rotr_rotl, rotl_bit, u32_shl_bit by (try apply inw_with_carry; done || lia).
    destruct (Z.ltb_spec w (w + 1 - y)); [lia|]. rewrite with_carry_bit by (done || lia).
    destruct (Z.eqb_spec (w - (w + 1 - y)) w); [lia|]. f_equal. lia. }
  rewrite <- Er. done.
Qed.

Definition stores_quietly a : Prop :=
  forall v c, exists c', sa a v c = Done (tt, c') /\ flags c' = flags c /\ cc c' = cc c.

(** Storing the result and showing its carry and overflow, in one order or the other. *)
Definition rotates (m : ST (CPUI386 D) unit) a (r : Z) (cf o : bool) c : Prop :=
  exists c0 c0' c2, m c = Done (tt, c2) /\ only_flags c c0 /\ sa a (sext w r) c0 = Done (tt, c0') /\ only_flags c0' c2 /\
    flags_ok c2 /\ eflag c2 0 = cf /\ eflag c2 11 = o /\ forall j, 0 <= j -> j <> 0 -> j <> 11 -> eflag c2 j = eflag c j.

Lemma flags_ok_ext c c' : flags c' = flags c -> cc c' = cc c -> flags_ok c -> flags_ok c'.
Proof.
  intros Hf Hc [H1 H2 H3 H4 H5 H6]. unfold lazy in H6. constructor; unfold lazy; rewrite ?Hc, ?Hf; done.
Qed.

Lemma store_then_rotate a r cf o c : flags_ok c -> stores_quietly a ->
  rotates (_ ← sa a (sext w r); rotate_flags (b2z cf) (b2z o)) a r cf o c.
Proof.
  intros Hok Hq. destruct (Hq (sext w r) c) as (c' & E & Hf & Hc). pose proof (flags_ok_ext c c' Hf Hc Hok) as Hok'.
  destruct (rotate_flags_shows c' _ _ Hok' (bool_val_b2z cf) (bool_val_b2z o)) as (Hok2 & E0 & E11 & Ej).
  rewrite b2z_1 in E0, E11. exists c, c', (rotated c' (b2z cf) (b2z o)).
  split; [by rewrite (st_bind_done _ _ _ _ _ E)|]. split; [by destruct c|]. split; [done|]. split; [done|]. split; [done|].
  split; [done|]. split; [done|]. intros j Hj H0 H11. rewrite Ej by done. by apply eflag_ext.
Qed.
Lemma rotate_then_store a r cf o c (m : ST (CPUI386 D) unit) : flags_ok c -> stores_quietly a ->
  m c = sa a (sext w r) (rotated c (b2z cf) (b2z o)) -> rotates m a r cf o c.
Proof.
  intros Hok Hq Hm. set (c0 := rotated c (b2z cf) (b2z o)) in *. destruct (Hq (sext w r) c0) as (c' & E & Hf & Hc).
  destruct (rotate_flags_shows c _ _ Hok (bool_val_b2z cf) (bool_val_b2z o)) as (Hok2 & E0 & E11 & Ej).
  rewrite b2z_1 in E0, E11. fold c0 in Hok2, E0, E11, Ej. exists c0, c', c'. rewrite Hm. split; [done|]. split; [done|]. split; [done|].
  split; [by destruct c'|]. split; [by apply (flags_ok_ext c0)|]. rewrite !(eflag_ext c0 c') by done.
  split; [done|]. split; [done|]. intros j Hj H0 H11. rewrite (eflag_ext c0 c') by done. by apply Ej.
Qed.

(** Rotates implement the manual's rotation of [w] bits (ROL, ROR) or of the
    [w + 1] bits with the carry on top (RCL, RCR): they store the rotated value
    and show its carry and, for any count, the one-bit overflow formula; every
    other flag stays.  A count of zero changes nothing.  A nonzero count that is
    a multiple of the size sets the carry of ROL from the unrotated operand, also
    when it is 32, a count the manual reduces to zero. *)
Theorem rotate_reference o a b x n c :
  op_width w -> flags_ok c -> stores_quietly a -> reads a x c -> reads b n c -> inw w x ->
  let y := ref_count o n in let r := ref_rotate o x y (eflag c 0) in
  (y <> 0 -> rotates (run_rotate o a b) a r (ref_rotate_cf o r) (ref_rotate_of o r) c) /\
  (y = 0 -> o = OpRCL \/ o = OpRCR \/ n = 0 -> run_rotate o a b c = Done (tt, c)) /\
  (y = 0 -> o = OpROL -> n <> 0 ->
     exists c', run_rotate o a b c = Done (tt, c') /\ only_flags c c' /\ eflag c' 0 = Z.testbit x 0).
Proof.
  intros Hw Hok Hq Ha Hb Hx y r. assert (8 <= w <= 32) by done. split; [|split].
  - intros Hy. destruct o; cbn [run_rotate ref_count] in *.
    + pose proof (ROL_eval a b x n c Hw Ha Hb Hx Hy) as E. cbv zeta in E.
      destruct (store_then_rotate a r (ref_rotate_cf OpROL r) (ref_rotate_of OpROL r) c Hok Hq) as (c0 & c0' & c2 & E' & Hr).
      exists c0, c0', c2. by rewrite E.
    + pose proof (ROR_eval a b x n c Hw Ha Hb Hx Hy) as E. cbv zeta in E.
      destruct (store_then_rotate a r (ref_rotate_cf OpROR r) (ref_rotate_of OpROR r) c Hok Hq) as (c0 & c0' & c2 & E' & Hr).
      exists c0, c0', c2. by rewrite E.
    + apply rotate_then_store; [done|done|]. exact (RCL_eval a b x n c Hok Ha Hb Hx Hy).
    + apply rotate_then_store; [done|done|]. exact (RCR_eval a b x n c Hok Ha Hb Hx Hy).
  - intros Hy Ho. destruct o; cbn [run_rotate ref_count] in *; subst y.
    1,2: destruct Ho as [Ho|[Ho| ->]]; try discriminate Ho; unfold ROL_helper, ROR_helper;
      rewrite (st_bind_done _ _ _ _ _ (reads_here _ _ _ Ha)), (st_bind_done _ _ _ _ _ (reads_here _ _ _ Hb)); by rewrite Z.land_0_l.
    1,2: unfold RCL_helper, RCR_helper; rewrite (st_bind_done _ _ _ _ _ (reads_here _ _ _ Ha)),
      (st_bind_done _ _ _ _ _ (reads_here _ _ _ Hb)), count_low, Hy; done.
  - intros Hy -> Hn. cbn [run_rotate ref_count] in *. subst y. unfold ROL_helper.
    rewrite (st_bind_done _ _ _ _ _ (reads_here _ _ _ Ha)), (st_bind_done _ _ _ _ _ (reads_here _ _ _ Hb)), mask_mod, Hy by done.
    change (nz 0) with false. cbv iota. rewrite (st_bind_done _ _ c x c) by done.
    unfold nz. rewrite (proj2 (Z.eqb_neq _ _) Hn). cbn [negb]. rewrite rotate_flags_eval.
    assert (Hof : Z.lxor (Z.shiftr x 31) (Z.land x 1) = b2z (xorb (Z.testbit x 31) (Z.odd x))).
    { rewrite top31 by (apply (inw_mono w); done || lia). by rewrite low1, lxor_b2z. }
    rewrite Hof, low1. eexists. split; [reflexivity|]. split; [done|].
    destruct (rotate_flags_shows c _ _ Hok (bool_val_b2z (Z.odd x)) (bool_val_b2z (xorb (Z.testbit x 31) (Z.odd x)))) as (_ & E0 & _).
    rewrite E0, b2z_1. symmetry. apply Z.bit0_odd.
Qed.

End Rotates.

(** ** Bit scans *)

Lemma bsf_loop_spec fuel src temp : 0 < src < 2 ^ Z.of_nat fuel ->
  exists t, bsf_loop fuel src temp = Done (temp + t) /\ 0 <= t < Z.of_nat fuel /\ Z.testbit src t = true /\
    forall i, 0 <= i < t -> Z.testbit src i = false.
Proof.
  revert src temp. induction fuel as [|fuel IH]; intros src temp Hs; [cbn in Hs; lia|].
  cbn [bsf_loop]. rewrite low1, <- Z.bit0_odd. destruct (Z.testbit src 0) eqn:E0; cbn [b2z Z.eqb].
  - exists 0. rewrite Z.add_0_r. split; [done|]. split; [lia|]. split; [done|]. lia.
  - assert (Hd : src = 2 * Z.shiftr src 1).
    { rewrite Z.shiftr_div_pow2 by lia. change (2 ^ 1) with 2. rewrite Z.bit0_odd in E0.
      pose proof (Zeven.Zdiv2_odd_eqn src) as Hq. rewrite E0 in Hq. rewrite Z.div2_div in Hq. lia. }
    rewrite Nat2Z.inj_succ, Z.pow_succ_r in Hs by lia.
    destruct (IH (Z.shiftr src 1) (temp + 1)) as (t & -> & Ht & Hb & Hlow); [lia|].
    exists (t + 1). split; [f_equal; lia|]. split; [lia|]. rewrite Z.shiftr_spec in Hb by lia. split; [done|].
    intros i Hi. destruct (decide (i = 0)) as [->|]; [done|]. specialize (Hlow (i - 1) ltac:(lia)).
    rewrite Z.shiftr_spec in Hlow by lia. by replace (i - 1 + 1) with i in Hlow by lia.
Qed.

Section Scans.
Context {D : Type} (w : Z) `{OpSize w}.
Implicit Types (c : CPUI386 D) (a b : Operand D).

Lemma sgn_nonneg z : (0 <=? sgn w z) = negb (Z.testbit z (w - 1)).
Proof.
  assert (8 <= w <= 32) by done. rewrite (top_bit w), negb_involutive. pose proof (pow2_half w ltac:(lia)).
  pose proof (Z.mod_pos_bound z (2 ^ w) (pow2_pos w ltac:(lia))). unfold sgn. cbv zeta.
  destruct (Z.ltb_spec (z mod 2 ^ w) (2 ^ (w - 1))); [apply Z.leb_le|apply Z.leb_gt]; lia.
Qed.
Lemma sgn_shift z n : 0 <= n -> sgn w (Z.shiftl (sgn w z) n) = sgn w (Z.shiftl z n).
Proof.
  intros Hn. assert (8 <= w <= 32) by done.
  assert (E : sgn w z mod 2 ^ w = z mod 2 ^ w).
  { rewrite <- (sext_low w z). unfold sext, u32. rewrite mod_mod_pow2 by lia. done. }
  unfold sgn at 1 3. assert (Z.shiftl (sgn w z) n mod 2 ^ w = Z.shiftl z n mod 2 ^ w) as ->; [|done].
  apply Z.bits_inj'. intros i Hi. destruct (Z.lt_ge_cases i w); [|by rewrite !Z.mod_pow2_bits_high by lia].
  rewrite !Z.mod_pow2_bits_low, !Z.shiftl_spec by lia. destruct (Z.lt_ge_cases (i - n) 0); [by rewrite !Z.testbit_neg_r|].
  rewrite <- (Z.mod_pow2_bits_low z w), <- E by lia. by rewrite Z.mod_pow2_bits_low by lia.
Qed.

(** After [k] steps the scan from the top is at bit [w - 1 - k]. *)
Lemma bsr_loop_spec fuel s k t : Z.testbit s t = true -> 0 <= k -> 0 <= t < w -> w - 1 - k < t + Z.of_nat fuel -> t <= w - 1 - k ->
  (forall i, t < i < w -> Z.testbit s i = false) ->
  bsr_loop fuel w (sgn w (Z.shiftl s k)) (w - 1 - k) = Done t.
Proof.
  assert (8 <= w <= 32) by done. revert k. induction fuel as [|fuel IH]; intros k Ht Hk Ht0 Hf Hle Hhi; [lia|].
  cbn [bsr_loop]. rewrite sgn_nonneg, Z.shiftl_spec by lia. destruct (decide (t = w - 1 - k)) as [->|Hne].
  - by rewrite Ht.
  - rewrite (Hhi (w - 1 - k)) by lia. cbn [negb]. rewrite sgn_shift, Z.shiftl_shiftl by lia.
    replace (w - 1 - k - 1) with (w - 1 - (k + 1)) by lia. apply IH; try done; lia.
Qed.

Definition scanned c (zf : bool) : CPUI386 D :=
  set_mask 0 c <| flags := if zf then Z.lor (flags c) ZF else Z.land (flags c) (u32 (Z.lnot ZF)) |>.

Lemma top_set_bit s : 0 < s < 2 ^ w -> exists t, 0 <= t < w /\ Z.testbit s t = true /\ forall i, t < i -> Z.testbit s i = false.
Proof.
  intros Hs. exists (Z.log2 s). split; [split; [apply Z.log2_nonneg|apply Z.log2_lt_pow2; lia]|].
  split; [apply Z.bit_log2; lia|]. intros i Hi. apply Z.bits_above_log2; lia.
Qed.

(** The bit scans end: on a nonzero operand BSF and BSR clear ZF and store the
    index of the lowest and of the highest set bit, after at most [w] steps of
    their loops; on zero they only set ZF. *)
Theorem bit_scans_end a b s c :
  reads b s c -> inw w s ->
  (s = 0 -> BSF_helper w a b c = Done (tt, scanned c true) /\ BSR_helper w a b c = Done (tt, scanned c true)) /\
  (s <> 0 -> exists lo hi, 0 <= lo <= hi /\ hi < w /\ Z.testbit s lo = true /\ Z.testbit s hi = true /\
     (forall i, 0 <= i -> Z.testbit s i = true -> lo <= i <= hi) /\
     BSF_helper w a b c = sa a lo (scanned c false) /\ BSR_helper w a b c = sa a hi (scanned c false)).
Proof.
  intros Hb Hs. assert (8 <= w <= 32) by done. assert (Hbe : forall {B} (k : Z -> ST (CPUI386 D) B), (la b ≫= k) c = k s c)
    by (intros; apply (st_bind_done _ _ _ _ _ (reads_here _ _ _ Hb))).
  assert (Hz : (sgn w s =? 0) = (s =? 0)).
  { unfold sgn. rewrite (Z.mod_small s) by done. unfold inw in Hs. pose proof (pow2_half w ltac:(lia)). cbv zeta.
    destruct (Z.ltb_spec s (2 ^ (w - 1))); [done|]. destruct (Z.eqb_spec (s - 2 ^ w) 0), (Z.eqb_spec s 0); done || lia. }
  unfold BSF_helper, BSR_helper. rewrite !Hbe, Hz. cbv zeta. split.
  - intros ->. done.
  - intros Hne. rewrite (proj2 (Z.eqb_neq _ _) Hne). unfold inw in Hs.
    destruct (bsf_loop_spec (Z.to_nat w) s 0) as (lo & El & Hl & Hlo & Hlow); [rewrite Z2Nat.id by lia; lia|].
    destruct (top_set_bit s) as (hi & Hhr & Hhi & Hhigh); [lia|]. rewrite Z2Nat.id in Hl by lia.
    assert (Hle : lo <= hi) by (destruct (Z.lt_ge_cases hi lo); [by rewrite (Hhigh lo) in Hlo by lia|lia]).
    exists lo, hi. split; [lia|]. split; [lia|]. split; [done|]. split; [done|]. split.
    { intros i Hi Ht. split.
      - destruct (Z.lt_ge_cases i lo); [by rewrite (Hlow i) in Ht by lia|lia].
      - destruct (Z.lt_ge_cases hi i); [by rewrite (Hhigh i) in Ht by lia|lia]. }
    rewrite !bind_set_cc. split.
    + unfold mbind, ST_bind, modify. cbn [fst snd]. unfold lift. rewrite El. cbn [fst snd Z.add]. done.
    + unfold mbind, ST_bind, modify. cbn [fst snd]. unfold lift.
      rewrite <- (Z.shiftl_0_r s). replace (w - 1) with (w - 1 - 0) by lia.
      rewrite (bsr_loop_spec _ s 0 hi); try done; try lia. intros i Hi. apply Hhigh. lia.
Qed.

End Scans.

(** ** The theorems at concrete instructions *)

Lemma shift_reference_witness :
  exists ov, does 8 (run_shift OpSHL 8 (reg8 1) (imm 1)) (reg8 1) (mk_result 8 (ref_shift OpSHL 8 255 1) (ref_shift_cf OpSHL 8 255 1) ov None) counting_cpu.
Proof.
  destruct (shift_reference 8 OpSHL (reg8 1) (imm 1) 255 1 counting_cpu counting_flags (reads_reg8 1 counting_cpu)
    (reads_imm 1 counting_cpu) byte_255) as [_ Hs].
  destruct Hs as (ov & Hd & _); [done|done|]. exists ov. exact Hd.
Defined.

Lemma quiet_reg8 {D : Type} i : stores_quietly (D := D) (reg8 i).
Proof. intros v c. eexists. split; [reflexivity|]. unfold sreg8, set_REGi. cbv zeta. by repeat case_match. Qed.

Lemma rotate_reference_witness :
  rotates 8 (run_rotate 8 OpROL (reg8 1) (imm 1)) (reg8 1) 255 true false counting_cpu.
Proof.
  destruct (rotate_reference 8 OpROL (reg8 1) (imm 1) 255 1 counting_cpu (or_introl eq_refl) counting_flags (quiet_reg8 1)
    (reads_reg8 1 counting_cpu) (reads_imm 1 counting_cpu) byte_255) as [Hr _]. apply Hr. done.
Defined.

Lemma bit_scans_end_witness :
  exists lo hi, Z.testbit 12 lo = true /\ Z.testbit 12 hi = true /\
    BSF_helper 16 (reg16 0) (imm 12) counting_cpu = Done (tt, sreg16 0 lo (scanned counting_cpu false)) /\
    BSR_helper 16 (reg16 0) (imm 12) counting_cpu = Done (tt, sreg16 0 hi (scanned counting_cpu false)).
Proof.
  destruct (bit_scans_end 16 (reg16 0) (imm 12) 12 counting_cpu (reads_imm 12 counting_cpu)) as [_ Hn]; [unfold inw; lia|].
  destruct Hn as (lo & hi & _ & _ & Hlo & Hhi & _ & El & Eh); [done|]. exists lo, hi.
  split; [exact Hlo|]. split; [exact Hhi|]. split; [exact El|exact Eh].
Defined.

End Shift.
