(* ===== verification/I386Mul.v ===== *)
(** * I386Mul: multiplication, division and decimal adjust (winspire/i386.c)

    The macros [MULb] ... [IMUL2dId], [DIVb] ... [IDIVd] and the helpers
    [__AAD_helper] ... [__AAS_helper].  A division that faults is the guest
    exception #DE; one that C leaves undefined is a stuck run. *)

From S2P Require Import Prelude I386 I386Alu.

Module Mul.
Import I386 Alu.

Section Operations.
Context {D : Type}.
Implicit Types (c : CPUI386 D) (a b : Operand D).

(** The two sources, the product and the lazy operation. *)
Definition set_product (name : CcOp) (s1 s2 d : Z) : ST (CPUI386 D) unit :=
  set_cc (fun k => k <| src1 := s1 |> <| src2 := s2 |> <| dst := d |> <| op := name |> <| mask := ARITH |>).
(** The 32-bit instructions keep the high half in [dst2]. *)
Definition set_product64 (name : CcOp) (s1 s2 res : Z) : ST (CPUI386 D) unit :=
  set_cc (fun k => k <| src1 := s1 |> <| src2 := s2 |> <| dst := u32 res |> <| dst2 := u32 (Z.shiftr res 32) |>
                     <| op := name |> <| mask := ARITH |>).

Definition MULb a : ST (CPUI386 D) unit :=
  s1 ← gets (lreg8 0); s2 ← la a; let d := sext16 (u32 (s1 * s2)) in
  _ ← set_product CC_MUL8 s1 s2 d; modify (sreg16 0 d).
Definition MULw a : ST (CPUI386 D) unit :=
  s1 ← gets (lreg16 0); s2 ← la a; let d := u32 (s1 * s2) in
  _ ← set_product CC_MUL16 s1 s2 d; _ ← modify (sreg16 0 d); modify (sreg16 2 (Z.shiftr d 16)).
Definition MULd a : ST (CPUI386 D) unit :=
  s1 ← gets (lreg32 0); s2 ← la a; let res := s1 * s2 in
  _ ← set_product64 CC_MUL32 s1 s2 res; _ ← modify (sreg32 0 (u32 res)); modify (sreg32 2 (u32 (Z.shiftr res 32))).
Definition IMULb a : ST (CPUI386 D) unit :=
  x ← gets (lreg8 0); y ← la a; let s1 := sext8 x in let s2 := sext8 y in let d := u32 (s1 * s2) in
  _ ← set_product CC_IMUL8 s1 s2 d; modify (sreg16 0 d).
Definition IMULw a : ST (CPUI386 D) unit :=
  x ← gets (lreg16 0); y ← la a; let s1 := sext16 x in let s2 := sext16 y in let d := u32 (s1 * s2) in
  _ ← set_product CC_IMUL16 s1 s2 d; _ ← modify (sreg16 0 d); modify (sreg16 2 (Z.shiftr d 16)).
Definition IMULd a : ST (CPUI386 D) unit :=
  x ← gets (lreg32 0); y ← la a; let s1 := sext32 x in let s2 := sext32 y in let res := s32 s1 * s32 s2 in
  _ ← set_product64 CC_IMUL32 s1 s2 res; _ ← modify (sreg32 0 (u32 res)); modify (sreg32 2 (u32 (Z.shiftr res 32))).
Definition IMUL2w a b : ST (CPUI386 D) unit :=
  x ← la a; y ← la b; let s1 := sext16 x in let s2 := sext16 y in let d := u32 (s1 * s2) in
  _ ← set_product CC_IMUL16 s1 s2 d; sa a d.
Definition IMUL2d a b : ST (CPUI386 D) unit :=
  x ← la a; y ← la b; let s1 := sext32 x in let s2 := sext32 y in let res := s32 s1 * s32 s2 in
  _ ← set_product64 CC_IMUL32 s1 s2 res; sa a (u32 res).
(** The three-operand forms, [bi] the width of the immediate. *)
Definition IMUL2wI_helper (bi : Z) a b (i : Z) : ST (CPUI386 D) unit :=
  y ← la b; let s1 := sext16 y in let s2 := sext bi i in let d := u32 (s1 * s2) in
  _ ← set_product CC_IMUL16 s1 s2 d; sa a d.
Definition IMUL2dI_helper (bi : Z) a b (i : Z) : ST (CPUI386 D) unit :=
  y ← la b; let s1 := sext32 y in let s2 := sext bi i in let res := s32 s1 * s32 s2 in
  _ ← set_product64 CC_IMUL32 s1 s2 res; sa a (u32 res).

(** ** Division *)

(** C's signed division of [n]-bit integers. *)
Definition cdiv (n x y : Z) : outcome Z :=
  if y =? 0 then Stuck DivideByZero else
  if (x =? - 2 ^ (n - 1)) && (y =? -1) then Stuck Overflow else Done (Z.quot x y).
Definition crem (n x y : Z) : outcome Z :=
  if y =? 0 then Stuck DivideByZero else
  if (x =? - 2 ^ (n - 1)) && (y =? -1) then Stuck Overflow else Done (Z.rem x y).

Definition pair16 c : Z := Z.lor (lreg16 0 c) (Z.shiftl (lreg16 2 c) 16).
Definition pair32 c : Z := Z.lor (Z.shiftl (lreg32 2 c) 32) (lreg32 0 c).
Definition force_ZF (v : bool) : ST (CPUI386 D) unit :=
  _ ← set_cc (fun k => k <| mask := Z.land (mask k) (Z.lnot ZF) |>);
  modify (fun c => c <| flags := if v then Z.lor (flags c) ZF else Z.land (flags c) (u32 (Z.lnot ZF)) |>).

Definition DIVb a : Exc (CPUI386 D) unit :=
  s1 ← ok (gets (lreg16 0)); s2 ← ok (la a);
  if s2 =? 0 then THROW0 EX_DE else
  let res := s1 / s2 in
  if 0xff <? res then THROW0 EX_DE else
  _ ← ok (if (s1 =? 5) && (s2 =? 2) then force_ZF true else mret tt);
  _ ← ok (modify (sreg8 0 res)); ok (modify (sreg8 4 (s1 mod s2))).
Definition DIVw a : Exc (CPUI386 D) unit :=
  s1 ← ok (gets pair16); s2 ← ok (la a);
  if s2 =? 0 then THROW0 EX_DE else
  let res := s1 / s2 in
  if 0xffff <? res then THROW0 EX_DE else
  _ ← ok (if (s1 =? 0x5555) && (s2 =? 2) then force_ZF false else mret tt);
  _ ← ok (modify (sreg16 0 res)); ok (modify (sreg16 2 (s1 mod s2))).
Definition DIVd a : Exc (CPUI386 D) unit :=
  s1 ← ok (gets pair32); s2 ← ok (la a);
  if s2 =? 0 then THROW0 EX_DE else
  let res := s1 / s2 in
  if 0xffffffff <? res then THROW0 EX_DE else
  _ ← ok (modify (sreg32 0 res)); ok (modify (sreg32 2 (s1 mod s2))).

(** The end of a signed division of [n]-bit integers to a quotient of [w] bits. *)
Definition signed_divide (n w s1 s2 : Z) (store : Z -> Z -> ST (CPUI386 D) unit) : Exc (CPUI386 D) unit :=
  if s2 =? 0 then THROW0 EX_DE else
  res ← ok (lift (cdiv n s1 s2));
  if (2 ^ (w - 1) - 1 <? res) || (res <? - 2 ^ (w - 1)) then THROW0 EX_DE else
  r ← ok (lift (crem n s1 s2)); ok (store res r).
Definition IDIVb a : Exc (CPUI386 D) unit :=
  x ← ok (gets (lreg16 0)); y ← ok (la a);
  signed_divide 32 8 (s32 (sext16 x)) (s32 (sext8 y)) (fun q r => _ ← modify (sreg8 0 q); modify (sreg8 4 r)).
Definition IDIVw a : Exc (CPUI386 D) unit :=
  x ← ok (gets pair16); y ← ok (la a);
  signed_divide 32 16 (s32 (sext32 x)) (s32 (sext16 y)) (fun q r => _ ← modify (sreg16 0 q); modify (sreg16 2 r)).
Definition IDIVd a : Exc (CPUI386 D) unit :=
  x ← ok (gets pair32); y ← ok (la a);
  signed_divide 64 32 (sgn 64 x) (s32 y) (fun q r => _ ← modify (sreg32 0 q); modify (sreg32 2 r)).

(** ** Decimal adjust *)

Definition RESULT : Z := Z.lor (Z.lor ZF SF) PF.
Definition clear_flags (m : Z) c : CPUI386 D := c <| flags := Z.land (flags c) (u32 (Z.lnot m)) |>.
Definition raise_flags (m : Z) c : CPUI386 D := c <| flags := Z.lor (flags c) m |>.
Definition show_al (res : Z) : ST (CPUI386 D) unit := set_cc (fun k => k <| dst := sext8 res |> <| mask := RESULT |>).

Definition AAD_helper (i : Z) : ST (CPUI386 D) unit :=
  al ← gets (lreg8 0); ah ← gets (lreg8 4);
  let res := u8 (al + ah * i) in
  _ ← modify (sreg8 0 res); _ ← modify (sreg8 4 0);
  _ ← modify (clear_flags (Z.lor (Z.lor OF AF) CF)); show_al res.
Definition AAM_helper (i : Z) : ST (CPUI386 D) unit :=
  al ← gets (lreg8 0);
  if i =? 0 then stuck DivideByZero else
  let res := al mod i in
  _ ← modify (sreg8 4 (al / i)); _ ← modify (sreg8 0 res);
  _ ← modify (clear_flags (Z.lor (Z.lor OF AF) CF)); show_al res.

(** [delta] is 6 for DAA, -6 for DAS; [over] tells that AL wrapped. *)
Definition decimal_adjust (delta : Z) (over : Z -> bool) : ST (CPUI386 D) unit :=
  al ← gets (lreg8 0); cf ← fetch_CF;
  _ ← modify (clear_flags CF);
  af ← gets get_AF;
  _ ← (if (9 <? Z.land al 0xf) || nz af then
         _ ← modify (sreg8 0 (al + delta));
         _ ← (if nz cf || over al then modify (raise_flags CF) else mret tt);
         modify (raise_flags AF)
       else modify (clear_flags AF));
  _ ← (if (0x99 <? al) || nz cf then
         _ ← modify (fun c => sreg8 0 (lreg8 0 c + 16 * delta) c); modify (raise_flags CF)
       else mret tt);
  r ← gets (lreg8 0); show_al r.
Definition DAA_helper : ST (CPUI386 D) unit := decimal_adjust 6 (fun al => 0xff - 6 <? al).
Definition DAS_helper : ST (CPUI386 D) unit := decimal_adjust (-6) (fun al => al <? 6).

Definition AAA_helper : ST (CPUI386 D) unit :=
  al ← gets (lreg8 0); af ← gets get_AF;
  _ ← (if (9 <? Z.land al 0xf) || nz af then
         _ ← modify (fun c => sreg16 0 (lreg16 0 c + 0x106) c); modify (raise_flags (Z.lor AF CF))
       else modify (clear_flags (Z.lor AF CF)));
  _ ← set_cc (fun k => k <| mask := RESULT |>); modify (fun c => sreg8 0 (Z.land (lreg8 0 c) 0xf) c).
Definition AAS_helper : ST (CPUI386 D) unit :=
  al ← gets (lreg8 0); af ← gets get_AF;
  _ ← (if (9 <? Z.land al 0xf) || nz af then
         _ ← modify (fun c => sreg16 0 (lreg16 0 c - 6) c);
         _ ← modify (fun c => sreg8 4 (lreg8 4 c - 1) c); modify (raise_flags (Z.lor AF CF))
       else modify (clear_flags (Z.lor AF CF)));
  _ ← set_cc (fun k => k <| mask := RESULT |>); modify (fun c => sreg8 0 (Z.land (lreg8 0 c) 0xf) c).

(** ** Flag instructions *)

Definition LAHF : ST (CPUI386 D) unit :=
  _ ← refresh_flags; _ ← modify (set_mask 0); modify (fun c => sreg8 4 (flags c) c).
Definition SAHF : ST (CPUI386 D) unit :=
  _ ← set_cc (fun k => k <| mask := Z.land (mask k) OF |>);
  modify (fun c => c <| flags := Z.lor (Z.land (Z.lor (Z.land (flags c) (Z.lxor 0xffffffff 0xff)) (lreg8 4 c)) (flags_mask c)) 0x2 |>).
Definition CMC : ST (CPUI386 D) unit :=
  cf ← fetch_CF; _ ← set_cc (fun k => k <| mask := Z.land (mask k) (Z.lnot CF) |>); set_flag CF (b2z (cf =? 0)).
Definition CLC : ST (CPUI386 D) unit :=
  _ ← set_cc (fun k => k <| mask := Z.land (mask k) (Z.lnot CF) |>); modify (clear_flags CF).
Definition STC : ST (CPUI386 D) unit :=
  _ ← set_cc (fun k => k <| mask := Z.land (mask k) (Z.lnot CF) |>); modify (raise_flags CF).

End Operations.
(** ** Division against the reference *)

Section Division.
Context {D : Type}.
Implicit Types (c : CPUI386 D) (a : Operand D).

Definition DIV (w : Z) : Operand D -> Exc (CPUI386 D) unit := if w =? 8 then DIVb else if w =? 16 then DIVw else DIVd.
Definition IDIV (w : Z) : Operand D -> Exc (CPUI386 D) unit := if w =? 8 then IDIVb else if w =? 16 then IDIVw else IDIVd.

(** Where an instruction finds its dividend and leaves its results. *)
Definition low_reg (w : Z) c : Z := if w =? 8 then lreg8 0 c else if w =? 16 then lreg16 0 c else lreg32 0 c.
Definition high_reg (w : Z) c : Z := if w =? 8 then lreg8 4 c else if w =? 16 then lreg16 2 c else lreg32 2 c.
Definition dividend (w : Z) c : Z := low_reg w c + high_reg w c * 2 ^ w.


Lemma regs_ok_ext c c' : gpr c' = gpr c -> regs_ok c -> regs_ok c'.
Proof. intros E [Hl Hw]. constructor; unfold REGi; by rewrite E. Qed.

Lemma lreg16_bytes c : regs_ok c -> lreg16 0 c = dividend 8 c.
Proof.
  intros [Hl Hw]. unfold dividend, low_reg, high_reg, lreg8, lreg16. cbn [Z.eqb Pos.eqb Z.ltb Z.compare Pos.compare Pos.compare_cont Z.sub Z.opp Z.add Z.pos_sub].
  change (4 - 4) with 0. pose proof (Hw 0 ltac:(lia)) as H0. set (r := REGi c 0) in *. unfold u8, u16.
  rewrite Z.shiftr_div_pow2 by lia. change (2 ^ 16) with (2 ^ 8 * 2 ^ 8). rewrite Z.rem_mul_r by lia. lia.
Qed.
Lemma pair16_dividend c : regs_ok c -> pair16 c = dividend 16 c.
Proof. intros _. unfold pair16, dividend, low_reg, high_reg. cbn [Z.eqb Pos.eqb]. apply lor_shiftl_add; [lia|apply inw_u16]. Qed.
Lemma pair32_dividend c : regs_ok c -> pair32 c = dividend 32 c.
Proof.
  intros _. unfold pair32, dividend, low_reg, high_reg. cbn [Z.eqb Pos.eqb]. rewrite Z.lor_comm. apply lor_shiftl_add; [lia|apply inw_u32].
Qed.

(** Storing a quotient and a remainder. *)
Definition store_pair (w q r : Z) c : CPUI386 D :=
  if w =? 8 then sreg8 4 r (sreg8 0 q c) else if w =? 16 then sreg16 2 r (sreg16 0 q c) else sreg32 2 r (sreg32 0 q c).
Lemma stored_pair w q r c : op_width w -> regs_ok c ->
  low_reg w (store_pair w q r c) = q mod 2 ^ w /\ high_reg w (store_pair w q r c) = r mod 2 ^ w.
Proof.
  intros [-> |[-> | ->]] Hr; unfold low_reg, high_reg, store_pair; cbn [Z.eqb Pos.eqb].
  - pose proof (regs_ok_sreg8 c 0 q Hr ltac:(lia)). rewrite !lreg8_sreg8 by (done || lia). done.
  - pose proof (regs_ok_sreg16 c 0 q Hr ltac:(lia)). rewrite !lreg16_sreg16 by (done || lia). done.
  - pose proof (regs_ok_sreg32 c 0 q Hr ltac:(lia)). rewrite !lreg32_sreg32 by (done || lia). done.
Qed.

(** A successful division changes registers and, for the two CPU tests it
    recognises, ZF. *)
Definition touches_flags c c0 : Prop := gpr c0 = gpr c.

Lemma DIV_eval w a d c : op_width w -> regs_ok c -> reads a d c ->
  let X := dividend w c in
  (d = 0 \/ 2 ^ w <= X / d -> DIV w a c = Done (None, c <| excno := EX_DE |>)) /\
  (d <> 0 -> X / d < 2 ^ w -> exists c0, touches_flags c c0 /\ DIV w a c = Done (Some tt, store_pair w (X / d) (X mod d) c0)).
Proof.
  intros Hw Hr Ha X. assert (Hbe : forall {B} (k : Z -> Exc (CPUI386 D) B), (ok (la a) ≫= k) c = k d c)
    by (intros; apply ok_bind, reads_here, Ha).
  assert (Hlim : 2 ^ w - 1 = if w =? 8 then 0xff else if w =? 16 then 0xffff else 0xffffffff)
    by (destruct Hw as [-> |[-> | ->]]; done).
  assert (Hrun : DIV w a c = (if d =? 0 then THROW0 EX_DE else if 2 ^ w - 1 <? X / d then THROW0 EX_DE else
      _ ← ok (if (w =? 8) && (X =? 5) && (d =? 2) then force_ZF true
              else if (w =? 16) && (X =? 0x5555) && (d =? 2) then force_ZF false else mret tt);
      ok (modify (store_pair w (X / d) (X mod d)))) c).
  { unfold X. rewrite Hlim. destruct Hw as [-> |[-> | ->]]; unfold DIV, DIVb, DIVw, DIVd; cbn [Z.eqb Pos.eqb andb].
    - rewrite (ok_bind (gets (lreg16 0)) _ c _ c eq_refl), Hbe, lreg16_bytes by done. destruct (d =? 0); [done|].
      destruct (_ <? _); [done|]. by destruct (_ && _).
    - rewrite (ok_bind (gets pair16) _ c _ c eq_refl), Hbe, pair16_dividend by done. destruct (d =? 0); [done|].
      destruct (_ <? _); [done|]. by destruct (_ && _).
    - rewrite (ok_bind (gets pair32) _ c _ c eq_refl), Hbe, pair32_dividend by done. done. }
  rewrite Hrun. split.
  - intros Hd. destruct (Z.eqb_spec d 0); [done|]. destruct (Z.ltb_spec (2 ^ w - 1) (X / d)); [done|lia].
  - intros Hd Hq. rewrite (proj2 (Z.eqb_neq d 0) Hd). destruct (Z.ltb_spec (2 ^ w - 1) (X / d)); [lia|].
    destruct (_ && _ && _); [eexists; split; [|reflexivity]; reflexivity|].
    destruct (_ && _ && _); (eexists; split; [|reflexivity]; reflexivity).
Qed.

(** C25. Unsigned division: with the dividend in the register pair, DIV raises
    #DE, changing nothing else, exactly when the divisor is zero or the quotient
    does not fit its register; otherwise it leaves the quotient and the remainder. *)
Theorem div_reference w a d c :
  op_width w -> regs_ok c -> reads a d c -> inw w d ->
  let X := dividend w c in
  (d = 0 \/ 2 ^ w <= X / d -> DIV w a c = Done (None, c <| excno := EX_DE |>)) /\
  (d <> 0 -> X / d < 2 ^ w -> exists c', DIV w a c = Done (Some tt, c') /\
     X = low_reg w c' * d + high_reg w c' /\ 0 <= high_reg w c' < d).
Proof.
  intros Hw Hr Ha Hd X. destruct (DIV_eval w a d c Hw Hr Ha) as [Hex Hok]. split; [exact Hex|].
  intros Hd0 Hq. destruct (Hok Hd0 Hq) as (c0 & Hc0 & E). eexists. split; [exact E|]. fold X.
  destruct (stored_pair w (X / d) (X mod d) c0 Hw) as [-> ->]; [by apply (regs_ok_ext c)|].
  assert (HX : 0 <= X).
  { unfold X, dividend. assert (0 <= low_reg w c /\ 0 <= high_reg w c) by
      (destruct Hw as [-> |[-> | ->]]; unfold low_reg, high_reg, lreg8, lreg16, lreg32, u8, u16, u32; cbn [Z.eqb Pos.eqb];
       repeat case_match; split; apply Z.mod_pos_bound; lia).
    pose proof (pow2_pos w ltac:(destruct Hw as [-> |[-> | ->]]; lia)). nia. }
  unfold inw in Hd. pose proof (Z.mod_pos_bound X d ltac:(lia)). pose proof (Z.div_pos X d HX ltac:(lia)).
  rewrite !Z.mod_small by lia. pose proof (Z.div_mod X d Hd0). lia.
Qed.

Lemma sgn_32_range z : - 2 ^ 31 <= sgn 32 z < 2 ^ 31.
Proof. apply (sgn_range 32). lia. Qed.

(** The signed dividend and divisor. *)
Definition sdividend (w : Z) c : Z := sgn (2 * w) (dividend w c).
Definition host_width (w : Z) : Z := if w =? 32 then 64 else 32.

Lemma IDIV_eval w a d c : op_width w -> regs_ok c -> reads a d c ->
  IDIV w a c = signed_divide (host_width w) w (sdividend w c) (sgn w d) (fun q r => modify (store_pair w q r)) c.
Proof.
  intros Hw Hr Ha. assert (Hbe : forall {B} (k : Z -> Exc (CPUI386 D) B), (ok (la a) ≫= k) c = k d c)
    by (intros; apply ok_bind, reads_here, Ha).
  unfold sdividend, host_width. destruct Hw as [-> |[-> | ->]]; unfold IDIV, IDIVb, IDIVw, IDIVd; cbn [Z.eqb Pos.eqb Z.mul Pos.mul].
  - rewrite (ok_bind (gets (lreg16 0)) _ c _ c eq_refl), Hbe, lreg16_bytes by done.
    change (sext16 ?z) with (sext 16 z). change (sext8 ?z) with (sext 8 z). by rewrite (s32_sext 16), (s32_sext 8).
  - rewrite (ok_bind (gets pair16) _ c _ c eq_refl), Hbe, pair16_dividend by done.
    change (sext32 ?z) with (sext 32 z). change (sext16 ?z) with (sext 16 z). by rewrite (s32_sext 32), (s32_sext 16).
  - rewrite (ok_bind (gets pair32) _ c _ c eq_refl), Hbe, pair32_dividend by done. done.
Qed.

(** C24. Signed division: IDIV raises #DE, changing nothing else, when the divisor
    is zero or the quotient (rounded towards zero) does not fit; otherwise the
    registers hold the quotient and the remainder, which has the dividend's sign.
    The one exception is the smallest 32- or 64-bit dividend divided by -1, where
    the C division overflows before the range check. *)
Theorem idiv_reference w a d c :
  op_width w -> regs_ok c -> reads a d c -> inw w d ->
  let X := sdividend w c in let q := Z.quot X (sgn w d) in
  let undefined := w <> 8 /\ X = - 2 ^ (2 * w - 1) /\ sgn w d = -1 in
  (d = 0 \/ (in_signed w q = false /\ ~ undefined) -> IDIV w a c = Done (None, c <| excno := EX_DE |>)) /\
  (undefined -> IDIV w a c = Stuck Overflow) /\
  (d <> 0 -> in_signed w q = true -> exists c', IDIV w a c = Done (Some tt, c') /\
     X = sgn w (low_reg w c') * sgn w d + sgn w (high_reg w c') /\
     Z.abs (sgn w (high_reg w c')) < Z.abs (sgn w d) /\ 0 <= sgn w (high_reg w c') * X).
Proof.
  intros Hw Hr Ha Hd X q undefined. assert (8 <= w <= 32) by (destruct Hw as [-> |[-> | ->]]; lia).
  assert (Hz : (sgn w d =? 0) = (d =? 0)).
  { unfold sgn. rewrite (Z.mod_small d) by done. unfold inw in Hd. pose proof (pow2_half w ltac:(lia)). cbv zeta.
    destruct (Z.ltb_spec d (2 ^ (w - 1))); [done|]. destruct (Z.eqb_spec (d - 2 ^ w) 0), (Z.eqb_spec d 0); done || lia. }
  assert (HXr : - 2 ^ (2 * w - 1) <= X < 2 ^ (2 * w - 1)) by (apply sgn_range; lia).
  assert (Hundef : ((X =? - 2 ^ (host_width w - 1)) && (sgn w d =? -1) = true) <-> undefined).
  { unfold undefined. rewrite andb_true_iff, !Z.eqb_eq. destruct Hw as [E|[E|E]]; rewrite E in *; unfold host_width; cbn in *; lia. }
  rewrite (IDIV_eval w a d c Hw Hr Ha). fold X. unfold signed_divide. rewrite Hz.
  split; [|split].
  - intros [-> |[Hq Hu]]; [done|]. destruct (Z.eqb_spec d 0); [done|].
    rewrite (ok_bind (lift (cdiv (host_width w) X (sgn w d))) _ c q c).
    2:{ unfold cdiv, lift. rewrite Hz.
        rewrite (not_true_is_false _ (fun E => Hu (proj1 Hundef E))). done. }
    unfold in_signed in Hq. destruct (Z.ltb_spec (2 ^ (w - 1) - 1) q); [done|]. cbn [orb].
    destruct (Z.ltb_spec q (- 2 ^ (w - 1))); [done|exfalso].
    destruct (Z.leb_spec (- 2 ^ (w - 1)) q), (Z.ltb_spec q (2 ^ (w - 1))); done || lia.
  - intros Hu. assert (d <> 0). { intros ->. destruct Hu as (_ & _ & E). unfold sgn in E. rewrite Z.mod_0_l in E by (pose proof (pow2_pos w); lia).
      cbv zeta in E. destruct (0 <? _); pose proof (pow2_pos w); pose proof (pow2_half w); lia. }
    rewrite (proj2 (Z.eqb_neq d 0)) by done. unfold mbind, Exc_bind, ok, lift, cdiv. rewrite Hz, (proj2 (Z.eqb_neq d 0)) by done.
    by rewrite (proj2 Hundef Hu).
  - intros Hd0 Hq. rewrite (proj2 (Z.eqb_neq d 0)) by done. assert (Hq' := Hq). unfold in_signed in Hq'.
    apply andb_true_iff in Hq' as [Hq1 Hq2]. apply Z.leb_le in Hq1. apply Z.ltb_lt in Hq2.
    assert (Hsd0 : sgn w d <> 0) by (apply Z.eqb_neq; rewrite Hz; by apply Z.eqb_neq).
    assert (Hnu : (X =? - 2 ^ (host_width w - 1)) && (sgn w d =? -1) = false).
    { apply not_true_is_false. intros E. apply Hundef in E as (_ & EX & Ed). unfold q in Hq2. rewrite EX, Ed in Hq2.
      change (-1) with (- (1)) in Hq2. rewrite (Z.quot_opp_opp (2 ^ (2 * w - 1)) 1), Z.quot_1_r in Hq2 by lia.
      pose proof (Z.pow_le_mono_r 2 (w - 1) (2 * w - 1)). lia. }
    rewrite (ok_bind (lift (cdiv (host_width w) X (sgn w d))) _ c q c)
      by (unfold cdiv, lift; by rewrite Hz, (proj2 (Z.eqb_neq d 0)), Hnu).
    destruct (Z.ltb_spec (2 ^ (w - 1) - 1) q); [lia|]. cbn [orb]. destruct (Z.ltb_spec q (- 2 ^ (w - 1))); [lia|].
    rewrite (ok_bind (lift (crem (host_width w) X (sgn w d))) _ c (Z.rem X (sgn w d)) c)
      by (unfold crem, lift; by rewrite Hz, (proj2 (Z.eqb_neq d 0)), Hnu).
    eexists. split; [reflexivity|]. destruct (stored_pair w q (Z.rem X (sgn w d)) c Hw Hr) as [-> ->].
    pose proof (Z.rem_bound_abs X (sgn w d) Hsd0) as Hrb. pose proof (sgn_range w d ltac:(lia)).
    assert (Hs : forall v, sgn w (v mod 2 ^ w) = sgn w v) by (intros v; unfold sgn; by rewrite Z.mod_mod by (pose proof (pow2_pos w); lia)).
    assert (Hrr : - 2 ^ (w - 1) <= Z.rem X (sgn w d) < 2 ^ (w - 1)) by lia.
    rewrite !Hs. assert (OpSize w) by done. rewrite (sgn_range_id w q), (sgn_range_id w (Z.rem X (sgn w d))) by lia.
    split; [pose proof (Z.quot_rem X (sgn w d) Hsd0); unfold q; lia|]. split; [exact Hrb|].
    apply Z.rem_sign_mul. exact Hsd0.
Qed.

End Division.

(** ** Multiplication against the reference *)

Section Multiplication.
Context {D : Type}.
Implicit Types (c : CPUI386 D) (a : Operand D).

Definition MUL (w : Z) : Operand D -> ST (CPUI386 D) unit := if w =? 8 then MULb else if w =? 16 then MULw else MULd.
Definition IMUL (w : Z) : Operand D -> ST (CPUI386 D) unit := if w =? 8 then IMULb else if w =? 16 then IMULw else IMULd.

(** Both overflow flags of a saved product. *)
Lemma product_flags c1 k cf : cc c1 = k -> mask k = ARITH -> mul_op (op k) = true -> get_CF c1 = Done (b2z cf) ->
  eflag c1 0 = cf /\ eflag c1 11 = cf.
Proof.
  intros Hk Hm Ho Hcf. unfold eflag. cbn [arith_flag Z.eqb Pos.eqb default]. rewrite Hcf. cbn [is1 id].
  split; [apply b2z_1|]. unfold get_OF, lazy. rewrite Hk, Hm, Hcf. change (nz (Z.land ARITH OF)) with true. cbv iota.
  destruct (op k); try discriminate Ho; cbn [is1]; apply b2z_1.
Qed.
Lemma product_CF c1 k : cc c1 = k -> mask k = ARITH ->
  get_CF c1 = match op k with
    | CC_MUL8 => Done (b2z (nz (Z.shiftr (dst k) 8))) | CC_MUL16 => Done (b2z (nz (Z.shiftr (dst k) 16)))
    | CC_MUL32 => Done (b2z (nz (dst2 k)))
    | CC_IMUL8 => Done (b2z (negb (sext8 (dst k) =? dst k))) | CC_IMUL16 => Done (b2z (negb (sext16 (dst k) =? dst k)))
    | CC_IMUL32 => Done (b2z (negb (u32 (Z.shiftr (s32 (dst k)) 31) =? dst2 k)))
    | _ => get_CF c1 end.
Proof.
  intros Hk Hm. destruct (op k) eqn:Eo; try reflexivity; unfold get_CF, lazy; rewrite Hk, Hm, Eo; reflexivity.
Qed.

(** The product in the registers. *)
Lemma AX_product v c : regs_ok c -> dividend 8 (sreg16 0 v c) = v mod 2 ^ 16.
Proof.
  intros Hr. rewrite <- lreg16_bytes by (apply regs_ok_sreg16; done || lia). by rewrite lreg16_sreg16 by (done || lia).
Qed.
Lemma DXAX_product v c : regs_ok c -> inw 32 v -> dividend 16 (sreg16 2 (Z.shiftr v 16) (sreg16 0 v c)) = v.
Proof.
  intros Hr Hv. unfold dividend, low_reg, high_reg. cbn [Z.eqb Pos.eqb]. pose proof (regs_ok_sreg16 c 0 v Hr ltac:(lia)).
  rewrite !lreg16_sreg16 by (done || lia). rewrite decide_False, !decide_True by lia. unfold u16, inw in *.
  rewrite Z.shiftr_div_pow2 by lia. rewrite (Z.mod_small (v / _)) by (split; [apply Z.div_pos; lia|apply Z.div_lt_upper_bound; lia]).
  pose proof (Z.div_mod v (2 ^ 16) ltac:(lia)). lia.
Qed.
Lemma EDXEAX_product v c : regs_ok c -> dividend 32 (sreg32 2 (u32 (Z.shiftr v 32)) (sreg32 0 (u32 v) c)) = v mod 2 ^ 64.
Proof.
  intros Hr. unfold dividend, low_reg, high_reg. cbn [Z.eqb Pos.eqb]. pose proof (regs_ok_sreg32 c 0 (u32 v) Hr ltac:(lia)).
  rewrite !lreg32_sreg32 by (done || lia). rewrite decide_False, !decide_True by lia. unfold u32.
  rewrite !Z.mod_mod, Z.shiftr_div_pow2 by lia. change (2 ^ 64) with (2 ^ 32 * 2 ^ 32). rewrite Z.rem_mul_r by lia. lia.
Qed.

Lemma nz_shiftr v n : 0 <= v -> 0 <= n -> nz (Z.shiftr v n) = (2 ^ n <=? v).
Proof.
  intros Hv Hn. unfold nz. rewrite Z.shiftr_div_pow2 by done. pose proof (pow2_pos n Hn).
  destruct (Z.leb_spec (2 ^ n) v).
  - apply negb_true_iff, Z.eqb_neq. pose proof (Z.div_le_lower_bound v (2 ^ n) 1). lia.
  - by rewrite Z.div_small by lia.
Qed.
Lemma low_reg_range w c : op_width w -> inw w (low_reg w c).
Proof. intros [-> |[-> | ->]]; unfold low_reg; cbn [Z.eqb Pos.eqb]; [apply inw_u8|apply inw_u16|apply inw_u32]. Qed.

(** Unsigned multiplication: MUL leaves the double-width product of the
    accumulator and the operand in the register pair, and CF and OF tell whether
    its high half is used. *)
Theorem mul_reference w a y c :
  op_width w -> regs_ok c -> reads a y c -> inw w y ->
  let P := low_reg w c * y in
  exists c1, MUL w a c = Done (tt, c1) /\ dividend w c1 = P /\ eflag c1 0 = (2 ^ w <=? P) /\ eflag c1 11 = (2 ^ w <=? P).
Proof.
  intros Hw Hr Ha Hy P. pose proof (low_reg_range w c Hw) as Hx. unfold inw in *.
  assert (HP : 0 <= P < 2 ^ w * 2 ^ w) by (unfold P; nia).
  assert (Hbe : forall {B} (k : Z -> ST (CPUI386 D) B), (la a ≫= k) c = k y c)
    by (intros; apply (st_bind_done _ _ _ _ _ (reads_here _ _ _ Ha))).
  destruct Hw as [-> |[-> | ->]]; unfold MUL, MULb, MULw, MULd; unfold low_reg in *; cbn [Z.eqb Pos.eqb] in *;
    rewrite (st_bind_done (gets _) _ c _ c eq_refl), Hbe; fold P; eexists; (split; [reflexivity|]); cbn [fst snd]; cbv beta.
  - split; [rewrite AX_product by (by apply (regs_ok_ext c))|].
    { change (sext16 (u32 P)) with (sext 16 (u32 P)). rewrite (sext_low 16). unfold u32. rewrite mod_mod_pow2 by lia. apply Z.mod_small. lia. }
    eapply product_flags; [reflexivity|done|done|]. erewrite product_CF; [|reflexivity|done]. cbn [op dst].
    change (Done (b2z (nz (Z.shiftr (sext 16 (u32 P)) 8))) = Done (b2z (2 ^ 8 <=? P))). do 2 f_equal. unfold u32. rewrite (Z.mod_small P) by lia.
    pose proof (inw_sext 16 P) as [? _]. rewrite nz_shiftr by lia. rewrite (sext_id 16) by (unfold inw; lia).
    destruct (Z.ltb_spec P (2 ^ (16 - 1))); [done|]. destruct (Z.leb_spec (2 ^ 8) P); [apply Z.leb_le|]; lia.
  - split; [rewrite DXAX_product by (try apply inw_u32; by apply (regs_ok_ext c)); apply Z.mod_small; lia|].
    eapply product_flags; [reflexivity|done|done|]. erewrite product_CF; [|reflexivity|done]. cbn [op dst].
    change (Done (b2z (nz (Z.shiftr (u32 P) 16))) = Done (b2z (2 ^ 16 <=? P))). unfold u32. rewrite (Z.mod_small P), nz_shiftr by lia. done.
  - split; [rewrite EDXEAX_product by (by apply (regs_ok_ext c)); apply Z.mod_small; lia|].
    eapply product_flags; [reflexivity|done|done|]. erewrite product_CF; [|reflexivity|done]. cbn [op dst2].
    change (Done (b2z (nz (u32 (Z.shiftr P 32)))) = Done (b2z (2 ^ 32 <=? P))). rewrite u32_id; [by rewrite nz_shiftr by lia|].
    apply inw_shiftr_to; try lia. unfold inw. change (32 + 32) with 64. lia.
Qed.

(** Signed products. *)
Lemma u32_sext_mul w x y `{OpSize w} : u32 (sext w x * sext w y) = u32 (sgn w x * sgn w y).
Proof. unfold sext, u32. by rewrite <- Z.mul_mod by lia. Qed.
Lemma u32_eqb p q : - 2 ^ 31 <= p < 2 ^ 31 -> - 2 ^ 31 <= q < 2 ^ 31 -> (u32 p =? u32 q) = (p =? q).
Proof.
  intros Hp Hq. unfold u32. assert (Hm : forall v, - 2 ^ 31 <= v < 2 ^ 31 -> v mod 2 ^ 32 = if v <? 0 then v + 2 ^ 32 else v).
  { intros v Hv. destruct (Z.ltb_spec v 0); [|apply Z.mod_small; lia]. symmetry. apply (Z.mod_unique v (2 ^ 32) (-1)); lia. }
  rewrite !Hm by done. destruct (Z.ltb_spec p 0), (Z.ltb_spec q 0), (Z.eqb_spec p q); first [done | apply Z.eqb_eq; lia | apply Z.eqb_neq; lia].
Qed.
Lemma fits_signed w p : 0 < w -> (sgn w p =? p) = in_signed w p.
Proof.
  intros Hw. unfold in_signed. pose proof (sgn_range w p Hw). pose proof (pow2_half w Hw).
  destruct (Z.leb_spec (- 2 ^ (w - 1)) p), (Z.ltb_spec p (2 ^ (w - 1))); cbn [andb]; try (apply Z.eqb_neq; lia).
  apply Z.eqb_eq. unfold sgn. cbv zeta. destruct (Z.ltb_spec p 0).
  - assert (p mod 2 ^ w = p + 2 ^ w) as -> by (symmetry; apply (Z.mod_unique p (2 ^ w) (-1)); lia).
    destruct (Z.ltb_spec (p + 2 ^ w) (2 ^ (w - 1))); lia.
  - rewrite Z.mod_small by lia. destruct (Z.ltb_spec p (2 ^ (w - 1))); lia.
Qed.
Lemma narrow_overflow w p `{OpSize w} : - 2 ^ 31 <= p < 2 ^ 31 -> negb (sext w (u32 p) =? u32 p) = negb (in_signed w p).
Proof.
  intros Hp. assert (Hw : 8 <= w <= 32) by done. f_equal. rewrite (sext_u32 w). unfold sext.
  pose proof (sgn_range w p ltac:(lia)). assert (2 ^ (w - 1) <= 2 ^ 31) by (apply Z.pow_le_mono_r; lia).
  rewrite u32_eqb by lia. apply fits_signed. lia.
Qed.
Lemma wide_overflow p : - 2 ^ 62 <= p <= 2 ^ 62 ->
  negb (u32 (Z.shiftr (s32 (u32 p)) 31) =? u32 (Z.shiftr p 32)) = negb (in_signed 32 p).
Proof.
  intros Hp. f_equal. assert (E : s32 (u32 p) = sgn 32 p) by (unfold s32, sgn, u32; by rewrite Z.mod_mod by lia).
  rewrite E, !Z.shiftr_div_pow2 by lia. pose proof (sgn_range 32 p ltac:(lia)) as Hr32. change (32 - 1) with 31 in Hr32.
  assert (Hd : - 2 ^ 31 <= p / 2 ^ 32 < 2 ^ 31) by (split; [apply Z.div_le_lower_bound|apply Z.div_lt_upper_bound]; lia).
  assert (Hs : sgn 32 p / 2 ^ 31 = if sgn 32 p <? 0 then -1 else 0).
  { destruct (Z.ltb_spec (sgn 32 p) 0); symmetry; [apply (Z.div_unique _ _ _ (sgn 32 p + 2 ^ 31))|apply (Z.div_unique _ _ _ (sgn 32 p))]; lia. }
  rewrite u32_eqb by (rewrite ?Hs; destruct (_ <? 0); lia). rewrite Hs, <- (fits_signed 32) by lia.
  pose proof (Z.div_mod p (2 ^ 32) ltac:(lia)). pose proof (Z.mod_pos_bound p (2 ^ 32) ltac:(lia)).
  assert (Hv : sgn 32 p = p mod 2 ^ 32 - (if p mod 2 ^ 32 <? 2 ^ 31 then 0 else 2 ^ 32))
    by (unfold sgn; cbv zeta; change (2 ^ (32 - 1)) with (2 ^ 31); destruct (p mod 2 ^ 32 <? 2 ^ 31); lia).
  destruct (Z.ltb_spec (p mod 2 ^ 32) (2 ^ 31)), (Z.ltb_spec (sgn 32 p) 0);
    destruct (Z.eqb_spec (sgn 32 p) p); first [done | apply Z.eqb_eq; lia | apply Z.eqb_neq; lia | lia].
Qed.

Lemma signed_product_range w x y : 0 < w -> - 2 ^ (2 * w - 2) <= sgn w x * sgn w y <= 2 ^ (2 * w - 2).
Proof.
  intros Hw. pose proof (sgn_range w x Hw). pose proof (sgn_range w y Hw).
  replace (2 ^ (2 * w - 2)) with (2 ^ (w - 1) * 2 ^ (w - 1)) by (rewrite <- Z.pow_add_r by lia; f_equal; lia). nia.
Qed.

(** Signed multiplication: IMUL leaves the signed double-width product in the
    register pair, and CF and OF tell whether it does not fit the low half. *)
Theorem imul_reference w a y c :
  op_width w -> regs_ok c -> reads a y c ->
  let P := sgn w (low_reg w c) * sgn w y in
  exists c1, IMUL w a c = Done (tt, c1) /\ sdividend w c1 = P /\
    eflag c1 0 = negb (in_signed w P) /\ eflag c1 11 = negb (in_signed w P).
Proof.
  intros Hw Hr Ha P. pose proof (signed_product_range w (low_reg w c) y ltac:(destruct Hw as [-> |[-> | ->]]; lia)) as HP. fold P in HP.
  assert (Hbe : forall {B} (k : Z -> ST (CPUI386 D) B), (la a ≫= k) c = k y c)
    by (intros; apply (st_bind_done _ _ _ _ _ (reads_here _ _ _ Ha))).
  assert (Hfit : forall n, 2 * w <= n -> sgn n (P mod 2 ^ n) = P).
  { intros n Hn. assert (0 < n) by (destruct Hw as [-> |[-> | ->]]; lia).
    transitivity (sgn n P); [unfold sgn; by rewrite Z.mod_mod by (pose proof (pow2_pos n); lia)|].
    apply Z.eqb_eq. rewrite fits_signed by done. unfold in_signed. pose proof (Z.pow_lt_mono_r 2 (2 * w - 2) (n - 1)).
    apply andb_true_iff. rewrite Z.leb_le, Z.ltb_lt. destruct Hw as [-> |[-> | ->]]; lia. }
  assert (Hsm : w <= 16 -> - 2 ^ 31 <= P < 2 ^ 31)
    by (clearbody P; clear - Hw HP; destruct Hw as [-> |[-> | ->]]; cbn in HP; lia).
  unfold sdividend. destruct Hw as [-> |[-> | ->]]; unfold IMUL, IMULb, IMULw, IMULd; unfold low_reg in *; cbn [Z.eqb Pos.eqb] in *;
    rewrite (st_bind_done (gets _) _ c _ c eq_refl), Hbe; eexists; (split; [reflexivity|]); cbn [fst snd]; cbv beta.
  - change (2 * 8 - 2) with 14 in HP. change (sext8 ?z) with (sext 8 z) in *. rewrite (@u32_sext_mul 8 _ _ _) in *. fold P.
    split; [rewrite AX_product by (by apply (regs_ok_ext c)); unfold u32; rewrite mod_mod_pow2 by lia; apply (Hfit 16); lia|].
    eapply product_flags; [reflexivity|done|done|]. erewrite product_CF; [|reflexivity|done]. cbn [op].
    change (Done (b2z (negb (sext 8 (u32 P) =? u32 P))) = Done (b2z (negb (in_signed 8 P)))). rewrite (@narrow_overflow 8 P _) by (apply Hsm; lia). done.
  - change (2 * 16 - 2) with 30 in HP. change (sext16 ?z) with (sext 16 z) in *. rewrite (@u32_sext_mul 16 _ _ _) in *. fold P.
    split; [rewrite DXAX_product by (try apply inw_u32; by apply (regs_ok_ext c)); apply (Hfit 32); lia|].
    eapply product_flags; [reflexivity|done|done|]. erewrite product_CF; [|reflexivity|done]. cbn [op].
    change (Done (b2z (negb (sext 16 (u32 P) =? u32 P))) = Done (b2z (negb (in_signed 16 P)))). rewrite (@narrow_overflow 16 P _) by (apply Hsm; lia). done.
  - change (2 * 32 - 2) with 62 in HP. change (sext32 ?z) with (sext 32 z) in *. rewrite !(s32_sext 32) in *. fold P.
    split; [rewrite EDXEAX_product by (by apply (regs_ok_ext c)); apply (Hfit 64); lia|].
    eapply product_flags; [reflexivity|done|done|]. erewrite product_CF; [|reflexivity|done]. cbn [op].
    change (Done (b2z (negb (u32 (Z.shiftr (s32 (u32 P)) 31) =? u32 (Z.shiftr P 32)))) = Done (b2z (negb (in_signed 32 P)))).
    rewrite wide_overflow by exact HP. done.
Qed.

End Multiplication.

(** ** The theorems at concrete instructions *)

(** EAX = 100 and EDX = 0. *)
Definition hundred_cpu : CPUI386 unit := sreg32 0 100 counting_cpu.
Lemma hundred_regs : regs_ok hundred_cpu.
Proof.
  constructor; [reflexivity|]. intros i Hi.
  assert (i = 0 \/ i = 1 \/ i = 2 \/ i = 3 \/ i = 4 \/ i = 5 \/ i = 6 \/ i = 7) as Hin by lia.
  destruct Hin as [-> |[-> |[-> |[-> |[-> |[-> |[-> | ->]]]]]]]; split; vm_compute; congruence.
Qed.
Lemma width_16 : op_width 16.
Proof. right. by left. Qed.
Lemma word_7 : inw 16 7.
Proof. unfold inw. lia. Qed.

Lemma div_reference_witness :
  DIV 16 (imm 0) hundred_cpu = Done (None, hundred_cpu <| excno := EX_DE |>) /\
  exists c', DIV 16 (imm 7) hundred_cpu = Done (Some tt, c') /\ 100 = low_reg 16 c' * 7 + high_reg 16 c'.
Proof.
  split.
  - refine (proj1 (div_reference 16 (imm 0) 0 hundred_cpu width_16 hundred_regs (reads_imm 0 hundred_cpu) _) (or_introl eq_refl)).
    unfold inw. lia.
  - destruct (proj2 (div_reference 16 (imm 7) 7 hundred_cpu width_16 hundred_regs (reads_imm 7 hundred_cpu) word_7))
      as (c' & E & HX & _); [done|vm_compute; done|]. exists c'. split; [exact E|exact HX].
Defined.

Lemma idiv_reference_witness :
  IDIV 16 (imm 0) hundred_cpu = Done (None, hundred_cpu <| excno := EX_DE |>) /\
  exists c', IDIV 16 (imm 7) hundred_cpu = Done (Some tt, c') /\ 100 = sgn 16 (low_reg 16 c') * 7 + sgn 16 (high_reg 16 c').
Proof.
  split.
  - refine (proj1 (idiv_reference 16 (imm 0) 0 hundred_cpu width_16 hundred_regs (reads_imm 0 hundred_cpu) _) (or_introl eq_refl)).
    unfold inw. lia.
  - destruct (proj2 (proj2 (idiv_reference 16 (imm 7) 7 hundred_cpu width_16 hundred_regs (reads_imm 7 hundred_cpu) word_7)))
      as (c' & E & HX & _); [done|vm_compute; done|]. exists c'. split; [exact E|exact HX].
Defined.

Lemma mul_reference_witness :
  exists c1, MUL 16 (imm 7) hundred_cpu = Done (tt, c1) /\ dividend 16 c1 = 700.
Proof.
  destruct (mul_reference 16 (imm 7) 7 hundred_cpu width_16 hundred_regs (reads_imm 7 hundred_cpu) word_7) as (c1 & E & HP & _).
  exists c1. split; [exact E|exact HP].
Defined.

Lemma imul_reference_witness :
  exists c1, IMUL 16 (imm 65529) hundred_cpu = Done (tt, c1) /\ sdividend 16 c1 = -700.
Proof.
  destruct (imul_reference 16 (imm 65529) 65529 hundred_cpu width_16 hundred_regs (reads_imm 65529 hundred_cpu)) as (c1 & E & HP & _).
  exists c1. split; [exact E|exact HP].
Defined.

End Mul.
