(* ===== verification/I386Mmu.v ===== *)
(** * I386Mmu: paging, segmentation and guest memory accesses (winspire/i386.c)

    The two-level page walk with its two software TLBs ([tlb_refill] ...
    [translate8r]), the loads and stores behind a translated address, the
    instruction fetch window, and the loading of segment registers.  The walk the
    architecture prescribes is [walk] and [mmu_spec]; [translated] states that the
    cached translation gives its result. *)

From S2P Require Import Prelude I386.

Module Mmu.
Import I386.

(** The memory-mapped devices: the six callbacks of [CPU_CB], which may be null. *)
Class IoMem (D : Type) := {
  iomem_read8 : option (Z -> ST D Z); iomem_write8 : option (Z -> Z -> ST D unit);
  iomem_read16 : option (Z -> ST D Z); iomem_write16 : option (Z -> Z -> ST D unit);
  iomem_read32 : option (Z -> ST D Z); iomem_write32 : option (Z -> Z -> ST D unit);
}.

(** [OptAddr]: [ADDR_OK1] has one address, [ADDR_OK2] also the one in the second page. *)
Inductive OptAddr : Set := ADDR_OK1 (addr1 : Z) | ADDR_OK2 (addr1 addr2 : Z).
Definition addr1 (o : OptAddr) : Z := match o with ADDR_OK1 a => a | ADDR_OK2 a _ => a end.

Definition CR0_PG : Z := Z.shiftl 1 31.
Definition CR0_WP : Z := 0x10000.
Definition PAGE_MASK : Z := 0xfffff000.

(** [pte_lookup[wp][(pte >> 1) & 3][cpl > 0][rwm > 1]], 1 for a fault. *)
Definition pte_lookup (row : bool * Z) (user write : bool) : bool :=
  let pick (su ss : list Z) := nz (arr (if user then ss else su) (b2z write)) in
  match row with
  | (false, 0) => pick [0; 0] [1; 1]
  | (false, 1) => pick [0; 0] [1; 1]
  | (false, 2) => pick [0; 0] [0; 1]
  | (false, _) => pick [0; 0] [0; 0]
  | (true, 0) => pick [0; 1] [1; 1]
  | (true, 1) => pick [0; 0] [1; 1]
  | (true, 2) => pick [0; 1] [0; 1]
  | (true, _) => pick [0; 0] [0; 0]
  end.

Section Operations.
Context {D : Type} `{IoMem D}.
Implicit Types c : CPUI386 D.

(** [return false], with what was stored before it. *)
Definition fails {A} : Exc (CPUI386 D) A := fun c => Done (None, c).
Definition get {A} (f : CPUI386 D -> A) : Exc (CPUI386 D) A := ok (gets f).
Definition put (f : CPUI386 D -> CPUI386 D) : Exc (CPUI386 D) unit := ok (modify f).

(** ** The page walk *)

(** [mem[addr] |= k] *)
Definition or_byte (addr k : Z) : ST (CPUI386 D) unit := b ← pload8 addr; pstore8 addr (Z.lor b k).

Definition tlb_refill (slot l : Z) : Exc (CPUI386 D) unit :=
  base_addr ← get (fun c => Z.land (cr3 c) PAGE_MASK);
  let i := Z.shiftr l 10 in let j := Z.land l 1023 in
  pde ← ok (pload32 (u32 (base_addr + i * 4)));
  if negb (Z.testbit pde 0) then fails else
  _ ← ok (or_byte (u32 (base_addr + i * 4)) (Z.shiftl 1 5));
  let base_addr2 := Z.land pde PAGE_MASK in
  pte ← ok (pload32 (u32 (base_addr2 + j * 4)));
  if negb (Z.testbit pte 0) then fails else
  _ ← ok (or_byte (u32 (base_addr2 + j * 4)) (Z.shiftl 1 5));
  wp ← get (fun c => nz (Z.land (cr0 c) CR0_WP));
  let pte1 := Z.land pte (Z.lor (Z.land pde 7) 0xfffffff8) in
  put (fun c => c <| tlb := arr_set (tlb c) slot
    (mkTlb l (Z.lxor (Z.land pte PAGE_MASK) (u32 (Z.shiftl l 12))) (wp, Z.land (Z.shiftr pte1 1) 3) (u32 (base_addr2 + j * 4))) |>).

Definition mark_pte_dirty (p : option Z) : ST (CPUI386 D) unit :=
  match p with
  | None => mret tt
  | Some a => b ← pload8 a; if Z.testbit b 6 then mret tt else or_byte a (Z.shiftl 1 6)
  end.

Definition page_fault {A} (present : Z) (rwm cpl laddr : Z) : Exc (CPUI386 D) A :=
  _ ← put (fun c => c <| cr2 := laddr |> <| excno := EX_PF |>
    <| excerr := Z.lor (Z.lor present (if nz (Z.land rwm 2) then 2 else 0)) (if nz cpl then 4 else 0) |>);
  fails.

Definition slot_of (l : Z) : Z := l mod tlb_size.
Definition entry c (l : Z) : TlbEntry := arr (tlb c) (slot_of l).

(** The entry of a page, walking the tables when another page is in its slot. *)
Definition find_entry (rwm l laddr cpl : Z) : Exc (CPUI386 D) TlbEntry := fun c =>
  if lpgno (entry c l) =? l then Done (Some (entry c l), c) else
  match tlb_refill (slot_of l) l c with
  | Done (Some _, c') => Done (Some (entry c' l), c')
  | Done (None, c') => page_fault 0 rwm cpl laddr c'
  | Stuck e => Stuck e
  end.
Definition drop_entry (l : Z) c : CPUI386 D :=
  c <| tlb := arr_set (tlb c) (slot_of l) ((entry c l) <| lpgno := NO_PAGE |>) |>.

Definition translate_lpgno (rwm l laddr cpl : Z) : Exc (CPUI386 D) Z :=
  ent ← find_entry rwm l laddr cpl;
  if pte_lookup (lookup_row ent) (0 <? cpl) (1 <? rwm) then
    _ ← put (drop_entry l); page_fault 1 rwm cpl laddr
  else
    _ ← (if nz (Z.land rwm 2) then ok (mark_pte_dirty (Some (ppte ent))) else mret tt);
    mret (Z.lxor (xaddr ent) laddr).

(** ** The fast TLB *)

Definition fast_slot (l : Z) : Z := Z.land l (NSPIRE_DTLB_FAST_SLOTS - 1).
Definition fr c (l : Z) : FastRead := arr (fast_read c) (fast_slot l).
Definition fw c (l : Z) : FastWrite := arr (fast_write c) (fast_slot l).
Definition set_fr (l : Z) (r : FastRead) c : CPUI386 D := c <| fast_read := arr_set (fast_read c) (fast_slot l) r |>.
Definition set_fw (l : Z) (w : FastWrite) c : CPUI386 D := c <| fast_write := arr_set (fast_write c) (fast_slot l) w |>.

(** What a denied access drops. *)
Definition drop_fast (l : Z) c : CPUI386 D :=
  let c := if read_lpgno (fr c l) =? l then set_fr l (mkFR NO_PAGE (read_xaddr (fr c l)) (read_cpl (fr c l))) c else c in
  if write_lpgno (fw c l) =? l then set_fw l ((fw c l) <| write_lpgno := NO_PAGE |> <| write_dirty := 0 |>) c else c.

Definition translate_lpgno_fast (rwm l laddr cpl : Z) : Exc (CPUI386 D) Z := fun c =>
  let key := b2z (0 <? cpl) in let r := fr c l in let w := fw c l in
  if (rwm =? 1) && (read_lpgno r =? l) && (read_cpl r =? key) then Done (Some (Z.lxor (read_xaddr r) laddr), c) else
  if (rwm =? 1) && (write_lpgno w =? l) && (write_cpl w =? key) then Done (Some (Z.lxor (write_xaddr w) laddr), c) else
  if (rwm =? 2) && (write_lpgno w =? l) && (write_cpl w =? key) then
    (_ ← (if write_dirty w =? 0 then
            _ ← ok (mark_pte_dirty (write_ppte w));
            put (fun c => set_fw l ((fw c l) <| write_dirty := 1 |>) c)
          else mret tt);
     mret (Z.lxor (write_xaddr w) laddr)) c
  else
  (ent ← find_entry rwm l laddr cpl;
   if pte_lookup (lookup_row ent) (0 <? cpl) (1 <? rwm) then
     _ ← put (drop_entry l); _ ← put (drop_fast l); page_fault 1 rwm cpl laddr
   else
     _ ← (if nz (Z.land rwm 2) then
            _ ← ok (mark_pte_dirty (Some (ppte ent)));
            put (set_fw l (mkFW l (xaddr ent) (Some (ppte ent)) 1 key))
          else put (set_fr l (mkFR l (xaddr ent) key)));
     mret (Z.lxor (xaddr ent) laddr)) c.

(** ** Linear and segmented addresses *)

Definition paging c : bool := nz (Z.land (cr0 c) CR0_PG).

Definition translate_laddr (rwm laddr size cpl : Z) : Exc (CPUI386 D) OptAddr :=
  pg ← get paging;
  if (pg : bool) then
    let l := Z.shiftr laddr 12 in
    p1 ← translate_lpgno_fast rwm l laddr cpl;
    if 0x1000 - size <? Z.land laddr 0xfff then
      p2 ← translate_lpgno_fast rwm (l + 1) (u32 (Z.shiftl (l + 1) 12)) cpl;
      mret (ADDR_OK2 p1 p2)
    else mret (ADDR_OK1 p1)
  else mret (ADDR_OK1 laddr).

Definition seg_of c (s : Z) : Seg := arr (seg c) s.
Definition null_selector (s : Seg) : bool := (limit s =? 0) && (Z.land (sel s) (Z.lnot 3) =? 0).
Definition segcheck (s : Z) : Exc (CPUI386 D) unit := fun c =>
  if Z.testbit (cr0 c) 0 && null_selector (seg_of c s) then THROW EX_GP 0 c else Done (Some tt, c).

Definition translate (rwm s addr size cpl : Z) : Exc (CPUI386 D) OptAddr := fun c =>
  let laddr := u32 (base (seg_of c s) + addr) in
  (_ ← segcheck s; translate_laddr rwm laddr size cpl) c.

(** The translation of an instruction fetch, which bypasses the fast TLB. *)
Definition translate8r (s addr : Z) : Exc (CPUI386 D) OptAddr := fun c =>
  let laddr := u32 (base (seg_of c s) + addr) in
  (_ ← segcheck s;
   pg ← get paging;
   if (pg : bool) then
     let l := Z.shiftr laddr 12 in
     lvl ← get cpl;
     ent ← find_entry 0 l laddr lvl;
     if pte_lookup (lookup_row ent) (0 <? lvl) false then _ ← put (drop_entry l); page_fault 1 0 lvl laddr
     else mret (ADDR_OK1 (Z.lxor (xaddr ent) laddr))
   else mret (ADDR_OK1 laddr)) c.

Definition translate8 (rwm s addr : Z) : Exc (CPUI386 D) OptAddr := fun c => translate rwm s addr 1 (cpl c) c.
Definition translate16 (rwm s addr : Z) : Exc (CPUI386 D) OptAddr := fun c => translate rwm s addr 2 (cpl c) c.
Definition translate32 (rwm s addr : Z) : Exc (CPUI386 D) OptAddr := fun c => translate rwm s addr 4 (cpl c) c.

(** ** Loads and stores *)

Definition in_iomem (addr : Z) : bool :=
  if addr <? 0xa0000 then false else (addr <? 0xc0000) || (0xe0000000 <=? addr).
Definition BIOS_ALIAS_BASE : Z := 0xfffe0000.
Definition map_bios_alias (addr : Z) : Z := if BIOS_ALIAS_BASE <=? addr then Z.land addr 0x000fffff else addr.
Definition phys_mem_size c : Z := alen (phys_mem c).

(** A call of a device callback. *)
Definition device {A} (m : ST D A) : ST (CPUI386 D) A := fun c =>
  match m (dev c) with Done (a, d) => Done (a, c <| dev := d |>) | Stuck e => Stuck e end.

(** The guards every access has: the device callback if there is one for the
    address, [absent] beyond the end of memory, [ram] otherwise. *)
Definition guarded {A} (addr : Z) (cb : option (ST D A)) (absent : A) (ram : ST (CPUI386 D) A) : ST (CPUI386 D) A := fun c =>
  match cb with
  | Some m => if in_iomem addr then device m c else if phys_mem_size c <=? addr then Done (absent, c) else ram c
  | None => if phys_mem_size c <=? addr then Done (absent, c) else ram c
  end.

Definition load8 (o : OptAddr) : ST (CPUI386 D) Z :=
  let addr := map_bios_alias (addr1 o) in
  guarded addr ((fun f => f addr) <$> iomem_read8) 0 (pload8 addr).

Definition load16 (o : OptAddr) : ST (CPUI386 D) Z :=
  let addr := map_bios_alias (addr1 o) in
  guarded addr ((fun f => f addr) <$> iomem_read16) 0
   (match o with
    | ADDR_OK1 _ => pload16 addr
    | ADDR_OK2 _ addr2 =>
        lo ← pload8 addr; hi ← pload8 (map_bios_alias addr2); mret (Z.lor lo (Z.shiftl hi 8))
    end).

Definition load32 (o : OptAddr) : ST (CPUI386 D) Z :=
  let addr := map_bios_alias (addr1 o) in
  guarded addr ((fun f => f addr) <$> iomem_read32) 0
   (match o with
    | ADDR_OK1 _ => pload32 addr
    | ADDR_OK2 _ second =>
        let addr2 := map_bios_alias second in
        let k := Z.land addr 0xf in
        if k =? 0xf then
          a ← pload8 addr; b ← pload16 addr2; d ← pload8 (addr2 + 2);
          mret (Z.lor (Z.lor a (Z.shiftl b 8)) (Z.shiftl d 24))
        else if k =? 0xe then a ← pload16 addr; b ← pload16 addr2; mret (Z.lor a (Z.shiftl b 16))
        else if k =? 0xd then
          a ← pload8 addr; b ← pload16 (addr + 1); d ← pload8 addr2;
          mret (Z.lor (Z.lor a (Z.shiftl b 8)) (Z.shiftl d 24))
        else lift (Stuck Aborted)
    end).

Definition store8 (o : OptAddr) (v : Z) : ST (CPUI386 D) unit :=
  let addr := addr1 o in guarded addr ((fun f => f addr v) <$> iomem_write8) tt (pstore8 addr v).

Definition store16 (o : OptAddr) (v : Z) : ST (CPUI386 D) unit :=
  let addr := addr1 o in
  guarded addr ((fun f => f addr v) <$> iomem_write16) tt
   (match o with
    | ADDR_OK1 _ => pstore16 addr v
    | ADDR_OK2 _ addr2 => _ ← pstore8 addr v; pstore8 addr2 (Z.shiftr v 8)
    end).

Definition store32 (o : OptAddr) (v : Z) : ST (CPUI386 D) unit :=
  let addr := addr1 o in
  guarded addr ((fun f => f addr v) <$> iomem_write32) tt
   (match o with
    | ADDR_OK1 _ => pstore32 addr v
    | ADDR_OK2 _ addr2 =>
        let k := Z.land addr 0xf in
        if k =? 0xf then
          _ ← pstore8 addr v; _ ← pstore16 addr2 (Z.shiftr v 8); pstore8 (addr2 + 2) (Z.shiftr v 24)
        else if k =? 0xe then _ ← pstore16 addr v; pstore16 addr2 (Z.shiftr v 16)
        else if k =? 0xd then
          _ ← pstore8 addr v; _ ← pstore16 (addr + 1) (Z.shiftr v 8); pstore8 addr2 (Z.shiftr v 24)
        else mret tt
    end).

Definition cpu_load8 (s addr : Z) : Exc (CPUI386 D) Z := o ← translate8 1 s addr; ok (load8 o).
Definition cpu_load16 (s addr : Z) : Exc (CPUI386 D) Z := o ← translate16 1 s addr; ok (load16 o).
Definition cpu_load32 (s addr : Z) : Exc (CPUI386 D) Z := o ← translate32 1 s addr; ok (load32 o).
Definition cpu_store8 (s addr v : Z) : Exc (CPUI386 D) unit := o ← translate8 2 s addr; ok (store8 o v).
Definition cpu_store16 (s addr v : Z) : Exc (CPUI386 D) unit := o ← translate16 2 s addr; ok (store16 o v).
Definition cpu_store32 (s addr v : Z) : Exc (CPUI386 D) unit := o ← translate32 2 s addr; ok (store32 o v).
(** A stack slot that can be accessed directly; on [None] the caller falls back to
    the general path. *)
Definition stack32_direct_addr (rwm off : Z) : Exc (CPUI386 D) Z := fun c =>
  let ss := seg_of c SEG_SS in
  if Z.testbit (cr0 c) 0 && null_selector ss then fails c else
  let laddr := u32 (base ss + off) in
  if 0xffc <? Z.land laddr 0xfff then fails c else
  (addr ← (if paging c then translate_lpgno_fast rwm (Z.shiftr laddr 12) laddr (cpl c) else mret laddr);
   let addr := map_bios_alias addr in
   size ← get phys_mem_size;
   if in_iomem addr || (size <=? addr) then fails else mret addr) c.

(** ** Instruction fetch *)

Definition set_ifetch (i : Ifetch) c : CPUI386 D := c <| ifetch := i |>.
Definition code_laddr c : Z := u32 (base (seg_of c SEG_CS) + next_ip c).
(** [(laddr ^ cpu->ifetch.laddr) < n] *)
Definition in_window c (n : Z) : bool := Z.lxor (code_laddr c) (if_laddr (ifetch c)) <? n.
Definition window_paddr c : Z := Z.lxor (if_xaddr (ifetch c)) (code_laddr c).
Definition advance (n : Z) : Exc (CPUI386 D) unit := put (fun c => c <| next_ip := u32 (next_ip c + n) |>).

Definition peek8 : Exc (CPUI386 D) Z := fun c =>
  let laddr := code_laddr c in
  if in_window c 4096 then ok (pload8 (window_paddr c)) c else
  (res ← translate8r SEG_CS (next_ip c);
   let paddr := map_bios_alias (addr1 res) in
   let ram : ST (CPUI386 D) Z := fun c =>
     (v ← pload8 paddr;
      _ ← (if (paddr <? u32 (phys_mem_size c - 4096)) && negb (in_iomem (u32 (paddr + 16))) then
             modify (fun c => set_ifetch (mkIf (Z.land laddr PAGE_MASK) (Z.lxor paddr laddr) (if_paddr (ifetch c))) c)
           else mret tt);
      mret v) c in
   ok (guarded paddr ((fun f => f paddr) <$> iomem_read8) 0 ram)) c.

(** The next byte through [ifetch.paddr], when it is set. *)
Definition fetch_cached (n : Z) (load : Z -> ST (CPUI386 D) Z) (slow : Exc (CPUI386 D) Z) : Exc (CPUI386 D) Z := fun c =>
  let p := if_paddr (ifetch c) in
  if nz p then
    (v ← ok (load p); _ ← put (fun c => set_ifetch ((ifetch c) <| if_paddr := u32 (p + n) |>) c); _ ← advance n; mret v) c
  else (v ← slow; _ ← advance n; mret v) c.

Definition peek8a : Exc (CPUI386 D) Z := fun c =>
  if nz (if_paddr (ifetch c)) then ok (pload8 (if_paddr (ifetch c))) c else peek8 c.
Definition fetch8 : Exc (CPUI386 D) Z := fetch_cached 1 pload8 peek8.
Definition fetch8pf : Exc (CPUI386 D) Z := fun c =>
  if in_window c (4096 - 16) then
    let paddr := window_paddr c in
    (v ← ok (pload8 paddr); _ ← put (fun c => set_ifetch ((ifetch c) <| if_paddr := u32 (paddr + 1) |>) c); _ ← advance 1; mret v) c
  else (v ← peek8; _ ← advance 1; mret v) (set_ifetch ((ifetch c) <| if_paddr := 0 |>) c).
Definition fetch16 : Exc (CPUI386 D) Z := fetch_cached 2 pload16 (fun c =>
  if in_window c 4095 then ok (pload16 (window_paddr c)) c
  else (res ← translate16 1 SEG_CS (next_ip c); ok (load16 res)) c).
Definition fetch32 : Exc (CPUI386 D) Z := fetch_cached 4 pload32 (fun c =>
  if in_window c 4093 then ok (pload32 (window_paddr c)) c
  else (res ← translate32 1 SEG_CS (next_ip c); ok (load32 res)) c).

(** ** Effective addresses

    The segment is -1 as long as neither a prefix nor the base chose one. *)

Definition NO_SEG : Z := -1.
Definition default_seg (s d : Z) : Z := if s =? NO_SEG then d else s.
Definition reg (i : Z) : Exc (CPUI386 D) Z := get (fun c => REGi c i).
Definition displacement32 (mod_ addr : Z) : Exc (CPUI386 D) Z :=
  if mod_ =? 1 then d ← fetch8; mret (u32 (addr + s8 d))
  else if mod_ =? 2 then d ← fetch32; mret (u32 (addr + s32 d))
  else mret addr.

Definition modsib32 (mod_ rm s : Z) : Exc (CPUI386 D) (Z * Z) :=
  '(addr, s) ← (
    if rm =? 4 then
      sib ← fetch8;
      let b := Z.land sib 7 in
      '(addr, s) ← (if (b =? 5) && (mod_ =? 0) then a ← fetch32; mret (a, s)
                    else a ← reg b; mret (a, if (b =? 4) || (b =? 5) then default_seg s SEG_SS else s));
      let i := Z.land (Z.shiftr sib 3) 7 in
      if i =? 4 then mret (addr, s)
      else x ← reg i; mret (u32 (addr + u32 (Z.shiftl x (Z.shiftr sib 6))), s)
    else if (rm =? 5) && (mod_ =? 0) then a ← fetch32; mret (a, s)
    else a ← reg rm; mret (a, if rm =? 5 then default_seg s SEG_SS else s));
  addr ← displacement32 mod_ addr;
  mret (addr, default_seg s SEG_DS).

Definition base16 c (rm : Z) : Z :=
  let g := REGi c in
  if rm =? 0 then g 3 + g 6 else if rm =? 1 then g 3 + g 7 else if rm =? 2 then g 5 + g 6 else
  if rm =? 3 then g 5 + g 7 else if rm =? 4 then g 6 else if rm =? 5 then g 7 else if rm =? 6 then g 5 else g 3.

Definition modsib16 (mod_ rm s : Z) : Exc (CPUI386 D) (Z * Z) :=
  addr ← (if (rm =? 6) && (mod_ =? 0) then fetch16 else
    a ← get (fun c => base16 c rm);
    a ← (if mod_ =? 1 then d ← fetch8; mret (a + s8 d) else if mod_ =? 2 then d ← fetch16; mret (a + d) else mret a);
    mret (Z.land a 0xffff));
  mret (addr, default_seg s (if (rm =? 2) || (rm =? 3) || (negb (mod_ =? 0) && (rm =? 6)) then SEG_SS else SEG_DS)).

Definition modsib (adsz16 : bool) (mod_ rm s : Z) : Exc (CPUI386 D) (Z * Z) :=
  if adsz16 then modsib16 mod_ rm s else modsib32 mod_ rm s.

(** ** Segment registers *)

(** [want_w1] is false when the caller passes a null [w1]; the first word is then
    not read. *)
Definition read_desc (want_w1 : bool) (sel1 : Z) : Exc (CPUI386 D) (Z * Z) := fun c =>
  let sel1 := Z.land sel1 0xffff in
  let off := Z.land sel1 (Z.lnot 7) in
  let '(b, lim) := if Z.testbit sel1 2 then (base (seg_of c SEG_LDT), limit (seg_of c SEG_LDT)) else (gdt_base c, gdt_limit c) in
  if lim <? off + 7 then THROW EX_GP (Z.land sel1 (Z.lnot 3)) c else
  (w1 ← (if want_w1 then o1 ← translate_laddr 1 (u32 (b + off)) 4 0; ok (load32 o1) else mret 0);
   o2 ← translate_laddr 1 (u32 (b + off + 4)) 4 0; w2 ← ok (load32 o2);
   mret (w1, w2)) c.

Definition set_seg_reg (s : Z) (v : Seg) c : CPUI386 D := c <| seg := arr_set (seg c) s v |>.
Definition desc_base (w1 w2 : Z) : Z :=
  Z.lor (Z.lor (Z.shiftr w1 16) (Z.shiftl (Z.land w2 0xff) 16)) (Z.land w2 0xff000000).
Definition desc_limit (w1 w2 : Z) : Z :=
  let l := Z.lor (Z.land w2 0xf0000) (Z.land w1 0xffff) in
  if nz (Z.land w2 0x00800000) then Z.lor (u32 (Z.shiftl l 12)) 0xfff else l.

Definition set_seg (s sel1 : Z) : Exc (CPUI386 D) unit := fun c =>
  let sel1 := Z.land sel1 0xffff in
  let vm := nz (Z.land (flags c) VM) in
  if negb (Z.testbit (cr0 c) 0) || vm then
    let c := set_seg_reg s (mkSeg sel1 (Z.shiftl sel1 4) 0xffff 0) c in
    let c := if s =? SEG_CS then c <| cpl := if vm then 3 else 0 |> <| code16 := true |> else c in
    let c := if s =? SEG_SS then c <| sp_mask := 0xffff |> else c in
    Done (Some tt, c)
  else
  ('(w1, w2) ← read_desc true sel1;
   let sys := negb (Z.testbit w2 12) in let present := Z.testbit w2 15 in
   let chosen := nz (Z.land sel1 (Z.lnot 3)) in
   if chosen && ((s =? SEG_DS) || (s =? SEG_ES) || (s =? SEG_FS) || (s =? SEG_GS)) && sys
   then THROW EX_GP (Z.land sel1 (Z.lnot 3))
   else if chosen && negb present then THROW (if s =? SEG_SS then EX_SS else EX_NP) (Z.land sel1 (Z.lnot 3))
   else
   let f := Z.land (Z.shiftr w2 8) 0xffff in
   _ ← put (set_seg_reg s (mkSeg sel1 (desc_base w1 w2) (desc_limit w1 w2) f));
   _ ← (if s =? SEG_CS then put (fun c => c <| cpl := Z.land sel1 3 |> <| code16 := negb (nz (Z.land f SEG_D_BIT)) |>) else mret tt);
   if s =? SEG_SS then put (fun c => c <| sp_mask := if nz (Z.land f SEG_B_BIT) then 0xffffffff else 0xffff |>) else mret tt) c.

(** One data segment register on a return to an outer privilege level. *)
Definition clear_seg (s : Z) c : CPUI386 D :=
  let w2 := u32 (Z.shiftl (sflags (seg_of c s)) 8) in
  let is_dataseg := negb (Z.testbit w2 11) in
  let dpl := Z.land (Z.shiftr w2 13) 3 in
  let conforming := nz (Z.land (Z.shiftr w2 8) 4) in
  if (is_dataseg || negb conforming) && (dpl <? cpl c) then set_seg_reg s (mkSeg 0 0 0 0) c else c.
Definition clear_segs c : CPUI386 D := fold_left (fun c s => clear_seg s c) [SEG_DS; SEG_ES; SEG_FS; SEG_GS] c.

End Operations.

(** A machine without memory-mapped devices. *)
#[export] Instance no_devices : IoMem unit := {|
  iomem_read8 := None; iomem_write8 := None; iomem_read16 := None; iomem_write16 := None;
  iomem_read32 := None; iomem_write32 := None |}.

End Mmu.
