(* ===== verification/I386Paging.v ===== *)
(** * I386Paging: the cached translation against the architecture's page walk

    [walk] and [mmu_spec] are the two-level walk with its protection rules over the
    tables in guest memory; [coherent] says that the two TLBs hold translations the
    walk would find; the theorems show that under it the translations of
    winspire/i386.c return the walk's address or raise the page fault it calls
    for, and stay coherent.  The accessed and dirty bits the walk sets are the only
    change of memory ([ad_le]). *)

From S2P Require Import Prelude I386 I386Mmu.

Module Paging.
Import I386 Mmu.

(** ** Memory up to accessed and dirty bits *)

Definition ad (k : Z) : Prop := k = 0 \/ k = 32 \/ k = 64 \/ k = 96.
Definition mem_ok (m : list Z) : Prop := forall a, 0 <= a < alen m -> inw 8 (arr m a).

(** [m'] is [m] with bits 5 and 6 set in some bytes at multiples of four. *)
Definition ad_le (m m' : list Z) : Prop := alen m' = alen m /\
  forall a, 0 <= a < alen m -> exists k, ad k /\ (k = 0 \/ a mod 4 = 0) /\ arr m' a = Z.lor (arr m a) k.

Lemma ad_lor k k' : ad k -> ad k' -> ad (Z.lor k k').
Proof. unfold ad. intros [-> |[-> |[-> | ->]]] [-> |[-> |[-> | ->]]]; cbn; tauto. Qed.
#[export] Instance ad_le_preorder : PreOrder ad_le.
Proof.
  split.
  - intros m. split; [done|]. intros a Ha. exists 0. split; [by left|]. split; [by left|]. by rewrite Z.lor_0_r.
  - intros m1 m2 m3 [L1 H1] [L2 H2]. split; [by rewrite L2|]. intros a Ha.
    destruct (H1 a Ha) as (k & Hk & Hz & E). destruct (H2 a) as (k' & Hk' & Hz' & E'); [by rewrite L1|].
    exists (Z.lor k k'). split; [by apply ad_lor|]. split; [|by rewrite E', E, Z.lor_assoc].
    destruct Hz as [-> |]; [|by right]. destruct Hz' as [-> |]; [by left|by right].
Qed.
Lemma ad_inw k : ad k -> inw 8 k.
Proof. intros [-> |[-> |[-> | ->]]]; unfold inw; lia. Qed.
Lemma ad_le_ok m m' : ad_le m m' -> mem_ok m -> mem_ok m'.
Proof.
  intros [L Hm] Hok a Ha. rewrite L in Ha. destruct (Hm a Ha) as (k & Hk & _ & ->).
  apply inw_lor; [by apply Hok|by apply ad_inw].
Qed.

(** Setting such bits at an aligned address. *)
Lemma ad_le_set m a k : 0 <= a < alen m -> a mod 4 = 0 -> ad k -> ad_le m (arr_set m a (Z.lor (arr m a) k)).
Proof.
  intros Ha H4 Hk. split; [apply alen_set|]. intros b Hb. destruct (decide (b = a)) as [->|Hne].
  - exists k. split; [done|]. split; [by right|]. by rewrite arr_set_eq.
  - exists 0. split; [by left|]. split; [by left|]. by rewrite arr_set_ne, Z.lor_0_r by lia.
Qed.

(** ** Words of the page tables *)

Definition word_at (m : list Z) (a : Z) : outcome Z :=
  b0 ← rd m a; b1 ← rd m (a + 1); b2 ← rd m (a + 2); b3 ← rd m (a + 3);
  mret (Z.lor (Z.lor (Z.lor b0 (Z.shiftl b1 8)) (Z.shiftl b2 16)) (Z.shiftl b3 24)).
(** A table entry without its accessed and dirty bits. *)
Definition core (w : Z) : Z := Z.land w 0xffffff9f.

Lemma core_ad b k : ad k -> core (Z.lor b k) = core b.
Proof.
  intros Hk. unfold core. rewrite Z.land_lor_distr_l.
  assert (Z.land k 0xffffff9f = 0) as -> by (by destruct Hk as [-> |[-> |[-> | ->]]]). apply Z.lor_0_r.
Qed.

Lemma rd_ad m m' a b : ad_le m m' -> rd m a = Done b ->
  exists k, ad k /\ (k = 0 \/ a mod 4 = 0) /\ rd m' a = Done (Z.lor b k).
Proof.
  intros [L Hm] E. destruct (decide (0 <= a < alen m)) as [Ha|Ha]; [|by rewrite rd_out in E by lia].
  rewrite rd_in in E by done. injection E as <-. destruct (Hm a Ha) as (k & Hk & Hz & E'). exists k.
  split; [done|]. split; [done|]. by rewrite rd_in, E' by (by rewrite L).
Qed.

Lemma word_at_ad m m' a w : ad_le m m' -> a mod 4 = 0 -> word_at m a = Done w ->
  exists w', word_at m' a = Done w' /\ core w' = core w.
Proof.
  intros Hm H4 E. unfold word_at in *.
  apply bind_done in E as (b0 & E0 & E). apply bind_done in E as (b1 & E1 & E).
  apply bind_done in E as (b2 & E2 & E). apply bind_done in E as (b3 & E3 & E). injection E as <-.
  destruct (rd_ad _ _ _ _ Hm E0) as (k & Hk & _ & ->). 
  assert (Hoff : forall i b, 0 < i < 4 -> rd m (a + i) = Done b -> rd m' (a + i) = Done b).
  { intros i b Hi Eb. destruct (rd_ad _ _ _ _ Hm Eb) as (k' & _ & Hz & ->).
    destruct Hz as [-> |Hz]; [by rewrite Z.lor_0_r|].
    rewrite <- Zplus_mod_idemp_l, H4, Z.mod_small in Hz; lia. }
  rewrite (Hoff 1 b1), (Hoff 2 b2), (Hoff 3 b3) by (done || lia).
  eexists. split; [reflexivity|]. pose proof (core_ad b0 k Hk) as Hc. unfold core in *.
  rewrite !(Z.land_lor_distr_l _ _ 0xffffff9f) in *. by rewrite Hc.
Qed.

(** ** The architecture's walk and protection *)

Definition pde_addr (cr3 l : Z) : Z := u32 (Z.land cr3 PAGE_MASK + Z.shiftr l 10 * 4).
Definition pte_addr (pde l : Z) : Z := u32 (Z.land pde PAGE_MASK + Z.land l 1023 * 4).
Definition frame (pte : Z) : Z := Z.land pte PAGE_MASK.

(** The entries of page [l] in both tables, [None] when one is not present. *)
Definition walk (m : list Z) (cr3 l : Z) : outcome (option (Z * Z)) :=
  pde ← word_at m (pde_addr cr3 l);
  if negb (Z.testbit pde 0) then mret None else
  pte ← word_at m (pte_addr pde l);
  if negb (Z.testbit pte 0) then mret None else mret (Some (core pde, core pte)).

(** Both levels must allow a user access, and a write unless the supervisor writes
    with CR0.WP clear. *)
Definition may (wp : bool) (pde pte : Z) (user write : bool) : bool :=
  (negb user || (Z.testbit pde 2 && Z.testbit pte 2)) &&
  (negb write || (Z.testbit pde 1 && Z.testbit pte 1) || (negb user && negb wp)).

(** The physical address of a linear address, or the error code of the fault. *)
Definition error_code (present write user : bool) : Z := b2z present + 2 * b2z write + 4 * b2z user.
Definition mmu_spec (m : list Z) (cr3 : Z) (wp : bool) (laddr : Z) (user write : bool) : outcome (Z + Z) :=
  r ← walk m cr3 (Z.shiftr laddr 12);
  mret match r with
  | None => inr (error_code false write user)
  | Some (pde, pte) =>
      if may wp pde pte user write then inl (frame pte + laddr mod 4096) else inr (error_code true write user)
  end.

Lemma core_bit w i : 0 <= i < 32 -> i <> 5 -> i <> 6 -> Z.testbit (core w) i = Z.testbit w i.
Proof.
  intros Hi H5 H6. unfold core. rewrite Z.land_spec.
  assert (Z.testbit 0xffffff9f i = true) as ->; [|apply andb_true_r].
  assert (Hall : all_below 32 (fun i => (i =? 5) || (i =? 6) || Z.testbit 0xffffff9f i) = true) by reflexivity.
  pose proof (all_below_spec _ _ i Hall ltac:(lia)) as Hb. cbv beta in Hb.
  destruct (Z.eqb_spec i 5), (Z.eqb_spec i 6); done || lia.
Qed.
Lemma core_frame w : Z.land (core w) PAGE_MASK = Z.land w PAGE_MASK.
Proof. unfold core, PAGE_MASK. by rewrite <- Z.land_assoc. Qed.
Lemma core_core w : core (core w) = core w.
Proof. unfold core. by rewrite <- Z.land_assoc. Qed.
Lemma same_core w w' : core w' = core w ->
  Z.land w' PAGE_MASK = Z.land w PAGE_MASK /\ forall i, 0 <= i < 5 -> Z.testbit w' i = Z.testbit w i.
Proof.
  intros E. split; [by rewrite <- core_frame, E, core_frame|].
  intros i Hi. rewrite <- (core_bit w'), <- (core_bit w), E by lia. done.
Qed.

Lemma aligned_mask x y : u32 (Z.land x PAGE_MASK + y * 4) mod 4 = 0.
Proof.
  unfold u32. change 4 with (2 ^ 2). rewrite mod_mod_pow2 by lia. rewrite Z_mod_plus_full, <- land_ones_mod, <- Z.land_assoc by lia.
  apply Z.land_0_r.
Qed.

Lemma pde_addr_aligned cr3 l : pde_addr cr3 l mod 4 = 0.
Proof. apply aligned_mask. Qed.
Lemma pte_addr_aligned pde l : pte_addr pde l mod 4 = 0.
Proof. apply aligned_mask. Qed.

(** Accessed and dirty bits do not matter to the walk. *)
Lemma walk_ad m m' cr3 l r : ad_le m m' -> walk m cr3 l = Done r -> walk m' cr3 l = Done r.
Proof.
  intros Hm E. unfold walk in *. apply bind_done in E as (pde & E1 & E).
  destruct (word_at_ad _ _ _ _ Hm (pde_addr_aligned _ _) E1) as (pde' & -> & Hc). cbn [mbind outcome_bind].
  destruct (same_core _ _ Hc) as [Hf Hb]. rewrite (Hb 0) by lia. destruct (negb (Z.testbit pde 0)); [done|].
  apply bind_done in E as (pte & E2 & E).
  assert (pte_addr pde' l = pte_addr pde l) as -> by (unfold pte_addr; by rewrite Hf).
  destruct (word_at_ad _ _ _ _ Hm (pte_addr_aligned _ _) E2) as (pte' & -> & Hc'). cbn [mbind outcome_bind].
  destruct (same_core _ _ Hc') as [_ Hb']. rewrite (Hb' 0) by lia. destruct (negb (Z.testbit pte 0)); [done|].
  by rewrite Hc, Hc'.
Qed.

(** The permission table of the source is the protection rule. *)
Lemma row_bits x : Z.land (Z.shiftr x 1) 3 = b2z (Z.testbit x 1) + 2 * b2z (Z.testbit x 2).
Proof.
  change 3 with (2 ^ 2 - 1). rewrite land_ones_mod by lia. change (2 ^ 2) with (2 * 2).
  rewrite (Z.rem_mul_r _ 2 2) by lia. rewrite <- !Z.bit0_mod. rewrite (Z.shiftr_spec x 1 0) by lia. cbn [Z.add].
  assert (Z.shiftr x 1 / 2 = Z.shiftr x 2) as ->
    by (change (Z.shiftr x 2) with (Z.shiftr x (1 + 1)); rewrite <- Z.shiftr_shiftr by lia; symmetry; apply (Z.shiftr_div_pow2 _ 1); lia).
  rewrite Z.shiftr_spec by lia. change (0 + 1) with 1. change (0 + 2) with 2. by destruct (Z.testbit x 1), (Z.testbit x 2).
Qed.
Lemma lookup_may wp pde pte user write :
  pte_lookup (wp, Z.land (Z.shiftr (Z.land pte (Z.lor (Z.land pde 7) 0xfffffff8)) 1) 3) user write =
  negb (may wp (core pde) (core pte) user write).
Proof.
  rewrite row_bits. assert (Hb : forall i, 0 <= i < 3 ->
    Z.testbit (Z.land pte (Z.lor (Z.land pde 7) 0xfffffff8)) i = Z.testbit pte i && Z.testbit pde i).
  { intros i Hi. rewrite Z.land_spec, Z.lor_spec, Z.land_spec. f_equal.
    assert (i = 0 \/ i = 1 \/ i = 2) as [-> |[-> | ->]] by lia; cbn [Z.testbit Pos.testbit]; by rewrite andb_true_r, orb_false_r. }
  rewrite !Hb by lia. unfold may. rewrite !core_bit by lia.
  by destruct wp, user, write, (Z.testbit pde 1), (Z.testbit pte 1), (Z.testbit pde 2), (Z.testbit pte 2).
Qed.

(** ** What the TLBs may hold *)

Section Coherence.
Variables (m : list Z) (cr3 : Z) (wp : bool).

Definition maps (l pde pte : Z) : Prop := walk m cr3 l = Done (Some (pde, pte)).
Definition page_xor (l pte : Z) : Z := Z.lxor (frame pte) (u32 (Z.shiftl l 12)).

Definition entry_ok (e : TlbEntry) : Prop := lpgno e = NO_PAGE \/ exists pde pte,
  maps (lpgno e) pde pte /\ xaddr e = page_xor (lpgno e) pte /\ ppte e = pte_addr pde (lpgno e) /\
  forall user write, pte_lookup (lookup_row e) user write = negb (may wp pde pte user write).
Definition read_ok (r : FastRead) : Prop := read_lpgno r = NO_PAGE \/ exists pde pte,
  maps (read_lpgno r) pde pte /\ read_xaddr r = page_xor (read_lpgno r) pte /\
  may wp pde pte (nz (read_cpl r)) false = true.
(** A write slot marked dirty is for a page whose entry has the dirty bit. *)
Definition write_ok (w : FastWrite) : Prop := write_lpgno w = NO_PAGE \/ exists pde pte,
  maps (write_lpgno w) pde pte /\ write_xaddr w = page_xor (write_lpgno w) pte /\
  write_ppte w = Some (pte_addr pde (write_lpgno w)) /\ may wp pde pte (nz (write_cpl w)) true = true /\
  (write_dirty w <> 0 -> Z.testbit (arr m (pte_addr pde (write_lpgno w))) 6 = true).
End Coherence.

Record tlbs_ok (m : list Z) (cr3 : Z) (wp : bool) (t : list TlbEntry) (r : list FastRead) (w : list FastWrite) : Prop := {
  to_tlb : alen t = tlb_size; to_fr : alen r = NSPIRE_DTLB_FAST_SLOTS; to_fw : alen w = NSPIRE_DTLB_FAST_SLOTS;
  to_entry : forall i, 0 <= i < tlb_size -> entry_ok m cr3 wp (arr t i);
  to_read : forall i, 0 <= i < NSPIRE_DTLB_FAST_SLOTS -> read_ok m cr3 wp (arr r i);
  to_write : forall i, 0 <= i < NSPIRE_DTLB_FAST_SLOTS -> write_ok m cr3 wp (arr w i);
}.

Lemma walk_range m cr3 l pde pte : maps m cr3 l pde pte -> 0 <= pte_addr pde l < alen m.
Proof.
  unfold maps, walk. intros E. apply bind_done in E as (pd & _ & E). destruct (negb (Z.testbit pd 0)); [done|].
  apply bind_done in E as (pt & E & E'). destruct (negb (Z.testbit pt 0)); [done|]. injection E' as <- <-.
  unfold word_at in E. apply bind_done in E as (b & E & _).
  assert (pte_addr (core pd) l = pte_addr pd l) as -> by (unfold pte_addr; by rewrite core_frame).
  destruct (decide (0 <= pte_addr pd l < alen m)); [done|]. by rewrite rd_out in E by lia.
Qed.

Lemma dirty_ad m m' a : ad_le m m' -> 0 <= a < alen m -> Z.testbit (arr m a) 6 = true -> Z.testbit (arr m' a) 6 = true.
Proof. intros [_ Hm] Ha E. destruct (Hm a Ha) as (k & _ & _ & ->). by rewrite Z.lor_spec, E. Qed.

Lemma tlbs_mem m m' cr3 wp t r w : ad_le m m' -> tlbs_ok m cr3 wp t r w -> tlbs_ok m' cr3 wp t r w.
Proof.
  intros Hm [? ? ? He Hr Hw]. constructor; try done.
  - intros i Hi. destruct (He i Hi) as [|(pde & pte & H1 & H2)]; [by left|right]. exists pde, pte.
    split; [by apply (walk_ad m)|done].
  - intros i Hi. destruct (Hr i Hi) as [|(pde & pte & H1 & H2)]; [by left|right]. exists pde, pte.
    split; [by apply (walk_ad m)|done].
  - intros i Hi. destruct (Hw i Hi) as [|(pde & pte & H1 & H2 & H3 & H4 & H5)]; [by left|right]. exists pde, pte.
    split; [by apply (walk_ad m)|]. split; [done|]. split; [done|]. split; [done|]. intros Hd.
    apply (dirty_ad m); [done|by eapply walk_range|by apply H5].
Qed.
Lemma arr_set_all {A} `{Inhabited A} (P : A -> Prop) (l : list A) i v n : alen l = n ->
  (forall j, 0 <= j < n -> P (arr l j)) -> P v -> forall j, 0 <= j < n -> P (arr (arr_set l i v) j).
Proof.
  intros Hn Hl Hv j Hj. unfold arr, arr_set. rewrite list_lookup_total_insert. case_decide; [done|by apply Hl].
Qed.
Lemma tlbs_entry m cr3 wp t r w s e : tlbs_ok m cr3 wp t r w -> entry_ok m cr3 wp e -> tlbs_ok m cr3 wp (arr_set t s e) r w.
Proof. intros [? ? ? He ? ?] Hv. constructor; try done; [by rewrite alen_set|by apply (arr_set_all (entry_ok m cr3 wp))]. Qed.
Lemma tlbs_read m cr3 wp t r w s e : tlbs_ok m cr3 wp t r w -> read_ok m cr3 wp e -> tlbs_ok m cr3 wp t (arr_set r s e) w.
Proof. intros [? ? ? ? He ?] Hv. constructor; try done; [by rewrite alen_set|by apply (arr_set_all (read_ok m cr3 wp))]. Qed.
Lemma tlbs_write m cr3 wp t r w s e : tlbs_ok m cr3 wp t r w -> write_ok m cr3 wp e -> tlbs_ok m cr3 wp t r (arr_set w s e).
Proof. intros [? ? ? ? ? He] Hv. constructor; try done; [by rewrite alen_set|by apply (arr_set_all (write_ok m cr3 wp))]. Qed.

(** ** One walk *)

Section Walk.
Context {D : Type} `{IoMem D}.
Implicit Types c : CPUI386 D.

Definition wp_of c : bool := nz (Z.land (cr0 c) CR0_WP).
Definition coherent c : Prop :=
  mem_ok (phys_mem c) /\ tlbs_ok (phys_mem c) (cr3 c) (wp_of c) (tlb c) (fast_read c) (fast_write c).

Lemma put_bind {B} f (k : unit -> Exc (CPUI386 D) B) c : (put f ≫= k) c = k tt (f c).
Proof. done. Qed.
Lemma get_bind {A B} (f : CPUI386 D -> A) (k : A -> Exc (CPUI386 D) B) c : (get f ≫= k) c = k (f c) c.
Proof. done. Qed.

Lemma pload32_word a c w : word_at (phys_mem c) a = Done w -> pload32 a c = Done (w, c).
Proof.
  unfold word_at. intros E. apply bind_done in E as (b0 & E0 & E). apply bind_done in E as (b1 & E1 & E).
  apply bind_done in E as (b2 & E2 & E). apply bind_done in E as (b3 & E3 & E). injection E as <-.
  assert (Hp : forall i b, rd (phys_mem c) i = Done b -> pload8 i c = Done (b, c)) by (intros i b Eb; unfold pload8; by rewrite Eb).
  unfold pload32. rewrite (st_bind_done _ _ _ _ _ (Hp _ _ E0)), (st_bind_done _ _ _ _ _ (Hp _ _ E1)),
    (st_bind_done _ _ _ _ _ (Hp _ _ E2)), (st_bind_done _ _ _ _ _ (Hp _ _ E3)). done.
Qed.
Lemma word_in m a w : word_at m a = Done w -> 0 <= a < alen m.
Proof.
  unfold word_at. intros E. apply bind_done in E as (b & E & _).
  destruct (decide (0 <= a < alen m)); [done|]. by rewrite rd_out in E by lia.
Qed.

Lemma or_byte_spec a k c : mem_ok (phys_mem c) -> 0 <= a < alen (phys_mem c) -> ad k ->
  or_byte a k c = Done (tt, c <| phys_mem := arr_set (phys_mem c) a (Z.lor (arr (phys_mem c) a) k) |>).
Proof.
  intros Hok Ha Hk. unfold or_byte.
  rewrite (st_bind_done (pload8 a) _ c (arr (phys_mem c) a) c) by (unfold pload8; by rewrite rd_in).
  unfold pstore8. rewrite u8_id by (apply inw_lor; [by apply Hok|by apply ad_inw]). by rewrite wr_in.
Qed.

(** Setting bit [k] of the table word at [a]. *)
Lemma or_table_byte a k c w : mem_ok (phys_mem c) -> word_at (phys_mem c) a = Done w -> a mod 4 = 0 -> ad k ->
  exists m', or_byte a k c = Done (tt, c <| phys_mem := m' |>) /\ ad_le (phys_mem c) m'.
Proof.
  intros Hok Ea H4 Hk. pose proof (word_in _ _ _ Ea). eexists. split; [by apply or_byte_spec|by apply ad_le_set].
Qed.

Lemma tlb_refill_spec c s l r : mem_ok (phys_mem c) -> walk (phys_mem c) (cr3 c) l = Done r ->
  exists m', ad_le (phys_mem c) m' /\
  match r with
  | None => tlb_refill s l c = Done (None, c <| phys_mem := m' |>)
  | Some (pde, pte) => exists e,
      tlb_refill s l c = Done (Some tt, c <| phys_mem := m' |> <| tlb := arr_set (tlb c) s e |>) /\
      lpgno e = l /\ xaddr e = page_xor l pte /\ ppte e = pte_addr pde l /\
      forall user write, pte_lookup (lookup_row e) user write = negb (may (wp_of c) pde pte user write)
  end.
Proof.
  intros Hok E. unfold walk in E. apply bind_done in E as (pde & E1 & E).
  unfold tlb_refill. rewrite get_bind. cbv zeta. fold (pde_addr (cr3 c) l).
  rewrite (ok_bind _ _ _ _ _ (pload32_word _ _ _ E1)). destruct (negb (Z.testbit pde 0)) eqn:Ep1.
  { injection E as <-. exists (phys_mem c). split; [done|]. by destruct c. }
  apply bind_done in E as (pte & E2 & E).
  destruct (or_table_byte (pde_addr (cr3 c) l) (Z.shiftl 1 5) c pde Hok E1 (pde_addr_aligned _ _)) as (m1 & Eo & Hm1); [by right; left|].
  rewrite (ok_bind _ _ _ _ _ Eo). cbv zeta. fold (pte_addr pde l).
  destruct (word_at_ad _ _ _ _ Hm1 (pte_addr_aligned pde l) E2) as (pte' & E2' & Hc).
  rewrite (ok_bind (pload32 (pte_addr pde l)) _ _ pte' (c <| phys_mem := m1 |>)) by (by apply pload32_word).
  destruct (same_core _ _ Hc) as [Hf Hb]. rewrite (Hb 0) by lia. destruct (negb (Z.testbit pte 0)) eqn:Ep2.
  { injection E as <-. exists m1. done. }
  injection E as <-.
  destruct (or_table_byte (pte_addr pde l) (Z.shiftl 1 5) (c <| phys_mem := m1 |>) pte') as (m2 & Eo2 & Hm2);
    [by apply (ad_le_ok (phys_mem c))|done|apply pte_addr_aligned|by right; left|].
  exists m2. split; [by transitivity m1|]. eexists. rewrite (ok_bind _ _ _ _ _ Eo2), get_bind. split; [reflexivity|].
  cbn [lpgno xaddr ppte lookup_row]. split; [done|].
  split; [unfold page_xor, frame; by rewrite Hf, core_frame|]. split; [unfold pte_addr; by rewrite core_frame|].
  intros user write. rewrite lookup_may. by rewrite Hc.
Qed.

(** ** Results *)

(** [c'] differs from [c] in memory and in the TLBs only. *)
Definition mmu_only c c' : Prop :=
  c' = c <| phys_mem := phys_mem c' |> <| tlb := tlb c' |> <| fast_read := fast_read c' |> <| fast_write := fast_write c' |>.
Definition faulted (laddr e : Z) c : CPUI386 D := c <| cr2 := laddr |> <| excno := EX_PF |> <| excerr := e |>.
(** The dirty bit of the page of [laddr]. *)
Definition dirty c (laddr : Z) : Prop := exists pde pte,
  maps (phys_mem c) (cr3 c) (Z.shiftr laddr 12) pde pte /\
  Z.testbit (arr (phys_mem c) (pte_addr pde (Z.shiftr laddr 12))) 6 = true.

(** [m] translates [laddr] to [r], or raises the page fault with error code [r]. *)
Definition translated (m : Exc (CPUI386 D) Z) c (laddr : Z) (write : bool) (r : Z + Z) : Prop :=
  exists c', coherent c' /\ ad_le (phys_mem c) (phys_mem c') /\
  match r with
  | inl p => m c = Done (Some p, c') /\ mmu_only c c' /\ (write = true -> dirty c' laddr)
  | inr e => m c = Done (None, c') /\ mmu_only (faulted laddr e c) c'
  end.

Lemma page_fault_spec {A} p rwm cpl laddr c : 0 <= rwm <= 3 -> 0 <= cpl ->
  page_fault (A := A) (b2z p) rwm cpl laddr c = Done (None, faulted laddr (error_code p (1 <? rwm) (0 <? cpl)) c).
Proof.
  intros Hr Hc. unfold page_fault. rewrite put_bind. unfold fails, faulted. do 4 f_equal.
  assert (nz cpl = (0 <? cpl)) as -> by (unfold nz; destruct (Z.eqb_spec cpl 0), (Z.ltb_spec 0 cpl); done || lia).
  assert (rwm = 0 \/ rwm = 1 \/ rwm = 2 \/ rwm = 3) as Hin by lia. unfold error_code.
  destruct Hin as [-> |[-> |[-> | ->]]]; by destruct p, (0 <? cpl).
Qed.

Lemma rwm_write rwm : 0 <= rwm <= 3 -> nz (Z.land rwm 2) = (1 <? rwm).
Proof. intros. assert (rwm = 0 \/ rwm = 1 \/ rwm = 2 \/ rwm = 3) as [-> |[-> |[-> | ->]]] by lia; done. Qed.

(** The translation formed from the cached exclusive-or. *)
Lemma page_xor_laddr laddr pte : inw 32 laddr ->
  Z.lxor (page_xor (Z.shiftr laddr 12) pte) laddr = frame pte + laddr mod 4096.
Proof.
  intros Hl. unfold page_xor. rewrite Z.lxor_assoc.
  assert (Z.lxor (u32 (Z.shiftl (Z.shiftr laddr 12) 12)) laddr = laddr mod 2 ^ 12) as ->.
  { apply Z.bits_inj'. intros i Hi. rewrite Z.lxor_spec. unfold u32.
    destruct (Z.lt_ge_cases i 12).
    - rewrite !Z.mod_pow2_bits_low, Z.shiftl_spec_low by lia. apply xorb_false_l.
    - rewrite (Z.mod_pow2_bits_high laddr) by lia. destruct (Z.lt_ge_cases i 32).
      + rewrite Z.mod_pow2_bits_low, Z.shiftl_spec, Z.shiftr_spec by lia. replace (i - 12 + 12) with i by lia. apply xorb_nilpotent.
      + rewrite Z.mod_pow2_bits_high by lia. by rewrite (inw_testbit_high 32 laddr) by (done || lia). }
  change 4096 with (2 ^ 12). rewrite Z.add_nocarry_lxor; [done|].
  apply Z.bits_inj'. intros i Hi. unfold frame. rewrite !Z.land_spec, Z.bits_0. destruct (Z.lt_ge_cases i 12).
  - assert (Z.testbit PAGE_MASK i = false) as ->; [|by rewrite andb_false_r].
    change PAGE_MASK with (Z.shiftl 0xfffff 12). by rewrite Z.shiftl_spec_low by lia.
  - by rewrite (Z.mod_pow2_bits_high laddr), andb_false_r by lia.
Qed.
Lemma page_lt laddr : inw 32 laddr -> 0 <= Z.shiftr laddr 12 < 2 ^ 20.
Proof.
  unfold inw. intros Hl. rewrite Z.shiftr_div_pow2 by lia.
  split; [apply Z.div_pos; lia|apply Z.div_lt_upper_bound; lia].
Qed.
Lemma tlb_slot_range l : 0 <= l -> 0 <= slot_of l < tlb_size.
Proof. intros. unfold slot_of, tlb_size. apply Z.mod_pos_bound. lia. Qed.
Lemma fast_slot_range l : 0 <= fast_slot l < NSPIRE_DTLB_FAST_SLOTS.
Proof. unfold fast_slot, NSPIRE_DTLB_FAST_SLOTS. rewrite (land_ones_mod 10) by lia. apply Z.mod_pos_bound. lia. Qed.

(** ** Steps of a translation *)

#[export] Instance mmu_only_preorder : PreOrder mmu_only.
Proof.
  split; [by intros []|]. intros c1 c2 c3 E1 E2. unfold mmu_only in *. etransitivity; [exact E2|]. by rewrite E1.
Qed.
Lemma mmu_only_faulted laddr e c c' : mmu_only c c' -> mmu_only (faulted laddr e c) (faulted laddr e c').
Proof. unfold mmu_only. intros E. rewrite E. done. Qed.

Lemma coherent_mem c m' : coherent c -> ad_le (phys_mem c) m' -> coherent (c <| phys_mem := m' |>).
Proof. intros [Hm Ht] Ha. split; [by apply (ad_le_ok (phys_mem c))|exact (tlbs_mem _ _ _ _ _ _ _ Ha Ht)]. Qed.
Lemma coherent_drop_entry l c : coherent c -> coherent (drop_entry l c).
Proof. intros [Hm Ht]. split; [exact Hm|]. apply (tlbs_entry _ _ _ _ _ _ _ _ Ht). by left. Qed.
Lemma coherent_set_fr l r c : coherent c -> read_ok (phys_mem c) (cr3 c) (wp_of c) r -> coherent (set_fr l r c).
Proof. intros [Hm Ht] Hr. split; [exact Hm|exact (tlbs_read _ _ _ _ _ _ _ _ Ht Hr)]. Qed.
Lemma coherent_set_fw l w c : coherent c -> write_ok (phys_mem c) (cr3 c) (wp_of c) w -> coherent (set_fw l w c).
Proof. intros [Hm Ht] Hw. split; [exact Hm|exact (tlbs_write _ _ _ _ _ _ _ _ Ht Hw)]. Qed.
End Walk.

Section Refine.
Context {D : Type} `{IoMem D}.
Implicit Types c : CPUI386 D.

(** A found entry describes page [l]. *)
Definition found c (l pde pte : Z) (e : TlbEntry) : Prop :=
  lpgno e = l /\ xaddr e = page_xor l pte /\ ppte e = pte_addr pde l /\
  forall user write, pte_lookup (lookup_row e) user write = negb (may (wp_of c) pde pte user write).

Lemma found_ok c l pde pte e : maps (phys_mem c) (cr3 c) l pde pte -> found c l pde pte e ->
  entry_ok (phys_mem c) (cr3 c) (wp_of c) e.
Proof. intros Hm (El & Ex & Ep & Hl). right. exists pde, pte. rewrite El. done. Qed.

Lemma find_entry_spec rwm l laddr cpl c r :
  coherent c -> 0 <= rwm <= 3 -> 0 <= cpl -> 0 <= l < 2 ^ 20 -> walk (phys_mem c) (cr3 c) l = Done r ->
  exists c', coherent c' /\ ad_le (phys_mem c) (phys_mem c') /\ mmu_only c c' /\
  match r with
  | None => find_entry rwm l laddr cpl c = Done (None, faulted laddr (error_code false (1 <? rwm) (0 <? cpl)) c')
  | Some (pde, pte) => exists e, find_entry rwm l laddr cpl c = Done (Some e, c') /\ found c' l pde pte e
  end.
Proof.
  intros [Hok Ht] Hr Hc Hl Hw. unfold find_entry. destruct (Z.eqb_spec (lpgno (entry c l)) l) as [E|E].
  - exists c. split; [done|]. split; [done|]. split; [done|].
    destruct (to_entry _ _ _ _ _ _ Ht (slot_of l)) as [E'|(pde & pte & Hm & Hx & Hp & Hk)]; [apply tlb_slot_range; lia| |].
    + unfold entry in E. rewrite E' in E. unfold NO_PAGE in E. lia.
    + fold (entry c l) in *. rewrite E in *. unfold maps in Hm. rewrite Hw in Hm. injection Hm as ->. exists (entry c l). done.
  - destruct (tlb_refill_spec c (slot_of l) l r Hok Hw) as (m' & Hm & Hf). destruct r as [[pde pte]|].
    + destruct Hf as (e & -> & El & Ex & Ep & Hk). set (c1 := c <| phys_mem := m' |> <| tlb := _ |>).
      assert (Ee : entry c1 l = e) by (apply arr_set_eq; rewrite (to_tlb _ _ _ _ _ _ Ht); apply tlb_slot_range; lia).
      exists c1. split; [|split; [exact Hm|split; [done|exists e; by rewrite Ee]]].
      pose proof (walk_ad _ _ _ _ _ Hm Hw) as Hw'.
      split; [by apply (ad_le_ok (phys_mem c))|]. apply (tlbs_entry m'); [by apply (tlbs_mem (phys_mem c))|].
      right. exists pde, pte. by rewrite El.
    + rewrite Hf. exists (c <| phys_mem := m' |>). split; [by apply coherent_mem|]. split; [exact Hm|]. split; [done|].
      exact (page_fault_spec false _ _ _ _ Hr Hc).
Qed.

Lemma mark_dirty_spec a c : mem_ok (phys_mem c) -> 0 <= a < alen (phys_mem c) -> a mod 4 = 0 ->
  exists m', mark_pte_dirty (Some a) c = Done (tt, c <| phys_mem := m' |>) /\ ad_le (phys_mem c) m' /\
    Z.testbit (arr m' a) 6 = true.
Proof.
  intros Hok Ha H4. unfold mark_pte_dirty.
  rewrite (st_bind_done (pload8 a) _ c (arr (phys_mem c) a) c) by (unfold pload8; by rewrite rd_in).
  destruct (Z.testbit (arr (phys_mem c) a) 6) eqn:E.
  - exists (phys_mem c). split; [by destruct c|done].
  - eexists. rewrite or_byte_spec; [|done|done|by right; right; left]. split; [reflexivity|].
    split; [apply ad_le_set; [done|done|by right; right; left]|]. rewrite arr_set_eq by done. by rewrite Z.lor_spec, orb_true_r.
Qed.

Lemma may_write_read wp pde pte user : may wp pde pte user true = true -> may wp pde pte user false = true.
Proof. unfold may. intros Hm. apply andb_true_iff in Hm as [-> _]. done. Qed.
Lemma nz_key b : nz (b2z b) = b.
Proof. by destruct b. Qed.

(** Marking the page of a found entry dirty. *)
Lemma found_dirty c laddr pde pte e : coherent c -> found c (Z.shiftr laddr 12) pde pte e ->
  maps (phys_mem c) (cr3 c) (Z.shiftr laddr 12) pde pte ->
  exists m', mark_pte_dirty (Some (ppte e)) c = Done (tt, c <| phys_mem := m' |>) /\ ad_le (phys_mem c) m' /\
    coherent (c <| phys_mem := m' |>) /\ maps m' (cr3 c) (Z.shiftr laddr 12) pde pte /\
    Z.testbit (arr m' (pte_addr pde (Z.shiftr laddr 12))) 6 = true.
Proof.
  intros Hc (_ & _ & Ep & _) Hm. pose proof (walk_range _ _ _ _ _ Hm) as Hr. rewrite Ep.
  destruct (mark_dirty_spec (pte_addr pde (Z.shiftr laddr 12)) c (proj1 Hc) Hr (pte_addr_aligned _ _)) as (m' & E & Ha & Hd).
  exists m'. split; [done|]. split; [done|]. split; [by apply coherent_mem|]. split; [by apply (walk_ad (phys_mem c))|done].
Qed.

Lemma spec_of_walk c laddr user write r s : mmu_spec (phys_mem c) (cr3 c) (wp_of c) laddr user write = Done s ->
  walk (phys_mem c) (cr3 c) (Z.shiftr laddr 12) = Done r ->
  s = match r with
      | None => inr (error_code false write user)
      | Some (pde, pte) =>
          if may (wp_of c) pde pte user write then inl (frame pte + laddr mod 4096) else inr (error_code true write user)
      end.
Proof. unfold mmu_spec. intros E Ew. rewrite Ew in E. by injection E as <-. Qed.

(** Another TLB write after the walk leaves the result as it is. *)
Lemma coherent_drop_fast l c : coherent c -> coherent (drop_fast l c) /\ mmu_only c (drop_fast l c) /\
  phys_mem (drop_fast l c) = phys_mem c.
Proof.
  intros Hc. unfold drop_fast. set (c1 := if read_lpgno (fr c l) =? l then _ else c).
  assert (H1 : coherent c1 /\ mmu_only c c1 /\ phys_mem c1 = phys_mem c).
  { unfold c1. destruct (read_lpgno (fr c l) =? l); [|by destruct c]. split; [|done]. apply coherent_set_fr; [done|by left]. }
  destruct H1 as (Hc1 & Ho & Hp). destruct (write_lpgno (fw c1 l) =? l); [|done].
  split; [apply coherent_set_fw; [done|by left]|]. split; [|exact Hp]. by transitivity c1.
Qed.

(** The part of both translations after the entry has been found and the access
    denied. *)
Lemma denied c c1 laddr rwm cpl (f : CPUI386 D -> CPUI386 D) :
  0 <= rwm <= 3 -> 0 <= cpl -> ad_le (phys_mem c) (phys_mem c1) -> mmu_only c c1 ->
  coherent (f c1) -> mmu_only c1 (f c1) -> phys_mem (f c1) = phys_mem c1 ->
  exists c', coherent c' /\ ad_le (phys_mem c) (phys_mem c') /\
    page_fault (A := Z) 1 rwm cpl laddr (f c1) = Done (None, c') /\
    mmu_only (faulted laddr (error_code true (1 <? rwm) (0 <? cpl)) c) c'.
Proof.
  intros Hr Hcpl Ha Ho Hc1 Ho1 Hp. exists (faulted laddr (error_code true (1 <? rwm) (0 <? cpl)) (f c1)).
  split; [exact Hc1|]. split; [by rewrite <- Hp in Ha|]. split; [exact (page_fault_spec true _ _ _ _ Hr Hcpl)|].
  apply mmu_only_faulted. by transitivity c1.
Qed.

Lemma translate_lpgno_spec rwm laddr cpl c s :
  coherent c -> 0 <= rwm <= 3 -> 0 <= cpl -> inw 32 laddr ->
  mmu_spec (phys_mem c) (cr3 c) (wp_of c) laddr (0 <? cpl) (1 <? rwm) = Done s ->
  translated (translate_lpgno rwm (Z.shiftr laddr 12) laddr cpl) c laddr (1 <? rwm) s.
Proof.
  intros Hc Hr Hcpl Hl Hs. pose proof Hs as Hs'. unfold mmu_spec in Hs'. apply bind_done in Hs' as (r & Hw & _).
  rewrite (spec_of_walk _ _ _ _ _ _ Hs Hw). clear Hs s. set (l := Z.shiftr laddr 12) in *.
  destruct (find_entry_spec rwm l laddr cpl c r Hc Hr Hcpl (page_lt _ Hl) Hw) as (c1 & Hc1 & Ha & Ho & Hf).
  unfold translated, translate_lpgno. destruct r as [[pde pte]|].
  - destruct Hf as (e & Ef & Hfe). rewrite !(exc_bind_done _ _ _ _ _ Ef). pose proof (walk_ad _ _ _ _ _ Ha Hw) as Hw'.
    assert (E : cr3 c1 = cr3 c /\ wp_of c1 = wp_of c) by (unfold mmu_only in Ho; rewrite Ho; done).
    destruct E as [E3 Ewp]. pose proof Hfe as (_ & Ex & _ & ->). rewrite Ewp. destruct (may (wp_of c) pde pte (0 <? cpl) (1 <? rwm)); cbn [negb].
    + rewrite (rwm_write rwm Hr). destruct (1 <? rwm) eqn:Ewr.
      * destruct (found_dirty c1 laddr pde pte e Hc1 Hfe) as (m' & Em & Ha' & Hc' & Hm' & Hd); [by rewrite E3|].
        exists (c1 <| phys_mem := m' |>). split; [done|]. split; [by transitivity (phys_mem c1)|].
        split; [rewrite (ok_bind _ _ _ _ _ Em), Ex; cbv beta; unfold l; by rewrite page_xor_laddr|].
        split; [by transitivity c1|]. intros _. by exists pde, pte.
      * exists c1. split; [done|]. split; [done|]. split; [|split; [done|discriminate]].
        unfold mbind, Exc_bind, mret, Exc_ret. rewrite Ex. unfold l. by rewrite page_xor_laddr.
    + rewrite put_bind. apply (denied c c1); try done. by apply coherent_drop_entry.
  - rewrite !(exc_bind_none _ _ _ _ Hf). exists (faulted laddr (error_code false (1 <? rwm) (0 <? cpl)) c1). split; [exact Hc1|]. split; [exact Ha|].
    split; [done|]. by apply mmu_only_faulted.
Qed.

(** *** The fast TLB *)

(** The part of [translate_lpgno_fast] behind the fast TLB. *)
Definition fast_miss (rwm l laddr cpl : Z) : Exc (CPUI386 D) Z :=
  ent ← find_entry rwm l laddr cpl;
  if pte_lookup (lookup_row ent) (0 <? cpl) (1 <? rwm) then
    _ ← put (drop_entry l); _ ← put (drop_fast l); page_fault 1 rwm cpl laddr
  else
    _ ← (if nz (Z.land rwm 2) then
           _ ← ok (mark_pte_dirty (Some (ppte ent)));
           put (set_fw l (mkFW l (xaddr ent) (Some (ppte ent)) 1 (b2z (0 <? cpl))))
         else put (set_fr l (mkFR l (xaddr ent) (b2z (0 <? cpl)))));
    mret (Z.lxor (xaddr ent) laddr).

Lemma fast_miss_spec rwm laddr cpl c s :
  coherent c -> 0 <= rwm <= 3 -> 0 <= cpl -> inw 32 laddr ->
  mmu_spec (phys_mem c) (cr3 c) (wp_of c) laddr (0 <? cpl) (1 <? rwm) = Done s ->
  translated (fast_miss rwm (Z.shiftr laddr 12) laddr cpl) c laddr (1 <? rwm) s.
Proof.
  intros Hc Hr Hcpl Hl Hs. pose proof Hs as Hs'. unfold mmu_spec in Hs'. apply bind_done in Hs' as (r & Hw & _).
  rewrite (spec_of_walk _ _ _ _ _ _ Hs Hw). clear Hs s. set (l := Z.shiftr laddr 12) in *.
  destruct (find_entry_spec rwm l laddr cpl c r Hc Hr Hcpl (page_lt _ Hl) Hw) as (c1 & Hc1 & Ha & Ho & Hf).
  unfold translated, fast_miss. destruct r as [[pde pte]|].
  - destruct Hf as (e & Ef & Hfe). rewrite !(exc_bind_done _ _ _ _ _ Ef). pose proof (walk_ad _ _ _ _ _ Ha Hw) as Hw'.
    assert (E : cr3 c1 = cr3 c /\ wp_of c1 = wp_of c) by (unfold mmu_only in Ho; rewrite Ho; done).
    destruct E as [E3 Ewp]. pose proof Hfe as (El & Ex & Ep & ->). rewrite Ewp.
    destruct (may (wp_of c) pde pte (0 <? cpl) (1 <? rwm)) eqn:Emay; cbn [negb].
    + rewrite (rwm_write rwm Hr). destruct (1 <? rwm) eqn:Ewr.
      * destruct (found_dirty c1 laddr pde pte e Hc1 Hfe) as (m' & Em & Ha' & Hc' & Hm' & Hd); [by rewrite E3|].
        set (w := mkFW l (xaddr e) (Some (ppte e)) 1 (b2z (0 <? cpl))).
        exists (set_fw l w (c1 <| phys_mem := m' |>)).
        split; [apply coherent_set_fw; [done|]|split; [by transitivity (phys_mem c1)|]].
        { right. exists pde, pte. cbn [write_lpgno write_xaddr write_ppte write_cpl write_dirty w phys_mem set_field].
          rewrite nz_key, Ep. rewrite E3 in Hm'. change (wp_of (c1 <| phys_mem := m' |>)) with (wp_of c1). rewrite Ewp.
          change (cr3 (c1 <| phys_mem := m' |>)) with (cr3 c1). rewrite E3. done. }
        split; [|split; [by transitivity c1|intros _; by exists pde, pte]].
        unfold mbind at 1, Exc_bind at 1. rewrite (ok_bind _ _ _ _ _ Em). unfold put, ok, modify. fold w.
        rewrite Ex. unfold l. by rewrite page_xor_laddr.
      * set (r := mkFR l (xaddr e) (b2z (0 <? cpl))). exists (set_fr l r c1).
        split; [apply coherent_set_fr; [done|]|split; [done|]].
        { right. exists pde, pte. cbn [read_lpgno read_xaddr read_cpl r]. rewrite nz_key, E3, Ewp. done. }
        split; [|split; [by transitivity c1|discriminate]]. rewrite put_bind, Ex. unfold l. unfold mret, Exc_ret. by rewrite page_xor_laddr.
    + rewrite !put_bind. destruct (coherent_drop_fast l _ (coherent_drop_entry l c1 Hc1)) as (H1 & H2 & H3).
      apply (denied c c1 laddr rwm cpl (fun c => drop_fast l (drop_entry l c))); done.
  - rewrite !(exc_bind_none _ _ _ _ Hf). exists (faulted laddr (error_code false (1 <? rwm) (0 <? cpl)) c1). split; [exact Hc1|].
    split; [exact Ha|]. split; [done|]. by apply mmu_only_faulted.
Qed.

(** A hit in a read slot or, for a read, in a write slot. *)
Lemma read_hit c l user r : read_ok (phys_mem c) (cr3 c) (wp_of c) r -> l < NO_PAGE -> read_lpgno r = l ->
  read_cpl r = b2z user -> exists pde pte, maps (phys_mem c) (cr3 c) l pde pte /\ read_xaddr r = page_xor l pte /\
    may (wp_of c) pde pte user false = true.
Proof.
  intros [E|(pde & pte & Hm & Hx & Hy)] Hl El Ek; [lia|]. exists pde, pte. rewrite El in *. by rewrite Ek, nz_key in Hy.
Qed.
Lemma write_hit c l user w : write_ok (phys_mem c) (cr3 c) (wp_of c) w -> l < NO_PAGE -> write_lpgno w = l ->
  write_cpl w = b2z user -> exists pde pte, maps (phys_mem c) (cr3 c) l pde pte /\ write_xaddr w = page_xor l pte /\
    may (wp_of c) pde pte user true = true /\ write_ppte w = Some (pte_addr pde l) /\
    (write_dirty w <> 0 -> Z.testbit (arr (phys_mem c) (pte_addr pde l)) 6 = true).
Proof.
  intros [E|(pde & pte & Hm & Hx & Hp & Hy & Hd)] Hl El Ek; [lia|]. exists pde, pte. rewrite El in *. by rewrite Ek, nz_key in Hy.
Qed.

(** A hit whose page table entry is already dirty, or that only reads. *)
Lemma hit_translated c laddr user (write : bool) s (m : Exc (CPUI386 D) Z) pde pte :
  coherent c -> inw 32 laddr -> mmu_spec (phys_mem c) (cr3 c) (wp_of c) laddr user write = Done s ->
  maps (phys_mem c) (cr3 c) (Z.shiftr laddr 12) pde pte -> may (wp_of c) pde pte user write = true ->
  (forall c', coherent c' -> ad_le (phys_mem c) (phys_mem c') -> mmu_only c c' ->
     m c = Done (Some (Z.lxor (page_xor (Z.shiftr laddr 12) pte) laddr), c') -> (write = true -> dirty c' laddr) ->
     translated m c laddr write s).
Proof.
  intros Hc Hl Hs Hm Hy c' Hc' Ha Ho E Hd. rewrite (spec_of_walk _ _ _ _ _ _ Hs Hm), Hy. exists c'.
  split; [done|]. split; [done|]. split; [by rewrite E, page_xor_laddr|]. done.
Qed.

(** A write through its write slot marks the page dirty the first time. *)
Definition write_through (l laddr : Z) : Exc (CPUI386 D) Z := fun c =>
  (_ ← (if write_dirty (fw c l) =? 0 then
          _ ← ok (mark_pte_dirty (write_ppte (fw c l)));
          put (fun c => set_fw l ((fw c l) <| write_dirty := 1 |>) c)
        else mret tt);
   mret (Z.lxor (write_xaddr (fw c l)) laddr)) c.
Lemma write_hit_spec c laddr user pde pte : coherent c ->
  let l := Z.shiftr laddr 12 in
  maps (phys_mem c) (cr3 c) l pde pte -> write_lpgno (fw c l) = l -> write_cpl (fw c l) = b2z user ->
  write_xaddr (fw c l) = page_xor l pte -> may (wp_of c) pde pte user true = true ->
  write_ppte (fw c l) = Some (pte_addr pde l) ->
  (write_dirty (fw c l) <> 0 -> Z.testbit (arr (phys_mem c) (pte_addr pde l)) 6 = true) ->
  exists c', coherent c' /\ ad_le (phys_mem c) (phys_mem c') /\ mmu_only c c' /\ dirty c' laddr /\
    write_through l laddr c = Done (Some (Z.lxor (page_xor l pte) laddr), c').
Proof.
  intros Hc l Hm El Hk Hx Hy Hpp Hd. unfold write_through. rewrite Hx, Hpp. destruct (Z.eqb_spec (write_dirty (fw c l)) 0) as [|Hne].
  - destruct (mark_dirty_spec (pte_addr pde l) c (proj1 Hc) (walk_range _ _ _ _ _ Hm) (pte_addr_aligned _ _)) as (m' & E & Ha & Hb).
    pose proof (walk_ad _ _ _ _ _ Ha Hm) as Hm'. set (c1 := c <| phys_mem := m' |>).
    exists (set_fw l ((fw c l) <| write_dirty := 1 |>) c1).
    split; [apply coherent_set_fw; [by apply coherent_mem|]|].
    { right. exists pde, pte. cbn [write_lpgno write_xaddr write_ppte write_cpl write_dirty set_field].
      change (wp_of c1) with (wp_of c). change (phys_mem c1) with m'. change (cr3 c1) with (cr3 c). by rewrite El, Hk, nz_key. }
    split; [exact Ha|]. split; [done|]. split; [by exists pde, pte|].
    unfold mbind at 1, Exc_bind at 1. rewrite (ok_bind _ _ _ _ _ E). done.
  - exists c. split; [done|]. split; [done|]. split; [done|]. split; [by exists pde, pte; split; [|apply Hd]|]. done.
Qed.

(** One page: under coherence the cached translation is the walk. *)
Lemma translate_page rwm laddr cpl c s :
  coherent c -> 0 < rwm <= 3 -> 0 <= cpl -> inw 32 laddr ->
  mmu_spec (phys_mem c) (cr3 c) (wp_of c) laddr (0 <? cpl) (1 <? rwm) = Done s ->
  translated (translate_lpgno_fast rwm (Z.shiftr laddr 12) laddr cpl) c laddr (1 <? rwm) s.
Proof.
  intros Hc Hr Hcpl Hl Hs. set (l := Z.shiftr laddr 12) in *. pose proof (page_lt _ Hl) as Hp. fold l in Hp.
  assert (Hn : l < NO_PAGE) by (unfold NO_PAGE; lia).
  destruct (fast_miss_spec rwm laddr cpl c s Hc ltac:(lia) Hcpl Hl Hs) as (c0 & Hc0 & Ha0 & Hmiss). fold l in Hmiss.
  pose proof (to_read _ _ _ _ _ _ (proj2 Hc) _ (fast_slot_range l)) as Hrd. fold (fr c l) in Hrd.
  pose proof (to_write _ _ _ _ _ _ (proj2 Hc) _ (fast_slot_range l)) as Hwr. fold (fw c l) in Hwr.
  destruct ((rwm =? 1) && (read_lpgno (fr c l) =? l) && (read_cpl (fr c l) =? b2z (0 <? cpl))) eqn:E1;
    [|destruct ((rwm =? 1) && (write_lpgno (fw c l) =? l) && (write_cpl (fw c l) =? b2z (0 <? cpl))) eqn:E2;
      [|destruct ((rwm =? 2) && (write_lpgno (fw c l) =? l) && (write_cpl (fw c l) =? b2z (0 <? cpl))) eqn:E3]].
  - apply andb_true_iff in E1 as H1. destruct H1 as [H1 Hk]. apply andb_true_iff in H1 as [H1 El].
    apply Z.eqb_eq in H1, El, Hk. destruct (read_hit c l _ _ Hrd Hn El Hk) as (pde & pte & Hm & Hx & Hy).
    subst rwm. apply (hit_translated c laddr _ _ _ _ pde pte Hc Hl Hs Hm Hy c); try done.
    unfold translate_lpgno_fast. cbv zeta. fold l. by rewrite E1, Hx.
  - apply andb_true_iff in E2 as H1. destruct H1 as [H1 Hk]. apply andb_true_iff in H1 as [H1 El].
    apply Z.eqb_eq in H1, El, Hk. destruct (write_hit c l _ _ Hwr Hn El Hk) as (pde & pte & Hm & Hx & Hy & _).
    subst rwm. apply (hit_translated c laddr _ _ _ _ pde pte Hc Hl Hs Hm (may_write_read _ _ _ _ Hy) c); try done.
    unfold translate_lpgno_fast. cbv zeta. fold l. by rewrite E1, E2, Hx.
  - apply andb_true_iff in E3 as H1. destruct H1 as [H1 Hk]. apply andb_true_iff in H1 as [H1 El].
    apply Z.eqb_eq in H1, El, Hk. subst rwm. destruct (write_hit c l _ _ Hwr Hn El Hk) as (pde & pte & Hm & Hx & Hy & Hpp & Hd).
    destruct (write_hit_spec c laddr _ pde pte Hc Hm El Hk Hx Hy Hpp Hd) as (c' & Hc' & Ha & Ho & Hd' & E).
    apply (hit_translated c laddr _ _ _ _ pde pte Hc Hl Hs Hm Hy c'); try done.
    unfold translate_lpgno_fast. cbv zeta. fold l. by rewrite E1, E2, E3.
  - unfold translated in *. exists c0. split; [done|]. split; [done|]. unfold translate_lpgno_fast.
    rewrite E1, E2, E3. exact Hmiss.
Qed.

(** ** Accesses that may cross a page *)

(** The linear address of the page after that of [laddr]. *)
Definition next_page (laddr : Z) : Z := u32 (Z.shiftl (Z.shiftr laddr 12 + 1) 12).

(** The physical addresses of an access of [size] bytes, or the linear address
    and the error code of its page fault. *)
Definition access_spec c (laddr size : Z) (user write : bool) : outcome (OptAddr + Z * Z) :=
  if negb (paging c) then mret (inl (ADDR_OK1 laddr)) else
  r1 ← mmu_spec (phys_mem c) (cr3 c) (wp_of c) laddr user write;
  match r1 with
  | inr e => mret (inr (laddr, e))
  | inl p1 =>
      if laddr mod 4096 + size <=? 4096 then mret (inl (ADDR_OK1 p1)) else
      r2 ← mmu_spec (phys_mem c) (cr3 c) (wp_of c) (next_page laddr) user write;
      mret match r2 with inl p2 => inl (ADDR_OK2 p1 p2) | inr e => inr (next_page laddr, e) end
  end.

Definition accessed (m : Exc (CPUI386 D) OptAddr) c (laddr size : Z) (write : bool) (r : OptAddr + Z * Z) : Prop :=
  exists c', coherent c' /\ ad_le (phys_mem c) (phys_mem c') /\
  match r with
  | inl o => m c = Done (Some o, c') /\ mmu_only c c' /\
      (write = true -> paging c = true -> dirty c' laddr /\ (4096 < laddr mod 4096 + size -> dirty c' (next_page laddr)))
  | inr (l, e) => m c = Done (None, c') /\ mmu_only (faulted l e c) c'
  end.

Lemma mmu_spec_ad m m' cr3 wp laddr user write s : ad_le m m' ->
  mmu_spec m cr3 wp laddr user write = Done s -> mmu_spec m' cr3 wp laddr user write = Done s.
Proof.
  intros Ha E. unfold mmu_spec in *. apply bind_done in E as (r & Ew & E). by rewrite (walk_ad _ _ _ _ _ Ha Ew).
Qed.
Lemma next_page_shiftr laddr : inw 32 laddr -> laddr < 0xfffff000 ->
  inw 32 (next_page laddr) /\ Z.shiftr (next_page laddr) 12 = Z.shiftr laddr 12 + 1.
Proof.
  intros [Hl0 Hl1] Hlt. unfold next_page. rewrite Z.shiftl_mul_pow2, !Z.shiftr_div_pow2 by lia.
  assert (Hd : laddr / 2 ^ 12 < 2 ^ 20 - 1) by (apply Z.div_lt_upper_bound; lia). pose proof (Z.div_pos laddr (2 ^ 12) Hl0 ltac:(lia)).
  rewrite u32_id by (unfold inw; lia). split; [unfold inw; lia|]. by rewrite Z.div_mul.
Qed.
Lemma dirty_le c c' laddr : mmu_only c c' -> ad_le (phys_mem c) (phys_mem c') -> dirty c laddr -> dirty c' laddr.
Proof.
  intros Ho Ha (pde & pte & Hm & Hb). exists pde, pte. assert (cr3 c' = cr3 c) as -> by (unfold mmu_only in Ho; by rewrite Ho).
  split; [by apply (walk_ad (phys_mem c))|]. apply (dirty_ad (phys_mem c)); [done|by eapply walk_range|done].
Qed.

(** C2. Under coherence a guest access is translated as the architecture's page
    walk prescribes: whenever the page tables the walk needs are in memory,
    [translate_laddr] gives the physical address of the access, or both addresses
    when it crosses a page, or raises the page fault of the first page that does
    not permit it, with its linear address in CR2 and the present, write and user
    bits in the error code; the TLBs stay coherent, memory changes only in
    accessed and dirty bits, and a permitted write leaves its pages marked dirty. *)
Theorem translate_refines rwm laddr size cpl c s :
  coherent c -> 0 < rwm <= 3 -> 0 <= cpl -> inw 32 laddr -> 0 < size <= 4096 -> laddr + size <= 2 ^ 32 ->
  access_spec c laddr size (0 <? cpl) (1 <? rwm) = Done s ->
  accessed (translate_laddr rwm laddr size cpl) c laddr size (1 <? rwm) s.
Proof.
  intros Hc Hr Hcpl Hl Hsz Hend Hs. unfold access_spec in Hs. unfold accessed, translate_laddr. rewrite !get_bind.
  destruct (paging c) eqn:Epg; cbn [negb] in Hs; [|injection Hs as <-; by exists c].
  apply bind_done in Hs as (r1 & E1 & Hs).
  assert (Ec : (0x1000 - size <? Z.land laddr 0xfff) = negb (laddr mod 4096 + size <=? 4096)).
  { rewrite (land_ones_mod 12) by lia. change (2 ^ 12) with 4096. rewrite <- Z.ltb_antisym.
    destruct (Z.ltb_spec (0x1000 - size) (laddr mod 4096)), (Z.ltb_spec 4096 (laddr mod 4096 + size)); done || lia. }
  rewrite Ec. destruct (translate_page rwm laddr cpl c r1 Hc Hr Hcpl Hl E1) as (c1 & Hc1 & Ha1 & H1). destruct r1 as [p1|e].
  - destruct H1 as (H1 & Ho1 & Hd1). rewrite !(exc_bind_done _ _ _ _ _ H1).
    destruct (Z.leb_spec (laddr mod 4096 + size) 4096) as [Hle|Hgt]; cbn [negb].
    + injection Hs as <-. exists c1. split; [done|]. split; [done|]. split; [done|]. split; [done|]. intros Hw _. split; [by apply Hd1|lia].
    + apply bind_done in Hs as (r2 & E2 & Hs). injection Hs as <-.
      pose proof (Z.div_mod laddr 4096 ltac:(lia)). pose proof (Z.mod_pos_bound laddr 4096 ltac:(lia)).
      destruct (next_page_shiftr laddr Hl) as [Hl2 Ep2]; [unfold inw in Hl; lia|].
      assert (Ek : cr3 c1 = cr3 c /\ wp_of c1 = wp_of c) by (unfold mmu_only in Ho1; rewrite Ho1; done). destruct Ek as [E3 Ewp].
      destruct (translate_page rwm (next_page laddr) cpl c1 r2 Hc1 Hr Hcpl Hl2) as (c2 & Hc2 & Ha2 & Hq2);
        [rewrite E3, Ewp; by apply (mmu_spec_ad (phys_mem c))|]. rewrite Ep2 in Hq2. fold (next_page laddr).
      assert (Ha : ad_le (phys_mem c) (phys_mem c2)) by (by transitivity (phys_mem c1)).
      exists c2. split; [done|]. split; [done|]. destruct r2 as [p2|e].
      * destruct Hq2 as (Hq2 & Ho2 & Hd2). rewrite !(exc_bind_done _ _ _ _ _ Hq2). split; [done|]. split; [by transitivity c1|].
        intros Hw _. split; [by apply (dirty_le c1); [..|apply Hd1]|]. intros _. by apply Hd2.
      * destruct Hq2 as [Hq2 Ho2]. rewrite !(exc_bind_none _ _ _ _ Hq2). split; [done|].
        transitivity (faulted (next_page laddr) e c1); [by apply mmu_only_faulted|exact Ho2].
  - injection Hs as <-. destruct H1 as [H1 Ho1]. rewrite !(exc_bind_none _ _ _ _ H1). by exists c1.
Qed.

(** Clearing the TLBs makes them coherent, whatever they held. *)
Lemma arr_map {A B} `{Inhabited A} `{Inhabited B} (f : A -> B) (l : list A) i : 0 <= i < alen l -> arr (f <$> l) i = f (arr l i).
Proof.
  unfold alen, arr. intros Hi. destruct (lookup_lt_is_Some_2 l (Z.to_nat i)) as [x E]; [lia|].
  rewrite (list_lookup_total_correct l _ x E). apply list_lookup_total_correct. by rewrite list_lookup_fmap, E.
Qed.
Lemma tlb_clear_coherent c : mem_ok (phys_mem c) -> alen (tlb c) = tlb_size -> alen (fast_read c) = NSPIRE_DTLB_FAST_SLOTS ->
  alen (fast_write c) = NSPIRE_DTLB_FAST_SLOTS -> coherent (tlb_clear c).
Proof.
  intros Hm Ht Hr Hw. split; [exact Hm|]. unfold tlb_clear. cbn [tlb fast_read fast_write set_field].
  assert (Hlen : forall A B (f : A -> B) l, alen (f <$> l) = alen l) by (intros; unfold alen; by rewrite length_fmap).
  constructor; rewrite ?Hlen; try done; intros i Hi; left; rewrite arr_map by lia; done.
Qed.

End Refine.

(** ** A concrete address space

    The directory at 0 is also the page table of the first 4 MB: its first entry
    maps page 0 to itself, read-only for users, and page 1 is not present. *)
Definition paged_mem : list Z := [0x05; 0; 0; 0; 0; 0; 0; 0].
Definition paged_cpu : CPUI386 unit :=
  tlb_clear (demo_cpu <| phys_mem := paged_mem |> <| cr0 := 0x80000001 |> <| tlb := replicate 1024 (mkTlb 0 0 (false, 0) 0) |>
    <| fast_read := replicate 1024 (mkFR 0 0 0) |> <| fast_write := replicate 1024 (mkFW 0 0 None 0 0) |>).
Lemma paged_coherent : coherent paged_cpu.
Proof.
  apply tlb_clear_coherent; [|vm_compute; reflexivity..]. intros a Ha.
  change (0 <= a < alen paged_mem) in Ha. change (inw 8 (arr paged_mem a)).
  assert (Hall : all_below 8 (fun a => (0 <=? arr paged_mem a) && (arr paged_mem a <? 2 ^ 8)) = true) by reflexivity.
  pose proof (all_below_spec _ _ a Hall Ha) as Hb. cbv beta in Hb.
  apply andb_true_iff in Hb as [H1 H2]. apply Z.leb_le in H1. apply Z.ltb_lt in H2. exact (conj H1 H2).
Qed.
Lemma translate_refines_witness :
  coherent paged_cpu /\
  accessed (translate_laddr 1 0x123 4 3) paged_cpu 0x123 4 false (inl (ADDR_OK1 0x123)) /\
  accessed (translate_laddr 2 0x123 4 3) paged_cpu 0x123 4 true (inr (0x123, 7)) /\
  accessed (translate_laddr 1 0xfff 2 0) paged_cpu 0xfff 2 false (inr (0x1000, 0)).
Proof.
  split; [exact paged_coherent|]. split; [|split].
  - refine (translate_refines 1 0x123 4 3 paged_cpu (inl (ADDR_OK1 0x123)) paged_coherent _ _ _ _ _ _);
      [split; vm_compute; congruence|vm_compute; congruence|split; vm_compute; congruence|split; vm_compute; congruence|vm_compute; congruence|vm_compute; reflexivity].
  - refine (translate_refines 2 0x123 4 3 paged_cpu (inr (0x123, 7)) paged_coherent _ _ _ _ _ _);
      [split; vm_compute; congruence|vm_compute; congruence|split; vm_compute; congruence|split; vm_compute; congruence|vm_compute; congruence|vm_compute; reflexivity].
  - refine (translate_refines 1 0xfff 2 0 paged_cpu (inr (0x1000, 0)) paged_coherent _ _ _ _ _ _);
      [split; vm_compute; congruence|vm_compute; congruence|split; vm_compute; congruence|split; vm_compute; congruence|vm_compute; congruence|vm_compute; reflexivity].
Defined.

End Paging.
