(* ===== verification/I386Mem.v ===== *)
(** * I386Mem: loads and stores behind a translated address (winspire/i386.c)

    [store8] ... [store32] and [load8] ... [load32] against little-endian bytes at
    the addresses of the two pages an access may touch. *)

From S2P Require Import Prelude I386 I386Mmu.

Module Mem.
Import I386 Mmu.

Section Bytes.

(** The bytes of [v] at the addresses [l], the lowest first. *)
Fixpoint write_bytes (m : list Z) (l : list Z) (v : Z) : list Z :=
  match l with [] => m | a :: l => write_bytes (arr_set m a (u8 v)) l (Z.shiftr v 8) end.
Fixpoint read_bytes (m : list Z) (l : list Z) : Z :=
  match l with [] => 0 | a :: l => Z.lor (arr m a) (Z.shiftl (read_bytes m l) 8) end.

Definition inside (m : list Z) (l : list Z) : Prop := Forall (fun a => 0 <= a < alen m) l.

Lemma alen_write m l v : alen (write_bytes m l v) = alen m.
Proof. revert m v. induction l as [|a l IH]; intros m v; [done|]. cbn. by rewrite IH, alen_set. Qed.

Lemma write_elsewhere m l v b : 0 <= b -> inside m l -> b ∉ l -> arr (write_bytes m l v) b = arr m b.
Proof.
  revert m v. induction l as [|a l IH]; intros m v Hb Hin Hn; [done|]. cbn. inversion_clear Hin as [|? ? Ha Hl].
  rewrite not_elem_of_cons in Hn. destruct Hn as [Hne Hn]. rewrite IH; [|done| |done].
  - apply arr_set_ne; [lia|done|congruence].
  - unfold inside. by rewrite alen_set.
Qed.

Lemma low_then_rest v n : 0 <= n ->
  Z.lor (u8 v) (Z.shiftl (Z.shiftr v 8 mod 2 ^ n) 8) = v mod 2 ^ (8 + n).
Proof.
  intros Hn. apply Z.bits_inj'. intros i Hi. rewrite Z.lor_spec. unfold u8. destruct (Z.lt_ge_cases i 8).
  - rewrite Z.shiftl_spec_low, orb_false_r, !Z.mod_pow2_bits_low by lia. done.
  - rewrite (Z.mod_pow2_bits_high v 8), Z.shiftl_spec by lia. cbn [orb]. destruct (Z.lt_ge_cases i (8 + n)).
    + rewrite !Z.mod_pow2_bits_low, Z.shiftr_spec by lia. f_equal. lia.
    + by rewrite !Z.mod_pow2_bits_high by lia.
Qed.

(** Reading back what was written at distinct addresses. *)
Lemma read_write m l v : NoDup l -> inside m l -> read_bytes (write_bytes m l v) l = v mod 2 ^ (8 * Z.of_nat (length l)).
Proof.
  revert m v. induction l as [|a l IH]; intros m v Hd Hin; [cbn; by rewrite Z.mod_1_r|].
  inversion_clear Hd as [|? ? Hn Hd']. inversion_clear Hin as [|? ? Ha Hl]. cbn [write_bytes read_bytes length].
  assert (Hin' : inside (arr_set m a (u8 v)) l) by (unfold inside; by rewrite alen_set).
  rewrite IH by done. rewrite write_elsewhere, arr_set_eq by (done || lia).
  rewrite low_then_rest by lia. do 2 f_equal. lia.
Qed.

Lemma shiftr_8_8 v : Z.shiftr (Z.shiftr v 8) 8 = Z.shiftr v 16.
Proof. by rewrite Z.shiftr_shiftr. Qed.
Lemma shiftr_16_8 v : Z.shiftr (Z.shiftr v 16) 8 = Z.shiftr v 24.
Proof. by rewrite Z.shiftr_shiftr. Qed.
Lemma shiftr_8_16 v : Z.shiftr (Z.shiftr v 8) 16 = Z.shiftr v 24.
Proof. by rewrite Z.shiftr_shiftr. Qed.

End Bytes.

Section Accesses.
Context {D : Type} `{IoMem D}.
Implicit Types c : CPUI386 D.

(** The address of byte [i] of an access. *)
Definition byte_addr (o : OptAddr) (i : Z) : Z :=
  match o with
  | ADDR_OK1 a => a + i
  | ADDR_OK2 a b => let left := 4096 - a mod 4096 in if i <? left then a + i else b + (i - left)
  end.
Definition addrs (o : OptAddr) (n : nat) : list Z := (fun i => byte_addr o (Z.of_nat i)) <$> seq 0 n.

(** An access of [n] bytes to memory: [ADDR_OK2] when it crosses a page. *)
Definition crosses (o : OptAddr) (n : nat) : Prop :=
  match o with ADDR_OK1 _ => True | ADDR_OK2 a b => 4096 < a mod 4096 + Z.of_nat n end.
Definition in_ram c (o : OptAddr) (n : nat) : Prop :=
  in_iomem (addr1 o) = false /\ crosses o n /\
  Forall (fun a => 0 <= a < alen (phys_mem c) /\ a < BIOS_ALIAS_BASE) (addrs o n).

Definition load (n : nat) (o : OptAddr) : ST (CPUI386 D) Z :=
  match n with 1%nat => load8 o | 2%nat => load16 o | _ => load32 o end.
Definition store (n : nat) (o : OptAddr) (v : Z) : ST (CPUI386 D) unit :=
  match n with 1%nat => store8 o v | 2%nat => store16 o v | _ => store32 o v end.
Definition access_size (n : nat) : Prop := n = 1%nat \/ n = 2%nat \/ n = 4%nat.

Lemma pstore8_in a v c : 0 <= a < alen (phys_mem c) -> pstore8 a v c = Done (tt, c <| phys_mem := arr_set (phys_mem c) a (u8 v) |>).
Proof. intros Ha. unfold pstore8. by rewrite wr_in. Qed.
Lemma pload8_in a c : 0 <= a < alen (phys_mem c) -> pload8 a c = Done (arr (phys_mem c) a, c).
Proof. intros Ha. unfold pload8. by rewrite rd_in. Qed.

Lemma low_nibble_of a k : 0 <= k < 16 -> a mod 4096 = 4096 - 16 + k -> Z.land a 15 = k.
Proof.
  intros Hk Ha. change 15 with (2 ^ 4 - 1). rewrite land_ones_mod by lia. rewrite <- (mod_mod_pow2 a 4 12) by lia.
  change (2 ^ 12) with 4096. rewrite Ha. symmetry. apply (Z.mod_unique _ _ 255); lia.
Qed.

Lemma in_ram_facts c o n : access_size n -> in_ram c o n ->
  addr1 o < BIOS_ALIAS_BASE /\ (phys_mem_size c <=? addr1 o) = false /\ in_iomem (addr1 o) = false.
Proof.
  intros Hn (Hio & _ & Hf). rewrite Forall_forall in Hf.
  assert (Ha : addr1 o ∈ addrs o n).
  { apply list_elem_of_fmap. exists 0%nat. split; [|apply elem_of_seq; destruct Hn as [-> |[-> | ->]]; lia].
    destruct o as [a|a b]; cbn; [lia|]. pose proof (Z.mod_pos_bound a 4096 ltac:(lia)).
    change (Z.of_nat 0) with 0. destruct (Z.ltb_spec 0 (4096 - a mod 4096)); lia. }
  destruct (Hf _ Ha) as [? ?]. split; [done|]. split; [|done]. apply Z.leb_gt. unfold phys_mem_size. lia.
Qed.

Lemma guarded_ram {A} a (cb : option (ST D A)) z (r : ST (CPUI386 D) A) c :
  in_iomem a = false -> (phys_mem_size c <=? a) = false -> guarded a cb z r c = r c.
Proof. intros Hio Hs. unfold guarded. by rewrite Hio, Hs; destruct cb. Qed.
Lemma no_alias a : a < BIOS_ALIAS_BASE -> map_bios_alias a = a.
Proof. intros Ha. unfold map_bios_alias. destruct (Z.leb_spec BIOS_ALIAS_BASE a); [lia|done]. Qed.

(** The addresses of an access in memory, case by case. *)
Inductive shape : nat -> OptAddr -> list Z -> Prop :=
| shape1 a : shape 1 (ADDR_OK1 a) [a]
| shape2 a : shape 2 (ADDR_OK1 a) [a; a + 1]
| shape4 a : shape 4 (ADDR_OK1 a) [a; a + 1; a + 2; a + 3]
| shape2x a b : shape 2 (ADDR_OK2 a b) [a; b]
| shape4f a b : Z.land a 15 = 15 -> shape 4 (ADDR_OK2 a b) [a; b; b + 1; b + 2]
| shape4e a b : Z.land a 15 = 14 -> shape 4 (ADDR_OK2 a b) [a; a + 1; b; b + 1]
| shape4d a b : Z.land a 15 = 13 -> shape 4 (ADDR_OK2 a b) [a; a + 1; a + 2; b].

Lemma access_shape n o : access_size n -> crosses o n -> shape n o (addrs o n).
Proof.
  intros Hn Hx. destruct o as [a|a b].
  - unfold addrs. destruct Hn as [-> |[-> | ->]]; cbn [seq fmap list_fmap byte_addr Z.of_nat Pos.of_succ_nat Pos.succ]; rewrite Z.add_0_r; constructor.
  - cbn [crosses] in Hx. pose proof (Z.mod_pos_bound a 4096 ltac:(lia)) as Ha. set (left := 4096 - a mod 4096).
    assert (Hl : left = 1 \/ (left = 2 \/ left = 3) /\ n = 4%nat) by (destruct Hn as [-> |[-> | ->]]; lia).
    assert (Hlow : left < 4 -> Z.land a 15 = 16 - left) by (intros; apply low_nibble_of; lia).
    assert (E : addrs (ADDR_OK2 a b) n = (fun i => if Z.of_nat i <? left then a + Z.of_nat i else b + (Z.of_nat i - left)) <$> seq 0 n) by done.
    rewrite E. destruct Hl as [E1|[[E1|E1] ->]]; rewrite E1 in *.
    + destruct Hn as [-> |[-> | ->]]; [lia|..]; cbn; rewrite !Z.add_0_r; constructor. by apply Hlow.
    + cbn. rewrite !Z.add_0_r. constructor. by apply Hlow.
    + cbn. rewrite !Z.add_0_r. constructor. by apply Hlow.
Qed.

Ltac in_range := cbn [phys_mem set_field]; rewrite ?alen_set; lia.
(** Run the byte stores of a goal whose addresses are known to be in range. *)
Ltac run_bytes :=
  unfold pstore16, pstore32, pload16, pload32; unfold mbind, ST_bind, mret, ST_ret; cbv beta;
  repeat (first [rewrite pstore8_in by in_range | rewrite pload8_in by in_range]; cbn [fst snd]).
Lemma plus_2 a : a + 1 + 1 = a + 2.
Proof. lia. Qed.

(** [store32] and its companions write the bytes of the value at the bytes'
    addresses, and [load32] and its companions read them. *)
Lemma store_bytes n o v c : access_size n -> in_ram c o n ->
  store n o v c = Done (tt, c <| phys_mem := write_bytes (phys_mem c) (addrs o n) v |>).
Proof.
  intros Hn Hr. destruct (in_ram_facts c o n Hn Hr) as (Hal & Hsz & Hio). destruct Hr as (_ & Hx & Hf).
  destruct (access_shape n o Hn Hx); cbn [store addr1] in *; unfold store8, store16, store32;
    cbv zeta; cbn [addr1]; rewrite guarded_ram by done; decompose_Forall_hyps; rewrite ?H0; cbn [Z.eqb Pos.eqb].
  all: run_bytes; rewrite ?plus_2 in *.
  all: repeat (first [rewrite pstore8_in by in_range]; cbn [fst snd]).
  all: by rewrite ?shiftr_8_8, ?shiftr_16_8.
Qed.

Lemma load_bytes n o c : access_size n -> in_ram c o n -> load n o c = Done (read_bytes (phys_mem c) (addrs o n), c).
Proof.
  intros Hn Hr. destruct (in_ram_facts c o n Hn Hr) as (Hal & Hsz & Hio). destruct Hr as (_ & Hx & Hf).
  destruct (access_shape n o Hn Hx); cbn [load addr1] in *; unfold load8, load16, load32;
    cbv zeta; cbn [addr1]; rewrite ?no_alias by (done || decompose_Forall_hyps; lia); rewrite guarded_ram by done;
    decompose_Forall_hyps; rewrite ?H0; cbn [Z.eqb Pos.eqb].
  all: run_bytes; rewrite ?plus_2 in *.
  all: repeat (first [rewrite pload8_in by in_range]; cbn [fst snd]).
  all: cbn [read_bytes]; rewrite ?Z.shiftl_lor, ?Z.shiftl_shiftl, ?Z.shiftl_0_l, ?Z.lor_0_r, ?Z.lor_assoc by lia.
  all: done.
Qed.


(** The second page of an access starts at a page boundary and is another page. *)
Definition second_page (o : OptAddr) : Prop :=
  match o with ADDR_OK1 _ => True | ADDR_OK2 a b => b mod 4096 = 0 /\ a / 4096 <> b / 4096 end.

Lemma addrs_distinct o n : access_size n -> second_page o -> NoDup (addrs o n).
Proof.
  intros Hn Hs. apply NoDup_fmap_2_strong; [|apply NoDup_seq]. intros i j Hi Hj E.
  apply elem_of_seq in Hi, Hj. assert (Hi4 : (i < 4 /\ j < 4)%nat) by (destruct Hn as [-> |[-> | ->]]; lia).
  destruct o as [a|a b]; cbn [byte_addr] in E; [lia|]. destruct Hs as [Hb Hp].
  pose proof (Z.div_mod a 4096 ltac:(lia)). pose proof (Z.div_mod b 4096 ltac:(lia)).
  pose proof (Z.mod_pos_bound a 4096 ltac:(lia)). cbv zeta in E.
  destruct (Z.ltb_spec (Z.of_nat i) (4096 - a mod 4096)), (Z.ltb_spec (Z.of_nat j) (4096 - a mod 4096)); lia.
Qed.

(** C17. A store followed by the load of the same width at the same translated
    address gives the value back, also when the access crosses from one page to
    a page elsewhere in memory, where the code splits the value by the alignment
    of the first address; no other byte of memory and nothing else changes. *)
Theorem store_then_load n o v c : access_size n -> in_ram c o n -> second_page o ->
  exists m', store n o v c = Done (tt, c <| phys_mem := m' |>) /\
    load n o (c <| phys_mem := m' |>) = Done (v mod 2 ^ (8 * Z.of_nat n), c <| phys_mem := m' |>) /\
    alen m' = alen (phys_mem c) /\ forall b, 0 <= b -> b ∉ addrs o n -> arr m' b = arr (phys_mem c) b.
Proof.
  intros Hn Hr Hs. exists (write_bytes (phys_mem c) (addrs o n) v). split; [by apply store_bytes|].
  assert (Hin : inside (phys_mem c) (addrs o n)).
  { destruct Hr as (_ & _ & Hf). unfold inside. eapply Forall_impl; [exact Hf|]. by intros ? [? _]. }
  split; [|split; [apply alen_write|]].
  - rewrite load_bytes; [|done|].
    + cbn [phys_mem set_field]. rewrite read_write by (done || by apply addrs_distinct). unfold addrs. by rewrite length_fmap, length_seq.
    + destruct Hr as (Hio & Hx & Hf). split; [done|]. split; [done|]. cbn [phys_mem set_field]. by rewrite alen_write.
  - intros b Hb Hnb. by apply write_elsewhere.
Qed.

End Accesses.

(** A 32-bit access whose last byte is at the start of page 0. *)
Definition two_pages : CPUI386 unit := demo_cpu <| phys_mem := replicate (Z.to_nat 8192) 0 |>.
Lemma two_pages_size : alen (phys_mem two_pages) = 8192.
Proof. unfold two_pages, alen. cbn [phys_mem set_field]. rewrite length_replicate. lia. Qed.
Lemma store_then_load_witness :
  exists m', store 4 (ADDR_OK2 8189 0) 0x12345678 two_pages = Done (tt, two_pages <| phys_mem := m' |>) /\
    load 4 (ADDR_OK2 8189 0) (two_pages <| phys_mem := m' |>) = Done (0x12345678, two_pages <| phys_mem := m' |>).
Proof.
  destruct (store_then_load 4 (ADDR_OK2 8189 0) 0x12345678 two_pages) as (m' & E & El & _).
  - right. by right.
  - split; [reflexivity|]. split; [reflexivity|].
    change (addrs (ADDR_OK2 8189 0) 4) with [8189; 8190; 8191; 0]. rewrite two_pages_size.
    unfold BIOS_ALIAS_BASE. repeat constructor; (reflexivity || discriminate).
  - split; [reflexivity|discriminate].
  - exists m'. split; [exact E|exact El].
Defined.

End Mem.
