(* ===== verification/I386String.v ===== *)
(** * I386String: string instructions and counted loops (winspire/i386.c)

    The elements [stdi] ... [ldsilddi], the repeated forms with their page-sized
    runs, bulk copies and slices ([STOS_helper2], [MOVS_helper2], ...), the port
    string instructions, and LOOP.  [w] is the operand size, [aw] the address size.
    The repeated store is proved equal to single elements one after the other. *)

From S2P Require Import Prelude I386 I386Mmu I386Mem.

Module Str.
Import I386 Mmu Mem.

(** The port callbacks of [CPU_CB].  The string forms may be null; they get a
    pointer into guest memory, here the memory and an address. *)
Class IoPorts (D : Type) := {
  io_read : Z -> Z -> ST D Z;  (* width, port *)
  io_write : Z -> Z -> Z -> ST D unit;
  io_read_string : option (Z -> Z -> Z -> Z -> list Z -> ST D (Z * list Z));  (* port, address, size, count *)
  io_write_string : option (Z -> Z -> Z -> Z -> list Z -> ST D Z);
  iomem_write_string : option (Z -> list Z -> ST D bool);
}.

(** The configuration of release_config.h for the Server build. *)
Definition REP_SLICE : Z := 16384.

Section Operations.
Context {D : Type} `{IoMem D} `{IoPorts D}.
Implicit Types c : CPUI386 D.

(** ** Accesses by width *)

Definition lreg (w i : Z) c : Z := if w =? 8 then lreg8 i c else if w =? 16 then lreg16 i c else lreg32 i c.
Definition sreg (w i v : Z) c : CPUI386 D := if w =? 8 then sreg8 i v c else if w =? 16 then sreg16 i v c else sreg32 i v c.
Definition trunc (w v : Z) : Z := v mod 2 ^ w.
Definition size (w : Z) : Z := w / 8.
Definition translate_w (w rwm s : Z) (addr : CPUI386 D -> Z) : Exc (CPUI386 D) OptAddr := fun c =>
  translate rwm s (addr c) (size w) (cpl c) c.
Definition load_w (w : Z) (o : OptAddr) : ST (CPUI386 D) Z := load (Z.to_nat (size w)) o.
Definition store_w (w : Z) (o : OptAddr) (v : Z) : ST (CPUI386 D) unit := store (Z.to_nat (size w)) o v.
Definition pstore_w (w addr v : Z) : ST (CPUI386 D) unit :=
  if w =? 8 then pstore8 addr v else if w =? 16 then pstore16 addr v else pstore32 addr v.
(** [mem.addr1 += dir] *)
Definition move_addr (d : Z) (o : OptAddr) : OptAddr :=
  match o with ADDR_OK1 a => ADDR_OK1 (u32 (a + d)) | ADDR_OK2 a b => ADDR_OK2 (u32 (a + d)) b end.

(** [xdir8] ... [xdir32] *)
Definition xdir (w : Z) c : Z := if nz (Z.land (flags c) DF) then - size w else size w.
Definition step_reg (aw i d : Z) : Exc (CPUI386 D) unit := put (fun c => sreg aw i (lreg aw i c + d) c).

(** ** One element *)

Definition stdi (w aw ax d : Z) : Exc (CPUI386 D) unit :=
  o ← translate_w w 2 SEG_ES (lreg aw 7); _ ← ok (store_w w o ax); step_reg aw 7 d.
Definition ldsi (w aw s d : Z) : Exc (CPUI386 D) Z :=
  o ← translate_w w 1 s (lreg aw 6); ax ← ok (load_w w o); _ ← step_reg aw 6 d; mret ax.
Definition lddi (w aw d : Z) : Exc (CPUI386 D) Z :=
  o ← translate_w w 1 SEG_ES (lreg aw 7); ax ← ok (load_w w o); _ ← step_reg aw 7 d; mret ax.
Definition ldsistdi (w aw s d : Z) : Exc (CPUI386 D) unit :=
  o ← translate_w w 1 s (lreg aw 6); ax ← ok (load_w w o);
  o ← translate_w w 2 SEG_ES (lreg aw 7); _ ← ok (store_w w o ax);
  _ ← step_reg aw 6 d; step_reg aw 7 d.
Definition ldsilddi (w aw s d : Z) : Exc (CPUI386 D) (Z * Z) :=
  o ← translate_w w 1 s (lreg aw 6); ax0 ← ok (load_w w o);
  o ← translate_w w 1 SEG_ES (lreg aw 7); ax ← ok (load_w w o);
  _ ← step_reg aw 6 d; _ ← step_reg aw 7 d; mret (ax0, ax).
Definition indxstdi (w aw d : Z) : Exc (CPUI386 D) unit :=
  o ← translate_w w 2 SEG_ES (lreg aw 7); port ← get (lreg16 2); ax ← ok (device (io_read w port));
  _ ← ok (store_w w o (trunc w ax)); step_reg aw 7 d.
Definition ldsioutdx (w aw s d : Z) : Exc (CPUI386 D) unit :=
  o ← translate_w w 1 s (lreg aw 6); ax ← ok (load_w w o); port ← get (lreg16 2);
  _ ← ok (device (io_write w port ax)); step_reg aw 6 d.

(** ** Repetition *)

Fixpoint rep_n (n : nat) (body : Exc (CPUI386 D) unit) : Exc (CPUI386 D) unit :=
  match n with O => mret tt | S n => _ ← body; rep_n n body end.
Definition counted (aw : Z) (body : Exc (CPUI386 D) unit) : Exc (CPUI386 D) unit := _ ← body; step_reg aw 1 (-1).

Definition NSPIRE_LIMIT_REP_COUNT (count : Z) c : Z := if rep_yield c && (REP_SLICE <? count) then REP_SLICE else count.
(** [true]: the instruction is left to be executed again ([return true]). *)
Definition YIELD_REP (aw : Z) : Exc (CPUI386 D) bool := fun c =>
  if rep_yield c && nz (lreg aw 1 c) then Done (Some true, c <| next_ip := ip c |>) else Done (Some false, c).

Definition NORMAL_RAM_RANGE (addr len : Z) c : bool :=
  (0 <? len) && (addr <? phys_mem_size c) && (len <=? phys_mem_size c - addr) &&
  negb (in_iomem addr) && negb (in_iomem (u32 (addr + len - 1))).
(** The elements from [a] to the end of its page, in the direction [d]. *)
Definition page_room (w d a : Z) : Z :=
  if 0 <? d then (4096 - Z.land a 4095) / size w else 1 + Z.land a 4095 / size w.
Definition misaligned (w : Z) (o : OptAddr) : bool := nz (addr1 o mod size w).

(** [while (cx) { ... }]: a chunk that returns [true] was the slow path, which does
    all the elements and breaks. *)
Fixpoint rep_while (fuel : nat) (aw : Z) (chunk : Z -> Exc (CPUI386 D) bool) : Exc (CPUI386 D) bool :=
  cx ← get (lreg aw 1);
  if cx =? 0 then mret false else
  match fuel with
  | O => ok (lift (Stuck Diverges))
  | S fuel =>
      slow ← chunk cx; y ← YIELD_REP aw;
      if (y : bool) || (slow : bool) then mret y else rep_while fuel aw chunk
  end.
Definition rep_chunks (aw : Z) (chunk : Z -> Exc (CPUI386 D) bool) : Exc (CPUI386 D) bool := fun c =>
  rep_while (Z.to_nat (lreg aw 1 c)) aw chunk c.
Definition slow_path (aw : Z) (body : Exc (CPUI386 D) unit) : Exc (CPUI386 D) bool :=
  count ← get (fun c => NSPIRE_LIMIT_REP_COUNT (lreg aw 1 c) c);
  _ ← rep_n (Z.to_nat count) (counted aw body); mret true.
Definition chunk_done (aw cx count : Z) (steps : list (Z * Z)) : Exc (CPUI386 D) bool :=
  _ ← put (fun c => fold_left (fun c '(i, d) => sreg aw i (lreg aw i c + count * d) c) steps c);
  _ ← put (fun c => sreg aw 1 (cx - count) c); mret false.

(** ** STOS *)

Fixpoint fill_ram (n : nat) (w addr v : Z) : ST (CPUI386 D) unit :=
  match n with O => mret tt | S n => _ ← pstore_w w addr v; fill_ram n w (addr + size w) v end.
Fixpoint store_run (n : nat) (w d : Z) (o : OptAddr) (v : Z) : ST (CPUI386 D) unit :=
  match n with O => mret tt | S n => _ ← store_w w o v; store_run n w d (move_addr d o) v end.

Definition stos_chunk (w aw ax d cx : Z) : Exc (CPUI386 D) bool :=
  o ← translate_w w 2 SEG_ES (lreg aw 7);
  if misaligned w o then slow_path aw (stdi w aw ax d) else
  count ← get (NSPIRE_LIMIT_REP_COUNT (Z.min cx (page_room w d (addr1 o))));
  bulk ← get (fun c => (0 <? d) && nspire_bulk_rep_stos c && NORMAL_RAM_RANGE (addr1 o) (count * size w) c);
  _ ← ok (if bulk : bool then fill_ram (Z.to_nat count) w (addr1 o) ax else store_run (Z.to_nat count) w d o ax);
  chunk_done aw cx count [(7, d)].
Definition STOS_helper (w aw rep : Z) : Exc (CPUI386 D) bool := fun c =>
  let d := xdir w c in let ax := trunc w (REGi c 0) in
  if rep =? 0 then (_ ← stdi w aw ax d; mret false) c else rep_chunks aw (stos_chunk w aw ax d) c.

(** ** LODS *)

Definition load_acc (w aw s d : Z) : Exc (CPUI386 D) unit := ax ← ldsi w aw s d; put (sreg w 0 ax).
Definition LODS_helper (w aw s rep : Z) : Exc (CPUI386 D) bool := fun c =>
  let s := default_seg s SEG_DS in let d := xdir w c in
  if rep =? 0 then (_ ← load_acc w aw s d; mret false) c else
  (count ← get (fun c => NSPIRE_LIMIT_REP_COUNT (lreg aw 1 c) c);
   _ ← rep_n (Z.to_nat count) (counted aw (load_acc w aw s d)); YIELD_REP aw) c.

(** ** SCAS and CMPS *)

Definition compare_w (w ax0 ax : Z) : Exc (CPUI386 D) unit := put (fun c =>
  let k := cc c in let k := k <| src1 := sext w ax0 |> <| src2 := sext w ax |> in
  c <| cc := k <| dst := sext w (u32 (src1 k - src2 k)) |> <| op := CC_SUB |>
             <| mask := Z.lor (Z.lor (Z.lor (Z.lor (Z.lor CF PF) AF) ZF) SF) OF |> |>).
(** [while (count-- && cx) { ... }]: [true] when the comparison stopped it. *)
Fixpoint compare_loop (n : nat) (w aw rep : Z) (next : Exc (CPUI386 D) (Z * Z)) : Exc (CPUI386 D) bool :=
  match n with
  | O => mret false
  | S n =>
      cx ← get (lreg aw 1);
      if cx =? 0 then mret false else
      '(ax0, ax) ← next; _ ← step_reg aw 1 (-1); _ ← compare_w w ax0 ax;
      zf ← get (fun c => nz (get_ZF c));
      if (zf && (rep =? 2)) || (negb zf && (rep =? 1)) then mret true else compare_loop n w aw rep next
  end.
Definition compare_string (w aw rep : Z) (next : Exc (CPUI386 D) (Z * Z)) : Exc (CPUI386 D) bool :=
  if rep =? 0 then '(ax0, ax) ← next; _ ← compare_w w ax0 ax; mret false else
  count ← get (fun c => NSPIRE_LIMIT_REP_COUNT (lreg aw 1 c) c);
  stopped ← compare_loop (Z.to_nat count) w aw rep next;
  if stopped : bool then mret false else YIELD_REP aw.
Definition SCAS_helper (w aw rep : Z) : Exc (CPUI386 D) bool := fun c =>
  let d := xdir w c in let ax0 := trunc w (REGi c 0) in
  compare_string w aw rep (ax ← lddi w aw d; mret (ax0, ax)) c.
Definition CMPS_helper (w aw s rep : Z) : Exc (CPUI386 D) bool := fun c =>
  compare_string w aw rep (ldsilddi w aw (default_seg s SEG_DS) (xdir w c)) c.

(** ** MOVS *)

Definition bytes_at (m : list Z) (a n : Z) : list Z := take (Z.to_nat n) (drop (Z.to_nat a) m).
Definition put_bytes (m : list Z) (a : Z) (l : list Z) : list Z :=
  take (Z.to_nat a) m ++ l ++ drop (Z.to_nat a + length l) m.
(** Both ranges are inside memory. *)
Definition memmove (dst src n : Z) c : CPUI386 D := c <| phys_mem := put_bytes (phys_mem c) dst (bytes_at (phys_mem c) src n) |>.
Fixpoint copy_run (n : nat) (w d : Z) (s o : OptAddr) : ST (CPUI386 D) unit :=
  match n with
  | O => mret tt
  | S n => v ← load_w w s; _ ← store_w w o v; copy_run n w d (move_addr d s) (move_addr d o)
  end.
(** The pointer loops may read up to the end of the page of [a]. *)
Definition ram_page (a : Z) c : bool :=
  (Z.lor a 4095 <? phys_mem_size c) && negb (in_iomem a) && negb (in_iomem (Z.lor a 4095)).

Definition movs_chunk (w aw s d cx : Z) : Exc (CPUI386 D) bool :=
  ms ← translate_w w 1 s (lreg aw 6); md ← translate_w w 2 SEG_ES (lreg aw 7);
  if misaligned w ms || misaligned w md then slow_path aw (ldsistdi w aw s d) else
  count ← get (NSPIRE_LIMIT_REP_COUNT (Z.min (Z.min cx (page_room w d (addr1 ms))) (page_room w d (addr1 md))));
  let src := addr1 ms in let dst := addr1 md in let len := count * size w in
  taken ← (fun c => match iomem_write_string with
    | Some f => if in_iomem dst && (0 <? d) && in_iomem (u32 (dst + len - 1)) && ram_page src c
                then ok (device (f dst (bytes_at (phys_mem c) src len))) c else Done (Some false, c)
    | None => Done (Some false, c)
    end);
  bulk ← get (fun c => (0 <? d) && nspire_bulk_rep_ram c && NORMAL_RAM_RANGE src len c && NORMAL_RAM_RANGE dst len c &&
                       ((dst <=? src) || (u32 (src + len) <=? dst)));
  _ ← ok (if taken : bool then mret tt else if bulk : bool then modify (memmove dst src len) else copy_run (Z.to_nat count) w d ms md);
  chunk_done aw cx count [(6, d); (7, d)].
Definition MOVS_helper (w aw s rep : Z) : Exc (CPUI386 D) bool := fun c =>
  let s := default_seg s SEG_DS in let d := xdir w c in
  if rep =? 0 then (_ ← ldsistdi w aw s d; mret false) c else rep_chunks aw (movs_chunk w aw s d) c.

(** ** Ports *)

Definition check_ioperm (port bit : Z) : Exc (CPUI386 D) unit := fun c =>
  let deny : Exc (CPUI386 D) unit := THROW EX_GP 0 in
  if Z.testbit (cr0 c) 0 && ((get_IOPL c <? cpl c) || nz (Z.land (flags c) VM)) then
    if 103 <=? limit (seg_of c SEG_TR) then
      (o ← translate 1 SEG_TR 102 2 0; iobase ← ok (load16 o);
       let byte := u32 (iobase + port ÷ 8) in
       if byte <? limit (seg_of c SEG_TR) then
         o ← translate 1 SEG_TR byte 2 0; perm ← ok (load16 o);
         if nz (Z.land (Z.shiftr perm (Z.land port 7)) (Z.shiftl 1 (bit / 8) - 1)) then deny else mret tt
       else deny) c
    else deny c
  else Done (Some tt, c).

Fixpoint in_run (n : nat) (w d : Z) (o : OptAddr) : ST (CPUI386 D) unit :=
  match n with
  | O => mret tt
  | S n => port ← gets (lreg16 2); ax ← device (io_read w port); _ ← store_w w o (trunc w ax); in_run n w d (move_addr d o)
  end.
(** [count1] of the string callback, 0 without one. *)
Definition read_string (a w d count : Z) : ST (CPUI386 D) Z := fun c =>
  match io_read_string with
  | Some f =>
      if (0 <? d) && ram_page a c then
        match f (lreg16 2 c) a d count (phys_mem c) (dev c) with
        | Done (n, m, dv) => Done (n, c <| phys_mem := m |> <| dev := dv |>)
        | Stuck e => Stuck e
        end
      else Done (0, c)
  | None => Done (0, c)
  end.
Definition ins_chunk (w aw d cx : Z) : Exc (CPUI386 D) bool :=
  o ← translate_w w 2 SEG_ES (lreg aw 7);
  if misaligned w o then slow_path aw (indxstdi w aw d) else
  count ← get (NSPIRE_LIMIT_REP_COUNT (Z.min cx (page_room w d (addr1 o))));
  n ← ok (read_string (addr1 o) w d count);
  if 0 <? n then chunk_done aw cx n [(7, d)] else
  _ ← ok (in_run (Z.to_nat count) w d o); chunk_done aw cx count [(7, d)].
Definition INS_helper (w aw rep : Z) : Exc (CPUI386 D) bool :=
  port ← get (lreg16 2); _ ← check_ioperm port w; d ← get (xdir w);
  if rep =? 0 then _ ← indxstdi w aw d; mret false else
  if negb (rep =? 1) then THROW0 EX_UD else rep_chunks aw (ins_chunk w aw d).

Fixpoint out_run (n : nat) (w d : Z) (o : OptAddr) : ST (CPUI386 D) unit :=
  match n with
  | O => mret tt
  | S n => ax ← load_w w o; port ← gets (lreg16 2); _ ← device (io_write w port ax); out_run n w d (move_addr d o)
  end.
Definition write_string (a w d count : Z) : ST (CPUI386 D) Z := fun c =>
  match io_write_string with
  | Some f => if (0 <? d) && ram_page a c then device (f (lreg16 2 c) a d count (phys_mem c)) c else Done (0, c)
  | None => Done (0, c)
  end.
Definition outs_chunk (w aw s d cx : Z) : Exc (CPUI386 D) bool :=
  o ← translate_w w 1 s (lreg aw 6);
  if misaligned w o then slow_path aw (ldsioutdx w aw s d) else
  count ← get (NSPIRE_LIMIT_REP_COUNT (Z.min cx (page_room w d (addr1 o))));
  n ← ok (write_string (addr1 o) w d count);
  if 0 <? n then chunk_done aw cx n [(6, d)] else
  _ ← ok (out_run (Z.to_nat count) w d o); chunk_done aw cx count [(6, d)].
Definition OUTS_helper (w aw s rep : Z) : Exc (CPUI386 D) bool :=
  let s := default_seg s SEG_DS in
  port ← get (lreg16 2); _ ← check_ioperm port w; d ← get (xdir w);
  if rep =? 0 then _ ← ldsioutdx w aw s d; mret false else
  if negb (rep =? 1) then THROW0 EX_UD else rep_chunks aw (outs_chunk w aw s d).

(** ** Loops *)

Definition branch (t : bool) (i : Z) : Exc (CPUI386 D) unit :=
  if t then put (fun c => c <| next_ip := u32 (next_ip c + sext8 i) |>) else mret tt.
Definition JCXZb (aw i : Z) : Exc (CPUI386 D) unit := z ← get (fun c => lreg aw 1 c =? 0); branch z i.
Definition LOOP_helper (aw i : Z) (test : CPUI386 D -> bool) : Exc (CPUI386 D) unit :=
  _ ← step_reg aw 1 (-1); t ← get (fun c => nz (lreg aw 1 c) && test c); branch t i.
Definition LOOPb (aw i : Z) := LOOP_helper aw i (fun _ => true).
Definition LOOPEb (aw i : Z) := LOOP_helper aw i (fun c => nz (get_ZF c)).
Definition LOOPNEb (aw i : Z) := LOOP_helper aw i (fun c => negb (nz (get_ZF c))).

End Operations.

End Str.
