(* ===== verification/I386Fpu.v ===== *)
(** * I386Fpu: the floating-point instructions (winspire/fpu.c)

    [fpu_exec1] and [fpu_exec2], the register and the memory forms, on the unit of
    [Fpu] inside the CPU.  Loads, stores, exceptions and flags are the functions that
    i386.h offers to the unit. *)

From S2P Require Import Prelude Doubles Fpu I386 I386Mmu.

Module FpuExec.
Import Double Fpu I386 Mmu.

Section Unit.
Context {D : Type} `{IoMem D} `{HostMath}.
Implicit Types c : CPUI386 D.

(** Code on the unit that [cpu->fpu] points to. *)
Definition on_fpu {A} (m : ST Fpu.FPU A) : Exc (CPUI386 D) A := fun c =>
  match fpu c with
  | None => Stuck OutOfBounds
  | Some f => match m f with Done (a, f) => Done (Some a, c <| fpu := Some f |>) | Stuck e => Stuck e end
  end.
Definition fget (i : Z) : Exc (CPUI386 D) Z := on_fpu (Fpu.fpget i).
Definition fread {A} (g : Fpu.FPU -> A) : Exc (CPUI386 D) A := on_fpu (gets g).
Definition fset (g : Fpu.FPU -> Fpu.FPU) : Exc (CPUI386 D) unit := on_fpu (modify g).
(** [cpu_setexc (cpu, 6, 0); return false] *)
Definition undefined {A} : Exc (CPUI386 D) A := _ ← ok (cpu_setexc 6 0); fails.

(** ** Operands in memory *)

Definition join32 (lo hi : Z) : Z := Z.lor (Z.shiftl hi 32) lo.
Definition fploadf32 (s a : Z) : Exc (CPUI386 D) Z := v ← cpu_load32 s a; mret (of_float v).
Definition load64 (s a : Z) : Exc (CPUI386 D) Z :=
  v1 ← cpu_load32 s a; v2 ← cpu_load32 s (u32 (a + 4)); mret (join32 v1 v2).
Definition fploadf64 (s a : Z) : Exc (CPUI386 D) Z := load64 s a.
Definition fploadf80 (s a : Z) : Exc (CPUI386 D) Z :=
  m0 ← cpu_load32 s a; m1 ← cpu_load32 s (u32 (a + 4)); h ← cpu_load16 s (u32 (a + 8));
  mret (Fpu.fromf80 (Fpu.mkF80 m0 m1 h)).
Definition fploadi16 (s a : Z) : Exc (CPUI386 D) Z := v ← cpu_load16 s a; mret (of_int (s16 v)).
Definition fploadi32 (s a : Z) : Exc (CPUI386 D) Z := v ← cpu_load32 s a; mret (of_int (s32 v)).
Definition fploadi64 (s a : Z) : Exc (CPUI386 D) Z := v ← load64 s a; mret (of_int (sgn 64 v)).
Definition fploadbcd (s a : Z) : Exc (CPUI386 D) Z :=
  lo ← cpu_load32 s a; mi ← cpu_load32 s (u32 (a + 4)); hi ← cpu_load16 s (u32 (a + 8));
  mret (Fpu.bcd_value lo mi hi).

Definition store64 (s a v : Z) : Exc (CPUI386 D) unit :=
  _ ← cpu_store32 s a (u32 v); cpu_store32 s (u32 (a + 4)) (u32 (Z.shiftr v 32)).
Definition fpstoref32 (s a v : Z) : Exc (CPUI386 D) unit := cpu_store32 s a (to_float v).
Definition fpstoref64 (s a v : Z) : Exc (CPUI386 D) unit := store64 s a v.
Definition store80 (s a : Z) (r : Fpu.F80) : Exc (CPUI386 D) unit :=
  _ ← cpu_store32 s a (Fpu.mant0 r); _ ← cpu_store32 s (u32 (a + 4)) (Fpu.mant1 r); cpu_store16 s (u32 (a + 8)) (Fpu.high r).
Definition fpstoref80 (s a v : Z) : Exc (CPUI386 D) unit := store80 s a (Fpu.tof80 v).
Definition fpstorei16 (s a v : Z) : Exc (CPUI386 D) unit := n ← ok (lift (Fpu.stored_int 16 v)); cpu_store16 s a (u16 n).
Definition fpstorei32 (s a v : Z) : Exc (CPUI386 D) unit := n ← ok (lift (Fpu.stored_int 32 v)); cpu_store32 s a (u32 n).
Definition fpstorei64 (s a v : Z) : Exc (CPUI386 D) unit := n ← ok (lift (Fpu.stored_int 64 v)); store64 s a n.
(** The nine bytes of digit pairs, then the last pair with the sign. *)
Fixpoint store_pairs (n : nat) (s a v : Z) : Exc (CPUI386 D) Z :=
  match n with
  | O => mret v
  | S n => _ ← cpu_store8 s a (u8 (Fpu.bcd_pair v)); store_pairs n s (u32 (a + 1)) (v ÷ 100)
  end.
Definition fpstorebcd (s a val : Z) : Exc (CPUI386 D) unit :=
  p ← ok (lift (Fpu.bcd_split val));
  v ← store_pairs 9 s a p.2;
  let res := Fpu.bcd_pair v in
  cpu_store8 s (u32 (a + 9)) (u8 (if p.1 : bool then Z.lor res 0x80 else res)).

(** ** The environment and the whole state *)

Definition FLDCW (s a : Z) : Exc (CPUI386 D) unit := v ← cpu_load16 s a; fset (fun f => f <| Fpu.cw := v |>).
Definition FLDENV (opsz16 : bool) (s a : Z) : Exc (CPUI386 D) unit :=
  _ ← FLDCW s a; v ← cpu_load16 s (u32 (a + if opsz16 then 2 else 4)); fset (Fpu.setsw v).
Definition FNSTENV (opsz16 : bool) (s a : Z) : Exc (CPUI386 D) unit :=
  c ← fread Fpu.cw;
  if opsz16 then
    _ ← cpu_store16 s a c; w ← fread Fpu.getsw; _ ← cpu_store16 s (u32 (a + 2)) w; cpu_store16 s (u32 (a + 4)) 0
  else
    _ ← cpu_store32 s a c; w ← fread Fpu.getsw; _ ← cpu_store32 s (u32 (a + 4)) w; cpu_store32 s (u32 (a + 8)) 0.

(** Register [j] of the saved state, and the registers from [j] on. *)
Definition restore_one (s j start : Z) : Exc (CPUI386 D) unit :=
  m0 ← cpu_load32 s start; _ ← fset (Fpu.set_raw j (fun r => r <| Fpu.mant0 := m0 |>));
  m1 ← cpu_load32 s (u32 (start + 4)); _ ← fset (Fpu.set_raw j (fun r => r <| Fpu.mant1 := m1 |>));
  h ← cpu_load16 s (u32 (start + 8)); _ ← fset (Fpu.set_raw j (fun r => r <| Fpu.high := h |>));
  fset (Fpu.clear_tags j).
Fixpoint restore_regs (n : nat) (s j start : Z) : Exc (CPUI386 D) unit :=
  match n with O => mret tt | S n => _ ← restore_one s j start; restore_regs n s (j + 1) (u32 (start + 10)) end.
Definition FRSTOR (opsz16 : bool) (s a : Z) : Exc (CPUI386 D) unit :=
  _ ← FLDENV opsz16 s a; restore_regs 8 s 0 (u32 (a + if opsz16 then 14 else 28)).

Definition save_one (s j start : Z) : Exc (CPUI386 D) unit :=
  r ← on_fpu (Fpu.save_reg j); store80 s start r.
Fixpoint save_regs (n : nat) (s j start : Z) : Exc (CPUI386 D) unit :=
  match n with O => mret tt | S n => _ ← save_one s j start; save_regs n s (j + 1) (u32 (start + 10)) end.
Definition FNSAVE (opsz16 : bool) (s a : Z) : Exc (CPUI386 D) unit :=
  _ ← FNSTENV opsz16 s a; _ ← save_regs 8 s 0 (u32 (a + if opsz16 then 14 else 28)); fset Fpu.fpu_init.

(** ** The memory forms *)

Definition arith_with (ld : Z -> Z -> Exc (CPUI386 D) Z) (group s a : Z) : Exc (CPUI386 D) unit :=
  x ← fget 0; b ← ld s a; on_fpu (Fpu.fparith group 0 x b).
Definition push_from (ld : Z -> Z -> Exc (CPUI386 D) Z) (s a : Z) : Exc (CPUI386 D) unit :=
  x ← ld s a; on_fpu (Fpu.fppush x).
Definition store_st (str : Z -> Z -> Z -> Exc (CPUI386 D) unit) (pop : bool) (s a : Z) : Exc (CPUI386 D) unit :=
  x ← fget 0; _ ← str s a x; if pop then on_fpu Fpu.fppop else mret tt.
(** ... rounded as the control word says; FISTTP truncates. *)
Definition store_rounded (str : Z -> Z -> Z -> Exc (CPUI386 D) unit) (group s a : Z) : Exc (CPUI386 D) unit :=
  x ← fget 0; rc ← fread Fpu.rounding;
  _ ← str s a (if group =? 1 then x else Fpu.fpround x rc);
  if group =? 2 then mret tt else on_fpu Fpu.fppop.

Definition fpu_exec2 (opsz16 : bool) (op group s a : Z) : Exc (CPUI386 D) unit :=
  match op with
  | 0 => arith_with fploadf32 group s a
  | 1 =>
      match group with
      | 0 => push_from fploadf32 s a
      | 1 => undefined
      | 2 => store_st fpstoref32 false s a
      | 3 => store_st fpstoref32 true s a
      | 4 => FLDENV opsz16 s a
      | 5 => FLDCW s a
      | 6 => FNSTENV opsz16 s a
      | 7 => c ← fread Fpu.cw; cpu_store16 s a c
      | _ => mret tt
      end
  | 2 => arith_with fploadi32 group s a
  | 3 =>
      match group with
      | 0 => push_from fploadi32 s a
      | 1 | 2 | 3 => store_rounded fpstorei32 group s a
      | 4 | 6 => undefined
      | 5 => push_from fploadf80 s a
      | 7 => store_st fpstoref80 true s a
      | _ => mret tt
      end
  | 4 => arith_with fploadf64 group s a
  | 5 =>
      match group with
      | 0 => push_from fploadf64 s a
      | 1 => store_st fpstorei64 true s a
      | 2 => store_st fpstoref64 false s a
      | 3 => store_st fpstoref64 true s a
      | 4 => FRSTOR opsz16 s a
      | 5 => undefined
      | 6 => FNSAVE opsz16 s a
      | 7 => w ← fread Fpu.getsw; cpu_store16 s a w
      | _ => mret tt
      end
  | 6 => arith_with fploadi16 group s a
  | 7 =>
      match group with
      | 0 => push_from fploadi16 s a
      | 1 | 2 | 3 => store_rounded fpstorei16 group s a
      | 4 => push_from fploadbcd s a
      | 5 => push_from fploadi64 s a
      | 6 => store_rounded fpstorebcd group s a
      | 7 => store_rounded fpstorei64 group s a
      | _ => mret tt
      end
  | _ => mret tt
  end.

(** ** The register forms *)

Definition cmov_cond (i : Z) : ST (CPUI386 D) bool :=
  fl ← cpu_getflags;
  match i with
  | 0 => mret (nz (Z.land fl CF))
  | 1 => mret (nz (Z.land fl ZF))
  | 2 => mret (nz (Z.land fl (Z.lor CF ZF)))
  | 3 => mret (nz (Z.land fl PF))
  | _ => stuck Aborted
  end.
Definition ucomi (i : Z) : Exc (CPUI386 D) unit :=
  a ← fget 0; b ← fget i;
  ok (match dcompare a b with
      | None => cpu_setflags (Z.lor (Z.lor ZF PF) CF) 0
      | Some Eq => cpu_setflags ZF (Z.lor PF CF)
      | Some Lt => cpu_setflags CF (Z.lor ZF PF)
      | Some Gt => cpu_setflags 0 (Z.lor (Z.lor ZF PF) CF)
      end).
Definition fcmov (want : bool) (group i : Z) : Exc (CPUI386 D) unit :=
  t ← ok (cmov_cond group);
  if eqb t want then x ← fget i; on_fpu (Fpu.fpset 0 x) else mret tt.
(** FADD, ... between registers, to register [d]. *)
Definition arith_regs (group d i : Z) : Exc (CPUI386 D) unit :=
  a ← fget 0; b ← fget i; on_fpu (Fpu.fparith group d a b).
Definition fucom (i : Z) : Exc (CPUI386 D) unit := a ← fget 0; b ← fget i; on_fpu (Fpu.fcom a b).

(** D9 *)
Definition exec1_d9 (group i : Z) : Exc (CPUI386 D) unit :=
  match group with
  | 0 => x ← fget i; on_fpu (Fpu.fppush x)
  | 1 => on_fpu (Fpu.fxch i)
  | 2 => mret tt
  | 3 => on_fpu (Fpu.fstp i)
  | 4 =>
      t ← fget 0;
      match i with
      | 0 => on_fpu (Fpu.fpset 0 (dcopysign t (of_int (if dsign t then 1 else -1))))
      | 1 => on_fpu (Fpu.fpset 0 (dabs t))
      | 2 | 3 | 6 | 7 => undefined
      | 4 => on_fpu (Fpu.fparith 2 0 t (of_int 0))
      | 5 => on_fpu (Fpu.fxam t)
      | _ => mret tt
      end
  | 5 => if i =? 7 then undefined else on_fpu (Fpu.fldconst i)
  | 6 => t ← fget 0; on_fpu (Fpu.transcend6 i t)
  | 7 => t ← fget 0; on_fpu (Fpu.transcend7 i t)
  | _ => mret tt
  end.
(** DA *)
Definition exec1_da (group i : Z) : Exc (CPUI386 D) unit :=
  match group with
  | 5 => if i =? 1 then _ ← fucom 1; _ ← on_fpu Fpu.fppop; on_fpu Fpu.fppop else undefined
  | 0 | 1 | 2 | 3 => fcmov true group i
  | _ => undefined
  end.
(** DB *)
Definition exec1_db (group i : Z) : Exc (CPUI386 D) unit :=
  match group with
  | 4 =>
      match i with
      | 2 => on_fpu (Fpu.sw_bits 0 0x80ff)
      | 3 => fset Fpu.fpu_init
      | 6 | 7 => undefined
      | _ => mret tt
      end
  | 0 | 1 | 2 | 3 => fcmov false group i
  | 5 | 6 => ucomi i
  | _ => undefined
  end.
(** DD *)
Definition exec1_dd (group i : Z) : Exc (CPUI386 D) unit :=
  match group with
  | 0 => mret tt
  | 1 => on_fpu (Fpu.fxch i)
  | 2 => t ← fget 0; on_fpu (Fpu.fpset i t)
  | 3 => on_fpu (Fpu.fstp i)
  | 4 => fucom i
  | 5 => _ ← fucom i; on_fpu Fpu.fppop
  | 6 | 7 => undefined
  | _ => mret tt
  end.
(** DF *)
Definition exec1_df (group i : Z) : Exc (CPUI386 D) unit :=
  match group with
  | 0 => on_fpu Fpu.fppop
  | 1 => on_fpu (Fpu.fxch i)
  | 2 | 3 => on_fpu (Fpu.fstp i)
  | 4 => if i =? 0 then w ← fread Fpu.getsw; ok (cpu_setax w) else undefined
  | 5 | 6 => _ ← ucomi i; on_fpu Fpu.fppop
  | 7 => undefined
  | _ => mret tt
  end.

Definition fpu_exec1 (op group i : Z) : Exc (CPUI386 D) unit :=
  match op with
  | 0 => arith_regs group 0 i
  | 1 => exec1_d9 group i
  | 2 => exec1_da group i
  | 3 => exec1_db group i
  | 4 => arith_regs group i i
  | 5 => exec1_dd group i
  | 6 => _ ← arith_regs group i i; on_fpu Fpu.fppop
  | 7 => exec1_df group i
  | _ => mret tt
  end.
End Unit.
End FpuExec.
