(* ===== verification/I386Rep.v ===== *)
(** * I386Rep: the repeated store is single stores one after the other (winspire/i386.c)

    The runs of [STOS_helper2] translate one address per page and write a whole run
    behind it, in bulk when it is ordinary memory.  [rep_stos_elements] states that
    the result is that of the single elements, with paging, page faults, devices
    and slices. *)

From S2P Require Import Prelude I386 I386Mmu I386Paging I386Mem I386String.

Module Rep.
Import I386 Mmu Paging Mem Str.

(** ** Pages and offsets *)

Definition aligned_page (x : Z) : Prop := inw 32 x /\ x mod 4096 = 0.

Lemma aligned_bits x : inw 32 x -> (forall i, 0 <= i < 12 -> Z.testbit x i = false) -> aligned_page x.
Proof.
  intros Hx Hb. split; [done|]. change 4096 with (2 ^ 12). apply Z.bits_inj'. intros i Hi. rewrite Z.bits_0.
  destruct (Z.lt_ge_cases i 12); [rewrite Z.mod_pow2_bits_low by lia; apply Hb; lia|by rewrite Z.mod_pow2_bits_high by lia].
Qed.
Lemma aligned_testbit x i : aligned_page x -> 0 <= i < 12 -> Z.testbit x i = false.
Proof. intros [_ Hx] Hi. rewrite <- (Z.mod_pow2_bits_low x 12) by lia. change (2 ^ 12) with 4096. rewrite Hx. apply Z.bits_0. Qed.
Lemma aligned_frame pte l : aligned_page (Z.lxor (Z.land pte PAGE_MASK) (u32 (Z.shiftl l 12))).
Proof.
  apply aligned_bits.
  - apply inw_lxor; [apply inw_land_r; split; vm_compute; congruence|apply inw_u32].
  - intros i Hi. rewrite Z.lxor_spec, Z.land_spec. unfold u32. rewrite Z.mod_pow2_bits_low, (Z.shiftl_spec_low l) by lia.
    change PAGE_MASK with (Z.shiftl 0xfffff 12). by rewrite (Z.shiftl_spec_low _ 12), andb_false_r by lia.
Qed.

(** The physical address behind an aligned exclusive-or. *)
Lemma xor_page x a : aligned_page x -> 0 <= a -> Z.lxor x a = Z.lxor x (Z.shiftl (Z.shiftr a 12) 12) + a mod 4096.
Proof.
  intros Hx Ha. change 4096 with (2 ^ 12). rewrite <- (Z.land_ones a 12) by lia.
  rewrite Z.add_nocarry_lxor.
  - apply Z.bits_inj'. intros i Hi. rewrite !Z.lxor_spec, Z.land_spec, Z.testbit_ones_nonneg by lia.
    destruct (Z.ltb_spec i 12).
    + rewrite Z.shiftl_spec_low, andb_true_r, xorb_false_r by lia. done.
    + rewrite Z.shiftl_spec, Z.shiftr_spec, andb_false_r, xorb_false_r by lia. do 2 f_equal. lia.
  - apply Z.bits_inj'. intros i Hi. rewrite Z.land_spec, Z.lxor_spec, Z.land_spec, Z.testbit_ones_nonneg, Z.bits_0 by lia.
    destruct (Z.ltb_spec i 12); [|by rewrite !andb_false_r].
    by rewrite (aligned_testbit x), Z.shiftl_spec_low by (done || lia).
Qed.
Lemma xor_offset x a : aligned_page x -> inw 32 a -> inw 32 (Z.lxor x a) /\ Z.lxor x a mod 4096 = a mod 4096.
Proof.
  intros Hx Ha. split; [apply inw_lxor; [apply Hx|done]|]. unfold inw in Ha. rewrite xor_page by (done || lia).
  assert (aligned_page (Z.lxor x (Z.shiftl (Z.shiftr a 12) 12))) as [_ Hm].
  { apply aligned_bits; [apply inw_lxor; [apply Hx|]|].
    - apply (inw_shiftl 20 12); [lia|]. apply (inw_shiftr_to 20 12); [lia|lia|done].
    - intros i Hi. by rewrite Z.lxor_spec, (aligned_testbit x), Z.shiftl_spec_low by (done || lia). }
  rewrite Z.add_mod, Hm, Z.add_0_l, !Z.mod_mod by lia. done.
Qed.
(** Two addresses of one page. *)
Lemma same_page a b : a / 4096 = b / 4096 -> Z.shiftr a 12 = Z.shiftr b 12.
Proof. rewrite !Z.shiftr_div_pow2 by lia. done. Qed.
Lemma xor_move x a b : aligned_page x -> 0 <= a -> 0 <= b -> a / 4096 = b / 4096 -> Z.lxor x b = Z.lxor x a + (b - a).
Proof.
  intros Hx Ha Hb Hp. rewrite (xor_page x a), (xor_page x b), (same_page a b) by done.
  pose proof (Z.div_mod a 4096 ltac:(lia)). pose proof (Z.div_mod b 4096 ltac:(lia)). lia.
Qed.

Section Tlbs.
Context {D : Type} `{IoMem D}.
Implicit Types c : CPUI386 D.

(** Every cached page is page-aligned. *)
Record pages_ok c : Prop := {
  po_tlb : alen (tlb c) = tlb_size; po_fr : alen (fast_read c) = NSPIRE_DTLB_FAST_SLOTS; po_fw : alen (fast_write c) = NSPIRE_DTLB_FAST_SLOTS;
  po_entry : forall i, 0 <= i < tlb_size -> lpgno (arr (tlb c) i) = NO_PAGE \/ aligned_page (xaddr (arr (tlb c) i));
  po_read : forall i, 0 <= i < NSPIRE_DTLB_FAST_SLOTS -> read_lpgno (arr (fast_read c) i) = NO_PAGE \/ aligned_page (read_xaddr (arr (fast_read c) i));
  po_write : forall i, 0 <= i < NSPIRE_DTLB_FAST_SLOTS -> write_lpgno (arr (fast_write c) i) = NO_PAGE \/ aligned_page (write_xaddr (arr (fast_write c) i));
}.

(** What a translation may change. *)
Definition env c c' : Prop :=
  c' = c <| phys_mem := phys_mem c' |> <| tlb := tlb c' |> <| fast_read := fast_read c' |> <| fast_write := fast_write c' |>
         <| cr2 := cr2 c' |> <| excno := excno c' |> <| excerr := excerr c' |> /\ alen (phys_mem c') = alen (phys_mem c).
#[export] Instance env_preorder : PreOrder env.
Proof.
  split; [by intros []|]. intros c1 c2 c3 [E1 L1] [E2 L2]. unfold env in *. split; [|congruence].
  etransitivity; [exact E2|]. rewrite E1. done.
Qed.

Definition keeps {A} (m : Exc (CPUI386 D) A) : Prop := forall c, pages_ok c ->
  match m c with Done (_, c') => pages_ok c' /\ env c c' | Stuck _ => True end.
Lemma keeps_bind {A B} (m : Exc (CPUI386 D) A) (k : A -> Exc (CPUI386 D) B) : keeps m -> (forall a, keeps (k a)) -> keeps (m ≫= k).
Proof.
  intros Hm Hk c Hc. specialize (Hm c Hc). unfold mbind, Exc_bind. destruct (m c) as [[[a|] c']|]; [|done|done].
  destruct Hm as [Hp He]. specialize (Hk a c' Hp). destruct (k a c') as [[r c'']|]; [|done].
  destruct Hk as [Hp' He']. split; [done|]. by transitivity c'.
Qed.
Lemma keeps_ret {A} (a : A) : keeps (mret a).
Proof. intros c Hc. by split. Qed.
Lemma keeps_fails {A} : keeps (fails (A := A)).
Proof. intros c Hc. by split. Qed.
Lemma keeps_get {A} (f : CPUI386 D -> A) : keeps (get f).
Proof. intros c Hc. by split. Qed.
Lemma keeps_if {A} (b : bool) (m m' : Exc (CPUI386 D) A) : keeps m -> keeps m' -> keeps (if b then m else m').
Proof. by destruct b. Qed.
Lemma keeps_put (f : CPUI386 D -> CPUI386 D) : (forall c, pages_ok c -> pages_ok (f c) /\ env c (f c)) -> keeps (put f).
Proof. intros Hf c Hc. exact (Hf c Hc). Qed.
(** Code that changes nothing but memory. *)
Lemma keeps_ok {A} (m : ST (CPUI386 D) A) :
  (forall c a c', m c = Done (a, c') -> c' = c <| phys_mem := phys_mem c' |> /\ alen (phys_mem c') = alen (phys_mem c)) -> keeps (ok m).
Proof.
  intros Hm c Hc. unfold ok. destruct (m c) as [[a c']|] eqn:E; [|done]. destruct (Hm c a c' E) as [E' El].
  split; [rewrite E'; by destruct Hc|]. split; [|done]. by rewrite E'.
Qed.

(** Code that changes nothing but bytes of memory. *)
Definition memory_only {A} (m : ST (CPUI386 D) A) : Prop := forall c a c', m c = Done (a, c') ->
  c' = c <| phys_mem := phys_mem c' |> /\ alen (phys_mem c') = alen (phys_mem c).
Lemma memory_bind {A B} (m : ST (CPUI386 D) A) (k : A -> ST (CPUI386 D) B) :
  memory_only m -> (forall a, memory_only (k a)) -> memory_only (m ≫= k).
Proof.
  intros Hm Hk c b c' E. apply st_bind_inv in E as (a & c1 & E1 & E2). destruct (Hm _ _ _ E1) as [H1 L1], (Hk _ _ _ _ E2) as [H2 L2].
  split; [|congruence]. rewrite H2, H1. done.
Qed.
Lemma memory_ret {A} (a : A) : memory_only (mret a).
Proof. intros c b c' E. injection E as _ E. subst. by destruct c'. Qed.
Lemma memory_pload8 a : memory_only (pload8 a).
Proof. intros c b c' E. unfold pload8, lift in E. destruct (rd (phys_mem c) a); [|done]. injection E as _ E. subst. by destruct c'. Qed.
Lemma memory_pstore8 a v : memory_only (pstore8 a v).
Proof.
  intros c b c' E. unfold pstore8, wr in E. destruct ((a <? 0) || (alen (phys_mem c) <=? a)); [done|].
  injection E as _ <-. split; [done|]. cbn. apply alen_set.
Qed.
Lemma memory_or_byte a k : memory_only (or_byte a k).
Proof. apply memory_bind; [apply memory_pload8|intros b; apply memory_pstore8]. Qed.
Lemma memory_pload32 a : memory_only (pload32 a).
Proof. repeat (apply memory_bind; [apply memory_pload8|intros ?]). apply memory_ret. Qed.
Lemma memory_dirty p : memory_only (mark_pte_dirty p).
Proof.
  destruct p as [a|]; [|apply memory_ret]. apply memory_bind; [apply memory_pload8|intros b].
  destruct (Z.testbit b 6); [apply memory_ret|apply memory_or_byte].
Qed.

Lemma pages_entry c s e : pages_ok c -> lpgno e = NO_PAGE \/ aligned_page (xaddr e) ->
  pages_ok (c <| tlb := arr_set (tlb c) s e |>) /\ env c (c <| tlb := arr_set (tlb c) s e |>).
Proof.
  intros [? ? ? He ? ?] Hv. split; [|by split]. constructor; try done; [by cbn; rewrite alen_set|].
  exact (arr_set_all (fun e => lpgno e = NO_PAGE \/ aligned_page (xaddr e)) _ _ _ _ po_tlb0 He Hv).
Qed.
Lemma pages_drop_entry c l : pages_ok c -> pages_ok (drop_entry l c) /\ env c (drop_entry l c).
Proof. intros Hc. apply pages_entry; [done|by left]. Qed.
Lemma pages_fr c l r : pages_ok c -> read_lpgno r = NO_PAGE \/ aligned_page (read_xaddr r) -> pages_ok (set_fr l r c) /\ env c (set_fr l r c).
Proof.
  intros [? ? ? ? He ?] Hv. split; [|by split]. constructor; try done; [by cbn; rewrite alen_set|].
  exact (arr_set_all (fun e => read_lpgno e = NO_PAGE \/ aligned_page (read_xaddr e)) _ _ _ _ po_fr0 He Hv).
Qed.
Lemma pages_fw c l r : pages_ok c -> write_lpgno r = NO_PAGE \/ aligned_page (write_xaddr r) -> pages_ok (set_fw l r c) /\ env c (set_fw l r c).
Proof.
  intros [? ? ? ? ? He] Hv. split; [|by split]. constructor; try done; [by cbn; rewrite alen_set|].
  exact (arr_set_all (fun e => write_lpgno e = NO_PAGE \/ aligned_page (write_xaddr e)) _ _ _ _ po_fw0 He Hv).
Qed.
Lemma pages_drop_fast c l : pages_ok c -> pages_ok (drop_fast l c) /\ env c (drop_fast l c).
Proof.
  intros Hc. unfold drop_fast. set (c1 := if read_lpgno (fr c l) =? l then _ else c).
  assert (pages_ok c1 /\ env c c1) as [H1 E1].
  { unfold c1. destruct (read_lpgno (fr c l) =? l); [apply pages_fr; [done|by left]|by split]. }
  cbv zeta. destruct (write_lpgno (fw c1 l) =? l); [|done].
  destruct (pages_fw c1 l ((fw c1 l) <| write_lpgno := NO_PAGE |> <| write_dirty := 0 |>) H1 ltac:(by left)) as [H2 E2].
  split; [exact H2|]. by transitivity c1.
Qed.

Ltac keep := repeat lazymatch goal with
  | |- keeps (mbind _ _) => apply keeps_bind; [|intros ?]
  | |- keeps (if _ then _ else _) => apply keeps_if
  | |- keeps (ok (or_byte _ _)) => apply keeps_ok, memory_or_byte
  | |- keeps (ok (pload32 _)) => apply keeps_ok, memory_pload32
  | |- keeps (get _) => apply keeps_get
  | |- keeps fails => apply keeps_fails
  end.

Lemma keeps_refill s l : keeps (tlb_refill s l).
Proof. unfold tlb_refill. keep. apply keeps_put. intros c Hc. apply pages_entry; [done|]. right. apply aligned_frame. Qed.
Lemma keeps_page_fault {A} p rwm cpl laddr : keeps (page_fault (A := A) p rwm cpl laddr).
Proof. unfold page_fault. keep. apply keeps_put. intros c Hc. split; [by destruct Hc|by split]. Qed.
Lemma keeps_find rwm l laddr cpl : keeps (find_entry rwm l laddr cpl).
Proof.
  intros c Hc. unfold find_entry. destruct (lpgno (entry c l) =? l); [by split|].
  pose proof (keeps_refill (slot_of l) l c Hc) as Hk. destruct (tlb_refill (slot_of l) l c) as [[[u|] c']|]; [done| |done].
  destruct Hk as [Hp He]. pose proof (keeps_page_fault (A := TlbEntry) 0 rwm cpl laddr c' Hp) as Hf.
  destruct (page_fault 0 rwm cpl laddr c') as [[r c'']|]; [|done]. destruct Hf as [Hp' He']. split; [done|]. by transitivity c'.
Qed.

(** ** A page found once is found again without a change of state *)

(** What holds after [m] when it succeeds. *)
Definition ends {A} (m : Exc (CPUI386 D) A) (P : A -> CPUI386 D -> Prop) : Prop := forall c a c', m c = Done (Some a, c') -> P a c'.
Lemma ends_bind {A B} (m : Exc (CPUI386 D) A) (k : A -> Exc (CPUI386 D) B) P : (forall a, ends (k a) P) -> ends (m ≫= k) P.
Proof.
  intros Hk c b c' E. unfold mbind, Exc_bind in E. destruct (m c) as [[[a|] c1]|]; [by apply (Hk a c1)|done|done].
Qed.
Lemma ends_fails {A} P : ends (fails (A := A)) P.
Proof. intros c a c' E. discriminate E. Qed.
Lemma refill_ends s l : ends (tlb_refill s l) (fun _ c' => exists c0 e, c' = c0 <| tlb := arr_set (tlb c0) s e |> /\ lpgno e = l).
Proof.
  unfold tlb_refill. repeat first [apply ends_bind; intros ? | apply ends_fails | case_match].
  intros c0 ? c1 E. injection E as _ <-. by eexists _, _.
Qed.

Lemma found_aligned rwm l laddr cpl c e c' : pages_ok c -> 0 <= l < NO_PAGE ->
  find_entry rwm l laddr cpl c = Done (Some e, c') -> aligned_page (xaddr e).
Proof.
  intros Hc Hl E. pose proof (tlb_slot_range l ltac:(lia)) as Hs.
  assert (Hi : forall c0, pages_ok c0 -> lpgno (entry c0 l) = l -> aligned_page (xaddr (entry c0 l))).
  { intros c0 H0 E0. destruct (po_entry c0 H0 (slot_of l) Hs) as [E1|]; [|done]. unfold entry in E0. lia. }
  unfold find_entry in E. destruct (Z.eqb_spec (lpgno (entry c l)) l) as [E0|_]; [injection E as <- <-; by apply Hi|].
  pose proof (keeps_refill (slot_of l) l c Hc) as Hk.
  destruct (tlb_refill (slot_of l) l c) as [[[u|] c1]|] eqn:Er; [|unfold page_fault in E; rewrite put_bind in E; discriminate E|done].
  injection E as <- <-. apply Hi; [apply Hk|].
  destruct (refill_ends (slot_of l) l c u c1 Er) as (c0 & e & -> & <-). unfold entry. cbn [tlb set_field].
  rewrite arr_set_eq; [done|]. pose proof (po_tlb _ (proj1 Hk)) as Hn. cbn [tlb set_field] in Hn. rewrite alen_set in Hn. by rewrite Hn.
Qed.

(** A translation of page [l] by [x], found in the fast TLB alone. *)
Definition cached (rwm l cpl x : Z) c : Prop := forall laddr c2, fr c2 l = fr c l -> fw c2 l = fw c l ->
  translate_lpgno_fast rwm l laddr cpl c2 = Done (Some (Z.lxor x laddr), c2).

Lemma cached_read c l cpl : read_lpgno (fr c l) = l -> read_cpl (fr c l) = b2z (0 <? cpl) -> cached 1 l cpl (read_xaddr (fr c l)) c.
Proof.
  intros El Ec laddr c2 E1 _. unfold translate_lpgno_fast. rewrite E1. by rewrite El, Ec, !Z.eqb_refl.
Qed.
Lemma cached_read_write c l cpl : (read_lpgno (fr c l) =? l) && (read_cpl (fr c l) =? b2z (0 <? cpl)) = false ->
  write_lpgno (fw c l) = l -> write_cpl (fw c l) = b2z (0 <? cpl) -> cached 1 l cpl (write_xaddr (fw c l)) c.
Proof.
  intros Hn El Ec laddr c2 E1 E2. unfold translate_lpgno_fast. rewrite E1, E2.
  rewrite El, Ec, !Z.eqb_refl. cbn [andb]. by rewrite Hn.
Qed.
Lemma cached_write c l cpl : write_lpgno (fw c l) = l -> write_cpl (fw c l) = b2z (0 <? cpl) -> write_dirty (fw c l) <> 0 ->
  cached 2 l cpl (write_xaddr (fw c l)) c.
Proof.
  intros El Ec Ed laddr c2 E1 E2. unfold translate_lpgno_fast. rewrite E2.
  rewrite El, Ec, !Z.eqb_refl. cbn [Z.eqb Pos.eqb andb]. by destruct (Z.eqb_spec (write_dirty (fw c l)) 0).
Qed.

(** The slots of other pages stay. *)
Definition others (l : Z) c c' : Prop := forall l', fast_slot l' <> fast_slot l -> fr c' l' = fr c l' /\ fw c' l' = fw c l'.
Lemma others_same l c c1 c' : fast_read c1 = fast_read c -> fast_write c1 = fast_write c -> others l c1 c' -> others l c c'.
Proof. intros E1 E2 Ho l' Hn. destruct (Ho l' Hn) as [-> ->]. unfold fr, fw. by rewrite E1, E2. Qed.
Lemma others_fr l r c : others l c (set_fr l r c).
Proof.
  intros l' Hn. split; [|done]. unfold fr, set_fr. cbn [fast_read set_field]. apply arr_set_ne; [apply fast_slot_range..|congruence].
Qed.
Lemma others_fw l r c : others l c (set_fw l r c).
Proof.
  intros l' Hn. split; [done|]. unfold fw, set_fw. cbn [fast_write set_field]. apply arr_set_ne; [apply fast_slot_range..|congruence].
Qed.

Definition fast_post (rwm l laddr cpl : Z) c (r : option Z) c' : Prop :=
  pages_ok c' /\ env c c' /\
  match r with Some p => exists x, aligned_page x /\ p = Z.lxor x laddr /\ cached rwm l cpl x c' /\ others l c c' | None => True end.
Definition leads {A} (m : Exc (CPUI386 D) A) c (P : option A -> CPUI386 D -> Prop) : Prop :=
  match m c with Done (r, c') => P r c' | Stuck _ => True end.
Lemma leads_bind {A B} (m : Exc (CPUI386 D) A) (k : A -> Exc (CPUI386 D) B) c Q P :
  leads m c Q -> (forall a c', Q (Some a) c' -> leads (k a) c' P) -> (forall c', Q None c' -> P None c') -> leads (m ≫= k) c P.
Proof.
  unfold leads, mbind, Exc_bind. intros Hm Hk Hn. destruct (m c) as [[[a|] c']|]; [by apply Hk|by apply Hn|done].
Qed.
Lemma leads_keeps {A} (m : Exc (CPUI386 D) A) c : keeps m -> pages_ok c -> leads m c (fun _ c' => pages_ok c' /\ env c c').
Proof. intros Hm Hc. exact (Hm c Hc). Qed.

(** The dirty bit is set behind a slot that stays. *)
Lemma dirty_slot_leads p c : pages_ok c -> leads (ok (mark_pte_dirty p)) c (fun _ c' => pages_ok c' /\ env c c' /\ fast_read c' = fast_read c /\ fast_write c' = fast_write c).
Proof.
  intros Hc. pose proof (keeps_ok _ (memory_dirty p) c Hc) as Hk. unfold leads, ok in *.
  destruct (mark_pte_dirty p c) as [[a c']|] eqn:E; [|done]. destruct (memory_dirty p c a c' E) as [E' _]. destruct Hk as [? ?]. split; [done|]. split; [done|]. by rewrite E'.
Qed.

Lemma fw_set l w c : pages_ok c -> 0 <= l -> fw (set_fw l w c) l = w.
Proof.
  intros Hc Hl. unfold fw, set_fw. cbn [fast_write set_field]. apply arr_set_eq. rewrite (po_fw c Hc). apply fast_slot_range.
Qed.
Lemma fr_set l w c : pages_ok c -> 0 <= l -> fr (set_fr l w c) l = w.
Proof.
  intros Hc Hl. unfold fr, set_fr. cbn [fast_read set_field]. apply arr_set_eq. rewrite (po_fr c Hc). apply fast_slot_range.
Qed.

Lemma write_hit_leads l laddr cpl c : pages_ok c -> 0 <= l < NO_PAGE -> write_lpgno (fw c l) = l -> write_cpl (fw c l) = b2z (0 <? cpl) ->
  leads (write_through l laddr) c (fast_post 2 l laddr cpl c).
Proof.
  intros Hc Hl El Ec. unfold write_through. set (w := fw c l) in *.
  assert (Hx : aligned_page (write_xaddr w)).
  { destruct (po_write c Hc (fast_slot l) (fast_slot_range l)) as [E|]; [|done]. unfold w, fw in El. lia. }
  destruct (Z.eqb_spec (write_dirty w) 0) as [E0|Hd].
  - apply (leads_bind _ _ _ (fun r c' => pages_ok c' /\ env c c' /\ (is_Some r -> fw c' l = w <| write_dirty := 1 |> /\ others l c c'))).
    + change (write_dirty (fw c l)) with (write_dirty w). rewrite E0. change (write_ppte (fw c l)) with (write_ppte w).
      apply (leads_bind _ _ _ _ _ (dirty_slot_leads (write_ppte w) c Hc)); [|intros c' (? & ? & _); split; [done|split; [done|by intros [? ?]]]].
      intros [] c1 (H1 & E1 & Er & Ew). assert (Efw : fw c1 l = w) by (unfold fw, w; by rewrite Ew).
      unfold leads, put, ok, modify. rewrite Efw. destruct (pages_fw c1 l (w <| write_dirty := 1 |>) H1 ltac:(by right)) as [H2 E2].
      split; [done|]. split; [by transitivity c1|]. intros _. split; [apply fw_set; [done|lia]|].
      apply (others_same _ _ c1); [done|done|apply others_fw].
    + intros [] c' (H1 & E1 & Ew). destruct (Ew ltac:(by eexists)) as [Ew' Ho]. clear Ew. rename Ew' into Ew. split; [done|]. split; [done|].
      exists (write_xaddr w). split; [done|]. split; [done|]. pose proof (cached_write c' l cpl) as Hcw. rewrite Ew in Hcw. split; [by apply Hcw|done].
    + by intros c' (? & ? & _).
  - unfold leads. cbv beta. change (fw c l) with w. rewrite (proj2 (Z.eqb_neq _ _) Hd). split; [done|]. split; [done|].
    exists (write_xaddr w). split; [done|]. split; [done|]. split; [by apply cached_write|done].
Qed.

(** The walk does not touch the fast TLB. *)
Definition still {A} (m : Exc (CPUI386 D) A) : Prop := forall c,
  leads m c (fun _ c' => fast_read c' = fast_read c /\ fast_write c' = fast_write c).
Lemma still_bind {A B} (m : Exc (CPUI386 D) A) (k : A -> Exc (CPUI386 D) B) : still m -> (forall a, still (k a)) -> still (m ≫= k).
Proof.
  intros Hm Hk c. apply (leads_bind _ _ _ _ _ (Hm c)); [|done]. intros a c' [E1 E2]. specialize (Hk a c').
  unfold leads in *. destruct (k a c') as [[r c2]|]; [|done]. destruct Hk as [-> ->]. done.
Qed.
Lemma still_ok {A} (m : ST (CPUI386 D) A) : memory_only m -> still (ok m).
Proof. intros Hm c. unfold leads, ok. destruct (m c) as [[a c']|] eqn:E; [|done]. destruct (Hm c a c' E) as [-> _]. done. Qed.
Lemma still_refill s l : still (tlb_refill s l).
Proof.
  unfold tlb_refill. repeat lazymatch goal with
  | |- still (mbind _ _) => apply still_bind; [|intros ?]
  | |- still (if ?b then _ else _) => destruct b
  | |- still (ok (or_byte _ _)) => apply still_ok, memory_or_byte
  | |- still (ok (pload32 _)) => apply still_ok, memory_pload32
  | |- still _ => done
  end.
Qed.
Lemma still_find rwm l laddr cpl : still (find_entry rwm l laddr cpl).
Proof.
  intros c. unfold leads, find_entry. destruct (lpgno (entry c l) =? l); [done|]. pose proof (still_refill (slot_of l) l c) as Hs.
  unfold leads in Hs. by destruct (tlb_refill (slot_of l) l c) as [[[u|] c']|].
Qed.

Lemma miss_leads rwm l laddr cpl c : pages_ok c -> 0 <= l < NO_PAGE -> rwm = 1 \/ rwm = 2 ->
  leads (fast_miss rwm l laddr cpl) c (fast_post rwm l laddr cpl c).
Proof.
  intros Hc Hl Hr. unfold fast_miss.
  apply (leads_bind _ _ _ (fun r c' => pages_ok c' /\ env c c' /\ (forall e, r = Some e -> aligned_page (xaddr e)) /\
    fast_read c' = fast_read c /\ fast_write c' = fast_write c)).
  - pose proof (keeps_find rwm l laddr cpl c Hc) as Hk. pose proof (still_find rwm l laddr cpl c) as Hst. unfold leads in *. destruct (find_entry rwm l laddr cpl c) as [[r c1]|] eqn:Ef; [|done].
    destruct Hk as [Hp He]. split; [done|]. split; [done|]. split; [|done]. intros e ->. exact (found_aligned _ _ _ _ _ _ _ Hc Hl Ef).
  - intros e c1 (H1 & E1 & Hx & Er1 & Ew1). specialize (Hx e eq_refl).
    destruct (pte_lookup (lookup_row e) (0 <? cpl) (1 <? rwm)).
    + unfold leads. rewrite !put_bind. destruct (pages_drop_entry c1 l H1) as [H2 E2]. destruct (pages_drop_fast _ l H2) as [H3 E3].
      pose proof (keeps_page_fault (A := Z) 1 rwm cpl laddr _ H3) as Hf. set (c3 := drop_fast l (drop_entry l c1)) in *. clearbody c3.
      destruct (page_fault 1 rwm cpl laddr c3) as [[[p|] c4]|] eqn:Ep; [|destruct Hf as [H4 E4]|done].
      * unfold page_fault in Ep. rewrite put_bind in Ep. discriminate Ep.
      * split; [exact H4|]. split; [|done]. exact (transitivity E1 (transitivity E2 (transitivity E3 E4))).
    + destruct Hr as [-> | ->]; [change (nz (Z.land 1 2)) with false|change (nz (Z.land 2 2)) with true]; cbv iota.
      * set (r := mkFR l (xaddr e) (b2z (0 <? cpl))). unfold leads. rewrite put_bind. destruct (pages_fr c1 l r H1 ltac:(by right)) as [H2 E2].
        split; [done|]. split; [by transitivity c1|]. exists (xaddr e). split; [done|]. split; [done|].
        pose proof (cached_read (set_fr l r c1) l cpl) as Hcr. rewrite (fr_set l r c1) in Hcr by (done || lia).
        split; [by apply Hcr|]. by apply (others_same _ _ c1); [| |apply others_fr].
      * set (w := mkFW l (xaddr e) (Some (ppte e)) 1 (b2z (0 <? cpl))).
        apply (leads_bind _ _ _ (fun r c' => pages_ok c' /\ env c c' /\ (is_Some r -> fw c' l = w /\ others l c c'))); [|intros [] c' (H2 & E2 & Ew)|by intros c' (? & ? & _)].
        -- apply (leads_bind _ _ _ _ _ (dirty_slot_leads (Some (ppte e)) c1 H1)); [|intros c' (? & ? & _); split; [done|split; [by transitivity c1|by intros []]]].
           intros [] c2 (H2 & E2 & Er2 & Ew2). unfold leads, put, ok, modify. destruct (pages_fw c2 l w H2 ltac:(by right)) as [H3 E3].
           split; [done|]. split; [by transitivity c1; [|transitivity c2]|]. intros _. split; [apply fw_set; [done|lia]|].
           apply (others_same _ _ c2); [congruence|congruence|apply others_fw].
        -- destruct (Ew ltac:(by eexists)) as [Ew' Ho]. split; [done|]. split; [done|]. exists (xaddr e). split; [done|]. split; [done|].
           pose proof (cached_write c' l cpl) as Hcw. rewrite Ew' in Hcw. split; [by apply Hcw|done].
  - by intros c' (? & ? & _).
Qed.

Lemma fast_leads rwm l laddr cpl c : pages_ok c -> 0 <= l < NO_PAGE -> rwm = 1 \/ rwm = 2 ->
  leads (translate_lpgno_fast rwm l laddr cpl) c (fast_post rwm l laddr cpl c).
Proof.
  intros Hc Hl Hr. unfold leads, translate_lpgno_fast. cbv zeta.
  destruct ((rwm =? 1) && (read_lpgno (fr c l) =? l) && (read_cpl (fr c l) =? b2z (0 <? cpl))) eqn:E1;
    [|destruct ((rwm =? 1) && (write_lpgno (fw c l) =? l) && (write_cpl (fw c l) =? b2z (0 <? cpl))) eqn:E2;
      [|destruct ((rwm =? 2) && (write_lpgno (fw c l) =? l) && (write_cpl (fw c l) =? b2z (0 <? cpl))) eqn:E3]].
  - apply andb_true_iff in E1 as [E1 Hk]. apply andb_true_iff in E1 as [E1 El]. apply Z.eqb_eq in E1, El, Hk. subst rwm.
    split; [done|]. split; [done|]. exists (read_xaddr (fr c l)). split; [|split; [done|split; [by apply cached_read|done]]].
    destruct (po_read c Hc (fast_slot l) (fast_slot_range l)) as [E|]; [unfold fr in El; lia|done].
  - apply andb_true_iff in E2 as [E2 Hk]. apply andb_true_iff in E2 as [E2 El]. apply Z.eqb_eq in E2, El, Hk. subst rwm.
    split; [done|]. split; [done|]. exists (write_xaddr (fw c l)). split; [|split; [done|split; [by apply cached_read_write|done]]].
    destruct (po_write c Hc (fast_slot l) (fast_slot_range l)) as [E|]; [unfold fw in El; lia|done].
  - apply andb_true_iff in E3 as [E3 Hk]. apply andb_true_iff in E3 as [E3 El]. apply Z.eqb_eq in E3, El, Hk. subst rwm.
    exact (write_hit_leads l laddr cpl c Hc Hl El Hk).
  - exact (miss_leads rwm l laddr cpl c Hc Hl Hr).
Qed.

(** ** Runs behind one translation *)

Definition width_ok (w : Z) : Prop := w = 8 \/ w = 16 \/ w = 32.
(** What a translation depends on, besides memory. *)
Definition same_view c c2 : Prop :=
  cr0 c2 = cr0 c /\ seg c2 = seg c /\ fast_read c2 = fast_read c /\ fast_write c2 = fast_write c.
(** The run behind [p]: the addresses in its page are translated without a change. *)
Definition run_at (rwm s addr w lvl p : Z) c : Prop := inw 32 p /\ p mod 4096 + size w <= 4096 /\
  u32 (base (seg_of c s) + addr) mod 4096 = p mod 4096 /\
  forall addr' k c2, same_view c c2 -> u32 (base (seg_of c s) + addr') = u32 (base (seg_of c s) + addr) + k ->
    0 <= p mod 4096 + k -> p mod 4096 + k + size w <= 4096 ->
    translate rwm s addr' (size w) lvl c2 = Done (Some (ADDR_OK1 (p + k)), c2).

Lemma aligned_room w x : width_ok w -> x mod size w = 0 -> x mod 4096 + size w <= 4096.
Proof.
  intros Hw Hx. destruct Hw as [-> |[-> | ->]]; [change (size 8) with 1 in *|change (size 16) with 2 in *|change (size 32) with 4 in *];
    Z.to_euclidean_division_equations; lia.
Qed.
Lemma same_page_move a k : 0 <= a mod 4096 + k < 4096 -> (a + k) / 4096 = a / 4096.
Proof.
  intros Hk. pose proof (Z.div_mod a 4096 ltac:(lia)). symmetry. apply (Z.div_unique _ _ _ (a mod 4096 + k)); lia.
Qed.
Lemma mod_move a k : 0 <= a mod 4096 + k < 4096 -> (a + k) mod 4096 = a mod 4096 + k.
Proof.
  intros Hk. pose proof (Z.div_mod a 4096 ltac:(lia)). symmetry. apply (Z.mod_unique _ _ (a / 4096)); lia.
Qed.

Lemma size_pos w : width_ok w -> 0 < size w.
Proof. by intros [-> |[-> | ->]]. Qed.
Lemma laddr_page a : 0 <= Z.shiftr (u32 a) 12 < NO_PAGE.
Proof. pose proof (page_lt (u32 a) (inw_u32 a)). unfold NO_PAGE. lia. Qed.
Lemma land_4095 a : Z.land a 0xfff = a mod 4096.
Proof. change 0xfff with (2 ^ 12 - 1). by rewrite land_ones_mod. Qed.

Lemma next_slot l : fast_slot l <> fast_slot (l + 1).
Proof.
  unfold fast_slot, NSPIRE_DTLB_FAST_SLOTS. rewrite !(land_ones_mod 10) by lia. change (2 ^ 10) with 1024.
  Z.to_euclidean_division_equations; lia.
Qed.

(** The state after a translation allows the segment check and shows the same segment. *)
Lemma env_back c c1 s : env c c1 -> seg_of c1 s = seg_of c s /\ cr0 c1 = cr0 c /\ seg c1 = seg c.
Proof. intros [E1 _]. unfold seg_of. by rewrite E1. Qed.
Lemma segcheck_view c c2 s : Z.testbit (cr0 c) 0 && null_selector (seg_of c s) = false ->
  cr0 c2 = cr0 c -> seg c2 = seg c -> segcheck s c2 = Done (Some tt, c2).
Proof. intros Hs E0 Es. unfold segcheck, seg_of in *. by rewrite E0, Es, Hs. Qed.
Lemma paging_view c c2 : cr0 c2 = cr0 c -> paging c2 = paging c.
Proof. unfold paging. by intros ->. Qed.

(** Two cached pages translate an access that crosses, again and again. *)
Lemma crossing_again rwm s addr w lvl c c2 x x2 : Z.testbit (cr0 c) 0 && null_selector (seg_of c s) = false ->
  paging c = true -> cr0 c2 = cr0 c -> seg c2 = seg c -> let la := u32 (base (seg_of c s) + addr) in
  0x1000 - size w < la mod 4096 -> cached rwm (Z.shiftr la 12) lvl x c2 -> cached rwm (Z.shiftr la 12 + 1) lvl x2 c2 ->
  translate rwm s addr (size w) lvl c2 = Done (Some (ADDR_OK2 (Z.lxor x la) (Z.lxor x2 (u32 (Z.shiftl (Z.shiftr la 12 + 1) 12)))), c2).
Proof.
  intros Hseg Hpg V1 V2 la Hlt H1 H2. unfold translate. assert (seg_of c2 s = seg_of c s) as -> by (unfold seg_of; by rewrite V2). fold la.
  rewrite (exc_bind_done _ _ _ _ _ (segcheck_view c c2 s Hseg V1 V2)). unfold translate_laddr. rewrite get_bind, (paging_view c c2 V1), Hpg.
  rewrite (exc_bind_done _ _ _ _ _ (H1 la c2 eq_refl eq_refl)), land_4095. destruct (Z.ltb_spec (0x1000 - size w) (la mod 4096)); [|lia].
  by rewrite (exc_bind_done _ _ _ _ _ (H2 _ c2 eq_refl eq_refl)).
Qed.
(** A cached page translates every access inside it. *)
Lemma inside_again rwm s w lvl c c1 c2 x la a' k : width_ok w -> Z.testbit (cr0 c) 0 && null_selector (seg_of c s) = false ->
  paging c = true -> env c c1 -> same_view c1 c2 -> aligned_page x -> inw 32 la -> cached rwm (Z.shiftr la 12) lvl x c1 ->
  u32 (base (seg_of c s) + a') = la + k -> 0 <= la mod 4096 + k -> la mod 4096 + k + size w <= 4096 ->
  translate rwm s a' (size w) lvl c2 = Done (Some (ADDR_OK1 (Z.lxor x la + k)), c2).
Proof.
  intros Hw Hseg Hpg E1 (V1 & V2 & V3 & V4) Hx Hla Hcache Ea Hk Hk'. pose proof (size_pos w Hw) as Hsz.
  destruct (env_back c c1 s E1) as (_ & V10 & V20). rewrite V10 in V1. rewrite V20 in V2.
  unfold translate. assert (seg_of c2 s = seg_of c s) as -> by (unfold seg_of; by rewrite V2).
  rewrite Ea, (exc_bind_done _ _ _ _ _ (segcheck_view c c2 s Hseg V1 V2)). unfold translate_laddr. rewrite get_bind, (paging_view c c2 V1), Hpg.
  pose proof (same_page_move la k ltac:(lia)) as Hpage. pose proof (mod_move la k ltac:(lia)) as Hmod. unfold inw in Hla.
  pose proof (Z.div_mod la 4096 ltac:(lia)) as Hdm. assert (0 <= la / 4096) by (apply Z.div_pos; lia).
  rewrite (same_page (la + k) la Hpage), (exc_bind_done _ _ _ _ _ (Hcache (la + k) c2 ltac:(unfold fr; by rewrite V3) ltac:(unfold fw; by rewrite V4))).
  rewrite land_4095, Hmod. destruct (Z.ltb_spec (0x1000 - size w) (la mod 4096 + k)); [lia|].
  rewrite (xor_move x la (la + k)) by (done || lia). unfold mret, Exc_ret. do 4 f_equal. lia.
Qed.

Lemma translate_leads rwm s addr w lvl c : pages_ok c -> rwm = 1 \/ rwm = 2 -> width_ok w ->
  leads (translate rwm s addr (size w) lvl) c (fun r c' => pages_ok c' /\ env c c' /\
    forall o, r = Some o -> translate rwm s addr (size w) lvl c' = Done (Some o, c') /\
      (misaligned w o = false -> exists p, o = ADDR_OK1 p /\ run_at rwm s addr w lvl p c')).
Proof.
  intros Hc Hr Hw. pose proof (size_pos w Hw) as Hsz. unfold leads, translate. set (la := u32 (base (seg_of c s) + addr)).
  pose proof (inw_u32 (base (seg_of c s) + addr)) as Hla. fold la in Hla.
  unfold segcheck at 1, mbind at 1, Exc_bind at 1. destruct (Z.testbit (cr0 c) 0 && null_selector (seg_of c s)) eqn:Hseg.
  { split; [by destruct Hc|]. split; [by split|done]. }
  unfold translate_laddr. rewrite get_bind. destruct (paging c) eqn:Hpg.
  - apply (leads_bind _ _ _ _ _ (fast_leads rwm (Z.shiftr la 12) la lvl c Hc (laddr_page _) Hr)); [|by intros c' (? & ? & _)].
    intros p1 c1 (H1 & E1 & x & Hx & -> & Hcache & _). destruct (xor_offset x la Hx Hla) as [Hp Hoff].
    rewrite land_4095. destruct (Z.ltb_spec (0x1000 - size w) (la mod 4096)) as [Hlt|Hge].
    + set (l2 := Z.shiftr la 12 + 1). assert (Hl2 : 0 <= l2 < NO_PAGE) by (pose proof (page_lt la Hla); unfold l2, NO_PAGE; lia).
      apply (leads_bind _ _ _ _ _ (fast_leads rwm l2 (u32 (Z.shiftl l2 12)) lvl c1 H1 Hl2 Hr)).
      * intros p2 c2 (H2 & E2 & x2 & Hx2 & -> & Hcache2 & Ho). assert (E12 : env c c2) by (by transitivity c1).
        destruct (env_back c c2 s E12) as (_ & V1 & V2). destruct (Ho (Z.shiftr la 12) ltac:(apply next_slot)) as [Ef Ew].
        split; [done|]. split; [done|]. intros o Eo. injection Eo as <-. split.
        -- apply (crossing_again rwm s addr w lvl c c2); try done. fold la. intros laddr c3 F3 W3. apply Hcache; congruence.
        -- unfold misaligned, addr1, nz. destruct (Z.eqb_spec (Z.lxor x la mod size w) 0) as [E|]; [|done].
           pose proof (aligned_room w _ Hw E). lia.
      * intros c2 (H2 & E2 & _). split; [done|]. split; [by transitivity c1|done].
    + split; [done|]. split; [done|]. intros o Eo. injection Eo as <-. destruct (env_back c c1 s E1) as (Es1 & _).
      pose proof (Z.mod_pos_bound la 4096 ltac:(lia)). split.
      { rewrite <- (Z.add_0_r (Z.lxor x la)). apply (inside_again rwm s w lvl c c1 c1 x la addr 0); try done; fold la; lia. }
      intros Hal. exists (Z.lxor x la). split; [done|]. split; [done|]. split; [lia|]. split; [rewrite Es1; by fold la|].
      intros a' k c2 Hv Ea Hk Hk'. rewrite Hoff in Hk, Hk'. rewrite Es1 in Ea. fold la in Ea.
      by apply (inside_again rwm s w lvl c c1 c2 x la a' k).
  - split; [done|]. split; [done|]. intros o Eo. injection Eo as <-.
    assert (Hagain : forall a' c2, same_view c c2 ->
      translate rwm s a' (size w) lvl c2 = Done (Some (ADDR_OK1 (u32 (base (seg_of c s) + a'))), c2)).
    { intros a' c2 (V1 & V2 & V3 & V4). unfold translate. assert (seg_of c2 s = seg_of c s) as -> by (unfold seg_of; by rewrite V2).
      rewrite (exc_bind_done _ _ _ _ _ (segcheck_view c c2 s Hseg V1 V2)). unfold translate_laddr. by rewrite get_bind, (paging_view c c2 V1), Hpg. }
    split; [by apply Hagain|]. intros Hal. exists la. split; [done|].
    pose proof (aligned_room w la Hw) as Hroom. unfold misaligned, addr1, nz in Hal. apply negb_false_iff, Z.eqb_eq in Hal.
    split; [done|]. split; [by apply Hroom|]. split; [done|]. intros a' k c2 Hv Ea Hk Hk'. rewrite (Hagain a' c2 Hv), Ea. done.
Qed.

(** ** Code that does not look at the general registers *)

Record reg_free {A} (m : ST (CPUI386 D) A) : Prop := {
  rf_changes : forall c a c', m c = Done (a, c') ->
    c' = c <| phys_mem := phys_mem c' |> <| dev := dev c' |> /\ alen (phys_mem c') = alen (phys_mem c);
  rf_gpr : forall c g, m (c <| gpr := g |>) = match m c with Done (a, c') => Done (a, c' <| gpr := g |>) | Stuck e => Stuck e end;
}.
Lemma free_bind {A B} (m : ST (CPUI386 D) A) (k : A -> ST (CPUI386 D) B) : reg_free m -> (forall a, reg_free (k a)) -> reg_free (m ≫= k).
Proof.
  intros [H1 G1] Hk. split.
  - intros c b c' E. apply st_bind_inv in E as (a & c1 & E1 & E2). destruct (H1 _ _ _ E1) as [E1' L1], (rf_changes _ (Hk a) _ _ _ E2) as [E2' L2].
    split; [|congruence]. etransitivity; [exact E2'|]. rewrite E1'. done.
  - intros c g. unfold mbind, ST_bind. rewrite G1. destruct (m c) as [[a c1]|]; [|done]. apply (rf_gpr _ (Hk a)).
Qed.
Lemma free_ret {A} (a : A) : reg_free (mret a).
Proof. split; [|done]. intros c b c' E. injection E as _ E. subst. by destruct c'. Qed.
Lemma free_stuck {A} e : reg_free (A := A) (lift (Stuck e)).
Proof. by split. Qed.
Lemma free_memory {A} (m : ST (CPUI386 D) A) : memory_only m ->
  (forall c g, m (c <| gpr := g |>) = match m c with Done (a, c') => Done (a, c' <| gpr := g |>) | Stuck e => Stuck e end) -> reg_free m.
Proof.
  intros Hm Hg. split; [|exact Hg]. intros c a c' E. destruct (Hm c a c' E) as [E' El]. split; [|exact El].
  rewrite E'. by destruct c.
Qed.
Lemma free_pload8 a : reg_free (pload8 a).
Proof. apply free_memory; [apply memory_pload8|]. intros c g. unfold pload8, lift. cbn [phys_mem set_field]. by destruct (rd (phys_mem c) a). Qed.
Lemma free_pstore8 a v : reg_free (pstore8 a v).
Proof. apply free_memory; [apply memory_pstore8|]. intros c g. unfold pstore8. cbn [phys_mem set_field]. by destruct (wr (phys_mem c) a (u8 v)). Qed.
Lemma free_device {A} (m : ST D A) : reg_free (device m).
Proof.
  split.
  - intros c a c' E. unfold device in E. destruct (m (dev c)) as [[b d]|]; [|done]. injection E as _ E. subst. split; [by destruct c|done].
  - intros c g. unfold device. cbn [dev set_field]. by destruct (m (dev c)) as [[? ?]|].
Qed.
Lemma free_guarded {A} a (cb : option (ST D A)) z (r : ST (CPUI386 D) A) : reg_free r -> reg_free (guarded a cb z r).
Proof.
  intros Hr. pose proof (free_ret z) as Hz. split.
  - intros c b c' E. unfold guarded in E.
    destruct cb as [m|]; [destruct (in_iomem a); [by apply (rf_changes _ (free_device m)) in E|]|];
      (destruct (phys_mem_size c <=? a); [by apply (rf_changes _ Hz) in E|by apply (rf_changes _ Hr) in E]).
  - intros c g. unfold guarded. change (phys_mem_size (c <| gpr := g |>)) with (phys_mem_size c).
    destruct cb as [m|]; [destruct (in_iomem a); [apply (rf_gpr _ (free_device m))|]|];
      (destruct (phys_mem_size c <=? a); [done|apply (rf_gpr _ Hr)]).
Qed.

Ltac free := repeat lazymatch goal with
  | |- reg_free (mbind _ _) => apply free_bind; [|intros ?]
  | |- reg_free (guarded _ _ _ _) => apply free_guarded
  | |- reg_free (pload8 _) => apply free_pload8
  | |- reg_free (pstore8 _ _) => apply free_pstore8
  | |- reg_free (mret _) => apply free_ret
  | |- reg_free (lift (Stuck _)) => apply free_stuck
  | |- reg_free (pstore16 _ _) => unfold pstore16
  | |- reg_free (pstore32 _ _) => unfold pstore32
  | |- reg_free (if ?b then _ else _) => destruct b
  end.
Lemma free_store n o v : reg_free (store n o v).
Proof. destruct n as [|[|[|n]]]; destruct o; cbn [store]; unfold store8, store16, store32; cbv zeta; free. Qed.
Lemma free_pstore w a v : reg_free (pstore_w w a v).
Proof. unfold pstore_w. free. Qed.
Lemma free_store_run n w d o v : reg_free (store_run n w d o v).
Proof. revert o. induction n as [|n IH]; intros o; cbn [store_run]; [apply free_ret|]. apply free_bind; [apply free_store|intros ?; apply IH]. Qed.
Lemma free_fill_ram n w a v : reg_free (fill_ram n w a v).
Proof. revert a. induction n as [|n IH]; intros a; cbn [fill_ram]; [apply free_ret|]. apply free_bind; [apply free_pstore|intros ?; apply IH]. Qed.

(** ** Counting registers *)

Definition aw_ok (aw : Z) : Prop := aw = 16 \/ aw = 32.
(** The low [aw] bits of [v] in [r]. *)
Definition merged (aw r v : Z) : Z := Z.lor (Z.land r (Z.lxor 0xffffffff (Z.ones aw))) (Z.land v (Z.ones aw)).
Lemma merged_bit aw r v j : 0 <= aw -> inw 32 r -> 0 <= j -> Z.testbit (merged aw r v) j = if j <? aw then Z.testbit v j else Z.testbit r j.
Proof.
  intros Ha Hr Hj. pose proof (merge_bit r v (Z.ones aw) 0 j Hj Hr) as E. rewrite !Z.shiftl_0_r, Z.sub_0_r in E.
  unfold merged. rewrite E, ones_bit by done. by rewrite (proj2 (Z.leb_le 0 j)) by done.
Qed.
Lemma inw_merged aw r v : aw_ok aw -> inw 32 r -> inw 32 (merged aw r v).
Proof.
  intros Ha Hr. apply inw_lor; [by apply inw_land_l|]. apply inw_land_r. destruct Ha as [-> | ->]; split; vm_compute; congruence.
Qed.
Lemma aw_pos aw : aw_ok aw -> 0 < aw <= 32.
Proof. unfold aw_ok. lia. Qed.
Lemma merged_ext aw r v v' : aw_ok aw -> inw 32 r -> v mod 2 ^ aw = v' mod 2 ^ aw -> merged aw r v = merged aw r v'.
Proof.
  intros Ha Hr E. pose proof (aw_pos aw Ha). apply Z.bits_inj'. intros j Hj. rewrite !merged_bit by (done || lia).
  destruct (Z.ltb_spec j aw); [|done]. rewrite <- (Z.mod_pow2_bits_low v aw), <- (Z.mod_pow2_bits_low v' aw) by lia. by rewrite E.
Qed.
Lemma merged_merged aw r v v' : aw_ok aw -> inw 32 r -> merged aw (merged aw r v') v = merged aw r v.
Proof.
  intros Ha Hr. pose proof (aw_pos aw Ha). apply Z.bits_inj'. intros j Hj.
  rewrite merged_bit by (done || lia || by apply inw_merged). rewrite !merged_bit by (done || lia). by destruct (j <? aw).
Qed.
Lemma merged_id aw r : aw_ok aw -> inw 32 r -> merged aw r (r mod 2 ^ aw) = r.
Proof.
  intros Ha Hr. pose proof (aw_pos aw Ha). apply Z.bits_inj'. intros j Hj. rewrite merged_bit by (done || lia).
  destruct (Z.ltb_spec j aw); [|done]. by rewrite Z.mod_pow2_bits_low by lia.
Qed.
Lemma merged_mod aw r v : aw_ok aw -> inw 32 r -> merged aw r v mod 2 ^ aw = v mod 2 ^ aw.
Proof.
  intros Ha Hr. pose proof (aw_pos aw Ha). apply Z.bits_inj'. intros j Hj. destruct (Z.lt_ge_cases j aw).
  - rewrite !Z.mod_pow2_bits_low, merged_bit by (done || lia). by destruct (Z.ltb_spec j aw); [|lia].
  - by rewrite !Z.mod_pow2_bits_high by lia.
Qed.

Lemma sreg_merged aw i v c : aw_ok aw -> sreg aw i v c = set_REGi i (merged aw (REGi c i) v) c.
Proof. by intros [-> | ->]. Qed.
Lemma lreg_mod aw i c : aw_ok aw -> lreg aw i c = REGi c i mod 2 ^ aw.
Proof. by intros [-> | ->]. Qed.

(** [n] elements done: the count is [n] less and register [i] has moved. *)
Definition advance (aw i n d : Z) c : CPUI386 D := sreg aw 1 (lreg aw 1 c - n) (sreg aw i (lreg aw i c + n * d) c).
Definition advanced (aw i n d : Z) (g : list Z) : list Z :=
  let g1 := arr_set g i (merged aw (arr g i) (arr g i mod 2 ^ aw + n * d)) in
  arr_set g1 1 (merged aw (arr g1 1) (arr g 1 mod 2 ^ aw - n)).
Lemma advance_gpr aw i n d c : aw_ok aw -> advance aw i n d c = c <| gpr := advanced aw i n d (gpr c) |>.
Proof. intros Ha. unfold advance. rewrite !sreg_merged, !lreg_mod by done. done. Qed.

Definition words (g : list Z) : Prop := alen g = 8 /\ forall i, 0 <= i < 8 -> inw 32 (arr g i).
Lemma regs_words c : regs_ok c <-> words (gpr c).
Proof. split; [intros [? ?]; by split|intros [? ?]; by constructor]. Qed.
Lemma words_set g i v : words g -> 0 <= i < 8 -> inw 32 v -> words (arr_set g i v).
Proof.
  intros [Hl Hw] Hi Hv. split; [by rewrite alen_set|]. intros j Hj. destruct (decide (j = i)) as [->|]; [by rewrite arr_set_eq by lia|].
  rewrite arr_set_ne by (done || lia). by apply Hw.
Qed.

(** The registers after [n] elements, one by one. *)
Lemma advanced_at aw i n d g j : aw_ok aw -> words g -> 1 < i < 8 -> 0 <= j < 8 ->
  arr (advanced aw i n d g) j =
    if decide (j = 1) then merged aw (arr g 1) (arr g 1 mod 2 ^ aw - n)
    else if decide (j = i) then merged aw (arr g i) (arr g i mod 2 ^ aw + n * d) else arr g j.
Proof.
  intros Ha [Hl Hw] Hi Hj. unfold advanced. destruct (decide (j = 1)) as [->|Hn].
  - rewrite arr_set_eq by (rewrite alen_set; lia). by rewrite arr_set_ne by lia.
  - rewrite arr_set_ne by (done || lia). destruct (decide (j = i)) as [->|]; [by rewrite arr_set_eq by lia|by rewrite arr_set_ne by (done || lia)].
Qed.
Lemma words_advanced aw i n d g : aw_ok aw -> words g -> 1 < i < 8 -> words (advanced aw i n d g).
Proof.
  intros Ha Hg Hi. pose proof Hg as [Hl Hw]. split; [unfold advanced; by rewrite !alen_set|]. intros j Hj. rewrite advanced_at by done.
  destruct (decide (j = 1)); [by apply inw_merged, Hw|]. destruct (decide (j = i)); [apply inw_merged; [done|apply Hw; lia]|by apply Hw].
Qed.
Lemma list_ext (l l' : list Z) : alen l = alen l' -> (forall i, 0 <= i < alen l -> arr l i = arr l' i) -> l = l'.
Proof.
  intros Hl He. unfold alen in *. apply list_eq_same_length with (length l); [lia|lia|]. intros i x y Hi Hx Hy.
  specialize (He (Z.of_nat i) ltac:(lia)). unfold arr in He. rewrite Nat2Z.id in He.
  by rewrite (list_lookup_total_correct _ _ _ Hx), (list_lookup_total_correct _ _ _ Hy) in He.
Qed.
Lemma advanced_add aw i n m d g : aw_ok aw -> words g -> 1 < i < 8 ->
  advanced aw i n d (advanced aw i m d g) = advanced aw i (m + n) d g.
Proof.
  intros Ha Hg Hi. pose proof (words_advanced aw i m d g Ha Hg Hi) as Hg'. pose proof Hg as [Hl Hw].
  apply list_ext; [unfold advanced; by rewrite !alen_set|]. intros j Hj.
  assert (Hj8 : 0 <= j < 8) by (unfold advanced in Hj; rewrite !alen_set in Hj; lia).
  rewrite (advanced_at _ _ n) by done. rewrite !(advanced_at _ _ m), (advanced_at _ _ (m + n)) by (done || lia).
  rewrite (decide_True (P := 1 = 1)), (decide_False (P := i = 1)), (decide_True (P := i = i)) by lia.
  destruct (decide (j = 1)); [|destruct (decide (j = i)); [|done]]; rewrite merged_merged, merged_mod by (done || apply Hw; lia);
    apply merged_ext; try done; try (apply Hw; lia).
  - rewrite Zminus_mod_idemp_l. f_equal. lia.
  - rewrite Zplus_mod_idemp_l. f_equal. lia.
Qed.
Lemma advanced_0 aw i d g : aw_ok aw -> words g -> 1 < i < 8 -> advanced aw i 0 d g = g.
Proof.
  intros Ha Hg Hi. pose proof Hg as [Hl Hw]. apply list_ext; [unfold advanced; by rewrite !alen_set|]. intros j Hj.
  assert (Hj8 : 0 <= j < 8) by (unfold advanced in Hj; rewrite !alen_set in Hj; lia). rewrite advanced_at by done.
  rewrite Z.sub_0_r, Z.mul_0_l, Z.add_0_r.
  destruct (decide (j = 1)) as [->|]; [|destruct (decide (j = i)) as [->|]; [|done]]; apply merged_id; try done; apply Hw; lia.
Qed.

(** ** A run is its elements *)

(** The index register does not wrap within [n] elements. *)
Definition straight (aw di d n : Z) : Prop := aw = 32 \/ forall i, 0 <= i < n -> 0 <= di + i * d < 2 ^ 16.

Lemma same_view_step c0 c aw i n d m dv : aw_ok aw -> same_view c0 c ->
  same_view c0 (advance aw i n d (c <| phys_mem := m |> <| dev := dv |>)).
Proof. intros Ha Hv. by rewrite advance_gpr. Qed.

Lemma advance_after aw i n d c c' : aw_ok aw -> regs_ok c -> 1 < i < 8 -> gpr c' = gpr c ->
  advance aw i n d (c' <| gpr := gpr (advance aw i 1 d c) |>) = advance aw i (1 + n) d c'.
Proof.
  intros Ha Hc Hi E. apply regs_words in Hc. rewrite !advance_gpr by done. cbn [gpr set_field]. rewrite E, advanced_add by done. done.
Qed.

Lemma next_position aw b di d la k n : aw_ok aw -> 0 <= di < 2 ^ aw -> straight aw di d (Z.of_nat (S (S n))) ->
  u32 (b + di) = la + k -> inw 32 (la + k + d) -> u32 (b + (di + d) mod 2 ^ aw) = la + k + d.
Proof.
  intros Ha Hdi Hs E Hin. assert (E' : u32 (b + (di + d) mod 2 ^ aw) = u32 (b + di + d)).
  { destruct Hs as [-> |Hs]; [unfold u32; rewrite Z.add_mod_idemp_r by done; f_equal; lia|].
    specialize (Hs 1 ltac:(lia)). rewrite Z.mod_small; [f_equal; lia|]. destruct Ha as [-> | ->]; lia. }
  rewrite E', <- (u32_id (la + k + d) Hin), <- E. unfold u32. by rewrite Z.add_mod_idemp_l by done.
Qed.

Lemma straight_next aw di d n : aw_ok aw -> straight aw di d (1 + n) -> straight aw ((di + d) mod 2 ^ aw) d n.
Proof.
  intros Ha [Hs|Hs]; [by left|]. destruct Ha as [-> | ->]; [right|by left]. intros i Hi. rewrite (Z.mod_small (di + d)).
  - specialize (Hs (1 + i) ltac:(lia)). lia.
  - specialize (Hs 1 ltac:(lia)). lia.
Qed.
Lemma advanced_index aw i n d c c' : aw_ok aw -> regs_ok c -> 1 < i < 8 -> gpr c' = advanced aw i n d (gpr c) ->
  lreg aw i c' = (lreg aw i c + n * d) mod 2 ^ aw /\ lreg aw 1 c' = (lreg aw 1 c - n) mod 2 ^ aw.
Proof.
  intros Ha Hc Hi E. apply regs_words in Hc. pose proof Hc as [_ Hw]. rewrite !lreg_mod by done. unfold REGi. rewrite E, !advanced_at by (done || lia).
  rewrite (decide_True (P := 1 = 1)), (decide_False (P := i = 1)), (decide_True (P := i = i)) by lia.
  rewrite !merged_mod by (done || apply Hw; lia). done.
Qed.
Lemma lreg_range aw i c : aw_ok aw -> 0 <= lreg aw i c < 2 ^ aw.
Proof. intros Ha. rewrite lreg_mod by done. apply Z.mod_pos_bound. apply pow2_pos. pose proof (aw_pos aw Ha). lia. Qed.
Lemma straight_after aw di d n m : aw_ok aw -> 0 <= n -> straight aw di d m -> n < m -> straight aw ((di + n * d) mod 2 ^ aw) d (m - n).
Proof.
  intros Ha Hn [Hs|Hs] Hm; [by left|]. destruct Ha as [-> | ->]; [right|by left]. intros i Hi. rewrite (Z.mod_small (di + n * d)).
  - specialize (Hs (n + i) ltac:(lia)). lia.
  - specialize (Hs n ltac:(lia)). lia.
Qed.
Lemma count_unmoved aw i v c : aw_ok aw -> regs_ok c -> 1 < i < 8 -> lreg aw 1 (sreg aw i v c) = lreg aw 1 c.
Proof.
  intros Ha Hc Hi. rewrite sreg_merged, !lreg_mod by done. f_equal. rewrite REGi_set by (done || lia || apply Hc).
  by rewrite decide_False by lia.
Qed.
Lemma exc_step {A B} (m : Exc (CPUI386 D) A) (k : A -> Exc (CPUI386 D) B) c :
  (m ≫= k) c = match m c with Done (Some a, c') => k a c' | Done (None, c') => Done (None, c') | Stuck e => Stuck e end.
Proof. done. Qed.
Lemma counted_step aw i d c : aw_ok aw -> regs_ok c -> 1 < i < 8 ->
  (_ ← step_reg aw i d; step_reg aw 1 (-1)) c = Done (Some tt, advance aw i 1 d c).
Proof.
  intros Ha Hc Hi. rewrite exc_step. unfold step_reg at 1, put, ok, modify. unfold step_reg, put, ok, modify, advance.
  rewrite count_unmoved, Z.mul_1_l by done. done.
Qed.
Lemma element_hit w aw ax d o c : aw_ok aw -> regs_ok c -> translate_w w 2 SEG_ES (lreg aw 7) c = Done (Some o, c) ->
  counted aw (stdi w aw ax d) c =
    match store_w w o ax c with Done (_, c1) => Done (Some tt, advance aw 7 1 d c1) | Stuck e => Stuck e end.
Proof.
  intros Ha Hc Et. unfold counted, stdi. rewrite exc_step, exc_step, Et, exc_step. unfold ok at 1.
  destruct (store_w w o ax c) as [[u c1]|] eqn:Est; [|done].
  destruct (rf_changes _ (free_store _ _ _) _ _ _ Est) as [E1 _]. assert (Hc1 : regs_ok c1) by (rewrite E1; by apply regs_words in Hc; apply regs_words).
  rewrite <- (counted_step aw 7 d c1) by (done || lia). done.
Qed.

Lemma run_elements w aw ax d a lvl p c0 : width_ok w -> aw_ok aw -> Z.abs d = size w -> run_at 2 SEG_ES a w lvl p c0 ->
  forall n c k, regs_ok c -> same_view c0 c -> cpl c = lvl -> straight aw (lreg aw 7 c) d (Z.of_nat n) ->
  u32 (base (seg_of c0 SEG_ES) + lreg aw 7 c) = u32 (base (seg_of c0 SEG_ES) + a) + k ->
  (forall i, 0 <= i < Z.of_nat n -> 0 <= p mod 4096 + k + i * d /\ p mod 4096 + k + i * d + size w <= 4096) ->
  rep_n n (counted aw (stdi w aw ax d)) c =
    match store_run n w d (ADDR_OK1 (p + k)) ax c with
    | Done (_, c') => Done (Some tt, advance aw 7 (Z.of_nat n) d c')
    | Stuck e => Stuck e
    end.
Proof.
  intros Hw Ha Hd (Hp & _ & Hoff & Hrun). induction n as [|n IH]; intros c k Hc Hv Hl Hs Hpos Hin.
  - cbn [rep_n store_run]. unfold mret, Exc_ret, ST_ret. change (Z.of_nat 0) with 0. rewrite advance_gpr by done. apply regs_words in Hc.
    rewrite advanced_0 by (done || lia). by destruct c.
  - cbn [rep_n store_run]. destruct (Hin 0 ltac:(lia)) as [H0 H0']. rewrite Z.mul_0_l, Z.add_0_r in H0, H0'.
    assert (Et : translate_w w 2 SEG_ES (lreg aw 7) c = Done (Some (ADDR_OK1 (p + k)), c)).
    { unfold translate_w. rewrite Hl. apply Hrun; done || lia. }
    rewrite exc_step, (element_hit _ _ _ _ _ _ Ha Hc Et). unfold mbind at 1, ST_bind at 1.
    pose proof (free_store (Z.to_nat (size w)) (ADDR_OK1 (p + k)) ax) as Hfree. fold (store_w w (ADDR_OK1 (p + k)) ax) in Hfree.
    destruct (store_w w (ADDR_OK1 (p + k)) ax c) as [[u c1]|] eqn:Est; [|done].
    destruct (rf_changes _ Hfree _ _ _ Est) as [E1 _]. assert (Eg : gpr c1 = gpr c) by (by rewrite E1).
    assert (Hc1 : regs_ok c1) by (apply regs_words; rewrite Eg; by apply regs_words).
    set (c2 := advance aw 7 1 d c1). assert (Eg2 : gpr c2 = advanced aw 7 1 d (gpr c)) by (unfold c2; by rewrite advance_gpr, <- Eg).
    destruct n as [|n].
    { cbn [rep_n store_run]. unfold mret, Exc_ret, ST_ret. by fold c2. }
    destruct (advanced_index aw 7 1 d c c2 Ha Hc ltac:(lia) Eg2) as [Edi _]. rewrite Z.mul_1_l in Edi.
    destruct (Hin 1 ltac:(lia)) as [H1 H1']. rewrite Z.mul_1_l in H1, H1'. pose proof (size_pos w Hw) as Hsz.
    set (la := u32 (base (seg_of c0 SEG_ES) + a)) in *. assert (Hla : inw 32 la) by apply inw_u32.
    assert (Hnext : forall x, inw 32 x -> x mod 4096 = p mod 4096 -> inw 32 (x + (k + d))).
    { intros x Hx Ex. unfold inw in *. pose proof (Z.div_mod x 4096 ltac:(lia)).
      assert (0 <= x / 4096 < 2 ^ 20) by (split; [apply Z.div_pos|apply Z.div_lt_upper_bound]; lia). lia. }
    rewrite (IH c2 (k + d)); first last.
    { intros i Hi. specialize (Hin (1 + i) ltac:(lia)). lia. }
    { rewrite Edi. rewrite Z.add_assoc. apply (next_position aw _ _ _ _ _ n); try done; [by apply lreg_range|].
      rewrite <- Z.add_assoc. by apply Hnext. }
    { rewrite Edi. apply straight_next; [done|]. by replace (1 + Z.of_nat (S n)) with (Z.of_nat (S (S n))) by lia. }
    { unfold c2. rewrite advance_gpr by done. by rewrite E1. }
    { unfold c2. rewrite advance_gpr by done. by rewrite E1. }
    { apply regs_words. rewrite Eg2. apply words_advanced; [done|by apply regs_words|lia]. }
    assert (Emove : move_addr d (ADDR_OK1 (p + k)) = ADDR_OK1 (p + (k + d))).
    { unfold move_addr. rewrite <- Z.add_assoc, u32_id; [done|by apply Hnext]. }
    rewrite Emove. assert (Ec2 : c2 = c1 <| gpr := gpr c2 |>) by (unfold c2; by rewrite advance_gpr). rewrite Ec2.
    rewrite (rf_gpr _ (free_store_run (S n) w d (ADDR_OK1 (p + (k + d))) ax)).
    cbn [snd]. destruct (store_run (S n) w d (ADDR_OK1 (p + (k + d))) ax c1) as [[v c3]|] eqn:E3; [|done].
    destruct (rf_changes _ (free_store_run _ _ _ _ _) _ _ _ E3) as [E3' _].
    unfold c2. rewrite (advance_after aw 7 (Z.of_nat (S n)) d c1 c3) by (done || by rewrite E3').
    do 4 f_equal. lia.
Qed.

(** ** The bulk store *)

Lemma ram_store w x v c : width_ok w -> in_iomem x = false -> x < phys_mem_size c -> store_w w (ADDR_OK1 x) v c = pstore_w w x v c.
Proof.
  intros Hw Hio Hx. assert (Hs : (phys_mem_size c <=? x) = false) by (by apply Z.leb_gt).
  destruct Hw as [-> |[-> | ->]]; apply guarded_ram; done.
Qed.
Lemma fill_ram_run w v : width_ok w -> forall n a c,
  (forall i, 0 <= i < Z.of_nat n -> in_iomem (a + i * size w) = false /\ a + i * size w < phys_mem_size c /\ inw 32 (a + i * size w)) ->
  fill_ram n w a v c = store_run n w (size w) (ADDR_OK1 a) v c.
Proof.
  intros Hw. induction n as [|n IH]; intros a c Hin; cbn [fill_ram store_run]; [done|].
  destruct (Hin 0 ltac:(lia)) as (Hio & Hx & _). rewrite Z.mul_0_l, Z.add_0_r in Hio, Hx.
  unfold mbind, ST_bind. rewrite (ram_store w a v c Hw Hio Hx). destruct (pstore_w w a v c) as [[u c1]|] eqn:E; [|done]. cbn [fst snd].
  destruct (rf_changes _ (free_pstore w a v) _ _ _ E) as [_ El]. destruct n as [|n]; [done|].
  assert (Hm : move_addr (size w) (ADDR_OK1 a) = ADDR_OK1 (a + size w)).
  { unfold move_addr. destruct (Hin 1 ltac:(lia)) as (_ & _ & H1). rewrite Z.mul_1_l in H1. by rewrite u32_id. }
  rewrite Hm. apply IH. intros i Hi. specialize (Hin (1 + i) ltac:(lia)). unfold phys_mem_size in *. rewrite El.
  by replace (a + size w + i * size w) with (a + (1 + i) * size w) by lia.
Qed.
Lemma iomem_between a x e : a <= x <= e -> e - a < 0x20000 -> in_iomem a = false -> in_iomem e = false -> in_iomem x = false.
Proof.
  unfold in_iomem. intros Hx He. destruct (Z.ltb_spec a 0xa0000), (Z.ltb_spec e 0xa0000), (Z.ltb_spec x 0xa0000); try done; try lia;
    destruct (Z.ltb_spec a 0xc0000), (Z.ltb_spec e 0xc0000), (Z.ltb_spec x 0xc0000); cbn [orb]; try done; try lia;
    destruct (Z.leb_spec 0xe0000000 a), (Z.leb_spec 0xe0000000 e), (Z.leb_spec 0xe0000000 x); try done; lia.
Qed.
Lemma ram_elements p w n c : width_ok w -> inw 32 p -> 0 < n -> p mod 4096 + n * size w <= 4096 ->
  NORMAL_RAM_RANGE p (n * size w) c = true ->
  forall i, 0 <= i < n -> in_iomem (p + i * size w) = false /\ p + i * size w < phys_mem_size c /\ inw 32 (p + i * size w).
Proof.
  intros Hw Hp Hn Hroom Hr i Hi. pose proof (size_pos w Hw) as Hs. unfold NORMAL_RAM_RANGE in Hr.
  rewrite !andb_true_iff, !negb_true_iff in Hr. destruct Hr as ((((_ & H1) & H2) & H3) & H4). apply Z.ltb_lt in H1. apply Z.leb_le in H2.
  assert (i * size w + size w <= n * size w) by nia. assert (0 <= i * size w) by nia.
  assert (Hend : inw 32 (p + n * size w - 1)).
  { unfold inw in *. pose proof (Z.div_mod p 4096 ltac:(lia)). assert (0 <= p / 4096 < 2 ^ 20) by (split; [apply Z.div_pos|apply Z.div_lt_upper_bound]; lia). lia. }
  rewrite u32_id in H4 by done. split; [|split; [lia|unfold inw in *; lia]].
  pose proof (Z.mod_pos_bound p 4096 ltac:(lia)). apply (iomem_between p _ (p + n * size w - 1)); try done; lia.
Qed.

(** ** One chunk *)

Lemma room_up w p n : width_ok w -> p mod 4096 + size w <= 4096 -> n <= page_room w (size w) p ->
  1 <= page_room w (size w) p /\ p mod 4096 + n * size w <= 4096.
Proof.
  intros Hw Hr. unfold page_room. rewrite land_4095.
  destruct Hw as [-> |[-> | ->]]; [change (size 8) with 1 in *|change (size 16) with 2 in *|change (size 32) with 4 in *];
    cbn [Z.ltb Z.compare]; intros; Z.to_euclidean_division_equations; lia.
Qed.
Lemma room_down w p n : width_ok w -> n <= page_room w (- size w) p ->
  1 <= page_room w (- size w) p /\ forall i, 0 <= i < n -> 0 <= p mod 4096 - i * size w.
Proof.
  intros Hw. unfold page_room. rewrite land_4095. pose proof (size_pos w Hw) as Hs.
  destruct (Z.ltb_spec 0 (- size w)); [lia|]. pose proof (Z.mod_pos_bound p 4096 ltac:(lia)) as Hp.
  pose proof (Z.div_pos (p mod 4096) (size w) ltac:(lia) Hs). pose proof (Z.mul_div_le (p mod 4096) (size w) Hs). intros Hn.
  split; [lia|]. intros i Hi. nia.
Qed.
Lemma limit_range n c : 1 <= n -> 1 <= NSPIRE_LIMIT_REP_COUNT n c <= n.
Proof. unfold NSPIRE_LIMIT_REP_COUNT, REP_SLICE. intros Hn. destruct (rep_yield c); cbn [andb]; [|lia]. destruct (Z.ltb_spec 16384 n); lia. Qed.

(** The elements of a chunk stay in the page. *)
Lemma run_in_page w d p n : width_ok w -> Z.abs d = size w -> p mod 4096 + size w <= 4096 -> n <= page_room w d p ->
  1 <= page_room w d p /\ (forall i, 0 <= i < n -> 0 <= p mod 4096 + i * d /\ p mod 4096 + i * d + size w <= 4096) /\
  (0 < d -> d = size w /\ p mod 4096 + n * size w <= 4096).
Proof.
  intros Hw Hd Hr Hn. pose proof (size_pos w Hw) as Hs. pose proof (Z.mod_pos_bound p 4096 ltac:(lia)).
  assert (d = size w \/ d = - size w) as [-> | ->] by lia.
  - destruct (room_up w p n Hw Hr Hn) as [H1 H2]. split; [done|]. split; [|done]. intros i Hi. nia.
  - destruct (room_down w p n Hw Hn) as [H1 H2]. split; [done|]. split; [|lia]. intros i Hi. specialize (H2 i Hi). nia.
Qed.

Lemma chunk_done_advance aw i cx n d c : aw_ok aw -> regs_ok c -> 1 < i < 8 -> lreg aw 1 c = cx ->
  chunk_done aw cx n [(i, d)] c = Done (Some false, advance aw i n d c).
Proof.
  intros Ha Hc Hi <-. unfold chunk_done. rewrite put_bind, put_bind. cbn [fold_left]. unfold mret, Exc_ret. do 3 f_equal.
Qed.
Lemma straight_less aw di d n m : straight aw di d n -> m <= n -> straight aw di d m.
Proof. intros [->|Hs] Hm; [by left|right]. intros i Hi. apply Hs. lia. Qed.

Definition ready c : Prop := pages_ok c /\ regs_ok c.
Section Stos.
Variables (w aw ax d : Z).
Hypotheses (Hw : width_ok w) (Ha : aw_ok aw) (Hd : Z.abs d = size w).
(** The element of REP STOS, with its count. *)
Definition stos_element : Exc (CPUI386 D) unit := counted aw (stdi w aw ax d).

Lemma env_facts c c1 : env c c1 -> gpr c1 = gpr c /\ cpl c1 = cpl c /\ rep_yield c1 = rep_yield c /\ seg_of c1 SEG_ES = seg_of c SEG_ES.
Proof. intros [E1 _]. unfold seg_of. by rewrite E1. Qed.
Lemma regs_gpr c c1 : gpr c1 = gpr c -> regs_ok c -> regs_ok c1.
Proof. intros E Hc. apply regs_words. rewrite E. by apply regs_words. Qed.
Lemma lreg_gpr c c1 i : gpr c1 = gpr c -> lreg aw i c1 = lreg aw i c.
Proof. intros E. rewrite !lreg_mod by done. unfold REGi. by rewrite E. Qed.

(** What an element leaves. *)
Lemma element_leads c : ready c -> leads stos_element c (fun r c' => ready c' /\ rep_yield c' = rep_yield c /\
  (is_Some r -> gpr c' = advanced aw 7 1 d (gpr c))).
Proof.
  intros [Hp Hc]. unfold stos_element, counted, stdi. apply (leads_bind _ _ _ (fun r c' => ready c' /\ rep_yield c' = rep_yield c /\
    (is_Some r -> gpr c' = gpr (sreg aw 7 (lreg aw 7 c + d) c)))).
  - apply (leads_bind _ _ _ _ _ (translate_leads 2 SEG_ES (lreg aw 7 c) w (cpl c) c Hp ltac:(by right) Hw)).
    + intros o c1 (H1 & E1 & _). destruct (env_facts c c1 E1) as (Eg & _ & Ey & _). unfold leads. rewrite exc_step. unfold ok.
      destruct (store_w w o ax c1) as [[u c2]|] eqn:Es; [|done]. destruct (rf_changes _ (free_store _ _ _) _ _ _ Es) as [E2 _].
      assert (Eg2 : gpr c2 = gpr c) by (rewrite <- Eg; by rewrite E2). unfold step_reg, put, ok, modify. rewrite (lreg_gpr c c2) by done.
      assert (Hp2 : pages_ok c2) by (rewrite E2; by destruct H1). rewrite !sreg_merged by done. unfold REGi. rewrite Eg2.
      pose proof (proj1 (regs_words c) Hc) as Hwd. assert (Hwd' := words_set (gpr c) 7 (merged aw (arr (gpr c) 7) (lreg aw 7 c + d)) Hwd ltac:(lia)
        ltac:(apply inw_merged; [done|apply Hwd; lia])).
      split; [split; [by destruct Hp2|apply regs_words; cbn; by rewrite Eg2]|].
      split; [cbn; rewrite <- Ey; by rewrite E2|]. intros _. cbn. by rewrite Eg2.
    + intros c1 (H1 & E1 & _). destruct (env_facts c c1 E1) as (Eg & _ & Ey & _). split; [split; [done|by apply (regs_gpr c)]|].
      split; [done|by intros []].
  - intros [] c1 ((Hp1 & Hc1) & Ey & Eg). specialize (Eg ltac:(by eexists)). unfold leads, step_reg, put, ok, modify.
    rewrite sreg_merged, !lreg_mod by done. pose proof (proj1 (regs_words c1) Hc1) as Hwd.
    assert (Hwd' := words_set (gpr c1) 1 (merged aw (arr (gpr c1) 1) (arr (gpr c1) 1 mod 2 ^ aw + -1)) Hwd ltac:(lia)
        ltac:(apply inw_merged; [done|apply Hwd; lia])).
    split; [split; [by destruct Hp1|by apply regs_words]|]. split; [done|]. intros _.
    unfold set_REGi, REGi. cbn [gpr set_field]. rewrite Eg, sreg_merged by done. unfold set_REGi, REGi. cbn [gpr set_field].
    unfold advanced. rewrite lreg_mod, Z.mul_1_l by done. unfold REGi. destruct (proj1 (regs_words c) Hc) as [Hl _].
    rewrite (arr_set_ne (gpr c) 7 1) by lia. done.
  - intros c1 (? & ? & _). split; [done|]. split; [done|by intros []].
Qed.

Lemma elements_lead n : forall c, ready c -> leads (rep_n n stos_element) c (fun r c' => ready c' /\ rep_yield c' = rep_yield c /\
  (is_Some r -> gpr c' = advanced aw 7 (Z.of_nat n) d (gpr c))).
Proof.
  induction n as [|n IH]; intros c Hc; cbn [rep_n].
  - split; [done|]. split; [done|]. intros _. rewrite advanced_0; [done|done|apply regs_words, Hc|lia].
  - apply (leads_bind _ _ _ _ _ (element_leads c Hc)).
    + intros [] c1 (H1 & Ey & Eg). specialize (Eg ltac:(by eexists)). specialize (IH c1 H1). unfold leads in *.
      destruct (rep_n n stos_element c1) as [[r c2]|]; [|done]. destruct IH as (H2 & Ey2 & Eg2). split; [done|]. split; [congruence|].
      intros Hr. rewrite (Eg2 Hr), Eg, advanced_add; [f_equal; lia|done|apply regs_words, Hc|lia].
    + intros c1 (? & ? & _). split; [done|]. split; [done|by intros []].
Qed.

Lemma rep_n_app n m (body : Exc (CPUI386 D) unit) c : rep_n (n + m) body c = (_ ← rep_n n body; rep_n m body) c.
Proof.
  revert c. induction n as [|n IH]; intros c; cbn [rep_n Nat.add]; [done|]. rewrite !exc_step.
  destruct (body c) as [[[u|] c1]|]; [|done|done]. by rewrite IH.
Qed.

Lemma element_restart o c c1 : translate_w w 2 SEG_ES (lreg aw 7) c = Done (Some o, c1) ->
  translate_w w 2 SEG_ES (lreg aw 7) c1 = Done (Some o, c1) -> stos_element c = stos_element c1.
Proof. intros E E1. unfold stos_element, counted, stdi. rewrite !exc_step, E, E1. done. Qed.

Definition elements (n : nat) (b : bool) : Exc (CPUI386 D) bool := _ ← rep_n n stos_element; mret b.

(** The rest of the fast path, behind a translation that hits. *)
Definition fast_path (o : OptAddr) (cx : Z) : Exc (CPUI386 D) bool :=
  count ← get (NSPIRE_LIMIT_REP_COUNT (Z.min cx (page_room w d (addr1 o))));
  bulk ← get (fun c => (0 <? d) && nspire_bulk_rep_stos c && NORMAL_RAM_RANGE (addr1 o) (count * size w) c);
  _ ← ok (if bulk : bool then fill_ram (Z.to_nat count) w (addr1 o) ax else store_run (Z.to_nat count) w d o ax);
  chunk_done aw cx count [(7, d)].

Lemma fast_elements a p c : ready c -> lreg aw 7 c = a -> run_at 2 SEG_ES a w (cpl c) p c -> 0 < lreg aw 1 c ->
  straight aw a d (lreg aw 1 c) -> exists n, (0 < n)%nat /\ Z.of_nat n <= lreg aw 1 c /\
    fast_path (ADDR_OK1 p) (lreg aw 1 c) c = elements n false c.
Proof.
  intros [Hp Hc] Ea Hrun Hcx Hst. pose proof Hrun as (Hin & Hroom & _). set (cx := lreg aw 1 c) in *.
  set (m := Z.min cx (page_room w d p)). destruct (run_in_page w d p m Hw Hd Hroom ltac:(lia)) as (Hpr & Hpage & Hup).
  pose proof (limit_range m c ltac:(lia)) as Hlim. set (n := NSPIRE_LIMIT_REP_COUNT m c) in *. exists (Z.to_nat n).
  split; [lia|]. split; [lia|]. unfold fast_path. rewrite get_bind. cbn [addr1]. fold m n. rewrite get_bind.
  assert (Erun : rep_n (Z.to_nat n) stos_element c = match store_run (Z.to_nat n) w d (ADDR_OK1 p) ax c with
    | Done (_, c') => Done (Some tt, advance aw 7 (Z.of_nat (Z.to_nat n)) d c') | Stuck e => Stuck e end).
  { rewrite <- (Z.add_0_r p). apply (run_elements w aw ax d a (cpl c) p c Hw Ha Hd Hrun); try done.
    - rewrite Ea. apply (straight_less aw a d cx); [done|lia].
    - rewrite Ea. lia.
    - intros i Hi. rewrite Z.add_0_r. apply Hpage. lia. }
  unfold elements. rewrite exc_step, (exc_step (rep_n _ _)), Erun.
  assert (Eb : (if (0 <? d) && nspire_bulk_rep_stos c && NORMAL_RAM_RANGE p (n * size w) c then fill_ram (Z.to_nat n) w p ax
                else store_run (Z.to_nat n) w d (ADDR_OK1 p) ax) c = store_run (Z.to_nat n) w d (ADDR_OK1 p) ax c).
  { destruct ((0 <? d) && nspire_bulk_rep_stos c && NORMAL_RAM_RANGE p (n * size w) c) eqn:Eb; [|done].
    apply andb_true_iff in Eb as [Eb Hram]. apply andb_true_iff in Eb as [Hpos _]. apply Z.ltb_lt in Hpos. destruct (Hup Hpos) as [-> Hup'].
    apply fill_ram_run; [done|]. pose proof (size_pos w Hw) as Hs. rewrite Z2Nat.id by lia. apply ram_elements; try done; nia. }
  unfold ok. rewrite Eb. destruct (store_run (Z.to_nat n) w d (ADDR_OK1 p) ax c) as [[u c2]|] eqn:E2; [|done].
  destruct (rf_changes _ (free_store_run _ _ _ _ _) _ _ _ E2) as [E2' _]. assert (Eg : gpr c2 = gpr c) by (by rewrite E2').
  rewrite chunk_done_advance; [|done|by apply (regs_gpr c)|lia|by rewrite (lreg_gpr c c2)]. rewrite Z2Nat.id by lia. done.
Qed.

Lemma chunk_elements c : ready c -> 0 < lreg aw 1 c -> straight aw (lreg aw 7 c) d (lreg aw 1 c) ->
  exists n b, (0 < n)%nat /\ Z.of_nat n <= lreg aw 1 c /\
    stos_chunk w aw ax d (lreg aw 1 c) c = elements n b c /\
    (b = true -> Z.of_nat n = NSPIRE_LIMIT_REP_COUNT (lreg aw 1 c) c).
Proof.
  intros [Hp Hc] Hcx Hst. set (cx := lreg aw 1 c) in *.
  pose proof (translate_leads 2 SEG_ES (lreg aw 7 c) w (cpl c) c Hp ltac:(by right) Hw) as Ht. unfold leads in Ht.
  unfold stos_chunk. rewrite exc_step. unfold translate_w at 1.
  destruct (translate 2 SEG_ES (lreg aw 7 c) (size w) (cpl c) c) as [[[o|] c1]|e] eqn:Et; [|exists 1%nat, false..].
  2, 3: split; [lia|split; [lia|split; [|done]]]; unfold elements; cbn [rep_n]; rewrite !exc_step; unfold stos_element, counted, stdi;
      rewrite !exc_step; unfold translate_w; by rewrite Et.
  destruct Ht as (H1 & E1 & Ho). destruct (Ho o eq_refl) as [Eo Hal]. destruct (env_facts c c1 E1) as (Eg & El & Ey & _).
  assert (Hc1 : regs_ok c1) by (by apply (regs_gpr c)). assert (Ecx : lreg aw 1 c1 = cx) by (by apply lreg_gpr).
  assert (Edi : lreg aw 7 c1 = lreg aw 7 c) by (by apply lreg_gpr).
  assert (Er : stos_element c = stos_element c1) by (apply (element_restart o); unfold translate_w; [done|by rewrite Edi, El]).
  assert (Ern : forall n b, (0 < n)%nat -> elements n b c = elements n b c1).
  { intros [|n] b Hn; [lia|]. unfold elements. cbn [rep_n]. by rewrite !exc_step, Er. }
  destruct (misaligned w o) eqn:Em.
  - pose proof (limit_range cx c ltac:(lia)) as Hlim. exists (Z.to_nat (NSPIRE_LIMIT_REP_COUNT cx c)), true.
    split; [lia|]. split; [lia|]. split; [|lia]. rewrite Ern by lia. unfold slow_path. rewrite get_bind, Ecx.
    assert (NSPIRE_LIMIT_REP_COUNT cx c1 = NSPIRE_LIMIT_REP_COUNT cx c) as -> by (unfold NSPIRE_LIMIT_REP_COUNT; by rewrite Ey). done.
  - destruct (Hal eq_refl) as (p & -> & Hrun). rewrite <- El in Hrun.
    destruct (fast_elements (lreg aw 7 c) p c1) as (n & Hn & Hle & E); try done; rewrite ?Ecx; try done.
    exists n, false. split; [done|]. split; [lia|]. split; [|done]. rewrite Ern by done. rewrite <- E, Ecx. done.
Qed.

Lemma yield_last b c : lreg aw 1 c = 0 -> YIELD_REP aw c = Done (Some false, c) /\ (y ← YIELD_REP aw; if (y : bool) || b then mret y else mret false) c = Done (Some false, c).
Proof. intros E. unfold YIELD_REP at 1. rewrite exc_step. unfold YIELD_REP. rewrite E. change (nz 0) with false. rewrite andb_false_r. by destruct b. Qed.

(** The loop over the chunks runs [n] elements, all of them unless it yields. *)
Definition whole (c : CPUI386 D) (r : outcome (option bool * CPUI386 D)) : Prop := exists n,
  Z.of_nat n <= lreg aw 1 c /\ (Z.of_nat n = lreg aw 1 c \/ rep_yield c = true /\ (0 < n)%nat) /\
  r = (_ ← rep_n n stos_element; YIELD_REP aw) c.
Lemma whole_none c : lreg aw 1 c = 0 -> whole c (Done (Some false, c)).
Proof.
  intros E. exists 0%nat. rewrite E. split; [lia|]. split; [by left|]. cbn [rep_n]. unfold mret, Exc_ret. rewrite exc_step.
  symmetry. apply (yield_last false c E).
Qed.

Lemma chunks_elements : forall fuel c, (Z.to_nat (lreg aw 1 c) <= fuel)%nat -> ready c ->
  straight aw (lreg aw 7 c) d (lreg aw 1 c) -> whole c (rep_while fuel aw (stos_chunk w aw ax d) c).
Proof.
  induction fuel as [|fuel IH]; intros c Hf Hc Hst; pose proof (lreg_range aw 1 c Ha) as Hcx; cbn [rep_while]; rewrite get_bind.
  { assert (E : lreg aw 1 c = 0) by lia. rewrite E. by apply whole_none. }
  destruct (Z.eqb_spec (lreg aw 1 c) 0) as [E|Hne]; [by apply whole_none|].
  destruct (chunk_elements c Hc ltac:(lia) Hst) as (n & b & Hn & Hle & E & Hb).
  pose proof (elements_lead n c Hc) as Hlead. unfold elements in E. unfold leads in Hlead. rewrite exc_step, E, exc_step.
  assert (Hfail : (forall u c', rep_n n stos_element c <> Done (Some u, c')) -> forall (k : unit -> Exc (CPUI386 D) bool),
    (rep_n n stos_element ≫= k) c = (_ ← rep_n (Z.to_nat (lreg aw 1 c)) stos_element; YIELD_REP aw) c).
  { intros Hno k. replace (Z.to_nat (lreg aw 1 c)) with (n + (Z.to_nat (lreg aw 1 c) - n))%nat by lia.
    rewrite !exc_step, rep_n_app, exc_step. destruct (rep_n n stos_element c) as [[[u|] c1]|]; [by destruct (Hno u c1)|done|done]. }
  destruct (rep_n n stos_element c) as [[[[]|] c1]|e] eqn:Er; first last.
  { exists (Z.to_nat (lreg aw 1 c)). split; [lia|]. split; [left; lia|]. by rewrite <- (Hfail ltac:(done) (fun _ => mret b)), exc_step, Er. }
  { exists (Z.to_nat (lreg aw 1 c)). split; [lia|]. split; [left; lia|]. by rewrite <- (Hfail ltac:(done) (fun _ => mret b)), exc_step, Er. }
  clear Hfail. destruct Hlead as (H1 & Ey & Eg). specialize (Eg ltac:(by eexists)). unfold mret at 1, Exc_ret at 1.
  destruct (advanced_index aw 7 (Z.of_nat n) d c c1 Ha (proj2 Hc) ltac:(lia) Eg) as [Edi Ecx].
  rewrite (Z.mod_small (lreg aw 1 c - Z.of_nat n)) in Ecx by lia.
  assert (Hdone : (_ ← rep_n n stos_element; YIELD_REP aw) c = YIELD_REP aw c1) by (by rewrite exc_step, Er).
  rewrite exc_step. destruct (decide (lreg aw 1 c1 = 0)) as [E0|Hmore].
  - destruct (yield_last b c1 E0) as [Ey0 _]. rewrite Ey0. cbn [orb].
    exists n. split; [done|]. split; [left; lia|]. rewrite Hdone, Ey0. destruct b; [done|].
    destruct fuel; cbn [rep_while]; rewrite get_bind, E0; done.
  - unfold YIELD_REP at 1. rewrite Ey. assert (nz (lreg aw 1 c1) = true) as Hnz by (unfold nz; by rewrite (proj2 (Z.eqb_neq _ _) Hmore)).
    rewrite Hnz, andb_true_r. destruct (rep_yield c) eqn:Eyc.
    + cbn [orb]. exists n. split; [done|]. split; [by right|]. rewrite Hdone. unfold YIELD_REP. by rewrite Ey, Hnz.
    + destruct b.
      { specialize (Hb eq_refl). unfold NSPIRE_LIMIT_REP_COUNT in Hb. rewrite Eyc in Hb. cbn [andb] in Hb. lia. }
      cbn [orb]. assert (Hst1 : straight aw (lreg aw 7 c1) d (lreg aw 1 c1)) by (rewrite Edi, Ecx; apply straight_after; done || lia).
      destruct (IH c1 ltac:(lia) H1 Hst1) as (m & Hm & Hall & Em). destruct Hall as [Hall|[Hy _]]; [|congruence].
      exists (n + m)%nat. split; [lia|]. split; [left; lia|]. rewrite Em, !exc_step, rep_n_app, exc_step, Er. done.
Qed.
End Stos.

(** C16. REP STOS whose addresses do not wrap (with 16-bit addressing: DI stays
    in 0 to 0xffff over all CX elements; a 32-bit one may wrap) stores exactly what
    the same number of single stores would, one element after the other, with every change of registers, memory, devices,
    TLBs and page table bits and every page fault between two elements the same,
    for each operand and address size and both directions, whether the runs go
    through memory in bulk, element by element or unaligned: all the elements
    when the CPU does not yield, and when it does a non-empty part of them after
    which the instruction is executed again.  When DI does wrap the claim fails:
    see [rep_stos_misses_wrap]. *)
Theorem rep_stos_elements w aw rep c : width_ok w -> aw_ok aw -> rep <> 0 -> ready c ->
  straight aw (lreg aw 7 c) (xdir w c) (lreg aw 1 c) ->
  exists n, Z.of_nat n <= lreg aw 1 c /\ (Z.of_nat n = lreg aw 1 c \/ rep_yield c = true /\ (0 < n)%nat) /\
    STOS_helper w aw rep c = (_ ← rep_n n (counted aw (stdi w aw (trunc w (REGi c 0)) (xdir w c))); YIELD_REP aw) c.
Proof.
  intros Hw Ha Hr Hc Hst. unfold STOS_helper, rep_chunks. cbv zeta. destruct (Z.eqb_spec rep 0); [done|].
  apply (chunks_elements w aw _ (xdir w c) Hw Ha); try done. unfold xdir. pose proof (size_pos w Hw). destruct (nz _); lia.
Qed.

Lemma coherent_pages c : coherent c -> pages_ok c.
Proof.
  intros [_ [? ? ? He Hr Hw]]. constructor; try done; intros i Hi.
  - destruct (He i Hi) as [|(pde & pte & _ & -> & _)]; [by left|right; apply aligned_frame].
  - destruct (Hr i Hi) as [|(pde & pte & _ & -> & _)]; [by left|right; apply aligned_frame].
  - destruct (Hw i Hi) as [|(pde & pte & _ & -> & _)]; [by left|right; apply aligned_frame].
Qed.
End Tlbs.

(** Three bytes at address 5 of a CPU with empty TLBs. *)
Definition storing (c : CPUI386 unit) : CPUI386 unit := sreg32 0 0xaa (sreg32 1 3 (sreg32 7 5 (c <| cr0 := 0 |>))).
Lemma storing_pages c : pages_ok c -> pages_ok (storing c).
Proof. by intros []. Qed.
Definition storing_cpu : CPUI386 unit := storing paged_cpu.
Lemma storing_ready : ready storing_cpu.
Proof.
  split; [|apply regs_words; split; [done|]].
  - apply storing_pages, coherent_pages, paged_coherent.
  - intros i Hi. assert (all_below 8 (fun i => bool_decide (inw 32 (arr (gpr storing_cpu) i))) = true) as E by (vm_compute; reflexivity).
    apply (all_below_spec _ _ i) in E; [|lia]. by apply bool_decide_eq_true in E.
Qed.
Lemma rep_stos_elements_witness : exists n, Z.of_nat n <= 3 /\
  STOS_helper 8 32 1 storing_cpu = (_ ← rep_n n (counted 32 (stdi 8 32 0xaa 1)); YIELD_REP 32) storing_cpu.
Proof.
  destruct (rep_stos_elements 8 32 1 storing_cpu) as (n & Hn & _ & E).
  - by left.
  - by right.
  - discriminate.
  - exact storing_ready.
  - by left.
  - exists n. split; [exact Hn|exact E].
Defined.

(** DI wraps at 64 KB between two elements, a run does not: with a segment base
    inside a page, REP STOSB from offset 0xffff misses the byte at offset 0. *)
Definition wrapping_cpu : CPUI386 unit :=
  sreg32 0 0xaa (sreg32 1 2 (sreg32 7 0xffff (set_seg_reg SEG_ES (mkSeg 1 0x10 0xffff 0) demo_cpu))).
Definition byte_after {A} (m : Exc (CPUI386 unit) A) (a : Z) : option Z :=
  match m wrapping_cpu with Done (_, c) => Some (arr (phys_mem c) a) | Stuck _ => None end.
Lemma rep_stos_misses_wrap : byte_after (STOS_helper 8 16 1) 0x10 = Some 0 /\
  byte_after (rep_n 2 (counted 16 (stdi 8 16 0xaa 1))) 0x10 = Some 0xaa.
Proof. vm_compute. done. Qed.

End Rep.
