(* ===== verification/I386Data.v ===== *)
(** * I386Data: data movement, stack and system instructions (winspire/i386.c)

    The macros of i386.c for moves, the stack, near jumps and calls, the flags
    word, the system registers, descriptor queries and the instructions of the
    later processors.  Operands are those of [I386Alu]; an instruction that may
    raise is in [Exc], and one that changes the step count of the dispatch loop or
    leaves it returns so. *)

From S2P Require Import Prelude I386 I386Alu I386Mmu I386Mem I386String.

Module Data.
Import I386 Alu Mmu Mem Str.

Section Operations.
Context {D : Type} `{IoMem D} `{IoPorts D}.
Implicit Types c : CPUI386 D.
Implicit Types a b : Operand D.

(** ** Moves *)

Definition MOV a b : Exc (CPUI386 D) unit := ok (x ← la b; sa a x).
(** Both [MOVSXww] and the zero extensions store what they load. *)
Definition MOVSX (w : Z) a b : Exc (CPUI386 D) unit := ok (x ← la b; sa a (sext w x)).
Definition XCHG a b : Exc (CPUI386 D) unit := ok (tmp ← la b; x ← la a; _ ← sa b x; sa a tmp).
Definition width (opsz16 : bool) : Z := if opsz16 then 16 else 32.
Definition XCHGAX (opsz16 : bool) (b1 : Z) : Exc (CPUI386 D) unit := put (fun c =>
  let w := width opsz16 in let r := Z.land b1 7 in
  let tmp := lreg w r c in sreg w 0 tmp (sreg w r (lreg w 0 c) c)).
Definition LEA (mod_ : Z) a b : Exc (CPUI386 D) unit := if mod_ =? 3 then THROW0 EX_UD else MOV a b.
Definition CBW_CWDE (opsz16 : bool) : Exc (CPUI386 D) unit := put (fun c =>
  if opsz16 then sreg16 0 (sext8 (lreg8 0 c)) c else sreg32 0 (sext16 (lreg16 0 c)) c).
(** [-(sext16 (x) >> 31)] on unsigned words *)
Definition sign_word (x : Z) : Z := u32 (- Z.shiftr x 31).
Definition CWD_CDQ (opsz16 : bool) : Exc (CPUI386 D) unit := put (fun c =>
  if opsz16 then sreg16 2 (sext16 (sign_word (sext16 (lreg16 0 c)))) c
  else sreg32 2 (sext32 (sign_word (sext32 (lreg32 0 c)))) c).
(** The result is added to the step count. *)
Definition MOVSeg (s : Z) b : Exc (CPUI386 D) Z :=
  if s =? SEG_CS then THROW0 EX_UD else v ← ok (la b); _ ← set_seg s v; mret (if s =? SEG_SS then 1 else 0).
Definition SALC : Exc (CPUI386 D) unit := cf ← ok fetch_CF; put (sreg8 0 (if nz cf then 0xff else 0)).
Definition XLAT (adsz16 : bool) (curr : Z) : Exc (CPUI386 D) unit :=
  let s := default_seg curr SEG_DS in
  addr ← get (fun c => if adsz16 then Z.land (lreg16 3 c + lreg8 0 c) 0xffff else u32 (lreg32 3 c + lreg8 0 c));
  o ← translate_w 8 1 s (fun _ => addr); v ← ok (load8 o); put (sreg8 0 v).

Definition user (f : Exc (CPUI386 D) unit) : Exc (CPUI386 D) unit := fun c => if cpl c =? 0 then f c else THROW EX_GP 0 c.
Definition modrm_regs : Exc (CPUI386 D) (Z * Z) := m ← fetch8; mret (Z.land (Z.shiftr m 3) 7, Z.land m 7).
Definition MOVFC : Exc (CPUI386 D) unit := user (
  '(r, rm) ← modrm_regs;
  if r =? 0 then put (fun c => sreg32 rm (cr0 c) c) else if r =? 2 then put (fun c => sreg32 rm (cr2 c) c) else
  if r =? 3 then put (fun c => sreg32 rm (cr3 c) c) else if r =? 4 then put (sreg32 rm 0) else THROW0 EX_UD).
Definition MOVTC : Exc (CPUI386 D) unit := user (
  '(r, rm) ← modrm_regs;
  if r =? 0 then put (fun c =>
    let new := lreg32 rm c in
    let c := if nz (Z.land (Z.lxor new (cr0 c)) (Z.lor (Z.lor CR0_PG CR0_WP) 1)) then tlb_clear c else c in
    c <| cr0 := if has_fpu c then Z.lor new 0x10 else new |>)
  else if r =? 2 then put (fun c => c <| cr2 := lreg32 rm c |>)
  else if r =? 3 then put (fun c => tlb_clear (c <| cr3 := lreg32 rm c |>))
  else if r =? 4 then mret tt else THROW0 EX_UD).

(** ** The flags word *)

Definition CLI : Exc (CPUI386 D) unit := fun c =>
  if get_IOPL c <? cpl c then THROW EX_GP 0 c else put (fun c => c <| flags := Z.land (flags c) (u32 (Z.lnot IF_)) |>) c.
(** The new step count. *)
Definition STI (stepcount : Z) : Exc (CPUI386 D) Z := fun c =>
  if get_IOPL c <? cpl c then THROW EX_GP 0 c else
  (_ ← put (fun c => c <| flags := Z.lor (flags c) IF_ |>);
   i ← get intr; mret (if (i : bool) || (stepcount <? 2) then 2 else stepcount)) c.
Definition CLD : Exc (CPUI386 D) unit := put (fun c => c <| flags := Z.land (flags c) (u32 (Z.lnot DF)) |>).
Definition STD : Exc (CPUI386 D) unit := put (fun c => c <| flags := Z.lor (flags c) DF |>).
Definition HLT : Exc (CPUI386 D) unit := user (put (fun c => c <| halt := true |>)).

(** ** The stack *)

Definition set_sp (v m : Z) c : CPUI386 D := sreg32 4 (Z.lor (Z.land v m) (Z.land (lreg32 4 c) (u32 (Z.lnot m)))) c.
Definition settle : ST (CPUI386 D) unit := _ ← refresh_flags; modify (fun c => let k := cc c in c <| cc := k <| mask := 0 |> |>).

(** A word of [w] bits pushed and popped through the general path. *)
Definition push_word (w v : Z) : Exc (CPUI386 D) unit :=
  m ← get sp_mask; sp ← get (lreg32 4);
  o ← translate_w w 2 SEG_SS (fun _ => Z.land (sp - size w) m);
  _ ← put (set_sp (sp - size w) m); ok (store_w w o v).
Definition pop_word (w : Z) : Exc (CPUI386 D) Z :=
  m ← get sp_mask; sp ← get (lreg32 4);
  o ← translate_w w 1 SEG_SS (fun _ => Z.land sp m); v ← ok (load_w w o);
  _ ← put (set_sp (sp + size w) m); mret v.
(** [stack32_direct_addr] as a condition: [None] when it returns false. *)
Definition direct (rwm off : Z) : Exc (CPUI386 D) (option Z) := fun c =>
  match stack32_direct_addr rwm off c with
  | Done (Some p, c') => Done (Some (Some p), c')
  | Done (None, c') => Done (Some None, c')
  | Stuck e => Stuck e
  end.
Definition load_stack32 (off : Z) : Exc (CPUI386 D) Z :=
  p ← direct 1 off;
  match p with
  | Some fast_paddr => ok (pload32 fast_paddr)
  | None => o ← translate_w 32 1 SEG_SS (fun _ => off); ok (load_w 32 o)
  end.
Definition push32_fast (v : Z) : Exc (CPUI386 D) unit :=
  m ← get sp_mask; sp ← get (lreg32 4); let fast_sp := Z.land (sp - 4) m in
  p ← direct 2 fast_sp;
  match p with
  | Some fast_paddr => _ ← put (set_sp (sp - 4) m); ok (pstore32 fast_paddr v)
  | None => o ← translate_w 32 2 SEG_SS (fun _ => fast_sp); _ ← put (set_sp (sp - 4) m); ok (store_w 32 o v)
  end.

Definition PUSHb (opsz16 : bool) a : Exc (CPUI386 D) unit := x ← ok (la a); push_word (width opsz16) (sext8 x).
Definition PUSHw a : Exc (CPUI386 D) unit := x ← ok (la a); push_word 16 (sext16 x).
Definition PUSHd a : Exc (CPUI386 D) unit := x ← ok (la a); push32_fast (sext32 x).
Definition POPRegw a : Exc (CPUI386 D) unit := x ← pop_word 16; ok (sa a x).
Definition POPRegd a : Exc (CPUI386 D) unit :=
  m ← get sp_mask; sp ← get (lreg32 4); src ← load_stack32 (Z.land sp m);
  _ ← put (set_sp (sp + 4) m); ok (sa a src).
(** A failing store restores the stack pointer. *)
Definition POP_helper (adsz16 : bool) (w s : Z) : Exc (CPUI386 D) unit :=
  modrm ← fetch8; let mod_ := Z.shiftr modrm 6 in let rm := Z.land modrm 7 in
  m ← get sp_mask; sp ← get (lreg32 4); src ← pop_word w;
  if mod_ =? 3 then put (sreg w rm src) else
  fun c => match ('(addr, s) ← modsib adsz16 mod_ rm s; translate_w w 2 s (fun _ => addr)) c with
    | Done (Some o, c') => ok (store_w w o src) c'
    | Done (None, c') => Done (None, set_sp sp m c')
    | Stuck e => Stuck e
    end.

Definition PUSHF (opsz16 : bool) : Exc (CPUI386 D) unit := fun c =>
  if nz (Z.land (flags c) VM) && (get_IOPL c <? 3) then THROW EX_GP 0 c else
  let w := width opsz16 in
  (m ← get sp_mask; sp ← get (lreg32 4); o ← translate_w w 2 SEG_SS (fun _ => Z.land (sp - size w) m);
   _ ← ok settle; _ ← put (set_sp (sp - size w) m);
   f ← get flags; ok (store_w w o (if opsz16 then f else Z.land f (u32 (Z.lnot (Z.lor RF VM)))))) c.
(** The result tells whether the dispatch loop is left. *)
Definition POPF (opsz16 : bool) : Exc (CPUI386 D) bool := fun c =>
  if nz (Z.land (flags c) VM) && (get_IOPL c <? 3) then THROW EX_GP 0 c else
  let keep := Z.lor VM (if Z.testbit (cr0 c) 0 then Z.lor (if 0 <? cpl c then IOPL else 0) (if get_IOPL c <? cpl c then IF_ else 0) else 0) in
  (v ← pop_word (width opsz16);
   _ ← put (fun c =>
     let f := if opsz16 then Z.lor (Z.land (flags c) (Z.lor 0xffff0000 keep)) (Z.land v (u32 (Z.lnot keep)))
              else Z.lor (Z.land (flags c) keep) (Z.land v (u32 (Z.lnot keep))) in
     let k := cc c in c <| flags := Z.lor (Z.land f (flags_mask c)) 0x2 |> <| cc := k <| mask := 0 |> |>);
   get (fun c => intr c && nz (Z.land (flags c) IF_))) c.

(** Segment registers take a slot of the operand size but only 16 bits of it. *)
Definition PUSHSeg (opsz16 : bool) (s : Z) : Exc (CPUI386 D) unit :=
  let n := size (width opsz16) in
  m ← get sp_mask; sp ← get (lreg32 4); o ← translate_w 16 2 SEG_SS (fun _ => Z.land (sp - n) m);
  _ ← put (set_sp (sp - n) m); v ← get (fun c => u16 (sel (seg_of c s))); ok (store_w 16 o v).
Definition POPSeg (opsz16 : bool) (s : Z) : Exc (CPUI386 D) Z :=
  let n := size (width opsz16) in
  m ← get sp_mask; sp ← get (lreg32 4); o ← translate_w 16 1 SEG_SS (fun _ => Z.land sp m);
  v ← ok (load_w 16 o); _ ← set_seg s v; _ ← put (set_sp (sp + n) m); mret (if s =? SEG_SS then 1 else 0).

(** Translations for the slots [l], in order. *)
Fixpoint slots (w rwm : Z) (off : Z -> Z) (l : list Z) : Exc (CPUI386 D) (list OptAddr) :=
  match l with
  | [] => mret []
  | i :: l => o ← translate_w w rwm SEG_SS (fun _ => off i); r ← slots w rwm off l; mret (o :: r)
  end.
Fixpoint store_all (w : Z) (l : list (OptAddr * (CPUI386 D -> Z))) : ST (CPUI386 D) unit :=
  match l with [] => mret tt | (o, v) :: l => x ← gets v; _ ← store_w w o x; store_all w l end.
Fixpoint load_all (w : Z) (l : list (OptAddr * Z)) : ST (CPUI386 D) unit :=
  match l with [] => mret tt | (o, r) :: l => x ← load_w w o; _ ← modify (sreg w r x); load_all w l end.
Definition PUSHA (opsz16 : bool) : Exc (CPUI386 D) unit :=
  let w := width opsz16 in
  m ← get sp_mask; sp ← get (lreg32 4);
  os ← slots w 2 (fun i => Z.land (sp - size w * i) m) [1; 2; 3; 4; 5; 6; 7; 8];
  _ ← ok (store_all w (zip os [lreg w 0; lreg w 1; lreg w 2; lreg w 3; (fun _ => sp); lreg w 5; lreg w 6; lreg w 7]));
  put (set_sp (sp - size w * 8) m).
Definition POPA (opsz16 : bool) : Exc (CPUI386 D) unit :=
  let w := width opsz16 in
  m ← get sp_mask; sp ← get (lreg32 4);
  os ← slots w 1 (fun i => Z.land (sp + size w * i) m) [0; 1; 2; 4; 5; 6; 7];
  _ ← ok (load_all w (zip os [7; 6; 5; 3; 2; 1; 0]));
  put (set_sp (sp + size w * 8) m).

(** ** Near jumps and calls *)

Definition jump_to (f : CPUI386 D -> Z) : Exc (CPUI386 D) unit := put (fun c => c <| next_ip := f c |>).
Definition JMPb a : Exc (CPUI386 D) unit := d ← ok (la a); jump_to (fun c => u32 (next_ip c + sext8 d)).
Definition JMPw a : Exc (CPUI386 D) unit := d ← ok (la a); jump_to (fun c => Z.land (u32 (next_ip c + sext16 d)) 0xffff).
Definition JMPd a : Exc (CPUI386 D) unit := d ← ok (la a); jump_to (fun c => u32 (next_ip c + sext32 d)).
(** [JMPABSw] and [JMPABSd] *)
Definition JMPABS a : Exc (CPUI386 D) unit := nip ← ok (la a); jump_to (fun _ => nip).
Definition CALLw a : Exc (CPUI386 D) unit :=
  d ← ok (la a); ret ← get next_ip; _ ← push_word 16 ret; jump_to (fun c => Z.land (u32 (next_ip c + sext16 d)) 0xffff).
Definition CALLd a : Exc (CPUI386 D) unit :=
  d ← ok (la a); ret ← get next_ip; _ ← push32_fast ret; jump_to (fun c => u32 (next_ip c + sext32 d)).
Definition CALLABSw a : Exc (CPUI386 D) unit := nip ← ok (la a); ret ← get next_ip; _ ← push_word 16 ret; jump_to (fun _ => nip).
Definition CALLABSd a : Exc (CPUI386 D) unit := nip ← ok (la a); ret ← get next_ip; _ ← push32_fast ret; jump_to (fun _ => nip).
(** [RET] is [RETw] with 0. *)
Definition RETw (opsz16 : bool) (i : Z) : Exc (CPUI386 D) unit :=
  m ← get sp_mask; sp ← get (lreg32 4);
  if opsz16 then
    o ← translate_w 16 1 SEG_SS (fun _ => Z.land sp m); _ ← put (set_sp (sp + 2 + i) m);
    v ← ok (load_w 16 o); jump_to (fun _ => v)
  else
    v ← load_stack32 (Z.land sp m); _ ← jump_to (fun _ => v); put (set_sp (sp + 4 + i) m).

(** ** Stack frames *)

(** One level of [enter_helper]: every slot is at the same address [slot]. *)
Definition enter_level (w m slot newsp : Z) : Exc (CPUI386 D) unit :=
  _ ← put (fun c => if m =? 0xffff then sreg16 5 (lreg16 5 c - size w) c else sreg32 5 (lreg32 5 c - size w) c);
  o ← translate_w w 2 SEG_SS (fun _ => slot); _ ← put (set_sp newsp m); v ← get (lreg w 5); ok (store_w w o v).
Definition enter_helper (opsz16 : bool) (m level allocsz : Z) : Exc (CPUI386 D) unit :=
  let w := width opsz16 in
  sp ← get (lreg32 4); let slot := Z.land (sp - size w) m in
  o ← translate_w w 2 SEG_SS (fun _ => slot); _ ← put (set_sp (sp - size w) m);
  v ← get (lreg w 5); _ ← ok (store_w w o v); temp ← get (lreg w 4);
  _ ← rep_n (Z.to_nat (level - 1)) (enter_level w m slot (sp - size w));
  o ← translate_w w 2 SEG_SS (fun _ => slot); _ ← put (set_sp (sp - size w - allocsz) m);
  _ ← ok (store_w w o temp); put (sreg w 5 temp).
Definition ENTER (opsz16 : bool) (i16 i8 : Z) : Exc (CPUI386 D) unit :=
  let w := width opsz16 in let level := i8 mod 32 in
  m ← get sp_mask;
  if level =? 0 then
    sp ← get (lreg32 4);
    o ← translate_w w 2 SEG_SS (fun _ => Z.land (sp - size w) m); _ ← put (set_sp (sp - size w - i16) m);
    v ← get (lreg w 5); _ ← ok (store_w w o v); put (sreg w 5 (Z.land (sp - size w) m))
  else enter_helper opsz16 m level i16.
Definition LEAVE (opsz16 : bool) : Exc (CPUI386 D) unit :=
  let w := width opsz16 in
  m ← get sp_mask; sp ← get (lreg32 5);
  o ← translate_w w 1 SEG_SS (fun _ => Z.land sp m); _ ← put (set_sp (sp + size w) m);
  v ← ok (load_w w o); put (sreg w 5 v).

(** ** System registers *)

(** [SXXX]: the limit, then the base. *)
Definition store_table (s addr : Z) (lim bas : CPUI386 D -> Z) : Exc (CPUI386 D) unit :=
  o1 ← translate_w 16 2 s (fun _ => addr); o2 ← translate_w 32 2 s (fun _ => addr + 2);
  l ← get lim; _ ← ok (store16 o1 l); x ← get bas; ok (store32 o2 x).
Definition SGDT (s addr : Z) := store_table s addr gdt_limit gdt_base.
Definition SIDT (s addr : Z) := store_table s addr idt_limit idt_base.
(** [LXXX] *)
Definition load_table {A} (opsz16 : bool) (s addr : Z) (k : Z -> Z -> Exc (CPUI386 D) A) : Exc (CPUI386 D) A := fun c =>
  if nz (cpl c) then THROW EX_GP 0 c else
  (o1 ← translate_w 16 1 s (fun _ => addr); o2 ← translate_w 32 1 s (fun _ => addr + 2);
   l ← ok (load16 o1); x ← ok (load32 o2); k l (if opsz16 then Z.land x 0xffffff else x)) c.
Definition LGDT (opsz16 : bool) (s addr : Z) : Exc (CPUI386 D) unit :=
  load_table opsz16 s addr (fun l x => put (fun c => c <| gdt_base := x |> <| gdt_limit := l |>)).
Definition LIDT (opsz16 : bool) (s addr : Z) : Exc (CPUI386 D) unit :=
  load_table opsz16 s addr (fun l x => put (fun c => c <| idt_base := x |> <| idt_limit := l |>)).
Definition load_system (s : Z) a : Exc (CPUI386 D) unit := user (v ← ok (la a); set_seg s v).
Definition LLDT := load_system SEG_LDT.
Definition LTR := load_system SEG_TR.
Definition store_selector (s : Z) a : Exc (CPUI386 D) unit := v ← get (fun c => sel (seg_of c s)); ok (sa a v).
Definition SLDT := store_selector SEG_LDT.
Definition STR := store_selector SEG_TR.
Definition MOVFD : Exc (CPUI386 D) unit := '(r, rm) ← modrm_regs; put (fun c => sreg32 rm (arr (dr c) r) c).
Definition MOVTD : Exc (CPUI386 D) unit := '(r, rm) ← modrm_regs; put (fun c => c <| dr := arr_set (dr c) r (lreg32 rm c) |>).
(** [MOVFT] and [MOVTT] *)
Definition MOVFT : Exc (CPUI386 D) unit := _ ← fetch8; mret tt.
Definition SMSW a : Exc (CPUI386 D) unit := v ← get cr0; ok (sa a (Z.land v 0xffff)).
Definition LMSW a : Exc (CPUI386 D) unit := user (
  v ← ok (la a); put (fun c => c <| cr0 := Z.lor (Z.land (cr0 c) (Z.lor (u32 (Z.lnot 0xf)) 1)) (Z.land v 0xf) |>)).
(** [__LSEGd_helper] and [__LSEGw_helper] *)
Definition LSEG (opsz16 adsz16 : bool) (s r curr addr : Z) : Exc (CPUI386 D) unit :=
  let w := width opsz16 in let addr := if adsz16 then Z.land addr 0xffff else addr in
  o1 ← translate_w w 1 curr (fun _ => addr); o2 ← translate_w 16 1 curr (fun _ => addr + size w);
  v ← ok (load_w w o1); x ← ok (load16 o2); _ ← set_seg s x; put (sreg w r v).
Definition CLTS : Exc (CPUI386 D) unit := put (fun c => c <| cr0 := Z.land (cr0 c) (u32 (Z.lnot (Z.shiftl 1 3))) |>).
Definition WAIT : Exc (CPUI386 D) unit := fun c => if Z.land (cr0 c) 0xa =? 0xa then THROW0 EX_NM c else Done (Some tt, c).

(** ** Ports *)

(** [INb] ... [INd] and [OUTb] ... [OUTd] at width [w]. *)
Definition IN_ (w : Z) a b : Exc (CPUI386 D) unit :=
  port ← ok (la b); _ ← check_ioperm port w; v ← ok (device (io_read w port)); ok (sa a v).
Definition OUT_ (w : Z) a b : Exc (CPUI386 D) unit :=
  port ← ok (la a); _ ← check_ioperm port w; v ← ok (la b); ok (device (io_write w port v)).

(** ** Descriptor queries *)

(** What [larsl_helper] and [verrw_helper] do before they look at a descriptor:
    [None] clears ZF.  A fault of [read_desc] clears it too. *)
Definition query_desc (sel1 : Z) : Exc (CPUI386 D) (option (Z * Z)) := fun c =>
  let sel1 := Z.land sel1 0xffff in
  if negb (Z.testbit (cr0 c) 0) || nz (Z.land (flags c) VM) then THROW0 EX_UD c else
  if Z.land sel1 (Z.lnot 3) =? 0 then Done (Some None, c) else
  match read_desc true sel1 c with
  | Done (Some w, c') => Done (Some (Some w), c')
  | Done (None, c') => Done (Some None, c')
  | Stuck e => Stuck e
  end.
(** Only conforming code is visible to the less privileged. *)
Definition hidden (sel1 w2 : Z) c : bool :=
  let dpl := Z.land (Z.shiftr w2 13) 3 in
  negb (Z.land (Z.shiftr w2 10) 3 =? 3) && ((dpl <? cpl c) || (dpl <? Z.land sel1 3)).
(** [lar]: [ar] is not null, and [sl] is. *)
Definition larsl_helper (lar : bool) (sel1 : Z) : Exc (CPUI386 D) (option Z) :=
  d ← query_desc sel1;
  match d with
  | None => mret None
  | Some (w1, w2) =>
      bad ← get (fun c =>
        if Z.testbit w2 12 then hidden (Z.land sel1 0xffff) w2 c
        else bool_decide (Z.land (Z.shiftr w2 8) 0xf ∈
          (if lar then [0; 6; 7; 8; 10; 13; 14; 15] else [0; 4; 5; 6; 7; 8; 10; 12; 13; 14; 15])));
      mret (if bad : bool then None else Some (if lar then Z.land w2 0x00ffff00 else desc_limit w1 w2))
  end.
Definition verrw_helper (wr : bool) (sel1 : Z) : Exc (CPUI386 D) bool :=
  d ← query_desc sel1;
  match d with
  | None => mret false
  | Some (w1, w2) =>
      get (fun c => Z.testbit w2 12 && negb (hidden (Z.land sel1 0xffff) w2 c) &&
        (if Z.testbit w2 11 then wr || Z.testbit w2 9 else negb wr || Z.testbit w2 9))
  end.
(** ZF is written to the flags word and taken from the lazy ones. *)
Definition put_ZF (z : bool) : Exc (CPUI386 D) unit := put (fun c =>
  let k := cc c in c <| flags := SET_BIT (flags c) (b2z z) ZF |> <| cc := k <| mask := Z.land (mask k) (u32 (Z.lnot ZF)) |> |>).
(** [LARdw] and [LSLdw] *)
Definition query (lar : bool) a b : Exc (CPUI386 D) unit :=
  s ← ok (la b); r ← larsl_helper lar s;
  _ ← (match r with Some v => ok (sa a v) | None => mret tt end);
  put_ZF (bool_decide (is_Some r)).
Definition LAR := query true.
Definition LSL := query false.
Definition VERR a : Exc (CPUI386 D) unit := s ← ok (la a); z ← verrw_helper false s; put_ZF z.
Definition VERW a : Exc (CPUI386 D) unit := s ← ok (la a); z ← verrw_helper true s; put_ZF z.
Definition ARPL a b : Exc (CPUI386 D) unit := fun c =>
  if negb (Z.testbit (cr0 c) 0) || nz (Z.land (flags c) VM) then THROW0 EX_UD c else
  (x ← ok (la a); y ← ok (la b); let dst := u16 x in let src := u16 y in
   if Z.land dst 3 <? Z.land src 3 then _ ← ok (sa a (Z.lor (Z.land dst (Z.lnot 3)) (Z.land src 3))); put_ZF true
   else put_ZF false) c.
Definition EX_BR : Z := 5.
(** [b] is the address of the bounds.  With a register there is no segment, and
    [cpu->seg] is read at index -1. *)
Definition BOUND (w curr : Z) a b : Exc (CPUI386 D) unit :=
  idx ← ok (la a); addr ← ok (la b);
  if curr =? NO_SEG then ok (lift (Stuck OutOfBounds)) else
  o1 ← translate_w w 3 curr (fun _ => addr); o2 ← translate_w w 3 curr (fun _ => addr + size w);
  lo ← ok (load_w w o1); hi ← ok (load_w w o2);
  if (sgn w idx <? sgn w lo) || (sgn w hi <? sgn w idx) then THROW0 EX_BR else mret tt.

(** ** Later processors *)

Definition CMPXCH (w : Z) a b : Exc (CPUI386 D) unit := ok (
  x ← la a; _ ← set_cc (fun k => k <| src1 := sext w x |>);
  y ← gets (lreg w 0); _ ← set_cc (fun k => k <| src2 := sext w y |>);
  _ ← set_cc (fun k => k <| dst := sext w (u32 (src1 k - src2 k)) |> <| op := CC_SUB |> <| mask := ARITH |>);
  k ← gets cc;
  if dst k =? 0 then v ← la b; sa a v else modify (sreg w 0 (src1 k))).
Definition XADD (w : Z) a b : Exc (CPUI386 D) unit := ok (
  old ← la a; x ← la a; _ ← set_cc (fun k => k <| src1 := sext w x |>);
  y ← la b; _ ← set_cc (fun k => k <| src2 := sext w y |>);
  _ ← set_cc (fun k => k <| dst := sext w (u32 (src1 k + src2 k)) |> <| op := CC_ADD |> <| mask := ARITH |>);
  _ ← sa b old; k ← gets cc; sa a (dst k)).
Definition INVLPG : Exc (CPUI386 D) unit := put tlb_clear.
Definition swap32 (src : Z) : Z :=
  Z.lor (Z.lor (Z.lor (u32 (Z.shiftl (Z.land src 0xff) 24)) (Z.shiftl (Z.land (Z.shiftr src 8) 0xff) 16))
         (Z.shiftl (Z.land (Z.shiftr src 16) 0xff) 8)) (Z.land (Z.shiftr src 24) 0xff).
(** [BSWAPw] is undefined. *)
Definition BSWAP (opsz16 : bool) a : Exc (CPUI386 D) unit := if opsz16 then THROW0 EX_UD else ok (src ← la a; sa a (swap32 src)).
Definition UD0 : Exc (CPUI386 D) unit := THROW0 EX_UD.

Definition put_regs (a b d x : Z) c : CPUI386 D := set_REGi 1 x (set_REGi 2 d (set_REGi 3 b (set_REGi 0 a c))).
(** Without SIMD, as both releases are built. *)
Definition CPUID : Exc (CPUI386 D) unit := put (fun c =>
  if REGi c 0 =? 0 then put_regs 1 0x594e4954 0x20363833 0x20555043 c
  else if REGi c 0 =? 1 then
    let d := Z.lor 0x100 (if has_fpu c then 1 else 0) in
    put_regs (u32 (Z.shiftl (gen c) 8)) 0 (if 5 <? gen c then Z.lor d 0x8820 else d) 0 c
  else put_regs 0 0 0 0 c).
(** [tsc]: the host's nanosecond clock. *)
Definition RDTSC (tsc : Z) : Exc (CPUI386 D) unit := put (fun c => set_REGi 2 (u32 (Z.shiftr tsc 32)) (set_REGi 0 (u32 tsc) c)).
Definition CMPXCH8B (curr addr : Z) : Exc (CPUI386 D) unit :=
  o1 ← translate_w 32 3 curr (fun _ => addr); o2 ← translate_w 32 3 curr (fun _ => addr + 4);
  lo ← ok (load32 o1); hi ← ok (load32 o2);
  eq ← get (fun c => (REGi c 0 =? lo) && (REGi c 2 =? hi));
  if eq : bool then
    x ← get (fun c => REGi c 3); _ ← ok (store32 o1 x); y ← get (fun c => REGi c 1); _ ← ok (store32 o2 y); put_ZF true
  else _ ← put (fun c => set_REGi 2 hi (set_REGi 0 lo c)); put_ZF false.
(** The condition is that of the opcode, as for Jcc. *)
Definition CMOV (b1 : Z) a b : Exc (CPUI386 D) unit := t ← ok (cond_of b1); if t : bool then MOV a b else mret tt.
Definition WRMSR : Exc (CPUI386 D) unit := fun c =>
  if nz (cpl c) then THROW EX_GP 0 c else
  let r := REGi c 1 in
  if r =? 0x174 then put (fun c => c <| sysenter_cs := REGi c 0 |>) c else
  if r =? 0x176 then put (fun c => c <| sysenter_eip := REGi c 0 |>) c else
  if r =? 0x175 then put (fun c => c <| sysenter_esp := REGi c 0 |>) c else THROW EX_GP 0 c.
Definition RDMSR : Exc (CPUI386 D) unit := fun c =>
  if nz (cpl c) then THROW EX_GP 0 c else
  let r := REGi c 1 in
  if r =? 0x174 then put (fun c => set_REGi 2 0 (set_REGi 0 (sysenter_cs c) c)) c else
  if r =? 0x176 then put (fun c => set_REGi 2 0 (set_REGi 0 (sysenter_eip c) c)) c else
  if r =? 0x175 then put (fun c => set_REGi 2 0 (set_REGi 0 (sysenter_esp c) c)) c else THROW EX_GP 0 c.
(** [__sysenter]: flat segments of privilege [pl]; [cs] is a C int. *)
Definition sysenter_segs (pl cs : Z) c : CPUI386 D :=
  let code := mkSeg (Z.lor (Z.land cs 0xfffc) pl) 0 0xffffffff (Z.lor (Z.lor SEG_D_BIT 0x5b) (Z.shiftl pl 5)) in
  let stack := mkSeg (Z.lor (Z.land (cs + 8) 0xfffc) pl) 0 0xffffffff (Z.lor (Z.lor SEG_B_BIT 0x53) (Z.shiftl pl 5)) in
  set_seg_reg SEG_SS stack (set_seg_reg SEG_CS code c <| cpl := pl |> <| code16 := false |> <| sp_mask := 0xffffffff |>).
Definition no_sysenter c : bool := negb (Z.testbit (cr0 c) 0) || (Z.land (sysenter_cs c) (u32 (Z.lnot 3)) =? 0).
Definition SYSENTER : Exc (CPUI386 D) unit := fun c =>
  if no_sysenter c then THROW EX_GP 0 c else
  put (fun c => let c := c <| flags := Z.land (flags c) (u32 (Z.lnot (Z.lor VM IF_))) |> in
    let c := set_REGi 4 (sysenter_esp c) (sysenter_segs 0 (sysenter_cs c) c) in c <| next_ip := sysenter_eip c |>) c.
Definition SYSEXIT : Exc (CPUI386 D) unit := fun c =>
  if no_sysenter c || nz (cpl c) then THROW EX_GP 0 c else
  put (fun c => let c := sysenter_segs 3 (sysenter_cs c + 16) c in
    let c := set_REGi 4 (REGi c 1) c in c <| next_ip := REGi c 2 |>) c.

End Operations.

End Data.
