(* ===== verification/I386Far.v ===== *)
(** * I386Far: far control transfer, interrupts and task switches (winspire/i386.c)

    [pmcall] (far jumps and calls, call gates), [pmret] (far returns and IRET),
    [call_isr] (interrupt delivery in real and protected mode), [task_switch] and
    the instructions built on them.  [TRY1], which aborts the emulator when a step
    fails, is [must]. *)

From S2P Require Import Prelude I386 I386Alu I386Mmu I386Mem I386String I386Data.

Module Far.
Import I386 Alu Mmu Mem Str Data.

Definition EX_BP : Z := 3.
Definition EX_OF : Z := 4.
Definition EX_DF : Z := 8.
Definition EX_TS : Z := 10.

Inductive SwitchType : Set := TS_JMP | TS_CALL | TS_IRET.

(** The results 1 to 3 of [__call_isr_check_cs]; 0 is an exception. *)
Inductive IsrPath : Set := IntraPVL | InterPVL | FromV86.

Section Operations.
Context {D : Type} `{IoMem D} `{IoPorts D}.
Implicit Types c : CPUI386 D.
Implicit Types a b : Operand D.

Definition abort {A} : Exc (CPUI386 D) A := fun _ => Stuck Aborted.
Definition must {A} (m : Exc (CPUI386 D) A) : Exc (CPUI386 D) A := fun c =>
  match m c with Done (None, _) => Stuck Aborted | r => r end.
Definition stack_mask c : Z := if nz (Z.land (sflags (seg_of c SEG_SS)) SEG_B_BIT) then 0xffffffff else 0xffff.
(** [translate] with privilege level 0, as for every implicit access. *)
Definition slot (w rwm s addr : Z) : Exc (CPUI386 D) OptAddr := translate rwm s addr (size w) 0.
Definition set_flags (f : Z -> Z) : Exc (CPUI386 D) unit := put (fun c => c <| flags := f (flags c) |>).
Definition without (f k : Z) : Z := Z.land f (u32 (Z.lnot k)).
(** An error code or a selector without its privilege bits. *)
Definition no_rpl (s : Z) : Z := Z.land s (u32 (Z.lnot 3)).

(** ** Task switches *)

(** One field of the current task state segment. *)
Definition tss_store (off : Z) (f : CPUI386 D -> Z) : Exc (CPUI386 D) unit :=
  o ← must (slot 32 2 SEG_TR off); v ← get f; ok (store32 o v).
Definition tss_load (off : Z) : Exc (CPUI386 D) Z := o ← must (slot 32 1 SEG_TR off); ok (load32 o).
Fixpoint each (l : list Z) (f : Z -> Exc (CPUI386 D) unit) : Exc (CPUI386 D) unit :=
  match l with [] => mret tt | i :: l => _ ← f i; each l f end.
Definition registers : list Z := [0; 1; 2; 3; 4; 5; 6; 7].
Definition segments : list Z := [SEG_ES; SEG_CS; SEG_SS; SEG_DS; SEG_FS; SEG_GS].
Definition tss32 c : bool := let t := Z.land (sflags (seg_of c SEG_TR)) 0xf in (t =? 9) || (t =? 11).
(** The busy bit of a descriptor in the GDT. *)
Definition busy_bit (s : CPUI386 D -> Z) (f : Z -> Z) : Exc (CPUI386 D) unit :=
  a ← get (fun c => u32 (gdt_base c + Z.land (s c) (Z.lnot 7) + 4));
  o ← must (translate_laddr 3 a 4 0); v ← ok (load32 o); ok (store32 o (f v)).

Definition save_task (sw : SwitchType) : Exc (CPUI386 D) unit :=
  _ ← tss_store 0x20 next_ip; _ ← ok refresh_flags;
  _ ← tss_store 0x24 (fun c => match sw with TS_IRET => without (flags c) NT | _ => flags c end);
  _ ← each registers (fun i => tss_store (0x28 + 4 * i) (fun c => REGi c i));
  _ ← each segments (fun i => tss_store (0x48 + 4 * i) (fun c => sel (seg_of c i)));
  match sw with TS_CALL => mret tt | _ => busy_bit (fun c => sel (seg_of c SEG_TR)) (fun v => without v (Z.shiftl 1 9)) end.
Definition load_task (oldtss : Z) (sw : SwitchType) : Exc (CPUI386 D) unit :=
  _ ← put (fun c => c <| cr0 := Z.lor (cr0 c) (Z.shiftl 1 3) |>);
  ldt ← tss_load 0x60; _ ← must (set_seg SEG_LDT ldt);
  _ ← each registers (fun i => v ← tss_load (0x28 + 4 * i); put (set_REGi i v));
  _ ← each segments (fun i => v ← tss_load (0x48 + 4 * i); must (set_seg i v));
  v ← tss_load 0x20; _ ← put (fun c => c <| next_ip := v |>);
  f ← tss_load 0x24; _ ← put (fun c => c <| flags := Z.lor (Z.land f (flags_mask c)) 0x2 |>);
  _ ← (match sw with TS_CALL => _ ← tss_store 0 (fun _ => oldtss); set_flags (fun f => Z.lor f NT) | _ => mret tt end);
  v ← tss_load 0x1c; put (fun c => tlb_clear (c <| cr3 := v |>)).
Definition task_switch (tss : Z) (sw : SwitchType) : Exc (CPUI386 D) unit :=
  oldtss ← get (fun c => sel (seg_of c SEG_TR));
  t ← get tss32; _ ← (if t : bool then mret tt else abort);
  _ ← save_task sw; _ ← must (set_seg SEG_TR tss);
  t ← get tss32; _ ← (if t : bool then mret tt else abort);
  _ ← (match sw with
       | TS_IRET => mret tt
       | _ => _ ← busy_bit (fun _ => tss) (fun v => Z.lor v (Z.shiftl 1 9));
              put (fun c => let s := seg_of c SEG_TR in
                set_seg_reg SEG_TR (mkSeg (sel s) (base s) (limit s) (Z.lor (sflags s) 2)) c)
       end);
  load_task oldtss sw.

(** ** Far jumps and calls *)

(** The return address on the current stack; [at_sp k] is the slot [k] below SP. *)
Definition below (w m sp k : Z) : Z := Z.land (sp - size w * k) m.
Definition push_return (w m : Z) : Exc (CPUI386 D) unit :=
  sp ← get (lreg32 4);
  o1 ← slot w 2 SEG_SS (below w m sp 1); o2 ← slot w 2 SEG_SS (below w m sp 2);
  _ ← put (set_sp (sp - size w * 2) m);
  s ← get (fun c => sel (seg_of c SEG_CS)); _ ← ok (store_w w o1 s); i ← get next_ip; ok (store_w w o2 i).
(** The same-privilege case of a call gate stores before it moves the pointer. *)
Definition push_return_gate (w : Z) : Exc (CPUI386 D) unit :=
  sp ← get (lreg32 4); m ← get stack_mask;
  o1 ← slot w 2 SEG_SS (below w m sp 1); o2 ← slot w 2 SEG_SS (below w m sp 2);
  s ← get (fun c => sel (seg_of c SEG_CS)); _ ← ok (store_w w o1 s); i ← get next_ip; _ ← ok (store_w w o2 i);
  put (set_sp (sp - size w * 2) m).
Definition enter_code (newcs newip : Z) : Exc (CPUI386 D) unit :=
  _ ← must (set_seg SEG_CS newcs); put (fun c => c <| next_ip := newip |>).

Definition call_code (opsz16 isjmp : bool) (addr sel1 w2 m : Z) : Exc (CPUI386 D) unit := fun c =>
  let dpl := Z.land (Z.shiftr w2 13) 3 in
  if negb (Z.testbit w2 11) then THROW EX_GP (no_rpl sel1) c else
  if (if Z.testbit w2 10 then cpl c <? dpl else (cpl c <? Z.land sel1 3) || negb (dpl =? cpl c))
  then THROW EX_GP (no_rpl sel1) c else
  let newcs := Z.lor (Z.land sel1 0xfffc) (cpl c) in
  (_ ← (if isjmp then mret tt else push_return (width opsz16) m); enter_code newcs addr) c.

(** [n] parameters from the caller's stack, and to the new one. *)
Fixpoint read_params (n : nat) (w m sp : Z) : Exc (CPUI386 D) (list Z) :=
  match n with
  | O => mret []
  | S n => o ← slot w 1 SEG_SS (Z.land sp m); v ← ok (load_w w o); l ← read_params n w m (sp + size w); mret (v :: l)
  end.
Fixpoint write_params (w m sp : Z) (l : list Z) : Exc (CPUI386 D) unit :=
  match l with
  | [] => mret tt
  | v :: l => o ← must (slot w 2 SEG_SS (below w m sp (2 + alen (v :: l)))); _ ← ok (store_w w o v); write_params w m sp l
  end.
(** The stack of privilege level [pl] in the task state segment: SP and SS. *)
Definition tss_stack (pl : Z) : Exc (CPUI386 D) (Z * OptAddr * Z) :=
  wide ← get (fun c => Z.testbit (sflags (seg_of c SEG_TR)) 3);
  let w := if wide : bool then 32 else 16 in
  o1 ← slot w 1 SEG_TR (size w + size w * 2 * pl); o2 ← slot w 1 SEG_TR (size w * 2 + size w * 2 * pl);
  sp ← ok (load_w w o1); mret (w, o2, sp).
Definition push_gate_frame (w oldss oldsp : Z) (params : list Z) : Exc (CPUI386 D) unit :=
  m ← get stack_mask; sp ← get (lreg32 4); let wc := alen params in
  o1 ← must (slot w 2 SEG_SS (below w m sp 1)); o2 ← must (slot w 2 SEG_SS (below w m sp 2));
  o3 ← must (slot w 2 SEG_SS (below w m sp (3 + wc))); o4 ← must (slot w 2 SEG_SS (below w m sp (4 + wc)));
  _ ← write_params w m sp params;
  _ ← ok (store_w w o1 oldss); _ ← ok (store_w w o2 oldsp);
  s ← get (fun c => sel (seg_of c SEG_CS)); _ ← ok (store_w w o3 s); i ← get next_ip; _ ← ok (store_w w o4 i);
  put (set_sp (sp - size w * (4 + wc)) m).
Definition gate_inward (isjmp : bool) (w wc newdpl : Z) : Exc (CPUI386 D) unit :=
  oldss ← get (fun c => sel (seg_of c SEG_SS)); oldsp ← get (fun c => REGi c 4); m ← get stack_mask;
  params ← read_params (Z.to_nat wc) w m oldsp;
  '(tw, mss0, sp0) ← tss_stack newdpl;
  _ ← put (set_REGi 4 sp0); ss0 ← ok (load_w tw mss0); _ ← set_seg SEG_SS ss0;
  if isjmp then mret tt else push_gate_frame w oldss oldsp params.

Definition call_gate (isjmp : bool) (w1 w2 : Z) : Exc (CPUI386 D) unit :=
  let gate16 := Z.land (Z.shiftr w2 8) 0xf =? 4 in let w := width gate16 in
  let newcs := Z.shiftr w1 16 in
  let newip := Z.lor (Z.land w1 0xffff) (Z.land w2 0xffff0000) in let newip := if gate16 then Z.land newip 0xffff else newip in
  if Z.land newcs (Z.lnot 3) =? 0 then THROW EX_GP 0 else
  '(_, neww2) ← read_desc false newcs;
  if negb (Z.land (Z.shiftr neww2 11) 3 =? 3) then THROW EX_GP (no_rpl newcs) else
  let newdpl := Z.land (Z.shiftr neww2 13) 3 in
  if negb (Z.testbit neww2 15) then THROW EX_NP (no_rpl newcs) else
  lvl ← get cpl;
  if lvl <? newdpl then THROW EX_GP (no_rpl newcs) else
  if negb (Z.testbit neww2 10) && (newdpl <? lvl) then
    _ ← gate_inward isjmp w (Z.land w2 31) newdpl; enter_code (Z.lor (Z.land newcs 0xfffc) newdpl) newip
  else
    _ ← (if isjmp then mret tt else push_return_gate w);
    lvl ← get cpl; enter_code (Z.lor (Z.land newcs 0xfffc) lvl) newip.

Definition pmcall (opsz16 : bool) (addr sel1 : Z) (isjmp : bool) : Exc (CPUI386 D) unit :=
  let sel1 := Z.land sel1 0xffff in
  m ← get stack_mask;
  if no_rpl sel1 =? 0 then THROW EX_GP 0 else
  '(w1, w2) ← read_desc true sel1;
  let dpl := Z.land (Z.shiftr w2 13) 3 in
  if negb (Z.testbit w2 15) then THROW EX_NP (no_rpl sel1) else
  if Z.testbit w2 12 then call_code opsz16 isjmp addr sel1 w2 m else
  let gt := Z.land (Z.shiftr w2 8) 0xf in let sw := if isjmp then TS_JMP else TS_CALL in
  lvl ← get cpl; t ← get tss32;
  if (dpl <? lvl) || (dpl <? Z.land sel1 3) then THROW EX_GP (no_rpl sel1) else
  if (t : bool) && (gt =? 9) then task_switch sel1 sw else
  if t && (gt =? 5) then task_switch (Z.shiftr w1 16) sw else
  if negb ((gt =? 4) || (gt =? 12)) then abort else call_gate isjmp w1 w2.

(** ** Interrupt delivery *)

Definition isr_path (sel1 w2 ext : Z) : Exc (CPUI386 D) (IsrPath * Z) := fun c =>
  let dpl := Z.land (Z.shiftr w2 13) 3 in let vm := nz (Z.land (flags c) VM) in let conforming := Z.testbit w2 10 in
  let gp : Exc (CPUI386 D) (IsrPath * Z) := THROW EX_GP (Z.lor (no_rpl sel1) ext) in
  if negb (Z.testbit w2 12) || negb (Z.testbit w2 11) || (cpl c <? dpl) then gp c else
  if negb (Z.testbit w2 15) then THROW EX_NP (no_rpl sel1) c else
  if negb conforming && (dpl <? cpl c) then
    if negb vm then Done (Some (InterPVL, dpl), c) else
    if negb (dpl =? 0) then gp c else Done (Some (FromV86, dpl), c)
  else if vm then gp c else
  if conforming || (dpl =? cpl c) then Done (Some (IntraPVL, dpl), c) else gp c.
Definition call_isr_check_cs (sel1 ext : Z) : Exc (CPUI386 D) (IsrPath * Z) := fun c =>
  let sel1 := Z.land sel1 0xffff in let off := Z.land sel1 (Z.lnot 7) in
  let '(b, lim) := if Z.testbit sel1 2 then (base (seg_of c SEG_LDT), limit (seg_of c SEG_LDT)) else (gdt_base c, gdt_limit c) in
  if (no_rpl sel1 =? 0) || (lim <? off + 7) then THROW EX_GP ext c else
  (o ← must (translate_laddr 1 (u32 (b + off + 4)) 4 0); w2 ← ok (load32 o); isr_path sel1 w2 ext) c.

(** The slots [l] below [sp], translated in order. *)
Fixpoint frame_slots (try1 : bool) (w m sp : Z) (l : list Z) : Exc (CPUI386 D) (list OptAddr) :=
  match l with
  | [] => mret []
  | k :: l => let t := slot w 2 SEG_SS (below w m sp k) in
      o ← (if try1 then must t else t); r ← frame_slots try1 w m sp l; mret (o :: r)
  end.
(** The error code has a slot only when one is pushed. *)
Definition upto (n : Z) (pusherr : bool) : list Z := if pusherr then Z.of_nat <$> seq 1 (Z.to_nat n) else Z.of_nat <$> seq 1 (Z.to_nat n - 1).
Definition cs_of c : Z := sel (seg_of c SEG_CS).
Definition store_opt (w : Z) (o : option OptAddr) (v : CPUI386 D -> Z) : Exc (CPUI386 D) unit :=
  match o with Some o => x ← get v; ok (store_w w o x) | None => mret tt end.
(** FLAGS, CS and IP; the flags are settled just before they are stored. *)
Definition store_context (w : Z) (f : Z -> Z) (l : list OptAddr) : Exc (CPUI386 D) unit :=
  _ ← ok settle; _ ← store_opt w (l !! 0%nat) (fun c => f (flags c));
  _ ← store_opt w (l !! 1%nat) cs_of; store_opt w (l !! 2%nat) ip.

Definition real_isr (no : Z) : Exc (CPUI386 D) unit :=
  m ← get stack_mask; b ← get idt_base;
  o ← must (translate_laddr 1 (u32 (b + no * 4)) 4 0); w1 ← ok (load32 o);
  let newcs := Z.shiftr w1 16 in let newip := Z.land w1 0xffff in
  sp ← get (lreg32 4); l ← frame_slots true 16 m sp [1; 2; 3];
  _ ← store_context 16 (fun f => f) l; _ ← put (sreg32 4 (below 16 m sp 3));
  _ ← must (set_seg SEG_CS newcs);
  _ ← put (fun c => c <| next_ip := newip |> <| ip := newip |>); set_flags (fun f => without f (Z.lor IF_ TF)).

(** The same privilege level.  With a 16-bit gate the error code is stored as 32
    bits in its 16-bit slot. *)
Definition isr_intra (gate16 pusherr : bool) : Exc (CPUI386 D) unit :=
  let w := width gate16 in
  sp ← get (lreg32 4); m ← get stack_mask;
  l ← frame_slots false w m sp (upto 4 pusherr);
  _ ← store_context w (fun f => f) l; _ ← store_opt 32 (l !! 3%nat) excerr;
  put (set_sp (sp - size w * alen l) m).
Definition isr_inter (gate16 pusherr : bool) (newpl : Z) : Exc (CPUI386 D) unit :=
  let w := width gate16 in
  oldss ← get (fun c => sel (seg_of c SEG_SS)); oldsp ← get (fun c => REGi c 4);
  '(tw, mss0, newsp) ← tss_stack newpl; newss ← ok (load_w tw mss0);
  _ ← put (set_REGi 4 newsp); _ ← set_seg SEG_SS (Z.land newss 0xffff);
  m ← get stack_mask; sp ← get (lreg32 4);
  l ← frame_slots false w m sp (upto 6 pusherr);
  _ ← store_opt w (l !! 0%nat) (fun _ => oldss); _ ← store_opt w (l !! 1%nat) (fun _ => oldsp);
  _ ← store_context w (fun f => f) (drop 2 l); _ ← store_opt w (l !! 5%nat) excerr;
  let sp' := sp - size w * alen l in put (fun c => if gate16 then set_sp sp' m c else sreg32 4 sp' c).
(** From virtual 8086 mode to level 0. *)
Definition isr_v86 (gate16 pusherr : bool) : Exc (CPUI386 D) unit :=
  if gate16 then abort else
  oldss ← get (fun c => sel (seg_of c SEG_SS)); oldsp ← get (fun c => REGi c 4);
  wide ← get (fun c => Z.testbit (sflags (seg_of c SEG_TR)) 3);
  if negb (wide : bool) then abort else
  '(_, mss0, newsp) ← tss_stack 0; newss ← ok (load32 mss0);
  oldflags ← get flags; _ ← set_flags (fun f => without f VM); _ ← put (set_REGi 4 newsp);
  _ ← (fun c => match set_seg SEG_SS (Z.land newss 0xffff) c with
       | Done (None, c') => let c' := c' <| flags := oldflags |> in Done (None, set_REGi 4 oldsp c')
       | r => r
       end);
  m ← get stack_mask; sp ← get (lreg32 4);
  l ← frame_slots true 32 m sp (upto 10 false); e ← frame_slots false 32 m sp (if pusherr then [10] else []);
  _ ← store_opt 32 (l !! 0%nat) (fun c => sel (seg_of c SEG_GS)); _ ← store_opt 32 (l !! 1%nat) (fun c => sel (seg_of c SEG_FS));
  _ ← store_opt 32 (l !! 2%nat) (fun c => sel (seg_of c SEG_DS)); _ ← store_opt 32 (l !! 3%nat) (fun c => sel (seg_of c SEG_ES));
  _ ← store_opt 32 (l !! 4%nat) (fun _ => oldss); _ ← store_opt 32 (l !! 5%nat) (fun _ => oldsp);
  _ ← store_context 32 (fun f => Z.lor f VM) (drop 6 l); _ ← store_opt 32 (e !! 0%nat) excerr;
  _ ← put (set_sp (sp - 4 * (9 + alen e)) m);
  each [SEG_DS; SEG_ES; SEG_FS; SEG_GS] (fun s => must (set_seg s 0)).

Definition gate_flags (gt : Z) : Exc (CPUI386 D) unit :=
  if (gt =? 6) || (gt =? 0xe) then set_flags (fun f => without f IF_) else mret tt.
Definition enter_isr (newcs newip gt : Z) : Exc (CPUI386 D) unit :=
  _ ← must (set_seg SEG_CS newcs); _ ← put (fun c => c <| next_ip := newip |> <| ip := newip |>);
  _ ← set_flags (fun f => without f (Z.lor (Z.lor TF RF) NT)); gate_flags gt.
Definition enter_isr_v86 (newcs newip gt : Z) : Exc (CPUI386 D) unit :=
  _ ← set_flags (fun f => without f (Z.lor (Z.lor TF RF) NT)); _ ← must (set_seg SEG_CS newcs);
  _ ← put (fun c => c <| next_ip := newip |> <| ip := newip |>); gate_flags gt.

(** Through an interrupt or trap gate. *)
Definition isr_gate (gt newcs newip : Z) (pusherr : bool) (ext : Z) : Exc (CPUI386 D) unit :=
  let gate16 := (gt =? 6) || (gt =? 7) in let newip := if gate16 then Z.land newip 0xffff else newip in
  let to (pl : Z) := Z.lor (Z.land newcs (Z.lnot 3)) pl in
  '(path, csdpl) ← call_isr_check_cs newcs ext;
  match path with
  | IntraPVL => _ ← isr_intra gate16 pusherr; lvl ← get cpl; enter_isr (to lvl) newip gt
  | InterPVL => _ ← isr_inter gate16 pusherr csdpl; enter_isr (to csdpl) newip gt
  | FromV86 => _ ← isr_v86 gate16 pusherr; enter_isr_v86 (to 0) newip gt
  end.
(** The two words of gate [no]. *)
Definition read_gate (no : Z) : Exc (CPUI386 D) (Z * Z) :=
  b ← get idt_base; let off := Z.shiftl no 3 in
  o ← must (translate_laddr 1 (u32 (b + off)) 4 0); w1 ← ok (load32 o);
  o ← must (translate_laddr 1 (u32 (b + off + 4)) 4 0); w2 ← ok (load32 o); mret (w1, w2).
Definition protected_isr (no : Z) (pusherr : bool) (ext : Z) : Exc (CPUI386 D) unit := fun c =>
  let off := Z.shiftl no 3 in let e := Z.lor (Z.lor off 2) ext in
  if idt_limit c <? off + 7 then THROW EX_GP e c else
  ('(w1, w2) ← read_gate no;
   let gt := Z.land (Z.shiftr w2 8) 0xf in let dpl := Z.land (Z.shiftr w2 13) 3 in
   if negb ((gt =? 6) || (gt =? 7) || (gt =? 0xe) || (gt =? 0xf) || (gt =? 5)) then THROW EX_GP e else
   lvl ← get cpl;
   if (ext =? 0) && (dpl <? lvl) then THROW EX_GP (Z.lor off 2) else
   if negb (Z.testbit w2 15) then THROW EX_NP e else
   if gt =? 5 then task_switch (Z.shiftr w1 16) TS_CALL else
   isr_gate gt (Z.shiftr w1 16) (Z.lor (Z.land w1 0xffff) (Z.land w2 0xffff0000)) pusherr ext) c.
Definition call_isr (no : Z) (pusherr : bool) (ext : Z) : Exc (CPUI386 D) unit := fun c =>
  if Z.testbit (cr0 c) 0 then protected_isr no pusherr ext c else real_isr no c.

(** ** Far returns *)

(** [__pmiret_check_cs_same] and [__pmiret_check_cs_outer] *)
Definition pmiret_check_cs (outer : bool) (sel1 : Z) : Exc (CPUI386 D) unit :=
  let sel1 := Z.land sel1 0xffff in
  if no_rpl sel1 =? 0 then THROW EX_GP (no_rpl sel1) else
  '(_, w2) ← read_desc false sel1;
  let conforming := Z.testbit w2 10 in let dpl := Z.land (Z.shiftr w2 13) 3 in
  if negb (Z.testbit w2 12) || negb (Z.testbit w2 11) then THROW EX_GP (no_rpl sel1) else
  lvl ← get cpl;
  if (if outer then (if conforming then dpl <=? lvl else negb (dpl =? Z.land sel1 3))
      else if conforming then lvl <? dpl else negb (dpl =? lvl)) then THROW EX_GP (no_rpl sel1) else
  if negb (Z.testbit w2 15) then THROW EX_NP (no_rpl sel1) else mret tt.

(** The flags IRET may load at this privilege level. *)
Definition iret_flags (oldflags newflags : Z) c : Z :=
  let keep := Z.lor (if 0 <? cpl c then IOPL else 0) (if get_IOPL c <? cpl c then IF_ else 0) in
  Z.lor (Z.land (Z.lor (Z.land oldflags keep) (without newflags keep)) (flags_mask c)) 0x2.
Definition load_at (w m sp k : Z) : Exc (CPUI386 D) OptAddr := slot w 1 SEG_SS (Z.land (sp + k) m).
Definition pop_segment (s : Z) (o : OptAddr) : Exc (CPUI386 D) unit := v ← ok (load32 o); must (set_seg s v).

Definition return_v86 (opsz16 : bool) (m sp newcs newip newflags : Z) : Exc (CPUI386 D) unit :=
  lvl ← get cpl;
  if nz lvl then abort else if opsz16 then abort else
  o4 ← load_at 32 m sp 12; o5 ← load_at 32 m sp 16; es ← load_at 32 m sp 20; ds ← load_at 32 m sp 24;
  fs ← load_at 32 m sp 28; gs ← load_at 32 m sp 32;
  _ ← set_flags (fun _ => newflags); _ ← must (set_seg SEG_CS newcs); _ ← put (set_sp (sp + 12) m);
  _ ← put (fun c => c <| next_ip := newip |>);
  _ ← pop_segment SEG_SS o5; _ ← pop_segment SEG_ES es; _ ← pop_segment SEG_DS ds; _ ← pop_segment SEG_FS fs;
  v ← ok (load32 gs); _ ← set_seg SEG_GS v; v ← ok (load32 o4); put (set_sp v 0xffffffff).
Definition return_same (w off m sp newcs newip : Z) (newflags : option Z) : Exc (CPUI386 D) unit :=
  _ ← pmiret_check_cs false newcs;
  _ ← (match newflags with Some f => set_flags (fun _ => f) | None => mret tt end);
  _ ← must (set_seg SEG_CS newcs); _ ← put (set_sp (sp + size w * 2 + off) m);
  put (fun c => c <| next_ip := newip |>).
Definition return_outer (w off m sp newcs newip : Z) (newflags : option Z) : Exc (CPUI386 D) unit :=
  _ ← pmiret_check_cs true newcs;
  o4 ← load_at w m sp (size w * 2 + off); o5 ← load_at w m sp (size w * 3 + off);
  v ← ok (load_w w o4); newss ← ok (load_w w o5);
  let newsp := match newflags with None => v + off | Some _ => v end in
  _ ← (match newflags with Some f => set_flags (fun _ => f) | None => mret tt end);
  _ ← must (set_seg SEG_CS newcs); _ ← must (set_seg SEG_SS newss);
  m' ← get stack_mask; _ ← put (set_sp newsp m'); _ ← put (fun c => c <| next_ip := newip |>); put clear_segs.

(** [Some] flags for an IRET. *)
Definition far_return (opsz16 isiret : bool) (off m sp newcs newip newflags : Z) : Exc (CPUI386 D) unit :=
  let w := width opsz16 in let f := if isiret then Some newflags else None in
  _ ← (if isiret && nz (Z.land newflags VM) then return_v86 opsz16 m sp newcs newip newflags else
       lvl ← get cpl; let rpl := Z.land newcs 3 in
       if rpl <? lvl then THROW EX_GP (no_rpl newcs) else
       if rpl =? lvl then return_same w off m sp newcs newip f else return_outer w off m sp newcs newip f);
  if isiret then put (set_mask 0) else mret tt.
Definition return_frame (opsz16 isiret : bool) (off : Z) : Exc (CPUI386 D) unit :=
  let w := width opsz16 in let off := if isiret then off + size w else off in
  m ← get stack_mask; sp ← get (lreg32 4); oldflags ← get flags;
  o1 ← load_at w m sp 0; o2 ← load_at w m sp (size w);
  newflags ← (if isiret then
      o3 ← load_at w m sp (size w * 2); v ← ok (load_w w o3);
      mret (if opsz16 then Z.lor (Z.land oldflags 0xffff0000) v else v)
    else mret 0);
  newip ← ok (load_w w o1); newcs ← ok (load_w w o2);
  f ← get (fun c => if isiret then iret_flags oldflags newflags c else newflags);
  far_return opsz16 isiret off m sp newcs newip f.
Definition pmret (opsz16 : bool) (off : Z) (isiret : bool) : Exc (CPUI386 D) unit := fun c =>
  if isiret && nz (Z.land (flags c) VM) then THROW EX_GP 0 c else
  if isiret && nz (Z.land (flags c) NT) then
    (o ← slot 16 1 SEG_TR 0; tssback ← ok (load16 o);
     if tssback =? 0 then THROW EX_TS 0 else task_switch tssback TS_IRET) c
  else return_frame opsz16 isiret off c.

(** ** The instructions *)

Definition protected_mode c : bool := Z.testbit (cr0 c) 0 && negb (nz (Z.land (flags c) VM)).
Definition JMPFAR (opsz16 : bool) (addr s : Z) : Exc (CPUI386 D) unit := fun c =>
  if protected_mode c then pmcall opsz16 addr s true c else
  (_ ← set_seg SEG_CS s; put (fun c => c <| next_ip := addr |>)) c.
Definition CALLFAR (opsz16 : bool) (addr s : Z) : Exc (CPUI386 D) unit := fun c =>
  if protected_mode c then pmcall opsz16 addr s false c else
  (let w := width opsz16 in
   m ← get sp_mask; sp ← get (lreg32 4);
   o1 ← translate_w w 2 SEG_SS (fun _ => below w m sp 1); o2 ← translate_w w 2 SEG_SS (fun _ => below w m sp 2);
   _ ← put (set_sp (sp - size w * 2) m);
   v ← get cs_of; _ ← ok (store_w w o1 v); i ← get next_ip; _ ← ok (store_w w o2 i);
   _ ← set_seg SEG_CS s; put (fun c => c <| next_ip := addr |>)) c.
(** [RETFAR] is [RETFARw] with 0. *)
Definition RETFARw (opsz16 : bool) (i : Z) : Exc (CPUI386 D) unit := fun c =>
  if protected_mode c then pmret opsz16 i false c else
  (let w := width opsz16 in
   m ← get sp_mask; sp ← get (lreg32 4);
   o1 ← translate_w w 1 SEG_SS (fun _ => Z.land sp m); newip ← ok (load_w w o1);
   o2 ← translate_w w 1 SEG_SS (fun _ => Z.land (sp + size w) m); newcs ← ok (load_w w o2);
   _ ← set_seg SEG_CS newcs; _ ← put (set_sp (sp + size w * 2 + i) m); put (fun c => c <| next_ip := newip |>)) c.
Definition INT3 : Exc (CPUI386 D) unit := _ ← put (fun c => c <| ip := next_ip c |>); THROW0 EX_BP.
Definition INTO : Exc (CPUI386 D) unit :=
  o ← ok (fun c => lift (get_OF c) c); if nz o then _ ← put (fun c => c <| ip := next_ip c |>); THROW0 EX_OF else mret tt.
(** A failed delivery leaves the instruction pointer at the instruction. *)
Definition INT (no : Z) : Exc (CPUI386 D) unit := fun c =>
  if nz (Z.land (flags c) VM) && (get_IOPL c <? 3) then THROW EX_GP 0 c else
  match call_isr no false 0 (c <| ip := next_ip c |>) with
  | Done (None, c') => Done (None, c' <| ip := ip c |>)
  | r => r
  end.
Definition real_iret : Exc (CPUI386 D) unit :=
  m ← get sp_mask; sp ← get (lreg32 4);
  o1 ← translate_w 16 1 SEG_SS (fun _ => Z.land sp m); newip ← ok (load16 o1);
  o2 ← translate_w 16 1 SEG_SS (fun _ => Z.land (sp + 2) m); newcs ← ok (load16 o2);
  o3 ← translate_w 16 1 SEG_SS (fun _ => Z.land (sp + 4) m);
  oldflags ← get flags; v ← ok (load16 o3);
  _ ← put (fun c =>
    let f := if nz (Z.land (flags c) VM) then Z.lor (Z.land (flags c) (Z.lor 0xffff0000 IOPL)) (without v IOPL)
             else Z.lor (Z.land (flags c) 0xffff0000) v in
    c <| flags := Z.lor (Z.land f (flags_mask c)) 0x2 |>);
  _ ← (fun c => match set_seg SEG_CS newcs c with
       | Done (None, c') => Done (None, c' <| flags := oldflags |>)
       | r => r
       end);
  _ ← put (set_mask 0); _ ← put (set_sp (sp + 6) m); put (fun c => c <| next_ip := newip |>).
(** The result tells whether the dispatch loop is left. *)
Definition IRET (opsz16 : bool) : Exc (CPUI386 D) bool :=
  _ ← (fun c =>
    if Z.testbit (cr0 c) 0 && (negb (nz (Z.land (flags c) VM)) || (get_IOPL c <? 3)) then pmret opsz16 0 true c
    else if opsz16 then real_iret c else abort c);
  get (fun c => intr c && nz (Z.land (flags c) IF_)).

End Operations.

End Far.
