(* ===== verification/I386Priv.v ===== *)
(** * I386Priv: privilege levels across far transfers and interrupts

    Which instructions can change the current privilege level, and how: far jumps
    and calls never go outward, far returns never go inward, and a gate is entered
    only when its privilege level admits the caller. *)

From S2P Require Import Prelude I386 I386Alu I386Mmu I386Paging I386Mem I386String I386Rep I386Data I386Far.

Module Priv.
Import I386 Alu Mmu Paging Mem Str Rep Data Far.

Create HintDb calm.

Section Privilege.
Context {D : Type} `{IoMem D} `{IoPorts D}.
Implicit Types c : CPUI386 D.

(** ** Code that leaves the mode of the processor alone *)

Definition mode c : Z * bool * bool := (cpl c, Z.testbit (cr0 c) 0, nz (Z.land (flags c) VM)).
Definition calm {A} (m : Exc (CPUI386 D) A) : Prop := forall c, leads m c (fun _ c' => mode c' = mode c).

Lemma leads_weaken {A} (m : Exc (CPUI386 D) A) c P Q : leads m c P -> (forall r c', P r c' -> Q r c') -> leads m c Q.
Proof. unfold leads. destruct (m c) as [[r c']|]; auto. Qed.
Lemma leads_calm {A B} (m : Exc (CPUI386 D) A) (k : A -> Exc (CPUI386 D) B) c P :
  calm m -> (forall a c', mode c' = mode c -> leads (k a) c' P) -> (forall c', mode c' = mode c -> P None c') -> leads (m ≫= k) c P.
Proof. intros Hm Hk Hn. apply (leads_bind _ _ _ (fun _ c' => mode c' = mode c)); [apply Hm|done|done]. Qed.
Lemma leads_get {A B} (f : CPUI386 D -> A) (k : A -> Exc (CPUI386 D) B) c P : leads (k (f c)) c P -> leads (get f ≫= k) c P.
Proof. unfold leads. by rewrite get_bind. Qed.
Lemma leads_put {B} (f : CPUI386 D -> CPUI386 D) (k : unit -> Exc (CPUI386 D) B) c P : leads (k tt) (f c) P -> leads (put f ≫= k) c P.
Proof. unfold leads. by rewrite put_bind. Qed.

Lemma calm_bind {A B} (m : Exc (CPUI386 D) A) (k : A -> Exc (CPUI386 D) B) : calm m -> (forall a, calm (k a)) -> calm (m ≫= k).
Proof.
  intros Hm Hk c. apply leads_calm; [done| |done]. intros a c1 E1. eapply leads_weaken; [apply Hk|]. intros r c' E. congruence.
Qed.
Lemma calm_ret {A} (a : A) : calm (mret a).
Proof. by intros c. Qed.
Lemma calm_get {A} (f : CPUI386 D -> A) : calm (get f).
Proof. by intros c. Qed.
Lemma calm_put f : (forall c, mode (f c) = mode c) -> calm (put f).
Proof. intros Hf c. apply Hf. Qed.
Lemma calm_throw {A} e k : calm (THROW (A := A) e k).
Proof. by intros c. Qed.
Lemma calm_throw0 {A} e : calm (THROW0 (A := A) e).
Proof. by intros c. Qed.
Lemma calm_fails {A} : calm (fails (A := A)).
Proof. by intros c. Qed.
Lemma calm_abort {A} : calm (abort (A := A)).
Proof. by intros c. Qed.
Lemma calm_must {A} (m : Exc (CPUI386 D) A) : calm m -> calm (must m).
Proof. intros Hm c. specialize (Hm c). unfold leads, must in *. by destruct (m c) as [[[a|] c']|]. Qed.
Lemma calm_state {A} (m : CPUI386 D -> Exc (CPUI386 D) A) : (forall c, calm (m c)) -> calm (fun c => m c c).
Proof. intros Hm c. apply Hm. Qed.

(** Code that changes only memory and devices. *)
Lemma calm_free {A} (m : ST (CPUI386 D) A) : reg_free m -> calm (ok m).
Proof.
  intros Hm c. unfold leads, ok. destruct (m c) as [[a c']|] eqn:E; [|done]. destruct (rf_changes m Hm c a c' E) as [-> _]. done.
Qed.
Lemma calm_memory {A} (m : ST (CPUI386 D) A) : memory_only m -> calm (ok m).
Proof. intros Hm c. unfold leads, ok. destruct (m c) as [[a c']|] eqn:E; [|done]. destruct (Hm c a c' E) as [-> _]. done. Qed.

Ltac free_access := repeat lazymatch goal with
  | |- reg_free (mbind _ _) => apply free_bind; [|intros ?]
  | |- reg_free (guarded _ _ _ _) => apply free_guarded
  | |- reg_free (pload8 _) => apply free_pload8
  | |- reg_free (mret _) => apply free_ret
  | |- reg_free (lift (Stuck _)) => apply free_stuck
  | |- reg_free (if ?b then _ else _) => destruct b
  end.
Lemma free_load n o : reg_free (load n o).
Proof. destruct n as [|[|[|n]]]; destruct o; cbn [load]; unfold load8, load16, load32, pload16, pload32; cbv zeta; free_access. Qed.
Lemma calm_load w o : calm (ok (load_w w o)).
Proof. apply calm_free, free_load. Qed.
Lemma calm_store w o v : calm (ok (store_w w o v)).
Proof. apply calm_free, free_store. Qed.
Lemma calm_load16 o : calm (ok (load16 o)).
Proof. exact (calm_load 16 o). Qed.
Lemma calm_load32 o : calm (ok (load32 o)).
Proof. exact (calm_load 32 o). Qed.
Lemma calm_store32 o v : calm (ok (store32 o v)).
Proof. exact (calm_store 32 o v). Qed.
Lemma calm_or_byte a k : calm (ok (or_byte a k)).
Proof. apply calm_memory, memory_or_byte. Qed.
Lemma calm_pload32 a : calm (ok (pload32 a)).
Proof. apply calm_memory, memory_pload32. Qed.
Lemma calm_dirty p : calm (ok (mark_pte_dirty p)).
Proof. apply calm_memory, memory_dirty. Qed.

(** The flags the lazy evaluation writes are not the mode. *)
Lemma SET_BIT_vm w f i : 0 <= i < 17 -> nz (Z.land (SET_BIT w f (Z.shiftl 1 i)) VM) = nz (Z.land w VM).
Proof.
  intros Hi. change VM with (Z.shiftl 1 17). rewrite !land_bit_nz by lia. unfold SET_BIT, u32.
  rewrite Z.lor_spec, !Z.land_spec, !Z.mod_pow2_bits_low, Z.lnot_spec, !shiftl_1_testbit by lia.
  rewrite bool_decide_false by lia. cbn [negb]. by rewrite andb_true_r, andb_false_r, orb_false_r.
Qed.

(** Walk through the sequence of a computation that leaves the mode alone. *)
Ltac calm := repeat lazymatch goal with
  | |- calm (mbind _ _) => apply calm_bind; [|intros ?]
  | |- calm (mret _) => apply calm_ret
  | |- calm (get _) => apply calm_get
  | |- calm (put clear_segs) => solve [auto with calm nocore]
  | |- calm (put _) => apply calm_put; intros ?; try (reflexivity || (case_match; reflexivity))
  | |- calm (pop_segment _ _) => unfold pop_segment
  | |- calm (load_at _ _ _ _) => unfold load_at
  | |- calm (THROW _ _) => apply calm_throw
  | |- calm (THROW0 _) => apply calm_throw0
  | |- calm fails => apply calm_fails
  | |- calm abort => apply calm_abort
  | |- calm (must _) => apply calm_must
  | |- calm (ok (load_w _ _)) => apply calm_load
  | |- calm (set_flags _) => unfold set_flags
  | |- calm (ok (store_w _ _ _)) => apply calm_store
  | |- calm (ok (load16 _)) => apply calm_load16
  | |- calm (ok (load32 _)) => apply calm_load32
  | |- calm (ok (store32 _ _)) => apply calm_store32
  | |- calm (ok (or_byte _ _)) => apply calm_or_byte
  | |- calm (ok (pload32 _)) => apply calm_pload32
  | |- calm (ok (mark_pte_dirty _)) => apply calm_dirty
  | |- calm (match ?x with _ => _ end) => destruct x
  | |- calm (let '(_, _) := ?x in _) => destruct x
  | |- calm _ => first [progress cbv zeta | solve [auto with calm nocore]]
  end.

Lemma calm_refill s l : calm (tlb_refill s l).
Proof. unfold tlb_refill. calm. Qed.
Lemma calm_page_fault {A} p rwm lvl laddr : calm (page_fault (A := A) p rwm lvl laddr).
Proof. unfold page_fault. calm. Qed.
Lemma calm_find rwm l laddr lvl : calm (find_entry rwm l laddr lvl).
Proof.
  intros c. unfold leads, find_entry. destruct (lpgno (entry c l) =? l); [done|].
  pose proof (calm_refill (slot_of l) l c) as Hr. unfold leads in Hr. destruct (tlb_refill (slot_of l) l c) as [[[[]|] c']|]; [done| |done].
  pose proof (calm_page_fault (A := TlbEntry) 0 rwm lvl laddr c') as Hp. unfold leads in Hp.
  destruct (page_fault 0 rwm lvl laddr c') as [[r c2]|]; [congruence|done].
Qed.
Lemma mode_drop_fast l c : mode (drop_fast l c) = mode c.
Proof. unfold drop_fast. cbv zeta. by repeat case_match. Qed.
(** The leaves of a definition by cases on the state. *)
Ltac calm_leaf c := lazymatch goal with
  | |- match ?M c with Done _ => _ | Stuck _ => True end => let h := fresh in cut (calm M); [intros h; exact (h c)|]
  | |- leads ?M c _ => let h := fresh in cut (calm M); [intros h; exact (h c)|]
  | _ => try reflexivity
  end.
Ltac calm_cases c := intros c; unfold leads; cbv zeta; repeat case_match; calm_leaf c; calm.

Lemma calm_fast rwm l laddr lvl : calm (translate_lpgno_fast rwm l laddr lvl).
Proof.
  intros c. unfold leads, translate_lpgno_fast. cbv zeta. destruct (_ && _); [done|]. destruct (_ && _); [done|]. destruct (_ && _).
  - calm_leaf c. apply calm_bind; [|intros ?; calm]. destruct (_ =? _); calm.
  - calm_leaf c. apply calm_bind; [apply calm_find|intros e]. calm. apply mode_drop_fast. apply calm_page_fault.
Qed.
Lemma calm_laddr rwm laddr n lvl : calm (translate_laddr rwm laddr n lvl).
Proof. unfold translate_laddr. calm; apply calm_fast. Qed.
Lemma calm_segcheck s : calm (segcheck s).
Proof. intros c. unfold leads, segcheck. by destruct (_ && _). Qed.
Lemma calm_translate rwm s addr n lvl : calm (translate rwm s addr n lvl).
Proof. intros c. unfold leads, translate. cbv zeta. calm_leaf c. calm; [apply calm_segcheck|apply calm_laddr]. Qed.
Lemma calm_slot w rwm s addr : calm (slot w rwm s addr).
Proof. apply calm_translate. Qed.
Lemma calm_read_desc b s : calm (read_desc b s).
Proof.
  intros c. unfold leads, read_desc. cbv zeta. destruct (if Z.testbit _ 2 then _ else _) as [x l]. destruct (_ <? _); [done|].
  calm_leaf c. calm; apply calm_laddr.
Qed.

Lemma calm_seq {A B} (m : ST (CPUI386 D) A) (k : A -> ST (CPUI386 D) B) : calm (ok m) -> (forall a, calm (ok (k a))) -> calm (ok (m ≫= k)).
Proof.
  intros Hm Hk c. specialize (Hm c). unfold leads, ok, mbind, ST_bind in *. destruct (m c) as [[a c1]|]; [|done]. cbn [fst snd].
  specialize (Hk a c1). unfold leads, ok in Hk. destruct (k a c1) as [[b c2]|]; [exact (eq_trans Hk Hm)|done].
Qed.
Lemma calm_lift {A} (f : CPUI386 D -> outcome A) : calm (ok (fun c => lift (f c) c)).
Proof. intros c. unfold leads, ok, lift. by destruct (f c). Qed.
Lemma calm_set_flag i v : 0 <= i < 17 -> calm (ok (set_flag (Z.shiftl 1 i) v)).
Proof. intros Hi c. unfold leads, ok, set_flag, modify, mode. cbn. by rewrite SET_BIT_vm. Qed.
#[local] Hint Resolve calm_slot calm_translate calm_laddr calm_read_desc : calm.
Lemma calm_settle : calm (ok settle).
Proof.
  unfold settle, refresh_flags.
  repeat (apply calm_seq; [|intros ?]); try apply calm_lift; try done;
    lazymatch goal with |- calm (ok (set_flag ?f _)) => let i := eval vm_compute in (Z.log2 f) in exact (calm_set_flag i _ ltac:(lia)) end.
Qed.
Lemma calm_set_seg s v : s <> SEG_CS -> calm (set_seg s v).
Proof.
  intros Hs c. unfold leads, set_seg. cbv zeta. rewrite (proj2 (Z.eqb_neq s SEG_CS)) by done.
  destruct (_ || _); [by destruct (s =? SEG_SS)|]. calm_leaf c.
  calm.
Qed.

#[local] Hint Resolve calm_set_seg : calm.
#[local] Hint Extern 0 (_ <> SEG_CS) => discriminate : calm.
(** Loading CS outside real and virtual 8086 mode takes the level of the selector. *)
Lemma mode_parts c c' : mode c' = mode c ->
  cpl c' = cpl c /\ Z.testbit (cr0 c') 0 = Z.testbit (cr0 c) 0 /\ nz (Z.land (flags c') VM) = nz (Z.land (flags c) VM).
Proof.
  intros E. split; [exact (f_equal (fun p => p.1.1) E)|]. split; [exact (f_equal (fun p => p.1.2) E)|exact (f_equal (fun p => p.2) E)].
Qed.
Lemma protected_split c : protected_mode c = true -> Z.testbit (cr0 c) 0 = true /\ nz (Z.land (flags c) VM) = false.
Proof. unfold protected_mode. intros E. apply andb_prop in E as [E1 E2]. split; [exact E1|by apply negb_true_iff]. Qed.
Lemma mode_protected c : protected_mode c = true -> mode c = (cpl c, true, false).
Proof. intros Hp. apply protected_split in Hp as [E1 E2]. unfold mode. by rewrite E1, E2. Qed.
Lemma protected_mode_of c c' : mode c' = mode c -> protected_mode c' = protected_mode c.
Proof. intros E. apply mode_parts in E as (_ & E1 & E2). unfold protected_mode. by rewrite E1, E2. Qed.
Lemma leads_load_cs v c : protected_mode c = true -> leads (set_seg SEG_CS v) c (fun r c' =>
  match r with Some _ => mode c' = (Z.land v 3, true, false) | None => mode c' = mode c end).
Proof.
  intros Hp. pose proof (mode_protected c Hp) as Hm. apply protected_split in Hp as [Hpe Hvm].
  unfold leads, set_seg. cbv zeta. rewrite Hpe, Hvm. cbn [negb orb Z.eqb SEG_CS Pos.eqb].
  match goal with |- context [(?m ≫= ?k) c] => change (leads (m ≫= k) c (fun r c' => match r with Some _ => mode c' = (Z.land v 3, true, false) | None => mode c' = mode c end)) end.
  apply leads_calm; [apply calm_read_desc| |done]. intros [w1 w2] c1 E1.
  repeat (destruct (_ && _); [exact E1|]). apply mode_parts in E1 as (_ & Ep & Ev). rewrite Hpe in Ep. rewrite Hvm in Ev.
  unfold leads. rewrite !put_bind. change ((Z.land (Z.land v 0xffff) 3, Z.testbit (cr0 c1) 0, nz (Z.land (flags c1) VM)) = (Z.land v 3, true, false)).
  rewrite Ep, Ev, <- Z.land_assoc. done.
Qed.
Lemma leads_load_cs_v86 v c : nz (Z.land (flags c) VM) = true -> leads (set_seg SEG_CS v) c (fun r c' => is_Some r /\ cpl c' = 3).
Proof. intros Hv. unfold leads, set_seg. cbv zeta. rewrite Hv, orb_true_r. by split. Qed.
Lemma leads_must {A} (m : Exc (CPUI386 D) A) c P : leads m c (fun r c' => is_Some r -> P r c') -> leads (must m) c P.
Proof. unfold leads, must. destruct (m c) as [[[a|] c']|]; [intros Hm; by apply Hm|done|done]. Qed.

(** The state keeps the mode of [c0]. *)
Lemma from_calm {A B} (m : Exc (CPUI386 D) A) (k : A -> Exc (CPUI386 D) B) c0 c P : mode c = mode c0 -> calm m ->
  (forall a c', mode c' = mode c0 -> leads (k a) c' P) -> (forall c', mode c' = mode c0 -> P None c') -> leads (m ≫= k) c P.
Proof. intros E Hm Hk Hn. apply leads_calm; [done| |]; intros; [apply Hk|apply Hn]; congruence. Qed.
(** A calm step of a sequence; what holds of a failure is left to [tac]. *)
Ltac pass_with tac := lazymatch goal with
  | E : mode ?c = mode ?c0 |- leads (_ ≫= _) ?c _ =>
      apply (from_calm _ _ c0 c _ E); [calm|let c' := fresh "c" in let E' := fresh "E" in intros ? c' E'; try clear E; try clear c|tac]
  end.

(** ** Far returns *)

(** A far return or an IRET that is not a task return never ends at a more
    privileged level than it started at. *)
Definition outward c c' : Prop := cpl c <= cpl c'.
Lemma mode_outward c c' : mode c' = mode c -> outward c c'.
Proof. intros E. apply mode_parts in E as [E _]. unfold outward. lia. Qed.

Lemma load_cs_then {B} v (k : unit -> Exc (CPUI386 D) B) c0 c P : mode c = mode c0 -> protected_mode c0 = true ->
  (forall c', mode c' = (Z.land v 3, true, false) -> leads (k tt) c' P) -> leads (must (set_seg SEG_CS v) ≫= k) c P.
Proof.
  intros E Hp Hk. apply (leads_bind _ _ _ (fun r c' => r = Some tt /\ mode c' = (Z.land v 3, true, false))).
  - apply leads_must. eapply leads_weaken; [apply leads_load_cs; by rewrite (protected_mode_of _ _ E)|].
    intros [[]|] c' E' [x Hx]; [by split|done].
  - intros [] c' [_ E']. by apply Hk.
  - by intros c' [? _].
Qed.
Lemma rest_calm {A} (m : Exc (CPUI386 D) A) c P : calm m -> (forall c', mode c' = mode c -> P c') -> leads m c (fun _ => P).
Proof. intros Hm HP. eapply leads_weaken; [apply Hm|]. intros r c' E. by apply HP. Qed.
(** IRET may set the flags, but not VM when it returns to protected mode. *)
Definition load_flags (f : option Z) : Exc (CPUI386 D) unit := match f with Some f => set_flags (fun _ => f) | None => mret tt end.
Lemma load_flags_then {B} f (k : unit -> Exc (CPUI386 D) B) c0 c P : mode c = mode c0 -> protected_mode c0 = true ->
  (forall x, f = Some x -> nz (Z.land x VM) = false) -> (forall c', mode c' = mode c0 -> leads (k tt) c' P) -> leads (load_flags f ≫= k) c P.
Proof.
  intros E Hp Hf Hk. rewrite <- (protected_mode_of _ _ E) in Hp. apply protected_split in Hp as [_ Hv]. destruct f as [x|]; [|by apply Hk].
  apply leads_put, Hk. rewrite <- E. unfold mode. cbn [flags cpl cr0 set_field]. by rewrite Hf, Hv.
Qed.
Lemma mode_clear_segs c : mode (clear_segs c) = mode c.
Proof.
  assert (Hs : forall s c, mode (clear_seg s c) = mode c) by (intros s c0; unfold clear_seg; cbv zeta; by repeat case_match).
  unfold clear_segs. cbn [fold_left]. by rewrite !Hs.
Qed.
Lemma calm_clear_segs : calm (put clear_segs).
Proof. apply calm_put, mode_clear_segs. Qed.
Lemma calm_check_cs o s : calm (pmiret_check_cs o s).
Proof. unfold pmiret_check_cs. calm. Qed.

#[local] Hint Resolve calm_settle calm_check_cs calm_clear_segs : calm.

Ltac pass := pass_with ltac:(intros; by apply mode_outward).

Section Returns.
Variables (w off m sp cs newip : Z) (f : option Z).
Hypothesis no_vm : forall x, f = Some x -> nz (Z.land x VM) = false.

Lemma return_same_outward c : protected_mode c = true -> Z.land cs 3 = cpl c -> leads (return_same w off m sp cs newip f) c (fun _ => outward c).
Proof.
  intros Hp Hr. unfold return_same. assert (E : mode c = mode c) by done. pass.
  apply (load_flags_then f _ c); [done..|]. intros c2 E2. apply (load_cs_then _ _ c); [done..|]. intros c3 E3.
  apply rest_calm; [calm|]. intros c4 E4. unfold outward. rewrite E3 in E4. injection E4 as -> _ _. lia.
Qed.
Lemma return_outer_outward c : protected_mode c = true -> cpl c <= Z.land cs 3 -> leads (return_outer w off m sp cs newip f) c (fun _ => outward c).
Proof.
  intros Hp Hr. unfold return_outer, load_at. assert (E : mode c = mode c) by done. pass.
  do 4 pass.
  apply (load_flags_then f _ c); [done..|]. intros c2 E2. apply (load_cs_then _ _ c); [done..|]. intros c3 E3.
  apply rest_calm; [calm|]. intros c4 E4. unfold outward. rewrite E3 in E4. injection E4 as -> _ _. lia.
Qed.
End Returns.

Lemma outward_from {A} (m : Exc (CPUI386 D) A) c0 c : mode c = mode c0 -> leads m c (fun _ => outward c) -> leads m c (fun _ => outward c0).
Proof.
  intros E Hm. eapply leads_weaken; [exact Hm|]. intros r c' Hc. apply mode_parts in E as [E _]. unfold outward in *. lia.
Qed.
Lemma return_v86_outward o16 m sp cs newip x c : nz (Z.land x VM) = true -> leads (return_v86 o16 m sp cs newip x) c (fun _ => outward c).
Proof.
  intros Hx. unfold return_v86, load_at. apply leads_get. destruct (nz (cpl c)) eqn:El; [done|]. destruct o16; [done|].
  assert (E : mode c = mode c) by done. do 6 pass. unfold set_flags. apply leads_put.
  apply (leads_bind _ _ _ (fun r c' => r = Some tt /\ cpl c' = 3)).
  - apply leads_must. eapply leads_weaken; [by apply leads_load_cs_v86|]. intros [[]|] c' [[? ?] E'] _; [by split|done].
  - intros [] c' [_ E']. apply rest_calm; [calm|]. intros c3 E3. apply mode_parts in E3 as [E3 _].
    unfold outward. apply negb_false_iff, Z.eqb_eq in El. lia.
  - by intros c' [? _].
Qed.

Lemma far_return_level o16 isiret off m sp cs newip x c : protected_mode c = true ->
  leads (far_return o16 isiret off m sp cs newip x) c (fun _ => outward c).
Proof.
  intros Hp. unfold far_return. cbv zeta. apply (leads_bind _ _ _ (fun _ => outward c)); [|intros [] c' Hc|done].
  - destruct (isiret && nz (Z.land x VM)) eqn:Ev; [apply andb_prop in Ev as [_ Ev]; by apply return_v86_outward|].
    assert (Hf : forall f, (if isiret then Some x else None) = Some f -> nz (Z.land f VM) = false) by (intros f E; destruct isiret; by simplify_eq).
    apply leads_get. destruct (Z.ltb_spec (Z.land cs 3) (cpl c)); [unfold outward; cbn; lia|].
    destruct (Z.eqb_spec (Z.land cs 3) (cpl c)); [by apply return_same_outward|by apply return_outer_outward].
  - destruct isiret; exact Hc.
Qed.

(** A task return is an IRET with NT set. *)
Definition task_return (isiret : bool) c : bool := isiret && nz (Z.land (flags c) NT).

(** C10. Privilege of far returns: RETF and IRET outside virtual 8086 mode never end at a
    more privileged level than they started at, whatever is on the stack and in
    the descriptor tables, and also when they fault halfway; only a task return,
    which loads the whole state of another task, may. *)
Theorem far_return_outward opsz16 off isiret c : protected_mode c = true -> task_return isiret c = false ->
  leads (pmret opsz16 off isiret) c (fun _ c' => cpl c <= cpl c').
Proof.
  intros Hp Hn. unfold pmret, leads. apply protected_split in Hp as Hm. destruct Hm as [_ Hv]. rewrite Hv, andb_false_r.
  unfold task_return in Hn. rewrite Hn. change (leads (return_frame opsz16 isiret off) c (fun _ => outward c)).
  unfold return_frame. cbv zeta. assert (E : mode c = mode c) by done. do 3 apply leads_get. do 2 pass.
  do 3 pass. apply leads_get.
  eapply outward_from; [eassumption|]. apply far_return_level. by erewrite protected_mode_of.
Qed.

(** ** Far calls and gates *)

(** A more privileged or the same level. *)
Definition inward c c' : Prop := cpl c' <= cpl c.
Lemma mode_inward c c' : mode c' = mode c -> inward c c'.
Proof. intros E. apply mode_parts in E as [E _]. unfold inward. lia. Qed.
Ltac pass_in := pass_with ltac:(intros; by apply mode_inward).

Lemma enter_code_level pl v newip c0 c (P : CPUI386 D -> Prop) : mode c = mode c0 -> protected_mode c0 = true -> Z.land v 3 = pl ->
  (forall c', cpl c' = pl -> P c') -> leads (enter_code v newip) c (fun _ => P).
Proof.
  intros E Hp Hv HP. unfold enter_code. apply (load_cs_then _ _ c0); [done..|]. intros c' E'. apply rest_calm; [calm|].
  intros c2 E2. apply HP. rewrite E' in E2. apply (f_equal (fun p => p.1.1)) in E2. cbn in E2. congruence.
Qed.
Lemma level_bits s pl : 0 <= pl < 4 -> Z.land (Z.lor (Z.land s 0xfffc) pl) 3 = pl.
Proof.
  intros Hpl. rewrite Z.land_lor_distr_l, <- Z.land_assoc. change (Z.land 0xfffc 3) with 0. rewrite Z.land_0_r, Z.lor_0_l.
  assert (pl = 0 \/ pl = 1 \/ pl = 2 \/ pl = 3) as Hc by lia. by destruct Hc as [-> |[-> |[-> | ->]]].
Qed.
Lemma dpl_range w2 : 0 <= Z.land (Z.shiftr w2 13) 3 < 4.
Proof. change (Z.land (Z.shiftr w2 13) 3) with (Z.land (Z.shiftr w2 13) (Z.ones 2)). rewrite Z.land_ones by lia. by apply Z.mod_pos_bound. Qed.

Lemma calm_push_return w m : calm (push_return w m).
Proof. unfold push_return. calm. Qed.
Lemma calm_push_return_gate w : calm (push_return_gate w).
Proof. unfold push_return_gate. calm. Qed.
Lemma calm_read_params n w m sp : calm (read_params n w m sp).
Proof. revert sp. induction n as [|n IH]; intros sp; cbn [read_params]; calm. Qed.
Lemma calm_write_params w m sp l : calm (write_params w m sp l).
Proof. induction l as [|v l IH]; cbn [write_params]; calm. Qed.
Lemma calm_tss_stack pl : calm (tss_stack pl).
Proof. unfold tss_stack. calm. Qed.
#[local] Hint Resolve calm_push_return calm_push_return_gate calm_read_params calm_write_params calm_tss_stack : calm.
Lemma calm_gate_frame w ss sp l : calm (push_gate_frame w ss sp l).
Proof. unfold push_gate_frame. calm. Qed.
#[local] Hint Resolve calm_gate_frame : calm.
Lemma calm_gate_inward j w wc pl : calm (gate_inward j w wc pl).
Proof. unfold gate_inward. calm. Qed.
#[local] Hint Resolve calm_gate_inward : calm.

(** A far jump or call to a code segment stays at its level. *)
Lemma call_code_level o16 j addr s w2 m c : protected_mode c = true -> 0 <= cpl c < 4 ->
  leads (call_code o16 j addr s w2 m) c (fun _ c' => cpl c' = cpl c).
Proof.
  intros Hp Hl. unfold leads, call_code. cbv zeta. destruct (negb _); [done|]. destruct (if Z.testbit w2 10 then _ else _); [done|].
  match goal with |- context [(?m ≫= ?k) c] => change (leads (m ≫= k) c (fun _ c' => cpl c' = cpl c)) end.
  assert (E : mode c = mode c) by done. pass_with ltac:(intros ? E'; exact (proj1 (mode_parts _ _ E'))).
  eapply enter_code_level; [done|done|by apply level_bits|done].
Qed.
Lemma call_gate_inward j w1 w2 c : protected_mode c = true -> 0 <= cpl c < 4 -> leads (call_gate j w1 w2) c (fun _ => inward c).
Proof.
  intros Hp Hl. assert (E : mode c = mode c) by done. unfold call_gate. cbv zeta. destruct (_ =? 0); [by apply mode_inward|].
  pass_in. destruct a as [? neww2]. destruct (negb _); [by apply mode_inward|]. destruct (negb _); [by apply mode_inward|].
  apply leads_get. destruct (Z.ltb_spec (cpl c0) (Z.land (Z.shiftr neww2 13) 3)); [by apply mode_inward|].
  pose proof (proj1 (mode_parts _ _ E0)) as El. destruct (negb (Z.testbit neww2 10) && _).
  - pass_in. eapply enter_code_level; [done|done|apply level_bits, dpl_range|]. intros c' Ec. unfold inward. lia.
  - pass_in. apply leads_get. pose proof (proj1 (mode_parts _ _ E)).
    eapply enter_code_level; [done|done|apply level_bits; lia|]. intros c' Ec. unfold inward. lia.
Qed.
Lemma leads_step {A B} (m : Exc (CPUI386 D) A) (k : A -> Exc (CPUI386 D) B) c P :
  (forall a c', m c = Done (Some a, c') -> leads (k a) c' P) -> (forall c', m c = Done (None, c') -> P None c') -> leads (m ≫= k) c P.
Proof. unfold leads, mbind, Exc_bind. intros Hk Hn. destruct (m c) as [[[a|] c']|]; [by apply Hk|by apply Hn|done]. Qed.
Lemma calm_at {A} (m : Exc (CPUI386 D) A) c r c' : calm m -> m c = Done (r, c') -> mode c' = mode c.
Proof. intros Hm E. specialize (Hm c). unfold leads in Hm. by rewrite E in Hm. Qed.

(** The descriptor of [s] and what a far call needs to know of it. *)
Definition describes c (s w1 w2 : Z) : Prop := exists c1, read_desc true (Z.land s 0xffff) c = Done (Some (w1, w2), c1).
Definition gate_type (w2 : Z) : Z := Z.land (Z.shiftr w2 8) 0xf.
Definition desc_dpl (w2 : Z) : Z := Z.land (Z.shiftr w2 13) 3.
Definition is_task (w2 : Z) : bool := negb (Z.testbit w2 12) && ((gate_type w2 =? 5) || (gate_type w2 =? 9)).

(** C11. Privilege of far jumps and calls: unless the descriptor is a task gate or a task
    state segment, the level after [pmcall] is the level before or a more
    privileged one, faults halfway included; and a more privileged one is
    reached only through a call gate whose own level admits both the caller and
    the privilege bits of the selector. *)
Theorem far_call_inward opsz16 addr s isjmp c : protected_mode c = true -> 0 <= cpl c < 4 ->
  (forall w1 w2, describes c s w1 w2 -> is_task w2 = false) ->
  leads (pmcall opsz16 addr s isjmp) c (fun _ c' => cpl c' <= cpl c /\ (cpl c' < cpl c -> exists w1 w2, describes c s w1 w2 /\
    (gate_type w2 = 4 \/ gate_type w2 = 12) /\ Z.testbit w2 12 = false /\ cpl c <= desc_dpl w2 /\ Z.land s 3 <= desc_dpl w2)).
Proof.
  intros Hp Hl Ht. set (P := fun (_ : option unit) c' => _). assert (Hk : forall r c', cpl c' = cpl c -> P r c') by (intros r c' E; unfold P; lia).
  assert (Hx : forall n e c1, cpl c1 = cpl c -> leads (THROW n e) c1 P) by (intros n e c1 E; exact (Hk None c1 E)).
  unfold pmcall. cbv zeta. apply leads_get. destruct (_ =? 0); [by apply Hx|].
  apply leads_step; [|intros c1 E; by apply Hk, mode_parts, (calm_at _ _ _ _ (calm_read_desc _ _) E)].
  intros [w1 w2] c1 Ed. assert (Hd : describes c s w1 w2) by by eexists. specialize (Ht _ _ Hd). cbv beta.
  pose proof (calm_at _ _ _ _ (calm_read_desc _ _) Ed) as Em. pose proof (proj1 (mode_parts _ _ Em)) as El.
  assert (Hp1 : protected_mode c1 = true) by by rewrite (protected_mode_of _ _ Em).
  destruct (negb (Z.testbit w2 15)); [by apply Hx|]. destruct (Z.testbit w2 12) eqn:Es.
  - eapply leads_weaken; [apply call_code_level; [done|lia]|]. intros r c2 E2. apply Hk. exact (eq_trans E2 El).
  - unfold is_task in Ht. rewrite Es in Ht. apply orb_false_iff in Ht as [Ht5 Ht9]. unfold gate_type in *.
    do 2 apply leads_get. destruct (_ || _) eqn:Eg; [by apply Hx|]. apply orb_false_iff in Eg as [Eg1%Z.ltb_ge Eg2%Z.ltb_ge].
    rewrite Ht9, Ht5, !andb_false_r. destruct (negb _) eqn:Et; [done|]. apply negb_false_iff, orb_true_iff in Et. rewrite !Z.eqb_eq in Et.
    eapply leads_weaken; [apply call_gate_inward; [done|lia]|]. intros r c2 E2. unfold inward in E2. unfold P. split; [lia|]. intros _.
    exists w1, w2. split; [done|]. split; [exact Et|]. split; [done|]. unfold desc_dpl. rewrite <- Z.land_assoc in Eg2. change (Z.land 0xffff 3) with 3 in Eg2. lia.
Qed.

(** ** Interrupts *)

Lemma without_vm f m : Z.testbit m 17 = false -> nz (Z.land (without f m) VM) = nz (Z.land f VM).
Proof.
  intros Hm. change VM with (Z.shiftl 1 17). rewrite !land_bit_nz by lia.
  unfold without, u32. by rewrite Z.land_spec, Z.mod_pow2_bits_low, Z.lnot_spec, Hm, andb_true_r by lia.
Qed.
Lemma calm_without m : Z.testbit m 17 = false -> calm (set_flags (fun f => without f m)).
Proof. intros Hm. apply calm_put. intros c. unfold mode. cbn [cpl cr0 flags set_field]. by rewrite without_vm. Qed.
Lemma calm_gate_flags gt : calm (gate_flags gt).
Proof. unfold gate_flags. destruct (_ || _); [by apply calm_without|calm]. Qed.
#[local] Hint Resolve calm_gate_flags : calm.
Lemma calm_store_opt w o v : calm (store_opt w o v).
Proof. unfold store_opt. calm. Qed.
#[local] Hint Resolve calm_store_opt : calm.
Lemma calm_context w f l : calm (store_context w f l).
Proof. unfold store_context. calm. Qed.
Lemma calm_frame_slots t w m sp l : calm (frame_slots t w m sp l).
Proof. induction l as [|k l IH]; cbn [frame_slots]; cbv zeta; calm. Qed.
#[local] Hint Resolve calm_context calm_frame_slots : calm.
Lemma calm_isr_intra g p : calm (isr_intra g p).
Proof. unfold isr_intra. calm. Qed.
Lemma calm_isr_inter g p pl : calm (isr_inter g p pl).
Proof. unfold isr_inter. calm. Qed.
#[local] Hint Resolve calm_isr_intra calm_isr_inter : calm.
Lemma calm_isr_path s w e : calm (isr_path s w e).
Proof. intros c. unfold leads, isr_path. cbv zeta. repeat (match goal with |- context [if ?b then _ else _] => destruct b end); done. Qed.
#[local] Hint Resolve calm_isr_path : calm.
Lemma calm_isr_cs s e : calm (call_isr_check_cs s e).
Proof.
  intros c. unfold leads, call_isr_check_cs. cbv zeta. destruct (if Z.testbit _ 2 then _ else _) as [b l]. destruct (_ || _); [done|].
  calm_leaf c. calm.
Qed.
Lemma calm_read_gate no : calm (read_gate no).
Proof. unfold read_gate. calm. Qed.
#[local] Hint Resolve calm_isr_cs calm_read_gate : calm.


Lemma isr_level_bits v pl : 0 <= pl < 4 -> Z.land (Z.lor (Z.land v (Z.lnot 3)) pl) 3 = pl.
Proof.
  intros Hpl. rewrite Z.land_lor_distr_l, <- Z.land_assoc. change (Z.land (Z.lnot 3) 3) with 0. rewrite Z.land_0_r, Z.lor_0_l.
  assert (pl = 0 \/ pl = 1 \/ pl = 2 \/ pl = 3) as Hc by lia. by destruct Hc as [-> |[-> |[-> | ->]]].
Qed.
(** How the handler's code segment relates to the level of the interrupted code. *)
Definition path_level c (r : option (IsrPath * Z)) : Prop :=
  match r with Some (InterPVL, pl) => 0 <= pl < cpl c | Some (FromV86, _) => False | _ => True end.
Lemma isr_path_level s w e c : protected_mode c = true -> leads (isr_path s w e) c (fun r _ => path_level c r).
Proof.
  intros Hp. apply protected_split in Hp as [_ Hv]. unfold leads, isr_path. rewrite Hv. cbv zeta.
  destruct (_ || _); [done|]. destruct (negb _); [done|]. destruct (negb _ && _) eqn:E; [|by destruct (_ || _)].
  apply andb_prop in E as [_ E%Z.ltb_lt]. pose proof (dpl_range w). cbn [path_level negb]. lia.
Qed.
Lemma isr_cs_level s e c : protected_mode c = true -> leads (call_isr_check_cs s e) c (fun r _ => path_level c r).
Proof.
  intros Hp. unfold leads, call_isr_check_cs. cbv zeta. destruct (if Z.testbit _ 2 then _ else _) as [b l]. destruct (_ || _); [done|].
  match goal with |- match ?m c with _ => _ end => change (leads m c (fun r _ => path_level c r)) end.
  assert (E : mode c = mode c) by done. do 2 (pass_with ltac:(done)).
  eapply leads_weaken; [apply isr_path_level; by rewrite (protected_mode_of _ _ E)|]. intros r c2 Hr.
  apply mode_parts in E as [E _]. unfold path_level in *. by rewrite E in Hr.
Qed.
Lemma enter_isr_level v pl newip gt c0 c (P : option unit -> CPUI386 D -> Prop) : mode c = mode c0 -> protected_mode c0 = true -> 0 <= pl < 4 ->
  (forall c', cpl c' = pl -> P (Some tt) c') -> leads (enter_isr (Z.lor (Z.land v (Z.lnot 3)) pl) newip gt) c P.
Proof.
  intros E Hp Hl HP. unfold enter_isr. apply (load_cs_then _ _ c0); [done..|]. intros c' E'. rewrite isr_level_bits in E' by done.
  apply (f_equal (fun p => p.1.1)) in E'. apply leads_put. unfold set_flags. apply leads_put. unfold gate_flags.
  destruct (_ || _); apply HP; exact E'.
Qed.

(** The words of gate [no] of the interrupt descriptor table. *)
Definition gate_at c (no w1 w2 : Z) : Prop := exists c1, read_gate no c = Done (Some (w1, w2), c1).

Lemma isr_gate_inward gt v newip p e c : protected_mode c = true -> 0 <= cpl c < 4 ->
  leads (isr_gate gt v newip p e) c (fun r c' => match r with Some _ => inward c c' | None => mode c' = mode c end).
Proof.
  intros Hp Hl. unfold isr_gate. cbv zeta. apply (leads_bind _ _ _ (fun r c' => path_level c r /\ mode c' = mode c)).
  - pose proof (isr_cs_level v e c Hp) as H1. pose proof (calm_isr_cs v e c) as H2. unfold leads in *.
    destruct (call_isr_check_cs v e c) as [[r c']|]; [by split|done].
  - intros [[] pl] c1 [Hr E]; unfold path_level in Hr; [| |done].
    + pass_with ltac:(done). apply leads_get. pose proof (proj1 (mode_parts _ _ E0)).
      eapply enter_isr_level; [exact E0|done|lia|]. intros c' Ec. unfold inward. lia.
    + pass_with ltac:(done). eapply enter_isr_level; [exact E0|done|lia|]. intros c' Ec. unfold inward. lia.
  - by intros c' [_ E].
Qed.

(** C12. Privilege of software interrupts: an INT instruction in protected mode that does
    not go through a task gate either faults, and then the level is unchanged, or
    enters a present gate whose level admits the caller, at the same or a more
    privileged level. *)
Theorem software_interrupt_inward no pusherr c : protected_mode c = true -> 0 <= cpl c < 4 ->
  (forall w1 w2, gate_at c no w1 w2 -> gate_type w2 <> 5) ->
  leads (call_isr no pusherr 0) c (fun r c' => match r with
    | Some _ => cpl c' <= cpl c /\ exists w1 w2, gate_at c no w1 w2 /\ cpl c <= desc_dpl w2 /\ Z.testbit w2 15 = true
    | None => cpl c' = cpl c end).
Proof.
  intros Hp Hl Ht. set (P := fun (r : option unit) c' => _). assert (Hk : forall c', mode c' = mode c -> P None c') by (intros c' E; apply (mode_parts _ _ E)).
  assert (Hx : forall n e c1, mode c1 = mode c -> leads (THROW n e) c1 P) by (intros n e c1 E; exact (Hk c1 E)).
  unfold call_isr, leads. rewrite (proj1 (protected_split _ Hp)). change (leads (protected_isr no pusherr 0) c P). unfold leads, protected_isr. cbv zeta.
  destruct (_ <? _); [by apply (Hk c)|].
  match goal with |- context [(?m ≫= ?k) c] => change (leads (m ≫= k) c P) end.
  apply leads_step; [|intros c1 E; by apply Hk, (calm_at _ _ _ _ (calm_read_gate _) E)].
  intros [w1 w2] c1 Ed. assert (Hd : gate_at c no w1 w2) by by eexists. specialize (Ht _ _ Hd). unfold gate_type in Ht. cbv beta.
  pose proof (calm_at _ _ _ _ (calm_read_gate _) Ed) as Em. pose proof (proj1 (mode_parts _ _ Em)) as El.
  assert (Hp1 : protected_mode c1 = true) by by rewrite (protected_mode_of _ _ Em).
  destruct (negb (_ || _)); [by apply Hx|]. apply leads_get. destruct (_ && _) eqn:Eg; [by apply Hx|]. apply Z.ltb_ge in Eg.
  destruct (negb (Z.testbit w2 15)) eqn:Es; [by apply Hx|]. apply negb_false_iff in Es. rewrite (proj2 (Z.eqb_neq _ _) Ht).
  eapply leads_weaken; [apply isr_gate_inward; [done|lia]|]. intros [u|] c2 E2; [|by apply Hk; rewrite E2].
  unfold inward in E2. unfold P. split; [lia|]. exists w1, w2. unfold desc_dpl. split; [done|]. split; [lia|done].
Qed.
End Privilege.

(** ** A machine with gates

    A flat protected-mode machine of 256 bytes: the global descriptor table at 0
    has code and data at levels 0 and 3 and a call gate, one interrupt gate is at
    0x30, the task state segment at 0x38 and the frame of a far return to level 3 at
    0xb0. *)
Definition gate_tables : list Z :=
  [0; 0; 0; 0; 0; 0; 0; 0;  0xff; 0; 0; 0; 0; 0x9a; 0x40; 0;  0xff; 0; 0; 0; 0; 0x92; 0x40; 0;
   0xff; 0; 0; 0; 0; 0xfa; 0x40; 0;  0xff; 0; 0; 0; 0; 0xf2; 0x40; 0;  0x50; 0; 8; 0; 0; 0xec; 0; 0;
   0x60; 0; 8; 0; 0; 0xee; 0; 0;  0; 0; 0; 0; 0xb0; 0; 0; 0; 0x10; 0; 0; 0].
Definition return_words : list Z := [0x70; 0; 0; 0; 0x1b; 0; 0; 0; 0xf0; 0; 0; 0; 0x23; 0; 0; 0].
Definition gate_mem : list Z :=
  gate_tables ++ replicate (0xb0 - length gate_tables) 0 ++ return_words ++ replicate 64 0.
Definition flat_seg (s : Z) (ring type : Z) (c : CPUI386 unit) : CPUI386 unit :=
  set_seg_reg s (mkSeg (Z.lor type ring) 0 0xff (Z.lor 0x4092 (Z.lor (Z.shiftl ring 5) (if s =? SEG_CS then 8 else 0)))) c.
Definition at_level (ring code data sp : Z) : CPUI386 unit :=
  sreg32 4 sp (set_seg_reg SEG_TR (mkSeg 0 0x38 0x67 0x8b) (flat_seg SEG_CS ring code (flat_seg SEG_SS ring data
    (demo_cpu <| phys_mem := gate_mem |> <| cr0 := 1 |> <| cpl := ring |> <| sp_mask := 0xffffffff |>
      <| gdt_limit := 0x2f |> <| idt_base := 0x30 |> <| idt_limit := 7 |>)))).
Definition user_cpu : CPUI386 unit := at_level 3 0x18 0x20 0xf0.
Definition kernel_cpu : CPUI386 unit := at_level 0 8 0x10 0xb0.
Definition after {A} (m : Exc (CPUI386 unit) A) c : CPUI386 unit := match m c with Done (_, c') => c' | Stuck _ => c end.
Definition returns {A} (m : Exc (CPUI386 unit) A) c : bool := match m c with Done (Some _, _) => true | _ => false end.
Lemma leads_after {A} (m : Exc (CPUI386 unit) A) c P : returns m c = true -> leads m c P -> exists a, P (Some a) (after m c).
Proof. unfold returns, leads, after. destruct (m c) as [[[a|] c']|]; [intros _ Hp; by exists a|done..]. Qed.

Lemma kernel_protected : protected_mode kernel_cpu = true.
Proof. vm_compute. reflexivity. Qed.
Lemma kernel_returns : returns (pmret false 0 false) kernel_cpu = true.
Proof. vm_compute. reflexivity. Qed.
Lemma far_return_outward_witness : cpl kernel_cpu = 0 /\ cpl (after (pmret false 0 false) kernel_cpu) = 3 /\
  cpl kernel_cpu <= cpl (after (pmret false 0 false) kernel_cpu).
Proof.
  split; [vm_compute; reflexivity|]. split; [vm_compute; reflexivity|].
  destruct (leads_after _ _ _ kernel_returns (far_return_outward false 0 false kernel_cpu kernel_protected eq_refl)) as [u Hu].
  exact Hu.
Defined.

Lemma user_protected : protected_mode user_cpu = true.
Proof. vm_compute. reflexivity. Qed.
Lemma user_level : 0 <= cpl user_cpu < 4.
Proof. vm_compute. split; congruence. Qed.
(** The only descriptor the selector can name, and the only gate. *)
Lemma user_call w1 w2 : describes user_cpu 0x2b w1 w2 -> is_task w2 = false.
Proof.
  intros [c1 E]. assert (Hr : exists c2, read_desc true (Z.land 0x2b 0xffff) user_cpu = Done (Some (0x80050, 0xec00), c2))
    by (eexists; vm_compute; reflexivity).
  destruct Hr as [c2 Hr]. rewrite Hr in E. injection E as _ <- _. vm_compute. reflexivity.
Qed.
Lemma user_interrupt w1 w2 : gate_at user_cpu 0 w1 w2 -> gate_type w2 <> 5.
Proof.
  intros [c1 E]. assert (Hr : exists c2, read_gate 0 user_cpu = Done (Some (0x80060, 0xee00), c2)) by (eexists; vm_compute; reflexivity).
  destruct Hr as [c2 Hr]. rewrite Hr in E. injection E as _ <- _. vm_compute. congruence.
Qed.
Lemma user_calls : returns (pmcall false 0 0x2b false) user_cpu = true.
Proof. vm_compute. reflexivity. Qed.
Lemma user_interrupts : returns (call_isr 0 false 0) user_cpu = true.
Proof. vm_compute. reflexivity. Qed.
Lemma far_call_inward_witness : cpl user_cpu = 3 /\ cpl (after (pmcall false 0 0x2b false) user_cpu) = 0 /\
  cpl (after (pmcall false 0 0x2b false) user_cpu) <= cpl user_cpu.
Proof.
  split; [vm_compute; reflexivity|]. split; [vm_compute; reflexivity|].
  destruct (leads_after _ _ _ user_calls (far_call_inward false 0 0x2b false user_cpu user_protected user_level user_call)) as [u [Hu _]].
  exact Hu.
Defined.
Lemma software_interrupt_inward_witness : cpl user_cpu = 3 /\ cpl (after (call_isr 0 false 0) user_cpu) = 0 /\
  exists w1 w2, gate_at user_cpu 0 w1 w2 /\ cpl user_cpu <= desc_dpl w2.
Proof.
  split; [vm_compute; reflexivity|]. split; [vm_compute; reflexivity|].
  destruct (leads_after _ _ _ user_interrupts (software_interrupt_inward 0 false user_cpu user_protected user_level user_interrupt))
    as (u & _ & w1 & w2 & Hg & Hd & _).
  exists w1, w2. split; [exact Hg|exact Hd].
Defined.

End Priv.
