(* ===== verification/I386Boot.v ===== *)
(** * I386Boot: the boot-time loops of Windows 2000 run natively (winspire/i386.c)

    When the instructions at IP are one of three known loops, the Server build runs
    the whole loop at once: the splash bitmap expansion and the byte copy of
    BOOTVID.DLL and the image checksum of the loader. *)

From S2P Require Import Prelude I386 I386Alu I386Mmu I386Mem I386String I386Data.

Module Boot.
Import I386 Alu Mmu Mem Str Data.

Section Operations.
Context {D : Type} `{IoMem D}.
Implicit Types c : CPUI386 D.

(** [return 0], here and at the label [fallback], takes back what failed translations
    left in CR2 and in the exception fields. *)
Definition attempt (m : Exc (CPUI386 D) bool) : Exc (CPUI386 D) bool := fun c =>
  match m c with
  | Done (Some true, c') => Done (Some true, c')
  | Done (_, c') => Done (Some false, c' <| cr2 := cr2 c |> <| excerr := excerr c |> <| excno := excno c |>)
  | Stuck e => Stuck e
  end.
Definition require (b : bool) (m : Exc (CPUI386 D) bool) : Exc (CPUI386 D) bool := if b then m else mret false.
(** [cpu_abort] when a translation that succeeded before fails. *)
Definition sure {A} (m : Exc (CPUI386 D) A) : Exc (CPUI386 D) A := fun c =>
  match m c with Done (None, _) => Stuck Aborted | r => r end.

Fixpoint same_code (i : Z) (signature : list Z) : Exc (CPUI386 D) bool :=
  match signature with
  | [] => mret true
  | s :: l =>
      a ← get (fun c => u32 (ip c + i)); o ← translate8r SEG_CS a; v ← ok (load8 o);
      require (v =? s) (same_code (i + 1) l)
  end.
Definition win2k_boot_code_matches (signature : list Z) : Exc (CPUI386 D) bool := attempt (same_code 0 signature).

(** Every chunk but the first starts a page. *)
Fixpoint ram_range (fuel : nat) (s rwm addr size offset : Z) : Exc (CPUI386 D) bool :=
  if size <=? offset then mret true else
  match fuel with
  | O => ok (lift (Stuck Diverges))
  | S fuel =>
      let a := u32 (addr + offset) in
      o ← translate_w 8 rwm s (fun _ => a); n ← get phys_mem_size;
      require (negb (in_iomem (addr1 o) || (n <=? addr1 o)))
        (ram_range fuel s rwm addr size (offset + Z.min (0x1000 - Z.land a 0xfff) (size - offset)))
  end.
Definition win2k_boot_ram_range (s addr size rwm : Z) : Exc (CPUI386 D) bool :=
  ram_range (Z.to_nat (size / 0x1000 + 2)) s rwm addr size 0.

Definition boot_loop (signature : list Z) (body : Exc (CPUI386 D) bool) : Exc (CPUI386 D) bool := fun c =>
  if negb (win2k_boot_fast c) || code16 c || nz (Z.land (flags c) VM) || negb (cpl c =? 0) then Done (Some false, c) else
  (same ← win2k_boot_code_matches signature; require same (attempt body)) c.
(** The state after the last, failing JNZ: [keep] are the flags the loop leaves alone. *)
Definition loop_done (keep extra len cycles : Z) : Exc (CPUI386 D) bool :=
  _ ← put (fun c => set_mask 0 (c <| flags := Z.lor (Z.lor (Z.land (flags c) (u32 (Z.lnot (Z.land ARITH (Z.lnot keep))))) (Z.lor PF ZF)) extra |>
                                <| next_ip := u32 (ip c + len) |> <| cycle := cycle c + cycles |>));
  mret true.

(** ** The bitmap expansion *)

Definition bootvid_signature : list Z := [
  0x8b; 0x55; 0x14; 0x80; 0xe2; 0x01; 0xff; 0x45;
  0x14; 0x84; 0xd2; 0x8b; 0x55; 0x0c; 0x74; 0x0e;
  0x84; 0x02; 0x8b; 0x55; 0x08; 0x74; 0x02; 0x08;
  0x0a; 0xff; 0x45; 0x0c; 0xeb; 0x0e; 0x8a; 0x12;
  0xc0; 0xea; 0x04; 0x84; 0xd0; 0x8b; 0x55; 0x08;
  0x74; 0x02; 0x08; 0x0a; 0xd0; 0xe9; 0x75; 0x09;
  0x42; 0xb1; 0x80; 0x89; 0x55; 0x08; 0x80; 0x22;
  0x00; 0xff; 0x4d; 0xec; 0x75; 0xc2].

Record Bitmap := mkBitmap { counter : Z; source : Z; dest : Z; pixel : Z; last_cf : Z; insns : Z }.

(** One pixel: [al] selects the plane in both halves of a source byte. *)
Definition bootvid_pixel (al : Z) (s : Bitmap) : Exc (CPUI386 D) Bitmap :=
  so ← sure (translate_w 8 1 SEG_DS (fun _ => source s)); d ← sure (translate_w 8 2 SEG_DS (fun _ => dest s));
  v ← ok (load8 so);
  let odd := Z.testbit (counter s) 0 in
  let set_bit := nz (Z.land al (if odd then v else Z.shiftr v 4)) in
  _ ← ok (if set_bit then x ← load8 d; store8 d (Z.lor x (pixel s)) else mret tt);
  let cl := Z.shiftr (pixel s) 1 in
  let s' := mkBitmap (u32 (counter s + 1)) (if odd then u32 (source s + 1) else source s) (dest s) cl
                     (Z.land (pixel s) 1) (insns s + 11 + b2z set_bit + 4) in
  if cl =? 0 then
    d ← sure (translate_w 8 2 SEG_DS (fun _ => u32 (dest s + 1))); _ ← ok (store8 d 0);
    mret (mkBitmap (counter s') (source s') (u32 (dest s + 1)) 0x80 (last_cf s') (insns s' + 4))
  else mret s'.
Fixpoint bootvid_pixels (n : nat) (al : Z) (s : Bitmap) : Exc (CPUI386 D) Bitmap :=
  match n with O => mret s | S n => s' ← bootvid_pixel al s; bootvid_pixels n al s' end.

Definition power_of_two (x : Z) : bool := nz x && (Z.land x (x - 1) =? 0).
(** [bit_offset] *)
Definition bit_offset (cl : Z) : Z := 7 - Z.log2 cl.
Definition bootvid_body : Exc (CPUI386 D) bool :=
  ebp ← get (lreg32 5);
  let at_ k := translate_w 32 2 SEG_SS (fun _ => u32 (ebp + k)) in
  mc ← at_ 0x14; ms ← at_ 0x0c; md ← at_ 0x08; mr ← at_ (-0x14);
  counter0 ← ok (load32 mc); source0 ← ok (load32 ms); dest0 ← ok (load32 md); remaining ← ok (load32 mr);
  al ← get (lreg8 0); cl ← get (lreg8 1);
  require (nz remaining && (remaining <=? 4096) && power_of_two al && power_of_two cl) (
  rs ← win2k_boot_ram_range SEG_DS source0 (u32 (remaining + Z.land counter0 1 + 1) / 2) 1;
  require rs (
  rd ← win2k_boot_ram_range SEG_DS dest0 (u32 (bit_offset cl + remaining) / 8 + 1) 2;
  require rd (
  s ← bootvid_pixels (Z.to_nat remaining) al (mkBitmap counter0 source0 dest0 cl 0 0);
  _ ← ok (store32 mc (counter s)); _ ← ok (store32 ms (source s)); _ ← ok (store32 md (dest s)); _ ← ok (store32 mr 0);
  _ ← put (sreg32 2 (dest s)); _ ← put (sreg8 1 (pixel s));
  loop_done 0 (if nz (last_cf s) then CF else 0) 0x3e (if 1 <? insns s then insns s - 1 else 0)))).
Definition win2k_bootvid_fast_loop : Exc (CPUI386 D) bool := boot_loop bootvid_signature bootvid_body.

(** ** The copy to the display *)

Definition copy_signature : list Z := [0x8a; 0x4c; 0x1d; 0x84; 0x88; 0x0f; 0x47; 0x43; 0x48; 0x75; 0xf5].
(** Every byte of the destination is device memory. *)
Fixpoint device_range (n : nat) (s addr : Z) : Exc (CPUI386 D) bool :=
  match n with
  | O => mret true
  | S n => o ← translate_w 8 2 s (fun _ => addr); require (in_iomem (addr1 o)) (device_range n s (u32 (addr + 1)))
  end.
(** The last byte copied. *)
Fixpoint copy_bytes (n : nat) (src dst cl : Z) : Exc (CPUI386 D) Z :=
  match n with
  | O => mret cl
  | S n =>
      so ← sure (translate_w 8 1 SEG_SS (fun _ => src)); d ← sure (translate_w 8 2 SEG_DS (fun _ => dst));
      v ← ok (load8 so); _ ← ok (store8 d v); copy_bytes n (u32 (src + 1)) (u32 (dst + 1)) v
  end.
Definition copy_body : Exc (CPUI386 D) bool :=
  ebp ← get (lreg32 5); ebx ← get (lreg32 3); edi ← get (lreg32 7); count ← get (lreg32 0);
  require (nz count && (count <=? 128)) (
  let source := u32 (ebp + ebx - 0x7c) in
  rs ← win2k_boot_ram_range SEG_SS source count 1;
  require rs (
  rd ← device_range (Z.to_nat count) SEG_DS edi;
  require rd (
  cl ← copy_bytes (Z.to_nat count) source edi 0;
  _ ← put (fun c => sreg8 1 cl (sreg32 0 0 (sreg32 3 (u32 (ebx + count)) (sreg32 7 (u32 (edi + count)) c))));
  loop_done CF 0 0x0b (count * 6 - 1)))).
Definition win2k_bootvid_fast_copy_loop : Exc (CPUI386 D) bool := boot_loop copy_signature copy_body.

(** ** The checksum *)

Definition checksum_signature : list Z := [
  0x0f; 0xb7; 0x10; 0x01; 0x55; 0x08; 0x40; 0x8b;
  0x55; 0x08; 0x8b; 0x75; 0x08; 0x81; 0xe2; 0xff;
  0xff; 0x00; 0x00; 0x40; 0xc1; 0xee; 0x10; 0x03;
  0xd6; 0x49; 0x89; 0x55; 0x08; 0x75; 0xe1].
(** The sum and its last high half. *)
Fixpoint checksum_words (n : nat) (src : Z) (acc high : Z) : Exc (CPUI386 D) (Z * Z) :=
  match n with
  | O => mret (acc, high)
  | S n =>
      o ← sure (translate_w 16 1 SEG_DS (fun _ => src)); v ← ok (load16 o);
      let t := u32 (acc + v) in let high := Z.shiftr t 16 in
      checksum_words n (u32 (src + 2)) (Z.land t 0xffff + high) high
  end.
(** The accumulator is among the words that are summed. *)
Definition sums_itself (source ebp count : Z) c : bool :=
  (base (seg_of c SEG_DS) =? base (seg_of c SEG_SS)) &&
  ((source <? ebp + 0x08 + 4) && (ebp + 0x08 <? source + u32 (count * 2))).
Definition checksum_body : Exc (CPUI386 D) bool :=
  ebp ← get (lreg32 5); source ← get (lreg32 0); count ← get (lreg32 1);
  clash ← get (sums_itself source ebp count);
  require (nz count && (count <=? 0x01000000) && negb clash) (
  o ← translate_w 32 2 SEG_SS (fun _ => u32 (ebp + 0x08));
  r ← win2k_boot_ram_range SEG_DS source (u32 (count * 2)) 1;
  require r (
  acc ← ok (load32 o);
  '(sum, high) ← checksum_words (Z.to_nat count) source acc 0;
  _ ← ok (store32 o sum);
  _ ← put (fun c => sreg32 6 high (sreg32 2 sum (sreg32 1 0 (sreg32 0 (u32 (source + u32 (count * 2))) c))));
  loop_done 0 0 0x1f (count * 12 - 1))).
Definition win2k_boot_checksum_fast_loop : Exc (CPUI386 D) bool := boot_loop checksum_signature checksum_body.

End Operations.

End Boot.
