(* ===== verification/I386Exec.v ===== *)
(** * I386Exec: fetch, decode and dispatch (winspire/i386.c, winspire/i386ins.def)

    [cpu_exec1]: an instruction is its prefixes and an entry of the tables of
    i386ins.def, an addressing mode applied to an operation.  In flat 32-bit code
    the Server build decodes the common instructions beforehand ([fast_decode]).
    [cpui386_step] delivers interrupts and exceptions around it. *)

From S2P Require Import Prelude Doubles I386 I386Alu I386Shift I386Mul I386Mmu I386Mem I386String I386Fpu I386Data I386Far I386Boot.

Module Exec.
Import I386 Alu Shift Mul Mmu Mem Str FpuExec Data Far Boot.

(** What the loop asks of the rest of the machine: the host's clock and the
    interrupt controller. *)
Class CpuEnv (D : Type) := { get_nticks : ST D Z; pic_read_irq : ST D Z }.

(** The locals of one turn of the loop. *)
Record Ins := mkIns { b1 : Z; ic16 : bool; opsz16 : bool; adsz16 : bool; rep : Z; curr_seg : Z }.
#[export] Instance eta_ins : Eta Ins := fun i => mkIns (b1 i) (ic16 i) (opsz16 i) (adsz16 i) (rep i) (curr_seg i).
Definition ow (i : Ins) : Z := width (opsz16 i).
Definition aw (i : Ins) : Z := width (adsz16 i).

Section Operations.
Context {D : Type} `{IoMem D} `{IoPorts D} `{CpuEnv D} `{Double.HostMath}.
Implicit Types c : CPUI386 D.
Implicit Types a b : Operand D.

(** ** Addressing modes *)

Definition regw (w r : Z) : Operand D := if w =? 8 then reg8 r else if w =? 16 then reg16 r else reg32 r.
Definition mem (w : Z) (o : OptAddr) : Operand D := mkOperand (load_w w o) (store_w w o).
Definition lseg (s : Z) : Operand D := mkOperand (gets (fun c => u16 (sel (seg_of c s)))) (fun _ => mret tt).
Definition fetch_w (w : Z) : Exc (CPUI386 D) Z := if w =? 8 then fetch8 else if w =? 16 then fetch16 else fetch32.
Definition modrm_fields : Exc (CPUI386 D) (Z * Z * Z) :=
  m ← fetch8; mret (Z.land (Z.shiftr m 3) 7, Z.shiftr m 6, Z.land m 7).
Definition effective (i : Ins) (mod_ rm : Z) : Exc (CPUI386 D) (Z * Z) := modsib (adsz16 i) mod_ rm (curr_seg i).

(** An instruction under its addressing mode. *)
Definition Mode : Type := Ins -> Exc (CPUI386 D) unit.

(** A ModR/M operand of width [w]: [pre] fetches the immediate, which follows the
    displacement, [off] is what a bit instruction adds to the address. *)
Definition modrm_form {X} (w rwm : Z) (pre : Exc (CPUI386 D) X) (off : Z -> X -> CPUI386 D -> Z)
    (inst : Z -> X -> Operand D -> Exc (CPUI386 D) unit) : Mode := fun i =>
  '(reg, mod_, rm) ← modrm_fields;
  if mod_ =? 3 then x ← pre; inst reg x (regw w rm) else
  '(addr, s) ← effective i mod_ rm; x ← pre; d ← get (off reg x);
  o ← translate_w w rwm s (fun _ => addr + d); inst reg x (mem w o).
Definition no_imm : Exc (CPUI386 D) unit := mret tt.
Definition no_off {X} (_ : Z) (_ : X) c : Z := 0.

Definition E (w rwm : Z) (inst : Operand D -> Exc (CPUI386 D) unit) : Mode :=
  modrm_form w rwm no_imm no_off (fun _ _ a => inst a).
Definition EG (w rwm : Z) (inst : Operand D -> Operand D -> Exc (CPUI386 D) unit) : Mode :=
  modrm_form w rwm no_imm no_off (fun r _ a => inst a (regw w r)).
Definition BTEG (w rwm : Z) (inst : Operand D -> Operand D -> Exc (CPUI386 D) unit) : Mode :=
  modrm_form w rwm no_imm (fun r _ c => lreg w r c / w * size w) (fun r _ a => inst a (regw w r)).
Definition EGIb (w rwm : Z) (inst : Operand D -> Operand D -> Operand D -> Exc (CPUI386 D) unit) : Mode :=
  modrm_form w rwm fetch8 no_off (fun r x a => inst a (regw w r) (imm x)).
(** The count operand of the forms with CL is register 1 by bytes. *)
Definition EGCL (w rwm : Z) (inst : Operand D -> Operand D -> Operand D -> Exc (CPUI386 D) unit) : Mode :=
  modrm_form w rwm no_imm no_off (fun r _ a => inst a (regw w r) (reg8 1)).
Definition EI (w rwm : Z) (inst : Operand D -> Operand D -> Exc (CPUI386 D) unit) : Mode :=
  modrm_form w rwm (fetch_w w) no_off (fun _ x a => inst a (imm x)).
(** [imm = (s8) imm8] at width [w] *)
Definition simm8 (w : Z) : Exc (CPUI386 D) Z := x ← fetch8; mret (s8 x mod 2 ^ w).
Definition EIb (w rwm : Z) (inst : Operand D -> Operand D -> Exc (CPUI386 D) unit) : Mode :=
  modrm_form w rwm (simm8 w) no_off (fun _ x a => inst a (imm x)).
Definition BTEIb (w rwm : Z) (inst : Operand D -> Operand D -> Exc (CPUI386 D) unit) : Mode :=
  modrm_form w rwm (simm8 w) (fun _ x _ => x / w * size w) (fun _ x a => inst a (imm x)).
Definition E1 (w rwm : Z) (inst : Operand D -> Operand D -> Exc (CPUI386 D) unit) : Mode :=
  modrm_form w rwm no_imm no_off (fun _ _ a => inst a (imm 1)).
Definition ECL (w rwm : Z) (inst : Operand D -> Operand D -> Exc (CPUI386 D) unit) : Mode :=
  modrm_form w rwm no_imm no_off (fun _ _ a => inst a (reg8 1)).
(** [GEI_helperI2]: the immediate is of width [iw]. *)
Definition GEI (w iw rwm : Z) (inst : Operand D -> Operand D -> Z -> Exc (CPUI386 D) unit) : Mode :=
  modrm_form w rwm (fetch_w iw) no_off (fun r x a => inst (regw w r) a x).
(** [ARPL] is undefined outside protected mode before its operand is decoded. *)
Definition PMEwGw (rwm : Z) (inst : Operand D -> Operand D -> Exc (CPUI386 D) unit) : Mode := fun i =>
  '(reg, mod_, rm) ← modrm_fields;
  pm ← get protected_mode;
  if negb pm then THROW0 EX_UD else
  if mod_ =? 3 then inst (regw 16 rm) (regw 16 reg) else
  '(addr, s) ← effective i mod_ rm; o ← translate_w 16 rwm s (fun _ => addr); inst (mem 16 o) (regw 16 reg).
(** [__GE_helper]: the source is read before the instruction runs. *)
Definition GE_helper (ew : Z) (i : Ins) : Exc (CPUI386 D) (Z * Z) :=
  '(reg, mod_, rm) ← modrm_fields;
  if mod_ =? 3 then v ← get (lreg ew rm); mret (reg, v) else
  '(addr, s) ← effective i mod_ rm; o ← translate_w ew 1 s (fun _ => addr); v ← ok (load_w ew o); mret (reg, v).
Definition GE (w ew : Z) (inst : Operand D -> Operand D -> Exc (CPUI386 D) unit) : Mode := fun i =>
  '(reg, v) ← GE_helper ew i; inst (regw w reg) (imm v).
(** The address itself; [inst] is told the mode, 3 for a register. *)
Definition GvM (w : Z) (inst : Z -> Operand D -> Operand D -> Exc (CPUI386 D) unit) : Mode := fun i =>
  '(reg, mod_, rm) ← modrm_fields;
  if mod_ =? 3 then inst mod_ (regw w reg) (regw w rm) else
  '(addr, _) ← effective i mod_ rm; inst mod_ (regw w reg) (imm addr).
(** [BOUND] needs the segment of its operand. *)
Definition GvMa (w : Z) (inst : Z -> Operand D -> Operand D -> Exc (CPUI386 D) unit) : Mode := fun i =>
  '(reg, mod_, rm) ← modrm_fields;
  if mod_ =? 3 then inst (curr_seg i) (regw w reg) (regw w rm) else
  '(addr, s) ← effective i mod_ rm; inst s (regw w reg) (imm addr).
Definition GvMp (inst : Z -> Z -> Z -> Exc (CPUI386 D) unit) : Mode := fun i =>
  '(reg, mod_, rm) ← modrm_fields;
  if mod_ =? 3 then THROW0 EX_UD else '(addr, s) ← effective i mod_ rm; inst reg s addr.
Definition Ms (inst : Z -> Z -> Exc (CPUI386 D) unit) : Mode := fun i =>
  '(_, mod_, rm) ← modrm_fields;
  if mod_ =? 3 then THROW0 EX_UD else '(addr, s) ← effective i mod_ rm; inst s addr.
Definition Ep (rwm : Z) (inst : Z -> Z -> Exc (CPUI386 D) unit) : Mode := fun i =>
  '(_, mod_, rm) ← modrm_fields;
  if mod_ =? 3 then THROW0 EX_UD else
  '(addr, s) ← effective i mod_ rm;
  o1 ← translate_w (ow i) rwm s (fun _ => addr); o2 ← translate_w 16 rwm s (fun _ => addr + size (ow i));
  off ← ok (load_w (ow i) o1); sg ← ok (load16 o2); inst off sg.
(** A register operand has the operand size, a memory operand 16 bits. *)
Definition Ew (rwm : Z) (inst : Operand D -> Exc (CPUI386 D) unit) : Mode := fun i =>
  '(_, mod_, rm) ← modrm_fields;
  if mod_ =? 3 then inst (regw (ow i) rm) else
  '(addr, s) ← effective i mod_ rm; o ← translate_w 16 rwm s (fun _ => addr); inst (mem 16 o).
Definition EwSw (rwm : Z) (inst : Operand D -> Operand D -> Exc (CPUI386 D) unit) : Mode := fun i =>
  '(reg, mod_, rm) ← modrm_fields;
  if mod_ =? 3 then inst (regw (ow i) rm) (lseg reg) else
  '(addr, s) ← effective i mod_ rm; o ← translate_w 16 rwm s (fun _ => addr); inst (mem 16 o) (lseg reg).
(** The result is that of [MOVSeg]. *)
Definition SwEw (rwm : Z) (inst : Z -> Operand D -> Exc (CPUI386 D) Z) (i : Ins) : Exc (CPUI386 D) Z :=
  '(reg, mod_, rm) ← modrm_fields;
  if mod_ =? 3 then inst reg (regw 16 rm) else
  '(addr, s) ← effective i mod_ rm; o ← translate_w 16 rwm s (fun _ => addr); inst reg (mem 16 o).
(** [moffs]: a direct address. *)
Definition moffs (w rwm : Z) (inst : Operand D -> Exc (CPUI386 D) unit) : Mode := fun i =>
  addr ← fetch_w (aw i); o ← translate_w w rwm (default_seg (curr_seg i) SEG_DS) (fun _ => addr); inst (mem w o).
Definition Ap (inst : Z -> Z -> Exc (CPUI386 D) unit) : Mode := fun i => addr ← fetch_w (ow i); s ← fetch16; inst addr s.
(** An immediate of [w] bits: the modes AXIv, Ib, Iw, Iv, Jb, Jv and Av. *)
Definition I_ (w : Z) (inst : Operand D -> Exc (CPUI386 D) unit) : Mode := fun _ => x ← fetch_w w; inst (imm x).
Definition PlusReg (w : Z) (inst : Operand D -> Exc (CPUI386 D) unit) : Mode := fun i => inst (regw w (Z.land (b1 i) 7)).
Definition IwIb (inst : Z -> Z -> Exc (CPUI386 D) unit) : Mode := fun _ => x ← fetch16; y ← fetch8; inst x y.
Definition mode_none (m : Exc (CPUI386 D) unit) : Mode := fun _ => m.

(** ** Dispatch *)

(** The rest of a turn: the new step count, or [None] when the loop is left. *)
Definition Flow : Type := Exc (CPUI386 D) (option Z).
Definition go (m : Mode) (i : Ins) (n : Z) : Flow := _ ← m i; mret (Some n).
Definition leave_if (m : Exc (CPUI386 D) bool) (n : Z) : Flow := l ← m; mret (if l : bool then None else Some n).
Definition counting (m : Exc (CPUI386 D) Z) (n : Z) : Flow := k ← m; mret (Some (n + k)).
(** [Ev], [EvGv], ...: the operand size chooses the width. *)
Definition V (f : Z -> Mode) : Mode := fun i => f (ow i) i.
Definition st1 (f : Operand D -> ST (CPUI386 D) unit) a : Exc (CPUI386 D) unit := ok (f a).
Definition st2 (f : Operand D -> Operand D -> ST (CPUI386 D) unit) a b : Exc (CPUI386 D) unit := ok (f a b).
Definition st3 (f : Operand D -> Operand D -> Operand D -> ST (CPUI386 D) unit) a b (k : Operand D) : Exc (CPUI386 D) unit := ok (f a b k).
Definition st (m : ST (CPUI386 D) unit) : Mode := fun _ => ok m.
Definition by_size {A} (w : Z) (x y : A) : A := if w =? 16 then x else y.
Definition value (f : Z -> Exc (CPUI386 D) unit) a : Exc (CPUI386 D) unit := x ← ok (la a); f x.
Definition rep_ins (f : Ins -> Exc (CPUI386 D) bool) : Mode := fun i => _ ← f i; mret tt.
Definition acc (w : Z) (inst : Operand D -> Operand D -> Exc (CPUI386 D) unit) : Mode := I_ w (inst (regw w 0)).
Definition PUSH (w : Z) := by_size w PUSHw PUSHd.
Definition POPReg (w : Z) := by_size w POPRegw POPRegd.
Definition ud : Flow := THROW0 EX_UD.
Definition ESC : Mode := fun i =>
  t ← get (fun c => nz (Z.land (cr0 c) 0xc));
  if t : bool then THROW0 EX_NM else
  '(g, mod_, rm) ← modrm_fields;
  let o := b1 i - 0xd8 in
  if mod_ =? 3 then f ← get has_fpu; if f : bool then fpu_exec1 o g rm else mret tt else
  '(addr, s) ← effective i mod_ rm; f ← get has_fpu; if f : bool then fpu_exec2 (opsz16 i) o g s addr else mret tt.

(** A group: the ModR/M byte is looked at, and fetched again by the mode. *)
Definition group (f : Z -> option Mode) (i : Ins) (n : Z) : Flow :=
  m ← peek8a;
  match f (Z.land (Z.shiftr m 3) 7) with Some mode => go mode i n | None => ud end.
(** IG1b, IG1v, IG1vIb *)
Definition G1 (form : Z -> (Operand D -> Operand D -> Exc (CPUI386 D) unit) -> Mode) (w g : Z) : option Mode :=
  match g with
  | 0 => Some (form 3 (st2 (ADD w))) | 1 => Some (form 3 (st2 (OR w))) | 2 => Some (form 3 (st2 (ADC w)))
  | 3 => Some (form 3 (st2 (SBB w))) | 4 => Some (form 3 (st2 (AND w))) | 5 => Some (form 3 (st2 (SUB w)))
  | 6 => Some (form 3 (st2 (XOR w))) | 7 => Some (form 1 (st2 (CMP w))) | _ => None
  end.
(** IG2b, IG2v and the forms with 1 and CL *)
Definition G2 (form : (Operand D -> Operand D -> Exc (CPUI386 D) unit) -> Mode) (w g : Z) : option Mode :=
  match g with
  | 0 => Some (form (st2 (ROL_helper w))) | 1 => Some (form (st2 (ROR_helper w))) | 2 => Some (form (st2 (RCL_helper w)))
  | 3 => Some (form (st2 (RCR_helper w))) | 4 | 6 => Some (form (st2 (SHL_helper w)))
  | 5 => Some (form (st2 (SHR_helper w))) | 7 => Some (form (st2 (SAR_helper w))) | _ => None
  end.
(** IG3b and IG3v *)
Definition G3 (w g : Z) : option Mode :=
  match g with
  | 0 | 1 => Some (EI w 1 (st2 (TEST w))) | 2 => Some (E w 3 (st1 NOT_helper)) | 3 => Some (E w 3 (st1 (NEG w)))
  | 4 => Some (E w 1 (st1 (MUL w))) | 5 => Some (E w 1 (st1 (IMUL w)))
  | 6 => Some (E w 1 (DIV w)) | 7 => Some (E w 1 (IDIV w)) | _ => None
  end.
Definition G4 (g : Z) : option Mode :=
  match g with 0 => Some (E 8 3 (st1 (INC 8))) | 1 => Some (E 8 3 (st1 (DEC 8))) | _ => None end.
Definition G5 (i : Ins) (g : Z) : option Mode :=
  let w := ow i in
  match g with
  | 0 => Some (E w 3 (st1 (INC w))) | 1 => Some (E w 3 (st1 (DEC w)))
  | 2 => Some (E w 1 (by_size w CALLABSw CALLABSd)) | 3 => Some (Ep 1 (CALLFAR (opsz16 i)))
  | 4 => Some (E w 1 JMPABS) | 5 => Some (Ep 1 (JMPFAR (opsz16 i))) | 6 => Some (E w 1 (PUSH w)) | _ => None
  end.
Definition G6 (g : Z) : option Mode :=
  match g with
  | 0 => Some (Ew 2 SLDT) | 1 => Some (Ew 2 STR) | 2 => Some (Ew 1 LLDT) | 3 => Some (Ew 1 LTR)
  | 4 => Some (Ew 1 VERR) | 5 => Some (Ew 1 VERW) | _ => None
  end.
Definition G7 (i : Ins) (g : Z) : option Mode :=
  match g with
  | 0 => Some (Ms SGDT) | 1 => Some (Ms SIDT) | 2 => Some (Ms (LGDT (opsz16 i))) | 3 => Some (Ms (LIDT (opsz16 i)))
  | 4 => Some (Ew 2 SMSW) | 6 => Some (Ew 1 LMSW) | 7 => Some (Ms (fun _ _ => INVLPG)) | _ => None
  end.
Definition G8 (w g : Z) : option Mode :=
  match g with
  | 4 => Some (BTEIb w 1 (st2 (BT_helper w))) | 5 => Some (BTEIb w 3 (st2 (BTS w)))
  | 6 => Some (BTEIb w 3 (st2 (BTR w))) | 7 => Some (BTEIb w 3 (st2 (BTC w))) | _ => None
  end.
Definition G9 (g : Z) : option Mode := match g with 1 => Some (Ms CMPXCH8B) | _ => None end.

(** The rows 0x00 to 0x3f whose low bits are 0 to 5: six forms of one operation. *)
Definition alu_row (low rwm : Z) (f : Z -> Operand D -> Operand D -> ST (CPUI386 D) unit) : Mode :=
  if low =? 0 then EG 8 rwm (st2 (f 8)) else if low =? 1 then V (fun w => EG w rwm (st2 (f w))) else
  if low =? 2 then GE 8 8 (st2 (f 8)) else if low =? 3 then V (fun w => GE w w (st2 (f w))) else
  if low =? 4 then acc 8 (st2 (f 8)) else V (fun w => acc w (st2 (f w))).
Definition alu_rows (b : Z) : option Mode :=
  let low := Z.land b 7 in
  if (64 <=? b) || (5 <? low) then None else
  match Z.shiftr b 3 with
  | 0 => Some (alu_row low 3 ADD) | 1 => Some (alu_row low 3 OR) | 2 => Some (alu_row low 3 ADC) | 3 => Some (alu_row low 3 SBB)
  | 4 => Some (alu_row low 3 AND) | 5 => Some (alu_row low 3 SUB) | 6 => Some (alu_row low 3 XOR) | _ => Some (alu_row low 1 CMP)
  end.
(** The rows of eight opcodes. *)
Definition eight_rows (b : Z) : option Mode :=
  match Z.shiftr b 3 with
  | 8 => Some (V (fun w => PlusReg w (st1 (INC w)))) | 9 => Some (V (fun w => PlusReg w (st1 (DEC w))))
  | 10 => Some (V (fun w => PlusReg w (PUSH w))) | 11 => Some (V (fun w => PlusReg w (POPReg w)))
  | 14 | 15 => Some (fun i => I_ 8 (value (fun x => ok (JCCb (b1 i) x))) i)
  | 22 => Some (fun i => I_ 8 (MOV (regw 8 (Z.land (b1 i) 7))) i)
  | 23 => Some (V (fun w i => I_ w (MOV (regw w (Z.land (b1 i) 7))) i))
  | 27 => Some ESC
  | _ => None
  end.
(** The other one-byte opcodes without an effect on the loop. *)
Definition single (i : Ins) : option Mode :=
  let o16 := opsz16 i in let w := ow i in
  match b1 i with
  | 0x06 => Some (mode_none (PUSHSeg o16 SEG_ES)) | 0x0e => Some (mode_none (PUSHSeg o16 SEG_CS))
  | 0x16 => Some (mode_none (PUSHSeg o16 SEG_SS)) | 0x1e => Some (mode_none (PUSHSeg o16 SEG_DS))
  | 0x27 => Some (st DAA_helper) | 0x2f => Some (st DAS_helper) | 0x37 => Some (st AAA_helper) | 0x3f => Some (st AAS_helper)
  | 0x60 => Some (mode_none (PUSHA o16)) | 0x61 => Some (mode_none (POPA o16))
  | 0x62 => Some (GvMa w (BOUND w)) | 0x63 => Some (PMEwGw 0 ARPL)
  | 0x68 => Some (I_ w (PUSH w))
  | 0x69 => Some (GEI w w 1 (fun a b x => ok (by_size w (IMUL2wI_helper 16) (IMUL2dI_helper 32) a b x)))
  | 0x6a => Some (I_ 8 (PUSHb o16))
  | 0x6b => Some (GEI w 8 1 (fun a b x => ok (by_size w (IMUL2wI_helper 8) (IMUL2dI_helper 8) a b x)))
  | 0x6c => Some (rep_ins (fun i => INS_helper 8 (aw i) (rep i))) | 0x6d => Some (rep_ins (fun i => INS_helper w (aw i) (rep i)))
  | 0x6e => Some (rep_ins (fun i => OUTS_helper 8 (aw i) (curr_seg i) (rep i)))
  | 0x6f => Some (rep_ins (fun i => OUTS_helper w (aw i) (curr_seg i) (rep i)))
  | 0x84 => Some (EG 8 1 (st2 (TEST 8))) | 0x85 => Some (EG w 1 (st2 (TEST w)))
  | 0x86 => Some (EG 8 3 XCHG) | 0x87 => Some (EG w 3 XCHG) | 0x88 => Some (EG 8 2 MOV) | 0x89 => Some (EG w 2 MOV)
  | 0x8a => Some (GE 8 8 MOV) | 0x8b => Some (GE w w MOV) | 0x8c => Some (EwSw 2 MOV) | 0x8d => Some (GvM w LEA)
  | 0x8f => Some (mode_none (POP_helper (adsz16 i) w (curr_seg i)))
  | 0x90 => Some (mode_none (mret tt))
  | 0x91 | 0x92 | 0x93 | 0x94 | 0x95 | 0x96 | 0x97 => Some (mode_none (XCHGAX o16 (b1 i)))
  | 0x98 => Some (mode_none (CBW_CWDE o16)) | 0x99 => Some (mode_none (CWD_CDQ o16)) | 0x9a => Some (Ap (CALLFAR o16))
  | 0x9b => Some (mode_none WAIT) | 0x9c => Some (mode_none (PUSHF o16)) | 0x9e => Some (st SAHF) | 0x9f => Some (st LAHF)
  | 0xa0 => Some (moffs 8 1 (MOV (regw 8 0))) | 0xa1 => Some (moffs w 1 (MOV (regw w 0)))
  | 0xa2 => Some (moffs 8 2 (fun a => MOV a (regw 8 0))) | 0xa3 => Some (moffs w 2 (fun a => MOV a (regw w 0)))
  | 0xa4 => Some (rep_ins (fun i => MOVS_helper 8 (aw i) (curr_seg i) (rep i))) | 0xa5 => Some (rep_ins (fun i => MOVS_helper w (aw i) (curr_seg i) (rep i)))
  | 0xa6 => Some (rep_ins (fun i => CMPS_helper 8 (aw i) (curr_seg i) (rep i))) | 0xa7 => Some (rep_ins (fun i => CMPS_helper w (aw i) (curr_seg i) (rep i)))
  | 0xa8 => Some (acc 8 (st2 (TEST 8))) | 0xa9 => Some (acc w (st2 (TEST w)))
  | 0xaa => Some (rep_ins (fun i => STOS_helper 8 (aw i) (rep i))) | 0xab => Some (rep_ins (fun i => STOS_helper w (aw i) (rep i)))
  | 0xac => Some (rep_ins (fun i => LODS_helper 8 (aw i) (curr_seg i) (rep i))) | 0xad => Some (rep_ins (fun i => LODS_helper w (aw i) (curr_seg i) (rep i)))
  | 0xae => Some (rep_ins (fun i => SCAS_helper 8 (aw i) (rep i))) | 0xaf => Some (rep_ins (fun i => SCAS_helper w (aw i) (rep i)))
  | 0xc2 => Some (I_ 16 (value (RETw o16))) | 0xc3 => Some (mode_none (RETw o16 0))
  | 0xc4 => Some (GvMp (LSEG o16 (adsz16 i) SEG_ES)) | 0xc5 => Some (GvMp (LSEG o16 (adsz16 i) SEG_DS))
  | 0xc6 => Some (EI 8 2 MOV) | 0xc7 => Some (EI w 2 MOV)
  | 0xc8 => Some (IwIb (ENTER o16)) | 0xc9 => Some (mode_none (LEAVE o16))
  | 0xca => Some (I_ 16 (value (RETFARw o16))) | 0xcb => Some (mode_none (RETFARw o16 0))
  | 0xcc => Some (mode_none INT3) | 0xcd => Some (I_ 8 (value INT)) | 0xce => Some (mode_none INTO)
  | 0xd4 => Some (I_ 8 (value (fun x => ok (AAM_helper x)))) | 0xd5 => Some (I_ 8 (value (fun x => ok (AAD_helper x))))
  | 0xd6 => Some (mode_none SALC) | 0xd7 => Some (mode_none (XLAT (adsz16 i) (curr_seg i)))
  | 0xe0 => Some (I_ 8 (value (LOOPNEb (aw i)))) | 0xe1 => Some (I_ 8 (value (LOOPEb (aw i))))
  | 0xe2 => Some (I_ 8 (value (LOOPb (aw i)))) | 0xe3 => Some (I_ 8 (value (JCXZb (aw i))))
  | 0xe4 => Some (I_ 8 (IN_ 8 (reg8 0))) | 0xe5 => Some (I_ 8 (IN_ w (regw w 0)))
  | 0xe6 => Some (I_ 8 (fun a => OUT_ 8 a (reg8 0))) | 0xe7 => Some (I_ 8 (fun a => OUT_ w a (regw w 0)))
  | 0xe8 => Some (I_ w (by_size w CALLw CALLd)) | 0xe9 => Some (I_ w (by_size w JMPw JMPd))
  | 0xea => Some (Ap (JMPFAR o16)) | 0xeb => Some (I_ 8 JMPb)
  | 0xec => Some (mode_none (IN_ 8 (reg8 0) (reg16 2))) | 0xed => Some (mode_none (IN_ w (regw w 0) (reg16 2)))
  | 0xee => Some (mode_none (OUT_ 8 (reg16 2) (reg8 0))) | 0xef => Some (mode_none (OUT_ w (reg16 2) (regw w 0)))
  | 0xf5 => Some (st CMC) | 0xf8 => Some (st CLC) | 0xf9 => Some (st STC) | 0xfa => Some (mode_none CLI)
  | 0xfc => Some (mode_none CLD) | 0xfd => Some (mode_none STD)
  | _ => None
  end.

(** The opcodes that change the step count or may leave the loop. *)
Definition special (i : Ins) (n : Z) : option Flow :=
  let o16 := opsz16 i in
  match b1 i with
  | 0x07 => Some (counting (POPSeg o16 SEG_ES) n) | 0x17 => Some (counting (POPSeg o16 SEG_SS) n)
  | 0x1f => Some (counting (POPSeg o16 SEG_DS) n) | 0x8e => Some (counting (SwEw 1 MOVSeg i) n)
  | 0x9d => Some (leave_if (POPF o16) n) | 0xcf => Some (leave_if (IRET o16) n)
  | 0xf4 => Some (_ ← HLT; mret None) | 0xfb => Some (n' ← STI n; mret (Some n'))
  | _ => None
  end.
Definition groups (i : Ins) (n : Z) : option Flow :=
  let w := ow i in
  match b1 i with
  | 0x80 | 0x82 => Some (group (G1 (EI 8) 8) i n) | 0x81 => Some (group (G1 (EI w) w) i n) | 0x83 => Some (group (G1 (EIb w) w) i n)
  | 0xc0 => Some (group (G2 (EI 8 3) 8) i n) | 0xc1 => Some (group (G2 (EIb w 3) w) i n)
  | 0xd0 => Some (group (G2 (E1 8 3) 8) i n) | 0xd1 => Some (group (G2 (E1 w 3) w) i n)
  | 0xd2 => Some (group (G2 (ECL 8 3) 8) i n) | 0xd3 => Some (group (G2 (ECL w 3) w) i n)
  | 0xf6 => Some (group (G3 8) i n) | 0xf7 => Some (group (G3 w) i n)
  | 0xfe => Some (group G4 i n) | 0xff => Some (group (G5 i) i n)
  | _ => None
  end.

(** Two-byte opcodes; [b1] is the second byte. *)
Definition two_byte_rows (b : Z) : option Mode :=
  match Z.shiftr b 4 with
  | 4 => Some (V (fun w i => GE w w (CMOV (b1 i)) i))
  | 8 => Some (V (fun w i => I_ w (value (fun x => ok (by_size w JCCw JCCd (b1 i) x))) i))
  | 9 => Some (fun i => E 8 2 (fun a => ok (SETCCb (b1 i) a)) i)
  | _ => None
  end.
Definition MOVZX_form (w ew : Z) : Mode := GE w ew MOV.
(** [MOVSXww] does not extend. *)
Definition MOVSX_form (w ew : Z) : Mode := GE w ew (if w =? ew then MOV else MOVSX ew).
Definition two_byte (i : Ins) : option Mode :=
  let o16 := opsz16 i in let w := ow i in
  match b1 i with
  | 0x02 => Some (GE w 16 LAR) | 0x03 => Some (GE w 16 LSL) | 0x06 => Some (mode_none CLTS) | 0x09 => Some (mode_none (mret tt))
  | 0x20 => Some (mode_none MOVFC) | 0x21 => Some (mode_none MOVFD) | 0x22 => Some (mode_none MOVTC) | 0x23 => Some (mode_none MOVTD)
  | 0x24 | 0x26 => Some (mode_none MOVFT)
  | 0x30 => Some (mode_none WRMSR) | 0x31 => Some (mode_none (t ← ok (device get_nticks); RDTSC t)) | 0x32 => Some (mode_none RDMSR)
  | 0x34 => Some (mode_none SYSENTER) | 0x35 => Some (mode_none SYSEXIT)
  | 0xa0 => Some (mode_none (PUSHSeg o16 SEG_FS)) | 0xa1 => Some (mode_none (_ ← POPSeg o16 SEG_FS; mret tt)) | 0xa2 => Some (mode_none CPUID)
  | 0xa3 => Some (BTEG w 1 (st2 (BT_helper w))) | 0xa4 => Some (EGIb w 3 (st3 (SHLD_helper w))) | 0xa5 => Some (EGCL w 3 (st3 (SHLD_helper w)))
  | 0xa8 => Some (mode_none (PUSHSeg o16 SEG_GS)) | 0xa9 => Some (mode_none (_ ← POPSeg o16 SEG_GS; mret tt))
  | 0xab => Some (BTEG w 3 (st2 (BTS w))) | 0xac => Some (EGIb w 3 (st3 (SHRD_helper w))) | 0xad => Some (EGCL w 3 (st3 (SHRD_helper w)))
  | 0xaf => Some (GE w w (st2 (by_size w IMUL2w IMUL2d)))
  | 0xb0 => Some (EG 8 3 (CMPXCH 8)) | 0xb1 => Some (EG w 3 (CMPXCH w))
  | 0xb2 => Some (GvMp (LSEG o16 (adsz16 i) SEG_SS)) | 0xb3 => Some (BTEG w 3 (st2 (BTR w)))
  | 0xb4 => Some (GvMp (LSEG o16 (adsz16 i) SEG_FS)) | 0xb5 => Some (GvMp (LSEG o16 (adsz16 i) SEG_GS))
  | 0xb6 => Some (MOVZX_form w 8) | 0xb7 => Some (MOVZX_form w 16) | 0xbb => Some (BTEG w 3 (st2 (BTC w)))
  | 0xbc => Some (GE w w (st2 (BSF_helper w))) | 0xbd => Some (GE w w (st2 (BSR_helper w)))
  | 0xbe => Some (MOVSX_form w 8) | 0xbf => Some (MOVSX_form w 16)
  | 0xc0 => Some (EG 8 3 (XADD 8)) | 0xc1 => Some (EG w 3 (XADD w))
  | 0xc8 | 0xc9 | 0xca | 0xcb | 0xcc | 0xcd | 0xce | 0xcf => Some (PlusReg w (BSWAP o16))
  | 0xff => Some (mode_none UD0)
  | _ => two_byte_rows (b1 i)
  end.
Definition two_byte_groups (i : Ins) (n : Z) : option Flow :=
  match b1 i with
  | 0x00 => Some (group G6 i n) | 0x01 => Some (group (G7 i) i n) | 0xba => Some (group (G8 (ow i)) i n) | 0xc7 => Some (group G9 i n)
  | _ => None
  end.
Definition escape (i : Ins) (n : Z) : Flow :=
  b ← fetch8; let i := i <| b1 := b |> in
  match two_byte_groups i n, two_byte i with
  | Some f, _ => f
  | None, Some m => go m i n
  | None, None => if (b =? 0x38) || (b =? 0x3a) then _ ← fetch8; ud else ud
  end.

(** The table of one-byte opcodes. *)
Definition dispatch (i : Ins) (n : Z) : Flow :=
  if b1 i =? 0x0f then escape i n else
  match special i n, groups i n, alu_rows (b1 i), eight_rows (b1 i), single i with
  | Some f, _, _, _, _ | None, Some f, _, _, _ => f
  | None, None, Some m, _, _ | None, None, None, Some m, _ | None, None, None, None, Some m => go m i n
  | None, None, None, None, None => ud
  end.

(** Prefixes: the last segment override and repeat prefix count.  There is no
    limit on their number. *)
Definition apply_prefix (i : Ins) : option Ins :=
  match b1 i with
  | 0x26 => Some (i <| curr_seg := SEG_ES |>) | 0x2e => Some (i <| curr_seg := SEG_CS |>)
  | 0x36 => Some (i <| curr_seg := SEG_SS |>) | 0x3e => Some (i <| curr_seg := SEG_DS |>)
  | 0x64 => Some (i <| curr_seg := SEG_FS |>) | 0x65 => Some (i <| curr_seg := SEG_GS |>)
  | 0x66 => Some (i <| opsz16 := negb (ic16 i) |>) | 0x67 => Some (i <| adsz16 := negb (ic16 i) |>)
  | 0xf3 => Some (i <| rep := 1 |>) | 0xf2 => Some (i <| rep := 2 |>) | 0xf0 => Some i
  | _ => None
  end.
Fixpoint prefixes (fuel : nat) (i : Ins) : Exc (CPUI386 D) Ins :=
  match apply_prefix i with
  | None => mret i
  | Some i' =>
      match fuel with
      | O => ok (lift (Stuck Diverges))
      | S fuel => b ← fetch8; prefixes fuel (i' <| b1 := b |>)
      end
  end.

(** ** The fast path

    32-bit code outside virtual 8086 mode, no prefix.  The result is false when
    the instruction is left to the tables. *)

Definition taken_by (m : Exc (CPUI386 D) unit) : Exc (CPUI386 D) bool := _ ← m; mret true.
Definition hook (b : bool) (f k : Exc (CPUI386 D) bool) : Exc (CPUI386 D) bool :=
  if b then t ← f; if t : bool then mret true else k else k.

(** The effective address as [modsib32] computes it, written out; the segment is
    DS or SS. *)
Definition fast_ea (mod_ rm : Z) : Exc (CPUI386 D) (Z * Z) :=
  '(addr, s, disp_done) ← (
    if rm =? 4 then
      sib ← fetch8;
      let index := Z.land (Z.shiftr sib 3) 7 in let bs := Z.land sib 7 in
      '(addr, s, d) ← (if (mod_ =? 0) && (bs =? 5) then x ← fetch32; mret (x, SEG_DS, true)
                       else x ← get (lreg32 bs); mret (x, if (bs =? 4) || (bs =? 5) then SEG_SS else SEG_DS, false));
      if index =? 4 then mret (addr, s, d)
      else x ← get (lreg32 index); mret (u32 (addr + u32 (Z.shiftl x (Z.shiftr sib 6))), s, d)
    else if (mod_ =? 0) && (rm =? 5) then x ← fetch32; mret (x, SEG_DS, true)
    else x ← get (lreg32 rm); mret (x, if rm =? 5 then SEG_SS else SEG_DS, false));
  if disp_done : bool then mret (addr, s) else
  if mod_ =? 1 then d ← fetch8; mret (u32 (addr + s8 d), s) else
  if mod_ =? 2 then d ← fetch32; mret (u32 (addr + s32 d), s) else mret (addr, s).

Definition fast_alu (b : Z) (e g : Operand D) : Exc (CPUI386 D) unit :=
  match b with
  | 0x01 => ok (ADD 32 e g) | 0x03 => ok (ADD 32 g e) | 0x09 => ok (OR 32 e g) | 0x0b => ok (OR 32 g e)
  | 0x21 => ok (AND 32 e g) | 0x23 => ok (AND 32 g e) | 0x29 => ok (SUB 32 e g) | 0x2b => ok (SUB 32 g e)
  | 0x31 => ok (XOR 32 e g) | 0x33 => ok (XOR 32 g e) | 0x39 => ok (CMP 32 e g) | 0x3b => ok (CMP 32 g e)
  | 0x85 => ok (TEST 32 e g) | 0x89 => MOV e g | _ => MOV g e
  end.
Definition fast_writes (b : Z) : bool := bool_decide (b ∈ [0x01; 0x09; 0x21; 0x29; 0x31; 0x89]).
Definition fast_modrm (b : Z) : Exc (CPUI386 D) bool := taken_by (
  _ ← peek8a; '(reg, mod_, rm) ← modrm_fields;
  if mod_ =? 3 then fast_alu b (reg32 rm) (reg32 reg) else
  '(addr, s) ← modsib32 mod_ rm NO_SEG;
  o ← translate_w 32 (if fast_writes b then 2 else 1) s (fun _ => addr); fast_alu b (mem 32 o) (reg32 reg)).

Definition fast_G1 (g : Z) a b : Exc (CPUI386 D) unit :=
  match g with
  | 0 => ok (ADD 32 a b) | 1 => ok (OR 32 a b) | 4 => ok (AND 32 a b) | 5 => ok (SUB 32 a b) | 6 => ok (XOR 32 a b)
  | 7 => ok (CMP 32 a b) | _ => mret tt
  end.
(** 0x81, and 0x83 with a sign-extended byte *)
Definition fast_group (immediate : Exc (CPUI386 D) Z) : Exc (CPUI386 D) bool :=
  m ← peek8a; let g := Z.land (Z.shiftr m 3) 7 in
  if (g =? 2) || (g =? 3) then mret false else taken_by (
  '(_, mod_, rm) ← modrm_fields;
  if mod_ =? 3 then x ← immediate; fast_G1 g (reg32 rm) (imm x) else
  '(addr, s) ← modsib32 mod_ rm NO_SEG; x ← immediate;
  o ← translate_w 32 (if g =? 7 then 1 else 2) s (fun _ => addr); fast_G1 g (mem 32 o) (imm x)).
Definition fast_store (w : Z) : Exc (CPUI386 D) bool :=
  m ← peek8a;
  if negb (Z.land (Z.shiftr m 3) 7 =? 0) then mret false else taken_by (
  '(_, mod_, rm) ← modrm_fields;
  if mod_ =? 3 then x ← fetch_w w; MOV (regw w rm) (imm x) else
  '(addr, s) ← fast_ea mod_ rm; x ← fetch_w w; o ← translate_w w 2 s (fun _ => addr); MOV (mem w o) (imm x)).
Definition fast_lea : Exc (CPUI386 D) bool :=
  m ← peek8a;
  if Z.shiftr m 6 =? 3 then mret false else taken_by (
  '(reg, mod_, rm) ← modrm_fields; '(addr, _) ← fast_ea mod_ rm; put (sreg32 reg addr)).
Definition fast_jcc32 : Exc (CPUI386 D) bool :=
  o ← peek8a;
  if negb (Z.land o 0xf0 =? 0x80) then mret false else taken_by (
  b ← fetch8; x ← fetch32; t ← ok (cond_of b);
  if t : bool then put (fun c => c <| next_ip := u32 (next_ip c + sext32 x) |>) else mret tt).
Definition fast_moffs (w rwm : Z) (inst : Operand D -> Exc (CPUI386 D) unit) : Exc (CPUI386 D) bool := taken_by (
  off ← fetch32; o ← translate_w w rwm SEG_DS (fun _ => off); inst (mem w o)).
Definition fast_acc (f : Operand D -> Operand D -> ST (CPUI386 D) unit) : Exc (CPUI386 D) bool := taken_by (
  x ← fetch32; ok (f (reg32 0) (imm x))).

Definition fast_switch (b : Z) : Exc (CPUI386 D) bool :=
  match b with
  | 0x90 => mret true
  | 0x05 => fast_acc (ADD 32) | 0x0d => fast_acc (OR 32) | 0x25 => fast_acc (AND 32) | 0x2d => fast_acc (SUB 32)
  | 0x35 => fast_acc (XOR 32) | 0x3d => fast_acc (CMP 32) | 0xa9 => fast_acc (TEST 32)
  | 0xeb => taken_by (x ← fetch8; put (fun c => c <| next_ip := u32 (next_ip c + sext8 x) |>))
  | 0xe8 => taken_by (x ← fetch32; CALLd (imm x))
  | 0xe9 => taken_by (x ← fetch32; put (fun c => c <| next_ip := u32 (next_ip c + sext32 x) |>))
  | 0xc2 => taken_by (x ← fetch16; RETw false x) | 0xc3 => taken_by (RETw false 0)
  | 0xc9 => taken_by (_ ← put (fun c => sreg32 4 (lreg32 5 c) c); POPRegd (reg32 5))
  | 0xa0 => fast_moffs 8 1 (MOV (reg8 0)) | 0xa1 => fast_moffs 32 1 (MOV (reg32 0))
  | 0xa2 => fast_moffs 8 2 (fun a => MOV a (reg8 0)) | 0xa3 => fast_moffs 32 2 (fun a => MOV a (reg32 0))
  | 0x68 => taken_by (x ← fetch32; PUSHd (imm x)) | 0x6a => taken_by (x ← fetch8; PUSHd (imm (u32 (s8 x))))
  | 0x0f => fast_jcc32 | 0x8d => fast_lea | 0xc6 => fast_store 8 | 0xc7 => fast_store 32
  | 0x01 | 0x03 | 0x09 | 0x0b | 0x21 | 0x23 | 0x29 | 0x2b | 0x31 | 0x33 | 0x39 | 0x3b | 0x85 | 0x89 | 0x8b => fast_modrm b
  | 0x81 => fast_group fetch32 | 0x83 => fast_group (x ← fetch8; mret (u32 (s8 x)))
  | _ => mret false
  end.
Definition fast_decode (b : Z) : Exc (CPUI386 D) bool :=
  let r := Z.land b 7 in let hi := Z.land b 0xf8 in
  if hi =? 0xb8 then taken_by (x ← fetch32; MOV (reg32 r) (imm x)) else
  hook (b =? 0x8b) win2k_bootvid_fast_loop (
  hook (b =? 0x8a) win2k_bootvid_fast_copy_loop (
  hook (b =? 0x0f) win2k_boot_checksum_fast_loop (
  if hi =? 0xb0 then taken_by (x ← fetch8; MOV (reg8 r) (imm x)) else
  if hi =? 0x40 then taken_by (ok (INC 32 (reg32 r))) else
  if hi =? 0x48 then taken_by (ok (DEC 32 (reg32 r))) else
  if hi =? 0x50 then taken_by (PUSHd (reg32 r)) else
  if hi =? 0x58 then taken_by (POPRegd (reg32 r)) else
  if Z.land b 0xf0 =? 0x70 then taken_by (x ← fetch8; t ← ok (cond_of b);
    if t : bool then put (fun c => c <| next_ip := u32 (next_ip c + sext8 x) |>) else mret tt) else
  fast_switch b))).
(** [MOV r/m16, imm16] after an operand-size prefix. *)
Definition fast_mov16 (i : Ins) : Exc (CPUI386 D) bool :=
  m ← peek8a;
  if negb (Z.land (Z.shiftr m 3) 7 =? 0) then mret false else taken_by (
  '(_, mod_, rm) ← modrm_fields;
  if mod_ =? 3 then x ← fetch16; MOV (reg16 rm) (imm x) else
  '(addr, s) ← modsib32 mod_ rm (curr_seg i); x ← fetch16; o ← translate_w 16 2 s (fun _ => addr); MOV (mem 16 o) (imm x)).

(** ** The loop *)

Definition flat32_code c : bool := negb (code16 c) && negb (nz (Z.land (flags c) VM)).
Definition begin_ins : Exc (CPUI386 D) unit := put (fun c =>
  let n := if code16 c then Z.land (next_ip c) 0xffff else next_ip c in c <| next_ip := n |> <| ip := n |>).
Definition plain_ins (b : Z) (c16 : bool) : Ins := mkIns b c16 c16 c16 0 NO_SEG.
(** Prefixes, the second fast path and the table. *)
Definition decode (fuel : nat) (i : Ins) (n : Z) : Flow :=
  i ← prefixes fuel i;
  f ← get (fun c => negb (ic16 i) && negb (nz (Z.land (flags c) VM)) && opsz16 i && negb (adsz16 i) && (rep i =? 0) && (b1 i =? 0xc7));
  t ← (if f : bool then fast_mov16 i else mret false);
  if t : bool then mret (Some n) else dispatch i n.
(** One turn of the loop; [fast] is whether the fast path is compiled in. *)
Definition turn (fuel : nat) (n : Z) : Flow :=
  _ ← begin_ins; c16 ← get code16;
  b ← fetch8pf; _ ← put (fun c => c <| cycle := cycle c + 1 |>);
  f ← get flat32_code;
  t ← (if f : bool then fast_decode b else mret false);
  if t : bool then mret (Some n) else decode fuel (plain_ins b c16) n.
Fixpoint cpu_exec1 (fuel : nat) (stepcount : Z) : Exc (CPUI386 D) unit :=
  if stepcount <=? 0 then mret tt else
  match fuel with
  | O => ok (lift (Stuck Diverges))
  | S fuel =>
      r ← turn fuel stepcount;
      match r with None => mret tt | Some n => cpu_exec1 fuel (n - 1) end
  end.

Definition pushes_error (no : Z) : bool := bool_decide (no ∈ [EX_DF; EX_TS; EX_NP; EX_SS; EX_GP; EX_PF]).
(** [TRY1] around a delivery *)
Definition deliver_isr (no : Z) (pusherr : bool) : ST (CPUI386 D) unit := fun c =>
  match call_isr no pusherr 1 c with Done (Some _, c') => Done (tt, c') | Done (None, _) => Stuck Aborted | Stuck e => Stuck e end.
Definition take_irq : ST (CPUI386 D) unit := fun c =>
  if nz (Z.land (flags c) IF_) && intr c then
    (no ← device pic_read_irq; _ ← modify (fun c => c <| ip := next_ip c |>); deliver_isr no false)
      (c <| intr := false |> <| halt := false |>)
  else Done (tt, c).
Definition run_slice (fuel : nat) (stepcount : Z) : ST (CPUI386 D) unit := fun c =>
  if halt c then Done (tt, c) else
  match cpu_exec1 fuel stepcount c with
  | Done (r, c) =>
      let c := c <| ifetch := (ifetch c) <| if_paddr := 0 |> |> in
      match r with
      | Some _ => Done (tt, c)
      | None => let c := c <| next_ip := ip c |> in deliver_isr (excno c) (pushes_error (excno c)) c
      end
  | Stuck e => Stuck e
  end.
Definition cpui386_step (fuel : nat) (stepcount : Z) : ST (CPUI386 D) unit := _ ← take_irq; run_slice fuel stepcount.

End Operations.

End Exec.
