(* ===== verification/I386Typed.v ===== *)
(** * I386Typed: the machine words of the interpreter stay words

    A well-formedness invariant of the whole CPU record, and the judgement
    [types m Q]: from a well-formed CPU, [m] leads to a well-formed CPU and a result
    in [Q], also when it raises an exception.  This file has the judgement, its rules
    and the operations on registers, flags and operands; [I386TypedMem] goes on with
    memory accesses and [I386TypedRun] with the instructions and the loop. *)

From S2P Require Import Prelude Fpu I386 I386Alu I386Shift I386Mul I386Mmu I386Paging I386Mem I386String I386Rep.

Module Typed.
Import I386 Alu Shift Mul Mmu Paging Mem Str Rep.

Create HintDb typed.

(** ** The invariant *)

(** An array of [n] elements in [P]; what [arr] makes of a bad index is in [P] too. *)
Definition table {A} `{Inhabited A} (n : Z) (P : A -> Prop) (l : list A) : Prop := alen l = n /\ forall i, P (arr l i).
Lemma table_set {A} `{Inhabited A} n (P : A -> Prop) l i v : table n P l -> P v -> table n P (arr_set l i v).
Proof.
  intros [Hn Hl] Hv. split; [by rewrite alen_set|]. intros j. unfold arr, arr_set. rewrite list_lookup_total_insert. case_decide; [done|apply Hl].
Qed.

(** The lazily kept operation: words, and never INC or DEC for the carry. *)
Record cc_typed (k : CC) : Prop := {
  ct_dst : inw 32 (dst k); ct_dst2 : inw 32 (dst2 k); ct_src1 : inw 32 (src1 k); ct_src2 : inw 32 (src2 k);
  ct_cf : nz (Z.land (mask k) CF) = true -> incdec (op k) = false;
}.
Record seg_typed (s : Seg) : Prop := {
  st_sel : inw 32 (sel s); st_base : inw 32 (base s); st_limit : inw 32 (limit s); st_flags : inw 32 (sflags s);
}.

(** The floating-point unit: register widths, eight registers and a position among them. *)
Record f80_typed (r : Fpu.F80) : Prop := { f8_0 : inw 32 (Fpu.mant0 r); f8_1 : inw 32 (Fpu.mant1 r); f8_h : inw 16 (Fpu.high r) }.
Record fpu_typed (f : Fpu.FPU) : Prop := {
  fp_cw : inw 16 (Fpu.cw f); fp_sw : inw 16 (Fpu.sw f); fp_top : inw 3 (Fpu.top f);
  fp_st : table 8 (inw 64) (Fpu.st f); fp_raw : table 8 f80_typed (Fpu.rawst f);
  fp_tr : inw 8 (Fpu.rawtagr f); fp_tw : inw 8 (Fpu.rawtagw f);
}.
Definition unit_typed (o : option Fpu.FPU) : Prop := match o with Some f => fpu_typed f | None => True end.

Section Invariant.
Context {D : Type} `{IoMem D}.
Implicit Types c : CPUI386 D.

Record typed c : Prop := {
  ty_gpr : table 8 (inw 32) (gpr c);
  ty_flags : inw 32 (flags c); ty_mask : inw 32 (flags_mask c); ty_cc : cc_typed (cc c);
  ty_ip : inw 32 (ip c); ty_next : inw 32 (next_ip c);
  ty_cpl : 0 <= cpl c < 4; ty_sp : sp_mask c = 0xffff \/ sp_mask c = 0xffffffff;
  ty_seg : table 8 seg_typed (seg c);
  ty_idtb : inw 32 (idt_base c); ty_idtl : inw 32 (idt_limit c); ty_gdtb : inw 32 (gdt_base c); ty_gdtl : inw 32 (gdt_limit c);
  ty_cr0 : inw 32 (cr0 c); ty_cr2 : inw 32 (cr2 c); ty_cr3 : inw 32 (cr3 c); ty_dr : table 8 (inw 32) (dr c);
  ty_sys1 : inw 32 (sysenter_cs c); ty_sys2 : inw 32 (sysenter_eip c); ty_sys3 : inw 32 (sysenter_esp c);
  ty_mem : mem_ok (phys_mem c); ty_pages : pages_ok c; ty_fpu : unit_typed (fpu c);
}.

(** The hypotheses of the other theorems about instructions. *)
Lemma typed_flags_ok c : typed c -> flags_ok c.
Proof. intros Hc. destruct (ty_cc c Hc). by constructor; [exact (ty_flags c Hc)|..]. Qed.
Lemma typed_regs_ok c : typed c -> regs_ok c.
Proof. intros Hc. destruct (ty_gpr c Hc) as [Hl Hw]. constructor; [done|]. intros i _. apply Hw. Qed.
Lemma typed_ready c : typed c -> ready c.
Proof. intros Hc. split; [exact (ty_pages c Hc)|by apply typed_regs_ok]. Qed.

Lemma pages_ext c c' : tlb c' = tlb c -> fast_read c' = fast_read c -> fast_write c' = fast_write c -> pages_ok c -> pages_ok c'.
Proof. intros Ht Hr Hw [H1 H2 H3 H4 H5 H6]. by constructor; rewrite ?Ht, ?Hr, ?Hw. Qed.

End Invariant.

(** The fields an update leaves alone; what remains are the changed ones. *)
Ltac retype c Hc := constructor; first
  [exact (ty_gpr c Hc)|exact (ty_flags c Hc)|exact (ty_mask c Hc)|exact (ty_cc c Hc)|exact (ty_ip c Hc)|exact (ty_next c Hc)
  |exact (ty_cpl c Hc)|exact (ty_sp c Hc)|exact (ty_seg c Hc)|exact (ty_idtb c Hc)|exact (ty_idtl c Hc)|exact (ty_gdtb c Hc)
  |exact (ty_gdtl c Hc)|exact (ty_cr0 c Hc)|exact (ty_cr2 c Hc)|exact (ty_cr3 c Hc)|exact (ty_dr c Hc)|exact (ty_sys1 c Hc)
  |exact (ty_sys2 c Hc)|exact (ty_sys3 c Hc)|exact (ty_mem c Hc)|exact (ty_fpu c Hc)|solve [apply (pages_ext c); [reflexivity..|exact (ty_pages c Hc)]]|idtac].

Section Fields.
Context {D : Type} `{IoMem D}.
Implicit Types c : CPUI386 D.

Lemma typed_gpr c i v : typed c -> inw 32 v -> typed (set_REGi i v c).
Proof. intros Hc Hv. retype c Hc. by apply table_set; [apply (ty_gpr c Hc)|]. Qed.
Lemma typed_flags c v : typed c -> inw 32 v -> typed (c <| flags := v |>).
Proof. intros Hc Hv. retype c Hc. exact Hv. Qed.
Lemma typed_cc c k : typed c -> cc_typed k -> typed (c <| cc := k |>).
Proof. intros Hc Hk. retype c Hc. exact Hk. Qed.
Lemma typed_ip c v : typed c -> inw 32 v -> typed (c <| ip := v |>).
Proof. intros Hc Hv. retype c Hc. exact Hv. Qed.
Lemma typed_next c v : typed c -> inw 32 v -> typed (c <| next_ip := v |>).
Proof. intros Hc Hv. retype c Hc. exact Hv. Qed.
Lemma typed_seg c s v : typed c -> seg_typed v -> typed (set_seg_reg s v c).
Proof. intros Hc Hv. retype c Hc. by apply table_set; [apply (ty_seg c Hc)|]. Qed.
Lemma typed_gdt c b l : typed c -> inw 32 b -> inw 32 l -> typed (c <| gdt_base := b |> <| gdt_limit := l |>).
Proof. intros Hc Hb Hl. retype c Hc; assumption. Qed.
Lemma typed_idt c b l : typed c -> inw 32 b -> inw 32 l -> typed (c <| idt_base := b |> <| idt_limit := l |>).
Proof. intros Hc Hb Hl. retype c Hc; assumption. Qed.
Lemma typed_cr0 c v : typed c -> inw 32 v -> typed (c <| cr0 := v |>).
Proof. intros Hc Hv. retype c Hc. exact Hv. Qed.
Lemma typed_cr2 c v : typed c -> inw 32 v -> typed (c <| cr2 := v |>).
Proof. intros Hc Hv. retype c Hc. exact Hv. Qed.
Lemma typed_cr3 c v : typed c -> inw 32 v -> typed (c <| cr3 := v |>).
Proof. intros Hc Hv. retype c Hc. exact Hv. Qed.
Lemma typed_dr c i v : typed c -> inw 32 v -> typed (c <| dr := arr_set (dr c) i v |>).
Proof. intros Hc Hv. retype c Hc. by apply table_set; [apply (ty_dr c Hc)|]. Qed.
(** Fields without a constraint. *)
Lemma typed_exc c n : typed c -> typed (c <| excno := n |>).
Proof. intros Hc. retype c Hc. Qed.
Lemma typed_err c n : typed c -> typed (c <| excerr := n |>).
Proof. intros Hc. retype c Hc. Qed.
Lemma typed_ifetch c i : typed c -> typed (set_ifetch i c).
Proof. intros Hc. retype c Hc. Qed.
Lemma typed_dev c d : typed c -> typed (c <| dev := d |>).
Proof. intros Hc. retype c Hc. Qed.
Lemma typed_halt c b : typed c -> typed (c <| halt := b |>).
Proof. intros Hc. retype c Hc. Qed.
Lemma typed_intr c b : typed c -> typed (c <| intr := b |>).
Proof. intros Hc. retype c Hc. Qed.
Lemma typed_cycle c n : typed c -> typed (c <| cycle := n |>).
Proof. intros Hc. retype c Hc. Qed.
Lemma typed_code16 c b : typed c -> typed (c <| code16 := b |>).
Proof. intros Hc. retype c Hc. Qed.
Lemma typed_cpl c n : typed c -> 0 <= n < 4 -> typed (c <| cpl := n |>).
Proof. intros Hc Hn. retype c Hc. exact Hn. Qed.
Lemma typed_sp_mask c (b : bool) : typed c -> typed (c <| sp_mask := if b then 0xffffffff else 0xffff |>).
Proof. intros Hc. retype c Hc. destruct b; [by right|by left]. Qed.
Lemma typed_fpu c o : typed c -> unit_typed o -> typed (c <| fpu := o |>).
Proof. intros Hc Ho. retype c Hc. exact Ho. Qed.
Lemma typed_memory c m : typed c -> mem_ok m -> typed (c <| phys_mem := m |>).
Proof. intros Hc Hm. retype c Hc. exact Hm. Qed.
End Fields.

(** ** The judgement *)

Section Judgement.
Context {D : Type} `{IoMem D}.
Implicit Types c : CPUI386 D.

Definition types {A} (m : Exc (CPUI386 D) A) (Q : A -> Prop) : Prop :=
  forall c, typed c -> leads m c (fun r c' => typed c' /\ forall a, r = Some a -> Q a).
Definition any {A} (_ : A) : Prop := True.

Lemma types_weaken {A} (m : Exc (CPUI386 D) A) (Q R : A -> Prop) : types m Q -> (forall a, Q a -> R a) -> types m R.
Proof. intros Hm HR c Hc. specialize (Hm c Hc). unfold leads in *. destruct (m c) as [[r c']|]; [|done]. destruct Hm as [Hc' Hr]. split; auto. Qed.
Lemma types_any {A} (m : Exc (CPUI386 D) A) Q : types m Q -> types m any.
Proof. intros Hm. by eapply types_weaken. Qed.
Lemma types_bind {A B} (m : Exc (CPUI386 D) A) (k : A -> Exc (CPUI386 D) B) Q R :
  types m Q -> (forall a, Q a -> types (k a) R) -> types (m ≫= k) R.
Proof.
  intros Hm Hk c Hc. apply (leads_bind _ _ _ _ _ (Hm c Hc)).
  - intros a c' [Hc' Ha]. apply Hk; auto.
  - intros c' [Hc' _]. by split.
Qed.
Lemma types_seq {A B} (m : ST (CPUI386 D) A) (k : A -> ST (CPUI386 D) B) Q R :
  types (ok m) Q -> (forall a, Q a -> types (ok (k a)) R) -> types (ok (m ≫= k)) R.
Proof.
  intros Hm Hk c Hc. specialize (Hm c Hc). unfold leads, ok, mbind, ST_bind in *. destruct (m c) as [[a c1]|]; [|done].
  destruct Hm as [Hc1 Ha]. exact (Hk a (Ha a eq_refl) c1 Hc1).
Qed.
(** Code given as a function of the state. *)
Lemma types_st {A} (m : ST (CPUI386 D) A) (Q : A -> Prop) :
  (forall c, typed c -> match m c with Done (a, c') => typed c' /\ Q a | Stuck _ => True end) -> types (ok m) Q.
Proof.
  intros Hm c Hc. specialize (Hm c Hc). unfold leads, ok. destruct (m c) as [[a c']|]; [|done]. destruct Hm as [Hc' Ha].
  split; [done|]. by intros ? [= <-].
Qed.
Lemma types_st_at {A} (m : ST (CPUI386 D) A) (Q : A -> Prop) c : types (ok m) Q -> typed c ->
  match m c with Done (a, c') => typed c' /\ Q a | Stuck _ => True end.
Proof. intros Hm Hc. specialize (Hm c Hc). unfold leads, ok in Hm. destruct (m c) as [[a c']|]; [|done]. destruct Hm as [Hc' Ha]. auto. Qed.
Lemma types_fun {A} (m : Exc (CPUI386 D) A) (Q : A -> Prop) :
  (forall c, typed c -> match m c with Done (r, c') => typed c' /\ (forall a, r = Some a -> Q a) | Stuck _ => True end) -> types m Q.
Proof. done. Qed.
Lemma types_exc_at {A} (m : Exc (CPUI386 D) A) (Q : A -> Prop) c : types m Q -> typed c ->
  match m c with Done (r, c') => typed c' /\ (forall a, r = Some a -> Q a) | Stuck _ => True end.
Proof. intros Hm Hc. exact (Hm c Hc). Qed.
Lemma types_ret {A} (a : A) (Q : A -> Prop) : Q a -> types (mret a) Q.
Proof. intros Ha c Hc. split; [done|]. by intros ? [= <-]. Qed.
Lemma types_ok_ret {A} (a : A) (Q : A -> Prop) : Q a -> types (ok (mret a)) Q.
Proof. intros Ha c Hc. split; [done|]. by intros ? [= <-]. Qed.
Lemma types_get {A} (f : CPUI386 D -> A) (Q : A -> Prop) : (forall c, typed c -> Q (f c)) -> types (get f) Q.
Proof. intros Hf c Hc. split; [done|]. intros ? [= <-]. by apply Hf. Qed.
Lemma types_gets {A} (f : CPUI386 D -> A) (Q : A -> Prop) : (forall c, typed c -> Q (f c)) -> types (ok (gets f)) Q.
Proof. exact (types_get f Q). Qed.
(** What is read comes from a well-formed CPU. *)
Lemma types_get_bind {A B} (f : CPUI386 D -> A) (k : A -> Exc (CPUI386 D) B) R : (forall c, typed c -> types (k (f c)) R) -> types (get f ≫= k) R.
Proof. intros Hk c Hc. unfold leads. rewrite get_bind. by apply (Hk c). Qed.
Lemma types_gets_bind {A B} (f : CPUI386 D -> A) (k : A -> ST (CPUI386 D) B) R : (forall c, typed c -> types (ok (k (f c))) R) -> types (ok (gets f ≫= k)) R.
Proof. intros Hk c Hc. exact (Hk c Hc c Hc). Qed.
Lemma types_put f : (forall c, typed c -> typed (f c)) -> types (put f) any.
Proof. intros Hf c Hc. split; [by apply Hf|done]. Qed.
Lemma types_modify f : (forall c, typed c -> typed (f c)) -> types (ok (modify f)) any.
Proof. exact (types_put f). Qed.
Lemma types_lift {A} (o : outcome A) (Q : A -> Prop) : (forall a, o = Done a -> Q a) -> types (ok (lift o)) Q.
Proof. intros Ho c Hc. unfold leads, ok, lift. destruct o; [|done]. split; [done|]. intros ? [= <-]. by apply Ho. Qed.
Lemma types_read {A} (f : CPUI386 D -> outcome A) (Q : A -> Prop) : (forall c a, typed c -> f c = Done a -> Q a) -> types (ok (fun c => lift (f c) c)) Q.
Proof. intros Hf c Hc. unfold leads, ok, lift. destruct (f c) eqn:E; [|done]. split; [done|]. intros ? [= <-]. by apply (Hf c). Qed.
Lemma types_throw {A} e k Q : types (THROW (A := A) e k) Q.
Proof. intros c Hc. split; [by apply typed_err, typed_exc|done]. Qed.
Lemma types_throw0 {A} e Q : types (THROW0 (A := A) e) Q.
Proof. intros c Hc. split; [by apply typed_exc|done]. Qed.
Lemma types_fails {A} Q : types (fails (A := A)) Q.
Proof. intros c Hc. by split. Qed.
Lemma types_stuck {A} e Q : types (ok (lift (@Stuck A e))) Q.
Proof. by intros c Hc. Qed.
Lemma types_device {A} (m : ST D A) (Q : A -> Prop) : (forall d a d', m d = Done (a, d') -> Q a) -> types (ok (device m)) Q.
Proof.
  intros Hm c Hc. unfold leads, ok, device. destruct (m (dev c)) as [[a d]|] eqn:E; [|done].
  split; [by apply typed_dev|]. intros ? [= <-]. by apply (Hm _ _ _ E).
Qed.
Lemma types_set_flag f v : inw 32 f -> types (ok (set_flag f v)) any.
Proof. intros Hf. apply types_modify. intros c Hc. apply typed_flags; [done|]. apply SET_BIT_inw; [apply (ty_flags c Hc)|done]. Qed.
End Judgement.

(** ** Words *)

Section Words.
Context {D : Type} `{IoMem D}.
Implicit Types c : CPUI386 D.

Lemma word_u8 z : inw 32 (u8 z).
Proof. apply (inw_mono 8); [apply inw_u8|lia]. Qed.
Lemma word_u16 z : inw 32 (u16 z).
Proof. apply (inw_mono 16); [apply inw_u16|lia]. Qed.
Lemma word_byte z : inw 8 z -> inw 32 z.
Proof. intros Hz. by apply (inw_mono 8); [|lia]. Qed.
Lemma word_sext w z : inw 32 (sext w z).
Proof. apply inw_u32. Qed.
Lemma word_sext8 z : inw 32 (sext8 z).
Proof. apply inw_u32. Qed.
Lemma word_sext16 z : inw 32 (sext16 z).
Proof. apply inw_u32. Qed.
Lemma word_sext32 z : inw 32 (sext32 z).
Proof. apply inw_u32. Qed.
Lemma word_shiftl v m k w : inw w m -> 0 <= k -> w + k <= 32 -> inw 32 (Z.shiftl (Z.land v m) k).
Proof.
  intros Hm Hk Hw. pose proof (inw_nonneg_width _ _ Hm). apply (inw_mono (w + k)); [|lia]. apply inw_shiftl; [done|]. by apply inw_land_r.
Qed.
Lemma word_bit0 z : inw 32 (Z.land z 1).
Proof. apply inw_land_r. split; vm_compute; congruence. Qed.
Lemma word_lreg8 i c : inw 32 (lreg8 i c).
Proof. unfold lreg8. destruct (3 <? i); apply word_u8. Qed.
Lemma word_lreg16 i c : inw 32 (lreg16 i c).
Proof. apply word_u16. Qed.
Lemma word_lreg32 i c : inw 32 (lreg32 i c).
Proof. apply inw_u32. Qed.
Lemma word_lreg w i c : inw 32 (lreg w i c).
Proof. unfold lreg. destruct (w =? 8); [apply word_lreg8|]. destruct (w =? 16); [apply word_lreg16|apply word_lreg32]. Qed.
Lemma word_REGi i c : typed c -> inw 32 (REGi c i).
Proof. intros Hc. apply (ty_gpr c Hc). Qed.
Lemma word_dr i c : typed c -> inw 32 (arr (dr c) i).
Proof. intros Hc. apply (ty_dr c Hc). Qed.
Lemma typed_seg_of s c : typed c -> seg_typed (seg_of c s).
Proof. intros Hc. apply (ty_seg c Hc). Qed.
Lemma word_sel s c : typed c -> inw 32 (sel (seg_of c s)).
Proof. intros Hc. apply typed_seg_of, Hc. Qed.
Lemma word_base s c : typed c -> inw 32 (base (seg_of c s)).
Proof. intros Hc. apply typed_seg_of, Hc. Qed.
Lemma word_sflags s c : typed c -> inw 32 (sflags (seg_of c s)).
Proof. intros Hc. apply typed_seg_of, Hc. Qed.
Lemma word_sp_mask c : typed c -> inw 32 (sp_mask c).
Proof. intros Hc. destruct (ty_sp c Hc) as [-> | ->]; split; vm_compute; congruence. Qed.
Lemma word_cpl c : typed c -> inw 32 (cpl c).
Proof. intros Hc. pose proof (ty_cpl c Hc). unfold inw. lia. Qed.

(** Registers are cut to their width by the store. *)
Lemma typed_sreg8 i v c : typed c -> typed (sreg8 i v c).
Proof.
  intros Hc. unfold sreg8. destruct (3 <? i); apply typed_gpr; try done; apply inw_lor; try (apply inw_land_l; by apply word_REGi).
  - apply (word_shiftl v 0xff 8 8); [split; vm_compute; congruence|lia|lia].
  - apply inw_land_r. split; vm_compute; congruence.
Qed.
Lemma typed_sreg16 i v c : typed c -> typed (sreg16 i v c).
Proof.
  intros Hc. apply typed_gpr; [done|]. apply inw_lor; [apply inw_land_l; by apply word_REGi|]. apply inw_land_r. split; vm_compute; congruence.
Qed.
Lemma typed_sreg32 i v c : typed c -> typed (sreg32 i v c).
Proof.
  intros Hc. apply typed_gpr; [done|]. apply inw_lor; [apply inw_land_l; by apply word_REGi|]. apply inw_land_r. split; vm_compute; congruence.
Qed.
Lemma typed_sreg w i v c : typed c -> typed (sreg w i v c).
Proof. intros Hc. unfold sreg. destruct (w =? 8); [by apply typed_sreg8|]. destruct (w =? 16); [by apply typed_sreg16|by apply typed_sreg32]. Qed.
End Words.

#[export] Hint Resolve ty_flags ty_mask ty_ip ty_next ty_idtb ty_idtl ty_gdtb ty_gdtl ty_cr0 ty_cr2 ty_cr3 ty_sys1 ty_sys2 ty_sys3 : width.
#[export] Hint Resolve word_u8 word_u16 word_sext word_sext8 word_sext16 word_sext32 word_bit0 : width.
#[export] Hint Resolve word_lreg8 word_lreg16 word_lreg32 word_lreg word_REGi word_dr word_sel word_base word_sflags word_sp_mask word_cpl : width.
#[export] Hint Extern 2 (inw 32 ?f) => is_const f; split; vm_compute; congruence : width.
#[export] Hint Resolve ct_dst ct_dst2 ct_src1 ct_src2 : width.
#[export] Hint Resolve typed_gpr typed_flags typed_cc typed_ip typed_next typed_seg typed_gdt typed_idt typed_cr0 typed_cr2 typed_cr3 typed_dr typed_exc typed_err
  typed_ifetch typed_dev typed_halt typed_intr typed_cycle typed_code16 typed_cpl typed_sp_mask typed_sreg8 typed_sreg16 typed_sreg32 typed_sreg : typed.

(** [typed_state]: an update of a well-formed CPU is well-formed. *)
Ltac word := solve [eauto 9 with width].
Ltac typed_state := cbv zeta beta; repeat first
  [ lazymatch goal with |- inw _ _ => word | |- typed _ => assumption | |- any _ => exact I end
  | lazymatch goal with |- typed (if ?b then _ else _) => destruct b end
  | solve [eauto 4 with typed width]
  | lazymatch goal with |- typed ?x =>
      first [apply typed_sreg8|apply typed_sreg16|apply typed_sreg32|apply typed_sreg|apply typed_gpr|apply typed_next|apply typed_ip|apply typed_flags
            |apply typed_cc|apply typed_exc|apply typed_err|apply typed_ifetch|apply typed_halt|apply typed_intr|apply typed_cycle|apply typed_code16
            |apply typed_cr0|apply typed_cr2|apply typed_cr3|apply typed_dr|apply typed_seg|apply typed_gdt|apply typed_idt|apply typed_dev] end ].

(** [typing]: walks through a sequence; a step whose lemma is in the hint base gives
    its postcondition to the rest. *)
Ltac leaf := solve [eauto 3 with typed nocore].
Ltac typing := repeat lazymatch goal with
  | |- types (mbind (get _) _) _ => apply types_get_bind; intros ? ?
  | |- types (mbind (ok (gets _)) _) _ => apply types_get_bind; intros ? ?
  | |- types (ok (mbind (gets _) _)) _ => apply types_gets_bind; intros ? ?
  | |- types (@mbind _ _ Z _ _ _) _ => first [eapply types_bind; [leaf|intros ? ?] | apply (types_bind _ _ (inw 32)); [solve [typing]|intros ? ?] | apply (types_bind _ _ any); [|intros ? _]]
  | |- types (mbind _ _) _ => first [eapply types_bind; [leaf|intros ? ?] | apply (types_bind _ _ any); [|intros ? _]]
  | |- types (ok (@mbind _ _ Z _ _ _)) _ => first [eapply types_seq; [leaf|intros ? ?] | apply (types_seq _ _ (inw 32)); [solve [typing]|intros ? ?] | apply (types_seq _ _ any); [|intros ? _]]
  | |- types (ok (mbind _ _)) _ => first [eapply types_seq; [leaf|intros ? ?] | apply (types_seq _ _ any); [|intros ? _]]
  | |- types (mret _) any => apply types_ret; exact I
  | |- types (ok (mret _)) any => apply types_ok_ret; exact I
  | |- types (mret _) (inw 32) => apply types_ret; word
  | |- types (ok (mret _)) (inw 32) => apply types_ok_ret; word
  | |- types (mret _) _ => apply types_ret
  | |- types (ok (mret _)) _ => apply types_ok_ret
  | |- types (THROW _ _) _ => apply types_throw
  | |- types (THROW0 _) _ => apply types_throw0
  | |- types fails _ => apply types_fails
  | |- types (ok (lift (Stuck _))) _ => apply types_stuck
  | |- types (ok (stuck _)) _ => apply types_stuck
  | |- types (ok (lift _)) any => apply types_lift; intros; exact I
  | |- types (get _) any => apply types_get; intros ? ?; exact I
  | |- types (get _) (inw 32) => apply types_get; intros ? ?; word
  | |- types (ok (gets _)) any => apply types_gets; intros ? ?; exact I
  | |- types (ok (gets _)) (inw 32) => apply types_gets; intros ? ?; word
  | |- types (put _) any => first [leaf | apply types_put; intros ? ?; typed_state]
  | |- types (ok (modify _)) any => first [leaf | apply types_modify; intros ? ?; typed_state]
  | |- types (ok (set_flag _ _)) any => apply types_set_flag; split; vm_compute; congruence
  | |- types (ok (fun c => lift _ c)) any => apply types_read; intros; exact I
  | |- types (if ?b then _ else _) _ => destruct b
  | |- types (ok (if ?b then _ else _)) _ => destruct b
  | |- types (let '(_, _) := ?x in _) _ => destruct x
  | |- types (match ?x with _ => _ end) _ => destruct x
  | |- types (ok (match ?x with _ => _ end)) _ => destruct x
  | |- types _ any => first [leaf | eapply types_any; leaf | progress cbv zeta beta]
  | |- types _ _ => first [leaf | progress cbv zeta beta]
  end.

(** The same for code given by cases on the state. *)
Ltac at_st := lazymatch goal with |- match ?m ?c with Done _ => _ | Stuck _ => True end => eapply (types_st_at m _ c); [typing|assumption] end.
Ltac at_exc := lazymatch goal with |- match ?m ?c with Done _ => _ | Stuck _ => True end => eapply (types_exc_at m _ c); [typing|assumption] end.
Ltac typing_st := apply types_st; intros ? ?; repeat first [lazymatch goal with |- context [if ?b then _ else _] => destruct b end]; first [done|at_st].
Ltac typing_fun := apply types_fun; intros ? ?; repeat first [lazymatch goal with |- context [if ?b then _ else _] => destruct b end]; first [done|at_exc].

(** ** Flags and the lazily kept operation *)

Section Flags.
Context {D : Type} `{IoMem D}.
Implicit Types c : CPUI386 D.
Implicit Types a b : Operand D.

Lemma types_fetch_CF : types (D := D) (ok fetch_CF) any.
Proof. by apply types_read. Qed.
Lemma types_refresh : types (D := D) (ok refresh_flags) any.
Proof.
  unfold refresh_flags. typing.
Qed.
Lemma types_set_cc f : (forall k, cc_typed k -> cc_typed (f k)) -> types (D := D) (ok (set_cc f)) any.
Proof. intros Hf. apply types_modify. intros c Hc. apply typed_cc; [done|]. apply Hf, (ty_cc c Hc). Qed.

(** Narrowing the mask keeps the carry condition. *)
Lemma nz_land_l m x f : nz (Z.land (Z.land m x) f) = true -> nz (Z.land m f) = true.
Proof.
  unfold nz. intros E. apply negb_true_iff, Z.eqb_neq. apply negb_true_iff, Z.eqb_neq in E. intros E0. apply E.
  by rewrite <- Z.land_assoc, (Z.land_comm x), Z.land_assoc, E0.
Qed.
Lemma cc_narrow k x : cc_typed k -> cc_typed (k <| mask := Z.land (mask k) x |>).
Proof. intros [? ? ? ? Hcf]. constructor; try assumption. intros E. apply Hcf. by apply (nz_land_l _ x). Qed.
Lemma cc_mask k m : cc_typed k -> nz (Z.land m CF) = false -> cc_typed (k <| mask := m |>).
Proof. intros [? ? ? ? Hcf] Hm. constructor; try assumption. cbn. congruence. Qed.
Lemma cc_op k o m : cc_typed k -> incdec o = false -> cc_typed (k <| op := o |> <| mask := m |>).
Proof. intros [? ? ? ? Hcf] Ho. by constructor. Qed.
Lemma cc_dst k v : cc_typed k -> inw 32 v -> cc_typed (k <| dst := v |>).
Proof. intros [? ? ? ? Hcf] Hv. by constructor. Qed.
Lemma cc_dst2 k v : cc_typed k -> inw 32 v -> cc_typed (k <| dst2 := v |>).
Proof. intros [? ? ? ? Hcf] Hv. by constructor. Qed.
Lemma cc_src1 k v : cc_typed k -> inw 32 v -> cc_typed (k <| src1 := v |>).
Proof. intros [? ? ? ? Hcf] Hv. by constructor. Qed.
Lemma cc_src2 k v : cc_typed k -> inw 32 v -> cc_typed (k <| src2 := v |>).
Proof. intros [? ? ? ? Hcf] Hv. by constructor. Qed.

Lemma types_cpu_getflags : types (D := D) (ok cpu_getflags) (inw 32).
Proof.
  unfold cpu_getflags. typing; [apply types_refresh|]. apply cc_mask; [by apply ty_cc|done].
Qed.

(** An operand gives words and stores anything. *)
Record operand_typed a : Prop := {
  ot_la : types (ok (la a)) (inw 32);
  ot_sa : forall v, types (ok (sa a v)) any;
}.
Lemma operand_reg8 i : operand_typed (reg8 i).
Proof. constructor; [|intros v]; cbn [la sa reg8]; typing. Qed.
Lemma operand_reg16 i : operand_typed (reg16 i).
Proof. constructor; [|intros v]; cbn [la sa reg16]; typing. Qed.
Lemma operand_reg32 i : operand_typed (reg32 i).
Proof. constructor; [|intros v]; cbn [la sa reg32]; typing. Qed.
Lemma operand_imm x : inw 32 x -> operand_typed (imm x).
Proof. intros Hx. constructor; [|intros v]; cbn [la sa imm]; typing. Qed.
End Flags.

#[export] Hint Resolve types_fetch_CF types_refresh ot_la ot_sa operand_reg8 operand_reg16 operand_reg32 operand_imm : typed.
#[export] Hint Resolve ty_cc : typed.

(** Updates of the lazily kept operation. *)
Ltac cc_state := intros; cbv zeta; repeat first
  [ assumption | lazymatch goal with |- inw _ _ => word | |- incdec _ = false => reflexivity | |- nz _ = false => reflexivity end
  | lazymatch goal with
    | |- cc_typed (@set_field _ _ mask _ _ (@set_field _ _ op _ _ _)) => apply cc_op
    | |- cc_typed (@set_field _ _ mask _ (fun _ => Z.land (mask _) _) _) => apply cc_narrow
    | |- cc_typed (@set_field _ _ mask _ _ _) => apply cc_mask
    | |- cc_typed (@set_field _ _ dst _ _ _) => apply cc_dst
    | |- cc_typed (@set_field _ _ dst2 _ _ _) => apply cc_dst2
    | |- cc_typed (@set_field _ _ src1 _ _ _) => apply cc_src1
    | |- cc_typed (@set_field _ _ src2 _ _ _) => apply cc_src2
    end ].
#[export] Hint Extern 1 (types (ok (set_cc _)) _) => apply types_set_cc; cc_state : typed.
#[export] Hint Extern 1 (cc_typed (set_field _ _)) => solve [cc_state; apply ty_cc; assumption] : typed.

(** ** Arithmetic instructions *)

Section Arithmetic.
Context {D : Type} `{IoMem D}.
Implicit Types c : CPUI386 D.
Implicit Types a b : Operand D.

Lemma types_ACOP n1 n2 w f a b : incdec n1 = false -> incdec n2 = false -> operand_typed a -> operand_typed b -> types (ok (ACOP_helper n1 n2 w f a b)) any.
Proof.
  intros H1 H2 Ha Hb. unfold ACOP_helper. typing. apply types_set_cc. intros k Hk. apply cc_op; [done|]. by destruct (nz _).
Qed.
Lemma types_AOP0 n w f a b : incdec n = false -> operand_typed a -> operand_typed b -> types (ok (AOP0_helper n w f a b)) any.
Proof. intros Hn Ha Hb. unfold AOP0_helper. typing. Qed.
Lemma types_LOP0 n w f a b : incdec n = false -> operand_typed a -> operand_typed b -> types (ok (LOP0_helper n w f a b)) any.
Proof. intros Hn Ha Hb. unfold LOP0_helper. typing. Qed.
#[local] Hint Resolve types_AOP0 types_LOP0 : typed.
Lemma types_AOP n w f a b : incdec n = false -> operand_typed a -> operand_typed b -> types (ok (AOP_helper n w f a b)) any.
Proof. intros Hn Ha Hb. unfold AOP_helper. typing. Qed.
Lemma types_LOP n w f a b : incdec n = false -> operand_typed a -> operand_typed b -> types (ok (LOP_helper n w f a b)) any.
Proof. intros Hn Ha Hb. unfold LOP_helper. typing. Qed.
(** Between the two assignments the carry condition does not hold. *)
Lemma types_INCDEC n w f a : operand_typed a -> types (ok (INCDEC_helper n w f a)) any.
Proof.
  intros Ha. unfold INCDEC_helper. eapply types_seq; [apply types_fetch_CF|intros cf _]. eapply types_seq; [apply (ot_la a Ha)|intros x _].
  eapply types_seq; [apply types_set_cc; cc_state|intros _ _]. intros c Hc.
  set (c' := c <| cc := (cc c) <| op := n |> |> <| flags := SET_BIT (flags c) cf CF |> <| cc := (cc c) <| op := n |> <| mask := NO_CARRY |> |>).
  change (leads (ok (d ← gets (fun c => dst (cc c)); sa a d)) c' (fun r c2 => typed c2 /\ forall u, r = Some u -> any u)).
  assert (Hc' : typed c').
  { retype c Hc; [apply SET_BIT_inw; [apply (ty_flags c Hc)|split; vm_compute; congruence]|].
    destruct (ty_cc c Hc). by constructor. }
  assert (Ht : types (ok (d ← gets (fun c : CPUI386 D => dst (cc c)); sa a d)) any) by typing. exact (Ht c' Hc').
Qed.
Lemma types_NEG n w a : incdec n = false -> operand_typed a -> types (ok (NEG_helper n w a)) any.
Proof. intros Hn Ha. unfold NEG_helper. typing. Qed.
Lemma types_NOT a : operand_typed a -> types (ok (NOT_helper a)) any.
Proof. intros Ha. unfold NOT_helper. typing. Qed.
Lemma types_cond n1 : types (D := D) (ok (cond_of n1)) any.
Proof. unfold cond_of. typing. Qed.
#[local] Hint Resolve types_cond : typed.
Lemma types_JCCb n1 i : types (D := D) (ok (JCCb n1 i)) any.
Proof. unfold JCCb. typing. Qed.
Lemma types_JCCw n1 i : types (D := D) (ok (JCCw n1 i)) any.
Proof. unfold JCCw. typing. Qed.
Lemma types_JCCd n1 i : types (D := D) (ok (JCCd n1 i)) any.
Proof. unfold JCCd. typing. Qed.
Lemma types_SETCC n1 a : operand_typed a -> types (ok (SETCCb n1 a)) any.
Proof. intros Ha. unfold SETCCb. typing. Qed.

Lemma types_pload8 x : types (D := D) (ok (pload8 x)) (inw 8).
Proof.
  intros c Hc. unfold leads, ok, pload8, lift, rd. destruct (Z.ltb_spec x 0); [done|].
  destruct (phys_mem c !! Z.to_nat x) as [v|] eqn:E; [|done]. split; [done|]. intros ? [= <-].
  assert (Hx : 0 <= x < alen (phys_mem c)) by (apply lookup_lt_Some in E; unfold alen; lia).
  pose proof (ty_mem c Hc x Hx) as Hw. unfold arr in Hw. by rewrite (list_lookup_total_correct _ _ _ E) in Hw.
Qed.
Lemma types_pstore8 x v : types (D := D) (ok (pstore8 x v)) any.
Proof.
  intros c Hc. unfold leads, ok, pstore8, wr. destruct (_ || _) eqn:E; [done|]. split; [|done]. apply typed_memory; [done|].
  intros i Hi. rewrite alen_set in Hi. apply (arr_set_all (inw 8) _ _ _ (alen (phys_mem c))); [done|apply (ty_mem c Hc)|apply inw_u8|done].
Qed.
Lemma types_byte x : types (D := D) (ok (pload8 x)) (inw 32).
Proof. eapply types_weaken; [apply types_pload8|]. intros z Hz. by apply word_byte. Qed.
#[local] Hint Resolve types_pload8 types_pstore8 : typed.
Lemma types_try_jcc8 : types (D := D) (ok try_jcc8) any.
Proof.
  apply types_st. intros c Hc. unfold try_jcc8. destruct (nz _); [|done]. at_st.
Qed.
#[local] Hint Resolve types_try_jcc8 : typed.
Lemma types_CMP n w f a b : incdec n = false -> operand_typed a -> operand_typed b -> types (ok (CMP_helper n w f a b)) any.
Proof. intros Hn Ha Hb. unfold CMP_helper. typing. Qed.
Lemma types_TEST n w f a b : incdec n = false -> operand_typed a -> operand_typed b -> types (ok (TEST_helper n w f a b)) any.
Proof. intros Hn Ha Hb. unfold TEST_helper. typing. Qed.

(** Every two-operand operation of [I386Alu]. *)
Definition binary_typed (f : Operand D -> Operand D -> ST (CPUI386 D) unit) : Prop := forall a b, operand_typed a -> operand_typed b -> types (ok (f a b)) any.
Definition unary_typed (f : Operand D -> ST (CPUI386 D) unit) : Prop := forall a, operand_typed a -> types (ok (f a)) any.
Lemma binary_ADD w : binary_typed (ADD w).
Proof. intros a b. by apply types_AOP. Qed.
Lemma binary_SUB w : binary_typed (SUB w).
Proof. intros a b. by apply types_AOP. Qed.
Lemma binary_OR w : binary_typed (OR w).
Proof. intros a b. by apply types_LOP. Qed.
Lemma binary_AND w : binary_typed (AND w).
Proof. intros a b. by apply types_LOP. Qed.
Lemma binary_XOR w : binary_typed (XOR w).
Proof. intros a b. by apply types_LOP. Qed.
Lemma binary_CMP w : binary_typed (CMP w).
Proof. intros a b. by apply types_CMP. Qed.
Lemma binary_TEST w : binary_typed (TEST w).
Proof. intros a b. by apply types_TEST. Qed.
Lemma binary_ADC w : binary_typed (ADC w).
Proof. intros a b. by apply types_ACOP. Qed.
Lemma binary_SBB w : binary_typed (SBB w).
Proof. intros a b. by apply types_ACOP. Qed.
Lemma by_width_incdec w o8 o16 o32 : incdec o8 = false -> incdec o16 = false -> incdec o32 = false -> incdec (by_width w o8 o16 o32) = false.
Proof. intros. unfold by_width. by repeat case_match. Qed.
Lemma unary_INC w : unary_typed (INC w).
Proof. intros a. apply types_INCDEC. Qed.
Lemma unary_DEC w : unary_typed (DEC w).
Proof. intros a. apply types_INCDEC. Qed.
Lemma unary_NEG w : unary_typed (NEG w).
Proof. intros a. apply types_NEG. by apply by_width_incdec. Qed.

Lemma shl32_word x y z : shl32 x y = Done z -> inw 32 z.
Proof. unfold shl32. destruct (_ && _); [|done]. intros [= <-]. apply inw_u32. Qed.
Lemma types_shl32 x y : types (D := D) (ok (lift (shl32 x y))) (inw 32).
Proof. apply types_lift. intros z. apply shl32_word. Qed.
Lemma types_shr32 x y : types (D := D) (ok (lift (shr32 x y))) any.
Proof. by apply types_lift. Qed.
#[local] Hint Resolve types_shl32 types_shr32 : typed.
Lemma binary_SHL w : binary_typed (SHL_helper w).
Proof. intros a b Ha Hb. unfold SHL_helper. typing. Qed.
Lemma binary_SHR w : binary_typed (SHR_helper w).
Proof. intros a b Ha Hb. unfold SHR_helper. typing. Qed.
Lemma binary_SAR w : binary_typed (SAR_helper w).
Proof. intros a b Ha Hb. unfold SAR_helper. typing. Qed.
Lemma types_rotate_flags x y : types (D := D) (ok (rotate_flags x y)) any.
Proof. unfold rotate_flags. typing. Qed.
#[local] Hint Resolve types_rotate_flags : typed.
Lemma binary_ROL w : binary_typed (ROL_helper w).
Proof. intros a b Ha Hb. unfold ROL_helper. typing. Qed.
Lemma binary_ROR w : binary_typed (ROR_helper w).
Proof. intros a b Ha Hb. unfold ROR_helper. typing. Qed.
Lemma binary_RCL w : binary_typed (RCL_helper w).
Proof. intros a b Ha Hb. unfold RCL_helper. typing. Qed.
Lemma binary_RCR w : binary_typed (RCR_helper w).
Proof. intros a b Ha Hb. unfold RCR_helper. typing. Qed.
Lemma types_SHLD w a b k : operand_typed a -> operand_typed b -> operand_typed k -> types (ok (SHLD_helper w a b k)) any.
Proof. intros Ha Hb Hk. unfold SHLD_helper. typing. Qed.
Lemma types_SHRD w a b k : operand_typed a -> operand_typed b -> operand_typed k -> types (ok (SHRD_helper w a b k)) any.
Proof. intros Ha Hb Hk. unfold SHRD_helper. typing. Qed.
Lemma types_carry_out x : types (D := D) (ok (carry_out x)) any.
Proof. unfold carry_out. typing. Qed.
#[local] Hint Resolve types_carry_out : typed.
Lemma binary_BT w : binary_typed (BT_helper w).
Proof. intros a b Ha Hb. unfold BT_helper. typing. Qed.
Lemma binary_BTX f w : binary_typed (BTX_helper f w).
Proof. intros a b Ha Hb. unfold BTX_helper. typing. Qed.
Lemma binary_BSF w : binary_typed (BSF_helper w).
Proof. intros a b Ha Hb. unfold BSF_helper. typing. Qed.
Lemma binary_BSR w : binary_typed (BSR_helper w).
Proof. intros a b Ha Hb. unfold BSR_helper. typing. Qed.

(** Multiplication and division *)
Lemma types_product n s1 s2 d : incdec n = false -> inw 32 s1 -> inw 32 s2 -> inw 32 d -> types (D := D) (ok (set_product n s1 s2 d)) any.
Proof. intros Hn H1 H2 Hd. apply types_set_cc. cc_state. Qed.
Lemma types_product64 n s1 s2 r : incdec n = false -> inw 32 s1 -> inw 32 s2 -> types (D := D) (ok (set_product64 n s1 s2 r)) any.
Proof. intros Hn H1 H2. apply types_set_cc. cc_state. Qed.
#[local] Hint Extern 1 (types (ok (set_product _ _ _ _)) _) => apply types_product; [reflexivity|word|word|word] : typed.
#[local] Hint Extern 1 (types (ok (set_product64 _ _ _ _)) _) => apply types_product64; [reflexivity|word|word] : typed.
Lemma unary_MULb : unary_typed MULb. Proof. intros a Ha. unfold MULb. typing. Qed.
Lemma unary_MULw : unary_typed MULw. Proof. intros a Ha. unfold MULw. typing. Qed.
Lemma unary_MULd : unary_typed MULd. Proof. intros a Ha. unfold MULd. typing. Qed.
Lemma unary_IMULb : unary_typed IMULb. Proof. intros a Ha. unfold IMULb. typing. Qed.
Lemma unary_IMULw : unary_typed IMULw. Proof. intros a Ha. unfold IMULw. typing. Qed.
Lemma unary_IMULd : unary_typed IMULd. Proof. intros a Ha. unfold IMULd. typing. Qed.
Lemma binary_IMUL2w : binary_typed IMUL2w. Proof. intros a b Ha Hb. unfold IMUL2w. typing. Qed.
Lemma binary_IMUL2d : binary_typed IMUL2d. Proof. intros a b Ha Hb. unfold IMUL2d. typing. Qed.
Lemma types_IMUL2wI n a b i : operand_typed a -> operand_typed b -> types (ok (IMUL2wI_helper n a b i)) any.
Proof. intros Ha Hb. unfold IMUL2wI_helper. typing. Qed.
Lemma types_IMUL2dI n a b i : operand_typed a -> operand_typed b -> types (ok (IMUL2dI_helper n a b i)) any.
Proof. intros Ha Hb. unfold IMUL2dI_helper. typing. Qed.
Lemma types_force_ZF v : types (D := D) (ok (force_ZF v)) any.
Proof. unfold force_ZF. typing. Qed.
#[local] Hint Resolve types_force_ZF : typed.
Definition unary_fallible (f : Operand D -> Exc (CPUI386 D) unit) : Prop := forall a, operand_typed a -> types (f a) any.
Lemma fallible_DIVb : unary_fallible DIVb. Proof. intros a Ha. unfold DIVb. typing. Qed.
Lemma fallible_DIVw : unary_fallible DIVw. Proof. intros a Ha. unfold DIVw. typing. Qed.
Lemma fallible_DIVd : unary_fallible DIVd. Proof. intros a Ha. unfold DIVd. typing. Qed.
Lemma types_signed_divide n w x y st : (forall q r, types (ok (st q r)) any) -> types (D := D) (signed_divide n w x y st) any.
Proof. intros Hs. unfold signed_divide. typing. Qed.
Lemma fallible_IDIVb : unary_fallible IDIVb.
Proof. intros a Ha. unfold IDIVb. typing. apply types_signed_divide. intros. typing. Qed.
Lemma fallible_IDIVw : unary_fallible IDIVw.
Proof. intros a Ha. unfold IDIVw. typing. apply types_signed_divide. intros. typing. Qed.
Lemma fallible_IDIVd : unary_fallible IDIVd.
Proof. intros a Ha. unfold IDIVd. typing. apply types_signed_divide. intros. typing. Qed.

Lemma typed_clear_flags m c : typed c -> typed (clear_flags m c).
Proof. intros Hc. apply typed_flags; [done|]. apply inw_land_l, (ty_flags c Hc). Qed.
Lemma typed_raise_flags m c : typed c -> inw 32 m -> typed (raise_flags m c).
Proof. intros Hc Hm. apply typed_flags; [done|]. apply inw_lor; [apply (ty_flags c Hc)|done]. Qed.
#[local] Hint Resolve typed_clear_flags typed_raise_flags : typed.
Lemma types_show_al r : types (D := D) (ok (show_al r)) any.
Proof. unfold show_al. typing. Qed.
#[local] Hint Resolve types_show_al : typed.
Lemma types_AAD i : types (D := D) (ok (AAD_helper i)) any.
Proof. unfold AAD_helper. typing. Qed.
Lemma types_AAM i : types (D := D) (ok (AAM_helper i)) any.
Proof. unfold AAM_helper. typing. Qed.
Lemma types_decimal d f : types (D := D) (ok (decimal_adjust d f)) any.
Proof. unfold decimal_adjust. typing. Qed.
Lemma types_AAA : types (D := D) (ok AAA_helper) any.
Proof. unfold AAA_helper. typing. Qed.
Lemma types_AAS : types (D := D) (ok AAS_helper) any.
Proof. unfold AAS_helper. typing. Qed.
Lemma typed_set_mask0 c : typed c -> typed (set_mask 0 c).
Proof. intros Hc. apply typed_cc; [done|]. by apply cc_mask; [apply (ty_cc c Hc)|]. Qed.
#[local] Hint Resolve typed_set_mask0 : typed.
Lemma types_LAHF : types (D := D) (ok LAHF) any.
Proof. unfold LAHF. typing. Qed.
Lemma types_SAHF : types (D := D) (ok SAHF) any.
Proof. unfold SAHF. typing. Qed.
Lemma types_CMC : types (D := D) (ok CMC) any.
Proof. unfold CMC. typing. Qed.
Lemma types_CLC : types (D := D) (ok CLC) any.
Proof. unfold CLC. typing. Qed.
Lemma types_STC : types (D := D) (ok STC) any.
Proof. unfold STC. typing. Qed.
End Arithmetic.

#[export] Hint Resolve binary_ADD binary_SUB binary_OR binary_AND binary_XOR binary_CMP binary_TEST binary_ADC binary_SBB unary_INC unary_DEC unary_NEG
  types_NOT types_cond types_JCCb types_JCCw types_JCCd types_SETCC types_pload8 types_pstore8 types_try_jcc8
  binary_SHL binary_SHR binary_SAR binary_ROL binary_ROR binary_RCL binary_RCR types_SHLD types_SHRD binary_BT binary_BTX binary_BSF binary_BSR
  unary_MULb unary_MULw unary_MULd unary_IMULb unary_IMULw unary_IMULd binary_IMUL2w binary_IMUL2d types_IMUL2wI types_IMUL2dI
  fallible_DIVb fallible_DIVw fallible_DIVd fallible_IDIVb fallible_IDIVw fallible_IDIVd
  typed_clear_flags typed_raise_flags types_AAD types_AAM types_decimal types_AAA types_AAS typed_set_mask0 types_LAHF types_SAHF types_CMC types_CLC types_STC : typed.
End Typed.
