(* ===== verification/I386TypedMem.v ===== *)
(** * I386TypedMem: memory accesses, fetches, segments and string instructions stay words

    The judgement [types] of [I386Typed] for the page walk, both TLBs, loads and
    stores, the instruction fetch, effective addresses, segment loads and the string
    instructions. *)

From S2P Require Import Prelude I386 I386Alu I386Shift I386Mul I386Mmu I386Paging I386Mem I386String I386Rep I386Typed.

Module TypedMem.
Import I386 Alu Shift Mul Mmu Paging Mem Str Rep Typed.

(** The callbacks for reads return values of their width. *)
Class IoMemLaws (D : Type) `{IoMem D} : Prop := {
  read8_byte : forall f a d v d', iomem_read8 = Some f -> f a d = Done (v, d') -> inw 8 v;
  read16_word : forall f a d v d', iomem_read16 = Some f -> f a d = Done (v, d') -> inw 16 v;
  read32_word : forall f a d v d', iomem_read32 = Some f -> f a d = Done (v, d') -> inw 32 v;
}.

Section Memory.
Context {D : Type} `{IoMem D}.
Implicit Types c : CPUI386 D.

Lemma types_pload16 x : types (D := D) (ok (pload16 x)) (inw 16).
Proof.
  unfold pload16. do 2 (eapply types_seq; [apply types_pload8|intros ? ?]). apply types_ok_ret.
  apply inw_lor; [by apply (inw_mono 8); [|lia]|]. apply (inw_shiftl 8 8); [lia|done].
Qed.
Lemma types_pload32 x : types (D := D) (ok (pload32 x)) (inw 32).
Proof.
  unfold pload32. do 4 (eapply types_seq; [apply types_pload8|intros ? ?]). apply types_ok_ret.
  repeat apply inw_lor; [by apply word_byte| | |].
  - apply (inw_mono 16); [apply (inw_shiftl 8 8); [lia|done]|lia].
  - apply (inw_mono 24); [apply (inw_shiftl 8 16); [lia|done]|lia].
  - apply (inw_shiftl 8 24); [lia|done].
Qed.
Lemma types_pstore16 x v : types (D := D) (ok (pstore16 x v)) any.
Proof. unfold pstore16. typing. Qed.
Lemma types_pstore32 x v : types (D := D) (ok (pstore32 x v)) any.
Proof. unfold pstore32. typing. Qed.
Lemma types_pstore_w w x v : types (D := D) (ok (pstore_w w x v)) any.
Proof. unfold pstore_w. destruct (w =? 8); [apply types_pstore8|]. destruct (w =? 16); [apply types_pstore16|apply types_pstore32]. Qed.
Lemma types_or_byte x k : types (D := D) (ok (or_byte x k)) any.
Proof. unfold or_byte. typing. Qed.
End Memory.
#[export] Hint Resolve types_pload16 types_pload32 types_pstore16 types_pstore32 types_pstore_w types_or_byte : typed.

(** ** The page walk and the TLBs *)

Section Pages.
Context {D : Type} `{IoMem D}.
Implicit Types c : CPUI386 D.

(** Updates of the TLBs. *)
Lemma typed_pages c c' : typed c -> pages_ok c' -> env c c' -> phys_mem c' = phys_mem c -> cr2 c' = cr2 c -> typed c'.
Proof.
  intros Hc Hp [E _] Em E2. rewrite E. retype c Hc.
  - change (inw 32 (cr2 c')). rewrite E2. apply (ty_cr2 c Hc).
  - change (mem_ok (phys_mem c')). rewrite Em. apply (ty_mem c Hc).
  - by apply (pages_ext c').
Qed.
Lemma typed_entry c s e : typed c -> lpgno e = NO_PAGE \/ aligned_page (xaddr e) -> typed (c <| tlb := arr_set (tlb c) s e |>).
Proof. intros Hc He. destruct (pages_entry c s e (ty_pages c Hc) He) as [Hp Hv]. by apply (typed_pages c). Qed.
Lemma typed_drop_entry c l : typed c -> typed (drop_entry l c).
Proof. intros Hc. apply typed_entry; [done|by left]. Qed.
Lemma typed_fr c l r : typed c -> read_lpgno r = NO_PAGE \/ aligned_page (read_xaddr r) -> typed (set_fr l r c).
Proof. intros Hc He. destruct (pages_fr c l r (ty_pages c Hc) He) as [Hp Hv]. by apply (typed_pages c). Qed.
Lemma typed_fw c l r : typed c -> write_lpgno r = NO_PAGE \/ aligned_page (write_xaddr r) -> typed (set_fw l r c).
Proof. intros Hc He. destruct (pages_fw c l r (ty_pages c Hc) He) as [Hp Hv]. by apply (typed_pages c). Qed.
Lemma typed_drop_fast c l : typed c -> typed (drop_fast l c).
Proof.
  intros Hc. unfold drop_fast. cbv zeta.
  assert (H1 : typed (if read_lpgno (fr c l) =? l then set_fr l (mkFR NO_PAGE (read_xaddr (fr c l)) (read_cpl (fr c l))) c else c))
    by (destruct (_ =? _); [apply typed_fr; [done|by left]|done]).
  destruct (write_lpgno _ =? l); [apply typed_fw; [done|by left]|done].
Qed.
Lemma typed_tlb_clear c : typed c -> typed (tlb_clear c).
Proof.
  intros Hc. destruct (ty_pages c Hc) as [H1 H2 H3 _ _ _].
  assert (Hlen : forall A B (f : A -> B) l, alen (f <$> l) = alen l) by (intros; unfold alen; by rewrite length_fmap).
  retype c Hc. constructor; unfold tlb_clear; cbn [tlb fast_read fast_write set_field]; rewrite ?Hlen; try done;
    intros i Hi; left; rewrite arr_map by lia; done.
Qed.

Lemma types_refill s l : types (D := D) (tlb_refill s l) any.
Proof. unfold tlb_refill. typing. apply typed_entry; [done|right; apply aligned_frame]. Qed.
Lemma types_dirty p : types (D := D) (ok (mark_pte_dirty p)) any.
Proof. unfold mark_pte_dirty. typing. Qed.
Lemma types_page_fault {A} p rwm lvl laddr (Q : A -> Prop) : inw 32 laddr -> types (D := D) (page_fault (A := A) p rwm lvl laddr) Q.
Proof. intros Hl. unfold page_fault. typing. Qed.
End Pages.
#[export] Hint Resolve typed_drop_entry typed_drop_fast typed_tlb_clear types_refill types_dirty types_page_fault : typed.

Section Translation.
Context {D : Type} `{IoMem D}.
Implicit Types c : CPUI386 D.

Lemma types_find rwm l laddr lvl : inw 32 laddr -> 0 <= l < NO_PAGE ->
  types (D := D) (find_entry rwm l laddr lvl) (fun e => aligned_page (xaddr e)).
Proof.
  intros Ha Hl c Hc. destruct (find_entry rwm l laddr lvl c) as [[r c']|] eqn:E; [|by unfold leads; rewrite E].
  assert (Ht : typed c').
  { unfold find_entry in E. destruct (lpgno (entry c l) =? l); [by injection E as _ <-|].
    pose proof (types_refill (slot_of l) l c Hc) as Hr. unfold leads in Hr. destruct (tlb_refill (slot_of l) l c) as [[[u|] c1]|]; [injection E as _ <-; exact (proj1 Hr)| |done].
    pose proof (types_page_fault (A := TlbEntry) 0 rwm lvl laddr any Ha c1 (proj1 Hr)) as Hf. unfold leads in Hf. rewrite E in Hf. apply Hf. }
  unfold leads. rewrite E. split; [done|]. intros e ->. by apply (found_aligned rwm l laddr lvl c e c' (ty_pages c Hc)).
Qed.
Lemma types_fast rwm l laddr lvl : inw 32 laddr -> 0 <= l < NO_PAGE -> types (D := D) (translate_lpgno_fast rwm l laddr lvl) any.
Proof.
  intros Ha Hl. apply types_fun. intros c Hc. unfold translate_lpgno_fast. cbv zeta. destruct (_ && _); [done|]. destruct (_ && _); [done|].
  destruct (_ && _).
  - at_exc. apply typed_fw; [done|]. destruct (po_write _ (ty_pages _ H1) (fast_slot l) (fast_slot_range l)) as [E|E]; [by left|by right].
  - eapply types_exc_at; [|done]. eapply types_bind; [by apply types_find|intros e He]. typing; [apply typed_fw|apply typed_fr]; by (done || right).
Qed.

Lemma page_of_word a : inw 32 a -> 0 <= Z.shiftr a 12 < 2 ^ 20.
Proof. intros Ha. by apply (inw_shiftr_to 20 12). Qed.
Lemma types_laddr rwm laddr n lvl : inw 32 laddr -> types (D := D) (translate_laddr rwm laddr n lvl) any.
Proof.
  intros Ha. pose proof (page_of_word _ Ha). unfold translate_laddr. typing.
  - apply types_fast; [done|unfold NO_PAGE; lia].
  - apply types_fast; [apply inw_u32|unfold NO_PAGE; lia].
Qed.
Lemma types_segcheck s : types (D := D) (segcheck s) any.
Proof. apply types_fun. intros c Hc. unfold segcheck. destruct (_ && _); [at_exc|done]. Qed.
#[local] Hint Resolve types_segcheck : typed.
Lemma types_translate rwm s a n lvl : types (D := D) (translate rwm s a n lvl) any.
Proof. apply types_fun. intros c Hc. unfold translate. cbv zeta. at_exc. apply types_laddr, inw_u32. Qed.
Lemma types_translate8 rwm s a : types (D := D) (translate8 rwm s a) any.
Proof. intros c Hc. exact (types_translate rwm s a 1 (cpl c) c Hc). Qed.
Lemma types_translate16 rwm s a : types (D := D) (translate16 rwm s a) any.
Proof. intros c Hc. exact (types_translate rwm s a 2 (cpl c) c Hc). Qed.
Lemma types_translate32 rwm s a : types (D := D) (translate32 rwm s a) any.
Proof. intros c Hc. exact (types_translate rwm s a 4 (cpl c) c Hc). Qed.
Lemma types_translate_w w rwm s f : types (D := D) (translate_w w rwm s f) any.
Proof. intros c Hc. exact (types_translate rwm s (f c) (size w) (cpl c) c Hc). Qed.
Lemma types_translate8r s a : types (D := D) (translate8r s a) any.
Proof.
  apply types_fun. intros c Hc. unfold translate8r. cbv zeta. set (laddr := u32 _). assert (Ha : inw 32 laddr) by apply inw_u32.
  pose proof (page_of_word _ Ha). at_exc. eapply types_any, types_find; [done|unfold NO_PAGE; lia].
Qed.
End Translation.
#[export] Hint Resolve types_segcheck types_translate types_translate8 types_translate16 types_translate32 types_translate_w types_translate8r : typed.

(** ** Loads, stores and fetches *)

Section Accesses.
Context {D : Type} `{IoMemLaws D}.
Implicit Types c : CPUI386 D.

Lemma types_guarded {A} x (cb : option (ST D A)) (absent : A) (ram : ST (CPUI386 D) A) Q :
  (forall m d a d', cb = Some m -> m d = Done (a, d') -> Q a) -> Q absent -> types (ok ram) Q -> types (ok (guarded x cb absent ram)) Q.
Proof.
  intros Hcb Ha Hr. apply types_st. intros c Hc. unfold guarded. destruct cb as [m|].
  - destruct (in_iomem x); [apply types_st_at; [apply types_device; intros d a d'; by apply Hcb|done]|].
    destruct (_ <=? _); [by split|by apply types_st_at].
  - destruct (_ <=? _); [by split|by apply types_st_at].
Qed.
Lemma zero_word n : 0 <= n -> inw n 0.
Proof. intros Hn. split; [done|]. by apply pow2_pos. Qed.
Lemma types_load8 o : types (D := D) (ok (load8 o)) (inw 8).
Proof.
  apply types_guarded; [|by apply zero_word|apply types_pload8]. intros m d v d' E Em.
  destruct iomem_read8 as [f|] eqn:Ef; [|done]. injection E as <-. exact (read8_byte f _ d v d' Ef Em).
Qed.
Lemma word_pair n x y : inw n x -> inw n y -> 0 <= n -> inw (n + n) (Z.lor x (Z.shiftl y n)).
Proof. intros Hx Hy Hn. apply inw_lor; [by apply (inw_mono n); [|lia]|by apply inw_shiftl]. Qed.
Lemma types_load16 o : types (D := D) (ok (load16 o)) (inw 16).
Proof.
  apply types_guarded; [|by apply zero_word|].
  - intros m d v d' E Em. destruct iomem_read16 as [f|] eqn:Ef; [|done]. injection E as <-. exact (read16_word f _ d v d' Ef Em).
  - destruct o; [apply types_pload16|]. do 2 (eapply types_seq; [apply types_pload8|intros ? ?]). apply types_ok_ret. by apply (word_pair 8).
Qed.
Lemma word_1_2_1 x y z : inw 8 x -> inw 16 y -> inw 8 z -> inw 32 (Z.lor (Z.lor x (Z.shiftl y 8)) (Z.shiftl z 24)).
Proof.
  intros Hx Hy Hz. apply inw_lor; [apply inw_lor|]; [by apply word_byte| |by apply (inw_shiftl 8 24)].
  apply (inw_mono 24); [by apply (inw_shiftl 16 8)|lia].
Qed.
Lemma types_load32 o : types (D := D) (ok (load32 o)) (inw 32).
Proof.
  apply types_guarded; [|by apply zero_word|].
  - intros m d v d' E Em. destruct iomem_read32 as [f|] eqn:Ef; [|done]. injection E as <-. exact (read32_word f _ d v d' Ef Em).
  - destruct o; [apply types_pload32|]. cbv zeta. destruct (_ =? 0xf); [|destruct (_ =? 0xe); [|destruct (_ =? 0xd); [|done]]].
    + eapply types_seq; [apply types_pload8|intros ? ?]. eapply types_seq; [apply types_pload16|intros ? ?].
      eapply types_seq; [apply types_pload8|intros ? ?]. apply types_ok_ret. by apply word_1_2_1.
    + do 2 (eapply types_seq; [apply types_pload16|intros ? ?]). apply types_ok_ret. by apply (word_pair 16).
    + eapply types_seq; [apply types_pload8|intros ? ?]. eapply types_seq; [apply types_pload16|intros ? ?].
      eapply types_seq; [apply types_pload8|intros ? ?]. apply types_ok_ret. by apply word_1_2_1.
Qed.
Lemma types_load_w w o : types (D := D) (ok (load_w w o)) (inw 32).
Proof.
  unfold load_w, load. destruct (Z.to_nat (size w)) as [|[|[|n]]]; [apply types_load32| | |apply types_load32].
  - eapply types_weaken; [apply types_load8|]. intros z Hz. by apply word_byte.
  - eapply types_weaken; [apply types_load16|]. intros z Hz. by apply (inw_mono 16); [|lia].
Qed.
Lemma word_load8 o : types (D := D) (ok (load8 o)) (inw 32).
Proof. eapply types_weaken; [apply types_load8|]. intros z Hz. by apply word_byte. Qed.
Lemma word_load16 o : types (D := D) (ok (load16 o)) (inw 32).
Proof. eapply types_weaken; [apply types_load16|]. intros z Hz. by apply (inw_mono 16); [|lia]. Qed.

Lemma types_store8 o v : types (D := D) (ok (store8 o v)) any.
Proof. apply types_guarded; [done|done|apply types_pstore8]. Qed.
Lemma types_store16 o v : types (D := D) (ok (store16 o v)) any.
Proof. apply types_guarded; [done|done|]. destruct o; [apply types_pstore16|]. typing. Qed.
Lemma types_store32 o v : types (D := D) (ok (store32 o v)) any.
Proof. apply types_guarded; [done|done|]. destruct o; [apply types_pstore32|]. cbv zeta. typing. Qed.
Lemma types_store_w w o v : types (D := D) (ok (store_w w o v)) any.
Proof. unfold store_w, store. destruct (Z.to_nat (size w)) as [|[|[|n]]]; [apply types_store32|apply types_store8|apply types_store16|apply types_store32]. Qed.
End Accesses.
#[export] Hint Resolve word_load8 word_load16 types_load32 types_load_w types_store8 types_store16 types_store32 types_store_w : typed.

Section Fetches.
Context {D : Type} `{IoMemLaws D}.
Implicit Types c : CPUI386 D.

Lemma types_direct_addr rwm off : types (D := D) (stack32_direct_addr rwm off) any.
Proof.
  apply types_fun. intros c Hc. unfold stack32_direct_addr. cbv zeta. destruct (_ && _); [at_exc|]. destruct (_ <? _); [at_exc|].
  set (laddr := u32 _). assert (Ha : inw 32 laddr) by apply inw_u32. pose proof (page_of_word _ Ha).
  eapply types_exc_at; [|done]. typing. apply types_fast; [done|unfold NO_PAGE; lia].
Qed.
Lemma types_advance n : types (D := D) (Mmu.advance n) any.
Proof. unfold Mmu.advance. typing. Qed.
#[local] Hint Resolve types_advance : typed.
Lemma types_peek8 : types (D := D) peek8 (inw 8).
Proof.
  apply types_fun. intros c Hc. unfold peek8. cbv zeta. destruct (in_window c 4096); [eapply types_exc_at; [apply types_pload8|done]|].
  eapply types_exc_at; [|done]. eapply types_bind; [apply types_translate8r|intros res _].
  apply types_guarded; [|by apply zero_word|].
  - intros m d v d' E Em. destruct iomem_read8 as [f|] eqn:Ef; [|done]. injection E as <-. exact (read8_byte f _ d v d' Ef Em).
  - apply types_st. intros c1 Hc1. eapply types_st_at; [|done]. eapply types_seq; [apply types_pload8|intros v Hv]. typing. exact Hv.
Qed.
Lemma types_fetch_cached n (load : Z -> ST (CPUI386 D) Z) slow k : (forall p, types (ok (load p)) (inw k)) -> types slow (inw k) ->
  types (fetch_cached n load slow) (inw k).
Proof.
  intros Hl Hs. apply types_fun. intros c Hc. unfold fetch_cached. cbv zeta. destruct (nz _); eapply types_exc_at; try done.
  - eapply types_bind; [apply Hl|intros v Hv]. typing. exact Hv.
  - eapply types_bind; [apply Hs|intros v Hv]. typing. exact Hv.
Qed.
Lemma types_fetch8 : types (D := D) fetch8 (inw 8).
Proof. apply types_fetch_cached; [apply types_pload8|apply types_peek8]. Qed.
Lemma types_fetch16 : types (D := D) fetch16 (inw 16).
Proof.
  apply types_fetch_cached; [apply types_pload16|]. apply types_fun. intros c Hc. destruct (in_window c 4095);
    eapply types_exc_at; try done; [apply types_pload16|]. typing. apply types_load16.
Qed.
Lemma types_fetch32 : types (D := D) fetch32 (inw 32).
Proof.
  apply types_fetch_cached; [apply types_pload32|]. apply types_fun. intros c Hc. destruct (in_window c 4093);
    eapply types_exc_at; try done; [apply types_pload32|]. typing.
Qed.
Lemma types_peek8a : types (D := D) peek8a (inw 8).
Proof.
  apply types_fun. intros c Hc. unfold peek8a. destruct (nz _); eapply types_exc_at; try done; [apply types_pload8|apply types_peek8].
Qed.
Lemma types_fetch8pf : types (D := D) fetch8pf (inw 8).
Proof.
  apply types_fun. intros c Hc. unfold fetch8pf. cbv zeta. destruct (in_window c (4096 - 16)).
  - eapply types_exc_at; [|done]. eapply types_bind; [apply types_pload8|intros v Hv]. typing. exact Hv.
  - eapply types_exc_at; [|by apply typed_ifetch]. eapply types_bind; [apply types_peek8|intros v Hv]. typing. exact Hv.
Qed.
Lemma word_fetch8 : types (D := D) fetch8 (inw 32).
Proof. eapply types_weaken; [apply types_fetch8|]. intros z Hz. by apply word_byte. Qed.
Lemma word_fetch16 : types (D := D) fetch16 (inw 32).
Proof. eapply types_weaken; [apply types_fetch16|]. intros z Hz. by apply (inw_mono 16); [|lia]. Qed.
Lemma word_peek8a : types (D := D) peek8a (inw 32).
Proof. eapply types_weaken; [apply types_peek8a|]. intros z Hz. by apply word_byte. Qed.
Lemma word_fetch8pf : types (D := D) fetch8pf (inw 32).
Proof. eapply types_weaken; [apply types_fetch8pf|]. intros z Hz. by apply word_byte. Qed.
End Fetches.
#[export] Hint Resolve types_direct_addr types_advance word_fetch8 word_fetch16 types_fetch32 word_peek8a word_fetch8pf : typed.

(** ** Effective addresses, descriptors and segment registers *)

Section Segments.
Context {D : Type} `{IoMemLaws D}.
Implicit Types c : CPUI386 D.

(** The offset of an effective address is a word. *)
Definition offset_word (p : Z * Z) : Prop := inw 32 p.1.
Lemma types_displacement m a : inw 32 a -> types (D := D) (displacement32 m a) (inw 32).
Proof. intros Ha. unfold displacement32. typing. Qed.
Lemma types_reg i : types (D := D) (reg i) (inw 32).
Proof. unfold reg. typing. Qed.
#[local] Hint Resolve types_displacement types_reg : typed.
Lemma types_modsib32 m rm s : types (D := D) (modsib32 m rm s) offset_word.
Proof.
  unfold modsib32. apply (types_bind _ _ offset_word).
  - destruct (rm =? 4); [|typing; done]. eapply types_bind; [apply word_fetch8|intros sib Hs]. cbv zeta.
    apply (types_bind _ _ offset_word); [typing; done|]. intros [addr s'] Ha. unfold offset_word in Ha. cbn [fst] in Ha. typing; [done|apply inw_u32].
  - intros [addr s'] Ha. unfold offset_word in Ha. cbn [fst] in Ha. typing. done.
Qed.
Lemma types_modsib16 m rm s : types (D := D) (modsib16 m rm s) offset_word.
Proof. unfold modsib16. typing. done. Qed.
Lemma types_modsib z m rm s : types (D := D) (modsib z m rm s) offset_word.
Proof. unfold modsib. destruct z; [apply types_modsib16|apply types_modsib32]. Qed.

Definition words2 (p : Z * Z) : Prop := inw 32 p.1 /\ inw 32 p.2.
Lemma types_read_desc b s : types (D := D) (read_desc b s) words2.
Proof.
  apply types_fun. intros c Hc. unfold read_desc. cbv zeta.
  destruct (if Z.testbit _ 2 then _ else _) as [x l]. destruct (_ <? _); [eapply types_exc_at; [apply types_throw|done]|].
  eapply types_exc_at; [|done]. apply (types_bind _ _ (inw 32)).
  - destruct b; [|typing]. eapply types_bind; [apply types_laddr, inw_u32|intros; apply types_load32].
  - intros w1 H1. eapply types_bind; [apply types_laddr, inw_u32|intros o _]. eapply types_bind; [apply types_load32|intros w2 H2].
    by apply types_ret.
Qed.
Lemma word_desc_base w1 w2 : inw 32 w1 -> inw 32 w2 -> inw 32 (desc_base w1 w2).
Proof.
  intros H1 H2. unfold desc_base. apply inw_lor; [apply inw_lor|]; [by apply inw_shiftr| |by apply inw_land_l].
  apply (word_shiftl w2 0xff 16 8); [split; vm_compute; congruence|lia|lia].
Qed.
Lemma word_desc_limit w1 w2 : inw 32 w1 -> inw 32 w2 -> inw 32 (desc_limit w1 w2).
Proof. intros H1 H2. unfold desc_limit. cbv zeta. word. Qed.
Lemma word_real_base s : inw 32 (Z.shiftl (Z.land s 0xffff) 4).
Proof. apply (word_shiftl s 0xffff 4 16); [split; vm_compute; congruence|lia|lia]. Qed.
Lemma level_range s : 0 <= Z.land s 3 < 4.
Proof. change (Z.land s 3) with (Z.land s (Z.ones 2)). rewrite Z.land_ones by lia. by apply Z.mod_pos_bound. Qed.
Lemma types_set_seg s v : types (D := D) (set_seg s v) any.
Proof.
  apply types_fun. intros c Hc. unfold set_seg. cbv zeta. destruct (_ || _).
  - split; [|done]. set (c1 := set_seg_reg s _ c).
    assert (H1 : typed c1) by (apply typed_seg; [done|]; constructor; cbn; [word|apply word_real_base|word|word]).
    assert (H2 : typed (if s =? SEG_CS then c1 <| cpl := if nz (Z.land (flags c) VM) then 3 else 0 |> <| code16 := true |> else c1)).
    { destruct (s =? SEG_CS); [|done]. apply typed_code16, typed_cpl; [done|]. destruct (nz _); lia. }
    destruct (s =? SEG_SS); [|done]. by apply (typed_sp_mask _ false).
  - eapply types_exc_at; [|done]. eapply types_bind; [apply types_read_desc|intros [w1 w2] [H1 H2]]. cbn [fst snd] in H1, H2.
    destruct (_ && _); [apply types_throw|]. destruct (_ && _); [apply types_throw|].
    eapply types_bind; [apply types_put; intros c1 Hc1; apply typed_seg; [done|constructor; cbn; [word|by apply word_desc_base|by apply word_desc_limit|word]]|intros _ _].
    apply (types_bind _ _ any); [|intros _ _].
    + destruct (s =? SEG_CS); [|by apply types_ret]. apply types_put. intros c1 Hc1. apply typed_code16, typed_cpl; [done|apply level_range].
    + destruct (s =? SEG_SS); [|by apply types_ret]. apply types_put. intros c1 Hc1. by apply typed_sp_mask.
Qed.
Lemma typed_clear_seg s c : typed c -> typed (clear_seg s c).
Proof.
  intros Hc. unfold clear_seg. cbv zeta. destruct (_ && _); [|done]. apply typed_seg; [done|]. constructor; cbn; by apply zero_word.
Qed.
Lemma typed_clear_segs c : typed c -> typed (clear_segs c).
Proof. intros Hc. unfold clear_segs. cbn [fold_left]. by do 4 apply typed_clear_seg. Qed.
End Segments.
#[export] Hint Resolve types_modsib32 types_modsib types_read_desc types_set_seg typed_clear_segs : typed.

(** ** String instructions *)

(** The string callback for input leaves bytes in the memory it is given. *)
Class IoPortsLaws (D : Type) `{IoPorts D} : Prop := {
  read_string_bytes : forall f port a size n m d k m' d', io_read_string = Some f -> mem_ok m -> f port a size n m d = Done (k, m', d') -> mem_ok m';
}.

Lemma mem_ok_Forall m : mem_ok m <-> Forall (inw 8) m.
Proof.
  split.
  - intros Hm. apply Forall_lookup. intros i x E. assert (Hi : 0 <= Z.of_nat i < alen m) by (apply lookup_lt_Some in E; unfold alen; lia).
    specialize (Hm _ Hi). unfold arr in Hm. by rewrite Nat2Z.id, (list_lookup_total_correct _ _ _ E) in Hm.
  - intros Hm a Ha. unfold arr, alen in *. destruct (lookup_lt_is_Some_2 m (Z.to_nat a) ltac:(lia)) as [x E].
    rewrite (list_lookup_total_correct _ _ _ E). by apply (Forall_lookup_1 _ _ _ _ Hm E).
Qed.
Lemma mem_ok_put m a l : mem_ok m -> Forall (inw 8) l -> mem_ok (put_bytes m a l).
Proof. rewrite !mem_ok_Forall. intros Hm Hl. unfold put_bytes. rewrite !Forall_app. split; [by apply Forall_take|]. split; [done|by apply Forall_drop]. Qed.
Lemma bytes_at_bytes m a n : mem_ok m -> Forall (inw 8) (bytes_at m a n).
Proof. rewrite mem_ok_Forall. intros Hm. by apply Forall_take, Forall_drop. Qed.

Section Strings.
Context {D : Type} `{IoMemLaws D} `{IoPortsLaws D}.
Implicit Types c : CPUI386 D.

Lemma typed_memmove x y n c : typed c -> typed (memmove x y n c).
Proof. intros Hc. apply typed_memory; [done|]. apply mem_ok_put; [|apply bytes_at_bytes]; apply (ty_mem c Hc). Qed.
Lemma types_step w i d : types (D := D) (step_reg w i d) any.
Proof. unfold step_reg. typing. Qed.
Lemma types_port_read {A} (m : ST D A) : types (D := D) (ok (device m)) any.
Proof. by apply types_device. Qed.
#[local] Hint Resolve typed_memmove types_step types_port_read : typed.
Lemma types_stdi w aw x d : types (D := D) (stdi w aw x d) any.
Proof. unfold stdi. typing. Qed.
Lemma types_ldsi w aw s d : types (D := D) (ldsi w aw s d) (inw 32).
Proof. unfold ldsi. typing. Qed.
Lemma types_lddi w aw d : types (D := D) (lddi w aw d) (inw 32).
Proof. unfold lddi. typing. Qed.
Lemma types_ldsistdi w aw s d : types (D := D) (ldsistdi w aw s d) any.
Proof. unfold ldsistdi. typing. Qed.
Lemma types_ldsilddi w aw s d : types (D := D) (ldsilddi w aw s d) any.
Proof. unfold ldsilddi. typing. Qed.
Lemma types_indxstdi w aw d : types (D := D) (indxstdi w aw d) any.
Proof. unfold indxstdi. typing. Qed.
Lemma types_ldsioutdx w aw s d : types (D := D) (ldsioutdx w aw s d) any.
Proof. unfold ldsioutdx. typing. Qed.
#[local] Hint Resolve types_stdi types_ldsi types_lddi types_ldsistdi types_ldsilddi types_indxstdi types_ldsioutdx : typed.

Lemma types_rep_n n (body : Exc (CPUI386 D) unit) : types body any -> types (rep_n n body) any.
Proof. intros Hb. induction n as [|n IH]; cbn [rep_n]; typing. Qed.
Lemma types_counted aw (body : Exc (CPUI386 D) unit) : types body any -> types (counted aw body) any.
Proof. intros Hb. unfold counted. typing. Qed.
Lemma types_yield aw : types (D := D) (YIELD_REP aw) any.
Proof. apply types_fun. intros c Hc. unfold YIELD_REP. destruct (_ && _); [|done]. split; [|done]. apply typed_next; [done|apply (ty_ip c Hc)]. Qed.
#[local] Hint Resolve types_counted types_yield : typed.
Lemma types_rep_while fuel aw (chunk : Z -> Exc (CPUI386 D) bool) : (forall cx, types (chunk cx) any) -> types (rep_while fuel aw chunk) any.
Proof. intros Hc. induction fuel as [|fuel IH]; cbn [rep_while]; typing. Qed.
Lemma types_chunks aw (chunk : Z -> Exc (CPUI386 D) bool) : (forall cx, types (chunk cx) any) -> types (rep_chunks aw chunk) any.
Proof. intros Hk c Hc. exact (types_rep_while _ aw chunk Hk c Hc). Qed.
Lemma types_slow aw (body : Exc (CPUI386 D) unit) : types body any -> types (slow_path aw body) any.
Proof. intros Hb. unfold slow_path. typing. by apply types_rep_n, types_counted. Qed.
Lemma types_chunk_done aw cx n l : types (D := D) (chunk_done aw cx n l) any.
Proof.
  unfold chunk_done. eapply types_bind; [|intros _ _; typing]. apply types_put. induction l as [|[i d] l IH]; intros c Hc; cbn [fold_left]; [done|]. by apply IH, typed_sreg.
Qed.
#[local] Hint Resolve types_slow types_chunk_done : typed.
Lemma types_fill n w a v : types (D := D) (ok (fill_ram n w a v)) any.
Proof. revert a. induction n as [|n IH]; intros a; cbn [fill_ram]; typing. Qed.
Lemma types_store_run n w d o v : types (D := D) (ok (store_run n w d o v)) any.
Proof. revert o. induction n as [|n IH]; intros o; cbn [store_run]; typing. Qed.
Lemma types_copy_run n w d s o : types (D := D) (ok (copy_run n w d s o)) any.
Proof. revert s o. induction n as [|n IH]; intros s o; cbn [copy_run]; typing. Qed.
Lemma types_in_run n w d o : types (D := D) (ok (in_run n w d o)) any.
Proof. revert o. induction n as [|n IH]; intros o; cbn [in_run]; typing. Qed.
Lemma types_out_run n w d o : types (D := D) (ok (out_run n w d o)) any.
Proof. revert o. induction n as [|n IH]; intros o; cbn [out_run]; typing. Qed.
#[local] Hint Resolve types_fill types_store_run types_copy_run types_in_run types_out_run : typed.
Lemma types_read_string a w d n : types (D := D) (ok (read_string a w d n)) any.
Proof.
  apply types_st. intros c Hc. unfold read_string. destruct io_read_string as [f|] eqn:Ef; [|done]. destruct (_ && _); [|done].
  destruct (f _ _ _ _ _ _) as [[[k m] dv]|] eqn:E; [|done]. split; [|done]. apply typed_dev, typed_memory; [done|].
  by apply (read_string_bytes f _ _ _ _ _ _ _ _ _ Ef (ty_mem c Hc) E).
Qed.
Lemma types_write_string a w d n : types (D := D) (ok (write_string a w d n)) any.
Proof.
  apply types_st. intros c Hc. unfold write_string. destruct io_write_string as [f|]; [|done]. destruct (_ && _); [|done].
  eapply types_st_at; [apply types_port_read|done].
Qed.
#[local] Hint Resolve types_read_string types_write_string : typed.
Lemma types_stos_chunk w aw x d cx : types (D := D) (stos_chunk w aw x d cx) any.
Proof. unfold stos_chunk. typing. Qed.
Lemma types_STOS w aw rep : types (D := D) (STOS_helper w aw rep) any.
Proof.
  apply types_fun. intros c Hc. unfold STOS_helper. cbv zeta. destruct (rep =? 0); eapply types_exc_at; try done; [typing|].
  apply types_chunks. intros. apply types_stos_chunk.
Qed.
Lemma types_load_acc w aw s d : types (D := D) (load_acc w aw s d) any.
Proof. unfold load_acc. typing. Qed.
#[local] Hint Resolve types_load_acc : typed.
Lemma types_LODS w aw s rep : types (D := D) (LODS_helper w aw s rep) any.
Proof.
  apply types_fun. intros c Hc. unfold LODS_helper. cbv zeta. destruct (rep =? 0); eapply types_exc_at; try done; typing.
  by apply types_rep_n, types_counted, types_load_acc.
Qed.
Lemma types_compare w x y : types (D := D) (compare_w w x y) any.
Proof.
  apply types_put. intros c Hc. cbv zeta. apply typed_cc; [done|]. apply cc_op; [|reflexivity].
  apply cc_dst; [|apply word_sext]. apply cc_src2; [|apply word_sext]. apply cc_src1; [|apply word_sext]. apply (ty_cc c Hc).
Qed.
#[local] Hint Resolve types_compare : typed.
Lemma types_compare_loop n w aw rep (next : Exc (CPUI386 D) (Z * Z)) : types next any -> types (compare_loop n w aw rep next) any.
Proof. intros Hn. induction n as [|n IH]; cbn [compare_loop]; typing. Qed.
Lemma types_compare_string w aw rep (next : Exc (CPUI386 D) (Z * Z)) : types next any -> types (compare_string w aw rep next) any.
Proof. intros Hn. unfold compare_string. typing. by apply types_compare_loop. Qed.
Lemma types_SCAS w aw rep : types (D := D) (SCAS_helper w aw rep) any.
Proof.
  apply types_fun. intros c Hc. unfold SCAS_helper. cbv zeta. eapply types_exc_at; [|done]. apply types_compare_string. typing.
Qed.
Lemma types_CMPS w aw s rep : types (D := D) (CMPS_helper w aw s rep) any.
Proof. intros c Hc. exact (types_compare_string w aw rep _ (types_ldsilddi w aw (default_seg s SEG_DS) (xdir w c)) c Hc). Qed.
Lemma types_movs_chunk w aw s d cx : types (D := D) (movs_chunk w aw s d cx) any.
Proof.
  unfold movs_chunk. typing. apply types_fun. intros c Hc. destruct iomem_write_string as [f|]; [|done]. destruct (_ && _); [|done].
  eapply types_exc_at; [apply types_port_read|done].
Qed.
Lemma types_MOVS w aw s rep : types (D := D) (MOVS_helper w aw s rep) any.
Proof.
  apply types_fun. intros c Hc. unfold MOVS_helper. cbv zeta. destruct (rep =? 0); eapply types_exc_at; try done; [typing|].
  apply types_chunks. intros. apply types_movs_chunk.
Qed.
Lemma types_ioperm port k : types (D := D) (check_ioperm port k) any.
Proof. apply types_fun. intros c Hc. unfold check_ioperm. cbv zeta. destruct (_ && _); [|done]. destruct (_ <=? _); at_exc. Qed.
#[local] Hint Resolve types_ioperm : typed.
Lemma types_ins_chunk w aw d cx : types (D := D) (ins_chunk w aw d cx) any.
Proof. unfold ins_chunk. typing. Qed.
Lemma types_INS w aw rep : types (D := D) (INS_helper w aw rep) any.
Proof. unfold INS_helper. typing. apply types_chunks. intros. apply types_ins_chunk. Qed.
Lemma types_outs_chunk w aw s d cx : types (D := D) (outs_chunk w aw s d cx) any.
Proof. unfold outs_chunk. typing. Qed.
Lemma types_OUTS w aw s rep : types (D := D) (OUTS_helper w aw s rep) any.
Proof. unfold OUTS_helper. typing. apply types_chunks. intros. apply types_outs_chunk. Qed.
Lemma types_branch t i : types (D := D) (branch t i) any.
Proof. unfold branch. typing. Qed.
#[local] Hint Resolve types_branch : typed.
Lemma types_JCXZb aw i : types (D := D) (JCXZb aw i) any.
Proof. unfold JCXZb. typing. Qed.
Lemma types_LOOP aw i f : types (D := D) (LOOP_helper aw i f) any.
Proof. unfold LOOP_helper. typing. Qed.
End Strings.
#[export] Hint Resolve typed_memmove types_port_read types_STOS types_LODS types_SCAS types_CMPS types_MOVS types_ioperm types_INS types_OUTS types_JCXZb types_LOOP types_branch : typed.

End TypedMem.
