(* ===== verification/I386TypedRun.v ===== *)
(** * I386TypedRun: the instructions keep their words

    The judgement [types] for the instructions, far transfers, interrupt delivery and
    the boot-time loops; [I386TypedExec] has the decoder and the main theorem. *)

From S2P Require Import Prelude I386 I386Alu I386Shift I386Mul I386Mmu I386Paging I386Mem I386String I386Rep I386Data I386Far I386Boot I386Typed I386TypedMem.

Module TypedRun.
Import I386 Alu Shift Mul Mmu Paging Mem Str Rep Data Far Boot Typed TypedMem.

(** Code by cases on the state. *)
Ltac by_state := cbv zeta; repeat (match goal with |- context [if ?b then _ else _] => destruct b end); first [done|at_exc].

#[export] Hint Extern 3 (inw _ (if ?b then _ else _)) => destruct b : width.

(** ** Moves, stack and near jumps *)

Section Moves.
Context {D : Type} `{IoMemLaws D} `{IoPortsLaws D}.
Implicit Types c : CPUI386 D.
Implicit Types a b : Operand D.

Definition binary_fallible (f : Operand D -> Operand D -> Exc (CPUI386 D) unit) : Prop := forall a b, operand_typed a -> operand_typed b -> types (f a b) any.
Lemma fallible_MOV : binary_fallible MOV.
Proof. intros a b Ha Hb. unfold MOV. typing. Qed.
Lemma fallible_MOVSX w : binary_fallible (MOVSX w).
Proof. intros a b Ha Hb. unfold MOVSX. typing. Qed.
Lemma fallible_XCHG : binary_fallible XCHG.
Proof. intros a b Ha Hb. unfold XCHG. typing. Qed.
#[local] Hint Resolve fallible_MOV : typed.
Lemma types_XCHGAX z n : types (D := D) (XCHGAX z n) any.
Proof. unfold XCHGAX. typing. Qed.
Lemma fallible_LEA m : binary_fallible (LEA m).
Proof. intros a b Ha Hb. unfold LEA. typing. Qed.
Lemma types_CBW z : types (D := D) (CBW_CWDE z) any.
Proof. unfold CBW_CWDE. typing. Qed.
Lemma types_CWD z : types (D := D) (CWD_CDQ z) any.
Proof. unfold CWD_CDQ. typing. Qed.
Lemma types_MOVSeg s b : operand_typed b -> types (MOVSeg s b) any.
Proof. intros Hb. unfold MOVSeg. typing. Qed.
Lemma types_SALC : types (D := D) SALC any.
Proof. unfold SALC. typing. Qed.
Lemma types_XLAT z s : types (D := D) (XLAT z s) any.
Proof. unfold XLAT. typing. Qed.
Lemma types_user (f : Exc (CPUI386 D) unit) : types f any -> types (user f) any.
Proof. intros Hf. apply types_fun. intros c Hc. unfold user. destruct (_ =? 0); [by apply types_exc_at|at_exc]. Qed.
Lemma types_modrm_regs : types (D := D) modrm_regs any.
Proof. unfold modrm_regs. typing. Qed.
#[local] Hint Resolve types_modrm_regs : typed.
Lemma types_MOVFC : types (D := D) MOVFC any.
Proof. unfold MOVFC. apply types_user. typing. Qed.
Lemma types_MOVTC : types (D := D) MOVTC any.
Proof. unfold MOVTC. apply types_user. typing. Qed.
Lemma types_CLI : types (D := D) CLI any.
Proof. apply types_fun. intros c Hc. unfold CLI. by_state. Qed.
Lemma types_STI n : types (D := D) (STI n) any.
Proof. apply types_fun. intros c Hc. unfold STI. destruct (_ <? _); at_exc. Qed.
Lemma types_CLD : types (D := D) CLD any.
Proof. unfold CLD. typing. Qed.
Lemma types_STD : types (D := D) STD any.
Proof. unfold STD. typing. Qed.
Lemma types_HLT : types (D := D) HLT any.
Proof. apply types_user. typing. Qed.
Lemma typed_set_sp v m c : typed c -> typed (set_sp v m c).
Proof. apply typed_sreg32. Qed.
#[local] Hint Resolve typed_set_sp : typed.
Lemma types_settle : types (D := D) (ok settle) any.
Proof. unfold settle. typing. Qed.
#[local] Hint Resolve types_settle : typed.
Lemma types_push_word w v : types (D := D) (push_word w v) any.
Proof. unfold push_word. typing. Qed.
Lemma types_pop_word w : types (D := D) (pop_word w) (inw 32).
Proof. unfold pop_word. typing. Qed.
Lemma types_direct rwm off : types (D := D) (direct rwm off) any.
Proof.
  intros c Hc. pose proof (types_direct_addr rwm off c Hc) as Hd. unfold leads, direct in *.
  destruct (stack32_direct_addr rwm off c) as [[[p|] c']|]; [| |done]; (split; [exact (proj1 Hd)|done]).
Qed.
#[local] Hint Resolve types_push_word types_pop_word types_direct : typed.
Lemma types_load_stack32 off : types (D := D) (load_stack32 off) (inw 32).
Proof. unfold load_stack32. typing. Qed.
Lemma types_push32_fast v : types (D := D) (push32_fast v) any.
Proof. unfold push32_fast. typing. Qed.
#[local] Hint Resolve types_load_stack32 types_push32_fast : typed.
Lemma types_PUSHb z a : operand_typed a -> types (D := D) (PUSHb z a) any.
Proof. intros H0_. unfold PUSHb. typing. Qed.
Lemma types_PUSHw a : operand_typed a -> types (D := D) (PUSHw a) any.
Proof. intros H0_. unfold PUSHw. typing. Qed.
Lemma types_PUSHd a : operand_typed a -> types (D := D) (PUSHd a) any.
Proof. intros H0_. unfold PUSHd. typing. Qed.
Lemma types_POPRegw a : operand_typed a -> types (D := D) (POPRegw a) any.
Proof. intros H0_. unfold POPRegw. typing. Qed.
Lemma types_POPRegd a : operand_typed a -> types (D := D) (POPRegd a) any.
Proof. intros H0_. unfold POPRegd. typing. Qed.
(** A failing step whose failure restores something. *)
Lemma types_recover {A B} (m : Exc (CPUI386 D) A) (k : A -> Exc (CPUI386 D) B) (h : CPUI386 D -> CPUI386 D -> CPUI386 D) Q R :
  types m Q -> (forall x, Q x -> types (k x) R) -> (forall c c', typed c -> typed c' -> typed (h c c')) ->
  types (fun c => match m c with Done (Some x, c') => k x c' | Done (None, c') => Done (None, h c c') | Stuck e => Stuck e end) R.
Proof.
  intros Hm Hk Hh c Hc. specialize (Hm c Hc). unfold leads in *. destruct (m c) as [[[x|] c']|]; [| |done]; destruct Hm as [Hc' Hx].
  - exact (Hk x (Hx x eq_refl) c' Hc').
  - split; [by apply Hh|done].
Qed.
Lemma types_POP z w s : types (D := D) (POP_helper z w s) any.
Proof.
  unfold POP_helper. typing. apply (types_recover _ _ (fun _ => set_sp _ _) any); [typing|intros; typing|intros; by apply typed_set_sp].
Qed.
Lemma types_PUSHF z : types (D := D) (PUSHF z) any.
Proof. apply types_fun. intros c Hc. unfold PUSHF. by_state. Qed.
Lemma types_POPF z : types (D := D) (POPF z) any.
Proof. apply types_fun. intros c Hc. unfold POPF. by_state. Qed.
Lemma types_PUSHSeg z s : types (D := D) (PUSHSeg z s) any.
Proof. unfold PUSHSeg. typing. Qed.
Lemma types_POPSeg z s : types (D := D) (POPSeg z s) any.
Proof. unfold POPSeg. typing. Qed.
Lemma types_slots w rwm f l : types (D := D) (slots w rwm f l) any.
Proof. induction l as [|i l IH]; cbn [slots]; typing. Qed.
Lemma types_store_all w l : types (D := D) (ok (store_all w l)) any.
Proof. induction l as [|[o f] l IH]; cbn [store_all]; typing. Qed.
Lemma types_load_all w l : types (D := D) (ok (load_all w l)) any.
Proof. induction l as [|[o r] l IH]; cbn [load_all]; typing. Qed.
#[local] Hint Resolve types_slots types_store_all types_load_all : typed.
Lemma types_PUSHA z : types (D := D) (PUSHA z) any.
Proof. unfold PUSHA. typing. Qed.
Lemma types_POPA z : types (D := D) (POPA z) any.
Proof. unfold POPA. typing. Qed.
Lemma types_JMPb a : operand_typed a -> types (D := D) (JMPb a) any.
Proof. intros H0_. unfold JMPb, jump_to. typing. Qed.
Lemma types_JMPw a : operand_typed a -> types (D := D) (JMPw a) any.
Proof. intros H0_. unfold JMPw, jump_to. typing. Qed.
Lemma types_JMPd a : operand_typed a -> types (D := D) (JMPd a) any.
Proof. intros H0_. unfold JMPd, jump_to. typing. Qed.
Lemma types_JMPABS a : operand_typed a -> types (D := D) (JMPABS a) any.
Proof. intros H0_. unfold JMPABS, jump_to. typing. Qed.
Lemma types_CALLw a : operand_typed a -> types (D := D) (CALLw a) any.
Proof. intros H0_. unfold CALLw, jump_to. typing. Qed.
Lemma types_CALLd a : operand_typed a -> types (D := D) (CALLd a) any.
Proof. intros H0_. unfold CALLd, jump_to. typing. Qed.
Lemma types_CALLABSw a : operand_typed a -> types (D := D) (CALLABSw a) any.
Proof. intros H0_. unfold CALLABSw, jump_to. typing. Qed.
Lemma types_CALLABSd a : operand_typed a -> types (D := D) (CALLABSd a) any.
Proof. intros H0_. unfold CALLABSd, jump_to. typing. Qed.
Lemma types_RETw z i : types (D := D) (RETw z i) any.
Proof. unfold RETw, jump_to. typing. Qed.
Lemma types_enter_level w m x y : types (D := D) (enter_level w m x y) any.
Proof. unfold enter_level. typing. Qed.
#[local] Hint Resolve types_enter_level : typed.
Lemma types_enter_helper z m l n : types (D := D) (enter_helper z m l n) any.
Proof. unfold enter_helper. typing. apply types_rep_n, types_enter_level. Qed.
#[local] Hint Resolve types_enter_helper : typed.
Lemma types_ENTER z x y : types (D := D) (ENTER z x y) any.
Proof. unfold ENTER. typing. Qed.
Lemma types_LEAVE z : types (D := D) (LEAVE z) any.
Proof. unfold LEAVE. typing. Qed.
End Moves.
#[export] Hint Resolve fallible_MOV fallible_MOVSX fallible_XCHG types_XCHGAX fallible_LEA types_CBW types_CWD types_MOVSeg types_SALC types_XLAT types_user
  types_modrm_regs types_MOVFC types_MOVTC types_CLI types_STI types_CLD types_STD types_HLT typed_set_sp types_settle types_push_word types_pop_word
  types_load_stack32 types_push32_fast types_PUSHb types_PUSHw types_PUSHd types_POPRegw types_POPRegd types_POP types_PUSHF types_POPF types_PUSHSeg types_POPSeg
  types_PUSHA types_POPA types_JMPb types_JMPw types_JMPd types_JMPABS types_CALLw types_CALLd types_CALLABSw types_CALLABSd types_RETw types_ENTER types_LEAVE : typed.

(** ** System registers, ports, descriptor queries and later processors *)

Section System.
Context {D : Type} `{IoMemLaws D} `{IoPortsLaws D}.
Implicit Types c : CPUI386 D.
Implicit Types a b : Operand D.

Lemma types_store_table s x l m : types (D := D) (store_table s x l m) any.
Proof. unfold store_table. typing. Qed.
Lemma types_load_table z s x (k : Z -> Z -> Exc (CPUI386 D) unit) : (forall l m, inw 32 l -> inw 32 m -> types (k l m) any) -> types (load_table z s x k) any.
Proof. intros Hk. apply types_fun. intros c Hc. unfold load_table. destruct (nz _); at_exc. apply Hk; [done|]. destruct z; word. Qed.
Lemma types_LGDT z s x : types (D := D) (LGDT z s x) any.
Proof. apply types_load_table. intros. typing. Qed.
Lemma types_LIDT z s x : types (D := D) (LIDT z s x) any.
Proof. apply types_load_table. intros. typing. Qed.
Lemma types_load_system s a : operand_typed a -> types (load_system s a) any.
Proof. intros Ha. unfold load_system. typing. apply types_user. typing. Qed.
Lemma types_store_selector s a : operand_typed a -> types (store_selector s a) any.
Proof. intros Ha. unfold store_selector. typing. Qed.
Lemma types_MOVFD : types (D := D) MOVFD any.
Proof. unfold MOVFD. typing. Qed.
Lemma types_MOVTD : types (D := D) MOVTD any.
Proof. unfold MOVTD. typing. Qed.
Lemma types_MOVFT : types (D := D) MOVFT any.
Proof. unfold MOVFT. typing. Qed.
Lemma types_SMSW a : operand_typed a -> types (SMSW a) any.
Proof. intros Ha. unfold SMSW. typing. Qed.
Lemma types_LMSW a : operand_typed a -> types (LMSW a) any.
Proof. intros Ha. unfold LMSW. apply types_user. typing. Qed.
Lemma types_LSEG z1 z2 s r k x : types (D := D) (LSEG z1 z2 s r k x) any.
Proof. unfold LSEG. typing. Qed.
Lemma types_CLTS : types (D := D) CLTS any.
Proof. unfold CLTS. typing. Qed.
Lemma types_WAIT : types (D := D) WAIT any.
Proof. apply types_fun. intros c Hc. unfold WAIT. by_state. Qed.
Lemma types_IN w a b : operand_typed a -> operand_typed b -> types (IN_ w a b) any.
Proof. intros Ha Hb. unfold IN_. typing. Qed.
Lemma types_OUT w a b : operand_typed a -> operand_typed b -> types (OUT_ w a b) any.
Proof. intros Ha Hb. unfold OUT_. typing. Qed.

(** A query swallows the fault of its descriptor. *)
Definition found_desc (d : option (Z * Z)) : Prop := forall w, d = Some w -> words2 w.
Lemma types_query_desc s : types (D := D) (query_desc s) found_desc.
Proof.
  apply types_fun. intros c Hc. unfold query_desc. cbv zeta. destruct (_ || _); [eapply types_exc_at; [apply types_throw0|done]|].
  destruct (_ =? 0); [split; [done|]; by intros ? [= <-]|]. pose proof (types_read_desc true (Z.land s 0xffff) c Hc) as Hr. unfold leads in Hr.
  destruct (read_desc _ _ c) as [[[w|] c']|]; [| |done]; destruct Hr as [Hc' Hw]; (split; [done|]); intros ? [= <-]; intros ? [= <-]. by apply Hw.
Qed.
Lemma types_larsl l s : types (D := D) (larsl_helper l s) (fun r => forall v, r = Some v -> inw 32 v).
Proof.
  unfold larsl_helper. eapply types_bind; [apply types_query_desc|intros d Hd]. destruct d as [[w1 w2]|]; [|by apply types_ret].
  destruct (Hd _ eq_refl) as [Hw1 Hw2]. cbn [fst snd] in Hw1, Hw2. apply (types_bind _ _ any); [by apply types_get|intros bad _]. apply types_ret.
  intros v. destruct bad; [done|]. intros [= <-]. destruct l; [word|by apply word_desc_limit].
Qed.
Lemma types_verrw z s : types (D := D) (verrw_helper z s) any.
Proof. unfold verrw_helper. eapply types_bind; [apply types_query_desc|intros d _]. typing. Qed.
Lemma types_put_ZF z : types (D := D) (put_ZF z) any.
Proof. apply types_put. intros c Hc. typed_state. Qed.
#[local] Hint Resolve types_larsl types_verrw types_put_ZF : typed.
Lemma types_query l a b : operand_typed a -> operand_typed b -> types (query l a b) any.
Proof. intros Ha Hb. unfold query. typing. Qed.
Lemma types_VERR a : operand_typed a -> types (VERR a) any.
Proof. intros Ha. unfold VERR. typing. Qed.
Lemma types_VERW a : operand_typed a -> types (VERW a) any.
Proof. intros Ha. unfold VERW. typing. Qed.
Lemma types_ARPL a b : operand_typed a -> operand_typed b -> types (ARPL a b) any.
Proof. intros Ha Hb. apply types_fun. intros c Hc. unfold ARPL. destruct (_ || _); at_exc. Qed.
Lemma types_BOUND w s a b : operand_typed a -> operand_typed b -> types (BOUND w s a b) any.
Proof. intros Ha Hb. unfold BOUND. typing. Qed.
Lemma types_CMPXCH w a b : operand_typed a -> operand_typed b -> types (CMPXCH w a b) any.
Proof. intros Ha Hb. unfold CMPXCH. typing. Qed.
Lemma types_XADD w a b : operand_typed a -> operand_typed b -> types (XADD w a b) any.
Proof. intros Ha Hb. unfold XADD. typing. Qed.
Lemma types_INVLPG : types (D := D) INVLPG any.
Proof. unfold INVLPG. typing. Qed.
Lemma types_BSWAP z a : operand_typed a -> types (BSWAP z a) any.
Proof. intros Ha. unfold BSWAP. typing. Qed.
Lemma types_UD0 : types (D := D) UD0 any.
Proof. unfold UD0. typing. Qed.
Lemma typed_put_regs r s x y c : typed c -> inw 32 r -> inw 32 s -> inw 32 x -> inw 32 y -> typed (put_regs r s x y c).
Proof. intros Hc Hr Hs Hx Hy. unfold put_regs. by repeat apply typed_gpr. Qed.
Lemma types_CPUID : types (D := D) CPUID any.
Proof.
  apply types_put. intros c Hc. repeat case_match; cbv zeta; apply typed_put_regs; try done; try apply inw_u32;
    repeat case_match; split; vm_compute; congruence.
Qed.
Lemma types_RDTSC t : types (D := D) (RDTSC t) any.
Proof. unfold RDTSC. typing. Qed.
Lemma types_CMPXCH8B s x : types (D := D) (CMPXCH8B s x) any.
Proof. unfold CMPXCH8B. typing. Qed.
Lemma types_CMOV n a b : operand_typed a -> operand_typed b -> types (CMOV n a b) any.
Proof. intros Ha Hb. unfold CMOV. typing. by apply fallible_MOV. Qed.
Lemma typed_sysenter_cs c v : typed c -> inw 32 v -> typed (c <| sysenter_cs := v |>).
Proof. intros Hc Hv. retype c Hc. exact Hv. Qed.
Lemma typed_sysenter_eip c v : typed c -> inw 32 v -> typed (c <| sysenter_eip := v |>).
Proof. intros Hc Hv. retype c Hc. exact Hv. Qed.
Lemma typed_sysenter_esp c v : typed c -> inw 32 v -> typed (c <| sysenter_esp := v |>).
Proof. intros Hc Hv. retype c Hc. exact Hv. Qed.
#[local] Hint Resolve typed_sysenter_cs typed_sysenter_eip typed_sysenter_esp : typed.
Lemma types_WRMSR : types (D := D) WRMSR any.
Proof. apply types_fun. intros c Hc. unfold WRMSR. by_state. Qed.
Lemma types_RDMSR : types (D := D) RDMSR any.
Proof. apply types_fun. intros c Hc. unfold RDMSR. by_state. Qed.
Lemma typed_sysenter_segs pl cs c : typed c -> 0 <= pl < 4 -> typed (sysenter_segs pl cs c).
Proof.
  intros Hc Hp. assert (Hw : inw 32 pl) by (unfold inw; lia). unfold sysenter_segs. cbv zeta.
  assert (Hs : forall x k, inw 32 k -> seg_typed (mkSeg (Z.lor (Z.land x 0xfffc) pl) 0 0xffffffff (Z.lor k (Z.shiftl pl 5)))).
  { intros x k Hk. constructor; cbn; [|split; vm_compute; congruence..|].
    - apply inw_lor; [apply inw_land_r; split; vm_compute; congruence|done].
    - apply inw_lor; [done|]. apply (inw_mono 7); [|lia]. apply (inw_shiftl 2 5); [lia|]. unfold inw. lia. }
  apply typed_seg; [|apply Hs; split; vm_compute; congruence]. apply typed_seg; [|apply Hs; split; vm_compute; congruence].
  apply (typed_sp_mask _ true), typed_code16, typed_cpl; done.
Qed.
Lemma types_SYSENTER : types (D := D) SYSENTER any.
Proof.
  apply types_fun. intros c Hc. unfold SYSENTER. destruct (no_sysenter c); [at_exc|]. eapply types_exc_at; [|done].
  apply types_put. intros c1 Hc1. cbv zeta. set (c2 := c1 <| flags := _ |>). assert (H2' : typed c2) by (apply typed_flags; [done|word]).
  assert (Hs : typed (sysenter_segs 0 (sysenter_cs c2) c2)) by by apply typed_sysenter_segs.
  apply typed_next; [|apply (ty_sys2 _ (typed_gpr _ _ _ Hs (ty_sys3 _ H2')))]. apply typed_gpr; [done|apply (ty_sys3 _ H2')].
Qed.
Lemma types_SYSEXIT : types (D := D) SYSEXIT any.
Proof.
  apply types_fun. intros c Hc. unfold SYSEXIT. destruct (_ || _); [at_exc|]. eapply types_exc_at; [|done].
  apply types_put. intros c1 Hc1. cbv zeta. set (c2 := sysenter_segs _ _ c1). assert (H2' : typed c2) by by apply typed_sysenter_segs.
  assert (H3 : typed (set_REGi 4 (REGi c2 1) c2)) by (apply typed_gpr; [done|by apply word_REGi]). apply typed_next; [done|]. by apply word_REGi.
Qed.
End System.
#[export] Hint Resolve types_store_table types_LGDT types_LIDT types_load_system types_store_selector types_MOVFD types_MOVTD types_MOVFT types_SMSW types_LMSW
  types_LSEG types_CLTS types_WAIT types_IN types_OUT types_query types_VERR types_VERW types_ARPL types_BOUND types_CMPXCH types_XADD types_INVLPG types_BSWAP
  types_UD0 types_CPUID types_RDTSC types_CMPXCH8B types_CMOV types_WRMSR types_RDMSR types_SYSENTER types_SYSEXIT : typed.

(** ** Task switches *)

Section Tasks.
Context {D : Type} `{IoMemLaws D} `{IoPortsLaws D}.
Implicit Types c : CPUI386 D.

Lemma types_abort {A} (Q : A -> Prop) : types (D := D) abort Q.
Proof. by intros c Hc. Qed.
Lemma types_must {A} (m : Exc (CPUI386 D) A) Q : types m Q -> types (must m) Q.
Proof.
  intros Hm c Hc. specialize (Hm c Hc). unfold leads, must in *. destruct (m c) as [[[x|] c']|]; [done|done|done].
Qed.
Lemma types_slot w rwm s x : types (D := D) (slot w rwm s x) any.
Proof. unfold slot. typing. Qed.
Lemma types_must_slot w rwm s x : types (D := D) (must (slot w rwm s x)) any.
Proof. apply types_must, types_slot. Qed.
Lemma types_must_seg s v : types (D := D) (must (set_seg s v)) any.
Proof. apply types_must, types_set_seg. Qed.
Lemma types_must_laddr rwm x n l : inw 32 x -> types (D := D) (must (translate_laddr rwm x n l)) any.
Proof. intros Hx. by apply types_must, types_laddr. Qed.
#[local] Hint Resolve types_slot types_must_slot types_must_seg : typed.
#[local] Hint Extern 1 (types (must (translate_laddr _ _ _ _)) _) => apply types_must_laddr; word : typed.
#[local] Hint Extern 1 (types abort _) => apply types_abort : typed.
Lemma types_tss_store x f : types (D := D) (tss_store x f) any.
Proof. unfold tss_store. typing. Qed.
Lemma types_tss_load x : types (D := D) (tss_load x) (inw 32).
Proof. unfold tss_load. typing. Qed.
Lemma types_each l f : (forall i, types (D := D) (f i) any) -> types (each l f) any.
Proof. intros Hf. induction l as [|i l IH]; cbn [each]; typing. Qed.
Lemma types_busy_bit s f : types (D := D) (busy_bit s f) any.
Proof. unfold busy_bit. typing. Qed.
Lemma types_set_flags f : (forall v, inw 32 v -> inw 32 (f v)) -> types (D := D) (set_flags f) any.
Proof. intros Hf. apply types_put. intros c Hc. apply typed_flags; [done|]. apply Hf, (ty_flags c Hc). Qed.
Lemma word_without f k : inw 32 f -> inw 32 (without f k).
Proof. intros Hf. by apply inw_land_l. Qed.
#[local] Hint Resolve types_tss_store types_tss_load types_busy_bit : typed.
#[local] Hint Resolve word_without : width.
#[local] Hint Extern 1 (types (set_flags _) _) => apply types_set_flags; intros; word : typed.
Lemma types_save_task k : types (D := D) (save_task k) any.
Proof. unfold save_task. typing; apply types_each; intros; typing. Qed.
Lemma types_load_task x k : types (D := D) (load_task x k) any.
Proof. unfold load_task. typing; try (apply types_each; intros; typing). Qed.
Lemma typed_busy s : seg_typed s -> seg_typed (mkSeg (sel s) (base s) (limit s) (Z.lor (sflags s) 2)).
Proof. intros [? ? ? ?]. constructor; cbn; try done. apply inw_lor; [done|split; vm_compute; congruence]. Qed.
#[local] Hint Resolve types_save_task types_load_task : typed.
Lemma types_task_switch x k : types (D := D) (task_switch x k) any.
Proof. unfold task_switch. typing; by apply typed_busy, typed_seg_of. Qed.
End Tasks.
#[export] Hint Resolve types_slot types_must_slot types_must_seg types_task_switch : typed.
#[export] Hint Extern 1 (types (must (translate_laddr _ _ _ _)) _) => apply types_must_laddr; word : typed.
#[export] Hint Extern 1 (types abort _) => apply types_abort : typed.
#[export] Hint Resolve word_without : width.
#[export] Hint Extern 1 (types (set_flags _) _) => apply types_set_flags; intros; word : typed.

(** ** Far jumps and calls, interrupt delivery and far returns *)

Section FarCalls.
Context {D : Type} `{IoMemLaws D} `{IoPortsLaws D}.
Implicit Types c : CPUI386 D.

Lemma types_push_return w m : types (D := D) (push_return w m) any.
Proof. unfold push_return. typing. Qed.
Lemma types_push_return_gate w : types (D := D) (push_return_gate w) any.
Proof. unfold push_return_gate. typing. Qed.
Lemma types_enter_code s x : inw 32 x -> types (D := D) (enter_code s x) any.
Proof. intros Hx. unfold enter_code. typing. Qed.
#[local] Hint Resolve types_push_return types_push_return_gate types_enter_code : typed.
Lemma types_call_code z j x s w m : inw 32 x -> types (D := D) (call_code z j x s w m) any.
Proof. intros Hx. apply types_fun. intros c Hc. unfold call_code. cbv zeta. destruct (negb _); [at_exc|]. destruct (if Z.testbit w 10 then _ else _); at_exc. Qed.
Lemma types_read_params n w m x : types (D := D) (read_params n w m x) any.
Proof. revert x. induction n as [|n IH]; intros x; cbn [read_params]; typing. Qed.
Lemma types_write_params w m x l : types (D := D) (write_params w m x l) any.
Proof. induction l as [|v l IH]; cbn [write_params]; typing. Qed.
Lemma types_tss_stack l : types (D := D) (tss_stack l) (fun p => inw 32 p.2).
Proof. unfold tss_stack. typing; done. Qed.
#[local] Hint Resolve types_call_code types_read_params types_write_params types_tss_stack : typed.
Lemma types_gate_frame w s x l : types (D := D) (push_gate_frame w s x l) any.
Proof. unfold push_gate_frame. typing. Qed.
#[local] Hint Resolve types_gate_frame : typed.
Lemma types_gate_inward j w n l : types (D := D) (gate_inward j w n l) any.
Proof. unfold gate_inward. typing. Qed.
#[local] Hint Resolve types_gate_inward : typed.
Lemma types_call_gate j x y : words2 (x, y) -> types (D := D) (call_gate j x y) any.
Proof. intros [Hx Hy]. cbn [fst snd] in Hx, Hy. unfold call_gate. typing; apply types_enter_code; destruct (_ =? 4); word. Qed.
#[local] Hint Resolve types_call_gate : typed.
Lemma types_pmcall z x s j : inw 32 x -> types (D := D) (pmcall z x s j) any.
Proof. intros Hx. unfold pmcall. typing. Qed.
End FarCalls.
#[export] Hint Resolve types_tss_stack types_pmcall : typed.

Section Interrupts.
Context {D : Type} `{IoMemLaws D} `{IoPortsLaws D}.
Implicit Types c : CPUI386 D.

(** The path to a handler, with its privilege level. *)
Lemma types_isr_path s w e : types (D := D) (isr_path s w e) any.
Proof. apply types_fun. intros c Hc. unfold isr_path. by_state. Qed.
#[local] Hint Resolve types_isr_path : typed.
Lemma types_check_cs s e : types (D := D) (call_isr_check_cs s e) any.
Proof.
  apply types_fun. intros c Hc. unfold call_isr_check_cs. cbv zeta. destruct (if Z.testbit _ 2 then _ else _) as [x l].
  destruct (_ || _); at_exc.
Qed.
Lemma types_frame_slots t w m x l : types (D := D) (frame_slots t w m x l) any.
Proof. induction l as [|k l IH]; cbn [frame_slots]; typing; destruct t; typing. Qed.
Lemma types_store_opt w o f : types (D := D) (store_opt w o f) any.
Proof. unfold store_opt. typing. Qed.
#[local] Hint Resolve types_check_cs types_frame_slots types_store_opt : typed.
Lemma types_store_context w f l : types (D := D) (store_context w f l) any.
Proof. unfold store_context. typing. Qed.
#[local] Hint Resolve types_store_context : typed.
Lemma types_real_isr n : types (D := D) (real_isr n) any.
Proof. unfold real_isr. typing. Qed.
Lemma types_isr_intra z p : types (D := D) (isr_intra z p) any.
Proof. unfold isr_intra. typing. Qed.
Lemma types_isr_inter z p n : types (D := D) (isr_inter z p n) any.
Proof. unfold isr_inter. typing. Qed.
(** A failed load of the stack segment restores flags and stack pointer. *)
Lemma types_set_seg_or s v (h : CPUI386 D -> CPUI386 D) : (forall c, typed c -> typed (h c)) ->
  types (fun c => match set_seg s v c with Done (None, c') => Done (None, h c') | r => r end) any.
Proof.
  intros Hh c Hc. pose proof (types_set_seg s v c Hc) as Hs. unfold leads in *. destruct (set_seg s v c) as [[[u|] c']|]; [done| |done].
  split; [apply Hh, Hs|done].
Qed.
Lemma types_isr_v86 z p : types (D := D) (isr_v86 z p) any.
Proof.
  unfold isr_v86. typing.
  - apply (types_set_seg_or _ _ (fun c' => set_REGi 4 _ (c' <| flags := _ |>))). intros. typed_state.
  - apply types_each. intros. typing.
Qed.
Lemma types_gate_flags g : types (D := D) (gate_flags g) any.
Proof. unfold gate_flags. typing. Qed.
#[local] Hint Resolve types_gate_flags types_isr_intra types_isr_inter types_isr_v86 types_real_isr : typed.
Lemma types_enter_isr s x g : inw 32 x -> types (D := D) (enter_isr s x g) any.
Proof. intros Hx. unfold enter_isr. typing. Qed.
Lemma types_enter_isr_v86 s x g : inw 32 x -> types (D := D) (enter_isr_v86 s x g) any.
Proof. intros Hx. unfold enter_isr_v86. typing. Qed.
Lemma types_isr_gate g s x p e : inw 32 x -> types (D := D) (isr_gate g s x p e) any.
Proof.
  intros Hx. unfold isr_gate. cbv zeta. set (x' := if _ || _ then _ else x). assert (Hx' : inw 32 x') by (unfold x'; destruct (_ || _); word).
  typing; first [by apply types_enter_isr|by apply types_enter_isr_v86].
Qed.
Lemma types_read_gate n : types (D := D) (read_gate n) words2.
Proof. unfold read_gate. typing. done. Qed.
#[local] Hint Resolve types_isr_gate types_read_gate : typed.
Lemma types_protected_isr n p e : types (D := D) (protected_isr n p e) any.
Proof.
  apply types_fun. intros c Hc. unfold protected_isr. cbv zeta. destruct (_ <? _); [at_exc|]. eapply types_exc_at; [|done].
  eapply types_bind; [apply types_read_gate|intros [w1 w2] [Hw1 Hw2]]. cbn [fst snd] in Hw1, Hw2. typing. apply types_isr_gate. word.
Qed.
Lemma types_call_isr n p e : types (D := D) (call_isr n p e) any.
Proof. apply types_fun. intros c Hc. unfold call_isr. destruct (Z.testbit _ 0); eapply types_exc_at; try done; [apply types_protected_isr|apply types_real_isr]. Qed.
End Interrupts.
#[export] Hint Resolve types_call_isr : typed.

Section Returns.
Context {D : Type} `{IoMemLaws D} `{IoPortsLaws D}.
Implicit Types c : CPUI386 D.

Lemma types_check_return o s : types (D := D) (pmiret_check_cs o s) any.
Proof. unfold pmiret_check_cs. typing. Qed.
Lemma types_load_at w m x k : types (D := D) (load_at w m x k) any.
Proof. unfold load_at. typing. Qed.
Lemma types_pop_segment s o : types (D := D) (pop_segment s o) any.
Proof. unfold pop_segment. typing. Qed.
#[local] Hint Resolve types_check_return types_load_at types_pop_segment : typed.
Lemma types_return_v86 z m x s n f : inw 32 n -> inw 32 f -> types (D := D) (return_v86 z m x s n f) any.
Proof. intros Hn Hf. unfold return_v86. typing. Qed.
Definition some_word (f : option Z) : Prop := forall v, f = Some v -> inw 32 v.
Lemma types_load_flags f : some_word f -> types (D := D) (match f with Some v => set_flags (fun _ => v) | None => mret tt end) any.
Proof. intros Hf. destruct f as [v|]; [|by apply types_ret]. apply types_set_flags. intros _ _. by apply Hf. Qed.
#[local] Hint Resolve types_load_flags : typed.
Lemma types_return_same w o m x s n f : inw 32 n -> some_word f -> types (D := D) (return_same w o m x s n f) any.
Proof. intros Hn Hf. unfold return_same. typing. Qed.
Lemma types_return_outer w o m x s n f : inw 32 n -> some_word f -> types (D := D) (return_outer w o m x s n f) any.
Proof. intros Hn Hf. unfold return_outer. typing. Qed.
#[local] Hint Resolve types_return_v86 types_return_same types_return_outer : typed.
Lemma types_far_return z i o m x s n f : inw 32 n -> (i = true -> inw 32 f) -> types (D := D) (far_return z i o m x s n f) any.
Proof.
  intros Hn Hf. assert (Hs : some_word (if i then Some f else None)) by (destruct i; [|done]; intros ? [= <-]; by apply Hf).
  unfold far_return. cbv zeta. apply (types_bind _ _ any); [|intros _ _; typing]. destruct i; cbn [andb]; typing.
  all: try (apply types_return_v86; [done|by apply Hf]).
Qed.
Lemma types_return_frame z i o : types (D := D) (return_frame z i o) any.
Proof.
  unfold return_frame. cbv zeta. do 5 (first [apply types_get_bind; intros ? ?|eapply types_bind; [apply types_load_at|intros ? _]]).
  apply (types_bind _ _ (inw 32)); [destruct i; typing|intros f Hf]. typing.
  by apply types_far_return.
Qed.
#[local] Hint Resolve types_return_frame : typed.
Lemma types_pmret z o i : types (D := D) (pmret z o i) any.
Proof. apply types_fun. intros c Hc. unfold pmret. destruct (_ && _); [at_exc|]. destruct (_ && _); at_exc. Qed.
#[local] Hint Resolve types_pmret : typed.

Lemma types_JMPFAR z x s : inw 32 x -> types (D := D) (JMPFAR z x s) any.
Proof.
  intros Hx. apply types_fun. intros c Hc. unfold JMPFAR. destruct (protected_mode c); [|at_exc]. eapply types_exc_at; [by apply types_pmcall|done].
Qed.
Lemma types_CALLFAR z x s : inw 32 x -> types (D := D) (CALLFAR z x s) any.
Proof.
  intros Hx. apply types_fun. intros c Hc. unfold CALLFAR. destruct (protected_mode c); [|at_exc]. eapply types_exc_at; [by apply types_pmcall|done].
Qed.
Lemma types_RETFARw z i : types (D := D) (RETFARw z i) any.
Proof. apply types_fun. intros c Hc. unfold RETFARw. destruct (protected_mode c); at_exc. Qed.
Lemma types_INT3 : types (D := D) INT3 any.
Proof. unfold INT3. typing. Qed.
Lemma types_INTO : types (D := D) INTO any.
Proof. unfold INTO. typing. Qed.
Lemma types_INT n : types (D := D) (INT n) any.
Proof.
  apply types_fun. intros c Hc. unfold INT. destruct (_ && _); [at_exc|].
  pose proof (types_call_isr n false 0 _ (typed_ip c _ Hc (ty_next c Hc))) as Hi. unfold leads in Hi.
  destruct (call_isr _ _ _ _) as [[[u|] c']|]; [done| |done]. split; [|done]. apply typed_ip; [apply Hi|by apply ty_ip].
Qed.
Lemma types_real_iret : types (D := D) real_iret any.
Proof.
  unfold real_iret. typing. apply (types_set_seg_or _ _ (fun c' => c' <| flags := _ |>)). intros. typed_state.
Qed.
Lemma types_IRET z : types (D := D) (IRET z) any.
Proof.
  unfold IRET. typing. apply types_fun. intros c Hc. destruct (_ && _); [at_exc|]. destruct z; [|at_exc]. eapply types_exc_at; [apply types_real_iret|done].
Qed.
End Returns.
#[export] Hint Resolve types_JMPFAR types_CALLFAR types_RETFARw types_INT3 types_INTO types_INT types_IRET : typed.

(** ** The boot-time loops *)

Section Loops.
Context {D : Type} `{IoMemLaws D}.
Implicit Types c : CPUI386 D.

Lemma types_attempt m : types (D := D) m any -> types (attempt m) any.
Proof.
  intros Hm c Hc. specialize (Hm c Hc). unfold leads, attempt in *.
  assert (Hb : forall c' : CPUI386 D, typed c' -> typed (c' <| cr2 := cr2 c |> <| excerr := excerr c |> <| excno := excno c |>))
    by (intros c' Hc'; apply typed_exc, typed_err, typed_cr2; [done|by apply ty_cr2]).
  destruct (m c) as [[[[]|] c']|]; [done| | |done]; (split; [apply Hb, Hm|done]).
Qed.
Lemma types_require b m : types (D := D) m any -> types (require b m) any.
Proof. intros Hm. unfold require. typing. Qed.
Lemma types_sure {A} (m : Exc (CPUI386 D) A) Q : types m Q -> types (sure m) Q.
Proof. exact (types_must m Q). Qed.
Lemma types_sure_w w rwm s f : types (D := D) (sure (translate_w w rwm s f)) any.
Proof. apply types_sure, types_translate_w. Qed.
#[local] Hint Resolve types_sure_w : typed.
#[local] Hint Extern 1 (types (require _ _) _) => apply types_require; typing : typed.
Lemma types_same_code i l : types (D := D) (same_code i l) any.
Proof. revert i. induction l as [|x l IH]; intros i; cbn [same_code]; typing. Qed.
Lemma types_ram_range n s rwm x k o : types (D := D) (ram_range n s rwm x k o) any.
Proof. revert o. induction n as [|n IH]; intros o; cbn [ram_range]; typing. Qed.
Lemma types_boot_range s x k rwm : types (D := D) (win2k_boot_ram_range s x k rwm) any.
Proof. apply types_ram_range. Qed.
Lemma types_boot_loop l m : types (D := D) m any -> types (boot_loop l m) any.
Proof.
  intros Hm. apply types_fun. intros c Hc. unfold boot_loop. destruct (_ || _); [done|]. eapply types_exc_at; [|done].
  eapply types_bind; [apply types_attempt, types_same_code|intros r _]. by apply types_require, types_attempt.
Qed.
Lemma types_loop_done k e l n : inw 32 e -> types (D := D) (loop_done k e l n) any.
Proof. intros He. unfold loop_done. typing. apply cc_mask; [by apply (ty_cc c)|done]. Qed.
Lemma types_pixel al s : types (D := D) (bootvid_pixel al s) any.
Proof. unfold bootvid_pixel. typing. Qed.
#[local] Hint Resolve types_boot_range types_loop_done types_pixel : typed.
Lemma types_pixels n al s : types (D := D) (bootvid_pixels n al s) any.
Proof. revert s. induction n as [|n IH]; intros s; cbn [bootvid_pixels]; typing. Qed.
#[local] Hint Resolve types_pixels : typed.
Ltac guarded_steps := typing; repeat (lazymatch goal with |- types (require _ _) _ => apply types_require | |- types (loop_done _ _ _ _) _ => apply types_loop_done; word end; typing).
Lemma types_bootvid : types (D := D) win2k_bootvid_fast_loop any.
Proof. apply types_boot_loop. unfold bootvid_body. guarded_steps. Qed.
Lemma types_device_range n s x : types (D := D) (device_range n s x) any.
Proof. revert x. induction n as [|n IH]; intros x; cbn [device_range]; typing. Qed.
Lemma types_copy_bytes n x y k : types (D := D) (copy_bytes n x y k) any.
Proof. revert x y k. induction n as [|n IH]; intros x y k; cbn [copy_bytes]; typing. Qed.
#[local] Hint Resolve types_device_range types_copy_bytes : typed.
Lemma types_copy : types (D := D) win2k_bootvid_fast_copy_loop any.
Proof. apply types_boot_loop. unfold copy_body. guarded_steps. Qed.
Lemma types_checksum_words n x y k : types (D := D) (checksum_words n x y k) any.
Proof. revert x y k. induction n as [|n IH]; intros x y k; cbn [checksum_words]; typing. Qed.
#[local] Hint Resolve types_checksum_words : typed.
Lemma types_checksum : types (D := D) win2k_boot_checksum_fast_loop any.
Proof. apply types_boot_loop. unfold checksum_body. guarded_steps. Qed.
End Loops.
#[export] Hint Resolve types_bootvid types_copy types_checksum : typed.

End TypedRun.
