(* ===== verification/I386TypedFpu.v ===== *)
(** * I386TypedFpu: the floating-point instructions keep the words

    First the unit by itself: the judgement [keeps m Q], from a well-formed unit to a
    well-formed unit and a result in [Q].  Then the instructions under [types]. *)

From S2P Require Import Prelude Doubles Fpu I386 I386Mmu I386Fpu I386Typed I386TypedMem I386TypedRun.

Module TypedFpu.
Create HintDb unit.
Import Double I386 Mmu FpuExec Typed TypedMem TypedRun.
Import Fpu (FPU, F80).

(** ** Widths of doubles *)

Lemma width_dabs a : inw 63 (dabs a).
Proof. unfold dabs. rewrite Z.land_ones by lia. apply inw_mod. lia. Qed.
Lemma width_dcopysign a b : inw 64 (dcopysign a b).
Proof.
  unfold dcopysign. apply inw_lor; [apply (inw_mono 63); [apply width_dabs|lia]|].
  apply (inw_shiftl 1 63); [lia|]. by apply inw_b2z.
Qed.
Lemma width_of_int n : inw 64 (of_int n).
Proof. apply inw_bits64. Qed.

Section Host.
Context `{HostMath}.
Lemma width_round f a : inw 64 a -> inw 64 (round_with f a).
Proof. intros Ha. unfold round_with. destruct (value64 a) as [| | |s m e]; [done|done|apply inw_u64|]. destruct (0 <=? e); [done|apply inw_bits64]. Qed.
Lemma width_frexp a : inw 64 a -> inw 64 (dfrexp a).1.
Proof. intros Ha. unfold dfrexp. destruct (value64 a) as [| | |s m e]; [done|done|apply inw_u64|apply inw_bits64]. Qed.
Lemma width_fpround a rc : inw 64 a -> inw 64 (Fpu.fpround a rc).
Proof. intros Ha. unfold Fpu.fpround. repeat case_match; try done; by apply width_round. Qed.
End Host.

Lemma width_f80_of s e m : f80_typed (Fpu.f80_of s e m).
Proof. constructor; [apply inw_u32|apply inw_u32|apply inw_u16]. Qed.
Lemma width_tof80 v : f80_typed (Fpu.tof80 v).
Proof. unfold Fpu.tof80. cbv zeta. repeat case_match; apply width_f80_of. Qed.
Lemma width_fromf80 r : f80_typed r -> inw 64 (Fpu.fromf80 r).
Proof.
  intros [H0 H1 Hh]. unfold Fpu.fromf80. set (m := Z.lor (u64 _) _).
  assert (Hm : inw 64 m) by (apply inw_lor; [apply inw_u64|apply (inw_mono 32); [done|lia]]). clearbody m. cbv zeta.
  assert (Hs : forall n, 0 <= n -> inw 64 (Z.shiftr m n)) by (intros; by apply inw_shiftr).
  assert (Hz : forall n, n = 0 \/ n = 1 -> inw 64 n) by (intros n; unfold inw; lia).
  match goal with |- context [let '(_, _) := ?p in _] => assert (Hp : inw 64 p.2) end.
  { destruct (Z.land (Fpu.high r) 0x7fff =? 0); [apply Hz; by left|].
    destruct (_ =? 0x7fff); cbn [snd]; [destruct (_ && _); [apply Hz; by right|by apply Hs]|].
    destruct (_ <=? -52); [apply Hz; by left|]. destruct (Z.leb_spec (Z.land (Fpu.high r) 32767 + (Fpu.BIAS64 - Fpu.BIAS80)) 0); [apply Hs; lia|].
    destruct (0x7ff <=? _); [apply Hz; by left|]. by apply inw_land_l, Hs. }
  match goal with |- context [let '(_, _) := ?p in _] => destruct p as [e q] end.
  apply inw_lor; [apply inw_lor; apply inw_u64|exact Hp].
Qed.
#[local] Hint Resolve width_dcopysign width_of_int width_fpround width_round width_frexp width_tof80 width_fromf80 inw_bits64 inw_u64 : width.
#[local] Hint Extern 1 (inw 64 (dabs _)) => apply (inw_mono 63); [apply width_dabs|lia] : width.
#[local] Hint Extern 1 (inw 64 (dadd _ _)) => apply inw_bits64 : width.
#[local] Hint Extern 1 (inw 64 (dsub _ _)) => apply inw_bits64 : width.
#[local] Hint Extern 1 (inw 64 (dmul _ _)) => apply inw_bits64 : width.
#[local] Hint Extern 1 (inw 64 (ddiv _ _)) => apply inw_bits64 : width.
#[local] Hint Extern 1 (inw 64 (dsqrt _)) => apply inw_bits64 : width.
#[local] Hint Extern 1 (inw 64 (of_float _)) => apply inw_bits64 : width.
#[local] Hint Extern 1 (inw 64 (dtan _)) => apply inw_u64 : width.
#[local] Hint Extern 1 (inw 64 (dsin _)) => apply inw_u64 : width.
#[local] Hint Extern 1 (inw 64 (dcos _)) => apply inw_u64 : width.
#[local] Hint Extern 1 (inw 64 (datan2 _ _)) => apply inw_u64 : width.

(** ** The unit by itself *)

Definition keeps {A} (m : ST FPU A) (Q : A -> Prop) : Prop :=
  forall f, fpu_typed f -> match m f with Done (a, f') => fpu_typed f' /\ Q a | Stuck _ => True end.

Lemma fkeeps_bind {A B} (m : ST FPU A) (k : A -> ST FPU B) Q R : keeps m Q -> (forall a, Q a -> keeps (k a) R) -> keeps (m ≫= k) R.
Proof.
  intros Hm Hk f Hf. specialize (Hm f Hf). unfold mbind, ST_bind. destruct (m f) as [[a f1]|]; [|done]. destruct Hm as [H1 Ha]. exact (Hk a Ha f1 H1).
Qed.
Lemma fkeeps_ret {A} (a : A) (Q : A -> Prop) : Q a -> keeps (mret a) Q.
Proof. by intros Ha f Hf. Qed.
Lemma keeps_stuck {A} e (Q : A -> Prop) : keeps (stuck e) Q.
Proof. by intros f Hf. Qed.
Lemma keeps_lift {A} (o : outcome A) : keeps (lift o) any.
Proof. intros f Hf. unfold lift. by destruct o. Qed.
Lemma keeps_gets {A} (g : FPU -> A) (Q : A -> Prop) : (forall f, fpu_typed f -> Q (g f)) -> keeps (gets g) Q.
Proof. intros Hg f Hf. split; [done|by apply Hg]. Qed.
Lemma keeps_modify g : (forall f, fpu_typed f -> fpu_typed (g f)) -> keeps (modify g) any.
Proof. intros Hg f Hf. split; [by apply Hg|done]. Qed.

Lemma fslot_range i f : 0 <= Fpu.slot i f < 8.
Proof. unfold Fpu.slot. rewrite (land_ones_mod 3) by lia. apply Z.mod_pos_bound. lia. Qed.
Lemma top_width z : inw 3 (Z.land z 7).
Proof. apply inw_land_r. split; vm_compute; congruence. Qed.
Lemma tag_bit i f : inw 8 (Z.shiftl 1 (Fpu.slot i f)).
Proof. apply inw_bit. pose proof (fslot_range i f). lia. Qed.
Lemma table_get {A} `{Inhabited A} n (P : A -> Prop) l i : table n P l -> P (arr l i).
Proof. intros [_ Hl]. apply Hl. Qed.

Lemma keeps_fpget i : keeps (Fpu.fpget i) (inw 64).
Proof.
  intros f [Hcw Hsw Htop Hst Hraw Htr Htw]. unfold Fpu.fpget. cbv zeta. destruct (_ && _).
  - assert (Hv : inw 64 (Fpu.fromf80 (arr (Fpu.rawst f) (Fpu.slot i f)))) by (apply width_fromf80; by apply (table_get 8)).
    split; [constructor; try assumption|exact Hv]; [by apply table_set|]. apply inw_lor; [exact Htr|apply tag_bit].
  - split; [by constructor|]. by apply (table_get 8).
Qed.
Lemma keeps_fpset i v : inw 64 v -> keeps (Fpu.fpset i v) any.
Proof.
  intros Hv f [Hcw Hsw Htop Hst Hraw Htr Htw]. split; [|done]. constructor; try assumption; [by apply table_set|]. apply inw_lor; [exact Htw|apply tag_bit].
Qed.
Lemma keeps_turn n : keeps (Fpu.turn_top n) any.
Proof. apply keeps_modify. intros f []. constructor; try assumption. apply top_width. Qed.
Lemma keeps_bits s k : inw 16 s -> keeps (Fpu.sw_bits s k) any.
Proof. intros Hs. apply keeps_modify. intros f []. constructor; try assumption. apply inw_land_l, inw_u16. Qed.
#[local] Hint Extern 1 (inw 16 _) => split; vm_compute; congruence : unit.

Ltac keeping := repeat lazymatch goal with
  | |- keeps (mbind _ (Fpu.fpget _)) _ => eapply fkeeps_bind; [apply keeps_fpget|intros ? ?]
  | |- keeps (mbind _ (gets _)) _ => eapply (fkeeps_bind _ _ any); [by apply keeps_gets|intros ? _]
  | |- keeps (mbind _ (lift _)) _ => eapply fkeeps_bind; [apply keeps_lift|intros ? _]
  | |- keeps (mbind _ _) _ => apply (fkeeps_bind _ _ any); [|intros ? _]
  | |- keeps (mret _) _ => by apply fkeeps_ret
  | |- keeps (stuck _) _ => apply keeps_stuck
  | |- keeps (Fpu.fpset _ _) _ => apply keeps_fpset; auto with width
  | |- keeps (Fpu.turn_top _) _ => apply keeps_turn
  | |- keeps (Fpu.sw_bits _ _) _ => apply keeps_bits; auto with unit
  | |- keeps (if ?b then _ else _) _ => destruct b
  | |- keeps (match ?x with _ => _ end) _ => destruct x
  end.

Lemma keeps_push v : inw 64 v -> keeps (Fpu.fppush v) any.
Proof. intros Hv. unfold Fpu.fppush. keeping. Qed.
Lemma keeps_pop : keeps Fpu.fppop any.
Proof. apply keeps_turn. Qed.
Lemma keeps_fcom a b : keeps (Fpu.fcom a b) any.
Proof. unfold Fpu.fcom. keeping. Qed.
Lemma keeps_fxch i : keeps (Fpu.fxch i) any.
Proof. unfold Fpu.fxch. keeping. Qed.
Lemma keeps_fstp i : keeps (Fpu.fstp i) any.
Proof. unfold Fpu.fstp. keeping. apply keeps_pop. Qed.
Lemma keeps_fxam t : keeps (Fpu.fxam t) any.
Proof. unfold Fpu.fxam. keeping. Qed.
Lemma keeps_quotient q k c : inw 16 c -> keeps (Fpu.quotient_bit q k c) any.
Proof. intros Hc. unfold Fpu.quotient_bit. destruct (nz _); by apply keeps_bits. Qed.
#[local] Hint Resolve keeps_push keeps_pop keeps_fcom keeps_quotient : unit.

Section Arithmetic.
Context `{HostMath}.
Lemma keeps_fparith g d a b : keeps (Fpu.fparith g d a b) any.
Proof. unfold Fpu.fparith. keeping; auto with unit. Qed.
Lemma keeps_fprem r t : keeps (Fpu.fprem r t) any.
Proof. unfold Fpu.fprem. keeping; auto with unit. Qed.
#[local] Hint Resolve keeps_fprem : unit.
Lemma keeps_transcend6 i t : inw 64 t -> keeps (Fpu.transcend6 i t) any.
Proof.
  intros Ht. unfold Fpu.transcend6. pose proof (width_frexp t Ht). destruct (dfrexp t) as [m e]. keeping; auto with unit width.
Qed.
Lemma keeps_transcend7 i t : inw 64 t -> keeps (Fpu.transcend7 i t) any.
Proof. intros Ht. unfold Fpu.transcend7. keeping; auto with unit width. Qed.
Lemma keeps_fldconst i : keeps (Fpu.fldconst i) any.
Proof. unfold Fpu.fldconst. keeping; apply keeps_push; auto with width. Qed.
End Arithmetic.
#[local] Hint Resolve keeps_fparith keeps_transcend6 keeps_transcend7 keeps_fldconst keeps_fxch keeps_fstp keeps_fxam keeps_fpget : unit.

(** What the instructions do to the unit's record. *)
Lemma fpu_set_cw f v : fpu_typed f -> inw 16 v -> fpu_typed (f <| Fpu.cw := v |>).
Proof. intros [] Hv. by constructor. Qed.
Lemma fpu_setsw f v : fpu_typed f -> inw 16 v -> fpu_typed (Fpu.setsw v f).
Proof. intros [] Hv. constructor; try assumption. apply top_width. Qed.
Lemma fpu_set_raw f j g : fpu_typed f -> (forall r, f80_typed r -> f80_typed (g r)) -> fpu_typed (Fpu.set_raw j g f).
Proof. intros Hf Hg. pose proof (fp_raw f Hf) as Hr. destruct Hf. constructor; try assumption. apply table_set; [exact Hr|]. apply Hg. by apply (table_get 8). Qed.
Lemma fpu_init_typed f : fpu_typed f -> fpu_typed (Fpu.fpu_init f).
Proof. intros []. constructor; try assumption; split; vm_compute; congruence. Qed.
Lemma fpu_clear_tags f j : fpu_typed f ->
  fpu_typed (Fpu.clear_tags j f).
Proof. intros []. constructor; try assumption; by apply inw_land_l. Qed.
Lemma fpu_write_back f j : fpu_typed f -> fpu_typed (Fpu.write_back j f).
Proof.
  intros Hf. unfold Fpu.write_back. destruct (nz _); [|done]. pose proof (fpu_set_raw f j (fun _ => Fpu.tof80 (arr (Fpu.st f) j)) Hf (fun _ _ => width_tof80 _)) as [].
  constructor; try assumption. by apply inw_land_l, (fp_tw f).
Qed.
Lemma fpu_new_typed : fpu_typed Fpu.fpu_new.
Proof.
  assert (Hz : forall w, 0 <= w -> inw w 0) by (intros w Hw; split; [lia|by apply pow2_pos]).
  assert (Ht : forall A `{Inhabited A} (P : A -> Prop) (x : A), P x -> P inhabitant -> table 8 P (replicate 8 x)).
  { intros A ? P x Hx Hi. split; [done|]. intros i. unfold arr. rewrite list_lookup_total_alt.
    destruct (replicate 8 x !! Z.to_nat i) eqn:E; [|done]. apply lookup_replicate in E as [-> _]. exact Hx. }
  constructor; cbn; try (apply Hz; lia); [split; vm_compute; congruence| |].
  - apply Ht; split; vm_compute; congruence.
  - apply Ht; constructor; first [exact (Hz 32 ltac:(lia))|exact (Hz 16 ltac:(lia))].
Qed.

(** ** The instructions *)

Section Unit.
Context {D : Type} `{IoMemLaws D} `{HostMath}.

Lemma types_on_fpu {A} (m : ST FPU A) Q : keeps m Q -> types (D := D) (on_fpu m) Q.
Proof.
  intros Hm. apply types_fun. intros c Hc. unfold on_fpu. pose proof (ty_fpu c Hc) as Hf. destruct (fpu c) as [f|]; [|done].
  specialize (Hm f Hf). destruct (m f) as [[a f']|]; [|done]. destruct Hm as [Hf' Ha]. split; [by apply typed_fpu|]. by intros ? [= <-].
Qed.
Lemma types_fget i : types (D := D) (fget i) (inw 64).
Proof. apply types_on_fpu, keeps_fpget. Qed.
Lemma types_unit (m : ST FPU unit) : keeps m any -> types (D := D) (on_fpu m) any.
Proof. apply types_on_fpu. Qed.
Lemma types_fset g : (forall f, fpu_typed f -> fpu_typed (g f)) -> types (D := D) (fset g) any.
Proof. intros Hg. by apply types_on_fpu, keeps_modify. Qed.
Lemma types_fread {A} (g : FPU -> A) (Q : A -> Prop) : (forall f, fpu_typed f -> Q (g f)) -> types (D := D) (fread g) Q.
Proof. intros Hg. by apply types_on_fpu, keeps_gets. Qed.
Lemma types_read_any {A} (g : FPU -> A) : types (D := D) (fread g) any.
Proof. by apply types_fread. Qed.
Lemma types_undefined {A} Q : types (undefined (D := D) (A := A)) Q.
Proof.
  unfold undefined. apply (types_bind _ _ any); [|intros _ _; apply types_fails]. apply types_modify. intros c Hc. by apply typed_err, typed_exc.
Qed.
Lemma types_cpu_load16 s a : types (D := D) (cpu_load16 s a) (inw 16).
Proof. unfold cpu_load16. eapply types_bind; [apply types_translate16|intros o _]. apply types_load16. Qed.
Lemma types_cpu_load32 s a : types (D := D) (cpu_load32 s a) (inw 32).
Proof. unfold cpu_load32. eapply types_bind; [apply types_translate32|intros o _]. apply types_load32. Qed.
Lemma types_cpu_store8 s a v : types (D := D) (cpu_store8 s a v) any.
Proof. unfold cpu_store8. eapply types_bind; [apply types_translate8|intros o _]. apply types_store8. Qed.
Lemma types_cpu_store16 s a v : types (D := D) (cpu_store16 s a v) any.
Proof. unfold cpu_store16. eapply types_bind; [apply types_translate16|intros o _]. apply types_store16. Qed.
Lemma types_cpu_store32 s a v : types (D := D) (cpu_store32 s a v) any.
Proof. unfold cpu_store32. eapply types_bind; [apply types_translate32|intros o _]. apply types_store32. Qed.
#[local] Hint Resolve types_fget types_read_any types_undefined types_cpu_load16 types_cpu_load32 types_cpu_store8 types_cpu_store16 types_cpu_store32 : typed.
#[local] Hint Extern 1 (types (on_fpu _) any) => apply types_unit; auto with unit width : typed.
#[local] Hint Extern 1 (keeps (Fpu.fpset _ _) _) => apply keeps_fpset; auto with width : unit.
#[local] Hint Extern 1 (keeps (Fpu.sw_bits _ _) _) => apply keeps_bits : unit.

Ltac steps := repeat first
  [ lazymatch goal with
    | |- types (mbind _ (ok (lift _))) _ => eapply (types_bind _ _ any); [by apply types_lift|intros ? _]
    | |- types (mbind _ (on_fpu _)) _ => apply (types_bind _ _ any); [solve [auto with typed]|intros ? _]
    | |- types (mbind _ _) _ => eapply types_bind; [solve [auto with typed]|intros ? ?]
    | |- types (mret _) any => by apply types_ret
    | |- types (mret _) _ => apply types_ret
    | |- types (if ?b then _ else _) _ => destruct b
    | |- types (match ?x with _ => _ end) _ => destruct x
    end
  | solve [auto with typed] ].

Lemma types_load64 s a : types (D := D) (load64 s a) (inw 64).
Proof.
  unfold load64. steps. unfold join32. apply inw_lor; [by apply (inw_shiftl 32 32)|]. by apply (inw_mono 32).
Qed.
#[local] Hint Resolve types_load64 : typed.
Lemma types_loads s a : types (D := D) (fploadf32 s a) (inw 64) /\ types (D := D) (fploadf64 s a) (inw 64) /\ types (D := D) (fploadf80 s a) (inw 64) /\
  types (D := D) (fploadi16 s a) (inw 64) /\ types (D := D) (fploadi32 s a) (inw 64) /\ types (D := D) (fploadi64 s a) (inw 64) /\ types (D := D) (fploadbcd s a) (inw 64).
Proof.
  unfold fploadf32, fploadf64, fploadf80, fploadi16, fploadi32, fploadi64, fploadbcd.
  split_and!; steps; auto with width; [|apply width_dcopysign]. apply width_fromf80. by constructor.
Qed.
Definition loads_double (ld : Z -> Z -> Exc (CPUI386 D) Z) : Prop := forall s a, types (ld s a) (inw 64).
Definition stores_double (str : Z -> Z -> Z -> Exc (CPUI386 D) unit) : Prop := forall s a v, types (str s a v) any.
Lemma loads_f32 : loads_double fploadf32. Proof. intros s a. apply types_loads. Qed.
Lemma loads_f64 : loads_double fploadf64. Proof. intros s a. apply types_loads. Qed.
Lemma loads_f80 : loads_double fploadf80. Proof. intros s a. apply types_loads. Qed.
Lemma loads_i16 : loads_double fploadi16. Proof. intros s a. apply types_loads. Qed.
Lemma loads_i32 : loads_double fploadi32. Proof. intros s a. apply types_loads. Qed.
Lemma loads_i64 : loads_double fploadi64. Proof. intros s a. apply types_loads. Qed.
Lemma loads_bcd : loads_double fploadbcd. Proof. intros s a. apply types_loads. Qed.

Lemma types_store64 s a v : types (D := D) (store64 s a v) any.
Proof. unfold store64. steps. Qed.
Lemma types_store80 s a r : types (D := D) (store80 s a r) any.
Proof. unfold store80. steps. Qed.
#[local] Hint Resolve types_store64 types_store80 : typed.
Lemma types_pairs n s a v : types (D := D) (store_pairs n s a v) any.
Proof. revert a v. induction n as [|n IH]; intros a v; cbn [store_pairs]; steps. Qed.
#[local] Hint Resolve types_pairs : typed.
Lemma stores_f32 : stores_double fpstoref32. Proof. intros s a v. unfold fpstoref32. steps. Qed.
Lemma stores_f64 : stores_double fpstoref64. Proof. intros s a v. unfold fpstoref64. steps. Qed.
Lemma stores_f80 : stores_double fpstoref80. Proof. intros s a v. unfold fpstoref80. steps. Qed.
Lemma stores_i16 : stores_double fpstorei16. Proof. intros s a v. unfold fpstorei16. steps. Qed.
Lemma stores_i32 : stores_double fpstorei32. Proof. intros s a v. unfold fpstorei32. steps. Qed.
Lemma stores_i64 : stores_double fpstorei64. Proof. intros s a v. unfold fpstorei64. steps. Qed.
Lemma stores_bcd : stores_double fpstorebcd. Proof. intros s a v. unfold fpstorebcd. cbv zeta. steps. Qed.
#[local] Hint Resolve loads_f32 loads_f64 loads_f80 loads_i16 loads_i32 loads_i64 loads_bcd
  stores_f32 stores_f64 stores_f80 stores_i16 stores_i32 stores_i64 stores_bcd : typed.

(** The environment and the whole state. *)
Lemma types_FLDCW s a : types (D := D) (FLDCW s a) any.
Proof. unfold FLDCW. steps. apply types_fset. intros f Hf. by apply fpu_set_cw. Qed.
#[local] Hint Resolve types_FLDCW : typed.
Lemma types_FLDENV z s a : types (D := D) (FLDENV z s a) any.
Proof. unfold FLDENV. steps; apply types_fset; intros f Hf; by apply fpu_setsw. Qed.
Lemma types_FNSTENV z s a : types (D := D) (FNSTENV z s a) any.
Proof. unfold FNSTENV. steps. Qed.
#[local] Hint Resolve types_FLDENV types_FNSTENV : typed.
Lemma types_set_raw j g : (forall r, f80_typed r -> f80_typed (g r)) -> types (D := D) (fset (Fpu.set_raw j g)) any.
Proof. intros Hg. apply types_fset. intros f Hf. by apply fpu_set_raw. Qed.
Lemma types_restore_one s j a : types (D := D) (restore_one s j a) any.
Proof.
  unfold restore_one. repeat (eapply types_bind; [first [apply types_cpu_load32|apply types_cpu_load16|apply types_set_raw; intros r []; by constructor]|intros ? ?]).
  apply types_fset. intros f Hf. by apply fpu_clear_tags.
Qed.
#[local] Hint Resolve types_restore_one : typed.
Lemma types_restore n s j a : types (D := D) (restore_regs n s j a) any.
Proof. revert j a. induction n as [|n IH]; intros j a; cbn [restore_regs]; steps. Qed.
Lemma types_save_reg j : types (D := D) (on_fpu (Fpu.save_reg j)) any.
Proof.
  eapply types_on_fpu, fkeeps_bind; [by apply keeps_modify; intros f Hf; apply fpu_write_back|].
  intros ? _. by apply keeps_gets.
Qed.
#[local] Hint Resolve types_save_reg types_restore : typed.
Lemma types_save_one s j a : types (D := D) (save_one s j a) any.
Proof. unfold save_one. steps. Qed.
#[local] Hint Resolve types_save_one : typed.
Lemma types_save n s j a : types (D := D) (save_regs n s j a) any.
Proof. revert j a. induction n as [|n IH]; intros j a; cbn [save_regs]; steps. Qed.
#[local] Hint Resolve types_save : typed.
Lemma types_init : types (D := D) (fset Fpu.fpu_init) any.
Proof. apply types_fset, fpu_init_typed. Qed.
#[local] Hint Resolve types_init : typed.
Lemma types_FRSTOR z s a : types (D := D) (FRSTOR z s a) any.
Proof. unfold FRSTOR. steps. Qed.
Lemma types_FNSAVE z s a : types (D := D) (FNSAVE z s a) any.
Proof. unfold FNSAVE. steps. Qed.
#[local] Hint Resolve types_FRSTOR types_FNSAVE : typed.

(** The two entry points. *)
Lemma types_arith_with ld g s a : loads_double ld -> types (arith_with ld g s a) any.
Proof. intros Hl. unfold arith_with. steps. Qed.
Lemma types_push_from ld s a : loads_double ld -> types (push_from ld s a) any.
Proof. intros Hl. unfold push_from. eapply types_bind; [apply Hl|intros b Hb]. auto with typed. Qed.
Lemma types_store_st str (p : bool) s a : stores_double str -> types (store_st str p s a) any.
Proof. intros Hs. unfold store_st. steps. Qed.
Lemma types_store_rounded str g s a : stores_double str -> types (store_rounded str g s a) any.
Proof. intros Hs. unfold store_rounded. steps. Qed.
#[local] Hint Resolve types_arith_with types_push_from types_store_st types_store_rounded : typed.
Lemma types_fpu_exec2 z o g s a : types (D := D) (fpu_exec2 z o g s a) any.
Proof. unfold fpu_exec2. steps. Qed.

Lemma types_cmov i : types (D := D) (ok (cmov_cond i)) any.
Proof. unfold cmov_cond. eapply types_seq; [apply types_cpu_getflags|intros fl _]. repeat case_match; first [by apply types_ok_ret|apply types_stuck]. Qed.
Lemma types_cpu_setflags s k : inw 32 s -> types (D := D) (ok (cpu_setflags s k)) any.
Proof. intros Hs. unfold cpu_setflags. typing; try (apply cc_mask; [by apply ty_cc|done]). Qed.
#[local] Hint Resolve types_cmov : typed.
#[local] Hint Extern 1 (types (ok (cpu_setflags _ _)) _) => apply types_cpu_setflags : typed.
Lemma types_ucomi i : types (D := D) (ucomi i) any.
Proof. unfold ucomi. do 2 (eapply types_bind; [apply types_fget|intros ? _]). repeat case_match; auto with typed width. Qed.
Lemma types_fcmov w g i : types (D := D) (fcmov w g i) any.
Proof. unfold fcmov. steps. Qed.
Lemma types_arith_regs g d i : types (D := D) (arith_regs g d i) any.
Proof. unfold arith_regs. steps. Qed.
Lemma types_fucom i : types (D := D) (fucom i) any.
Proof. unfold fucom. steps. Qed.
Lemma types_setax w : types (D := D) (ok (cpu_setax w)) any.
Proof. apply types_modify. intros c Hc. by apply typed_sreg16. Qed.
#[local] Hint Resolve types_ucomi types_fcmov types_arith_regs types_fucom types_setax : typed.
Lemma types_d9 g i : types (D := D) (exec1_d9 g i) any.
Proof. unfold exec1_d9. steps. Qed.
Lemma types_da g i : types (D := D) (exec1_da g i) any.
Proof. unfold exec1_da. steps. Qed.
Lemma types_db g i : types (D := D) (exec1_db g i) any.
Proof. unfold exec1_db. steps. Qed.
Lemma types_dd g i : types (D := D) (exec1_dd g i) any.
Proof. unfold exec1_dd. steps. Qed.
Lemma types_df g i : types (D := D) (exec1_df g i) any.
Proof. unfold exec1_df. steps. Qed.
#[local] Hint Resolve types_d9 types_da types_db types_dd types_df : typed.
Lemma types_fpu_exec1 o g i : types (D := D) (fpu_exec1 o g i) any.
Proof. unfold fpu_exec1. steps. Qed.
End Unit.
#[export] Hint Resolve types_fpu_exec1 types_fpu_exec2 : typed.
End TypedFpu.
