(* ===== verification/I386TypedExec.v ===== *)
(** * I386TypedExec: the interpreter keeps its words

    The judgement [types] for the addressing modes, the tables of the decoder, the fast
    path and the loop, up to the theorem that a well-formed CPU stays well-formed. *)

From S2P Require Import Prelude Doubles Fpu I386 I386Alu I386Shift I386Mul I386Mmu I386Paging I386Mem I386String I386Rep I386Fpu I386Data I386Far I386Boot I386Exec I386Typed I386TypedMem I386TypedRun I386TypedFpu.

Module TypedExec.
Import I386 Alu Shift Mul Mmu Paging Mem Str Rep FpuExec Data Far Boot Exec Typed TypedMem TypedRun TypedFpu.

(** ** Addressing modes *)

Section Modes.
Context {D : Type} `{IoMemLaws D} `{IoPortsLaws D}.
Implicit Types c : CPUI386 D.
Implicit Types a b : Operand D.

Definition ternary_fallible (f : Operand D -> Operand D -> Operand D -> Exc (CPUI386 D) unit) : Prop :=
  forall a b k, operand_typed a -> operand_typed b -> operand_typed k -> types (f a b k) any.
Definition mode_typed (m : Mode (D := D)) : Prop := forall i, types (m i) any.

Lemma operand_regw w r : operand_typed (D := D) (regw w r).
Proof. unfold regw. destruct (w =? 8); [apply operand_reg8|]. destruct (w =? 16); [apply operand_reg16|apply operand_reg32]. Qed.
Lemma operand_mem w o : operand_typed (D := D) (mem w o).
Proof. constructor; [apply types_load_w|intros v; apply types_store_w]. Qed.
Lemma operand_lseg s : operand_typed (D := D) (lseg s).
Proof. constructor; [|intros v]; cbn [la sa lseg]; typing. Qed.
Lemma types_fetch_w w : types (D := D) (fetch_w w) (inw 32).
Proof. unfold fetch_w. typing. Qed.
Lemma types_fields : types (D := D) modrm_fields any.
Proof. unfold modrm_fields. typing. Qed.
Lemma types_effective i m rm : types (D := D) (effective i m rm) offset_word.
Proof. apply types_modsib. Qed.
#[local] Hint Resolve operand_regw operand_mem operand_lseg types_fetch_w types_fields types_effective : typed.

Lemma mode_modrm {X} w rwm pre off (inst : Z -> X -> Operand D -> Exc (CPUI386 D) unit) Q :
  types pre Q -> (forall r x a, Q x -> operand_typed a -> types (inst r x a) any) -> mode_typed (modrm_form w rwm pre off inst).
Proof.
  intros Hp Hi i. unfold modrm_form. eapply types_bind; [apply types_fields|intros [[r m] rm] _]. destruct (m =? 3).
  - eapply types_bind; [exact Hp|intros x Hx]. by apply Hi, operand_regw.
  - eapply types_bind; [apply types_effective|intros [x s] _]. eapply types_bind; [exact Hp|intros y Hy].
    apply types_get_bind. intros c0 _. eapply types_bind; [apply types_translate_w|intros o _]. by apply Hi, operand_mem.
Qed.
Lemma types_no_imm : types (D := D) no_imm any.
Proof. by apply types_ret. Qed.
Lemma mode_E w rwm f : unary_fallible (D := D) f -> mode_typed (E w rwm f).
Proof. intros Hf. apply (mode_modrm _ _ _ _ _ _ types_no_imm). intros r x a _ Ha. by apply Hf. Qed.
Lemma mode_EG w rwm f : binary_fallible (D := D) f -> mode_typed (EG w rwm f).
Proof. intros Hf. apply (mode_modrm _ _ _ _ _ _ types_no_imm). intros r x a _ Ha. by apply Hf, operand_regw. Qed.
Lemma mode_BTEG w rwm f : binary_fallible (D := D) f -> mode_typed (BTEG w rwm f).
Proof. intros Hf. apply (mode_modrm _ _ _ _ _ _ types_no_imm). intros r x a _ Ha. by apply Hf, operand_regw. Qed.
Lemma mode_EGIb w rwm f : ternary_fallible f -> mode_typed (EGIb w rwm f).
Proof. intros Hf. apply (mode_modrm _ _ _ _ _ _ word_fetch8). intros r x a Hx Ha. apply Hf; [done|apply operand_regw|by apply operand_imm]. Qed.
Lemma mode_EGCL w rwm f : ternary_fallible f -> mode_typed (EGCL w rwm f).
Proof. intros Hf. apply (mode_modrm _ _ _ _ _ _ types_no_imm). intros r x a _ Ha. apply Hf; [done|apply operand_regw|apply operand_reg8]. Qed.
Lemma mode_EI w rwm f : binary_fallible (D := D) f -> mode_typed (EI w rwm f).
Proof. intros Hf. apply (mode_modrm _ _ _ _ _ _ (types_fetch_w w)). intros r x a Hx Ha. by apply Hf, operand_imm. Qed.
Lemma types_simm8 w : w = 8 \/ w = 16 \/ w = 32 -> types (D := D) (simm8 w) (inw 32).
Proof.
  intros Hw. unfold simm8. eapply types_bind; [apply word_fetch8|intros x _]. apply types_ret. apply (inw_mono w); [|lia]. apply Z.mod_pos_bound, pow2_pos. lia.
Qed.
Lemma mode_EIb w rwm f : w = 8 \/ w = 16 \/ w = 32 -> binary_fallible (D := D) f -> mode_typed (EIb w rwm f).
Proof. intros Hw Hf. apply (mode_modrm _ _ _ _ _ _ (types_simm8 w Hw)). intros r x a Hx Ha. by apply Hf, operand_imm. Qed.
Lemma mode_BTEIb w rwm f : w = 8 \/ w = 16 \/ w = 32 -> binary_fallible (D := D) f -> mode_typed (BTEIb w rwm f).
Proof. intros Hw Hf. apply (mode_modrm _ _ _ _ _ _ (types_simm8 w Hw)). intros r x a Hx Ha. by apply Hf, operand_imm. Qed.
Lemma mode_E1 w rwm f : binary_fallible (D := D) f -> mode_typed (E1 w rwm f).
Proof. intros Hf. apply (mode_modrm _ _ _ _ _ _ types_no_imm). intros r x a _ Ha. apply Hf; [done|by apply operand_imm]. Qed.
Lemma mode_ECL w rwm f : binary_fallible (D := D) f -> mode_typed (ECL w rwm f).
Proof. intros Hf. apply (mode_modrm _ _ _ _ _ _ types_no_imm). intros r x a _ Ha. apply Hf; [done|apply operand_reg8]. Qed.
Lemma mode_GEI w iw rwm f : (forall a b x, operand_typed a -> operand_typed b -> types (f a b x) any) -> mode_typed (GEI w iw rwm f).
Proof. intros Hf. apply (mode_modrm _ _ _ _ _ _ (types_fetch_w iw)). intros r x a Hx Ha. apply Hf; [apply operand_regw|done]. Qed.
Lemma mode_PMEwGw rwm f : binary_fallible (D := D) f -> mode_typed (PMEwGw rwm f).
Proof. intros Hf i. unfold PMEwGw. typing; apply Hf; auto with typed. Qed.
Lemma types_GE_helper ew i : types (D := D) (GE_helper ew i) (fun p => inw 32 p.2).
Proof. unfold GE_helper. typing; done. Qed.
Lemma mode_GE w ew f : binary_fallible (D := D) f -> mode_typed (GE w ew f).
Proof.
  intros Hf i. unfold GE. eapply types_bind; [apply types_GE_helper|intros [r v] Hv]. apply Hf; [apply operand_regw|by apply operand_imm].
Qed.
Lemma mode_address (k : Z -> Z -> Z -> Z -> Z -> Exc (CPUI386 D) unit) (reg_form : Z -> Z -> Z -> Exc (CPUI386 D) unit) i :
  (forall r m rm, types (reg_form r m rm) any) -> (forall r m rm x s, inw 32 x -> types (k r m rm x s) any) ->
  types ('(r, m, rm) ← modrm_fields; if m =? 3 then reg_form r m rm else '(x, s) ← effective i m rm; k r m rm x s) any.
Proof.
  intros Hr Hk. eapply types_bind; [apply types_fields|intros [[r m] rm] _]. destruct (m =? 3); [apply Hr|].
  eapply types_bind; [apply types_effective|intros [x s] Hx]. by apply Hk.
Qed.
Lemma mode_GvM w f : (forall m, binary_fallible (D := D) (f m)) -> mode_typed (GvM w f).
Proof.
  intros Hf i. apply (mode_address (fun r m rm x _ => f m (regw w r) (imm x)) (fun r m rm => f m (regw w r) (regw w rm)));
    intros; apply Hf; auto with typed.
Qed.
Lemma mode_GvMa w f : (forall m, binary_fallible (D := D) (f m)) -> mode_typed (GvMa w f).
Proof.
  intros Hf i. apply (mode_address (fun r m rm x s => f s (regw w r) (imm x)) (fun r m rm => f (curr_seg i) (regw w r) (regw w rm)));
    intros; apply Hf; auto with typed.
Qed.
Lemma mode_GvMp f : (forall r s x, types (D := D) (f r s x) any) -> mode_typed (GvMp f).
Proof. intros Hf i. apply (mode_address (fun r m rm x s => f r s x) (fun _ _ _ => THROW0 EX_UD)); intros; [apply types_throw0|apply Hf]. Qed.
Lemma mode_Ms f : (forall s x, types (D := D) (f s x) any) -> mode_typed (Ms f).
Proof. intros Hf i. apply (mode_address (fun r m rm x s => f s x) (fun _ _ _ => THROW0 EX_UD)); intros; [apply types_throw0|apply Hf]. Qed.
Lemma mode_Ep rwm f : (forall x s, inw 32 x -> types (D := D) (f x s) any) -> mode_typed (Ep rwm f).
Proof. intros Hf i. unfold Ep. typing; by apply Hf. Qed.
Lemma mode_Ew rwm f : unary_fallible (D := D) f -> mode_typed (Ew rwm f).
Proof. intros Hf i. unfold Ew. typing; apply Hf; auto with typed. Qed.
Lemma mode_EwSw rwm f : binary_fallible (D := D) f -> mode_typed (EwSw rwm f).
Proof. intros Hf i. unfold EwSw. typing; apply Hf; auto with typed. Qed.
Lemma types_SwEw rwm f i : (forall s a, operand_typed a -> types (f s a) any) -> types (D := D) (SwEw rwm f i) any.
Proof. intros Hf. unfold SwEw. typing; apply Hf; auto with typed. Qed.
Lemma mode_moffs w rwm f : unary_fallible (D := D) f -> mode_typed (moffs w rwm f).
Proof. intros Hf i. unfold moffs. typing. Qed.
Lemma mode_Ap f : (forall x s, inw 32 x -> types (D := D) (f x s) any) -> mode_typed (Ap f).
Proof. intros Hf i. unfold Ap. typing. Qed.
Lemma mode_I w f : unary_fallible (D := D) f -> mode_typed (I_ w f).
Proof. intros Hf i. unfold I_. typing. Qed.
Lemma mode_PlusReg w f : unary_fallible (D := D) f -> mode_typed (PlusReg w f).
Proof. intros Hf i. apply Hf, operand_regw. Qed.
Lemma mode_IwIb f : (forall x y, types (D := D) (f x y) any) -> mode_typed (IwIb f).
Proof. intros Hf i. unfold IwIb. typing. Qed.
Lemma mode_mode_none m : types (D := D) m any -> mode_typed (mode_none m).
Proof. by intros Hm i. Qed.
End Modes.
#[export] Hint Resolve operand_regw operand_mem operand_lseg types_fetch_w types_fields types_effective mode_E mode_EG mode_BTEG mode_EGIb mode_EGCL mode_EI mode_EIb mode_BTEIb
  mode_E1 mode_ECL mode_GEI mode_PMEwGw mode_GE mode_GvM mode_GvMa mode_GvMp mode_Ms mode_Ep mode_Ew mode_EwSw types_SwEw mode_moffs mode_Ap mode_I mode_PlusReg
  mode_IwIb mode_mode_none : typed.

(** ** The tables *)

Section Tables.
Context {D : Type} `{IoMemLaws D} `{IoPortsLaws D} `{!CpuEnv D} `{!Double.HostMath}.
Implicit Types c : CPUI386 D.
Implicit Types a b : Operand D.

(** Operations of the tables under the wrappers of [I386Exec]. *)
Lemma fallible_st1 f : unary_typed (D := D) f -> unary_fallible (st1 f).
Proof. exact (fun Hf => Hf). Qed.
Lemma fallible_st2 f : binary_typed (D := D) f -> binary_fallible (st2 f).
Proof. exact (fun Hf => Hf). Qed.
Lemma fallible_st3 f : (forall a b k, operand_typed a -> operand_typed b -> operand_typed k -> types (D := D) (ok (f a b k)) any) -> ternary_fallible (st3 f).
Proof. exact (fun Hf => Hf). Qed.
Lemma fallible_value f : (forall x, types (D := D) (f x) any) -> unary_fallible (value f).
Proof. intros Hf a Ha. unfold value. typing. Qed.
Lemma by_size_ind {A} (P : A -> Prop) w x y : P x -> P y -> P (by_size w x y).
Proof. unfold by_size. by destruct (w =? 16). Qed.
Lemma unary_MUL w : unary_typed (D := D) (MUL w).
Proof. unfold MUL, by_width. repeat case_match; auto with typed. Qed.
Lemma unary_IMUL w : unary_typed (D := D) (IMUL w).
Proof. unfold IMUL, by_width. repeat case_match; auto with typed. Qed.
Lemma fallible_DIV w : unary_fallible (D := D) (DIV w).
Proof. unfold DIV, by_width. repeat case_match; auto with typed. Qed.
Lemma fallible_IDIV w : unary_fallible (D := D) (IDIV w).
Proof. unfold IDIV, by_width. repeat case_match; auto with typed. Qed.
Lemma fallible_PUSH w : unary_fallible (D := D) (PUSH w).
Proof. apply (by_size_ind unary_fallible); intros a Ha; [by apply types_PUSHw|by apply types_PUSHd]. Qed.
Lemma fallible_POPReg w : unary_fallible (D := D) (POPReg w).
Proof. apply (by_size_ind unary_fallible); intros a Ha; [by apply types_POPRegw|by apply types_POPRegd]. Qed.
Lemma unary_NOT : unary_typed (D := D) NOT_helper.
Proof. exact types_NOT. Qed.
Lemma binary_BTS w : binary_typed (D := D) (BTS w).
Proof. apply binary_BTX. Qed.
Lemma binary_BTR w : binary_typed (D := D) (BTR w).
Proof. apply binary_BTX. Qed.
Lemma binary_BTC w : binary_typed (D := D) (BTC w).
Proof. apply binary_BTX. Qed.
#[local] Hint Resolve binary_BTS binary_BTR binary_BTC unary_MUL unary_IMUL unary_NOT fallible_DIV fallible_IDIV fallible_PUSH fallible_POPReg : typed.
Lemma mode_acc w f : binary_fallible (D := D) f -> mode_typed (acc w f).
Proof. intros Hf. apply mode_I. intros a Ha. apply Hf; [apply operand_regw|done]. Qed.
Lemma mode_V f : (forall i, mode_typed (D := D) (f (ow i))) -> mode_typed (V f).
Proof. intros Hf i. apply Hf. Qed.
Lemma mode_st m : types (D := D) (ok m) any -> mode_typed (st m).
Proof. by intros Hm i. Qed.
Lemma mode_rep f : (forall i, types (D := D) (f i) any) -> mode_typed (rep_ins f).
Proof. intros Hf i. unfold rep_ins. typing. Qed.
Lemma ow_width i : ow i = 8 \/ ow i = 16 \/ ow i = 32.
Proof. unfold ow, width. destruct (opsz16 i); lia. Qed.
Lemma mode_ESC : mode_typed (D := D) ESC.
Proof. intros i. unfold ESC. typing. Qed.

(** [table]: an entry of the tables, from its mode to its operation. *)
Definition entry_typed (o : option (Mode (D := D))) : Prop := match o with Some m => mode_typed m | None => True end.
Ltac operation := intros; lazymatch goal with
  | |- unary_fallible (st1 _) => apply fallible_st1; auto with typed
  | |- binary_fallible (st2 _) => apply fallible_st2; auto with typed
  | |- ternary_fallible (st3 _) => apply fallible_st3; auto with typed
  | |- unary_fallible (value _) => apply fallible_value; intros; operation
  | |- unary_fallible (by_size _ _ _) => apply (by_size_ind unary_fallible); operation
  | |- binary_fallible (by_size _ _ _) => apply (by_size_ind binary_fallible); operation
  | |- _ \/ _ => auto using ow_width
  | |- types _ _ => typing; auto with typed
  | |- _ => first [solve [auto with typed] | intros ? ?; typing; auto with typed | intros ? ? ? ?; typing; auto with typed]
  end.
Ltac table_mode := lazymatch goal with
  | |- mode_typed (E _ _ _) => apply mode_E | |- mode_typed (EG _ _ _) => apply mode_EG | |- mode_typed (BTEG _ _ _) => apply mode_BTEG
  | |- mode_typed (EGIb _ _ _) => apply mode_EGIb | |- mode_typed (EGCL _ _ _) => apply mode_EGCL | |- mode_typed (EI _ _ _) => apply mode_EI
  | |- mode_typed (EIb _ _ _) => apply mode_EIb | |- mode_typed (BTEIb _ _ _) => apply mode_BTEIb | |- mode_typed (E1 _ _ _) => apply mode_E1
  | |- mode_typed (ECL _ _ _) => apply mode_ECL | |- mode_typed (GEI _ _ _ _) => apply mode_GEI | |- mode_typed (PMEwGw _ _) => apply mode_PMEwGw
  | |- mode_typed (GE _ _ _) => apply mode_GE | |- mode_typed (GvM _ _) => apply mode_GvM | |- mode_typed (GvMa _ _) => apply mode_GvMa
  | |- mode_typed (GvMp _) => apply mode_GvMp | |- mode_typed (Ms _) => apply mode_Ms | |- mode_typed (Ep _ _) => apply mode_Ep
  | |- mode_typed (Ew _ _) => apply mode_Ew | |- mode_typed (EwSw _ _) => apply mode_EwSw | |- mode_typed (moffs _ _ _) => apply mode_moffs
  | |- mode_typed (Ap _) => apply mode_Ap | |- mode_typed (I_ _ _) => apply mode_I | |- mode_typed (PlusReg _ _) => apply mode_PlusReg
  | |- mode_typed (IwIb _) => apply mode_IwIb | |- mode_typed (mode_none _) => apply mode_mode_none | |- mode_typed (acc _ _) => apply mode_acc
  | |- mode_typed (st _) => apply mode_st | |- mode_typed (rep_ins _) => apply mode_rep | |- mode_typed (V _) => apply mode_V; intros ?; table_mode
  | |- mode_typed ESC => apply mode_ESC
  | |- mode_typed (fun _ => _) => let j := fresh in intros j; lazymatch goal with |- types (?m j) _ => cut (mode_typed m); [intros Hm; exact (Hm j)|table_mode] end
  end.
Ltac rows := repeat (lazymatch goal with |- context [match match ?x with _ => _ end with Some _ => _ | None => True end] => destruct x end); try exact I.
Ltac table := unfold entry_typed; cbv zeta; rows; table_mode; operation.
Lemma entry_G1_EI w g : entry_typed (G1 (EI w) w g).
Proof. unfold G1. table. Qed.
Lemma entry_G1_EIb i g : entry_typed (G1 (EIb (ow i)) (ow i) g).
Proof. unfold G1. table. Qed.
Lemma entry_G2 form w g : (forall f, binary_fallible (D := D) f -> mode_typed (form f)) -> entry_typed (G2 form w g).
Proof.
  intros Hf. unfold G2, entry_typed. rows; apply Hf, fallible_st2; auto with typed.
Qed.
Lemma entry_G3 w g : entry_typed (G3 w g).
Proof. unfold G3. table. Qed.
Lemma entry_G4 g : entry_typed (G4 g).
Proof. unfold G4. table. Qed.
Lemma entry_G5 i g : entry_typed (G5 i g).
Proof. unfold G5. table. Qed.
Lemma entry_G6 g : entry_typed (G6 g).
Proof. unfold G6. table. Qed.
Lemma entry_G7 i g : entry_typed (G7 i g).
Proof. unfold G7. table. Qed.
Lemma entry_G8 i g : entry_typed (G8 (ow i) g).
Proof. unfold G8. table. Qed.
Lemma entry_G9 g : entry_typed (G9 g).
Proof. unfold G9. table. Qed.
Lemma entry_alu_row low rwm f : (forall w, binary_typed (D := D) (f w)) -> entry_typed (Some (alu_row low rwm f)).
Proof. intros Hf. unfold alu_row, entry_typed. repeat (lazymatch goal with |- context [if ?b then _ else _] => destruct b end); table_mode; operation. Qed.
Lemma entry_alu_rows n : entry_typed (alu_rows n).
Proof.
  unfold alu_rows. cbv zeta. destruct (_ || _); [exact I|].
  repeat (lazymatch goal with |- context [match ?x with _ => _ end] => destruct x end); apply entry_alu_row; auto with typed.
Qed.
Lemma types_MOV a b : operand_typed a -> operand_typed b -> types (D := D) (MOV a b) any.
Proof. apply fallible_MOV. Qed.
#[local] Hint Resolve types_MOV : typed.
Lemma entry_eight_rows n : entry_typed (eight_rows n).
Proof. unfold eight_rows. table. Qed.
Lemma entry_single i : entry_typed (single i).
Proof. unfold single. table; unfold by_size; destruct (_ =? 16); by first [apply types_IMUL2wI|apply types_IMUL2dI]. Qed.
Lemma binary_by_size w f g : binary_typed (D := D) f -> binary_typed g -> binary_typed (by_size w f g).
Proof. apply (by_size_ind binary_typed). Qed.
Lemma types_by_size {A} w (f g : A -> A -> ST (CPUI386 D) unit) x y : types (ok (f x y)) any -> types (ok (g x y)) any -> types (ok (by_size w f g x y)) any.
Proof. unfold by_size. by destruct (w =? 16). Qed.
Lemma types_LARSL l a b : operand_typed a -> operand_typed b -> types (D := D) (query l a b) any.
Proof. apply types_query. Qed.
Lemma fallible_choice (t : bool) f g : binary_fallible (D := D) f -> binary_fallible g -> binary_fallible (if t then f else g).
Proof. by destruct t. Qed.
#[local] Hint Resolve binary_by_size types_by_size fallible_choice : typed.
Lemma entry_two_byte_rows n : entry_typed (two_byte_rows n).
Proof. unfold two_byte_rows. table. Qed.
Lemma entry_two_byte i : entry_typed (two_byte i).
Proof.
  unfold two_byte, LAR, LSL, MOVZX_form, MOVSX_form, entry_typed. cbv zeta. rows; first [apply entry_two_byte_rows|table_mode; operation].
Qed.

(** The rest of a turn. *)
Definition flow_typed (o : option (Flow (D := D))) : Prop := match o with Some f => types f any | None => True end.
Lemma types_go m i n : mode_typed (D := D) m -> types (go m i n) any.
Proof. intros Hm. unfold go. eapply types_bind; [apply Hm|intros _ _; by apply types_ret]. Qed.
Lemma types_leave m n : types (D := D) m any -> types (leave_if m n) any.
Proof. intros Hm. unfold leave_if. typing. Qed.
Lemma types_counting m n : types (D := D) m any -> types (counting m n) any.
Proof. intros Hm. unfold counting. eapply types_bind; [exact Hm|intros k _; by apply types_ret]. Qed.
Lemma types_ud : types (D := D) ud any.
Proof. apply types_throw0. Qed.
Lemma types_group f i n : (forall g, entry_typed (f g)) -> types (D := D) (group f i n) any.
Proof.
  intros Hf. unfold group. eapply types_bind; [apply word_peek8a|intros m _]. specialize (Hf (Z.land (Z.shiftr m 3) 7)).
  destruct (f _) as [mode|]; [by apply types_go|apply types_ud].
Qed.
Lemma flow_special i n : flow_typed (special i n).
Proof.
  unfold special, flow_typed. cbv zeta. rows; first [apply types_leave; auto with typed|apply types_counting; auto with typed|typing].
Qed.
Lemma flow_groups i n : flow_typed (groups i n).
Proof.
  pose proof (ow_width i). unfold groups, flow_typed. cbv zeta. rows; apply types_group; intros g; lazymatch goal with
  | |- entry_typed (G1 (EI _) _ _) => apply entry_G1_EI | |- entry_typed (G1 _ _ _) => apply entry_G1_EIb
  | |- entry_typed (G2 (EI _ _) _ _) => apply entry_G2, mode_EI | |- entry_typed (G2 (E1 _ _) _ _) => apply entry_G2, mode_E1
  | |- entry_typed (G2 (ECL _ _) _ _) => apply entry_G2, mode_ECL | |- entry_typed (G2 _ _ _) => apply entry_G2; intros f Hf; by apply mode_EIb
  | |- entry_typed (G3 _ _) => apply entry_G3 | |- entry_typed (G4 _) => apply entry_G4 | |- entry_typed (G5 _ _) => apply entry_G5
  end.
Qed.
Lemma flow_two_byte_groups i n : flow_typed (two_byte_groups i n).
Proof.
  unfold two_byte_groups, flow_typed. rows; apply types_group; intros g; lazymatch goal with
  | |- entry_typed (G6 _) => apply entry_G6 | |- entry_typed (G7 _ _) => apply entry_G7 | |- entry_typed (G8 _ _) => apply entry_G8 | |- _ => apply entry_G9
  end.
Qed.
Lemma types_escape i n : types (D := D) (escape i n) any.
Proof.
  unfold escape. eapply types_bind; [apply word_fetch8|intros b _]. cbv zeta.
  pose proof (flow_two_byte_groups (i <| b1 := b |>) n) as Hg. pose proof (entry_two_byte (i <| b1 := b |>)) as Ht.
  destruct (two_byte_groups _ n) as [f|]; [exact Hg|]. destruct (two_byte _) as [m|]; [by apply types_go|]. unfold ud. typing.
Qed.
Lemma types_dispatch i n : types (D := D) (dispatch i n) any.
Proof.
  unfold dispatch. destruct (b1 i =? 0x0f); [apply types_escape|].
  pose proof (flow_special i n) as Hs. pose proof (flow_groups i n) as Hg. pose proof (entry_alu_rows (b1 i)) as Ha.
  pose proof (entry_eight_rows (b1 i)) as He. pose proof (entry_single i) as Hi.
  destruct (special i n); [exact Hs|]. destruct (groups i n); [exact Hg|]. destruct (alu_rows _); [by apply types_go|].
  destruct (eight_rows _); [by apply types_go|]. destruct (single i); [by apply types_go|apply types_ud].
Qed.
Lemma types_prefixes fuel i : types (D := D) (prefixes fuel i) any.
Proof.
  revert i. induction fuel as [|fuel IH]; intros i; cbn [prefixes]; destruct (apply_prefix i); typing.
Qed.
End Tables.
#[export] Hint Resolve types_MOV types_dispatch types_prefixes : typed.

(** ** The fast path *)

Section FastPath.
Context {D : Type} `{IoMemLaws D} `{IoPortsLaws D} `{!CpuEnv D} `{!Double.HostMath}.
Implicit Types c : CPUI386 D.
Implicit Types a b : Operand D.

Lemma types_taken m : types (D := D) m any -> types (taken_by m) any.
Proof. intros Hm. unfold taken_by. typing. Qed.
Lemma types_hook t f k : types (D := D) f any -> types k any -> types (hook t f k) any.
Proof. intros Hf Hk. unfold hook. typing. Qed.
(** The address of an effective address that may still miss its displacement. *)
Definition address_word (p : Z * Z * bool) : Prop := inw 32 p.1.1.
Lemma types_fast_ea m rm : types (D := D) (fast_ea m rm) offset_word.
Proof.
  unfold fast_ea. apply (types_bind _ _ address_word).
  - destruct (rm =? 4); [|typing; done]. eapply types_bind; [apply word_fetch8|intros sib Hs]. cbv zeta.
    apply (types_bind _ _ address_word); [typing; done|]. intros [[x s] d] Hx. unfold address_word in Hx. cbn [fst] in Hx. typing; [done|apply inw_u32].
  - intros [[x s] d] Hx. unfold address_word in Hx. cbn [fst] in Hx. typing; first [done|apply inw_u32].
Qed.
Ltac alu_leaf := lazymatch goal with
  | |- types (mret _) _ => by apply types_ret
  | |- types (MOV _ _) _ => by apply types_MOV
  | |- types (ok (ADD _ _ _)) _ => by apply binary_ADD | |- types (ok (OR _ _ _)) _ => by apply binary_OR
  | |- types (ok (AND _ _ _)) _ => by apply binary_AND | |- types (ok (SUB _ _ _)) _ => by apply binary_SUB
  | |- types (ok (XOR _ _ _)) _ => by apply binary_XOR | |- types (ok (CMP _ _ _)) _ => by apply binary_CMP
  | |- types (ok (TEST _ _ _)) _ => by apply binary_TEST
  end.
Lemma types_fast_alu n a b : operand_typed a -> operand_typed b -> types (fast_alu n a b) any.
Proof.
  intros Ha Hb. unfold fast_alu.
  repeat (lazymatch goal with |- types (match ?x with _ => _ end) _ => destruct x end);
    alu_leaf.
Qed.
Lemma types_fast_G1 g a b : operand_typed a -> operand_typed b -> types (fast_G1 g a b) any.
Proof.
  intros Ha Hb. unfold fast_G1. repeat (lazymatch goal with |- types (match ?x with _ => _ end) _ => destruct x end);
    alu_leaf.
Qed.
#[local] Hint Resolve types_taken types_fast_ea : typed.
#[local] Hint Extern 1 (types (MOV _ _) _) => apply types_MOV; auto with typed : typed.
#[local] Hint Extern 1 (types (fast_alu _ _ _) _) => apply types_fast_alu; auto with typed : typed.
#[local] Hint Extern 1 (types (fast_G1 _ _ _) _) => apply types_fast_G1; auto with typed : typed.
Lemma types_fast_modrm n : types (D := D) (fast_modrm n) any.
Proof. unfold fast_modrm. apply types_taken. typing. Qed.
Lemma types_fast_group m : types (D := D) m (inw 32) -> types (fast_group m) any.
Proof. intros Hm. unfold fast_group. typing; apply types_taken; typing. Qed.
Lemma types_fast_store w : types (D := D) (fast_store w) any.
Proof. unfold fast_store. typing; apply types_taken; typing. Qed.
Lemma types_fast_lea : types (D := D) fast_lea any.
Proof. unfold fast_lea. typing; apply types_taken; typing. Qed.
Lemma types_fast_jcc32 : types (D := D) fast_jcc32 any.
Proof. unfold fast_jcc32. typing; apply types_taken; typing. Qed.
Lemma types_fast_moffs w rwm f : unary_fallible (D := D) f -> types (fast_moffs w rwm f) any.
Proof. intros Hf. unfold fast_moffs. apply types_taken. typing. Qed.
Lemma types_fast_acc f : binary_typed (D := D) f -> types (fast_acc f) any.
Proof. intros Hf. unfold fast_acc. apply types_taken. typing. Qed.
Lemma types_fast_switch n : types (D := D) (fast_switch n) any.
Proof.
  unfold fast_switch. repeat (lazymatch goal with |- types (match ?x with _ => _ end) _ => destruct x end);
    lazymatch goal with
    | |- types (mret _) _ => by apply types_ret
    | |- types (fast_acc _) _ => apply types_fast_acc; auto with typed
    | |- types (fast_moffs _ _ _) _ => apply types_fast_moffs; intros a Ha; apply types_MOV; auto with typed
    | |- types (fast_modrm _) _ => apply types_fast_modrm
    | |- types (fast_group _) _ => apply types_fast_group; typing
    | |- types (fast_store _) _ => apply types_fast_store
    | |- types (fast_jcc32) _ => apply types_fast_jcc32
    | |- types (fast_lea) _ => apply types_fast_lea
    | |- types (taken_by _) _ => apply types_taken; typing; try (apply types_PUSHd, operand_imm; word)
    end.
Qed.
Lemma types_fast_decode n : types (D := D) (fast_decode n) any.
Proof.
  unfold fast_decode. cbv zeta. destruct (_ =? 0xb8); [apply types_taken; typing|].
  apply types_hook; [apply types_bootvid|]. apply types_hook; [apply types_copy|]. apply types_hook; [apply types_checksum|].
  repeat (lazymatch goal with |- types (if ?t then taken_by _ else _) _ => destruct t; [apply types_taken; typing|] end); [apply unary_INC; auto with typed|apply unary_DEC; auto with typed|].
  apply types_fast_switch.
Qed.
Lemma types_fast_mov16 i : types (D := D) (fast_mov16 i) any.
Proof. unfold fast_mov16. typing; apply types_taken; typing. Qed.
#[local] Hint Resolve types_fast_decode types_fast_mov16 : typed.

(** ** The loop *)

Lemma types_begin : types (D := D) begin_ins any.
Proof. unfold begin_ins. typing. Qed.
#[local] Hint Resolve types_begin : typed.
Lemma types_decode fuel i n : types (D := D) (decode fuel i n) any.
Proof. unfold decode. typing. Qed.
#[local] Hint Resolve types_decode : typed.
Lemma types_turn fuel n : types (D := D) (turn fuel n) any.
Proof. unfold turn. typing. Qed.
Lemma types_exec1 fuel n : types (D := D) (cpu_exec1 fuel n) any.
Proof.
  revert n. induction fuel as [|fuel IH]; intros n; cbn [cpu_exec1]; destruct (n <=? 0); [by apply types_ret|apply types_stuck|by apply types_ret|].
  eapply types_bind; [apply types_turn|intros [k|] _; [apply IH|by apply types_ret]].
Qed.
End FastPath.

(** ** The life of a CPU *)

Section Life.
Context {D : Type} `{IoMemLaws D} `{IoPortsLaws D} `{!CpuEnv D} `{!Double.HostMath}.
Implicit Types c : CPUI386 D.

(** A slice of the emulation, with interrupt delivery before it and exception delivery after it. *)
Lemma typed_deliver n p c : typed c -> match deliver_isr n p c with Done (_, c') => typed c' | Stuck _ => True end.
Proof.
  intros Hc. unfold deliver_isr. pose proof (types_call_isr n p 1 c Hc) as Hi. unfold leads in Hi.
  destruct (call_isr n p 1 c) as [[[u|] c']|]; [apply Hi|done|done].
Qed.
Lemma types_deliver n p : types (D := D) (ok (deliver_isr n p)) any.
Proof. apply types_st. intros c Hc. pose proof (typed_deliver n p c Hc). by destruct (deliver_isr n p c) as [[u c']|]. Qed.
Lemma types_take_irq : types (D := D) (ok take_irq) any.
Proof.
  apply types_st. intros c Hc. unfold take_irq. destruct (_ && _); [|done]. eapply types_st_at; [|by apply typed_halt, typed_intr].
  eapply types_seq; [apply types_port_read|intros n _]. eapply types_seq; [apply (types_modify (fun c => c <| ip := next_ip c |>)); intros; typed_state|intros _ _].
  apply types_deliver.
Qed.
Lemma types_run_slice fuel n : types (D := D) (ok (run_slice fuel n)) any.
Proof.
  apply types_st. intros c Hc. unfold run_slice. destruct (halt c); [done|].
  pose proof (types_exec1 fuel n c Hc) as He. unfold leads in He. destruct (cpu_exec1 fuel n c) as [[r c1]|]; [|done]. destruct He as [Hd1 _].
  cbv zeta. set (c2 := c1 <| ifetch := _ |>). assert (H2' : typed c2) by by apply typed_ifetch.
  destruct r as [u|]; [done|]. eapply types_st_at; [apply types_deliver|]. apply typed_next; [done|by apply (ty_ip c2)].
Qed.
Lemma types_slice fuel n : types (D := D) (ok (cpui386_step fuel n)) any.
Proof. unfold cpui386_step. eapply types_seq; [apply types_take_irq|intros _ _; apply types_run_slice]. Qed.

(** Reset *)
Lemma table_list {A} `{Inhabited A} n (P : A -> Prop) l : alen l = n -> P inhabitant -> Forall P l -> table n P l.
Proof.
  intros Hn Hi Hl. split; [done|]. intros i. unfold arr. rewrite list_lookup_total_alt.
  destruct (l !! Z.to_nat i) eqn:E; [by apply (Forall_lookup_1 _ _ _ _ Hl E)|done].
Qed.
(** What [malloc] returns: the members have their C types. *)
Record allocated c : Prop := {
  al_tlb : alen (tlb c) = tlb_size; al_fr : alen (fast_read c) = NSPIRE_DTLB_FAST_SLOTS; al_fw : alen (fast_write c) = NSPIRE_DTLB_FAST_SLOTS;
  al_dst : inw 32 (dst (cc c)); al_dst2 : inw 32 (dst2 (cc c)); al_src1 : inw 32 (src1 (cc c)); al_src2 : inw 32 (src2 (cc c));
}.
Lemma pages_clear c : allocated c -> pages_ok (tlb_clear c).
Proof.
  intros Ha. assert (Hlen : forall A B (f : A -> B) l, alen (f <$> l) = alen l) by (intros; unfold alen; by rewrite length_fmap).
  destruct Ha. constructor; unfold tlb_clear; cbn [tlb fast_read fast_write set_field]; rewrite ?Hlen; try done;
    intros i Hi; left; rewrite arr_map by lia; done.
Qed.
Lemma table_reset_segs : table 8 seg_typed reset_segs.
Proof.
  apply table_list; [done|constructor; by apply zero_word|]. unfold reset_segs.
  repeat (apply Forall_cons_2; [constructor; cbn; split; vm_compute; congruence|]). by apply Forall_nil_2.
Qed.
Lemma typed_reset c : allocated c -> inw 32 (flags_mask c) -> mem_ok (phys_mem c) -> unit_typed (fpu c) -> typed (cpui386_reset c).
Proof.
  intros Ha Hm Hp Hf. assert (H0w : inw 32 0) by by apply zero_word.
  assert (Hz : table 8 (inw 32) (replicate 8 0)) by (apply table_list; [done|done|by apply Forall_replicate]).
  assert (Ht : forall v, v = 0x2 \/ v = 0xfff0 \/ v = 0x3ff \/ v = 0x10 -> inw 32 v) by (intros v; unfold inw; lia).
  constructor.
  - exact Hz.
  - apply (Ht 0x2). lia.
  - exact Hm.
  - destruct Ha. by constructor.
  - apply (Ht 0xfff0). lia.
  - apply (Ht 0xfff0). lia.
  - exact (conj (Z.le_refl 0) (eq_refl : 0 < 4)).
  - by left.
  - exact table_reset_segs.
  - exact H0w.
  - apply (Ht 0x3ff). lia.
  - exact H0w.
  - exact H0w.
  - change (inw 32 (if has_fpu c then 0x10 else 0)). destruct (has_fpu c); [apply Ht; lia|done].
  - exact H0w.
  - exact H0w.
  - exact Hz.
  - exact H0w.
  - exact H0w.
  - exact H0w.
  - exact Hp.
  - by apply (pages_ext (tlb_clear c)), pages_clear.
  - exact Hf.
Qed.
Lemma typed_allocated c : typed c -> allocated c.
Proof. intros Hc. destruct (ty_pages c Hc), (ty_cc c Hc). by constructor. Qed.

(** Every state of the life of a CPU: creation, resets, slices of the emulation, and what
    the rest of the machine does to it in between. *)
Inductive life : CPUI386 D -> Prop :=
  | life_new g m x y z raw c : allocated raw -> mem_ok m -> cpui386_new g m x y z raw = Done c -> life c
  | life_reset c : life c -> life (cpui386_reset c)
  | life_reset_pm c start : life c -> inw 32 start -> life (cpui386_reset_pm start c)
  | life_set_gpr c i v : life c -> life (cpui386_set_gpr i v c)
  | life_enable_fpu c : life c -> life (cpui386_enable_fpu c)
  | life_irq c : life c -> life (cpui386_raise_irq c)
  | life_setflags c c' set clear : life c -> inw 32 set -> cpu_setflags set clear c = Done (tt, c') -> life c'
  | life_devices c m d : life c -> mem_ok m -> life (c <| phys_mem := m |> <| dev := d |>)
  | life_step c c' fuel n : life c -> cpui386_step fuel n c = Done (tt, c') -> life c'.

Lemma types_end {A} (m : ST (CPUI386 D) A) Q c x c' : types (ok m) Q -> typed c -> m c = Done (x, c') -> typed c'.
Proof. intros Hm Hc E. pose proof (types_st_at m Q c Hm Hc) as Ht. rewrite E in Ht. apply Ht. Qed.
Lemma types_setflags s k : inw 32 s -> types (D := D) (ok (cpu_setflags s k)) any.
Proof.
  intros Hs. unfold cpu_setflags. typing; try (apply cc_mask; [by apply ty_cc|done]).
Qed.
Lemma typed_new g m x y z raw c : allocated raw -> mem_ok m -> cpui386_new g m x y z raw = Done c -> typed c.
Proof.
  intros Ha Hm. unfold cpui386_new. destruct (gen_mask g) as [k|] eqn:Eg; [|done]. intros [= <-].
  apply typed_reset; [by destruct Ha| |done|done]. cbn. unfold gen_mask in Eg. repeat case_match; try done; injection Eg as <-; split; vm_compute; congruence.
Qed.
Lemma typed_segs c l : typed c -> table 8 seg_typed l -> typed (c <| seg := l |>).
Proof. intros Hc Hl. retype c Hc. exact Hl. Qed.
Lemma typed_reset_pm start c : typed c -> inw 32 start -> typed (cpui386_reset_pm start c).
Proof.
  intros Hc Hs. pose proof (typed_reset c (typed_allocated c Hc) (ty_mask c Hc) (ty_mem c Hc) (ty_fpu c Hc)) as Hr.
  assert (Hf : forall s f, inw 32 s -> inw 32 f -> seg_typed (mkSeg s 0 0xffffffff f)) by (intros; constructor; try done; split; vm_compute; congruence).
  assert (Hd : seg_typed (flat32 0x10)) by (apply Hf; split; vm_compute; congruence).
  unfold cpui386_reset_pm. cbv zeta. set (r := cpui386_reset c) in *. clearbody r.
  assert (H1' : table 8 seg_typed (arr_set (arr_set (arr_set (arr_set (seg r) SEG_CS (mkSeg 0x8 0 0xffffffff SEG_D_BIT)) SEG_SS (flat32 0x10)) SEG_DS (flat32 0x10)) SEG_ES (flat32 0x10)))
    by (do 4 (apply table_set; [|first [exact Hd|apply Hf; split; vm_compute; congruence]]); apply (ty_seg r Hr)).
  apply typed_segs; [|exact H1']. apply (typed_sp_mask _ true), typed_code16, typed_cpl; [|lia]. apply typed_next; [|exact Hs].
  apply typed_cr0; [exact Hr|split; vm_compute; congruence].
Qed.

(** C9. The machine words of the interpreter stay words.  Whatever program a CPU runs, and
    whatever sequence of resets, interrupts, register writes and device activity it
    sees, with devices that give values of their C types, its registers, flags, instruction pointers, segment registers, tables,
    control and debug registers hold 32-bit values, its privilege level is 0 to 3, its
    stack mask is one of the two, the registers of its floating-point unit, if that is
    switched on, have their widths, its memory holds bytes, its TLBs name whole pages,
    and no lazily kept INC or DEC is asked for the carry. *)
Theorem words_stay_words c : life c -> typed c.
Proof.
  induction 1 as [g m x y z raw c Ha Hm E|c _ IH|c s _ IH Hs|c i v _ IH|c _ IH|c _ IH|c c' s k _ IH Hs E|c m d _ IH Hm|c c' fuel n _ IH E].
  - by apply (typed_new g m x y z raw).
  - apply typed_reset; [by apply typed_allocated|by apply ty_mask|by apply ty_mem|by apply ty_fpu].
  - by apply typed_reset_pm.
  - by apply typed_sreg32.
  - unfold cpui386_enable_fpu. destruct (has_fpu c); [done|]. by apply typed_fpu, fpu_new_typed.
  - by apply typed_intr.
  - by apply (types_end _ _ _ _ _ (types_setflags s k Hs) IH E).
  - by apply typed_dev, typed_memory.
  - by apply (types_end _ _ _ _ _ (types_slice fuel n) IH E).
Qed.
End Life.

(** ** A run of six instructions *)

#[local] Existing Instance Double.plain_math.

#[export] Instance no_ports : IoPorts unit := {|
  io_read _ _ := mret 0xff; io_write _ _ _ := mret tt; io_read_string := None; io_write_string := None; iomem_write_string := None |}.
#[export] Instance no_env : CpuEnv unit := {|
  get_nticks := mret 0; pic_read_irq := mret 0 |}.
#[export] Instance no_devices_laws : IoMemLaws unit.
Proof. by constructor. Qed.
#[export] Instance no_ports_laws : IoPortsLaws unit.
Proof. by constructor. Qed.

(** FLD1; FADD ST(0), ST(0); FISTP [0x30]; MOV EAX, [0x30]; INC EAX; HLT *)
Definition program : list Z := [0xd9; 0xe8; 0xd8; 0xc0; 0xdb; 0x1d; 0x30; 0; 0; 0; 0xa1; 0x30; 0; 0; 0; 0x40; 0xf4] ++ replicate 47 0.
Definition blank_cpu : CPUI386 unit :=
  let r := raw_cpu [] in r <| tlb := replicate 1024 (mkTlb 0 0 (false, 0) 0) |>
    <| fast_read := replicate 1024 (mkFR 0 0 0) |> <| fast_write := replicate 1024 (mkFW 0 0 None 0 0) |>.
Definition born : CPUI386 unit := cpui386_reset_pm 0 (cpui386_enable_fpu (default blank_cpu (match cpui386_new 4 program false false false blank_cpu with Done c => Some c | Stuck _ => None end))).
Definition ran : CPUI386 unit := match cpui386_step 10 6 born with Done (_, c) => c | Stuck _ => blank_cpu end.
Lemma blank_allocated : allocated blank_cpu.
Proof. constructor; try (vm_compute; reflexivity); split; vm_compute; congruence. Qed.
Lemma program_bytes : mem_ok program.
Proof. apply mem_ok_Forall. repeat (apply Forall_cons_2; [split; vm_compute; congruence|]). by apply Forall_nil_2. Qed.
Lemma ran_to_end : cpui386_step 10 6 born = Done (tt, ran) /\ halt ran = true /\ lreg32 0 ran = 3.
Proof. split; [|split]; vm_compute; reflexivity. Qed.
Lemma words_stay_words_witness : life ran /\ lreg32 0 ran = 3 /\ typed ran.
Proof.
  assert (Hl : life ran).
  { refine (life_step _ _ _ _ _ (proj1 ran_to_end)). apply life_reset_pm; [|by apply zero_word]. apply life_enable_fpu.
    refine (life_new 4 program false false false blank_cpu _ blank_allocated program_bytes _). vm_compute. reflexivity. }
  split; [exact Hl|]. split; [apply ran_to_end|]. exact (words_stay_words ran Hl).
Defined.

End TypedExec.
