(* ===== verification/I8257.v ===== *)
(** * I8257: the DMA controllers (winspire/i8257.c)

    [I8257State K] is one controller ([i8257_new] is called once with [dshift] 0
    for the byte channels and once with 1 for the word channels); [K] names the
    transfer handlers devices register, which the class [DmaClient] interprets.  A
    handler may act on the controller and on the devices [W].  [phys_mem] is the
    guest memory pc.c hands to both controllers. *)

From S2P Require Import Prelude.

Module Dma.

Definition ADDR : Z := 0.
Definition COUNT : Z := 1.

(** [None] is [i8257_phony_handler]. *)
Record I8257Regs (K : Type) := mkRegs {
  now : list Z; base : list Z; mode : Z; page : Z; pageh : Z; transfer_handler : option K;
}.
Arguments mkRegs {K}. Arguments now {K} _. Arguments base {K} _. Arguments mode {K} _.
Arguments page {K} _. Arguments pageh {K} _. Arguments transfer_handler {K} _.
#[export] Instance eta_regs K : Eta (I8257Regs K) := fun r =>
  mkRegs (now r) (base r) (mode r) (page r) (pageh r) (transfer_handler r).
#[export] Instance regs_inhabited K : Inhabited (I8257Regs K) := populate (mkRegs [0; 0] [0; 0] 0 0 0 None).

Record I8257State (K : Type) := mkDma {
  dshift : Z; status : Z; command : Z; mask : Z; flip_flop : Z;
  regs : list (I8257Regs K);
  phys_mem : list Z;
  dma_bh_scheduled : bool; running : Z;
}.
Arguments mkDma {K}. Arguments dshift {K} _. Arguments status {K} _. Arguments command {K} _.
Arguments mask {K} _. Arguments flip_flop {K} _. Arguments regs {K} _. Arguments phys_mem {K} _.
Arguments dma_bh_scheduled {K} _. Arguments running {K} _.
#[export] Instance eta_dma K : Eta (I8257State K) := fun d =>
  mkDma (dshift d) (status d) (command d) (mask d) (flip_flop d) (regs d) (phys_mem d) (dma_bh_scheduled d) (running d).

(** [transfer_handler (opaque, nchan, dma_pos, dma_len)] *)
Class DmaClient (K W : Type) := transfer : K -> Z -> Z -> Z -> ST (I8257State K * W) Z.

Definition CMD_NOT_SUPPORTED : Z := 0xfb.

(** An [int] result. *)
Definition int_value (z : Z) : outcome Z := if (- 2 ^ 31 <=? z) && (z <? 2 ^ 31) then Done z else Stuck Overflow.

Section Controller.
Context {K W : Type} `{DmaClient K W}.

Definition set_reg (i : Z) (r : I8257Regs K) (d : I8257State K) : I8257State K := d <| regs := arr_set (regs d) i r |>.

(** ** Page registers *)

Definition channels : list Z := [-1; 2; 3; 1; -1; -1; -1; 0].
Definition channel_of (nport : Z) : Z := arr channels (Z.land nport 7).

Definition i8257_write_page (nport v : Z) (d : I8257State K) : outcome (I8257State K) :=
  let ichan := channel_of nport in
  if ichan =? -1 then Done d else
  r ← rd (regs d) ichan; Done (set_reg ichan (r <| page := u8 v |>) d).
Definition i8257_write_pageh (nport v : Z) (d : I8257State K) : outcome (I8257State K) :=
  let ichan := channel_of nport in
  if ichan =? -1 then Done d else
  r ← rd (regs d) ichan; Done (set_reg ichan (r <| pageh := u8 v |>) d).
Definition i8257_read_page (nport : Z) (d : I8257State K) : outcome Z :=
  let ichan := channel_of nport in if ichan =? -1 then Done 0 else r ← rd (regs d) ichan; Done (page r).
Definition i8257_read_pageh (nport : Z) (d : I8257State K) : outcome Z :=
  let ichan := channel_of nport in if ichan =? -1 then Done 0 else r ← rd (regs d) ichan; Done (pageh r).

(** ** Channel registers, a byte at a time through the flip-flop *)

Definition i8257_init_chan (ichan : Z) (d : I8257State K) : outcome (I8257State K) :=
  r ← rd (regs d) ichan;
  Done (set_reg ichan (r <| now := arr_set (arr_set (now r) ADDR (Z.shiftl (arr (base r) ADDR) (dshift d))) COUNT 0 |>) d).

Definition i8257_getff (d : I8257State K) : Z * I8257State K := (flip_flop d, d <| flip_flop := b2z (negb (nz (flip_flop d))) |>).

Definition i8257_read_chan (nport : Z) (d : I8257State K) : outcome (Z * I8257State K) :=
  let iport := Z.land (Z.shiftr nport (dshift d)) 0x0f in
  let ichan := Z.shiftr iport 1 in let nreg := Z.land iport 1 in
  r ← rd (regs d) ichan;
  let dir := if Z.testbit (mode r) 5 then -1 else 1 in
  let '(ff, d) := i8257_getff d in
  val ← int_value (if nz nreg then Z.shiftl (arr (base r) COUNT) (dshift d) - arr (now r) COUNT
                   else arr (now r) ADDR + arr (now r) COUNT * dir);
  Done (Z.land (Z.shiftr val (dshift d + Z.shiftl ff 3)) 0xff, d).

Definition i8257_write_chan (nport v : Z) (d : I8257State K) : outcome (I8257State K) :=
  let iport := Z.land (Z.shiftr nport (dshift d)) 0x0f in
  let ichan := Z.shiftr iport 1 in let nreg := Z.land iport 1 in
  r ← rd (regs d) ichan;
  let b := arr (base r) nreg in
  let '(ff, d) := i8257_getff d in
  if nz ff then
    i8257_init_chan ichan
      (set_reg ichan (r <| base := arr_set (base r) nreg (Z.lor (Z.land b 0xff) (Z.land (Z.shiftl v 8) 0xff00)) |>) d)
  else Done (set_reg ichan (r <| base := arr_set (base r) nreg (Z.lor (Z.land b 0xff00) (Z.land v 0xff)) |>) d).

(** ** Running the channels *)

Definition on_dma (f : I8257State K -> I8257State K) (s : I8257State K * W) : I8257State K * W := (f s.1, s.2).
Definition set_status (v : Z) (d : I8257State K) : I8257State K := d <| status := u8 v |>.
Definition set_running (v : Z) (d : I8257State K) : I8257State K := d <| running := v |>.

Definition dma_len (r : I8257Regs K) (sh : Z) : Z := Z.shiftl (arr (base r) COUNT + 1) sh.

Definition i8257_channel_run (ichan : Z) : ST (I8257State K * W) unit := fun s =>
  let d := s.1 in let ncont := dshift d in
  (r ← lift (rd (regs d) ichan);
   n ← match transfer_handler r with
       | None => mret (arr (now r) COUNT)
       | Some k => transfer k (ichan + Z.shiftl ncont 2) (arr (now r) COUNT) (dma_len r ncont)
       end;
   r ← (fun s => lift (rd (regs s.1) ichan) s);
   _ ← modify (on_dma (set_reg ichan (r <| now := arr_set (now r) COUNT n |>)));
   if n =? dma_len r ncont then modify (on_dma (fun d => set_status (Z.lor (status d) (Z.shiftl 1 ichan)) d))
   else mret tt) s.

Definition dma_requested (d : I8257State K) (ichan : Z) : bool :=
  let m := Z.shiftl 1 ichan in (Z.land (mask d) m =? 0) && negb (Z.land (status d) (Z.shiftl m 4) =? 0).

Fixpoint run_channels (l : list Z) (rearm : bool) : ST (I8257State K * W) bool :=
  match l with
  | [] => mret rearm
  | ichan :: l => fun s =>
      if dma_requested s.1 ichan then (_ ← i8257_channel_run ichan; run_channels l true) s else run_channels l rearm s
  end.

Definition schedule (d : I8257State K) : I8257State K := d <| dma_bh_scheduled := true |>.
Definition i8257_dma_run : ST (I8257State K * W) unit := fun s =>
  if nz (running s.1) then Done (tt, on_dma schedule s) else
  (rearm ← run_channels [0; 1; 2; 3] false;
   modify (on_dma (fun d => let d := set_running 0 d in if rearm : bool then schedule d else d))) (on_dma (set_running 1) s).

Definition i8257_dma_hold_DREQ (nchan : Z) : ST (I8257State K * W) unit :=
  let ichan := Z.land nchan 3 in
  _ ← modify (on_dma (fun d => set_status (Z.lor (status d) (Z.shiftl 1 (ichan + 4))) d)); i8257_dma_run.
Definition i8257_dma_release_DREQ (nchan : Z) : ST (I8257State K * W) unit :=
  let ichan := Z.land nchan 3 in
  _ ← modify (on_dma (fun d => set_status (Z.land (status d) (Z.lnot (Z.shiftl 1 (ichan + 4)))) d)); i8257_dma_run.

Definition i8257_dma_register_channel (nchan : Z) (k : K) (d : I8257State K) : outcome (I8257State K) :=
  let ichan := Z.land nchan 3 in
  r ← rd (regs d) ichan; Done (set_reg ichan (r <| transfer_handler := Some k |>) d).

(** ** The control ports *)

Definition cont_port (d : I8257State K) (nport : Z) : Z := Z.land (Z.shiftr nport (dshift d)) 0x0f.
Definition i8257_write_cont (nport v : Z) : ST (I8257State K * W) unit := fun s =>
  let d := s.1 in
  let set (d : I8257State K) : ST (I8257State K * W) unit := modify (on_dma (fun _ => d)) in
  match cont_port d nport with
  | 0 => if negb (v =? 0) && nz (Z.land v CMD_NOT_SUPPORTED) then Done (tt, s) else set (d <| command := u8 v |>) s
  | 1 =>
      let ichan := Z.land v 3 in
      let st := if Z.testbit v 2 then Z.lor (status d) (Z.shiftl 1 (ichan + 4))
                else Z.land (status d) (Z.lnot (Z.shiftl 1 (ichan + 4))) in
      (_ ← set (d <| status := u8 (Z.land st (Z.lnot (Z.shiftl 1 ichan))) |>); i8257_dma_run) s
  | 2 =>
      let m := Z.shiftl 1 (Z.land v 3) in
      (_ ← set (d <| mask := u8 (if Z.testbit v 2 then Z.lor (mask d) m else Z.land (mask d) (Z.lnot m)) |>); i8257_dma_run) s
  | 3 =>
      let ichan := Z.land v 3 in
      (r ← lift (rd (regs d) ichan); set (set_reg ichan (r <| mode := u8 v |>) d)) s
  | 4 => set (d <| flip_flop := 0 |>) s
  | 5 => set (d <| flip_flop := 0 |> <| mask := 0xff |> <| status := 0 |> <| command := 0 |>) s
  | 6 => (_ ← set (d <| mask := 0 |>); i8257_dma_run) s
  | 7 => (_ ← set (d <| mask := u8 v |>); i8257_dma_run) s
  | _ => Done (tt, s)
  end.

Definition i8257_read_cont (nport : Z) (d : I8257State K) : Z * I8257State K :=
  match cont_port d nport with
  | 0 => (status d, d <| status := Z.land (status d) 0xf0 |>)
  | 1 => (mask d, d)
  | _ => (0, d)
  end.

(** ** Transfers between memory and a device buffer *)

Definition i8257_is_verify_transfer (r : I8257Regs K) : bool := Z.land (mode r) 0x0c =? 0.
Definition dma_addr (r : I8257Regs K) : Z :=
  u32 (Z.lor (Z.lor (Z.shiftl (Z.land (pageh r) 0x7f) 24) (Z.shiftl (page r) 16)) (arr (now r) ADDR)).

(** [n] bytes from address [a] of memory to index [i] of the buffer; the loop
    stops at the first address outside memory. *)
Fixpoint copy_in (n : nat) (m : list Z) (a i : Z) (p : list Z) : outcome (list Z) :=
  match n with
  | O => Done p
  | S n =>
      let x := u32 (a + i) in
      if alen m <=? x then Done p else
      b ← rd m x; p ← wr p i b; copy_in n m a (i + 1) p
  end.
Fixpoint copy_to_memory (n : nat) (m : list Z) (a i : Z) (p : list Z) : outcome (list Z) :=
  match n with
  | O => Done m
  | S n =>
      let x := u32 (a + i) in
      if alen m <=? x then Done m else
      b ← rd p i; m ← wr m x b; copy_to_memory n m a (i + 1) p
  end.
(** [for (i = 0; i < n; i++) p[i] = p[len - i - 1]] *)
Fixpoint mirror (n : nat) (len i : Z) (p : list Z) : outcome (list Z) :=
  match n with
  | O => Done p
  | S n => b ← rd p (len - i - 1); p ← wr p i b; mirror n len (i + 1) p
  end.

(** The buffer has [len] bytes or more; the result is [len] with the new buffer. *)
Definition i8257_dma_read_memory (nchan : Z) (p : list Z) (pos len : Z) (d : I8257State K) : outcome (Z * list Z) :=
  r ← rd (regs d) (Z.land nchan 3);
  if i8257_is_verify_transfer r then Done (len, p) else
  let addr := dma_addr r in
  if Z.testbit (mode r) 5 then
    p ← copy_in (Z.to_nat (u32 len)) (phys_mem d) (addr - pos - len) 0 p;
    p ← mirror (Z.to_nat (Z.shiftr len 1)) len 0 p;
    Done (len, p)
  else
    p ← copy_in (Z.to_nat (u32 len)) (phys_mem d) (addr + pos) 0 p; Done (len, p).

Definition i8257_dma_write_memory (nchan : Z) (p : list Z) (pos len : Z) (d : I8257State K) : outcome (Z * list Z * I8257State K) :=
  r ← rd (regs d) (Z.land nchan 3);
  if i8257_is_verify_transfer r then Done (len, p, d) else
  let addr := dma_addr r in
  if Z.testbit (mode r) 5 then
    m ← copy_to_memory (Z.to_nat (u32 len)) (phys_mem d) (addr - pos - len) 0 p;
    p ← mirror (Z.to_nat len) len 0 p;
    Done (len, p, d <| phys_mem := m |>)
  else
    m ← copy_to_memory (Z.to_nat (u32 len)) (phys_mem d) (addr + pos) 0 p; Done (len, p, d <| phys_mem := m |>).

Definition i8257_new (m : list Z) (sh : Z) : I8257State K :=
  mkDma sh 0 0 0 0 (replicate 4 (mkRegs [0; 0] [0; 0] 0 0 0 None)) m false 0.

End Controller.

(** ** Well-formed controllers *)

Record dma_wf {K} (d : I8257State K) : Prop := {
  dw_shift : dshift d = 0 \/ dshift d = 1;
  dw_regs : alen (regs d) = 4;
  dw_chan : forall i, 0 <= i < 4 -> alen (now (arr (regs d) i)) = 2 /\ alen (base (arr (regs d) i)) = 2;
  dw_base : forall i k, 0 <= i < 4 -> 0 <= k < 2 -> inw 16 (arr (base (arr (regs d) i)) k);
}.

Section Programming.
Context {K : Type}.
Implicit Types d : I8257State K.

(** The port of register [n] of channel [i]. *)
Definition port d (i n : Z) : Z := Z.shiftl (2 * i + n) (dshift d).

Lemma port_decode d i n : dma_wf d -> 0 <= i < 4 -> 0 <= n < 2 ->
  let ip := Z.land (Z.shiftr (port d i n) (dshift d)) 0x0f in Z.shiftr ip 1 = i /\ Z.land ip 1 = n.
Proof.
  intros Hw Hi Hn. unfold port. assert (0 <= dshift d) by (destruct (dw_shift d Hw) as [-> | ->]; lia).
  assert (Z.shiftr (Z.shiftl (2 * i + n) (dshift d)) (dshift d) = 2 * i + n) as ->
    by (rewrite Z.shiftr_shiftl_l, Z.sub_diag, Z.shiftl_0_r by lia; done).
  cbv zeta. rewrite (land_ones_mod 4), Z.mod_small by lia. rewrite (land_ones_mod 1) by lia. rewrite Z.shiftr_div_pow2 by lia.
  change (2 ^ 1) with 2. split; [symmetry; apply (Z.div_unique _ _ _ n)|symmetry; apply (Z.mod_unique _ _ i)]; lia.
Qed.

Lemma low_byte_merge b v : inw 16 b -> inw 8 v -> Z.lor (Z.land b 0xff00) (Z.land v 0xff) = (b / 256) * 256 + v.
Proof.
  intros Hb Hv. rewrite (land_ones_mod 8), Z.mod_small by (done || lia).
  assert (Z.land b 0xff00 = Z.shiftl (b / 256) 8) as ->.
  { change (b / 256) with (b / 2 ^ 8). rewrite <- Z.shiftr_div_pow2 by lia. apply Z.bits_inj'. intros k Hk.
    rewrite Z.land_spec. destruct (Z.lt_ge_cases k 8); [rewrite Z.shiftl_spec_low by lia|rewrite Z.shiftl_spec, Z.shiftr_spec by lia].
    - change 0xff00 with (Z.shiftl 0xff 8). by rewrite (Z.shiftl_spec_low 0xff), andb_false_r by lia.
    - replace (k - 8 + 8) with k by lia. change 0xff00 with (Z.shiftl 0xff 8). rewrite (Z.shiftl_spec 0xff) by lia.
      destruct (Z.lt_ge_cases k 16).
      + change 0xff with (Z.ones 8). by rewrite Z.ones_spec_low, andb_true_r by lia.
      + by rewrite (inw_testbit_high 16 b) by (done || lia). }
  rewrite Z.lor_comm, lor_shiftl_add by (done || lia). change (2 ^ 8) with 256. lia.
Qed.
Lemma high_byte_merge b v : inw 16 b -> inw 8 v -> Z.lor (Z.land b 0xff) (Z.land (Z.shiftl v 8) 0xff00) = v * 256 + b mod 256.
Proof.
  intros Hb Hv. rewrite land_255. assert (Z.land (Z.shiftl v 8) 0xff00 = Z.shiftl v 8) as ->.
  { change 0xff00 with (Z.shiftl 0xff 8). rewrite <- Z.shiftl_land. by rewrite (land_ones_mod 8), Z.mod_small by (done || lia). }
  rewrite lor_shiftl_add; [|lia|apply (inw_mod 8); lia]. change (2 ^ 8) with 256. lia.
Qed.

(** Channel [i] with base register [n] written: both current registers reload. *)
Definition reload (r : I8257Regs K) (sh n v : Z) : I8257Regs K :=
  let b := arr_set (base r) n v in
  r <| base := b |> <| now := arr_set (arr_set (now r) ADDR (Z.shiftl (arr b ADDR) sh)) COUNT 0 |>.

Lemma reg_at d i : dma_wf d -> 0 <= i < 4 -> rd (regs d) i = Done (arr (regs d) i).
Proof. intros Hw Hi. apply rd_in. by rewrite (dw_regs d Hw). Qed.
Lemma reg_set_at d i r : dma_wf d -> 0 <= i < 4 -> rd (arr_set (regs d) i r) i = Done r.
Proof. intros Hw Hi. rewrite rd_in by (by rewrite alen_set, (dw_regs d Hw)). by rewrite arr_set_eq by (by rewrite (dw_regs d Hw)). Qed.

Lemma arr_pair {A} `{Inhabited A} (P : A -> Prop) (l : list A) n v : alen l = 2 ->
  (forall k, 0 <= k < 2 -> P (arr l k)) -> P v -> forall k, 0 <= k < 2 -> P (arr (arr_set l n v) k).
Proof.
  intros Hl Hp Hv k Hk. unfold arr, arr_set. rewrite list_lookup_total_insert. case_decide; [done|by apply Hp].
Qed.
Lemma wf_set d i r : dma_wf d -> 0 <= i < 4 -> alen (now r) = 2 -> alen (base r) = 2 ->
  (forall k, 0 <= k < 2 -> inw 16 (arr (base r) k)) -> dma_wf (set_reg i r d).
Proof.
  intros Hw Hi Hn Hb Hr. assert (Hl := dw_regs d Hw).
  assert (Hc : forall j, 0 <= j < 4 -> arr (regs (set_reg i r d)) j = arr (regs d) j \/ arr (regs (set_reg i r d)) j = r).
  { intros j Hj. destruct (decide (j = i)) as [->|Hne]; [right; apply arr_set_eq; lia|left; apply arr_set_ne; lia]. }
  constructor; [apply (dw_shift d Hw)|by rewrite <- Hl; apply alen_set| |].
  - intros j Hj. destruct (Hc j Hj) as [-> | ->]; [by apply (dw_chan d Hw)|done].
  - intros j k Hj Hk. destruct (Hc j Hj) as [-> | ->]; [by apply (dw_base d Hw)|by apply Hr].
Qed.
Lemma wf_flip d f : dma_wf d -> dma_wf (d <| flip_flop := f |>).
Proof. intros [? ? ? ?]. by constructor. Qed.

(** One byte: [byte_in] is the base register after it. *)
Definition byte_in (ff b v : Z) : Z := if nz ff then v * 256 + b mod 256 else (b / 256) * 256 + v.
Definition with_base (r : I8257Regs K) (n v : Z) : I8257Regs K := r <| base := arr_set (base r) n v |>.
Lemma write_byte d i n v : dma_wf d -> 0 <= i < 4 -> 0 <= n < 2 -> inw 8 v ->
  let r := with_base (arr (regs d) i) n (byte_in (flip_flop d) (arr (base (arr (regs d) i)) n) v) in
  let d1 := set_reg i r (d <| flip_flop := b2z (negb (nz (flip_flop d))) |>) in
  i8257_write_chan (port d i n) v d = if nz (flip_flop d) then i8257_init_chan i d1 else Done d1.
Proof.
  intros Hw Hi Hn Hv. destruct (port_decode d i n Hw Hi Hn) as [Ei En]. pose proof (dw_base d Hw i n Hi Hn) as Hb.
  unfold i8257_write_chan. cbv zeta. rewrite Ei, En, (reg_at d i Hw Hi). cbn [mbind outcome_bind i8257_getff].
  unfold byte_in, with_base. destruct (nz (flip_flop d)); [by rewrite high_byte_merge|by rewrite low_byte_merge].
Qed.
Lemma byte_in_inw ff b v : inw 16 b -> inw 8 v -> inw 16 (byte_in ff b v).
Proof.
  unfold byte_in, inw. intros Hb Hv. pose proof (Z.mod_pos_bound b 256 ltac:(lia)).
  assert (0 <= b / 256 < 256) by (split; [apply Z.div_pos|apply Z.div_lt_upper_bound]; lia). destruct (nz ff); lia.
Qed.

Lemma write_word d i n lo hi : dma_wf d -> flip_flop d = 0 -> 0 <= i < 4 -> 0 <= n < 2 -> inw 8 lo -> inw 8 hi ->
  (d1 ← i8257_write_chan (port d i n) lo d; i8257_write_chan (port d i n) hi d1) =
    Done (set_reg i (reload (arr (regs d) i) (dshift d) n (hi * 256 + lo)) d).
Proof.
  intros Hw Hf Hi Hn Hlo Hhi. pose proof (dw_base d Hw i n Hi Hn) as Hb. destruct (dw_chan d Hw i Hi) as [Hln Hlb].
  rewrite (write_byte d i n lo Hw Hi Hn Hlo). rewrite Hf. cbn [nz negb Z.eqb mbind outcome_bind b2z].
  set (v1 := byte_in 0 _ lo). set (d1 := set_reg i _ _).
  assert (Hv1 : inw 16 v1) by (by apply byte_in_inw).
  assert (Hw1 : dma_wf d1).
  { apply wf_set; [by apply wf_flip|done|done|cbn; by rewrite alen_set|]. apply (arr_pair (inw 16)); [done|intros k Hk; by apply (dw_base d Hw)|done]. }
  change (port d i n) with (port d1 i n). rewrite (write_byte d1 i n hi Hw1 Hi Hn Hhi).
  assert (E1 : arr (regs d1) i = with_base (arr (regs d) i) n v1) by (apply arr_set_eq; change (0 <= i < alen (regs d)); by rewrite (dw_regs d Hw)).
  rewrite E1. change (flip_flop d1) with 1. cbn [nz negb Z.eqb b2z with_base base set_field].
  rewrite (arr_set_eq (base _)) by (by rewrite Hlb).
  assert (byte_in 1 v1 hi = hi * 256 + lo) as ->.
  { unfold byte_in, v1, byte_in, inw in *. cbn [nz negb Z.eqb]. rewrite Z.add_comm, (Z.add_comm (_ * 256) lo), Z_mod_plus_full, Z.mod_small by lia. lia. }
  unfold i8257_init_chan, set_reg. cbn [regs set_field]. rewrite (reg_set_at d1 i) by done. cbn [mbind outcome_bind].
  unfold reload. cbn [base now set_field with_base]. rewrite !arr_set_set. unfold d1, set_reg. cbn [regs set_field].
  unfold with_base. cbn [base now mode page pageh transfer_handler set_field eta_record eta_regs]. rewrite !arr_set_set.
  clear - Hf. destruct d. cbn in Hf. by subst.
Qed.

(** An idle channel: nothing transferred since it was loaded. *)
Definition idle d (r : I8257Regs K) : Prop :=
  arr (now r) COUNT = 0 /\ arr (now r) ADDR = Z.shiftl (arr (base r) ADDR) (dshift d).

Lemma read_byte d i n : dma_wf d -> 0 <= i < 4 -> 0 <= n < 2 -> flip_flop d = 0 \/ flip_flop d = 1 ->
  idle d (arr (regs d) i) ->
  i8257_read_chan (port d i n) d =
    Done (arr (base (arr (regs d) i)) n / 2 ^ (8 * flip_flop d) mod 256, d <| flip_flop := 1 - flip_flop d |>).
Proof.
  intros Hw Hi Hn Hf [Hc Ha]. destruct (port_decode d i n Hw Hi Hn) as [Ei En]. pose proof (dw_base d Hw i n Hi Hn) as Hb.
  assert (Hsh : 0 <= dshift d <= 1) by (destruct (dw_shift d Hw) as [-> | ->]; lia).
  unfold i8257_read_chan. cbv zeta. rewrite Ei, En, (reg_at d i Hw Hi). cbn [mbind outcome_bind i8257_getff].
  set (d1 := d <| flip_flop := _ |>). change (dshift d1) with (dshift d). rewrite Hc, Ha.
  assert (E : (if nz n then Z.shiftl (arr (base (arr (regs d) i)) COUNT) (dshift d) - 0
               else Z.shiftl (arr (base (arr (regs d) i)) ADDR) (dshift d) + 0 * (if Z.testbit (mode (arr (regs d) i)) 5 then -1 else 1))
              = Z.shiftl (arr (base (arr (regs d) i)) n) (dshift d)).
  { assert (n = 0 \/ n = 1) as [-> | ->] by lia; cbn [nz negb Z.eqb]; unfold ADDR, COUNT; lia. }
  rewrite E. set (b := arr (base (arr (regs d) i)) n) in *.
  assert (Hv : 0 <= Z.shiftl b (dshift d) < 2 ^ 17).
  { rewrite Z.shiftl_mul_pow2 by lia. unfold inw in Hb. destruct (dw_shift d Hw) as [-> | ->]; lia. }
  unfold int_value. destruct (Z.leb_spec (- 2 ^ 31) (Z.shiftl b (dshift d))); [|lia]. destruct (Z.ltb_spec (Z.shiftl b (dshift d)) (2 ^ 31)); [|lia].
  cbn [andb mbind outcome_bind].
  do 3 f_equal.
  - rewrite land_255. f_equal. rewrite (Z.shiftl_mul_pow2 (flip_flop d) 3) by lia. change (2 ^ 3) with 8.
    rewrite <- Z.shiftr_shiftr by lia.
    rewrite Z.shiftr_shiftl_l, Z.sub_diag, Z.shiftl_0_r, Z.shiftr_div_pow2 by lia.
    f_equal. f_equal. lia.
  - by destruct Hf as [-> | ->].
Qed.

Lemma wf_reload d i n v : dma_wf d -> 0 <= i < 4 -> inw 16 v ->
  dma_wf (set_reg i (reload (arr (regs d) i) (dshift d) n v) d).
Proof.
  intros Hw Hi Hv. destruct (dw_chan d Hw i Hi) as [Hln Hlb].
  apply wf_set; [done|done| | |]; unfold reload; cbn [now base set_field]; rewrite ?alen_set; try done.
  apply (arr_pair (inw 16)); [done|intros k Hk; by apply (dw_base d Hw)|done].
Qed.
Lemma idle_reload d i n v : dma_wf d -> 0 <= i < 4 -> idle d (reload (arr (regs d) i) (dshift d) n v).
Proof.
  intros Hw Hi. destruct (dw_chan d Hw i Hi) as [Hln Hlb]. unfold reload. split; cbn [now base set_field].
  - by rewrite arr_set_eq by (by rewrite alen_set, Hln).
  - rewrite arr_set_ne by (unfold ADDR, COUNT; lia). by rewrite arr_set_eq by (by rewrite Hln).
Qed.

(** The eight accesses of a driver that loads a channel and reads it back. *)
Definition program d (i alo ahi clo chi : Z) : outcome (I8257State K) :=
  d ← (d1 ← i8257_write_chan (port d i ADDR) alo d; i8257_write_chan (port d i ADDR) ahi d1);
  d1 ← i8257_write_chan (port d i COUNT) clo d; i8257_write_chan (port d i COUNT) chi d1.
Definition read_registers d (i : Z) : outcome (list Z * I8257State K) :=
  r0 ← i8257_read_chan (port d i ADDR) d; r1 ← i8257_read_chan (port d i ADDR) r0.2;
  r2 ← i8257_read_chan (port d i COUNT) r1.2; r3 ← i8257_read_chan (port d i COUNT) r2.2;
  Done ([r0.1; r1.1; r2.1; r3.1], r3.2).

Lemma program_eq d i alo ahi clo chi : dma_wf d -> flip_flop d = 0 -> 0 <= i < 4 ->
  inw 8 alo -> inw 8 ahi -> inw 8 clo -> inw 8 chi ->
  exists r, program d i alo ahi clo chi = Done (set_reg i r d) /\ dma_wf (set_reg i r d) /\ idle d r /\
    arr (base r) ADDR = ahi * 256 + alo /\ arr (base r) COUNT = chi * 256 + clo /\
    mode r = mode (arr (regs d) i) /\ page r = page (arr (regs d) i) /\ pageh r = pageh (arr (regs d) i) /\
    transfer_handler r = transfer_handler (arr (regs d) i).
Proof.
  intros Hw Hf Hi Ha0 Ha1 Hc0 Hc1. assert (Hv : forall x y, inw 8 x -> inw 8 y -> inw 16 (y * 256 + x)) by (unfold inw; lia).
  unfold program. rewrite (write_word d i ADDR alo ahi) by (done || unfold ADDR; lia). cbn [mbind outcome_bind].
  set (r1 := reload _ _ _ _). set (d1 := set_reg i r1 d).
  assert (Hw1 : dma_wf d1) by (apply wf_reload; [done|done|by apply Hv]).
  rewrite (write_word d1 i COUNT clo chi) by (done || unfold COUNT; lia).
  assert (Er : arr (regs d1) i = r1) by (apply arr_set_eq; by rewrite (dw_regs d Hw)). rewrite Er.
  set (r2 := reload _ _ _ _). exists r2. destruct (dw_chan d Hw i Hi) as [Hln Hlb].
  assert (E2 : set_reg i r2 d1 = set_reg i r2 d) by (unfold d1, set_reg; cbn [regs set_field]; by rewrite arr_set_set).
  pose proof (wf_reload d1 i COUNT (chi * 256 + clo) Hw1 Hi ltac:(by apply Hv)) as Hw2.
  pose proof (idle_reload d1 i COUNT (chi * 256 + clo) Hw1 Hi) as Hid. rewrite Er in Hw2, Hid. fold r2 in Hw2, Hid.
  change (dshift d1) with (dshift d) in Hw2, Hid. rewrite E2 in *.
  split; [done|]. split; [done|]. split; [done|]. unfold r2, r1, reload. cbn [base set_field mode page pageh transfer_handler].
  split; [rewrite arr_set_ne by (unfold ADDR, COUNT; lia); apply arr_set_eq; by rewrite Hlb|].
  split; [apply arr_set_eq; by rewrite alen_set, Hlb|done].
Qed.

(** Programming a channel byte by byte through the flip-flop and reading its
    four registers back returns the bytes written, for the byte and the word
    controller; the transfer starts at the programmed address with the
    programmed length, and nothing else of the controller changes. *)
Theorem program_read_back d i alo ahi clo chi : dma_wf d -> flip_flop d = 0 -> 0 <= i < 4 ->
  inw 8 alo -> inw 8 ahi -> inw 8 clo -> inw 8 chi ->
  exists d', program d i alo ahi clo chi = Done d' /\ read_registers d' i = Done ([alo; ahi; clo; chi], d') /\
    dma_wf d' /\ arr (now (arr (regs d') i)) COUNT = 0 /\
    arr (now (arr (regs d') i)) ADDR = (ahi * 256 + alo) * 2 ^ dshift d /\
    dma_len (arr (regs d') i) (dshift d') = (chi * 256 + clo + 1) * 2 ^ dshift d /\
    (forall j, 0 <= j < 4 -> j <> i -> arr (regs d') j = arr (regs d) j) /\
    d' = d <| regs := regs d' |>.
Proof.
  intros Hw Hf Hi Ha0 Ha1 Hc0 Hc1.
  destruct (program_eq d i alo ahi clo chi Hw Hf Hi Ha0 Ha1 Hc0 Hc1) as (r & E & Hw' & Hid & Ea & Ec & _).
  set (d' := set_reg i r d) in *. exists d'. split; [done|].
  assert (Er : arr (regs d') i = r) by (apply arr_set_eq; by rewrite (dw_regs d Hw)).
  assert (Hsh : 0 <= dshift d) by (destruct (dw_shift d Hw) as [-> | ->]; lia). rewrite Er. destruct Hid as [Hc Hn].
  split; [|split; [done|split; [done|split; [by rewrite Hn, Ea, Z.shiftl_mul_pow2|split;
    [by unfold dma_len; change (dshift d') with (dshift d); rewrite Ec, Z.shiftl_mul_pow2|split; [intros j Hj Hne; apply arr_set_ne; lia|done]]]]]].
  assert (Hb : forall n f, 0 <= n < 2 -> f = 0 \/ f = 1 -> i8257_read_chan (port d' i n) (d' <| flip_flop := f |>) =
    Done (arr (base r) n / 2 ^ (8 * f) mod 256, d' <| flip_flop := 1 - f |>)).
  { intros n f Hn' Hf'. change (port d' i n) with (port (d' <| flip_flop := f |>) i n).
    rewrite (read_byte (d' <| flip_flop := f |>) i n); [|by apply wf_flip|done|done|done|];
      change (regs (d' <| flip_flop := f |>)) with (regs d'); rewrite Er; done. }
  assert (E0 : d' <| flip_flop := 0 |> = d') by (unfold d', set_reg; rewrite <- Hf; by destruct d).
  unfold read_registers. rewrite <- E0 at 2. rewrite (Hb ADDR 0) by (unfold ADDR; lia). cbn [mbind outcome_bind fst snd].
  change (1 - 0) with 1. rewrite (Hb ADDR 1) by (unfold ADDR; lia). cbn [mbind outcome_bind fst snd]. change (1 - 1) with 0. rewrite (Hb COUNT 0) by (unfold COUNT; lia).
  cbn [mbind outcome_bind fst snd]. change (1 - 0) with 1. rewrite (Hb COUNT 1) by (unfold COUNT; lia). cbn [mbind outcome_bind fst snd]. rewrite Ea, Ec.
  change (1 - 1) with 0. rewrite E0. do 3 f_equal; [|f_equal; [|f_equal; [|f_equal]]]; unfold inw in *.
  all: change (2 ^ (8 * 0)) with 1; change (2 ^ (8 * 1)) with 256; rewrite ?Z.div_1_r, ?Z.div_add_l by lia.
  all: rewrite ?(Z.div_small alo), ?(Z.div_small clo), ?Z.add_0_r by lia. 1,3: rewrite Z.add_comm, Z_mod_plus_full.
  all: apply Z.mod_small; lia.
Qed.

End Programming.

(** ** A device that takes what it is offered

    The reader asks for up to [chunk] bytes each time its channel runs and keeps
    them, the way the sample loop of sb16.c fills its buffer. *)

Lemma copy_in_ram n m a pre post : (n <= length post)%nat -> 0 <= a -> alen m <= 2 ^ 32 ->
  a + alen pre + Z.of_nat n <= alen m ->
  copy_in n m a (alen pre) (pre ++ post) =
    Done (pre ++ take n (drop (Z.to_nat (a + alen pre)) m) ++ drop n post).
Proof.
  revert pre post. induction n as [|n IH]; intros pre post Hn Ha Hm Hr; cbn [copy_in take drop]; [done|].
  destruct post as [|x post]; cbn in Hn; [lia|].
  assert (Hp : 0 <= alen pre) by (unfold alen; lia). rewrite u32_id by (unfold inw; lia).
  destruct (Z.leb_spec (alen m) (a + alen pre)); [lia|]. rewrite rd_in by lia. cbn [mbind outcome_bind].
  rewrite wr_in by (unfold alen; rewrite length_app; cbn; lia). cbn [mbind outcome_bind].
  set (b := arr m (a + alen pre)).
  assert (E : arr_set (pre ++ x :: post) (alen pre) b = (pre ++ [b]) ++ post).
  { unfold arr_set, alen. rewrite Nat2Z.id, insert_app_r_alt, Nat.sub_diag by lia. cbn. by rewrite <- app_assoc. }
  rewrite E. assert (El : alen (pre ++ [b]) = alen pre + 1) by (unfold alen; rewrite length_app; cbn; lia). rewrite <- El.
  rewrite IH by (done || lia || (rewrite El; lia)). rewrite El, <- app_assoc. cbn [app drop]. do 2 f_equal.
  assert (Hd : drop (Z.to_nat (a + alen pre)) m = b :: drop (Z.to_nat (a + (alen pre + 1))) m).
  { replace (Z.to_nat (a + (alen pre + 1))) with (S (Z.to_nat (a + alen pre))) by lia. apply drop_S.
    unfold b, arr. apply list_lookup_lookup_total_lt. unfold alen in *. lia. }
  by rewrite Hd.
Qed.

Section Reader.
#[local] Instance reader : DmaClient Z (list Z) := fun chunk nchan pos len s =>
  let n := Z.min chunk (len - pos) in
  (r ← lift (i8257_dma_read_memory nchan (replicate (Z.to_nat n) 0) pos n s.1);
   _ ← modify (fun s : I8257State Z * list Z => (s.1, s.2 ++ r.2)); mret (pos + r.1)) s.
Implicit Types d : I8257State Z.

Lemma requested_bits d j : 0 <= j < 4 -> dma_requested d j = negb (Z.testbit (mask d) j) && Z.testbit (status d) (j + 4).
Proof.
  intros Hj. unfold dma_requested. rewrite Z.shiftl_shiftl by lia.
  pose proof (land_bit_nz (mask d) j ltac:(lia)) as Em. pose proof (land_bit_nz (status d) (j + 4) ltac:(lia)) as Es.
  unfold nz in *. rewrite Es. by rewrite <- Em, negb_involutive.
Qed.

Lemma skip_channels l l' rearm d w : (forall j, j ∈ l -> dma_requested d j = false) ->
  run_channels (l ++ l') rearm (d, w) = run_channels l' rearm (d, w).
Proof.
  induction l as [|j l IH]; intros Hl; [done|]. cbn [app run_channels fst]. rewrite Hl by (left). apply IH. intros k Hk. apply Hl. by right.
Qed.

(** A transfer of [L] bytes at address [a] through channel [i], [pos] bytes done. *)
Record active d (i chunk a L pos : Z) : Prop := {
  ac_wf : dma_wf d; ac_chan : 0 <= i < 4;
  ac_only : forall j, 0 <= j < 4 -> dma_requested d j = true <-> j = i;
  ac_handler : transfer_handler (arr (regs d) i) = Some chunk;
  ac_mode : i8257_is_verify_transfer (arr (regs d) i) = false /\ Z.testbit (mode (arr (regs d) i)) 5 = false;
  ac_addr : dma_addr (arr (regs d) i) = a; ac_len : dma_len (arr (regs d) i) (dshift d) = L;
  ac_pos : arr (now (arr (regs d) i)) COUNT = pos; ac_range : 0 <= pos <= L;
  ac_mem : 0 <= a /\ a + L <= alen (phys_mem d) /\ alen (phys_mem d) <= 2 ^ 31;
}.

Definition block d (a pos n : Z) : list Z := take (Z.to_nat n) (drop (Z.to_nat (a + pos)) (phys_mem d)).
(** Channel [i] has transferred [n] bytes; [full] sets its terminal count. *)
Definition moved d (i n : Z) (full : bool) : I8257State Z :=
  let r := arr (regs d) i in
  let d1 := set_reg i (r <| now := arr_set (now r) COUNT n |>) d in
  if full then set_status (Z.lor (status d) (Z.shiftl 1 i)) d1 else d1.

Lemma read_block d i chunk a L pos n : active d i chunk a L pos -> 0 <= n <= L - pos ->
  i8257_dma_read_memory (i + Z.shiftl (dshift d) 2) (replicate (Z.to_nat n) 0) pos n d = Done (n, block d a pos n).
Proof.
  intros Ha Hn. destruct (ac_mem _ _ _ _ _ _ Ha) as (Ha0 & HaL & Hm). pose proof (ac_chan _ _ _ _ _ _ Ha) as Hi. pose proof (ac_range _ _ _ _ _ _ Ha).
  unfold i8257_dma_read_memory.
  assert (Z.land (i + Z.shiftl (dshift d) 2) 3 = i) as ->.
  { rewrite (land_ones_mod 2), Z.shiftl_mul_pow2 by lia. change (2 ^ 2) with 4. rewrite Z_mod_plus_full. apply Z.mod_small. lia. }
  rewrite (reg_at d i (ac_wf _ _ _ _ _ _ Ha) Hi). cbn [mbind outcome_bind]. destruct (ac_mode _ _ _ _ _ _ Ha) as [-> ->].
  rewrite (ac_addr _ _ _ _ _ _ Ha), u32_id by (unfold inw; lia).
  pose proof (copy_in_ram (Z.to_nat n) (phys_mem d) (a + pos) [] (replicate (Z.to_nat n) 0)) as E. cbn [app alen length] in E.
  change (alen []) with 0 in E. rewrite Z.add_0_r in E. rewrite E by (rewrite ?length_replicate; lia).
  cbn [mbind outcome_bind]. do 2 f_equal. unfold block. rewrite (drop_ge (replicate _ _)) by (rewrite length_replicate; lia). apply app_nil_r.
Qed.

Lemma active_running d i chunk a L pos v : active d i chunk a L pos -> active (set_running v d) i chunk a L pos.
Proof. intros [Hw ? Hq ? ? ? ? ? ? ?]. constructor; try done. destruct Hw. by constructor. Qed.
Lemma active_schedule d i chunk a L pos : active d i chunk a L pos -> active (schedule d) i chunk a L pos.
Proof. intros [Hw ? Hq ? ? ? ? ? ? ?]. constructor; try done. destruct Hw. by constructor. Qed.

Lemma status_moved d i n full j : 0 <= i < 4 -> 0 <= j < 8 ->
  Z.testbit (status (moved d i n full)) j = Z.testbit (status d) j || (full && bool_decide (j = i)).
Proof.
  intros Hi Hj. destruct full; cbn [moved status set_status set_reg set_field andb]; [|by rewrite orb_false_r].
  unfold u8. rewrite Z.mod_pow2_bits_low, Z.lor_spec, shiftl_1_testbit by lia. f_equal. apply bool_decide_ext; split; congruence.
Qed.

Lemma active_moved d i chunk a L pos n full : active d i chunk a L pos -> 0 <= n <= L -> active (moved d i n full) i chunk a L n.
Proof.
  intros Ha Hn. destruct Ha as [Hw Hi Hq Hh Hm Had Hl Hp Hr Hmem]. destruct (dw_chan d Hw i Hi) as [Hln Hlb].
  set (r0 := arr (regs d) i) in *. set (r := r0 <| now := arr_set (now r0) COUNT n |>).
  assert (Hw1 : dma_wf (set_reg i r d)) by (apply wf_set; [done|done|cbn; by rewrite alen_set|done|intros k Hk; by apply (dw_base d Hw)]).
  assert (Hw2 : dma_wf (moved d i n full)) by (destruct full; [destruct Hw1; by constructor|done]).
  assert (Er : arr (regs (moved d i n full)) i = r) by (destruct full; apply arr_set_eq; by rewrite (dw_regs d Hw)).
  assert (Esh : dshift (moved d i n full) = dshift d) by (by destruct full).
  assert (Em : phys_mem (moved d i n full) = phys_mem d) by (by destruct full).
  assert (Emask : mask (moved d i n full) = mask d) by (by destruct full).
  constructor; rewrite ?Er, ?Esh, ?Em; try done.
  - intros j Hj. rewrite requested_bits, Emask, status_moved by lia. rewrite <- (Hq j Hj), requested_bits by done.
    assert (bool_decide (j + 4 = i) = false) as -> by (apply bool_decide_false; lia). by rewrite andb_false_r, orb_false_r.
  - unfold dma_addr, r. cbn [now pageh page set_field]. rewrite arr_set_ne by (unfold ADDR, COUNT; lia). exact Had.
  - unfold r. cbn [now set_field]. apply arr_set_eq. rewrite Hln. unfold COUNT. lia.
Qed.

(** One run of an active channel. *)
Lemma channel_run_active d w i chunk a L pos : active d i chunk a L pos -> 0 < chunk ->
  let n := Z.min chunk (L - pos) in
  i8257_channel_run i (d, w) = Done (tt, (moved d i (pos + n) (pos + n =? L), w ++ block d a pos n)).
Proof.
  intros Ha Hc n. pose proof (ac_wf _ _ _ _ _ _ Ha) as Hw. pose proof (ac_chan _ _ _ _ _ _ Ha) as Hi.
  pose proof (ac_range _ _ _ _ _ _ Ha). unfold i8257_channel_run. cbn [fst].
  rewrite (st_bind_done (lift (rd (regs d) i)) _ _ (arr (regs d) i) (d, w)) by (unfold lift; by rewrite (reg_at d i Hw Hi)).
  rewrite (ac_handler _ _ _ _ _ _ Ha), (ac_pos _ _ _ _ _ _ Ha), (ac_len _ _ _ _ _ _ Ha).
  rewrite (st_bind_done _ _ (d, w) (pos + n) (d, w ++ block d a pos n)).
  - rewrite (st_bind_done _ _ _ (arr (regs d) i) (d, w ++ block d a pos n)) by (unfold lift; cbn [fst]; by rewrite (reg_at d i Hw Hi)).
    rewrite (st_bind_done (modify _) _ _ tt _ eq_refl). rewrite (ac_len _ _ _ _ _ _ Ha). unfold moved.
    destruct (pos + n =? L); done.
  - unfold transfer, reader. cbv zeta. fold n. cbn [fst].
    rewrite (st_bind_done (lift _) _ _ (n, block d a pos n) (d, w)) by (unfold lift; rewrite (read_block d i chunk a L pos n) by (done || lia); done).
    done.
Qed.

Lemma dma_run_active d w i chunk a L pos : active d i chunk a L pos -> running d = 0 -> 0 < chunk ->
  let n := Z.min chunk (L - pos) in
  i8257_dma_run (d, w) = Done (tt, (schedule (set_running 0 (moved d i (pos + n) (pos + n =? L))), w ++ block d a pos n)).
Proof.
  intros Ha Hrun Hc n. pose proof (ac_chan _ _ _ _ _ _ Ha) as Hi. pose proof (ac_range _ _ _ _ _ _ Ha).
  unfold i8257_dma_run. cbn [fst]. rewrite Hrun. cbn [nz negb Z.eqb]. set (d1 := set_running 1 d).
  assert (Ha1 : active d1 i chunk a L pos) by (by apply active_running).
  assert (Hsplit : exists l1 l2, [0; 1; 2; 3] = l1 ++ i :: l2 /\ (forall j, j ∈ l1 -> 0 <= j < 4 /\ j <> i) /\ (forall j, j ∈ l2 -> 0 <= j < 4 /\ j <> i)).
  { assert (i = 0 \/ i = 1 \/ i = 2 \/ i = 3) as [-> |[-> |[-> | ->]]] by lia.
    - exists [], [1; 2; 3]. split; [done|]. split; intros j; rewrite ?elem_of_cons, elem_of_nil; lia.
    - exists [0], [2; 3]. split; [done|]. split; intros j; rewrite ?elem_of_cons, elem_of_nil; lia.
    - exists [0; 1], [3]. split; [done|]. split; intros j; rewrite ?elem_of_cons, elem_of_nil; lia.
    - exists [0; 1; 2], []. split; [done|]. split; intros j; rewrite ?elem_of_cons, elem_of_nil; lia. }
  destruct Hsplit as (l1 & l2 & -> & H1 & H2). change (on_dma (set_running 1) (d, w)) with (d1, w).
  assert (Hno : forall d' p, active d' i chunk a L p -> forall j, 0 <= j < 4 /\ j <> i -> dma_requested d' j = false).
  { intros d' p Ha' j [Hj Hne]. destruct (dma_requested d' j) eqn:E; [|done]. by apply (ac_only _ _ _ _ _ _ Ha') in E. }
  set (d2 := moved d1 i (pos + n) (pos + n =? L)).
  assert (Ha2 : active d2 i chunk a L (pos + n)) by (apply (active_moved d1 i chunk a L pos); [done|lia]).
  assert (E : run_channels (l1 ++ i :: l2) false (d1, w) = Done (true, (d2, w ++ block d a pos n))).
  { rewrite skip_channels by (intros j Hj; by apply (Hno d1 pos Ha1), H1). cbn [run_channels fst].
    rewrite (proj2 (ac_only _ _ _ _ _ _ Ha1 i Hi) eq_refl).
    rewrite (st_bind_done _ _ _ _ _ (channel_run_active d1 w i chunk a L pos Ha1 Hc)). fold n. change (block d1 a pos n) with (block d a pos n).
    rewrite <- (app_nil_r l2), skip_channels by (intros j Hj; by apply (Hno d2 (pos + n) Ha2), H2). done. }
  rewrite (st_bind_done _ _ _ _ _ E). unfold modify, on_dma. cbn [fst snd]. do 4 f_equal. unfold d2, moved, d1. by destruct (pos + n =? L).
Qed.

Fixpoint dma_runs (k : nat) : ST (I8257State Z * list Z) unit :=
  match k with O => mret tt | S k => _ ← dma_runs k; i8257_dma_run end.

Lemma block_app d a pos n m : 0 <= a -> 0 <= pos -> 0 <= n -> 0 <= m -> block d a pos n ++ block d a (pos + n) m = block d a pos (n + m).
Proof.
  intros Ha Hp Hn Hm. unfold block. set (b := Z.to_nat (a + pos)). assert (Z.to_nat (a + (pos + n)) = (b + Z.to_nat n)%nat) as -> by lia.
  assert (Z.to_nat (n + m) = (Z.to_nat n + Z.to_nat m)%nat) as -> by lia. by rewrite <- drop_drop, take_take_drop.
Qed.
Lemma active_len d i chunk a L pos : active d i chunk a L pos -> 1 <= L.
Proof.
  intros Ha. pose proof (ac_chan _ _ _ _ _ _ Ha) as Hi. rewrite <- (ac_len _ _ _ _ _ _ Ha). unfold dma_len.
  pose proof (dw_base d (ac_wf _ _ _ _ _ _ Ha) i COUNT Hi ltac:(unfold COUNT; lia)) as Hb. unfold inw in Hb.
  assert (Hs : 0 <= dshift d) by (destruct (dw_shift d (ac_wf _ _ _ _ _ _ Ha)) as [-> | ->]; lia).
  rewrite Z.shiftl_mul_pow2 by done. pose proof (Z.pow_pos_nonneg 2 (dshift d)). nia.
Qed.
Lemma moved_run d i n full j : 0 <= i < 4 -> 0 <= j < 8 ->
  let d' := schedule (set_running 0 (moved d i n full)) in
  running d' = 0 /\ phys_mem d' = phys_mem d /\
  Z.testbit (status d') j = Z.testbit (status d) j || (full && bool_decide (j = i)).
Proof. intros Hi Hj. cbv zeta. rewrite <- (status_moved d i n full j) by done. by destruct full. Qed.

(** C35. A device that keeps requesting the channel receives exactly the bytes of
    guest memory the channel was programmed for, in order: after [k] runs it has
    the first [min (k * chunk) L] of them, the current count says so, the transfer
    reports the terminal count in the status register exactly when all [L] have
    been delivered, and further runs deliver nothing more. *)
Theorem dma_delivers d w i chunk a L (k : nat) : active d i chunk a L 0 -> running d = 0 -> 0 < chunk ->
  let n := Z.min (Z.of_nat k * chunk) L in
  exists d', dma_runs k (d, w) = Done (tt, (d', w ++ block d a 0 n)) /\ active d' i chunk a L n /\
    running d' = 0 /\ phys_mem d' = phys_mem d /\
    Z.testbit (status d') i = Z.testbit (status d) i || (L <=? Z.of_nat k * chunk).
Proof.
  intros Ha Hrun Hc. pose proof (active_len _ _ _ _ _ _ Ha) as HL. pose proof (ac_chan _ _ _ _ _ _ Ha) as Hi.
  induction k as [|k IH]; cbv zeta.
  - exists d. replace (Z.min _ L) with 0 by lia. destruct (Z.leb_spec L (Z.of_nat 0 * chunk)); [lia|].
    rewrite orb_false_r. unfold block. cbn. by rewrite app_nil_r.
  - destruct IH as (d1 & E & Ha1 & Hr1 & Hm1 & Hs1). set (p := Z.min (Z.of_nat k * chunk) L) in *. cbn [dma_runs].
    assert (Hp : 0 <= p <= L) by (unfold p; nia).
    rewrite (st_bind_done _ _ _ _ _ E), (dma_run_active d1 _ i chunk a L p Ha1 Hr1 Hc).
    set (m := Z.min chunk (L - p)). assert (Hm : 0 <= m /\ p + m <= L) by (unfold m; lia).
    assert (Epm : Z.min (Z.of_nat (S k) * chunk) L = p + m) by (unfold m, p; nia). rewrite Epm.
    exists (schedule (set_running 0 (moved d1 i (p + m) (p + m =? L)))). split; [|split; [apply active_schedule, active_running, (active_moved d1 i chunk a L p); [done|lia]|]].
    + rewrite <- app_assoc. assert (block d1 a p m = block d a p m) as -> by (unfold block; by rewrite Hm1).
      destruct (ac_mem _ _ _ _ _ _ Ha). rewrite <- (Z.add_0_l p) at 2. rewrite block_app by lia. done.
    + destruct (moved_run d1 i (p + m) (p + m =? L) i Hi ltac:(lia)) as (E1 & E2 & E3).
      split; [exact E1|]. split; [by rewrite E2|]. rewrite E3, Hs1, bool_decide_true, andb_true_r, <- orb_assoc by done. f_equal.
      destruct (Z.leb_spec L (Z.of_nat k * chunk)), (Z.eqb_spec (p + m) L), (Z.leb_spec L (Z.of_nat (S k) * chunk)); try done; unfold p, m in *; nia.
Qed.

(** A channel that reads four bytes at address 2 of an eight-byte memory, two at a time. *)
Definition sample_regs : I8257Regs Z := mkRegs [2; 0] [2; 3] 0x48 0 0 (Some 2).
Definition sample_dma : I8257State Z := (i8257_new [10; 11; 12; 13; 14; 15; 16; 17] 0) <| status := 0x20 |>
  <| regs := [mkRegs [0; 0] [0; 0] 0 0 0 None; sample_regs; mkRegs [0; 0] [0; 0] 0 0 0 None; mkRegs [0; 0] [0; 0] 0 0 0 None] |>.
End Reader.

Ltac by_channel i := assert (i = 0 \/ i = 1 \/ i = 2 \/ i = 3) as [-> |[-> |[-> | ->]]] by lia.
Lemma sample_wf : dma_wf sample_dma.
Proof.
  constructor; [by left|done| |].
  - intros i Hi. by_channel i; done.
  - intros i k Hi Hk. assert (k = 0 \/ k = 1) as [-> | ->] by lia; by_channel i; by vm_compute.
Qed.
Lemma sample_active : active sample_dma 1 2 2 4 0.
Proof.
  constructor; try done; try exact sample_wf; try (cbn; lia).
  intros j Hj. by_channel j; cbn; split; done || lia.
Qed.

Lemma program_read_back_witness : exists d', program sample_dma 3 0x34 0x12 0xff 0x01 = Done d' /\
  read_registers d' 3 = Done ([0x34; 0x12; 0xff; 0x01], d').
Proof.
  destruct (program_read_back sample_dma 3 0x34 0x12 0xff 0x01) as (d' & E & Er & _);
    [exact sample_wf|done|lia|unfold inw; lia|unfold inw; lia|unfold inw; lia|unfold inw; lia|].
  exists d'. by split.
Defined.
Lemma dma_delivers_witness : exists d', dma_runs 2 (sample_dma, []) = Done (tt, (d', [12; 13; 14; 15])) /\
  Z.testbit (status d') 1 = true.
Proof.
  destruct (dma_delivers sample_dma [] 1 2 2 4 2 sample_active eq_refl ltac:(lia)) as (d' & E & _ & _ & _ & Es).
  exists d'. by split.
Defined.

End Dma.
