(* ===== verification/Pci.v ===== *)
(** * Pci: the PCI bus and the i440FX host bridge (winspire/pci.c)

    [PCIBus K] holds up to 256 devices with their configuration space and regions;
    the host bridge is the pair of ports 0xcf8 and 0xcfc.  A region names its
    [bar_set] callback by [K], which the class [BarClient] interprets on the rest of
    the machine [W]; [set_pci_vga_bar] of winspire/pc.c is the one client there is. *)

From S2P Require Import Prelude.

Module Pci.

Definition PCI_ADDRESS_SPACE_MEM : Z := 0.
Definition PCI_ADDRESS_SPACE_IO : Z := 1.
Definition PCI_ROM_SLOT : Z := 6.
Definition PCI_NUM_REGIONS : Z := 7.
Definition PCI_COMMAND : Z := 4.
Definition PCI_STATUS : Z := 6.
Definition PCI_CAPABILITY_LIST : Z := 0x34.
Definition PCI_INTERRUPT_LINE : Z := 0x3c.
Definition PCI_INTERRUPT_PIN : Z := 0x3d.

(** [None] is a null [bar_set]. *)
Record PCIIORegion (K : Type) := mkRegion { size : Z; type : Z; enabled : bool; callback : option K }.
Arguments mkRegion {K}. Arguments size {K} _. Arguments type {K} _. Arguments enabled {K} _. Arguments callback {K} _.
#[export] Instance eta_region K : Eta (PCIIORegion K) := fun r => mkRegion (size r) (type r) (enabled r) (callback r).
#[export] Instance region_inhabited K : Inhabited (PCIIORegion K) := populate (mkRegion 0 0 false None).

Record PCIDevice (K : Type) := mkDevice { devfn : Z; config : list Z; next_cap_offset : Z; io_regions : list (PCIIORegion K) }.
Arguments mkDevice {K}. Arguments devfn {K} _. Arguments config {K} _. Arguments next_cap_offset {K} _. Arguments io_regions {K} _.
#[export] Instance eta_device K : Eta (PCIDevice K) := fun d => mkDevice (devfn d) (config d) (next_cap_offset d) (io_regions d).

Record PCIBus (K : Type) := mkBus { bus_num : Z; device : list (option (PCIDevice K)) }.
Arguments mkBus {K}. Arguments bus_num {K} _. Arguments device {K} _.
#[export] Instance eta_bus K : Eta (PCIBus K) := fun b => mkBus (bus_num b) (device b).

(** The PIIX3 bridge is known by its slot. *)
Record I440FXState (K : Type) := mkI440FX { pci_bus : PCIBus K; piix3_devfn : Z; config_reg : Z }.
Arguments mkI440FX {K}. Arguments pci_bus {K} _. Arguments piix3_devfn {K} _. Arguments config_reg {K} _.
#[export] Instance eta_i440fx K : Eta (I440FXState K) := fun s => mkI440FX (pci_bus s) (piix3_devfn s) (config_reg s).

(** [bar_set (opaque, bar_num, addr, enabled)] *)
Class BarClient (K W : Type) := bar_set : K -> Z -> Z -> bool -> W -> W.

(** ** Little-endian fields *)

Definition get_le16 (l : list Z) (i : Z) : outcome Z := a ← rd l i; b ← rd l (i + 1); Done (Z.lor a (Z.shiftl b 8)).
Definition get_le32 (l : list Z) (i : Z) : outcome Z :=
  a ← rd l i; b ← rd l (i + 1); c ← rd l (i + 2); d ← rd l (i + 3);
  Done (Z.lor (Z.lor (Z.lor a (Z.shiftl b 8)) (Z.shiftl c 16)) (Z.shiftl d 24)).
Definition put_le16 (l : list Z) (i v : Z) : outcome (list Z) := l ← wr l i (u8 v); wr l (i + 1) (u8 (Z.shiftr v 8)).
Definition put_le32 (l : list Z) (i v : Z) : outcome (list Z) :=
  l ← wr l i (u8 v); l ← wr l (i + 1) (u8 (Z.shiftr v 8)); l ← wr l (i + 2) (u8 (Z.shiftr v 16)); wr l (i + 3) (u8 (Z.shiftr v 24)).

Section Bus.
Context {K W : Type} `{BarClient K W}.
Implicit Types d : PCIDevice K.
Implicit Types b : PCIBus K.

(** ** Devices *)

Definition bus_map_irq d (irq_num : Z) : Z := Z.land (irq_num + (Z.shiftr (devfn d) 3 - 1)) 3.

(** The first free slot of [l], or -1. *)
Fixpoint first_free (l : list Z) b : outcome Z :=
  match l with
  | [] => Done (-1)
  | n :: l => x ← rd (device b) n; match x with None => Done n | Some _ => first_free l b end
  end.
Definition devfn_alloc b : outcome Z := first_free ((fun k => 8 * Z.of_nat k) <$> seq 0 32) b.

(** The slot of the new device, or [None]. *)
Definition pci_register_device (b : PCIBus K) (n vendor_id device_id revision class_id : Z) : outcome (option (Z * PCIBus K)) :=
  n ← (if n <? 0 then devfn_alloc b else Done n);
  if n <? 0 then Done None else
  x ← rd (device b) n;
  match x with
  | Some _ => Done None
  | None =>
      c ← put_le16 (replicate 256 0) 0x00 vendor_id; c ← put_le16 c 0x02 device_id;
      c ← wr c 0x08 (u8 revision); c ← put_le16 c 0x0a class_id; c ← wr c 0x0e 0;
      Done (Some (n, b <| device := arr_set (device b) n (Some (mkDevice (u8 n) c 0x40 (replicate 7 (mkRegion 0 0 false None)))) |>))
  end.

Definition pci_device_config_read d (addr size_log2 : Z) : outcome Z :=
  if size_log2 =? 0 then rd (config d) addr
  else if size_log2 =? 1 then if addr <=? 0xfe then get_le16 (config d) addr else rd (config d) addr
  else if size_log2 =? 2 then get_le32 (config d) addr else Stuck Aborted.

Definition bar_offset (i : Z) : Z := if i =? PCI_ROM_SLOT then 0x30 else 0x10 + i * 4.
Definition pci_register_bar (bar_num sz ty : Z) (k : K) d : outcome (PCIDevice K) :=
  if negb (bar_num <? PCI_NUM_REGIONS) || nz (Z.land sz (sz - 1)) || (sz <? 4) then Stuck Aborted else
  r ← rd (io_regions d) bar_num;
  if nz (size r) then Stuck Aborted else
  c ← put_le32 (config d) (bar_offset bar_num) (if bar_num =? PCI_ROM_SLOT then 0 else u8 ty);
  Done (d <| io_regions := arr_set (io_regions d) bar_num (mkRegion sz (u8 ty) false (Some k)) |> <| config := c |>).

(** Whether a region answers, from the command register and its base address. *)
Definition decodes (cmd i new_addr : Z) (r : PCIIORegion K) : bool :=
  nz (size r) &&
  (if nz (Z.land (type r) PCI_ADDRESS_SPACE_IO) && Z.testbit cmd 0 then true
   else Z.testbit cmd 1 && (if i =? PCI_ROM_SLOT then Z.testbit new_addr 0 else true)).
(** [x & ~(size - 1)] *)
Definition bar_base (sz x : Z) : Z := Z.land x (u32 (Z.lnot (sz - 1))).

Definition call_bar (k : option K) (i addr : Z) (en : bool) (w : W) : outcome W :=
  match k with Some k => Done (bar_set k i addr en w) | None => Stuck OutOfBounds end.
Definition update_region (cmd i : Z) (s : PCIDevice K * W) : outcome (PCIDevice K * W) :=
  let '(d, w) := s in
  r ← rd (io_regions d) i; a ← get_le32 (config d) (bar_offset i);
  let set (en : bool) := d <| io_regions := arr_set (io_regions d) i (r <| enabled := en |>) |> in
  if decodes cmd i a r then w ← call_bar (callback r) i (bar_base (size r) a) true w; Done (set true, w)
  else if enabled r then w ← call_bar (callback r) i 0 false w; Done (set false, w)
  else Done (d, w).
Fixpoint update_regions (cmd : Z) (l : list Z) (s : PCIDevice K * W) : outcome (PCIDevice K * W) :=
  match l with [] => Done s | i :: l => s ← update_region cmd i s; update_regions cmd l s end.
Definition pci_update_mappings (s : PCIDevice K * W) : outcome (PCIDevice K * W) :=
  cmd ← get_le16 (config s.1) PCI_COMMAND; update_regions cmd [0; 1; 2; 3; 4; 5; 6] s.

(** The result tells whether the write was handled. *)
Definition pci_write_bar (addr v : Z) (s : PCIDevice K * W) : outcome (bool * (PCIDevice K * W)) :=
  let '(d, w) := s in
  let reg := if addr =? 0x30 then PCI_ROM_SLOT else Z.shiftr (u32 (addr - 0x10)) 2 in
  r ← rd (io_regions d) reg;
  if size r =? 0 then Done (false, s) else
  let v := if reg =? PCI_ROM_SLOT then Z.land v (Z.lor (u32 (Z.lnot (size r - 1))) 1)
           else Z.lor (Z.land v (u32 (Z.lnot (size r - 1)))) (type r) in
  c ← put_le32 (config d) addr v;
  s ← pci_update_mappings (d <| config := c |>, w); Done (true, s).

(** Registers a byte write leaves alone, by header type. *)
Definition fixed_register (header addr : Z) : bool :=
  bool_decide (addr ∈ [0; 1; 2; 3; 8; 9; 0x0a; 0x0b; 0x0e; 0x3d]) ||
  (if (header =? 0) || (header =? 0x80) then ((0x10 <=? addr) && (addr <=? 0x27)) || ((0x30 <=? addr) && (addr <=? 0x33))
   else (0x38 <=? addr) && (addr <=? 0x3b)).
Definition pci_device_config_write8 (addr data : Z) d : outcome (PCIDevice K) :=
  if (addr =? PCI_STATUS) || (addr =? PCI_STATUS + 1) then
    x ← rd (config d) addr; Done (d <| config := arr_set (config d) addr (Z.land x (Z.lnot data)) |>)
  else
    header ← rd (config d) 0x0e;
    if fixed_register header addr then Done d else c ← wr (config d) addr (u8 data); Done (d <| config := c |>).
Fixpoint config_write_bytes (n : nat) (addr data : Z) d : outcome (PCIDevice K) :=
  match n with
  | O => Done d
  | S n =>
      d ← (if addr <=? 0xff then pci_device_config_write8 addr (Z.land data 0xff) d else Done d);
      config_write_bytes n (addr + 1) (Z.shiftr data 8) d
  end.
Definition pci_device_config_write (addr data size_log2 : Z) (s : PCIDevice K * W) : outcome (PCIDevice K * W) :=
  '(handled, s) ← (if (size_log2 =? 2) && (((0x10 <=? addr) && (addr <? 0x10 + 4 * 6)) || (addr =? 0x30))
                   then pci_write_bar addr data s else Done (false, s));
  if handled : bool then Done s else
  let n := Z.shiftl 1 size_log2 in
  d ← config_write_bytes (Z.to_nat n) addr data s.1;
  if (addr <=? PCI_COMMAND) && (PCI_COMMAND <? addr + n) then pci_update_mappings (d, s.2) else Done (d, s.2).

(** ** The bus *)

Definition pci_data_write b (addr data size_log2 : Z) (w : W) : outcome (PCIBus K * W) :=
  if negb (Z.land (Z.shiftr addr 16) 0xff =? bus_num b) then Done (b, w) else
  let n := Z.land (Z.shiftr addr 8) 0xff in
  x ← rd (device b) n;
  match x with
  | None => Done (b, w)
  | Some d => '(d, w) ← pci_device_config_write (Z.land addr 0xff) data size_log2 (d, w); Done (b <| device := arr_set (device b) n (Some d) |>, w)
  end.
Definition val_ones : list Z := [0xff; 0xffff; 0xffffffff].
Definition pci_data_read b (addr size_log2 : Z) : outcome Z :=
  if negb (Z.land (Z.shiftr addr 16) 0xff =? bus_num b) then rd val_ones size_log2 else
  x ← rd (device b) (Z.land (Z.shiftr addr 8) 0xff);
  match x with None => rd val_ones size_log2 | Some d => pci_device_config_read d (Z.land addr 0xff) size_log2 end.

Definition pci_device_set_config8 (addr v : Z) d : outcome (PCIDevice K) := c ← wr (config d) addr (u8 v); Done (d <| config := c |>).
Definition pci_device_set_config16 (addr v : Z) d : outcome (PCIDevice K) := c ← put_le16 (config d) addr v; Done (d <| config := c |>).
Definition pci_device_get_devfn d : Z := devfn d.
(** [memcpy] into the configuration space *)
Fixpoint put_all (l : list Z) (i : Z) (v : list Z) : outcome (list Z) :=
  match v with [] => Done l | x :: v => l ← wr l i x; put_all l (i + 1) v end.
Definition pci_add_capability (buf : list Z) d : outcome (Z * PCIDevice K) :=
  let offset := next_cap_offset d in
  if 256 <? offset + alen buf then Done (-1, d) else
  x ← rd (config d) PCI_STATUS; c ← wr (config d) PCI_STATUS (Z.lor x (Z.shiftl 1 4));
  c ← put_all c offset buf; y ← rd c PCI_CAPABILITY_LIST; c ← wr c (offset + 1) y; c ← wr c PCI_CAPABILITY_LIST (u8 offset);
  Done (offset, d <| config := c |> <| next_cap_offset := u8 (offset + alen buf) |>).

(** ** The host bridge *)

(** Update the device of a slot that is known to be taken. *)
Definition at_device (n : Z) (f : PCIDevice K -> outcome (PCIDevice K)) b : outcome (PCIBus K) :=
  x ← rd (device b) n; match x with None => Stuck OutOfBounds | Some d => d ← f d; Done (b <| device := arr_set (device b) n (Some d) |>) end.
Definition registered (o : option (Z * PCIBus K)) : outcome (Z * PCIBus K) := match o with Some r => Done r | None => Stuck OutOfBounds end.

Definition i440fx_write_addr (data : Z) (s : I440FXState K) : I440FXState K := s <| config_reg := data |>.
Definition i440fx_read_addr (s : I440FXState K) : Z := config_reg s.
Definition config_address (offset size_log2 : Z) (s : I440FXState K) : Z :=
  if size_log2 =? 2 then Z.land (config_reg s) (u32 (Z.lnot 3)) else Z.lor (config_reg s) offset.
Definition i440fx_write_data (offset data size_log2 : Z) (s : I440FXState K * W) : outcome (I440FXState K * W) :=
  let '(s, w) := s in
  if Z.testbit (config_reg s) 31 then
    '(b, w) ← pci_data_write (pci_bus s) (config_address offset size_log2 s) data size_log2 w; Done (s <| pci_bus := b |>, w)
  else Done (s, w).
Definition i440fx_read_data (offset size_log2 : Z) (s : I440FXState K) : outcome Z :=
  if Z.testbit (config_reg s) 31 then pci_data_read (pci_bus s) (config_address offset size_log2 s) size_log2
  else rd val_ones size_log2.
Definition i440fx_init : outcome (I440FXState K) :=
  r ← pci_register_device (mkBus 0 (replicate 256 None)) 0 0x8086 0x1237 0x02 0x0600; '(n, b) ← registered r;
  b ← at_device n (fun d => c ← put_le16 (config d) 0x2c 0x1af4; c ← put_le16 c 0x2e 0x1100; Done (d <| config := c |>)) b;
  r ← pci_register_device b 8 0x8086 0x7000 0x00 0x0601; '(n, b) ← registered r;
  b ← at_device n (pci_device_set_config8 0x0e 0x80) b;
  Done (mkI440FX b n 0).

(** [elcr] is the pair of edge/level registers of the interrupt controllers. *)
Fixpoint route_irqs (i : Z) (irqs : list Z) (elcr : Z * Z) d : outcome ((Z * Z) * PCIDevice K) :=
  match irqs with
  | [] => Done (elcr, d)
  | irq :: irqs =>
      d ← pci_device_set_config8 (0x60 + i) irq d;
      let m := Z.shiftl 1 (Z.land irq 7) in
      elcr ← (if Z.shiftr irq 3 =? 0 then Done (u8 (Z.lor elcr.1 m), elcr.2)
              else if Z.shiftr irq 3 =? 1 then Done (elcr.1, u8 (Z.lor elcr.2 m)) else Stuck OutOfBounds);
      route_irqs (i + 1) irqs elcr d
  end.
Definition set_interrupt_line (hd : PCIDevice K) d : outcome (PCIDevice K) :=
  pin ← rd (config d) PCI_INTERRUPT_PIN;
  if pin =? 0 then Done d else
  pic_irq ← rd (config hd) (0x60 + bus_map_irq d 0);
  if pic_irq <? 16 then pci_device_set_config8 PCI_INTERRUPT_LINE pic_irq d else Done d.
Fixpoint set_interrupt_lines (n : Z) (l : list Z) b : outcome (PCIBus K) :=
  match l with
  | [] => Done b
  | i :: l =>
      hd ← rd (device b) n; x ← rd (device b) i;
      b ← (match hd, x with
           | Some hd, Some d => d ← set_interrupt_line hd d; Done (b <| device := arr_set (device b) i (Some d) |>)
           | _, _ => Done b
           end);
      set_interrupt_lines n l b
  end.
Definition i440fx_map_interrupts (pci_irqs : list Z) (s : I440FXState K) : outcome ((Z * Z) * I440FXState K) :=
  x ← rd (device (pci_bus s)) (piix3_devfn s);
  match x with
  | None => Stuck OutOfBounds
  | Some hd =>
      '(elcr, hd) ← route_irqs 0 pci_irqs (0, 0) hd;
      b ← (let b := pci_bus s in set_interrupt_lines (piix3_devfn s) (Z.of_nat <$> seq 0 256) (b <| device := arr_set (device b) (piix3_devfn s) (Some hd) |>));
      Done (elcr, s <| pci_bus := b |>)
  end.

(** ** The devices of the machine (winspire/ide.c, winspire/vga.c) *)

Definition piix3_ide_init (n : Z) b : outcome (Z * PCIBus K) :=
  r ← pci_register_device b n 0x8086 0x7010 0x00 0x0101; '(n, b) ← registered r;
  b ← at_device n (pci_device_set_config8 0x09 0x00) b; Done (n, b).
(** The least power of two from [bar_size] on that covers the memory. *)
Fixpoint grow (fuel : nat) (bar_size ram : Z) : outcome Z :=
  if bar_size <? ram then match fuel with O => Stuck Diverges | S fuel => grow fuel (u32 (Z.shiftl bar_size 1)) ram end else Done bar_size.
Definition vga_pci_init (ram : Z) (k : K) b : outcome (Z * PCIBus K) :=
  r ← pci_register_device b (-1) 0x1234 0x1111 0x00 0x0300; '(n, b) ← registered r;
  sz ← grow 33 1 ram;
  b ← at_device n (pci_register_bar 0 sz PCI_ADDRESS_SPACE_MEM k) b; Done (n, b).

End Bus.

(** ** The display memory of the machine (winspire/pc.c)

    [W] is [pci_vga_ram_addr]; [cpu_register_mem] does nothing without KVM. *)

Definition NOT_MAPPED : Z := 0xffffffff.
#[export] Instance set_pci_vga_bar : BarClient unit Z := fun _ _ addr en _ => if en : bool then addr else NOT_MAPPED.
Definition VBE_LFB_ADDR : Z := 0xe0000000.
Definition pci_vga_addr (vga_addr vga_mem_size addr : Z) : option Z :=
  if negb (vga_addr =? NOT_MAPPED) && (vga_addr <=? addr) && (addr - vga_addr <? vga_mem_size) then Some (addr - vga_addr)
  else if (VBE_LFB_ADDR <=? addr) && (addr - VBE_LFB_ADDR <? vga_mem_size) then Some (addr - VBE_LFB_ADDR) else None.
(** What [pc_new] does with the bus. *)
Definition pc_pci_init (ram : Z) : outcome (I440FXState unit * Z) :=
  s ← i440fx_init; '(_, b) ← piix3_ide_init (piix3_devfn s + 1) (pci_bus s); '(_, b) ← vga_pci_init ram tt b;
  Done (s <| pci_bus := b |>, NOT_MAPPED).

(** ** Arrays of bytes *)

Definition le16v (l : list Z) (i : Z) : Z := Z.lor (arr l i) (Z.shiftl (arr l (i + 1)) 8).
Definition le32v (l : list Z) (i : Z) : Z :=
  Z.lor (Z.lor (Z.lor (arr l i) (Z.shiftl (arr l (i + 1)) 8)) (Z.shiftl (arr l (i + 2)) 16)) (Z.shiftl (arr l (i + 3)) 24).
Definition set16 (l : list Z) (i v : Z) : list Z := arr_set (arr_set l i (u8 v)) (i + 1) (u8 (Z.shiftr v 8)).
Definition set32 (l : list Z) (i v : Z) : list Z :=
  arr_set (arr_set (arr_set (arr_set l i (u8 v)) (i + 1) (u8 (Z.shiftr v 8))) (i + 2) (u8 (Z.shiftr v 16))) (i + 3) (u8 (Z.shiftr v 24)).
(** A configuration space. *)
Definition space (l : list Z) : Prop := alen l = 256 /\ forall j, inw 8 (arr l j).

Lemma get_le16_in l i : 0 <= i -> i + 1 < alen l -> get_le16 l i = Done (le16v l i).
Proof. intros H0 H1. unfold get_le16. by rewrite !rd_in by lia. Qed.
Lemma get_le32_in l i : 0 <= i -> i + 3 < alen l -> get_le32 l i = Done (le32v l i).
Proof. intros H0 H1. unfold get_le32. by rewrite !rd_in by lia. Qed.
Lemma put_le16_in l i v : 0 <= i -> i + 1 < alen l -> put_le16 l i v = Done (set16 l i v).
Proof. intros H0 H1. unfold put_le16. rewrite wr_in by lia. cbn. by rewrite wr_in by (rewrite alen_set; lia). Qed.
Lemma put_le32_in l i v : 0 <= i -> i + 3 < alen l -> put_le32 l i v = Done (set32 l i v).
Proof.
  intros H0 H1. unfold put_le32. rewrite wr_in by lia. cbn. rewrite wr_in by (rewrite alen_set; lia). cbn.
  rewrite wr_in by (rewrite !alen_set; lia). cbn. by rewrite wr_in by (rewrite !alen_set; lia).
Qed.
Lemma space_set l i v : space l -> inw 8 v -> space (arr_set l i v).
Proof.
  intros [Hl Hb] Hv. split; [by rewrite alen_set|]. intros j. unfold arr, arr_set. rewrite list_lookup_total_insert. case_decide; [done|apply Hb].
Qed.
Lemma space_set16 l i v : space l -> space (set16 l i v).
Proof. intros Hl. unfold set16. do 2 (apply space_set; [|apply inw_u8]). done. Qed.
Lemma space_set32 l i v : space l -> space (set32 l i v).
Proof. intros Hl. unfold set32. do 4 (apply space_set; [|apply inw_u8]). done. Qed.
Lemma set32_other l i v j : 0 <= i -> 0 <= j -> j < i \/ i + 3 < j -> arr (set32 l i v) j = arr l j.
Proof. intros Hi Hj Ho. unfold set32. by rewrite !arr_set_ne by lia. Qed.

(** The four bytes of a word, put together again. *)
Lemma word_of_bytes v : inw 32 v ->
  Z.lor (Z.lor (Z.lor (u8 v) (Z.shiftl (u8 (Z.shiftr v 8)) 8)) (Z.shiftl (u8 (Z.shiftr v 16)) 16)) (Z.shiftl (u8 (Z.shiftr v 24)) 24) = v.
Proof.
  intros Hv. apply (bits_ext 32); [lia| |done|].
  - repeat apply inw_lor; first [apply (inw_mono 8); [apply inw_u8|lia]|apply (inw_mono (8 + 8)); [apply inw_shiftl; [lia|apply inw_u8]|lia]
      |apply (inw_mono (8 + 16)); [apply inw_shiftl; [lia|apply inw_u8]|lia]|apply (inw_shiftl 8 24); [lia|apply inw_u8]].
  - intros i Hi. rewrite !Z.lor_spec. unfold u8.
    destruct (Z.lt_ge_cases i 8); [rewrite Z.mod_pow2_bits_low, !Z.shiftl_spec_low by lia; by rewrite !orb_false_r|].
    rewrite Z.mod_pow2_bits_high by lia. rewrite Z.shiftl_spec by lia.
    destruct (Z.lt_ge_cases i 16); [rewrite Z.mod_pow2_bits_low, Z.shiftr_spec, !Z.shiftl_spec_low by lia; rewrite !orb_false_r; cbn; f_equal; lia|].
    rewrite Z.mod_pow2_bits_high by lia. rewrite !(Z.shiftl_spec _ 16) by lia.
    destruct (Z.lt_ge_cases i 24); [rewrite Z.mod_pow2_bits_low, Z.shiftr_spec, !Z.shiftl_spec_low by lia; rewrite !orb_false_r; cbn; f_equal; lia|].
    rewrite Z.mod_pow2_bits_high by lia. rewrite Z.shiftl_spec, Z.mod_pow2_bits_low, Z.shiftr_spec by lia. cbn. f_equal. lia.
Qed.
Lemma le32v_set32 l i v : 0 <= i -> i + 3 < alen l -> inw 32 v -> le32v (set32 l i v) i = v.
Proof.
  intros Hi Hl Hv. unfold le32v, set32.
  rewrite (arr_set_eq _ (i + 3)) by (rewrite !alen_set; lia). rewrite (arr_set_ne _ (i + 3) (i + 2)) by lia. rewrite (arr_set_eq _ (i + 2)) by (rewrite !alen_set; lia).
  rewrite !(arr_set_ne _ (i + 3)) by lia. rewrite !(arr_set_ne _ (i + 2)) by lia. rewrite (arr_set_eq _ (i + 1)) by (rewrite !alen_set; lia).
  rewrite (arr_set_ne _ (i + 1)) by lia. rewrite arr_set_eq by lia. by apply word_of_bytes.
Qed.
Lemma le32v_other l l' i : (forall j, i <= j <= i + 3 -> arr l' j = arr l j) -> le32v l' i = le32v l i.
Proof. intros E. unfold le32v. by rewrite !E by lia. Qed.

(** ** Regions and what the machine maps *)

(** What a client promises: it maps a region where it is told, and no other one. *)
Class BarLaws (K W : Type) `{BarClient K W} := {
  mapped : W -> K -> option Z;
  mapped_set k i a (en : bool) w : inw 32 a -> a mod 4 = 0 -> mapped (bar_set k i a en w) k = if en then Some a else None;
  mapped_other k i a en w k' : k <> k' -> mapped (bar_set k i a en w) k' = mapped w k';
}.

Section Mappings.
Context {K W : Type} `{BarLaws K W}.
Implicit Types d : PCIDevice K.
Implicit Types w : W.

Definition region d (i : Z) : PCIIORegion K := arr (io_regions d) i.
Definition bar d (i : Z) : Z := le32v (config d) (bar_offset i).
Definition command d : Z := le16v (config d) PCI_COMMAND.

Record region_ok (r : PCIIORegion K) : Prop := {
  ro_size : size r = 0 \/ exists p, 2 <= p < 32 /\ size r = 2 ^ p;
  ro_type : inw 8 (type r);
  ro_call : size r <> 0 -> is_Some (callback r);
  ro_none : size r = 0 -> enabled r = false /\ callback r = None;
}.
(** A device of this machine: its header is that of an ordinary function. *)
Record device_ok d : Prop := {
  do_space : space (config d);
  do_header : arr (config d) 0x0e = 0 \/ arr (config d) 0x0e = 0x80;
  do_regions : alen (io_regions d) = 7;
  do_region : forall i, 0 <= i < 7 -> region_ok (region d i);
  do_unique : forall i j k, 0 <= i < 7 -> 0 <= j < 7 -> callback (region d i) = Some k -> callback (region d j) = Some k -> i = j;
}.
(** A region the machine has not been told of is not mapped. *)
Definition tracks d w : Prop := forall i k, 0 <= i < 7 -> callback (region d i) = Some k -> enabled (region d i) = false -> mapped w k = None.
(** The machine maps region [i] where its base address says, if it is decoded. *)
Definition agrees_at d w (i : Z) : Prop := forall k, callback (region d i) = Some k ->
  enabled (region d i) = decodes (command d) i (bar d i) (region d i) /\
  mapped w k = if enabled (region d i) then Some (bar_base (size (region d i)) (bar d i)) else None.
Definition agrees d w : Prop := forall i, 0 <= i < 7 -> agrees_at d w i.
Lemma agrees_tracks d w : agrees d w -> tracks d w.
Proof. intros Ha i k Hi Hk He. destruct (Ha i Hi k Hk) as [_ ->]. by rewrite He. Qed.

(** Two devices that differ in configuration space and enabled bits. *)
Definition same_regions d d' : Prop :=
  devfn d' = devfn d /\ next_cap_offset d' = next_cap_offset d /\ alen (io_regions d') = alen (io_regions d) /\
  forall i, size (region d' i) = size (region d i) /\ type (region d' i) = type (region d i) /\ callback (region d' i) = callback (region d i).
(** The other regions of the machine. *)
Definition elsewhere d w w' : Prop := forall k, (forall i, 0 <= i < 7 -> callback (region d i) <> Some k) -> mapped w' k = mapped w k.

#[local] Instance same_regions_preorder : PreOrder same_regions.
Proof.
  split; [by intros d|]. intros d d1 d2 (E1 & E2 & E3 & E4) (F1 & F2 & F3 & F4). split; [congruence|]. split; [congruence|]. split; [congruence|].
  intros i. destruct (E4 i) as (? & ? & ?), (F4 i) as (? & ? & ?). split; [congruence|]. split; congruence.
Qed.
Lemma elsewhere_same d d' w w' : same_regions d d' -> elsewhere d' w w' -> elsewhere d w w'.
Proof. intros (_ & _ & _ & Hs) He k Hk. apply He. intros i Hi. destruct (Hs i) as (_ & _ & ->). by apply Hk. Qed.

Lemma bar_base_word sz x : inw 32 (bar_base sz x).
Proof. apply inw_land_r, inw_u32. Qed.
Lemma bar_base_aligned p x : 2 <= p < 32 -> bar_base (2 ^ p) x mod 4 = 0.
Proof.
  intros Hp. unfold bar_base. change 4 with (2 ^ 2). apply Z.bits_inj'. intros i Hi. rewrite Z.testbit_0_l.
  destruct (Z.lt_ge_cases i 2); [|by rewrite Z.mod_pow2_bits_high by lia].
  rewrite Z.mod_pow2_bits_low, Z.land_spec by lia. unfold u32. rewrite Z.mod_pow2_bits_low, Z.lnot_spec by lia.
  replace (2 ^ p - 1) with (Z.ones p) by (rewrite Z.ones_equiv; lia). rewrite Z.ones_spec_low by lia. apply andb_false_r.
Qed.
Lemma decodes_size cmd i a (r : PCIIORegion K) : decodes cmd i a r = true -> size r <> 0.
Proof. unfold decodes, nz. destruct (Z.eqb_spec (size r) 0); [done|done]. Qed.
Lemma decodes_ext cmd i a (r r' : PCIIORegion K) : size r' = size r -> type r' = type r -> decodes cmd i a r' = decodes cmd i a r.
Proof. unfold decodes. by intros -> ->. Qed.

(** The enabled bit of one region. *)
Definition set_enabled (i : Z) (en : bool) d : PCIDevice K :=
  let r := region d i in d <| io_regions := arr_set (io_regions d) i (r <| enabled := en |>) |>.
Lemma region_set_enabled i en d j : device_ok d -> 0 <= i < 7 -> 0 <= j < 7 ->
  region (set_enabled i en d) j = if decide (j = i) then let r := region d i in r <| enabled := en |> else region d j.
Proof.
  intros Hd Hi Hj. pose proof (do_regions d Hd). unfold region at 1, set_enabled. cbn. destruct (decide (j = i)) as [->|]; [apply arr_set_eq; lia|apply arr_set_ne; lia].
Qed.
Lemma same_set_enabled i en d : same_regions d (set_enabled i en d).
Proof.
  split; [done|]. split; [done|]. split; [apply alen_set|]. intros j. unfold set_enabled, region. cbn. unfold arr, arr_set. rewrite list_lookup_total_insert.
  case_decide as E; [|done]. destruct E as [E _]. by rewrite E.
Qed.
Lemma ok_set_enabled i en d : device_ok d -> 0 <= i < 7 -> (size (region d i) = 0 -> en = false) -> device_ok (set_enabled i en d).
Proof.
  intros Hd Hi Hen. constructor; try apply Hd.
  - rewrite <- (do_regions d Hd). apply alen_set.
  - intros j Hj. rewrite region_set_enabled by done. destruct (decide (j = i)); [|by apply Hd]. destruct (do_region d Hd i Hi) as [? ? ? Hn].
    constructor; cbn; try done. intros E. split; [by apply Hen|]. by apply Hn.
  - intros j1 j2 k H1 H2. destruct (same_set_enabled i en d) as (_ & _ & _ & Hs). destruct (Hs j1) as (_ & _ & ->), (Hs j2) as (_ & _ & ->).
    by apply (do_unique d Hd).
Qed.
(** The machine is told of one region. *)
Lemma tell_region i d w w1 k (en : bool) a : device_ok d -> tracks d w -> 0 <= i < 7 -> callback (region d i) = Some k ->
  mapped w1 k = (if en then Some a else None) -> (forall k', k <> k' -> mapped w1 k' = mapped w k') ->
  tracks (set_enabled i en d) w1 /\ elsewhere d w w1 /\ forall j, 0 <= j < 7 -> j <> i -> agrees_at d w j -> agrees_at (set_enabled i en d) w1 j.
Proof.
  intros Hd Ht Hi Hk Hm Ho. split; [|split].
  - intros j k' Hj. rewrite region_set_enabled by done. destruct (decide (j = i)) as [->|Hne]; cbn.
    + intros E He. assert (k' = k) as -> by congruence. by rewrite Hm, He.
    + intros E He. rewrite Ho; [by apply (Ht j)|]. intros ->. by apply Hne, (do_unique d Hd j i k').
  - intros k' Hk'. apply Ho. intros ->. by apply (Hk' i Hi).
  - intros j Hj Hne Hag k'. rewrite region_set_enabled by done. destruct (decide (j = i)); [done|]. intros E.
    rewrite Ho; [by apply Hag|]. intros ->. by apply Hne, (do_unique d Hd j i k').
Qed.
(** One region: afterwards it agrees, and the others are as before. *)
Definition updated (i : Z) d w d' w' : Prop :=
  device_ok d' /\ tracks d' w' /\ config d' = config d /\ same_regions d d' /\ elsewhere d w w' /\
  agrees_at d' w' i /\ (forall j, 0 <= j < 7 -> j <> i -> agrees_at d w j -> agrees_at d' w' j).
Lemma told i d w k (en : bool) a : device_ok d -> tracks d w -> 0 <= i < 7 -> callback (region d i) = Some k -> size (region d i) <> 0 ->
  en = decodes (command d) i (bar d i) (region d i) -> a = (if en then bar_base (size (region d i)) (bar d i) else 0) ->
  updated i d w (set_enabled i en d) (bar_set k i a en w).
Proof.
  intros Hd Ht Hi Hk Hsz Hen Ha. destruct (do_region d Hd i Hi) as [[?|(p & Hp & Ep)] _ _ _]; [done|].
  assert (Hm : mapped (bar_set k i a en w) k = if en then Some a else None).
  { apply mapped_set; rewrite Ha; destruct en; [apply bar_base_word|by (split; [lia|apply pow2_pos; lia])|rewrite Ep; by apply bar_base_aligned|done]. }
  destruct (tell_region i d w _ k en a Hd Ht Hi Hk Hm) as (H1 & H2 & H3); [intros; by apply mapped_other|].
  split; [by apply ok_set_enabled|]. split; [done|]. split; [done|]. split; [apply same_set_enabled|]. split; [done|]. split; [|done].
  intros k'. rewrite region_set_enabled, decide_True by done. cbn. intros E. assert (k' = k) as -> by congruence.
  split; [by rewrite (decodes_ext _ _ _ (region d i))|]. rewrite Hm, Ha. by destruct en.
Qed.
Lemma update_region_ok i d w : device_ok d -> tracks d w -> 0 <= i < 7 ->
  exists d' w', update_region (command d) i (d, w) = Done (d', w') /\ updated i d w d' w'.
Proof.
  intros Hd Ht Hi. pose proof (proj1 (do_space d Hd)) as Hl. pose proof (do_regions d Hd) as Hr.
  assert (Hb : 0 <= bar_offset i /\ bar_offset i + 3 < 256) by (unfold bar_offset, PCI_ROM_SLOT; destruct (Z.eqb_spec i 6); lia).
  unfold update_region. rewrite rd_in, bind_of_done, get_le32_in, bind_of_done by lia. fold (region d i) (bar d i).
  destruct (do_region d Hd i Hi) as [_ _ Hc Hn]. destruct (decodes (command d) i (bar d i) (region d i)) eqn:Ed; [|destruct (enabled (region d i)) eqn:Ee].
  - pose proof (decodes_size _ _ _ _ Ed) as Hsz. destruct (Hc Hsz) as [k Hk]. unfold call_bar. rewrite Hk, bind_of_done.
    eexists _, _. split; [reflexivity|]. by apply told.
  - assert (Hsz : size (region d i) <> 0) by (intros E; destruct (Hn E); congruence). destruct (Hc Hsz) as [k Hk].
    unfold call_bar. rewrite Hk, bind_of_done. eexists _, _. split; [reflexivity|]. by apply told.
  - eexists _, _. split; [reflexivity|]. split; [done|]. split; [done|]. split; [done|]. split; [reflexivity|]. split; [by intros k Hk|].
    split; [|done]. intros k Hk. split; [congruence|]. rewrite Ee. by apply (Ht i).
Qed.

(** All regions. *)
Definition remapped d w d' w' : Prop :=
  device_ok d' /\ config d' = config d /\ same_regions d d' /\ elsewhere d w w' /\ agrees d' w'.
Lemma update_regions_ok l d w cmd : device_ok d -> tracks d w -> cmd = command d -> (forall i, i ∈ l -> 0 <= i < 7) ->
  (forall i, 0 <= i < 7 -> i ∈ l \/ agrees_at d w i) ->
  exists d' w', update_regions cmd l (d, w) = Done (d', w') /\ remapped d w d' w'.
Proof.
  revert d w. induction l as [|i l IH]; intros d w Hd Ht -> Hl Ha.
  - exists d, w. split; [done|]. split; [done|]. split; [done|]. split; [reflexivity|]. split; [done|]. intros i Hi. destruct (Ha i Hi) as [He|]; [by apply elem_of_nil in He|done].
  - cbn [update_regions]. destruct (update_region_ok i d w Hd Ht (Hl i (proj2 (elem_of_cons _ _ _) (or_introl eq_refl)))) as (d1 & w1 & -> & Hd1 & Ht1 & Hc1 & Hs1 & He1 & Hi1 & Ho1).
    rewrite bind_of_done. destruct (IH d1 w1) as (d2 & w2 & E & Hd2 & Hc2 & Hs2 & He2 & Ha2); [done|done|unfold command; by rewrite Hc1|intros j Hj; apply Hl, elem_of_cons; auto| |].
    + intros j Hj. destruct (decide (j = i)) as [->|Hne]; [by right|]. destruct (Ha j Hj) as [[->|Hin]%elem_of_cons|Hag]; [done|by left|right; auto].
    + exists d2, w2. split; [done|]. split; [done|]. split; [congruence|]. split; [by transitivity d1|]. split; [|done].
      intros k Hk. rewrite (elsewhere_same d d1 w1 w2 Hs1 He2 k Hk). by apply He1.
Qed.
Lemma update_mappings_ok d w : device_ok d -> tracks d w -> exists d' w', pci_update_mappings (d, w) = Done (d', w') /\ remapped d w d' w'.
Proof.
  intros Hd Ht. pose proof (proj1 (do_space d Hd)). unfold pci_update_mappings. cbn [fst]. rewrite get_le16_in, bind_of_done by (unfold PCI_COMMAND; lia).
  apply update_regions_ok; [done|done|done|intros i Hi|intros i Hi; left].
  - repeat (apply elem_of_cons in Hi as [->|Hi]; [lia|]). by apply elem_of_nil in Hi.
  - assert (i = 0 \/ i = 1 \/ i = 2 \/ i = 3 \/ i = 4 \/ i = 5 \/ i = 6) as Hc by lia. rewrite !elem_of_cons. tauto.
Qed.

(** ** Writes to the configuration space *)

(** Vendor, device, revision, class, header type and interrupt pin. *)
Definition identity : list Z := [0; 1; 2; 3; 8; 9; 10; 11; 14; 61].
Definition same_identity d d' : Prop := forall j, j ∈ identity -> arr (config d') j = arr (config d) j.
#[local] Instance same_identity_preorder : PreOrder same_identity.
Proof. split; [by intros d j Hj|]. intros d d1 d2 H1 H2 j Hj. by rewrite (H2 j Hj), (H1 j Hj). Qed.
Definition protected (j : Z) : bool := fixed_register 0 j.
Lemma fixed_here d j : device_ok d -> fixed_register (arr (config d) 0x0e) j = protected j.
Proof. intros Hd. unfold protected, fixed_register. by destruct (do_header d Hd) as [-> | ->]. Qed.
Lemma identity_protected j : j ∈ identity -> protected j = true.
Proof. intros Hj. unfold identity in Hj. repeat (apply elem_of_cons in Hj as [->|Hj]; [done|]). by apply elem_of_nil in Hj. Qed.
Lemma bar_protected i j : 0 <= i < 7 -> bar_offset i <= j <= bar_offset i + 3 -> protected j = true.
Proof.
  unfold bar_offset, PCI_ROM_SLOT, protected, fixed_register. intros Hi Hj.
  assert (((0x10 <=? j) && (j <=? 0x27)) || ((0x30 <=? j) && (j <=? 0x33)) = true) as E; [|cbn [Z.eqb orb] in *; rewrite E; apply orb_true_r].
  destruct (Z.eqb_spec i 6); [apply orb_true_iff; right|destruct (Z.eq_dec i 6); [done|]; apply orb_true_iff; left];
    apply andb_true_iff; split; apply Z.leb_le; lia.
Qed.

(** What byte writes at [addr .. addr + n) leave. *)
Definition bytes_written (addr n : Z) d d' : Prop :=
  (exists c, d' = d <| config := c |>) /\ device_ok d' /\
  forall j, 0 <= j -> protected j = true \/ j < addr \/ addr + n <= j -> arr (config d') j = arr (config d) j.
Lemma with_config d c : device_ok d -> space c -> arr c 0x0e = arr (config d) 0x0e -> device_ok (d <| config := c |>).
Proof. intros [? Hh ? ? ?] Hc E. constructor; try done. cbn. by rewrite E. Qed.
Lemma write8_ok addr data d : device_ok d -> 0 <= addr < 256 ->
  exists d', pci_device_config_write8 addr data d = Done d' /\ bytes_written addr 1 d d'.
Proof.
  intros Hd Ha. pose proof (do_space d Hd) as Hs. pose proof (proj1 Hs) as Hl.
  assert (Hset : forall v, inw 8 v -> protected addr = false -> bytes_written addr 1 d (d <| config := arr_set (config d) addr v |>)).
  { intros v Hv Hp. split; [by eexists|]. split.
    - apply with_config; [done|by apply space_set|]. apply arr_set_ne; [lia|lia|]. intros ->. done.
    - intros j Hj Ho. cbn. apply arr_set_ne; [lia|lia|]. intros <-. destruct Ho as [E|Ho]; [congruence|lia]. }
  unfold pci_device_config_write8. destruct (_ || _) eqn:Est.
  - rewrite rd_in, bind_of_done by lia. eexists. split; [reflexivity|]. apply Hset; [apply inw_land_l, Hs|].
    apply orb_true_iff in Est as [->%Z.eqb_eq| ->%Z.eqb_eq]; done.
  - rewrite rd_in, bind_of_done by lia. rewrite (fixed_here d addr Hd). destruct (protected addr) eqn:Ep.
    + exists d. split; [done|]. split; [exists (config d); by destruct d|]. by split.
    + rewrite wr_in, bind_of_done by lia. eexists. split; [reflexivity|]. apply Hset; [apply inw_u8|done].
Qed.
Lemma write_bytes_ok n addr data d : device_ok d -> 0 <= addr ->
  exists d', config_write_bytes n addr data d = Done d' /\ bytes_written addr (Z.of_nat n) d d'.
Proof.
  revert addr data d. induction n as [|n IH]; intros addr data d Hd Ha.
  - exists d. split; [done|]. split; [exists (config d); by destruct d|]. by split.
  - cbn [config_write_bytes].
    assert (exists d1, (if addr <=? 0xff then pci_device_config_write8 addr (Z.land data 0xff) d else Done d) = Done d1 /\ bytes_written addr 1 d d1) as (d1 & -> & [c1 ->] & Hd1 & H1).
    { destruct (Z.leb_spec addr 0xff); [apply write8_ok; [done|lia]|]. exists d. split; [done|]. split; [exists (config d); by destruct d|]. by split. }
    rewrite bind_of_done. destruct (IH (addr + 1) (Z.shiftr data 8) _ Hd1 ltac:(lia)) as (d2 & -> & [c2 ->] & Hd2 & H2).
    eexists. split; [reflexivity|]. split; [by exists c2|]. split; [done|]. intros j Hj Ho. rewrite H2, H1; [done|done| |done|]; (destruct Ho as [?|[?|?]]; [by left|right; lia|right; lia]).
Qed.

Lemma decodes_low cmd cmd' i a (r : PCIIORegion K) : Z.testbit cmd' 0 = Z.testbit cmd 0 -> Z.testbit cmd' 1 = Z.testbit cmd 1 -> decodes cmd' i a r = decodes cmd i a r.
Proof. unfold decodes. by intros -> ->. Qed.
Lemma command_bit d i : 0 <= i < 8 -> Z.testbit (command d) i = Z.testbit (arr (config d) PCI_COMMAND) i.
Proof. intros Hi. unfold command, le16v. rewrite Z.lor_spec, Z.shiftl_spec_low by lia. apply orb_false_r. Qed.
Lemma agrees_config d d' w : agrees d w -> (exists c, d' = d <| config := c |>) ->
  arr (config d') PCI_COMMAND = arr (config d) PCI_COMMAND -> (forall i, 0 <= i < 7 -> bar d' i = bar d i) -> agrees d' w.
Proof.
  intros Ha [c ->] Hc Hb i Hi k Hk. destruct (Ha i Hi k Hk) as [H1 H2]. rewrite (Hb i Hi). split; [|exact H2].
  change (enabled (region d i) = decodes (command (d <| config := c |>)) i (bar d i) (region d i)). rewrite H1. symmetry.
  apply decodes_low; rewrite !command_bit by lia; by rewrite Hc.
Qed.

(** What a guest access leaves. *)
Definition remains d w d' w' : Prop := device_ok d' /\ agrees d' w' /\ same_regions d d' /\ same_identity d d' /\ elsewhere d w w'.
Lemma tracks_config d w c : tracks d w -> tracks (d <| config := c |>) w.
Proof. exact (fun Ht => Ht). Qed.
Lemma remapped_remains d d1 w d' w' : same_regions d d1 -> same_identity d d1 -> remapped d1 w d' w' -> remains d w d' w'.
Proof.
  intros Hs Hi (Hd & Hc & Hs1 & He & Ha). split; [done|]. split; [done|]. split; [by transitivity d1|]. split; [|by apply (elsewhere_same d d1)].
  intros j Hj. rewrite Hc. by apply Hi.
Qed.
Lemma write_bytes_remains n addr data d w : device_ok d -> agrees d w -> 0 <= addr ->
  exists d' w', (d' ← config_write_bytes (Z.to_nat n) addr data d;
    if (addr <=? PCI_COMMAND) && (PCI_COMMAND <? addr + Z.of_nat (Z.to_nat n)) then pci_update_mappings (d', w) else Done (d', w)) = Done (d', w') /\ remains d w d' w'.
Proof.
  intros Hd Ha Haddr. destruct (write_bytes_ok (Z.to_nat n) addr data d Hd Haddr) as (d1 & -> & Hc & Hd1 & H1). rewrite bind_of_done.
  assert (Hsi : same_identity d d1) by (intros j Hj; apply H1; [|left; by apply identity_protected]; unfold identity in Hj; repeat (apply elem_of_cons in Hj as [->|Hj]; [lia|]); by apply elem_of_nil in Hj).
  destruct Hc as [c ->]. destruct (_ && _) eqn:E.
  - destruct (update_mappings_ok _ w Hd1 (tracks_config d w c (agrees_tracks d w Ha))) as (d' & w' & -> & Hr).
    exists d', w'. split; [done|]. by apply (remapped_remains d (d <| config := c |>)).
  - eexists _, w. split; [reflexivity|]. split; [done|]. split; [|split; [done|split; [done|by intros k Hk]]].
    apply (agrees_config d); [done|by exists c| |].
    + apply H1; [done|]. right. apply andb_false_iff in E as [?%Z.leb_gt|?%Z.ltb_ge]; lia.
    + intros i Hi. apply le32v_other. intros j Hj. apply H1; [unfold bar_offset in Hj; destruct (i =? PCI_ROM_SLOT); lia|left]. by apply (bar_protected i).
Qed.

(** The value a base address register takes. *)
Definition bar_value (i v : Z) (r : PCIIORegion K) : Z :=
  if i =? PCI_ROM_SLOT then Z.land v (Z.lor (u32 (Z.lnot (size r - 1))) 1) else Z.lor (Z.land v (u32 (Z.lnot (size r - 1)))) (type r).
Lemma bar_value_word i v r : inw 32 v -> region_ok r -> inw 32 (bar_value i v r).
Proof.
  intros Hv Hr. unfold bar_value. destruct (i =? _); [by apply inw_land_l|]. apply inw_lor; [by apply inw_land_l|]. apply (inw_mono 8); [apply Hr|lia].
Qed.
Lemma bar_of_offset i : 0 <= i < 7 -> (if bar_offset i =? 0x30 then PCI_ROM_SLOT else Z.shiftr (u32 (bar_offset i - 0x10)) 2) = i.
Proof.
  intros Hi. assert (i = 0 \/ i = 1 \/ i = 2 \/ i = 3 \/ i = 4 \/ i = 5 \/ i = 6) as Hc by lia.
  by destruct Hc as [->|[->|[->|[->|[->|[->| ->]]]]]].
Qed.
Lemma write_bar_ok i v d w : device_ok d -> agrees d w -> 0 <= i < 7 -> inw 32 v -> size (region d i) <> 0 ->
  exists d' w', pci_write_bar (bar_offset i) v (d, w) = Done (true, (d', w')) /\ remains d w d' w' /\ bar d' i = bar_value i v (region d i).
Proof.
  intros Hd Ha Hi Hv Hsz. pose proof (do_space d Hd) as Hs. pose proof (proj1 Hs) as Hl. pose proof (do_regions d Hd).
  assert (Hb : 0x10 <= bar_offset i <= 0x24 \/ bar_offset i = 0x30) by (unfold bar_offset, PCI_ROM_SLOT; destruct (Z.eqb_spec i 6); lia).
  unfold pci_write_bar. rewrite (bar_of_offset i Hi), rd_in, bind_of_done by lia. fold (region d i).
  destruct (Z.eqb_spec (size (region d i)) 0); [done|]. cbv zeta. fold (bar_value i v (region d i)).
  rewrite put_le32_in, bind_of_done by lia. set (c := set32 (config d) (bar_offset i) (bar_value i v (region d i))).
  assert (Hd1 : device_ok (d <| config := c |>)) by (apply with_config; [done|by apply space_set32|]; apply set32_other; lia).
  destruct (update_mappings_ok _ w Hd1 (tracks_config d w c (agrees_tracks d w Ha))) as (d' & w' & -> & Hr). rewrite bind_of_done.
  exists d', w'. split; [done|]. split.
  - apply (remapped_remains d (d <| config := c |>)); [done| |done]. intros j Hj. apply set32_other; [lia|..];
      unfold identity in Hj; repeat (apply elem_of_cons in Hj as [->|Hj]; [lia|]); by apply elem_of_nil in Hj.
  - unfold bar. destruct Hr as (_ & -> & _). apply le32v_set32; [lia|lia|]. apply bar_value_word; [done|by apply Hd].
Qed.

Lemma config_write_ok addr data k d w : device_ok d -> agrees d w -> 0 <= addr < 256 -> 0 <= k <= 2 -> (k = 2 -> addr mod 4 = 0) -> inw 32 data ->
  exists d' w', pci_device_config_write addr data k (d, w) = Done (d', w') /\ remains d w d' w'.
Proof.
  intros Hd Ha Haddr Hk Hal Hv. unfold pci_device_config_write.
  assert (Hbytes : exists d' w', (let n := Z.shiftl 1 k in d' ← config_write_bytes (Z.to_nat n) addr data d;
      if (addr <=? PCI_COMMAND) && (PCI_COMMAND <? addr + n) then pci_update_mappings (d', w) else Done (d', w)) = Done (d', w') /\ remains d w d' w').
  { cbv zeta. pose proof (write_bytes_remains (Z.shiftl 1 k) addr data d w Hd Ha ltac:(lia)) as Hw. rewrite Z2Nat.id in Hw; [done|].
    apply Z.shiftl_nonneg. lia. }
  destruct ((k =? 2) && _) eqn:E; [|exact Hbytes]. apply andb_true_iff in E as [->%Z.eqb_eq E].
  assert (exists i, 0 <= i < 7 /\ addr = bar_offset i) as (i & Hi & ->).
  { specialize (Hal eq_refl). apply orb_true_iff in E as [[?%Z.leb_le ?%Z.ltb_lt]%andb_true_iff| ->%Z.eqb_eq]; [|by exists 6].
    exists ((addr - 0x10) / 4). assert (0 <= (addr - 0x10) / 4 < 6) by (split; [apply Z.div_pos; lia|apply Z.div_lt_upper_bound; lia]).
    split; [lia|]. unfold bar_offset, PCI_ROM_SLOT. destruct (Z.eqb_spec ((addr - 0x10) / 4) 6); [lia|].
    assert (Hm : (addr - 0x10) mod 4 = 0) by by rewrite Zminus_mod, Hal. pose proof (Z.div_mod (addr - 0x10) 4 ltac:(lia)). lia. }
  destruct (Z.eq_dec (size (region d i)) 0) as [Hz|Hz].
  - pose proof (do_regions d Hd). unfold pci_write_bar at 1. rewrite (bar_of_offset i Hi), rd_in, bind_of_done by lia. fold (region d i).
    rewrite Hz, Z.eqb_refl. exact Hbytes.
  - destruct (write_bar_ok i data d w Hd Ha Hi Hv Hz) as (d' & w' & -> & Hr & _). rewrite bind_of_done. by exists d', w'.
Qed.

(** ** The bus and the ports *)

Definition slot b (n : Z) : option (PCIDevice K) := mjoin (device b !! Z.to_nat n).
Record bus_ok b w : Prop := {
  bo_len : alen (device b) = 256;
  bo_device : forall n d, 0 <= n < 256 -> slot b n = Some d -> device_ok d /\ agrees d w;
  bo_unique : forall n n' d d' i i' k, 0 <= n < 256 -> 0 <= n' < 256 -> slot b n = Some d -> slot b n' = Some d' -> 0 <= i < 7 -> 0 <= i' < 7 ->
    callback (region d i) = Some k -> callback (region d' i') = Some k -> n = n';
}.
(** The same devices in the same slots. *)
Definition same_bus b b' : Prop := bus_num b' = bus_num b /\ forall n, 0 <= n < 256 ->
  match slot b n, slot b' n with Some d, Some d' => same_regions d d' /\ same_identity d d' | None, None => True | _, _ => False end.
#[local] Instance same_bus_preorder : PreOrder same_bus.
Proof.
  split.
  - intros b. split; [done|]. intros n Hn. by destruct (slot b n).
  - intros b b1 b2 [E1 H1] [E2 H2]. split; [congruence|]. intros n Hn. specialize (H1 n Hn). specialize (H2 n Hn).
    destruct (slot b n), (slot b1 n), (slot b2 n); try done. destruct H1, H2. split; etransitivity; eauto.
Qed.

Lemma slot_rd b n : alen (device b) = 256 -> 0 <= n < 256 -> rd (device b) n = Done (slot b n).
Proof.
  intros Hl Hn. unfold rd, slot. destruct (Z.ltb_spec n 0); [lia|]. destruct (lookup_lt_is_Some_2 (device b) (Z.to_nat n)) as [x ->]; [unfold alen in Hl; lia|].
  by destruct x.
Qed.
Lemma slot_set b n x m : alen (device b) = 256 -> 0 <= n < 256 -> 0 <= m < 256 ->
  slot (b <| device := arr_set (device b) n x |>) m = if decide (m = n) then x else slot b m.
Proof.
  intros Hl Hn Hm. unfold slot, arr_set. cbn. unfold alen in Hl. destruct (decide (m = n)) as [->|].
  - rewrite list_lookup_insert_eq by lia. by destruct x.
  - by rewrite list_lookup_insert_ne by lia.
Qed.
(** A device that was written to is put back. *)
Lemma put_device b n d d' w w' : bus_ok b w -> 0 <= n < 256 -> slot b n = Some d -> remains d w d' w' ->
  bus_ok (b <| device := arr_set (device b) n (Some d') |>) w' /\ same_bus b (b <| device := arr_set (device b) n (Some d') |>).
Proof.
  intros Hb Hn Hs (Hd & Ha & Hr & Hi & He). pose proof (bo_len b w Hb) as Hl. split; [constructor|].
  - cbn. by rewrite alen_set.
  - intros m x Hm. rewrite slot_set by done. destruct (decide (m = n)) as [->|Hne]; [by intros [= <-]|]. intros Hx.
    destruct (bo_device b w Hb m x Hm Hx) as [Hdx Hax]. split; [done|]. intros i Hi' k Hk. destruct (Hax i Hi' k Hk) as [H1 H2]. split; [done|].
    rewrite He; [done|]. intros j Hj Hk'. by apply Hne, (bo_unique b w Hb m n x d i j k).
  - intros m m' x x' i i' k Hm Hm' Hx Hx' Hi1 Hi2. rewrite slot_set in Hx, Hx' by done.
    assert (Hcb : forall m x i, 0 <= m < 256 -> (if decide (m = n) then Some d' else slot b m) = Some x -> exists y, slot b m = Some y /\ callback (region x i) = callback (region y i)).
    { intros m1 x1 j Hm1. destruct (decide (m1 = n)) as [->|]; [intros [= <-]; exists d|intros E; exists x1; done]. split; [done|]. apply Hr. }
    destruct (Hcb m x i Hm Hx) as (y & Hy & ->), (Hcb m' x' i' Hm' Hx') as (y' & Hy' & ->). by apply (bo_unique b w Hb m m' y y').
  - split; [done|]. intros m Hm. rewrite slot_set by done. destruct (decide (m = n)) as [->|]; [by rewrite Hs|]. by destruct (slot b m).
Qed.
Lemma byte_range x : 0 <= Z.land x 0xff < 256.
Proof. rewrite land_255. by apply Z.mod_pos_bound. Qed.
Lemma data_write_ok b addr data k w : bus_ok b w -> 0 <= k <= 2 -> (k = 2 -> addr mod 4 = 0) -> inw 32 data ->
  exists b' w', pci_data_write b addr data k w = Done (b', w') /\ bus_ok b' w' /\ same_bus b b'.
Proof.
  intros Hb Hk Hal Hv. pose proof (byte_range (Z.shiftr addr 8)) as Hn. pose proof (byte_range addr) as Ha. unfold pci_data_write.
  destruct (negb _); [by exists b, w|]. rewrite slot_rd, bind_of_done by (done || apply (bo_len b w Hb)).
  destruct (slot b (Z.land (Z.shiftr addr 8) 0xff)) as [d|] eqn:Es; [|by exists b, w].
  destruct (bo_device b w Hb _ d Hn Es) as [Hd Hag].
  destruct (config_write_ok (Z.land addr 0xff) data k d w Hd Hag Ha Hk) as (d' & w' & -> & Hr); [|done|].
  - intros E. rewrite land_255, Z.mod_mod_divide by (exists 64; lia). by apply Hal.
  - rewrite bind_of_done. eexists _, _. split; [reflexivity|]. by apply (put_device b _ d d' w w').
Qed.
Lemma config_read_ok d addr k : device_ok d -> 0 <= addr < 256 -> 0 <= k <= 2 -> (k = 2 -> addr mod 4 = 0) -> exists v, pci_device_config_read d addr k = Done v.
Proof.
  intros Hd Ha Hk Hal. pose proof (proj1 (do_space d Hd)) as Hl. unfold pci_device_config_read.
  assert (k = 0 \/ k = 1 \/ k = 2) as [->|[->| ->]] by lia; cbn [Z.eqb].
  - rewrite rd_in by lia. eauto.
  - destruct (Z.leb_spec addr 0xfe); [rewrite get_le16_in by lia; eauto|rewrite rd_in by lia; eauto].
  - assert (addr <> 253 /\ addr <> 254 /\ addr <> 255) by (specialize (Hal eq_refl); repeat split; intros ->; discriminate Hal).
    rewrite get_le32_in by lia. eauto.
Qed.
Lemma data_read_ok b addr k w : bus_ok b w -> 0 <= k <= 2 -> (k = 2 -> addr mod 4 = 0) -> exists v, pci_data_read b addr k = Done v.
Proof.
  intros Hb Hk Hal. pose proof (byte_range (Z.shiftr addr 8)) as Hn. pose proof (byte_range addr) as Ha. unfold pci_data_read.
  assert (Hones : exists v, rd val_ones k = Done v) by (assert (k = 0 \/ k = 1 \/ k = 2) as [->|[->| ->]] by lia; by eexists).
  destruct (negb _); [done|]. rewrite slot_rd, bind_of_done by (done || apply (bo_len b w Hb)).
  destruct (slot b _) as [d|] eqn:Es; [|done]. apply config_read_ok; [by apply (bo_device b w Hb _ d Hn Es)|done|done|].
  intros E. rewrite land_255, Z.mod_mod_divide by (exists 64; lia). by apply Hal.
Qed.

(** The guest's accesses, as winspire/pc.c passes them on: port 0xcf8 by words, port
    0xcfc by bytes, halves at even offsets and words. *)
Inductive PciOp := WriteAddress (data : Z) | WriteData (offset data size_log2 : Z) | ReadData (offset size_log2 : Z).
Definition op_ok (o : PciOp) : Prop :=
  match o with
  | WriteAddress v => inw 32 v
  | WriteData _ v k => inw 32 v /\ 0 <= k <= 2
  | ReadData _ k => 0 <= k <= 2
  end.
Definition run_op (o : PciOp) (s : I440FXState K * W) : outcome (I440FXState K * W) :=
  match o with
  | WriteAddress v => Done (i440fx_write_addr v s.1, s.2)
  | WriteData off v k => i440fx_write_data off v k s
  | ReadData off k => _ ← i440fx_read_data off k s.1; Done s
  end.
Fixpoint run_ops (l : list PciOp) (s : I440FXState K * W) : outcome (I440FXState K * W) :=
  match l with [] => Done s | o :: l => s ← run_op o s; run_ops l s end.

Lemma address_aligned off k (s : I440FXState K) : k = 2 -> config_address off k s mod 4 = 0.
Proof.
  intros ->. unfold config_address. rewrite Z.eqb_refl. change 4 with (2 ^ 2). apply Z.bits_inj'. intros i Hi. rewrite Z.testbit_0_l.
  destruct (Z.lt_ge_cases i 2); [|by rewrite Z.mod_pow2_bits_high by lia]. rewrite Z.mod_pow2_bits_low, Z.land_spec by lia.
  assert (i = 0 \/ i = 1) as [->| ->] by lia; apply andb_false_r.
Qed.
Lemma run_op_ok o s w : bus_ok (pci_bus s) w -> op_ok o ->
  exists s' w', run_op o (s, w) = Done (s', w') /\ bus_ok (pci_bus s') w' /\ same_bus (pci_bus s) (pci_bus s').
Proof.
  intros Hb Ho. destruct o as [v|off v k|off k]; cbn [run_op op_ok fst snd] in *.
  - by exists (i440fx_write_addr v s), w.
  - destruct Ho as [Hv Hk]. unfold i440fx_write_data. destruct (Z.testbit _ 31); [|by exists s, w].
    destruct (data_write_ok (pci_bus s) (config_address off k s) v k w Hb Hk (address_aligned off k s) Hv) as (b' & w' & -> & Hb' & Hs').
    rewrite bind_of_done. by eexists _, _.
  - assert (exists v, i440fx_read_data off k s = Done v) as [v ->]; [|by exists s, w]. unfold i440fx_read_data. destruct (Z.testbit _ 31).
    + by apply (data_read_ok _ _ _ w), address_aligned.
    + assert (k = 0 \/ k = 1 \/ k = 2) as [->|[->| ->]] by lia; by eexists.
Qed.
Lemma run_ops_ok l s w : bus_ok (pci_bus s) w -> Forall op_ok l ->
  exists s' w', run_ops l (s, w) = Done (s', w') /\ bus_ok (pci_bus s') w' /\ same_bus (pci_bus s) (pci_bus s').
Proof.
  intros Hb Hl. revert s w Hb. induction Hl as [|o l Ho Hl IH]; intros s w Hb.
  - by exists s, w.
  - cbn [run_ops]. destruct (run_op_ok o s w Hb Ho) as (s1 & w1 & -> & Hb1 & Hs1). rewrite bind_of_done.
    destruct (IH s1 w1 Hb1) as (s2 & w2 & E & Hb2 & Hs2). exists s2, w2. split; [done|]. split; [done|]. by transitivity (pci_bus s1).
Qed.
(** ** A bus without regions, and its first region *)

Definition bare d : Prop := space (config d) /\ (arr (config d) 0x0e = 0 \/ arr (config d) 0x0e = 0x80) /\ io_regions d = replicate 7 (mkRegion 0 0 false None).
Lemma bare_region d i : bare d -> region d i = mkRegion 0 0 false None.
Proof.
  intros (_ & _ & E). unfold region, arr. rewrite E, list_lookup_total_alt. destruct (_ !! _) as [x|] eqn:Ex; [|done]. by apply lookup_replicate in Ex as [-> _].
Qed.
Lemma bare_ok d w : bare d -> device_ok d /\ agrees d w.
Proof.
  intros Hb. pose proof (bare_region d) as Hr. destruct Hb as (Hs & Hh & E). split.
  - constructor; [done|done|by rewrite E|intros i Hi|intros i j k Hi Hj]; rewrite ?Hr by done; [|done].
    by constructor; cbn; auto; try done; apply (inw_mod 8 0); lia.
  - intros i Hi k. by rewrite Hr.
Qed.
(** The machine's other slots are bare. *)
Lemma first_bar b w n d sz ty k d' : alen (device b) = 256 -> (forall m x, 0 <= m < 256 -> slot b m = Some x -> bare x) -> 0 <= n < 256 -> slot b n = Some d ->
  Z.testbit (command d) 0 = false -> Z.testbit (command d) 1 = false -> (exists p, 2 <= p < 32 /\ sz = 2 ^ p) -> inw 8 ty -> mapped w k = None ->
  d' = d <| io_regions := arr_set (io_regions d) 0 (mkRegion sz ty false (Some k)) |> <| config := set32 (config d) 0x10 ty |> ->
  bus_ok (b <| device := arr_set (device b) n (Some d') |>) w.
Proof.
  intros Hl Hbare Hn Hs H0' H1' Hsz Hty Hm ->. pose proof (Hbare n d Hn Hs) as Hd. set (d' := d <| io_regions := _ |> <| config := _ |>).
  destruct (bare_ok d w Hd) as [Hok _]. pose proof (do_space d Hok) as Hsp.
  assert (Hreg : forall i, 0 <= i < 7 -> region d' i = if decide (i = 0) then mkRegion sz ty false (Some k) else mkRegion 0 0 false None).
  { intros i Hi. destruct (decide (i = 0)) as [->|]; [apply arr_set_eq; rewrite (do_regions d Hok); lia|].
    rewrite <- (bare_region d i Hd). by apply arr_set_ne; lia. }
  assert (Hd' : device_ok d').
  { constructor.
    - by apply space_set32.
    - assert (E : arr (config d') 0x0e = arr (config d) 0x0e) by (apply set32_other; lia). rewrite E. apply Hok.
    - unfold d'. cbn. rewrite alen_set. apply Hok.
    - intros i Hi. rewrite Hreg by done. destruct Hsz as (p & Hp & ->). pose proof (pow2_pos p ltac:(lia)).
      destruct (decide (i = 0)); constructor; cbn; try done; [right; by exists p|intros E; lia|by left].
    - intros i j x Hi Hj. rewrite !Hreg by done. destruct (decide (i = 0)), (decide (j = 0)); try done. congruence. }
  assert (Hcmd : command d' = command d) by (change (le16v (set32 (config d) 0x10 ty) 4 = le16v (config d) 4); unfold le16v; by rewrite !set32_other by lia).
  constructor.
  - cbn. by rewrite alen_set.
  - intros m x Hm'. rewrite slot_set by done. destruct (decide (m = n)) as [->|]; [intros [= <-]|intros E; by apply bare_ok, (Hbare m)].
    split; [done|]. intros i Hi x. rewrite Hreg, Hcmd by done. destruct (decide (i = 0)); [|done]. intros [= <-]. split; [|exact Hm].
    unfold decodes. cbn [size type enabled]. rewrite H0', H1', !andb_false_r. by destruct (nz sz).
  - intros m m' x x' i i' c Hm1 Hm2 Hx Hx' Hi Hi' Hc Hc'. rewrite slot_set in Hx, Hx' by done.
    assert (Hnone : forall m x i, 0 <= m < 256 -> 0 <= i < 7 -> slot b m = Some x -> callback (region x i) = None).
    { intros m1 x1 j Hm3 Hj E. by rewrite (bare_region x1 j (Hbare m1 x1 Hm3 E)). }
    destruct (decide (m = n)) as [->|]; [|by rewrite (Hnone m x i) in Hc].
    destruct (decide (m' = n)) as [->|]; [done|by rewrite (Hnone m' x' i') in Hc'].
Qed.

(** ** Base address registers through the ports *)

(** The address of a configuration register for port 0xcf8. *)
Definition config_word (n off : Z) : Z := 0x80000000 + n * 256 + off.
Definition word_fields (n off : Z) : bool :=
  let a := Z.land (config_word n off) (u32 (Z.lnot 3)) in
  Z.testbit (config_word n off) 31 && (Z.land (Z.shiftr a 16) 0xff =? 0) && (Z.land (Z.shiftr a 8) 0xff =? n) && (Z.land a 0xff =? off).
Lemma config_word_fields n i : 0 <= n < 256 -> 0 <= i < 7 -> word_fields n (bar_offset i) = true.
Proof.
  intros Hn Hi. assert (Hc : all_below 256 (fun n => all_below 7 (fun i => word_fields n (bar_offset i))) = true) by (vm_compute; reflexivity).
  by apply (all_below_spec 7 (fun i => word_fields n (bar_offset i))); [apply (all_below_spec 256 (fun n => all_below 7 _) n Hc)|].
Qed.
Lemma data_write_at b n off a d v k w : alen (device b) = 256 -> Z.land (Z.shiftr a 16) 0xff = bus_num b -> Z.land (Z.shiftr a 8) 0xff = n -> Z.land a 0xff = off ->
  slot b n = Some d -> pci_data_write b a v k w = ('(d', w') ← pci_device_config_write off v k (d, w); Done (b <| device := arr_set (device b) n (Some d') |>, w')).
Proof. intros Hl H16 <- <- Hs. unfold pci_data_write. rewrite H16, Z.eqb_refl. cbn [negb]. by rewrite slot_rd, Hs by (done || apply byte_range). Qed.
Lemma data_read_at b n off a d k : alen (device b) = 256 -> Z.land (Z.shiftr a 16) 0xff = bus_num b -> Z.land (Z.shiftr a 8) 0xff = n -> Z.land a 0xff = off ->
  slot b n = Some d -> pci_data_read b a k = pci_device_config_read d off k.
Proof. intros Hl H16 <- <- Hs. unfold pci_data_read. rewrite H16, Z.eqb_refl. cbn [negb]. by rewrite slot_rd, Hs by (done || apply byte_range). Qed.
Lemma write_address_data a v s w : Z.testbit a 31 = true -> run_ops [WriteAddress a; WriteData 0 v 2] (s, w) =
  ('(b, w') ← pci_data_write (pci_bus s) (Z.land a (u32 (Z.lnot 3))) v 2 w; let s := i440fx_write_addr a s in Done (s <| pci_bus := b |>, w')).
Proof.
  intros Ha. change (run_ops [WriteAddress a; WriteData 0 v 2] (s, w)) with (x ← i440fx_write_data 0 v 2 (i440fx_write_addr a s, w); Done x).
  unfold i440fx_write_data. change (config_reg (i440fx_write_addr a s)) with a. rewrite Ha.
  change (config_address 0 2 (i440fx_write_addr a s)) with (Z.land a (u32 (Z.lnot 3))). change (pci_bus (i440fx_write_addr a s)) with (pci_bus s).
  by destruct (pci_data_write _ _ _ _ _) as [[b w']|].
Qed.
Lemma read_word (s : I440FXState K) : Z.testbit (config_reg s) 31 = true -> i440fx_read_data 0 2 s = pci_data_read (pci_bus s) (Z.land (config_reg s) (u32 (Z.lnot 3))) 2.
Proof. intros Ha. unfold i440fx_read_data. by rewrite Ha. Qed.
Lemma write_bar_register i v d w : 0 <= i < 6 -> forall x, pci_write_bar (bar_offset i) v (d, w) = Done (true, x) -> pci_device_config_write (bar_offset i) v 2 (d, w) = Done x.
Proof.
  intros Hi x E. unfold pci_device_config_write. assert (Hoff : bar_offset i = 0x10 + i * 4) by (unfold bar_offset, PCI_ROM_SLOT; destruct (Z.eqb_spec i 6); [lia|done]).
  assert (Er : (0x10 <=? bar_offset i) && (bar_offset i <? 0x10 + 4 * 6) = true) by (apply andb_true_iff; split; [apply Z.leb_le|apply Z.ltb_lt]; lia).
  rewrite Er. cbn [orb]. rewrite andb_true_r, Z.eqb_refl, E. done.
Qed.

(** Probing a base address register through the two ports: after an address write
    and a word write, the word read back is the value with the low bits of the
    window cut off and the type in their place, so writing all ones shows the size;
    no access faults, and every region of every device is mapped where its
    register says. *)
Theorem bar_probe (s : I440FXState K) w n i v d : bus_ok (pci_bus s) w -> bus_num (pci_bus s) = 0 -> 0 <= n < 256 -> slot (pci_bus s) n = Some d ->
  0 <= i < 6 -> size (region d i) <> 0 -> inw 32 v ->
  exists s' w', run_ops [WriteAddress (config_word n (bar_offset i)); WriteData 0 v 2] (s, w) = Done (s', w') /\
    i440fx_read_data 0 2 s' = Done (Z.lor (bar_base (size (region d i)) v) (type (region d i))) /\ bus_ok (pci_bus s') w'.
Proof.
  intros Hb Hnum Hn Hd Hi Hsz Hv. pose proof (config_word_fields n i Hn ltac:(lia)) as Hf. unfold word_fields in Hf. cbv zeta in Hf.
  apply andb_true_iff in Hf as [[[H31 H16%Z.eqb_eq]%andb_true_iff H8%Z.eqb_eq]%andb_true_iff H0'%Z.eqb_eq].
  destruct (bo_device _ w Hb n d Hn Hd) as [Hdok Hag]. pose proof (bo_len _ w Hb) as Hl. rewrite <- Hnum in H16.
  destruct (write_bar_ok i v d w Hdok Hag ltac:(lia) Hv Hsz) as (d' & w' & Ew & Hr & Hbar).
  rewrite write_address_data, (data_write_at _ n (bar_offset i) _ d) by done. rewrite (write_bar_register i v d w Hi _ Ew), !bind_of_done.
  destruct (put_device _ n d d' w w' Hb Hn Hd Hr) as [Hb' _]. eexists _, _. split; [reflexivity|]. split; [|exact Hb'].
  rewrite read_word by done. match type of Hb' with bus_ok ?x _ => set (b' := x) in * end.
  change (pci_bus _) with b'. change (config_reg _) with (config_word n (bar_offset i)).
  rewrite (data_read_at b' n (bar_offset i) _ d') by (done || apply (bo_len b' w' Hb') || (unfold b'; by rewrite slot_set, decide_True by done)).
  unfold pci_device_config_read. cbn [Z.eqb Pos.eqb]. pose proof (proj1 (do_space d' (proj1 Hr))).
  rewrite get_le32_in by (unfold bar_offset, PCI_ROM_SLOT; destruct (Z.eqb_spec i 6); lia). fold (bar d' i). rewrite Hbar. unfold bar_value, PCI_ROM_SLOT.
  by destruct (Z.eqb_spec i 6); [lia|].
Qed.
End Mappings.

(** ** The machine *)

(** [set_pci_vga_bar] keeps its promise: a window is never at the last address. *)
#[export] Instance vga_bar_laws : BarLaws unit Z.
Proof.
  refine {| mapped w _ := if w =? NOT_MAPPED then None else Some w |}.
  - intros [] i a en w Ha Hm. unfold bar_set, set_pci_vga_bar. destruct en; [|done].
    destruct (Z.eqb_spec a NOT_MAPPED) as [->|]; [discriminate Hm|done].
  - by intros [] i a en w [].
Defined.

(** The bus before the display adapter: bridge, PIIX3 and IDE. *)
Definition before_vga : PCIBus unit :=
  match (s ← i440fx_init; piix3_ide_init (piix3_devfn s + 1) (pci_bus s)) with Done r => r.2 | Stuck _ => mkBus 0 [] end.
Definition vga_slot : Z := 16.
Definition with_vga : PCIBus unit := match pci_register_device before_vga (-1) 0x1234 0x1111 0 0x0300 with Done (Some r) => r.2 | _ => mkBus 0 [] end.
Definition bare_dec (x : option (PCIDevice unit)) : bool := match x with
  | None => true
  | Some d => (alen (config d) =? 256) && forallb (fun v => (0 <=? v) && (v <? 256)) (config d) && ((arr (config d) 0x0e =? 0) || (arr (config d) 0x0e =? 0x80)) &&
      (alen (io_regions d) =? 7) && forallb (fun r => (size r =? 0) && (type r =? 0) && negb (enabled r) && bool_decide (callback r = None)) (io_regions d)
  end.
Lemma bare_dec_spec d : bare_dec (Some d) = true -> bare d.
Proof.
  unfold bare_dec. rewrite !andb_true_iff, orb_true_iff, !Z.eqb_eq. intros ((((Hl & Hb) & Hh) & Hr) & Hf). split; [split; [done|]|split; [done|]].
  - intros j. unfold arr. rewrite list_lookup_total_alt. destruct (_ !! _) as [x|] eqn:E; [|by split].
    rewrite forallb_forall in Hb. specialize (Hb x ltac:(eapply list_elem_of_In, list_elem_of_lookup_2, E)). apply andb_true_iff in Hb as [?%Z.leb_le ?%Z.ltb_lt]. by split.
  - apply list_eq_same_length with 7%nat; [done|unfold alen in Hr; lia|]. intros j x y Hj Hx Hy. apply lookup_replicate in Hy as [-> _].
    rewrite forallb_forall in Hf. specialize (Hf x ltac:(eapply list_elem_of_In, list_elem_of_lookup_2, Hx)).
    rewrite !andb_true_iff, !Z.eqb_eq in Hf. destruct x as [sz ty [] c], Hf as (((? & ?) & ?) & ?%bool_decide_eq_true); cbn in *; [done|congruence].
Qed.
Lemma with_vga_bare m x : 0 <= m < 256 -> slot with_vga m = Some x -> bare x.
Proof.
  intros Hm Hx. apply bare_dec_spec. assert (Hall : all_below 256 (fun m => bare_dec (slot with_vga m)) = true) by (vm_compute; reflexivity).
  pose proof (all_below_spec 256 _ m Hall Hm) as H. cbv beta in H. by rewrite Hx in H.
Qed.
Lemma grow_spec fuel k ram : 0 <= k <= 31 -> 31 <= k + Z.of_nat fuel -> ram <= 2 ^ 31 -> exists p, k <= p <= 31 /\ ram <= 2 ^ p /\ (p = k \/ 2 ^ (p - 1) < ram) /\ grow fuel (2 ^ k) ram = Done (2 ^ p).
Proof.
  revert k. induction fuel as [|fuel IH]; intros k Hk Hf Hram.
  - assert (k = 31) as -> by lia. exists 31. cbn [grow]. destruct (Z.ltb_spec (2 ^ 31) ram); [lia|]. repeat split; auto; lia.
  - cbn [grow]. destruct (Z.ltb_spec (2 ^ k) ram) as [Hlt|Hge]; [|exists k; repeat split; auto; lia].
    assert (k < 31) by (destruct (Z.eq_dec k 31) as [->|]; lia). destruct (IH (k + 1)) as (p & Hp & H1 & H2 & E); [lia|lia|done|].
    exists p. split; [lia|]. split; [done|]. split; [right; destruct H2 as [->|]; [by rewrite Z.add_simpl_r|done]|].
    rewrite Z.shiftl_mul_pow2, Z.pow_1_r by lia. replace (2 ^ k * 2) with (2 ^ (k + 1)) by (rewrite Z.pow_add_r; lia).
    rewrite u32_id; [done|]. split; [apply Z.pow_nonneg; lia|]. apply Z.pow_lt_mono_r; lia.
Qed.

Lemma register_bar_eq (d : PCIDevice unit) p : bare d -> 2 <= p < 32 -> pci_register_bar 0 (2 ^ p) PCI_ADDRESS_SPACE_MEM tt d =
  Done (d <| io_regions := arr_set (io_regions d) 0 (mkRegion (2 ^ p) 0 false (Some tt)) |> <| config := set32 (config d) 0x10 0 |>).
Proof.
  intros Hb Hp. destruct (bare_ok d NOT_MAPPED Hb) as [Hok _]. unfold pci_register_bar. assert (4 <= 2 ^ p) by (apply (Z.pow_le_mono_r 2 2); lia).
  replace (negb (0 <? PCI_NUM_REGIONS) || nz (Z.land (2 ^ p) (2 ^ p - 1)) || (2 ^ p <? 4)) with false.
  - rewrite rd_in, bind_of_done by (rewrite (do_regions d Hok); lia). fold (region d 0). rewrite (bare_region d 0 Hb). cbn [size nz Z.eqb negb].
    rewrite put_le32_in, bind_of_done by (rewrite ?(proj1 (do_space d Hok)); unfold bar_offset; cbn; lia). done.
  - symmetry. rewrite !orb_false_iff. split; [split; [done|]|apply Z.ltb_ge; lia]. unfold nz. apply negb_false_iff, Z.eqb_eq.
    replace (2 ^ p - 1) with (Z.ones p) by (rewrite Z.ones_equiv; lia). rewrite Z.land_ones by lia. apply Z_mod_same_full.
Qed.

(** After power-on: the display window covers the memory, and is not mapped. *)
Lemma power_on ram : 3 <= ram <= 2 ^ 31 -> exists s d p, pc_pci_init ram = Done (s, NOT_MAPPED) /\ bus_ok (pci_bus s) NOT_MAPPED /\ bus_num (pci_bus s) = 0 /\
  slot (pci_bus s) vga_slot = Some d /\ 2 <= p < 32 /\ ram <= 2 ^ p < 2 * ram /\ size (region d 0) = 2 ^ p /\ type (region d 0) = 0.
Proof.
  intros Hram. destruct (grow_spec 33 0 ram) as (p & Hp & Hge & Hlt & Hg); [lia|lia|lia|]. change (2 ^ 0) with 1 in Hg.
  assert (Hp2 : 2 <= p) by (destruct (Z.lt_ge_cases p 2) as [Hc|]; [|done]; assert (2 ^ p <= 2 ^ 1) by (apply Z.pow_le_mono_r; lia); lia).
  assert (Hlt' : 2 ^ p < 2 * ram) by (destruct Hlt as [->|Hlt]; [lia|]; replace (2 ^ p) with (2 * 2 ^ (p - 1)) by (rewrite <- Z.pow_succ_r by lia; f_equal; lia); lia).
  destruct (slot with_vga vga_slot) as [d0|] eqn:Ed0; [|vm_compute in Ed0; discriminate].
  set (d := d0 <| io_regions := arr_set (io_regions d0) 0 (mkRegion (2 ^ p) 0 false (Some tt)) |> <| config := set32 (config d0) 0x10 0 |>).
  assert (Hbare : bare d0) by (apply (with_vga_bare vga_slot); [unfold vga_slot; lia|done]). destruct (bare_ok d0 NOT_MAPPED Hbare) as [Hok _].
  assert (Hreg : pci_register_bar 0 (2 ^ p) PCI_ADDRESS_SPACE_MEM tt d0 = Done d) by (apply register_bar_eq; [done|lia]).
  set (b := with_vga <| device := arr_set (device with_vga) vga_slot (Some d) |>).
  exists (mkI440FX b 8 0), d, p. split.
  - unfold pc_pci_init. assert (Hs : exists s, i440fx_init = Done s /\ piix3_devfn s = 8 /\ config_reg s = 0 /\ piix3_ide_init 9 (pci_bus s) = Done (9, before_vga)).
    { eexists. split; [vm_compute; reflexivity|]. split; [done|]. split; [done|]. vm_compute. reflexivity. }
    destruct Hs as (s & -> & H8 & H0 & Hide). rewrite bind_of_done, H8. change (8 + 1) with 9. rewrite Hide, bind_of_done. unfold vga_pci_init.
    assert (Hv : pci_register_device before_vga (-1) 0x1234 0x1111 0 0x0300 = Done (Some (vga_slot, with_vga))) by (vm_compute; reflexivity).
    rewrite Hv, !bind_of_done. cbn [registered]. rewrite bind_of_done, Hg, bind_of_done. unfold at_device.
    rewrite slot_rd, Ed0, bind_of_done, Hreg, !bind_of_done by (vm_compute; auto || (split; congruence)). fold b. destruct s. cbn in H8, H0. by subst.
  - assert (Hl : alen (device with_vga) = 256) by (vm_compute; reflexivity).
    assert (Hcmd : Z.testbit (command d0) 0 = false /\ Z.testbit (command d0) 1 = false) by (vm_compute in Ed0; injection Ed0 as <-; by vm_compute).
    split; [apply (first_bar with_vga NOT_MAPPED vga_slot d0 (2 ^ p) 0 tt d); [exact Hl|apply with_vga_bare|unfold vga_slot; lia|exact Ed0|apply Hcmd|apply Hcmd|exists p; split; [lia|done]|by split|done|done]|].
    split; [done|]. split; [unfold b; cbn [pci_bus]; rewrite slot_set, decide_True by (done || unfold vga_slot; lia); done|].
    split; [lia|]. split; [lia|]. unfold region, d. cbn [io_regions set_field]. by rewrite arr_set_eq by (rewrite (do_regions d0 Hok); lia).
Qed.

(** C36. Whatever the guest does at the configuration ports, no access faults, no device
    changes its identity or its windows, and the display memory answers exactly in
    the window of its base address register while memory decoding is on, apart from
    its fixed alias; the window is the least power of two that covers the memory. *)
Theorem pci_window ram l : 3 <= ram <= 2 ^ 31 -> Forall op_ok l ->
  exists s0 s w d p, pc_pci_init ram = Done (s0, NOT_MAPPED) /\ run_ops l (s0, NOT_MAPPED) = Done (s, w) /\ same_bus (pci_bus s0) (pci_bus s) /\
    slot (pci_bus s) vga_slot = Some d /\ ram <= 2 ^ p < 2 * ram /\
    w = (if Z.testbit (command d) 1 then bar_base (2 ^ p) (bar d 0) else NOT_MAPPED) /\
    forall a, a < VBE_LFB_ADDR -> pci_vga_addr w ram a =
      let b := bar_base (2 ^ p) (bar d 0) in if Z.testbit (command d) 1 && (b <=? a) && (a - b <? ram) then Some (a - b) else None.
Proof.
  intros Hram Hl. destruct (power_on ram Hram) as (s0 & d0 & p & E0 & Hb0 & _ & Hs0 & Hp & Hge & Hsz & Hty).
  destruct (run_ops_ok l s0 NOT_MAPPED Hb0 Hl) as (s & w & Er & Hb & Hsame). assert (Hv : 0 <= vga_slot < 256) by (unfold vga_slot; lia).
  pose proof (proj2 Hsame vga_slot Hv) as Hd. rewrite Hs0 in Hd. destruct (slot (pci_bus s) vga_slot) as [d|] eqn:Ed; [|done].
  destruct Hd as [(_ & _ & _ & Hr) _]. destruct (Hr 0) as (Hsz' & Hty' & _). rewrite Hsz in Hsz'. rewrite Hty in Hty'. pose proof (pow2_pos p ltac:(lia)).
  destruct (bo_device _ w Hb vga_slot d Hv Ed) as [Hdok Hag]. destruct (ro_call _ (do_region d Hdok 0 ltac:(lia))) as [[] Hc]; [lia|].
  destruct (Hag 0 ltac:(lia) tt Hc) as [He Hm]. rewrite Hsz' in Hm.
  assert (Hdec : enabled (region d 0) = Z.testbit (command d) 1).
  { rewrite He. unfold decodes, nz. rewrite Hsz', Hty'. destruct (Z.eqb_spec (2 ^ p) 0); [lia|]. cbn. apply andb_true_r. }
  assert (Hw : w = if Z.testbit (command d) 1 then bar_base (2 ^ p) (bar d 0) else NOT_MAPPED).
  { rewrite Hdec in Hm. change (mapped w tt) with (if w =? NOT_MAPPED then None else Some w) in Hm.
    destruct (Z.testbit (command d) 1); destruct (Z.eqb_spec w NOT_MAPPED); congruence. }
  exists s0, s, w, d, p. do 6 (split; [done|]). intros a Ha. unfold pci_vga_addr. destruct (Z.leb_spec VBE_LFB_ADDR a); [lia|]. cbn [andb]. rewrite Hw. cbv zeta.
  destruct (Z.testbit _ 1); [|by rewrite Z.eqb_refl]. destruct (Z.eqb_spec (bar_base (2 ^ p) (bar d 0)) NOT_MAPPED) as [E|]; [|done].
  pose proof (bar_base_aligned p (bar d 0) Hp) as Hal. rewrite E in Hal. discriminate Hal.
Qed.

(** The guest moves the window to 0xc0000000, turns it on and probes its size. *)
Definition guest_moves_window : list PciOp :=
  [WriteAddress (config_word vga_slot 0x10); WriteData 0 0xc0123456 2; WriteAddress (config_word vga_slot 4); WriteData 0 2 1; WriteData 0 0x1236 1; ReadData 2 1].
Lemma pci_window_witness : (3 <= 0x300000 <= 2 ^ 31 /\ Forall op_ok guest_moves_window) /\
  exists s0 s w d p, pc_pci_init 0x300000 = Done (s0, NOT_MAPPED) /\ run_ops guest_moves_window (s0, NOT_MAPPED) = Done (s, w) /\
    same_bus (pci_bus s0) (pci_bus s) /\ slot (pci_bus s) vga_slot = Some d /\ 0x300000 <= 2 ^ p < 2 * 0x300000 /\
    w = (if Z.testbit (command d) 1 then bar_base (2 ^ p) (bar d 0) else NOT_MAPPED) /\
    forall a, a < VBE_LFB_ADDR -> pci_vga_addr w 0x300000 a =
      let b := bar_base (2 ^ p) (bar d 0) in if Z.testbit (command d) 1 && (b <=? a) && (a - b <? 0x300000) then Some (a - b) else None.
Proof.
  assert (Hops : Forall op_ok guest_moves_window) by (repeat (apply Forall_cons_2; [cbn [op_ok]; repeat split; vm_compute; congruence|]); by apply Forall_nil_2).
  assert (Hram : 3 <= 0x300000 <= 2 ^ 31) by lia. split; [by split|]. exact (pci_window 0x300000 guest_moves_window Hram Hops).
Defined.
(** What it computes: the window of 4 MB is at 0xc0000000. *)
Example window_moved : (s ← pc_pci_init 0x300000; s ← run_ops guest_moves_window s; Done s.2) = Done 0xc0000000.
Proof. vm_compute. reflexivity. Qed.

Definition pc_bus : I440FXState unit := match pc_pci_init 0x300000 with Done (s, _) => s | Stuck _ => mkI440FX (mkBus 0 []) 0 0 end.
Definition pc_vga : PCIDevice unit := default (mkDevice 0 [] 0 []) (slot (pci_bus pc_bus) vga_slot).
Lemma pc_bus_ok : bus_ok (pci_bus pc_bus) NOT_MAPPED.
Proof. destruct (power_on 0x300000 ltac:(lia)) as (s & d & p & E & Hb & _). unfold pc_bus. by rewrite E. Qed.
Lemma bar_probe_witness : bus_ok (pci_bus pc_bus) NOT_MAPPED /\ size (region pc_vga 0) = 0x400000 /\
  exists s' w', run_ops [WriteAddress (config_word vga_slot (bar_offset 0)); WriteData 0 0xffffffff 2] (pc_bus, NOT_MAPPED) = Done (s', w') /\
    i440fx_read_data 0 2 s' = Done 0xffc00000 /\ bus_ok (pci_bus s') w'.
Proof.
  split; [exact pc_bus_ok|]. split; [vm_compute; reflexivity|].
  exact (bar_probe pc_bus NOT_MAPPED vga_slot 0 0xffffffff pc_vga pc_bus_ok eq_refl (conj (Z.lt_le_incl 0 16 eq_refl) eq_refl) (ltac:(vm_compute; reflexivity))
    (conj (Z.le_refl 0) eq_refl) (ltac:(vm_compute; congruence)) (conj (Z.lt_le_incl 0 0xffffffff eq_refl) eq_refl)).
Defined.
(** The finding on I/O windows: memory decoding alone turns them on. *)
Lemma io_window_by_memory a : decodes (K := unit) 2 0 a (mkRegion 16 PCI_ADDRESS_SPACE_IO false (Some tt)) = true.
Proof. reflexivity. Qed.

End Pci.
