(* ===== verification/Uart.v ===== *)
(** * Uart: the serial port (the U8250 part of winspire/misc.c)

    [U8250 P] is the device with the interrupt controller of type [P] that its
    [set_irq] callback drives.  The host's terminal is the class [Console]: a byte
    that is waiting, and the system call that writes one.  The operations are those
    of a host with a terminal; on the calculator [u8250_update] does nothing, which
    is a terminal on which nothing is ever typed. *)

From S2P Require Import Prelude I8259.

Module Uart.

(** ** Data *)

Record U8250 (P : Type) := mkU8250 {
  dll : Z; dlh : Z; lcr : Z; ier : Z; mcr : Z; ioready : Z; in_byte : Z; irq : Z; pic : P }.
Arguments mkU8250 {P}. Arguments dll {P}. Arguments dlh {P}. Arguments lcr {P}. Arguments ier {P}. Arguments mcr {P}.
Arguments ioready {P}. Arguments in_byte {P}. Arguments irq {P}. Arguments pic {P}.
#[export] Instance eta_u8250 P : Eta (U8250 P) := fun u =>
  mkU8250 (dll u) (dlh u) (lcr u) (ier u) (mcr u) (ioready u) (in_byte u) (irq u) (pic u).

(** The host's terminal: [kbhit] is [IsKBHit] with the byte [ReadKBByte] takes,
    [write1] is [write (out_fd, &val, 1)], which a signal interrupts or which ends,
    with the byte written or, at any other error, without. *)
Inductive WriteResult := Interrupted | Ended (written : bool).
Class Console (T : Type) := { kbhit : T -> option (Z * T); write1 : Z -> T -> WriteResult * T }.

(** What the operating system promises: [taken] lists the bytes read so far and [calls]
    the writes that ended, with their success; a call is interrupted finitely often. *)
Class ConsoleLaws (T : Type) `{Console T} := {
  taken : T -> list Z;
  calls : T -> list (Z * bool);
  signals : T -> nat;
  kbhit_taken o k o' : kbhit o = Some (k, o') -> taken o' = taken o ++ [u8 k] /\ calls o' = calls o;
  write_interrupted v o o' : write1 v o = (Interrupted, o') -> taken o' = taken o /\ calls o' = calls o /\ (signals o' < signals o)%nat;
  write_ended v b o o' : write1 v o = (Ended b, o') -> taken o' = taken o /\ calls o' = calls o ++ [(v, b)] }.
(** The bytes the device gave to the system, and those of them that reached the terminal. *)
Definition offered {T} `{ConsoleLaws T} (o : T) : list Z := (calls o).*1.
Definition shown {T} `{ConsoleLaws T} (o : T) : list Z := (filter (fun p => p.2 = true) (calls o)).*1.
Lemma all_shown {T} `{ConsoleLaws T} (o : T) : Forall (fun p => p.2 = true) (calls o) -> shown o = offered o.
Proof. intros Ho. unfold shown, offered. f_equal. induction Ho as [|p l Hp _ IH]; [done|]. by rewrite filter_cons_True, IH by done. Qed.

Section Device.
Context {P T : Type} `{IrqSink P} `{Console T}.
Implicit Types (u : U8250 P) (o : T).

(** ** Operations *)

Definition u8250_init (irq : Z) (p : P) : U8250 P := mkU8250 0 0 0 0 0 0 0 irq p.

Definition u8250_update_interrupts u : U8250 P :=
  u <| pic := set_irq (pic u) (irq u) (if nz (Z.land (ier u) (ioready u)) then 1 else 0) |>.

Definition DLAB u : bool := nz (Z.land (lcr u) (Z.shiftl 1 7)).

Definition u8250_reg_read (off : Z) u : Z * U8250 P :=
  match off with
  | 0 => if DLAB u then (dll u, u) else
         (in_byte u, u8250_update_interrupts (u <| ioready := Z.land (ioready u) (Z.lnot 1) |>))
  | 1 => if DLAB u then (dlh u, u) else (ier u, u)
  | 2 => (if nz (Z.land (ier u) (ioready u)) then 0 else 1, u)
  | 3 => (lcr u, u)
  | 4 => (mcr u, u)
  | 5 => (Z.lor 0x60 (Z.land (ioready u) 1), u)
  | 6 => (0xb0, u)
  | _ => (0, u)
  end.

(** [do r = write (..); while (r == -1 && errno == EINTR)]: another error is ignored. *)
Fixpoint write_retry (fuel : nat) (v : Z) o : outcome T :=
  match fuel with
  | 0%nat => Stuck Diverges
  | S fuel => let r := write1 v o in match r.1 with Interrupted => write_retry fuel v r.2 | Ended _ => Done r.2 end
  end.

(** [fuel] bounds the tries of the write to the terminal. *)
Definition u8250_reg_write (fuel : nat) (off v : Z) (s : U8250 P * T) : outcome (U8250 P * T) :=
  let u := s.1 in
  match off with
  | 0 => if DLAB u then Done (u <| dll := v |>, s.2) else (o ← write_retry fuel v s.2; Done (u, o))
  | 1 => if DLAB u then Done (u <| dlh := v |>, s.2) else
         let u := u <| ier := v |> in
         let u := u <| ioready := if nz (Z.land (ier u) 2) then Z.lor (ioready u) 2 else Z.land (ioready u) (Z.lnot 2) |> in
         Done (u8250_update_interrupts u, s.2)
  | 3 => Done (u <| lcr := v |>, s.2)
  | 4 => Done (u <| mcr := v |>, s.2)
  | _ => Done s
  end.

Definition u8250_update (s : U8250 P * T) : U8250 P * T :=
  let u := s.1 in
  match kbhit s.2 with
  | None => s
  | Some (k, o) =>
      if nz (Z.land (ioready u) 1) then s else
      (u8250_update_interrupts (u <| in_byte := u8 k |> <| ioready := Z.lor (ioready u) 1 |>), o)
  end.

End Device.

(** ** The registers and the interrupt line *)

Section Laws.
Context {P T : Type} `{IrqSinkLaws P} `{ConsoleLaws T}.
Implicit Types (u : U8250 P) (o : T).

Ltac uart_cbn := cbn [u8250_update_interrupts dll dlh lcr ier mcr ioready in_byte irq pic set_field].

(** The line is high exactly when an enabled cause is there, and the transmitter is
    always a cause when it is enabled. *)
Record uart_ok u : Prop := {
  uo_dll : inw 8 (dll u); uo_dlh : inw 8 (dlh u); uo_lcr : inw 8 (lcr u); uo_ier : inw 8 (ier u); uo_mcr : inw 8 (mcr u);
  uo_ready : inw 2 (ioready u); uo_in : inw 8 (in_byte u);
  uo_transmit : Z.testbit (ioready u) 1 = Z.testbit (ier u) 1;
  uo_irq : irq_line (irq u); uo_pic : sink_ok (pic u);
  uo_line : sink_high (pic u) (irq u) <-> nz (Z.land (ier u) (ioready u)) = true }.

(** All but the line, which [u8250_update_interrupts] drives. *)
Lemma update_ok u : inw 8 (dll u) -> inw 8 (dlh u) -> inw 8 (lcr u) -> inw 8 (ier u) -> inw 8 (mcr u) -> inw 2 (ioready u) -> inw 8 (in_byte u) ->
  Z.testbit (ioready u) 1 = Z.testbit (ier u) 1 -> irq_line (irq u) -> sink_ok (pic u) -> uart_ok (u8250_update_interrupts u).
Proof.
  intros ? ? ? ? ? ? ? ? Hi Hp. unfold u8250_update_interrupts. constructor; uart_cbn; try done.
  - by apply sink_set_ok.
  - destruct (nz _) eqn:E.
    + split; [done|]. intros _. by apply sink_high_set.
    + split; [|done]. intros Hh. by destruct (proj1 (sink_fall (pic u) (irq u) Hi Hp) Hh).
Qed.

Lemma clear_bit0 x : inw 2 x -> inw 2 (Z.land x (Z.lnot 1)) /\ Z.testbit (Z.land x (Z.lnot 1)) 0 = false /\ Z.testbit (Z.land x (Z.lnot 1)) 1 = Z.testbit x 1.
Proof. intros Hx. split; [by apply inw_land_l|]. rewrite !Z.land_spec. split; [apply andb_false_r|apply andb_true_r]. Qed.
Lemma low_bit_set x : nz (Z.land x 1) = Z.testbit x 0.
Proof. exact (land_bit_nz x 0 ltac:(lia)). Qed.
Lemma low_bit_is x : (Z.land x 1 =? 1) = Z.testbit x 0.
Proof. replace (Z.land x 1) with (x mod 2 ^ 1) by (symmetry; exact (land_ones_mod 1 x ltac:(lia))). change (2 ^ 1) with 2. rewrite <- Z.bit0_mod. by destruct (Z.testbit x 0). Qed.
Lemma status_bit x : Z.land (Z.lor 0x60 (Z.land x 1)) 1 = Z.land x 1.
Proof. by rewrite Z.land_lor_distr_l, <- Z.land_assoc. Qed.

Lemma read_ok off u : uart_ok u -> inw 8 (u8250_reg_read off u).1 /\ uart_ok (u8250_reg_read off u).2.
Proof.
  intros Hu. assert (Hc : uart_ok (u8250_update_interrupts (u <| ioready := Z.land (ioready u) (Z.lnot 1) |>))).
  { destruct Hu. destruct (clear_bit0 (ioready u)) as (? & _ & ?); [done|]. apply update_ok; uart_cbn; try done. congruence. }
  unfold u8250_reg_read. repeat case_match; subst; (split; [|first [exact Hc|exact Hu]]); cbn [fst]; first [apply Hu|auto with width].
Qed.

Lemma retry_ok fuel v o : (signals o < fuel)%nat -> exists o', write_retry fuel v o = Done o' /\ taken o' = taken o /\ offered o' = offered o ++ [v].
Proof.
  revert o. induction fuel as [|fuel IH]; intros o Hf; [lia|]. cbn [write_retry]. destruct (write1 v o) as [[|b] o'] eqn:E; cbn [fst snd].
  - destruct (write_interrupted v o o' E) as (Ht & Hs & Hlt). destruct (IH o' ltac:(lia)) as (o'' & E' & Ht' & Hs').
    exists o''. unfold offered in *. by rewrite E', Ht', Hs', Ht, Hs.
  - exists o'. destruct (write_ended v b o o' E) as [? Hs]. unfold offered. by rewrite Hs, fmap_app.
Qed.

(** A write: a byte at offset 0 is offered to the system, and only that. *)
Lemma write_ok fuel off v u o : uart_ok u -> inw 8 v -> (signals o < fuel)%nat ->
  exists u' o', u8250_reg_write fuel off v (u, o) = Done (u', o') /\ uart_ok u' /\ taken o' = taken o /\
    offered o' = offered o ++ (if (off =? 0) && negb (DLAB u) then [v] else []) /\ in_byte u' = in_byte u /\ Z.testbit (ioready u') 0 = Z.testbit (ioready u) 0.
Proof.
  intros Hu Hv Hf. unfold u8250_reg_write. cbn [fst snd].
  assert (Hskip : forall u', uart_ok u' -> in_byte u' = in_byte u -> ioready u' = ioready u ->
    exists u'' o', Done (u', o) = Done (u'', o') /\ uart_ok u'' /\ taken o' = taken o /\ offered o' = offered o ++ [] /\ in_byte u'' = in_byte u /\
      Z.testbit (ioready u'') 0 = Z.testbit (ioready u) 0).
  { intros u1 Ha Hb Hc. exists u1, o. by rewrite app_nil_r, Hb, Hc. }
  destruct off as [|p|p]; [| |by apply Hskip].
  - destruct (DLAB u); [apply Hskip; [destruct Hu; by constructor|done..]|].
    destruct (retry_ok fuel v o Hf) as (o' & -> & Ht & Hs). exists u, o'. done.
  - cbn [Z.eqb andb]. destruct p as [p|p|]; [destruct p as [p|p|]|destruct p as [p|p|]; [..|]|];
      try (by apply Hskip); try (apply Hskip; [destruct Hu; by constructor|done..]).
    + destruct p; try (by apply Hskip). apply Hskip; [destruct Hu; by constructor|done..].
    + destruct (DLAB u); [apply Hskip; [destruct Hu; by constructor|done..]|]. eexists _, o. split; [reflexivity|].
      assert (Hbit : nz (Z.land v 2) = Z.testbit v 1) by exact (land_bit_nz v 1 ltac:(lia)).
      split; [|split; [done|split; [by rewrite app_nil_r|split; [done|]]]].
      * destruct Hu. apply update_ok; uart_cbn; try done.
        -- destruct (nz (Z.land v 2)); [apply inw_lor; [done|split; vm_compute; congruence]|by apply inw_land_l].
        -- rewrite Hbit. destruct (Z.testbit v 1); rewrite ?Z.lor_spec, ?Z.land_spec; [apply orb_true_r|apply andb_false_r].
      * uart_cbn. destruct (nz (Z.land v 2)); rewrite ?Z.lor_spec, ?Z.land_spec; [apply orb_false_r|apply andb_true_r].
Qed.

(** A poll takes a byte of the terminal exactly when none is waiting. *)
Lemma poll_ok u o : uart_ok u -> let s := u8250_update (u, o) in uart_ok s.1 /\ offered s.2 = offered o /\
  ((s = (u, o)) \/ Z.testbit (ioready u) 0 = false /\ Z.testbit (ioready s.1) 0 = true /\ taken s.2 = taken o ++ [in_byte s.1]).
Proof.
  intros Hu. unfold u8250_update. cbn [fst snd]. destruct (kbhit o) as [[k o']|] eqn:E; [|by auto]. rewrite low_bit_set.
  destruct (Z.testbit (ioready u) 0) eqn:Hr; [by auto|]. destruct (kbhit_taken o k o' E) as [Ht Hs]. cbn [fst snd]. split; [|split; [unfold offered; by rewrite Hs|right; split; [done|split; [|done]]]].
  - destruct Hu. apply update_ok; uart_cbn; try done.
    + apply inw_lor; [done|split; vm_compute; congruence].
    + apply inw_u8.
    + rewrite Z.lor_spec. by rewrite orb_false_r.
  - uart_cbn. rewrite Z.lor_spec. apply orb_true_r.
Qed.

(** ** Sessions: the guest's accesses and the polls of the machine *)

Inductive UartOp := Read (off : Z) | Write (off v : Z) | Update.
Definition op_ok (a : UartOp) : Prop := match a with Write _ v => inw 8 v | _ => True end.

(** What an access gives the guest: a byte is received when offset 0 is read while
    the line status at offset 5 says that data is ready. *)
Definition received (a : UartOp) u : list Z :=
  match a with Read off => if (off =? 0) && negb (DLAB u) && (Z.land (u8250_reg_read 5 u).1 1 =? 1) then [(u8250_reg_read off u).1] else [] | _ => [] end.
Definition sent (a : UartOp) u : list Z := match a with Write off v => if (off =? 0) && negb (DLAB u) then [v] else [] | _ => [] end.
Definition run_op (a : UartOp) (s : U8250 P * T) : outcome (U8250 P * T) :=
  match a with
  | Read off => Done ((u8250_reg_read off s.1).2, s.2)
  | Write off v => u8250_reg_write (S (signals s.2)) off v s
  | Update => Done (u8250_update s)
  end.
(** The bytes received and sent by a session, and its end. *)
Fixpoint session (l : list UartOp) (s : U8250 P * T) : outcome (list Z * list Z * (U8250 P * T)) :=
  match l with
  | [] => Done ([], [], s)
  | a :: l => s' ← run_op a s; '(r, w, s'') ← session l s'; Done (received a s.1 ++ r, sent a s.1 ++ w, s'')
  end.

(** The byte that waits for the guest. *)
Definition waiting u : list Z := if Z.testbit (ioready u) 0 then [in_byte u] else [].

Lemma uart_op_ok a u o : uart_ok u -> op_ok a ->
  exists u' o', run_op a (u, o) = Done (u', o') /\ uart_ok u' /\ offered o' = offered o ++ sent a u /\
    exists new, taken o' = taken o ++ new /\ received a u ++ waiting u' = waiting u ++ new.
Proof.
  intros Hu Ha. destruct a as [off|off v|]; cbn [run_op fst snd received sent].
  - eexists _, o. split; [reflexivity|]. split; [by apply read_ok|]. rewrite !app_nil_r. split; [done|]. exists []. rewrite !app_nil_r. split; [done|].
    cbn [u8250_reg_read fst]. rewrite status_bit, low_bit_is. unfold waiting. destruct (Z.eqb_spec off 0) as [->|Hn].
    + cbn [u8250_reg_read andb]. destruct (DLAB u); [done|]. cbn [negb andb snd fst]. change (ioready (u8250_update_interrupts (u <| ioready := Z.land (ioready u) (Z.lnot 1) |>))) with (Z.land (ioready u) (Z.lnot 1)).
      destruct (clear_bit0 (ioready u)) as (_ & -> & _); [apply Hu|]. rewrite app_nil_r. by destruct (Z.testbit _ 0).
    + cbn [andb app]. assert (E : (u8250_reg_read off u).2 = u) by (unfold u8250_reg_read; repeat (case_match; try done)). by rewrite E.
  - destruct (write_ok (S (signals o)) off v u o Hu Ha ltac:(lia)) as (u' & o' & E & Hu' & Ht & Hs & Hin & Hr).
    exists u', o'. split; [done|]. split; [done|]. split; [done|]. exists []. rewrite !app_nil_r. split; [done|]. unfold waiting. by rewrite Hr, Hin.
  - destruct (poll_ok u o Hu) as (Hu' & Hs & Hc). destruct (u8250_update (u, o)) as [u' o'] eqn:E. cbn [fst snd] in Hu', Hs, Hc. exists u', o'. rewrite app_nil_r.
    split; [done|]. split; [done|]. split; [done|]. destruct Hc as [[= -> ->]|(Hr & Hr' & Ht)]; [exists []|exists [in_byte u']]; rewrite ?app_nil_r; (split; [done|]); [done|].
    unfold waiting. by rewrite Hr, Hr'.
Qed.

(** C37. The serial port loses and invents nothing: in every session of register
    accesses and polls, the bytes the guest receives are the bytes read from the
    terminal, once each and in order, but for one that may wait; the bytes it sends
    are given to the terminal once each and in order whatever signals interrupt the
    calls, all of them are shown unless the system refuses a write, which drops just
    that byte; and the interrupt line is high exactly when an enabled cause is there. *)
Theorem serial_stream irq (p : P) (o : T) l : irq_line irq -> sink_ok p -> ~ sink_high p irq -> taken o = [] -> calls o = [] -> Forall op_ok l ->
  exists r w u o', session l (u8250_init irq p, o) = Done (r, w, (u, o')) /\ taken o' = r ++ waiting u /\ (calls o').*1 = w /\ (Forall (fun p => p.2 = true) (calls o') -> shown o' = w) /\ uart_ok u.
Proof.
  intros Hi Hp Hl Ht Hs Hops. assert (Hu0 : uart_ok (u8250_init irq p)) by (constructor; cbn; auto with width; done).
  assert (Hgen : forall l u o, uart_ok u -> Forall op_ok l -> exists r w u' o', session l (u, o) = Done (r, w, (u', o')) /\ uart_ok u' /\ offered o' = offered o ++ w /\
    exists new, taken o' = taken o ++ new /\ r ++ waiting u' = waiting u ++ new).
  { clear. induction l as [|a l IH]; intros u o Hu Hl; [exists [], [], u, o; rewrite app_nil_r; do 3 (split; [done|]); exists []; by rewrite !app_nil_r|].
    inversion Hl as [|? ? Ha Hl']; subst. destruct (uart_op_ok a u o Hu Ha) as (u1 & o1 & E1 & Hu1 & Hs1 & n1 & Ht1 & Hr1).
    destruct (IH u1 o1 Hu1 Hl') as (r & w & u' & o' & E & Hu' & Hs & n & Ht & Hr). cbn [session]. rewrite E1, bind_of_done, E, bind_of_done. cbn [fst].
    do 4 eexists. split; [reflexivity|]. split; [done|]. split; [by rewrite Hs, Hs1, app_assoc|]. exists (n1 ++ n). split; [by rewrite Ht, Ht1, app_assoc|].
    by rewrite app_assoc, <- Hr1, <- !app_assoc, Hr. }
  destruct (Hgen l _ o Hu0 Hops) as (r & w & u & o' & E & Hu & Hs' & n & Ht' & Hr). assert (Ho : offered o' = w) by (rewrite Hs'; unfold offered; by rewrite Hs).
  exists r, w, u, o'. rewrite Ht', Ht, Hr. do 2 (split; [done|]). split; [exact Ho|]. split; [|done]. intros Ha. by rewrite all_shown.
Qed.
End Laws.

(** ** A terminal with given keys and interruptions *)

Record Script := mkScript { keys : list Z; read_keys : list Z; ended : list (Z * bool); interruptions : nat; refused : list Z }.
#[export] Instance script_console : Console Script := {
  kbhit s := match keys s with [] => None | k :: ks => Some (k, mkScript ks (read_keys s ++ [u8 k]) (ended s) (interruptions s) (refused s)) end;
  write1 v s := match interruptions s with
    | S n => (Interrupted, mkScript (keys s) (read_keys s) (ended s) n (refused s))
    | _ => let b := negb (bool_decide (v ∈ refused s)) in (Ended b, mkScript (keys s) (read_keys s) (ended s ++ [(v, b)]) 0 (refused s)) end }.
#[export] Instance script_console_laws : ConsoleLaws Script.
Proof.
  refine {| taken := read_keys; calls := ended; signals := interruptions |}.
  - intros [[|k ks] r w n l] k' o'; cbn; [done|]. by intros [= -> <-].
  - intros v [ks r w [|n] l] o'; cbn; [done|]. intros [= <-]. auto.
  - intros v b [ks r w [|n] l] o'; cbn; [|done]. by intros [= <- <-].
Defined.

#[local] Existing Instances Pic.pic_sink Pic.pic_sink_laws.

(** Two keys are typed; the guest enables the receive interrupt, reads them and answers;
    the terminal refuses the second answer. *)
Definition guest_echoes : list UartOp :=
  [Write 1 1; Update; Update; Read 5; Read 0; Write 0 0x41; Update; Read 5; Read 0; Read 5; Read 0; Write 0 0x42].
Definition typed_keys : Script := mkScript [0x61; 0x62] [] [] 3 [0x42].
Lemma serial_stream_witness : exists r w u o', session guest_echoes (u8250_init 4 (Done Pic.i8259_init), typed_keys) = Done (r, w, (u, o')) /\
  taken o' = r ++ waiting u /\ (calls o').*1 = w /\ (Forall (fun p => p.2 = true) (calls o') -> shown o' = w) /\ uart_ok u.
Proof.
  apply (serial_stream 4 (Done Pic.i8259_init) typed_keys guest_echoes); [split; [lia|done]| | |done|done|repeat constructor; vm_compute; congruence].
  - exists Pic.i8259_init. split; [reflexivity|]. split; apply Pic.pic_reset_wf.
  - vm_compute. intros (? & ? & ?). naive_solver.
Defined.
(** What it computes: the guest received "ab" and the terminal shows "A". *)
Example echo_received : (s ← session guest_echoes (u8250_init 4 (Done Pic.i8259_init), typed_keys); Done (s.1, shown s.2.2)) = Done ([0x61; 0x62], [0x41; 0x42], [0x41]).
Proof. vm_compute. reflexivity. Qed.

End Uart.
