(* ===== verification/Cmos.v ===== *)
(** * Cmos: the clock and the configuration memory (the CMOS part of winspire/misc.c)

    [CMOS P] is the device with the interrupt controller of type [P].  The calendar
    time comes from [gmtime], the periodic interrupt from the timer of the
    calculator build, [get_uticks] counted at 32768 Hz. *)

From S2P Require Import Prelude I8259 I8254.

Set Warnings "-clear-no-such-hyp".

Module Cmos.

(** ** Data *)

Record CMOS (P : Type) := mkCMOS { data : list Z; index : Z; irq : Z; irq_timeout : Z; irq_period : Z; pic : P }.
Arguments mkCMOS {P}. Arguments data {P}. Arguments index {P}. Arguments irq {P}. Arguments irq_timeout {P}. Arguments irq_period {P}. Arguments pic {P}.
#[export] Instance eta_cmos P : Eta (CMOS P) := fun s => mkCMOS (data s) (index s) (irq s) (irq_timeout s) (irq_period s) (pic s).

(** The fields of [struct tm] that are used. *)
Record tm := mkTm { tm_sec : Z; tm_min : Z; tm_hour : Z; tm_wday : Z; tm_mday : Z; tm_mon : Z; tm_year : Z }.

Definition CMOS_FREQ : Z := 32768.
Definition RTC_REG_A : Z := 10.
Definition RTC_REG_B : Z := 11.
Definition RTC_REG_C : Z := 12.
Definition REG_A_UIP : Z := 0x80.
Definition REG_B_PIE : Z := 0x40.

(** ** Operations *)

Definition bin2bcd (a : Z) : Z := Z.lor (Z.shiftl (Z.quot a 10) 4) (Z.rem a 10).

(** [s->data[i] = v] for several [i], in order *)
Fixpoint store (l : list Z) (w : list (Z * Z)) : outcome (list Z) :=
  match w with [] => Done l | (i, v) :: w => l ← wr l i (u8 v); store l w end.

Section Device.
Context {P : Type} `{IrqSink P} {C : Type} `{Clock C}.
Implicit Types (s : CMOS P) (c : C).

(** [t] is what [gmtime_r] makes of the time. *)
Definition cmos_update_time (t : tm) s : outcome (CMOS P) :=
  l ← store (data s) [(0, bin2bcd (tm_sec t)); (2, bin2bcd (tm_min t)); (4, bin2bcd (tm_hour t)); (6, bin2bcd (tm_wday t)); (7, bin2bcd (tm_mday t));
    (8, bin2bcd (tm_mon t + 1)); (9, bin2bcd (Z.rem (tm_year t) 100)); (0x32, bin2bcd (Z.quot (tm_year t) 100 + 19))];
  Done (s <| data := l |>).

(** The size of the memory: in kilobytes above the first megabyte, or in units of
    64 kilobytes above sixteen. *)
Definition memory_registers (mem_size : Z) : list (Z * Z) :=
  if 1024 * 1024 <=? mem_size then
    if 64 * 1024 * 1024 <=? mem_size then
      let m := mem_size - 16 * 1024 * 1024 in [(0x35, Z.shiftr m 24); (0x34, Z.shiftr m 16)]
    else let m := mem_size - 1024 * 1024 in [(0x31, Z.shiftr m 18); (0x30, Z.shiftr m 10)]
  else [].
Definition cmos_init (mem_size irq : Z) (p : P) t : outcome (CMOS P) :=
  let s := mkCMOS (replicate 128 0) 0 irq 0 0 p in
  s ← cmos_update_time t s;
  l ← store (data s) ([(10, 0x26); (11, 0x02); (12, 0x00); (13, 0x80)] ++ memory_registers mem_size);
  Done (s <| data := l |>).

Definition cmos_get_timer : ST C Z := t ← now; mret (u32 (u64 (t * CMOS_FREQ) / 1000000)).

(** [(t + period) & ~(period - 1)] *)
Definition next_period (t period : Z) : Z := Z.land (u32 (t + period)) (u32 (Z.lnot (u32 (period - 1)))).

Definition cmos_update_timer s : ST C (CMOS P) :=
  a ← lift (rd (data s) RTC_REG_A);
  let period_code := Z.land a 0x0f in
  b ← lift (rd (data s) RTC_REG_B);
  if nz (Z.land b REG_B_PIE) && nz period_code then
    let period_code := if period_code <=? 2 then period_code + 7 else period_code in
    let s := s <| irq_period := Z.shiftl 1 (period_code - 1) |> in
    t ← cmos_get_timer;
    mret (s <| irq_timeout := next_period t (irq_period s) |>)
  else mret s.

Definition cmos_update_irq s : ST C (CMOS P) :=
  b ← lift (rd (data s) RTC_REG_B);
  if nz (Z.land b REG_B_PIE) then
    t ← cmos_get_timer;
    let d := u32 (t - irq_timeout s) in
    if 0 <=? s32 d then
      r ← lift (rd (data s) RTC_REG_C);
      l ← lift (wr (data s) RTC_REG_C (Z.lor r 0xc0));
      let s := s <| data := l |> in
      let s := s <| pic := set_irq (set_irq (pic s) (irq s) 1) (irq s) 0 |> in
      mret (s <| irq_timeout := next_period t (irq_period s) |>)
    else mret s
  else mret s.

Definition cmos_ioport_read (addr : Z) (t : tm) s : outcome (Z * CMOS P) :=
  if addr =? 0x70 then Done (0xff, s) else
  s ← cmos_update_time t s; v ← rd (data s) (index s); Done (v, s).

Definition cmos_ioport_write (addr v : Z) s : ST C (CMOS P) :=
  if addr =? 0x70 then mret (s <| index := Z.land v 0x7f |>) else
  if index s =? RTC_REG_A then
    a ← lift (rd (data s) RTC_REG_A);
    l ← lift (wr (data s) RTC_REG_A (Z.lor (Z.land v (Z.lnot REG_A_UIP)) (Z.land a REG_A_UIP)));
    cmos_update_timer (s <| data := l |>)
  else if index s =? RTC_REG_B then l ← lift (wr (data s) (index s) v); cmos_update_timer (s <| data := l |>)
  else l ← lift (wr (data s) (index s) v); mret (s <| data := l |>).

Definition cmos_set (addr v : Z) s : outcome (Z * CMOS P) :=
  if addr <? 128 then l ← wr (data s) addr v; Done (v, s <| data := l |>) else Done (v, s).
End Device.

(** ** The registers *)

Definition tm_ok (t : tm) : Prop := 0 <= tm_sec t <= 60 /\ 0 <= tm_min t < 60 /\ 0 <= tm_hour t < 24 /\ 0 <= tm_wday t < 7 /\ 1 <= tm_mday t <= 31 /\
  0 <= tm_mon t < 12 /\ 0 <= tm_year t < 8100.
(** The registers that show the calendar, and what they show. *)
Definition calendar (t : tm) (i : Z) : option Z :=
  match i with
  | 0 => Some (tm_sec t) | 2 => Some (tm_min t) | 4 => Some (tm_hour t) | 6 => Some (tm_wday t) | 7 => Some (tm_mday t)
  | 8 => Some (tm_mon t + 1) | 9 => Some (Z.rem (tm_year t) 100) | 0x32 => Some (Z.quot (tm_year t) 100 + 19) | _ => None
  end.
Definition bcd2bin (v : Z) : Z := Z.shiftr v 4 * 10 + Z.land v 0xf.

Lemma bcd_roundtrip a : 0 <= a < 100 -> inw 8 (bin2bcd a) /\ bcd2bin (bin2bcd a) = a.
Proof.
  intros Ha. pose proof (all_below_spec 100 (fun a => (0 <=? bin2bcd a) && (bin2bcd a <? 256) && (bcd2bin (bin2bcd a) =? a)) a) as H.
  destruct (andb_prop _ _ (H ltac:(by vm_compute) Ha)) as [[?%Z.leb_le ?%Z.ltb_lt]%andb_prop ?%Z.eqb_eq]. by split.
Qed.

Lemma calendar_range t i a : tm_ok t -> calendar t i = Some a -> 0 <= i < 128 /\ 0 <= a < 100.
Proof.
  intros (? & ? & ? & ? & ? & ? & ?). rewrite ?Z.rem_mod_nonneg, ?Z.quot_div_nonneg by lia.
  assert (0 <= Z.rem (tm_year t) 100 < 100) by (apply Z.rem_bound_pos; lia).
  assert (0 <= Z.quot (tm_year t) 100 < 81) by (split; [apply Z.quot_pos; lia|apply Z.quot_lt_upper_bound; lia]).
  unfold calendar. repeat case_match; intros [= <-]; subst; lia.
Qed.

(** A memory of 128 bytes. *)
Definition bytes (l : list Z) : Prop := alen l = 128 /\ forall j, inw 8 (arr l j).
Lemma bytes_set l i v : bytes l -> inw 8 v -> bytes (arr_set l i v).
Proof.
  intros [Hl Hb] Hv. split; [by rewrite alen_set|]. intros j. unfold arr, arr_set.
  destruct (decide (Z.to_nat i = Z.to_nat j)) as [<-|]; [|rewrite list_lookup_total_insert_ne by done; apply Hb].
  destruct (decide (Z.to_nat i < length l)%nat); [by rewrite list_lookup_total_insert_eq by done|].
  rewrite list_insert_ge by lia. apply Hb.
Qed.

(** [store] of distinct registers: each holds what was stored, the others are kept. *)
Fixpoint lookup_last (w : list (Z * Z)) (j : Z) : option Z :=
  match w with [] => None | (i, v) :: w => match lookup_last w j with Some v => Some v | None => if i =? j then Some (u8 v) else None end end.
Lemma store_ok w l : bytes l -> Forall (fun p => 0 <= p.1 < 128) w ->
  exists l', store l w = Done l' /\ bytes l' /\ forall j, 0 <= j < 128 -> arr l' j = default (arr l j) (lookup_last w j).
Proof.
  revert l. induction w as [|[i v] w IH]; intros l Hl Hw; [by exists l|]. inversion Hw as [|? ? Hi Hw']; subst. cbn [fst] in Hi. cbn [store lookup_last].
  assert (Hlen := proj1 Hl). rewrite wr_in, bind_of_done by lia. destruct (IH (arr_set l i (u8 v))) as (l' & -> & Hl' & Hv); [apply bytes_set; [done|apply inw_u8]|done|].
  exists l'. split; [done|]. split; [done|]. intros j Hj. rewrite Hv by done. destruct (lookup_last w j); [done|]. cbn [default].
  destruct (Z.eqb_spec i j) as [->|]; [by rewrite arr_set_eq by lia|by rewrite arr_set_ne by lia].
Qed.

Section Laws.
Context {P : Type} `{IrqSinkLaws P} {C : Type} `{ClockLaws C}.
Implicit Types (s : CMOS P) (c : C).

(** The invariant: every access is inside the memory, and the period is a power of two. *)
Record cmos_ok s : Prop := {
  co_data : bytes (data s); co_index : 0 <= index s < 128; co_timeout : inw 32 (irq_timeout s);
  co_period : irq_period s = 0 \/ exists k, 0 <= k < 15 /\ irq_period s = 2 ^ k;
  co_uip : Z.testbit (arr (data s) RTC_REG_A) 7 = false; co_irq : irq_line (irq s); co_pic : sink_ok (pic s) }.

Lemma update_time_ok (t : tm) s : cmos_ok s -> tm_ok t -> exists l, cmos_update_time t s = Done (s <| data := l |>) /\ bytes l /\
  forall j, 0 <= j < 128 -> arr l j = match calendar t j with Some a => bin2bcd a | None => arr (data s) j end.
Proof.
  intros Hs Ht. unfold cmos_update_time. destruct (store_ok [(0, bin2bcd (tm_sec t)); (2, bin2bcd (tm_min t)); (4, bin2bcd (tm_hour t)); (6, bin2bcd (tm_wday t)); (7, bin2bcd (tm_mday t));
    (8, bin2bcd (tm_mon t + 1)); (9, bin2bcd (Z.rem (tm_year t) 100)); (0x32, bin2bcd (Z.quot (tm_year t) 100 + 19))] (data s)) as (l & -> & Hl & Hv).
  - apply Hs.
  - repeat (apply Forall_cons_2; [cbn; lia|]). by apply Forall_nil_2.
  - exists l. split; [done|]. split; [done|]. intros j Hj. rewrite (Hv j Hj).
    assert (Hc : forall a, calendar t j = Some a -> u8 (bin2bcd a) = bin2bcd a) by (intros a Ha; apply u8_id, bcd_roundtrip, (calendar_range t j a Ht Ha)).
    cbn [lookup_last]. repeat match goal with |- context [?k =? j] => is_ground k; destruct (Z.eq_dec j k) as [->|];
      [cbn [Z.eqb Pos.eqb]; cbv beta iota delta [default from_option id]; by apply Hc|rewrite (proj2 (Z.eqb_neq k j)) by congruence] end.
    cbn [default]. unfold calendar. repeat (case_match; try done).
Qed.

(** *** The timer *)

Definition ticks (u : Z) : Z := u32 (u64 (u * CMOS_FREQ) / 1000000).
Lemma timer_eq c : cmos_get_timer c = Done (ticks (get_uticks c).1, (get_uticks c).2).
Proof. unfold cmos_get_timer, now, mbind, ST_bind. by destruct (get_uticks c). Qed.
(** The counter never comes near the width of its type. *)
Lemma ticks_bound u : inw 32 u -> ticks u = u * CMOS_FREQ / 1000000 /\ 0 <= ticks u < 2 ^ 28.
Proof.
  intros Hu. unfold ticks, CMOS_FREQ, inw in *. assert (Hb : 0 <= u * 32768 / 1000000 < 2 ^ 28) by (split; [apply Z.div_pos; lia|apply Z.div_lt_upper_bound; lia]).
  rewrite u64_id by (unfold inw; lia). rewrite u32_id by (unfold inw; lia). done.
Qed.
Lemma next_period_spec k t : 0 <= k < 15 -> 0 <= t < 2 ^ 28 -> next_period t (2 ^ k) = (t / 2 ^ k + 1) * 2 ^ k.
Proof.
  intros Hk Ht. assert (0 < 2 ^ k < 2 ^ 15) by (split; [apply pow2_pos; lia|apply Z.pow_lt_mono_r; lia]).
  assert (Hin : inw 32 (t + 2 ^ k)) by (unfold inw; lia). unfold next_period. rewrite (u32_id (t + 2 ^ k)) by done.
  rewrite (u32_id (2 ^ k - 1)) by (unfold inw; lia). replace (2 ^ k - 1) with (Z.ones k) by (rewrite Z.ones_equiv; lia).
  replace ((t / 2 ^ k + 1) * 2 ^ k) with (Z.shiftl (Z.shiftr (t + 2 ^ k) k) k).
  - rewrite <- Z.ldiff_ones_r by lia. apply (bits_ext 32); [lia|by apply inw_land_l| |].
    + rewrite Z.ldiff_land. by apply inw_land_l.
    + intros i Hi. rewrite Z.land_spec, Z.ldiff_spec. unfold u32. by rewrite Z.mod_pow2_bits_low, Z.lnot_spec by lia.
  - rewrite Z.shiftl_mul_pow2, Z.shiftr_div_pow2 by lia. f_equal. rewrite <- (Z.mul_1_l (2 ^ k)) at 1. by rewrite Z.div_add by lia.
Qed.
Lemma next_period_word t p : inw 32 (next_period t p).
Proof. apply inw_land_r, inw_u32. Qed.

(** The period a rate of register A stands for. *)
Definition rate_log (code : Z) : Z := (if code <=? 2 then code + 7 else code) - 1.
Lemma rate_log_range a : Z.land a 0x0f <> 0 -> 0 <= rate_log (Z.land a 0x0f) < 15.
Proof.
  intros Hn. assert (0 <= Z.land a 0x0f < 16) by (pose proof (land_ones_mod 4 a ltac:(lia)) as E; change (2 ^ 4 - 1) with 0x0f in E; rewrite E; apply Z.mod_pos_bound; lia).
  unfold rate_log. destruct (Z.leb_spec (Z.land a 0x0f) 2); lia.
Qed.
Definition periodic s : bool := Z.testbit (arr (data s) RTC_REG_B) 6.
Lemma pie_bit v : nz (Z.land v REG_B_PIE) = Z.testbit v 6.
Proof. exact (land_bit_nz v 6 ltac:(lia)). Qed.

Lemma update_timer_eq s c : bytes (data s) -> cmos_update_timer s c =
  let code := Z.land (arr (data s) RTC_REG_A) 0x0f in let p := 2 ^ rate_log code in
  if periodic s && nz code then Done (s <| irq_period := p |> <| irq_timeout := next_period (ticks (get_uticks c).1) p |>, (get_uticks c).2) else Done (s, c).
Proof.
  intros [Hl _]. unfold cmos_update_timer, periodic. rewrite !rd_in by (unfold RTC_REG_A, RTC_REG_B; lia). cbv zeta.
  unfold lift, mbind, ST_bind. cbn [fst snd]. rewrite pie_bit. destruct (_ && _) eqn:E; [|done]. apply andb_prop in E as [_ E].
  rewrite timer_eq. cbn [fst snd]. unfold mret, ST_ret. unfold nz in E. apply negb_true_iff, Z.eqb_neq in E. pose proof (rate_log_range _ E) as Hr. unfold rate_log in *.
  by rewrite Z.shiftl_1_l by lia.
Qed.
Lemma update_timer_ok s c : cmos_ok s -> run_to (cmos_update_timer s) c (fun s' _ => cmos_ok s' /\ data s' = data s /\ index s' = index s /\ irq s' = irq s /\ pic s' = pic s).
Proof.
  intros Hs. unfold run_to. rewrite update_timer_eq by apply Hs. cbv zeta. destruct (periodic s && _) eqn:E; [|by exists s, c].
  apply andb_prop in E as [_ E]. unfold nz in E. apply negb_true_iff, Z.eqb_neq in E. eexists _, _. split; [reflexivity|]. split; [|done].
  destruct Hs. constructor; try done; [apply next_period_word|]. right. exists (rate_log (Z.land (arr (data s) RTC_REG_A) 0x0f)). split; [by apply rate_log_range|done].
Qed.

(** The poll: an interrupt is due when the timer has reached the timeout. *)
Definition due s c : bool := periodic s && (0 <=? s32 (u32 (ticks (get_uticks c).1 - irq_timeout s))).
Lemma update_irq_eq s c : bytes (data s) -> cmos_update_irq s c =
  let c' := if periodic s then (get_uticks c).2 else c in
  if due s c then Done (s <| data := arr_set (data s) RTC_REG_C (Z.lor (arr (data s) RTC_REG_C) 0xc0) |> <| pic := pulse_irq (pic s) (irq s) |>
    <| irq_timeout := next_period (ticks (get_uticks c).1) (irq_period s) |>, c') else Done (s, c').
Proof.
  intros [Hl _]. unfold cmos_update_irq, due, periodic. rewrite (rd_in (data s) RTC_REG_B) by (unfold RTC_REG_B; lia). unfold lift, mbind, ST_bind. cbn [fst snd]. rewrite pie_bit.
  destruct (Z.testbit _ 6); [|done]. rewrite timer_eq. cbn [fst snd andb]. destruct (0 <=? _); [|done].
  rewrite rd_in, wr_in by (unfold RTC_REG_C; lia). done.
Qed.
Lemma pulse_ok s : cmos_ok s -> sink_ok (pulse_irq (pic s) (irq s)).
Proof. intros Hs. apply sink_set_ok; [apply Hs|]. apply sink_set_ok; apply Hs. Qed.
Lemma update_irq_ok s c : cmos_ok s -> run_to (cmos_update_irq s) c (fun s' _ => cmos_ok s').
Proof.
  intros Hs. unfold run_to. rewrite update_irq_eq by apply Hs. cbv zeta. destruct (due s c); [|by eexists _, _].
  eexists _, _. split; [reflexivity|]. pose proof (pulse_ok s Hs). destruct Hs. constructor; cbn [data index irq irq_timeout irq_period pic set_field]; try done.
  - apply bytes_set; [done|]. apply inw_lor; [by apply co_data0|split; vm_compute; congruence].
  - apply next_period_word.
  - by rewrite arr_set_ne by (done || unfold RTC_REG_C, RTC_REG_A; lia).
Qed.

(** *** Port accesses *)

Lemma uip_kept v a : Z.testbit a 7 = false -> Z.lor (Z.land v (Z.lnot REG_A_UIP)) (Z.land a REG_A_UIP) = Z.land v (Z.lnot REG_A_UIP).
Proof.
  intros Ha. assert (E : Z.land a REG_A_UIP = 0); [|by rewrite E, Z.lor_0_r].
  pose proof (land_bit_nz a 7 ltac:(lia)) as Hn. rewrite Ha in Hn. unfold nz in Hn. apply negb_false_iff, Z.eqb_eq in Hn. exact Hn.
Qed.
Definition stored (i v : Z) : Z := if i =? RTC_REG_A then Z.land v (Z.lnot REG_A_UIP) else v.
Lemma stored_byte i v : inw 8 v -> inw 8 (stored i v).
Proof. intros Hv. unfold stored. destruct (_ =? _); [by apply inw_land_l|done]. Qed.
Lemma with_data s i v : cmos_ok s -> 0 <= i < 128 -> inw 8 v -> (i = RTC_REG_A -> Z.testbit v 7 = false) -> cmos_ok (s <| data := arr_set (data s) i v |>).
Proof.
  intros Hs Hi Hv Hu. destruct Hs. constructor; cbn [data index irq irq_timeout irq_period pic set_field]; try done; [by apply bytes_set|].
  destruct (Z.eq_dec i RTC_REG_A) as [->|]; [rewrite arr_set_eq by (rewrite (proj1 co_data0); lia); by apply Hu|].
  by rewrite arr_set_ne by (done || unfold RTC_REG_A; lia).
Qed.
(** The write to the data port: the selected register holds the value. *)
Lemma write_data_eq v s c : cmos_ok s -> inw 8 v ->
  let s' := s <| data := arr_set (data s) (index s) (stored (index s) v) |> in
  cmos_ok s' /\ cmos_ioport_write 0x71 v s c = if (index s =? RTC_REG_A) || (index s =? RTC_REG_B) then cmos_update_timer s' c else Done (s', c).
Proof.
  intros Hs Hv. pose proof (co_index s Hs) as Hi. pose proof (proj1 (co_data s Hs)) as Hl. cbv zeta. split.
  - apply with_data; [done|done|by apply stored_byte|]. intros ->. unfold stored. rewrite Z.eqb_refl, Z.land_spec. apply andb_false_r.
  - unfold cmos_ioport_write, stored. change (0x71 =? 0x70) with false. cbv iota. destruct (Z.eqb_spec (index s) RTC_REG_A) as [E|].
    + rewrite rd_in by (rewrite <- E; lia). unfold lift, mbind, ST_bind. cbn [fst snd orb]. rewrite wr_in by (rewrite <- E; lia). rewrite uip_kept by apply Hs. by rewrite E.
    + destruct (Z.eqb_spec (index s) RTC_REG_B); rewrite wr_in by lia; done.
Qed.
Lemma write_data_ok v s c : cmos_ok s -> inw 8 v -> run_to (cmos_ioport_write 0x71 v s) c (fun s' _ =>
  cmos_ok s' /\ data s' = arr_set (data s) (index s) (stored (index s) v) /\ index s' = index s).
Proof.
  intros Hs Hv. destruct (write_data_eq v s c Hs Hv) as [Hs' E]. unfold run_to. rewrite E. destruct (_ || _); [|by eexists _, _].
  destruct (update_timer_ok _ c Hs') as (s2 & c2 & E2 & Hs2 & Hd & Hi & _). exists s2, c2. by rewrite Hd, Hi.
Qed.
Lemma select_eq v s c : cmos_ioport_write 0x70 v s c = Done (s <| index := Z.land v 0x7f |>, c).
Proof. reflexivity. Qed.
Lemma select_index_ok v s : cmos_ok s -> cmos_ok (s <| index := Z.land v 0x7f |>).
Proof.
  intros Hs. destruct Hs. constructor; try done. cbn. pose proof (land_ones_mod 7 v ltac:(lia)) as E. change (2 ^ 7 - 1) with 0x7f in E. rewrite E. apply Z.mod_pos_bound. lia.
Qed.
Lemma read_data_ok (t : tm) s : cmos_ok s -> tm_ok t -> exists s', cmos_ioport_read 0x71 t s =
  Done (match calendar t (index s) with Some a => bin2bcd a | None => arr (data s) (index s) end, s') /\ cmos_ok s'.
Proof.
  intros Hs Ht. destruct (update_time_ok t s Hs Ht) as (l & E & Hl & Hv). pose proof (co_index s Hs). exists (s <| data := l |>).
  unfold cmos_ioport_read. change (0x71 =? 0x70) with false. cbv iota. rewrite E, bind_of_done. change (data (s <| data := l |>)) with l. change (index (s <| data := l |>)) with (index s).
  rewrite rd_in, bind_of_done by (rewrite (proj1 Hl); lia). split; [by rewrite Hv|]. destruct Hs. constructor; try done.
  cbn [data set_field]. rewrite Hv by (unfold RTC_REG_A; lia). done.
Qed.

(** What the machine does: port accesses, with the time at each read, and polls. *)
Inductive CmosOp := Select (v : Z) | WriteData (v : Z) | ReadData (t : tm) | Poll.
Definition op_ok (o : CmosOp) : Prop := match o with Select v | WriteData v => inw 8 v | ReadData t => tm_ok t | Poll => True end.
Definition run_op (o : CmosOp) s : ST C (CMOS P) :=
  match o with
  | Select v => cmos_ioport_write 0x70 v s
  | WriteData v => cmos_ioport_write 0x71 v s
  | ReadData t => r ← lift (cmos_ioport_read 0x71 t s); mret r.2
  | Poll => cmos_update_irq s
  end.
Fixpoint run_ops (l : list CmosOp) s : ST C (CMOS P) := match l with [] => mret s | o :: l => s ← run_op o s; run_ops l s end.
Lemma cmos_ops_ok l s c : cmos_ok s -> Forall op_ok l -> run_to (run_ops l s) c (fun s' _ => cmos_ok s').
Proof.
  revert s c. induction l as [|o l IH]; intros s c Hs Hl; [by apply run_ret|]. inversion Hl as [|? ? Ho Hl']; subst. cbn [run_ops].
  eapply (run_bind _ _ _ (fun s' _ => cmos_ok s')); [|intros s' c' Hs'; by apply IH]. destruct o as [v|v|t|]; cbn [run_op op_ok] in *.
  - unfold run_to. rewrite select_eq. eexists _, _. split; [done|by apply select_index_ok].
  - eapply run_mono; [by apply write_data_ok|]. by intros ? ? [? _].
  - destruct (read_data_ok t s Hs Ho) as (s' & E & Hs'). eapply run_lift_then; [exact E|]. by apply run_ret.
  - by apply update_irq_ok.
Qed.

Lemma init_ok mem_size irq (p : P) (t : tm) : irq_line irq -> sink_ok p -> tm_ok t ->
  exists s, cmos_init mem_size irq p t = Done s /\ cmos_ok s /\
    forall j, j ∈ [0x30; 0x31; 0x34; 0x35] -> arr (data s) j = default 0 (lookup_last (memory_registers mem_size) j).
Proof.
  intros Hi Hp Ht. unfold cmos_init. set (s0 := mkCMOS (replicate 128 0) 0 irq 0 0 p).
  assert (Hz : bytes (replicate 128 0)).
  { split; [done|]. intros j. unfold arr. destruct (decide (Z.to_nat j < 128)%nat); [rewrite lookup_total_replicate_2 by done; auto with width|].
    rewrite list_lookup_total_alt, lookup_ge_None_2 by (rewrite length_replicate; lia). vm_compute. split; congruence. }
  assert (Hs0 : cmos_ok s0) by (constructor; cbn; first [done|lia|by left|auto with width]).
  destruct (update_time_ok t s0 Hs0 Ht) as (l & -> & Hl & Hv). rewrite bind_of_done. change (data (s0 <| data := l |>)) with l.
  destruct (store_ok ([(10, 0x26); (11, 0x02); (12, 0x00); (13, 0x80)] ++ memory_registers mem_size) l Hl) as (l' & -> & Hl' & Hv').
  { repeat (apply Forall_cons_2; [cbn; lia|]). unfold memory_registers. repeat case_match; repeat (apply Forall_cons_2; [cbn; lia|]); by apply Forall_nil_2. }
  rewrite bind_of_done. eexists. split; [reflexivity|]. split.
  - constructor; try first [done|lia|by left|by auto with width].
    rewrite Hv' by (unfold RTC_REG_A; lia). unfold memory_registers. repeat case_match; done.
  - intros j Hj. cbn [data set_field]. repeat (apply elem_of_cons in Hj as [->|Hj]; [rewrite Hv' by lia; cbn [app lookup_last Z.eqb Pos.eqb];
      destruct (lookup_last _ _); [done|]; cbn [default from_option]; by rewrite Hv by lia|]). by apply elem_of_nil in Hj.
Qed.

(** The memory that a reader of the registers computes. *)
Definition memory_read (l : list Z) : Z :=
  let hi := arr l 0x34 + 256 * arr l 0x35 in
  if hi =? 0 then (arr l 0x30 + 256 * arr l 0x31) * 1024 + 1024 * 1024 else hi * 65536 + 16 * 1024 * 1024.

Lemma bytes_of_word q : inw 16 q -> u8 q + 256 * u8 (q / 256) = q.
Proof.
  intros Hq. unfold inw in Hq. unfold u8. rewrite (Z.mod_small (q / 256)) by (split; [apply Z.div_pos; lia|apply Z.div_lt_upper_bound; lia]).
  pose proof (Z.div_mod q 256). change (2 ^ 8) with 256. lia.
Qed.
(** The registers tell the size of the memory, rounded down to a kilobyte, or from
    64 megabytes on to 64 kilobytes. *)
Lemma memory_size_read mem_size irq (p : P) (t : tm) : irq_line irq -> sink_ok p -> tm_ok t -> 2 ^ 20 <= mem_size < 2 ^ 31 ->
  exists s, cmos_init mem_size irq p t = Done s /\ memory_read (data s) = mem_size - mem_size mod (if 2 ^ 26 <=? mem_size then 2 ^ 16 else 2 ^ 10).
Proof.
  intros Hi Hp Ht Hm. destruct (init_ok mem_size irq p t Hi Hp Ht) as (s & E & _ & Hr). exists s. split; [done|]. unfold memory_read.
  rewrite !Hr by set_solver. unfold memory_registers. change (1024 * 1024) with (2 ^ 20). change (64 * 2 ^ 20) with (2 ^ 26). change (64 * 1024 * 1024) with (2 ^ 26).
  change (16 * 1024 * 1024) with (2 ^ 24). destruct (Z.leb_spec (2 ^ 20) mem_size); [|lia]. destruct (Z.leb_spec (2 ^ 26) mem_size); cbn [lookup_last Z.eqb Pos.eqb default from_option id].
  - set (m := mem_size - 2 ^ 24). assert (Hq : inw 16 (m / 2 ^ 16)) by (unfold m; split; [apply Z.div_pos; lia|apply Z.div_lt_upper_bound; lia]).
    assert (0 < m / 2 ^ 16) by (apply Z.div_str_pos; unfold m; lia).
    rewrite !Z.shiftr_div_pow2 by lia. replace (m / 2 ^ 24) with (m / 2 ^ 16 / 256) by (rewrite Z.div_div by lia; done). rewrite (bytes_of_word _ Hq).
    destruct (Z.eqb_spec (m / 2 ^ 16) 0); [lia|]. pose proof (Z.div_mod m (2 ^ 16)). replace (mem_size mod 2 ^ 16) with (m mod 2 ^ 16); [lia|].
    unfold m. replace (mem_size - 2 ^ 24) with (mem_size + (- 2 ^ 8) * 2 ^ 16) by lia. apply Z.mod_add. lia.
  - set (m := mem_size - 2 ^ 20). assert (Hq : inw 16 (m / 2 ^ 10)) by (unfold m; split; [apply Z.div_pos; lia|apply Z.div_lt_upper_bound; lia]).
    rewrite !Z.shiftr_div_pow2 by lia. replace (m / 2 ^ 18) with (m / 2 ^ 10 / 256) by (rewrite Z.div_div by lia; done). rewrite (bytes_of_word _ Hq).
    pose proof (Z.div_mod m (2 ^ 10)). replace (mem_size mod 2 ^ 10) with (m mod 2 ^ 10); [change (0 + 256 * 0 =? 0) with true; cbv iota; lia|].
    unfold m. replace (mem_size - 2 ^ 20) with (mem_size + (- 2 ^ 10) * 2 ^ 10) by lia. apply Z.mod_add. lia.
Qed.

(** The configuration memory from power-on: no session of port accesses and polls
    leaves the memory, and then a register that is written through the two ports
    reads back as written, whatever its top selector bit, except the update flag of
    register A, and the calendar registers, which show the time in BCD. *)
Theorem registers_read_back mem_size irq (p : P) (t0 t : tm) l i v c : irq_line irq -> sink_ok p -> tm_ok t0 -> tm_ok t -> Forall op_ok l -> inw 8 i -> inw 8 v ->
  run_to (s ← lift (cmos_init mem_size irq p t0); s ← run_ops l s; s ← cmos_ioport_write 0x70 i s; s ← cmos_ioport_write 0x71 v s; lift (cmos_ioport_read 0x71 t s)) c
    (fun r _ => let j := i mod 128 in match calendar t j with
       | Some a => bcd2bin r.1 = a
       | None => r.1 = if j =? RTC_REG_A then v mod 128 else v end).
Proof.
  intros Hi Hp Ht0 Ht Hl Hri Hv. destruct (init_ok mem_size irq p t0 Hi Hp Ht0) as (s0 & E0 & Hs0 & _). eapply run_lift_then; [exact E0|].
  eapply run_bind; [by apply cmos_ops_ok|]. intros s1 c1 Hs1. eapply run_step; [apply select_eq|].
  eapply run_bind; [apply (write_data_ok v _ c1 (select_index_ok i s1 Hs1) Hv)|]. intros s2 c2 (Hs2 & Hd & Hx). cbn [data index set_field] in Hd, Hx.
  destruct (read_data_ok t s2 Hs2 Ht) as (s3 & E3 & _). eapply run_lift; [exact E3|]. cbv zeta. cbn [fst].
  assert (Ej : Z.land i 0x7f = i mod 128) by exact (land_ones_mod 7 i ltac:(lia)). pose proof (co_index s2 Hs2). rewrite Hx, Ej in *.
  destruct (calendar t (i mod 128)) as [a|] eqn:Ec; [by apply bcd_roundtrip, (calendar_range t (i mod 128) a Ht)|].
  rewrite Hd, arr_set_eq by (rewrite (proj1 (co_data s1 Hs1)); lia). unfold stored. destruct (_ =? _); [|done].
  unfold REG_A_UIP. change 128 with (2 ^ 7) at 2. rewrite <- Z.land_ones by lia. apply Z.bits_inj'. intros k Hk. rewrite !Z.land_spec.
  destruct (Z.lt_ge_cases k 8); [|by rewrite (inw_testbit_high 8 v) by (done || lia)]. f_equal.
  pose proof (all_below_spec 8 (fun k => eqb (Z.testbit (Z.lnot 128) k) (Z.testbit (Z.ones 7) k)) k ltac:(by vm_compute) ltac:(lia)) as Hb. by apply eqb_prop in Hb.
Qed.

(** *** The periodic interrupt *)

Fixpoint polls (n : nat) s : ST C (CMOS P) := match n with 0%nat => mret s | S n => s ← cmos_update_irq s; polls n s end.

(** Between two polls: the interrupt of period [q] has been given. *)
Record waits_for s (k q : Z) : Prop := {
  wf_data : bytes (data s); wf_on : periodic s = true; wf_log : 0 <= k < 15; wf_period : irq_period s = 2 ^ k; wf_timeout : irq_timeout s = (q + 1) * 2 ^ k }.

Lemma due_later s k q c : waits_for s k q -> 0 <= q -> q * 2 ^ k < 2 ^ 28 -> due s c = (q <? ticks (get_uticks c).1 / 2 ^ k).
Proof.
  intros [Hd Hon Hk Hp Ht] Hq0 Hq. unfold due. rewrite Hon, Ht. cbn [andb]. pose proof (uticks_width c) as Hu. destruct (ticks_bound _ Hu) as [_ Hb].
  set (t := ticks (get_uticks c).1) in *. assert (0 < 2 ^ k < 2 ^ 15) by (split; [apply pow2_pos; lia|apply Z.pow_lt_mono_r; lia]).
  destruct (Z.ltb_spec q (t / 2 ^ k)) as [Hlt|Hge].
  - assert ((q + 1) * 2 ^ k <= t) by (transitivity (t / 2 ^ k * 2 ^ k); [nia|]; pose proof (Z.mul_div_le t (2 ^ k)); lia).
    apply Z.leb_le. unfold s32, sgn, u32. rewrite Z.mod_mod, (Z.mod_small (t - _)) by nia. destruct (Z.ltb_spec (t - (q + 1) * 2 ^ k) (2 ^ (32 - 1))); [lia|nia].
  - assert (t < (q + 1) * 2 ^ k) by (pose proof (Z.mul_succ_div_gt t (2 ^ k)); nia).
    apply Z.leb_gt. unfold s32, sgn, u32. rewrite Z.mod_mod by lia. replace ((t - (q + 1) * 2 ^ k) mod 2 ^ 32) with (2 ^ 32 - ((q + 1) * 2 ^ k - t)).
    + destruct (Z.ltb_spec (2 ^ 32 - ((q + 1) * 2 ^ k - t)) (2 ^ (32 - 1))); lia.
    + symmetry. rewrite <- (Z.mod_small (2 ^ 32 - ((q + 1) * 2 ^ k - t)) (2 ^ 32)) by lia.
      replace (t - (q + 1) * 2 ^ k) with (2 ^ 32 - ((q + 1) * 2 ^ k - t) + (-1) * 2 ^ 32) by lia. apply Z.mod_add. lia.
Qed.

(** The period that the timer is in, from the microseconds of the host. *)
Definition period_at (k u : Z) : Z := ticks u / 2 ^ k.
Lemma period_at_bound k u : 0 <= k < 15 -> inw 32 u -> 0 <= period_at k u /\ period_at k u * 2 ^ k < 2 ^ 28.
Proof.
  intros Hk Hu. destruct (ticks_bound u Hu) as [_ Hb]. pose proof (pow2_pos k ltac:(lia)). unfold period_at.
  split; [apply Z.div_pos; lia|]. pose proof (Z.mul_div_le (ticks u) (2 ^ k)). lia.
Qed.
Lemma poll_eq s k q c : waits_for s k q -> 0 <= q -> q * 2 ^ k < 2 ^ 28 -> q <= period_at k (get_uticks c).1 ->
  exists s', cmos_update_irq s c = Done (s', (get_uticks c).2) /\ waits_for s' k (period_at k (get_uticks c).1) /\ irq s' = irq s /\
    pic s' = if q <? period_at k (get_uticks c).1 then pulse_irq (pic s) (irq s) else pic s.
Proof.
  intros Hw Hq0 Hq Hle. pose proof (due_later s k q c Hw Hq0 Hq) as Hd. fold (period_at k (get_uticks c).1) in Hd. destruct Hw as [Hb Hon Hk Hp Ht].
  rewrite update_irq_eq, Hd, Hon by done. cbv zeta iota. destruct (Z.ltb_spec q (period_at k (get_uticks c).1)) as [Hlt|Hge].
  - eexists. split; [reflexivity|]. split; [|done]. constructor; cbn [data irq_timeout irq_period set_field periodic]; try done.
    + apply bytes_set; [done|]. apply inw_lor; [by apply Hb|split; vm_compute; congruence].
    + unfold periodic in *. cbn [data set_field]. by rewrite arr_set_ne by (done || unfold RTC_REG_B, RTC_REG_C; lia).
    + rewrite Hp. apply next_period_spec; [done|]. apply ticks_bound, uticks_width.
  - exists s. split; [done|]. replace (period_at k (get_uticks c).1) with q by lia. done.
Qed.

Lemma polls_pulse n s k q c : waits_for s k q -> 0 <= q -> q * 2 ^ k < 2 ^ 28 -> let ps := map (period_at k) (Pit.readings n c) in Pit.nondecreasing q ps ->
  exists s' c', polls n s c = Done (s', c') /\ pic s' = Pit.pulses (Pit.rises q ps) (irq s) (pic s).
Proof.
  revert s q c. induction n as [|n IH]; intros s q c Hw Hq0 Hq ps Hn; [by exists s, c|]. unfold ps. cbn [Pit.readings map Pit.nondecreasing Pit.rises] in *. destruct Hn as [Hle Hn].
  destruct (poll_eq s k q c Hw Hq0 Hq Hle) as (s1 & E & Hw1 & Hi & Hp). destruct (period_at_bound k (get_uticks c).1 (wf_log _ _ _ Hw) (uticks_width c)) as [Hb0 Hb].
  destruct (IH s1 _ (get_uticks c).2 Hw1 Hb0 Hb Hn) as (s' & c' & E' & Hp'). exists s', c'. cbn [polls]. rewrite (st_bind_done _ _ _ _ _ E). split; [done|].
  rewrite Hp', Hi, Hp. destruct (q <? _); [apply Pit.pulses_S|done].
Qed.

(** C38. The periodic interrupt: once the guest has switched it on in register B, at a
    rate that register A chooses and that is not 0, polls over which the clock does
    not wrap (the periods they see do not decrease) give exactly one interrupt for
    each poll that sees a later period than the one before it; so when no poll is
    more than a period late, one for each period.  Neither condition can be left
    out: see [silent_after_wrap] and [rate_zero_floods]. *)
Theorem periodic_interrupt n s v c : cmos_ok s -> inw 8 v -> Z.testbit v 6 = true -> Z.land (arr (data s) RTC_REG_A) 0x0f <> 0 ->
  let k := rate_log (Z.land (arr (data s) RTC_REG_A) 0x0f) in
  let q := period_at k (get_uticks c).1 in let ps := map (period_at k) (Pit.readings n (get_uticks c).2) in Pit.nondecreasing q ps ->
  (exists s' c', (s ← cmos_ioport_write 0x70 11 s; s ← cmos_ioport_write 0x71 v s; polls n s) c = Done (s', c') /\
     pic s' = Pit.pulses (Pit.rises q ps) (irq s) (pic s)) /\
  (Pit.unit_steps q ps -> Z.of_nat (Pit.rises q ps) = default q (last ps) - q).
Proof.
  intros Hs Hv H6 Hrate. cbv zeta. set (k := rate_log _). intros Hnd. split; [|by apply Pit.rises_unit]. assert (Hk : 0 <= k < 15) by (by apply rate_log_range).
  destruct (write_data_eq v (s <| index := 11 |>) c) as [Hs' E]; [by apply (select_index_ok 11)|done|]. cbn [index data set_field] in E. change (stored 11 v) with v in *.
  set (s1 := s <| index := 11 |> <| data := arr_set (data s) 11 v |>) in *. change ((11 =? RTC_REG_A) || (11 =? RTC_REG_B)) with true in E. cbv iota in E.
  assert (Hl : alen (data s) = 128) by apply Hs. assert (HA : arr (data s1) RTC_REG_A = arr (data s) RTC_REG_A) by (unfold s1; cbn [data set_field]; by rewrite arr_set_ne by (done || unfold RTC_REG_A; lia)).
  assert (HB : periodic s1 = true) by (unfold periodic, s1; cbn [data set_field]; by rewrite (arr_set_eq (data s) 11 v) by lia).
  rewrite update_timer_eq, HA, HB in E by apply Hs'. cbv zeta in E. unfold nz in E. rewrite (proj2 (Z.eqb_neq _ 0) Hrate) in E. cbn [negb andb] in E. fold k in E.
  rewrite (st_bind_done _ _ _ _ _ (select_eq 11 s c)). change (Z.land 11 0x7f) with 11. rewrite (st_bind_done _ _ _ _ _ E).
  destruct (period_at_bound k (get_uticks c).1 Hk (uticks_width c)) as [Hb0 Hb].
  refine (polls_pulse n (s1 <| irq_period := 2 ^ k |> <| irq_timeout := next_period (ticks (get_uticks c).1) (2 ^ k) |>) k _ (get_uticks c).2 _ Hb0 Hb Hnd).
  constructor; try done; [apply Hs'|]. cbn [irq_timeout set_field]. apply next_period_spec; [done|]. apply ticks_bound, uticks_width.
Qed.
End Laws.

(** ** Examples *)

#[local] Existing Instances Pic.pic_sink Pic.pic_sink_laws script_clock script_clock_laws.

Definition new_year : tm := mkTm 59 59 23 6 31 11 99.
Definition cmos0 : CMOS (outcome Pic.PicState2) :=
  match cmos_init 0x1000000 8 (Done Pic.i8259_init) new_year with Done s => s | Stuck _ => mkCMOS [] 0 0 0 0 (Done Pic.i8259_init) end.
Lemma pic_ready : sink_ok (Done Pic.i8259_init).
Proof. exists Pic.i8259_init. split; [reflexivity|]. split; apply Pic.pic_reset_wf. Qed.
Lemma cmos0_ok : cmos_ok cmos0.
Proof.
  destruct (init_ok 0x1000000 8 (Done Pic.i8259_init) new_year) as (s & E & Hs & _); [split; [lia|done]|exact pic_ready|unfold tm_ok, new_year; cbn; lia|].
  unfold cmos0. by rewrite E.
Qed.

Lemma registers_read_back_witness :
  run_to (s ← lift (cmos_init 0x1000000 8 (Done Pic.i8259_init) new_year); s ← run_ops [Select 11; WriteData 0x42; Poll] s;
      s ← cmos_ioport_write 0x70 0x8a s; s ← cmos_ioport_write 0x71 0xa5 s; lift (cmos_ioport_read 0x71 new_year s)) [5; 1000]
    (fun r _ => let j := 0x8a mod 128 in match calendar new_year j with
       | Some a => bcd2bin r.1 = a
       | None => r.1 = if j =? RTC_REG_A then 0xa5 mod 128 else 0xa5 end).
Proof.
  assert (Ht : tm_ok new_year) by (unfold tm_ok, new_year; cbn; lia).
  apply (registers_read_back 0x1000000 8 (Done Pic.i8259_init) new_year new_year [Select 11; WriteData 0x42; Poll] 0x8a 0xa5 [5; 1000]);
    [split; [lia|done]|exact pic_ready|exact Ht|exact Ht|repeat constructor; vm_compute; congruence|split; vm_compute; congruence|split; vm_compute; congruence].
Defined.

(** At the rate of the BIOS, 1024 Hz, polls a millisecond apart. *)
Definition ms_clock : list Z := [1000; 1500; 2000; 3000; 4000].
Lemma periodic_interrupt_witness :
  let k := rate_log (Z.land (arr (data cmos0) RTC_REG_A) 0x0f) in
  let q := period_at k (get_uticks ms_clock).1 in let ps := map (period_at k) (Pit.readings 4 (get_uticks ms_clock).2) in
  (exists s' c', (s ← cmos_ioport_write 0x70 11 cmos0; s ← cmos_ioport_write 0x71 0x42 s; polls 4 s) ms_clock = Done (s', c') /\
     pic s' = Pit.pulses (Pit.rises q ps) (irq cmos0) (pic cmos0)) /\
  (Pit.unit_steps q ps -> Z.of_nat (Pit.rises q ps) = default q (last ps) - q).
Proof.
  assert (Hv : inw 8 0x42) by (split; vm_compute; congruence). assert (Hr : Z.land (arr (data cmos0) RTC_REG_A) 0x0f <> 0) by (vm_compute; congruence).
  refine (periodic_interrupt 4 cmos0 0x42 ms_clock cmos0_ok Hv eq_refl Hr _). vm_compute. repeat split; congruence.
Defined.

(** The counter of microseconds wraps after 71 minutes, but not to a multiple of its
    type in timer ticks: then the timeout lies in the future until the next wrap, and
    no poll gives an interrupt. *)
Example silent_after_wrap : (s ← cmos_ioport_write 0x70 11 cmos0; s ← cmos_ioport_write 0x71 0x42 s; s ← polls 4 s; mret (pic s)) [2 ^ 32 - 100; 1000; 1000000; 60000000; 3600000000]
  = Done (pic cmos0, [3600000000]).
Proof. vm_compute. reflexivity. Qed.
(** With rate 0 the period stays 0, and every poll gives an interrupt. *)
Example rate_zero_floods : (s ← cmos_ioport_write 0x70 10 cmos0; s ← cmos_ioport_write 0x71 0x20 s; s ← cmos_ioport_write 0x70 11 s; s ← cmos_ioport_write 0x71 0x42 s;
  s ← polls 3 s; mret (pic s)) [1000; 1001; 1002] = Done (Pit.pulses 3 8 (pic cmos0), [1002]).
Proof. vm_compute. reflexivity. Qed.

End Cmos.
