(* ===== verification/Files.v ===== *)
(** * Files: byte buffers and the streams of the C library

    [FILE] is a stream on a medium with room for so many bytes.  [overwrite] is what a
    write does to the bytes of a file or, inside its bounds, of a buffer. *)

From S2P Require Import Prelude.

Module Files.

(** ** Streams *)

Record FILE := mkFILE { content : list Z; pos : Z; room : Z }.
#[export] Instance eta_file : Eta FILE := fun f => mkFILE (content f) (pos f) (room f).

(** [fseek (f, off, SEEK_SET)]; a negative offset is refused. *)
Definition fseek_set (off : Z) (f : FILE) : option FILE := if off <? 0 then None else Some (f <| pos := off |>).
Definition fseek_end (f : FILE) : FILE := f <| pos := alen (content f) |>.
Definition fread (n : Z) (f : FILE) : list Z * FILE :=
  let d := take (Z.to_nat n) (drop (Z.to_nat (pos f)) (content f)) in (d, f <| pos := pos f + alen d |>).
(** Bytes past the end of the file read as zeros once something is written behind them. *)
Definition overwrite (l : list Z) (off : Z) (d : list Z) : list Z :=
  take (Z.to_nat off) (l ++ replicate (Z.to_nat (off - alen l)) 0) ++ d ++ drop (Z.to_nat (off + alen d)) l.
Definition fwrite (d : list Z) (f : FILE) : Z * FILE :=
  let d := take (Z.to_nat (room f - pos f)) d in
  (alen d, if alen d =? 0 then f else f <| content := overwrite (content f) (pos f) d |> <| pos := pos f + alen d |>).

(** [memcpy (l + i, d, sizeof d)] *)
Definition copy_into (l : list Z) (i : Z) (d : list Z) : outcome (list Z) :=
  if (i <? 0) || (alen l <? i + alen d) then Stuck OutOfBounds else Done (overwrite l i d).
(** [memcpy (d, l + i, n)] *)
Definition copy_from (l : list Z) (i n : Z) : outcome (list Z) :=
  if (i <? 0) || (alen l <? i + n) then Stuck OutOfBounds else Done (take (Z.to_nat n) (drop (Z.to_nat i) l)).

(** ** Overwriting *)

Lemma overwrite_in l off d : 0 <= off -> off + alen d <= alen l -> overwrite l off d = take (Z.to_nat off) l ++ d ++ drop (Z.to_nat (off + alen d)) l.
Proof. intros H1 H2. unfold overwrite. pose proof (Zle_0_nat (length d)). rewrite take_app_le; [done|]. unfold alen in *. lia. Qed.
Lemma overwrite_length l off d : 0 <= off -> off + alen d <= alen l -> alen (overwrite l off d) = alen l.
Proof. intros H1 H2. rewrite overwrite_in by done. unfold alen in *. rewrite !length_app, length_take, length_drop. lia. Qed.
(** One write after the other is one write. *)
Lemma overwrite_app l off d d' : 0 <= off -> off + alen d + alen d' <= alen l -> overwrite (overwrite l off d) (off + alen d) d' = overwrite l off (d ++ d').
Proof.
  intros H1 H2. assert (Hd : 0 <= alen d' /\ 0 <= alen d) by (unfold alen; lia). assert (Ha : alen (d ++ d') = alen d + alen d') by (unfold alen; rewrite length_app; lia).
  rewrite (overwrite_in (overwrite l off d)), overwrite_in, (overwrite_in l off (d ++ d')) by (rewrite ?overwrite_length by lia; lia).
  set (o := Z.to_nat off). assert (Hl : (o <= length l)%nat) by (unfold o, alen in *; lia).
  replace (Z.to_nat (off + alen d)) with (o + length d)%nat by (unfold o, alen; lia).
  replace (Z.to_nat (off + alen d + alen d')) with (o + length d + length d')%nat by (unfold o, alen; lia).
  replace (Z.to_nat (off + alen (d ++ d'))) with (o + length d + length d')%nat by (unfold o; rewrite Ha; unfold alen; lia).
  assert (Hlt : length (take o l) = o) by (rewrite length_take; lia).
  rewrite (app_assoc (take o l) d). assert (Hld : length (take o l ++ d) = (o + length d)%nat) by (rewrite length_app; lia).
  rewrite take_app_le, take_ge, <- !app_assoc by lia. do 3 f_equal. rewrite drop_app_ge by lia. rewrite Hlt, drop_app_ge, drop_drop by lia. f_equal. lia.
Qed.
Lemma read_overwritten l off d : 0 <= off -> off + alen d <= alen l -> take (Z.to_nat (alen d)) (drop (Z.to_nat off) (overwrite l off d)) = d.
Proof.
  intros H1 H2. rewrite overwrite_in by done. assert (Hl : length (take (Z.to_nat off) l) = Z.to_nat off) by (rewrite length_take; unfold alen in *; lia).
  rewrite drop_app_ge, Hl, Nat.sub_diag by lia. cbn [drop]. unfold alen. rewrite Nat2Z.id. apply take_app_length.
Qed.
Lemma read_more (l : list Z) p a b : 0 <= p -> 0 <= a -> 0 <= b ->
  take (Z.to_nat (a + b)) (drop (Z.to_nat p) l) = take (Z.to_nat a) (drop (Z.to_nat p) l) ++ take (Z.to_nat b) (drop (Z.to_nat (p + a)) l).
Proof. intros. by rewrite (Z2Nat.inj_add p a), (Z2Nat.inj_add a b), <- drop_drop, take_take_drop by lia. Qed.
Lemma copy_into_in l i d : 0 <= i -> i + alen d <= alen l -> copy_into l i d = Done (overwrite l i d).
Proof. intros. unfold copy_into. destruct (Z.ltb_spec i 0); [lia|]. destruct (Z.ltb_spec (alen l) (i + alen d)); [lia|done]. Qed.
Lemma copy_from_in l i n : 0 <= i -> i + n <= alen l -> copy_from l i n = Done (take (Z.to_nat n) (drop (Z.to_nat i) l)).
Proof. intros. unfold copy_from. destruct (Z.ltb_spec i 0); [lia|]. destruct (Z.ltb_spec (alen l) (i + n)); [lia|done]. Qed.
(** Writing inside a part of a file is writing to that part. *)
Lemma overwrite_middle l1 l2 l3 off d : 0 <= off -> off + alen d <= alen l2 -> overwrite (l1 ++ l2 ++ l3) (alen l1 + off) d = l1 ++ overwrite l2 off d ++ l3.
Proof.
  intros H1 H2. assert (Hd : 0 <= alen d) by (unfold alen; lia). rewrite !overwrite_in by (unfold alen in *; rewrite ?length_app; lia).
  replace (Z.to_nat (alen l1 + off)) with (length l1 + Z.to_nat off)%nat by (unfold alen; lia).
  replace (Z.to_nat (alen l1 + off + alen d)) with (length l1 + Z.to_nat (off + alen d))%nat by (unfold alen in *; lia).
  rewrite take_app_add, drop_app_add. rewrite take_app_le, drop_app_le by (unfold alen in *; lia). by rewrite <- !app_assoc.
Qed.
Lemma overwrite_part l s n off d : 0 <= s -> 0 <= off -> off + alen d <= n -> s + n <= alen l ->
  let part l := take (Z.to_nat n) (drop (Z.to_nat s) l) in part (overwrite l (s + off) d) = overwrite (part l) off d.
Proof.
  intros H1 H2 H3 H4 part. assert (Hd : 0 <= alen d) by (unfold alen; lia).
  assert (El : l = take (Z.to_nat s) l ++ part l ++ drop (Z.to_nat n) (drop (Z.to_nat s) l)) by (unfold part; by rewrite !take_drop).
  assert (Hs : alen (take (Z.to_nat s) l) = s) by (unfold alen in *; rewrite length_take; lia). assert (Hp : alen (part l) = n) by (unfold part, alen in *; rewrite length_take, length_drop; lia).
  assert (Ho : alen (overwrite (part l) off d) = n) by (rewrite overwrite_length; lia).
  assert (Ew : overwrite l (s + off) d = take (Z.to_nat s) l ++ overwrite (part l) off d ++ drop (Z.to_nat n) (drop (Z.to_nat s) l)).
  { rewrite El at 1. rewrite <- Hs at 3. by apply overwrite_middle; lia. }
  rewrite Ew. unfold part at 1. rewrite drop_app_length' by (unfold alen in Hs; lia). apply take_app_length'. unfold alen in Ho. lia.
Qed.
(** A write leaves what is beside it. *)
Lemma read_beside l off d p n : 0 <= off -> off + alen d <= alen l -> 0 <= p -> 0 <= n -> p + n <= off \/ off + alen d <= p ->
  take (Z.to_nat n) (drop (Z.to_nat p) (overwrite l off d)) = take (Z.to_nat n) (drop (Z.to_nat p) l).
Proof.
  intros H1 H2 H3 H4 Hp. assert (Hd : 0 <= alen d) by (unfold alen; lia). rewrite overwrite_in by done.
  assert (Hl : length (take (Z.to_nat off) l) = Z.to_nat off) by (rewrite length_take; unfold alen in *; lia). destruct Hp as [Hp|Hp].
  - rewrite drop_app_le by lia. rewrite take_app_le by (rewrite length_drop; lia). rewrite <- (take_drop (Z.to_nat off) l) at 2.
    rewrite drop_app_le by lia. by rewrite take_app_le by (rewrite length_drop; lia).
  - rewrite app_assoc, drop_app_ge by (rewrite length_app; unfold alen in *; lia). rewrite length_app, Hl, drop_drop. do 2 f_equal. unfold alen in *. lia.
Qed.
End Files.
