(* ===== verification/Emulink.v ===== *)
(** * Emulink: the port to the emulator and its floppy drives (winspire/misc.c)

    [EMULINK] is the command port; its two drives are files of the host, a null
    pointer being [None]. *)

From S2P Require Import Prelude Files.

Module Emulink.
Import Files.

(** ** Data *)

Record fdfmt := mkFmt { sectors : Z; tracks : Z; heads : Z }.
#[export] Instance fmt_inhabited : Inhabited fdfmt := populate (mkFmt 0 0 0).
Definition fmt : list fdfmt :=
  [mkFmt 18 80 2; mkFmt 20 80 2; mkFmt 21 80 2; mkFmt 21 82 2; mkFmt 21 83 2; mkFmt 22 80 2; mkFmt 23 80 2; mkFmt 24 80 2;
   mkFmt 36 80 2; mkFmt 39 80 2; mkFmt 40 80 2; mkFmt 44 80 2; mkFmt 48 80 2;
   mkFmt 9 80 2; mkFmt 10 80 2; mkFmt 10 82 2; mkFmt 10 83 2; mkFmt 13 80 2; mkFmt 14 80 2;
   mkFmt 15 80 2; mkFmt 18 80 2; mkFmt 18 82 2; mkFmt 18 83 2; mkFmt 20 80 2;
   mkFmt 9 80 2; mkFmt 11 80 2; mkFmt 9 40 2; mkFmt 9 40 1; mkFmt 10 41 2; mkFmt 10 42 2; mkFmt 8 40 2; mkFmt 8 40 1; mkFmt 0 0 0].

Record EMULINK := mkEmulink { status : Z; cmd : Z; args : list Z; argi : Z; dataleft : Z; fdd : list (option FILE); fdfmti : list Z }.
#[export] Instance eta_emulink : Eta EMULINK := fun e => mkEmulink (status e) (cmd e) (args e) (argi e) (dataleft e) (fdd e) (fdfmti e).

Definition NO_CMD : Z := u32 (-1).
Definition EIO : Z := 5.
Definition EINVAL : Z := 22.

(** ** Operations *)

Definition emulink_init : EMULINK := mkEmulink 0 NO_CMD [0; 0; 0; 0] 0 0 [None; None] [0; 0].

(** The first format of the table with this size. *)
Fixpoint find_format (j size : Z) (l : list fdfmt) : option Z :=
  match l with
  | [] => None
  | f :: l => if sectors f =? 0 then None else if size =? sectors f * tracks f * heads f * 512 then Some j else find_format (j + 1) size l
  end.
(** [file] is what [fopen] gives, [None] also when there is no name. *)
Definition emulink_attach_floppy (i : Z) (file : option FILE) (e : EMULINK) : outcome (Z * EMULINK) :=
  if negb ((0 <=? i) && (i <? 2)) then Done (0, e) else
  match file with
  | None => l ← wr (fdd e) i None; Done (-1, e <| fdd := l |>)
  | Some f =>
      l ← wr (fdd e) i (Some (fseek_end f)); let e := e <| fdd := l |> in
      match find_format 0 (s32 (pos (fseek_end f))) fmt with
      | Some j => l ← wr (fdfmti e) i j; Done (0, e <| fdfmti := l |>)
      | None => Done (-1, e)
      end
  end.

Definition emulink_status_read (e : EMULINK) : Z := status e.

(** Where a sector is: cylinder, head and sector in one word. *)
Definition chs_lba (f : fdfmt) (chs : Z) : Z :=
  let c := Z.shiftr chs 16 in let h := Z.land (Z.shiftr chs 8) 0xff in let s := Z.land chs 0xff in
  s32 ((c * heads f + h) * sectors f + (s - 1)).
Definition transfer_setup (e : EMULINK) : outcome EMULINK :=
  a0 ← rd (args e) 0; a1 ← rd (args e) 1; a2 ← rd (args e) 2;
  file ← rd (fdd e) a0;
  match file with
  | None => Done (e <| status := u32 (- EIO) |> <| cmd := NO_CMD |>)
  | Some file =>
      if a0 <? 2 then
        i ← rd (fdfmti e) a0; f ← rd fmt i;
        match fseek_set (s32 (512 * chs_lba f a1)) file with
        | None => Done (e <| status := u32 (- EINVAL) |> <| cmd := NO_CMD |>)
        | Some file => l ← wr (fdd e) a0 (Some file); Done (e <| fdd := l |> <| status := 0 |> <| dataleft := s32 (u32 (512 * a2)) |>)
        end
      else Done e
  end.
Definition exec_cmd (e : EMULINK) : outcome EMULINK :=
  if cmd e =? 0 then Done (e <| status := 0xaa55ff00 |> <| cmd := NO_CMD |>) else
  if cmd e =? 0x100 then
    f0 ← rd (fdd e) 0; f1 ← rd (fdd e) 1;
    let st := if f0 is Some _ then 0x40 else 0 in
    let st := if f1 is Some _ then Z.lor st 0x04 else st in
    Done (e <| status := st |> <| cmd := NO_CMD |>)
  else if ((cmd e =? 0x101) || (cmd e =? 0x102)) && (argi e =? 3) then transfer_setup e
  else Done e.

Definition emulink_cmd_write (v : Z) (e : EMULINK) : outcome EMULINK := exec_cmd (e <| cmd := v |> <| argi := 0 |>).
Definition emulink_data_write (v : Z) (e : EMULINK) : outcome EMULINK :=
  e ← (if argi e <? 4 then l ← wr (args e) (argi e) v; Done (e <| args := l |> <| argi := argi e + 1 |>) else Done e);
  exec_cmd e.

Definition abandon (e : EMULINK) : EMULINK := e <| cmd := NO_CMD |> <| status := u32 (-1) |>.
(** After a transfer of [len] bytes. *)
Definition transferred (len : Z) (e : EMULINK) : EMULINK :=
  let e := e <| dataleft := dataleft e - len |> in
  if dataleft e =? 0 then e <| cmd := NO_CMD |> <| status := 0 |> else e.
(** The file of the drive in [args[0]], if a transfer of [len] bytes with it can go on. *)
Definition ready_file (c len : Z) (e : EMULINK) : outcome (option (Z * FILE)) :=
  if negb (cmd e =? c) then Done None else
  a0 ← rd (args e) 0; file ← rd (fdd e) a0;
  match file with
  | Some f => Done (if (argi e =? 3) && negb (dataleft e <? len) then Some (a0, f) else None)
  | None => Done None
  end.

(** [(size_t) len] of an [int], on a 32-bit machine *)
Definition size_t (len : Z) : Z := if len <? 0 then len + 2 ^ 32 else len.
(** [buf] is the caller's buffer; the result is [count]. *)
Definition emulink_data_write_string (buf : list Z) (size count : Z) (e : EMULINK) : outcome (Z * EMULINK) :=
  let len := size * count in
  r ← ready_file 0x102 len e;
  match r with
  | None => Done (count, abandon e)
  | Some (a0, f) =>
      if alen buf <? size_t len then Stuck OutOfBounds else
      let '(ret, f) := fwrite (take (Z.to_nat len) buf) f in
      l ← wr (fdd e) a0 (Some f); let e := e <| fdd := l |> in
      Done (count, if negb (ret =? len) then abandon e else transferred len e)
  end.
(** The bytes read go to the start of the caller's buffer, which holds [len] of them. *)
Definition emulink_data_read_string (size count : Z) (e : EMULINK) : outcome (list Z * Z * EMULINK) :=
  let len := size * count in
  r ← ready_file 0x101 len e;
  match r with
  | None => Done ([], count, abandon e)
  | Some (a0, f) =>
      let '(d, f) := fread (size_t len) f in
      if Z.max len 0 <? alen d then Stuck OutOfBounds else
      l ← wr (fdd e) a0 (Some f); let e := e <| fdd := l |> in
      Done (d, count, if negb (alen d =? len) then abandon e else transferred len e)
  end.

(** ** Geometry *)

Definition sectors_of (f : fdfmt) : Z := sectors f * tracks f * heads f.
Definition fmt_ok (f : fdfmt) : Prop := 8 <= sectors f <= 48 /\ 40 <= tracks f <= 83 /\ 1 <= heads f <= 2.
Lemma table_ok j : 0 <= j < 32 -> fmt_ok (arr fmt j).
Proof.
  intros Hj. pose proof (all_below_spec 32 (fun j => bool_decide (fmt_ok (arr fmt j))) j) as Hb. unfold fmt_ok in *. cbn beta in Hb.
  assert (E : bool_decide (8 <= sectors (arr fmt j) <= 48 /\ 40 <= tracks (arr fmt j) <= 83 /\ 1 <= heads (arr fmt j) <= 2) = true) by (apply Hb; [by vm_compute|done]).
  by apply bool_decide_eq_true in E.
Qed.
Lemma find_format_spec l j size i : find_format j size l = Some i -> exists f, l !! Z.to_nat (i - j) = Some f /\ j <= i < j + alen l /\ sectors f <> 0 /\ size = sectors_of f * 512.
Proof.
  revert j. induction l as [|f l IH]; intros j; cbn [find_format]; [done|]. assert (E : alen (f :: l) = alen l + 1) by (unfold alen; cbn [length]; lia). pose proof (Zle_0_nat (length l)).
  destruct (Z.eqb_spec (sectors f) 0); [done|]. destruct (Z.eqb_spec size (sectors f * tracks f * heads f * 512)).
  - intros [= ->]. exists f. rewrite Z.sub_diag. unfold alen in *. repeat split; try done; lia.
  - intros Hf. destruct (IH _ Hf) as (f' & Hl & Hr & Hn & Hs). exists f'. split; [|by repeat split; lia].
    replace (Z.to_nat (i - j)) with (S (Z.to_nat (i - (j + 1)))) by lia. done.
Qed.

(** A sector address of the guest. *)
Definition chs_word (c h s : Z) : Z := Z.lor (Z.lor (Z.shiftl c 16) (Z.shiftl h 8)) s.
Definition chs_ok (f : fdfmt) (c h s : Z) : Prop := 0 <= c < tracks f /\ 0 <= h < heads f /\ 1 <= s <= sectors f.
Definition lba_of (f : fdfmt) (c h s : Z) : Z := (c * heads f + h) * sectors f + (s - 1).
Lemma chs_word_fields c h s : 0 <= c < 2 ^ 16 -> inw 8 h -> inw 8 s ->
  Z.shiftr (chs_word c h s) 16 = c /\ Z.land (Z.shiftr (chs_word c h s) 8) 0xff = h /\ Z.land (chs_word c h s) 0xff = s.
Proof.
  intros Hc Hh Hs. unfold chs_word. rewrite Z.lor_comm. rewrite (Z.lor_comm (Z.shiftl c 16)). change (Z.shiftl c 16) with (Z.shiftl c (8 + 8)). rewrite <- (Z.shiftl_shiftl c 8 8), <- Z.shiftl_lor by lia.
  rewrite (lor_shiftl_add 8 s) by (done || lia). rewrite (lor_shiftl_add 8 h) by (done || lia). unfold inw in *. rewrite !land_255, !Z.shiftr_div_pow2 by lia.
  replace (s + (h + c * 2 ^ 8) * 2 ^ 8) with (c * 2 ^ 16 + (h * 2 ^ 8 + s)) by lia. change (2 ^ 8) with 256 in *. change (2 ^ 16) with 65536 in *.
  repeat split; Z.to_euclidean_division_equations; lia.
Qed.
Lemma chs_lba_eq f c h s : fmt_ok f -> chs_ok f c h s -> chs_lba f (chs_word c h s) = lba_of f c h s /\ 0 <= lba_of f c h s < sectors_of f.
Proof.
  intros (? & ? & ?) (Hc & Hh & Hs). unfold chs_lba. cbv zeta. destruct (chs_word_fields c h s) as (-> & -> & ->); [lia|unfold inw; lia..|]. fold (lba_of f c h s).
  assert (Hx : 0 <= c * heads f + h <= tracks f * heads f - 1) by nia. assert (Ht : tracks f * heads f <= 83 * 2) by nia.
  assert (Hr : 0 <= lba_of f c h s < sectors_of f).
  { unfold lba_of. replace (sectors_of f) with (tracks f * heads f * sectors f) by (unfold sectors_of; ring).
    revert Hx. generalize (c * heads f + h), (tracks f * heads f). intros x y Hx. nia. }
  assert (sectors_of f <= 48 * 166) by (replace (sectors_of f) with (tracks f * heads f * sectors f) by (unfold sectors_of; ring); nia).
  split; [|done]. unfold s32, sgn. rewrite Z.mod_small by lia. change (2 ^ (32 - 1)) with 2147483648. destruct (Z.ltb_spec (lba_of f c h s) 2147483648); lia.
Qed.

(** ** Transfers *)

Record shape e : Prop := { sh_args : alen (args e) = 4; sh_fdd : alen (fdd e) = 2; sh_fmts : alen (fdfmti e) = 2; sh_fmt : forall d, 0 <= d < 2 -> 0 <= arr (fdfmti e) d < 32 }.
Definition drive e (d : Z) : option FILE := arr (fdd e) d.
(** Two states that differ in one drive and the transfer. *)
Definition same_but (d : Z) e e' : Prop := shape e' /\ fdfmti e' = fdfmti e /\ forall d', 0 <= d' < 2 -> d' <> d -> drive e' d' = drive e d'.
Lemma same_but_refl d e : shape e -> same_but d e e.
Proof. by intros. Qed.
Lemma same_but_trans d e1 e2 e3 : same_but d e1 e2 -> same_but d e2 e3 -> same_but d e1 e3.
Proof. intros (? & H1 & H2) (? & H3 & H4). split; [done|]. split; [by rewrite H3|]. intros d' ? ?. by rewrite H4, H2. Qed.
Lemma with_drive d o e : shape e -> 0 <= d < 2 -> same_but d e (e <| fdd := arr_set (fdd e) d o |>) /\ drive (e <| fdd := arr_set (fdd e) d o |>) d = o.
Proof.
  intros [? Hf ? ?] Hd. unfold drive. split; [|cbn; apply arr_set_eq; lia]. split; [by constructor; cbn; rewrite ?alen_set|]. split; [done|].
  intros d' ? ?. unfold drive. cbn. apply arr_set_ne; lia.
Qed.

(** A transfer with command [k] on drive [d] with [left] bytes to go. *)
Record transferring (k d left : Z) e : Prop := {
  tr_cmd : cmd e = k; tr_argi : argi e = 3; tr_arg : arr (args e) 0 = d; tr_left : dataleft e = left }.
(** ... or over; the file of the drive is [f]. *)
Definition under_way (k d : Z) (f : FILE) (left : Z) e : Prop :=
  drive e d = Some f /\ if left =? 0 then cmd e = NO_CMD /\ status e = 0 else transferring k d left e.

Lemma ready_eq k d (f : FILE) left len e : shape e -> 0 <= d < 2 -> transferring k d left e -> drive e d = Some f -> len <= left -> ready_file k len e = Done (Some (d, f)).
Proof.
  intros Hs Hd [Hc Hi Ha Hl] Hf Hlen. unfold ready_file. rewrite Hc, Z.eqb_refl. cbn [negb]. rewrite rd_in, bind_of_done by (rewrite (sh_args e Hs); lia).
  rewrite Ha, rd_in, bind_of_done by (rewrite (sh_fdd e Hs); lia). fold (drive e d). rewrite Hf, Hi, Hl. destruct (Z.ltb_spec left len); [lia|done].
Qed.
(** After [len] bytes, with the file [f'] in the drive. *)
Lemma transferred_ok k d f' left len e : shape e -> 0 <= d < 2 -> transferring k d left e ->
  let e' := transferred len (e <| fdd := arr_set (fdd e) d (Some f') |>) in under_way k d f' (left - len) e' /\ same_but d e e'.
Proof.
  intros Hs Hd [Hc Hi Ha Hl]. cbv zeta. destruct (with_drive d (Some f') e Hs Hd) as [Hsb Hdr].
  set (e1 := e <| fdd := arr_set (fdd e) d (Some f') |>) in *. unfold transferred, under_way. cbv zeta.
  change (dataleft (e1 <| dataleft := dataleft e1 - len |>)) with (dataleft e - len). rewrite Hl.
  assert (Hsb' : forall e2, fdd e2 = fdd e1 -> args e2 = args e1 -> fdfmti e2 = fdfmti e1 -> same_but d e e2).
  { intros e2 E1 E2 E3. destruct Hsb as ([? ? ? ?] & ? & Hx). split; [by constructor; rewrite ?E1, ?E2, ?E3|]. split; [by rewrite E3|]. unfold drive in *. by rewrite E1. }
  destruct (left - len =? 0) eqn:E; cbv zeta; (split; [split; [exact Hdr|]|apply Hsb'; reflexivity]); [done|]. constructor; try done. by rewrite <- Hl.
Qed.

Lemma read_chunk d f left size count e : shape e -> 0 <= d < 2 -> transferring 0x101 d left e -> drive e d = Some f ->
  0 < size * count <= left -> 0 <= pos f -> pos f + left <= alen (content f) ->
  let len := size * count in exists e', emulink_data_read_string size count e = Done (take (Z.to_nat len) (drop (Z.to_nat (pos f)) (content f)), count, e') /\
    under_way 0x101 d (f <| pos := pos f + len |>) (left - len) e' /\ same_but d e e'.
Proof.
  intros Hs Hd Ht Hf Hlen Hp0 Hp len. unfold emulink_data_read_string. fold len. rewrite (ready_eq 0x101 d f left) by (done || lia). rewrite bind_of_done. unfold fread.
  assert (Hal : alen (take (Z.to_nat len) (drop (Z.to_nat (pos f)) (content f))) = len) by (unfold alen in *; rewrite length_take, length_drop; lia).
  assert (Hsz : size_t len = len) by (unfold size_t; destruct (Z.ltb_spec len 0); lia). rewrite Hsz, Hal. destruct (Z.ltb_spec (Z.max len 0) len); [lia|].
  rewrite wr_in, bind_of_done by (rewrite (sh_fdd e Hs); lia). rewrite Z.eqb_refl. cbn [negb]. eexists. split; [reflexivity|]. by apply (transferred_ok 0x101 d).
Qed.
Lemma write_chunk d f left buf size count e : shape e -> 0 <= d < 2 -> transferring 0x102 d left e -> drive e d = Some f ->
  0 < size * count <= left -> alen buf = size * count -> 0 <= pos f -> pos f + left <= alen (content f) -> alen (content f) <= room f ->
  let len := size * count in exists e', emulink_data_write_string buf size count e = Done (count, e') /\
    under_way 0x102 d (f <| content := overwrite (content f) (pos f) buf |> <| pos := pos f + len |>) (left - len) e' /\ same_but d e e'.
Proof.
  intros Hs Hd Ht Hf Hlen Hb Hp0 Hp Hr len. unfold emulink_data_write_string. fold len. rewrite (ready_eq 0x102 d f left) by (done || lia). rewrite bind_of_done.
  assert (Hsz : size_t len = len) by (unfold size_t; destruct (Z.ltb_spec len 0); lia). rewrite Hsz, Hb. fold len. destruct (Z.ltb_spec len len); [lia|].
  unfold fwrite. rewrite (take_ge buf) by (unfold alen in *; lia). rewrite (take_ge buf) by (unfold alen in *; lia). rewrite Hb. fold len.
  destruct (Z.eqb_spec len 0); [lia|]. rewrite wr_in, bind_of_done by (rewrite (sh_fdd e Hs); lia). rewrite Z.eqb_refl. cbn [negb].
  eexists. split; [reflexivity|]. by apply (transferred_ok 0x102 d).
Qed.

(** Transfers in several calls. *)
Fixpoint read_chunks (l : list (Z * Z)) e : outcome (list Z * EMULINK) :=
  match l with [] => Done ([], e) | (size, count) :: l => '(d, _, e) ← emulink_data_read_string size count e; '(d', e) ← read_chunks l e; Done (d ++ d', e) end.
Fixpoint write_chunks (l : list (list Z * Z * Z)) e : outcome EMULINK :=
  match l with [] => Done e | (buf, size, count) :: l => '(_, e) ← emulink_data_write_string buf size count e; write_chunks l e end.
Definition lens (l : list (Z * Z)) : Z := foldr (fun p n => p.1 * p.2 + n) 0 l.
Definition chunks_ok (l : list (Z * Z)) : Prop := Forall (fun p => 0 < p.1 * p.2) l.
Definition written (l : list (list Z * Z * Z)) : list Z := concat (map (fun p => p.1.1) l).
Definition buffers_ok (l : list (list Z * Z * Z)) : Prop := Forall (fun p => 0 < p.1.2 * p.2 /\ alen p.1.1 = p.1.2 * p.2) l.
Lemma lens_nonneg l : chunks_ok l -> 0 <= lens l.
Proof. induction 1; unfold lens in *; cbn [foldr]; lia. Qed.

Lemma read_all l : forall d f left e, chunks_ok l -> lens l = left -> shape e -> 0 <= d < 2 -> under_way 0x101 d f left e -> 0 <= pos f -> pos f + left <= alen (content f) ->
  exists e' f', read_chunks l e = Done (take (Z.to_nat left) (drop (Z.to_nat (pos f)) (content f)), e') /\ under_way 0x101 d f' 0 e' /\ content f' = content f /\ same_but d e e'.
Proof.
  induction l as [|[size count] l IH]; intros d f left e Hl Hsum Hs Hd Hu Hp0 Hp.
  - cbn in Hsum. subst left. exists e, f. do 3 (split; [done|]). by apply same_but_refl.
  - inversion Hl as [|? ? Hlen Hl']; subst. cbn [fst snd lens foldr] in *. fold (lens l) in *. pose proof (lens_nonneg l Hl'). destruct Hu as [Hf Hu].
    destruct (Z.eqb_spec (size * count + lens l) 0); [lia|].
    destruct (read_chunk d f _ size count e Hs Hd Hu Hf) as (e1 & E & Hu1 & Hs1); [lia|lia|lia|]. replace (size * count + lens l - size * count) with (lens l) in Hu1 by lia.
    destruct (IH d (f <| pos := pos f + size * count |>) (lens l) e1 Hl' eq_refl (proj1 Hs1) Hd Hu1) as (e' & f' & E' & Hu' & Hc & Hs'); [cbn; lia|cbn; lia|].
    exists e', f'. cbn [read_chunks]. rewrite E, bind_of_done, E', bind_of_done. cbn [pos content set_field]. rewrite <- read_more by lia. split; [done|]. split; [done|].
    split; [done|]. by apply (same_but_trans d e e1).
Qed.
Lemma write_all l : forall d f left e, buffers_ok l -> alen (written l) = left -> shape e -> 0 <= d < 2 -> under_way 0x102 d f left e -> 0 <= pos f -> pos f + left <= alen (content f) ->
  alen (content f) <= room f ->
  exists e' f', write_chunks l e = Done e' /\ under_way 0x102 d f' 0 e' /\ content f' = overwrite (content f) (pos f) (written l) /\ room f' = room f /\ same_but d e e'.
Proof.
  induction l as [|[[buf size] count] l IH]; intros d f left e Hl Hsum Hs Hd Hu Hp0 Hp Hr.
  - cbn in Hsum. subst left. exists e, f. split; [done|]. split; [done|]. split; [|split; [done|by apply same_but_refl]]. cbn [written map concat]. rewrite overwrite_in by (cbn; lia).
    cbn [app]. unfold alen. cbn [length]. by rewrite Z.add_0_r, take_drop.
  - inversion Hl as [|? ? [Hlen Hb] Hl']; subst. cbn [fst snd] in Hlen, Hb. unfold written in Hu, Hp |- *. cbn [map concat fst] in *. fold (written l) in *.
    assert (Ha : alen (buf ++ written l) = size * count + alen (written l)) by (unfold alen in *; rewrite length_app; lia). rewrite Ha in *. destruct Hu as [Hf Hu].
    assert (0 <= alen (written l)) by (unfold alen; lia). destruct (Z.eqb_spec (size * count + alen (written l)) 0); [lia|].
    destruct (write_chunk d f _ buf size count e Hs Hd Hu Hf) as (e1 & E & Hu1 & Hs1); [lia|done|lia|lia|lia|].
    replace (size * count + alen (written l) - size * count) with (alen (written l)) in Hu1 by lia.
    assert (Hov : alen (overwrite (content f) (pos f) buf) = alen (content f)) by (apply overwrite_length; lia).
    edestruct (IH d _ (alen (written l)) e1 Hl' eq_refl (proj1 Hs1) Hd Hu1) as (e' & f' & E' & Hu' & Hc & Hr' & Hs'); [cbn; lia|cbn [content pos set_field]; rewrite Hov; lia|cbn [content room set_field]; by rewrite Hov|].
    exists e', f'. cbn [write_chunks]. rewrite E, bind_of_done. split; [done|]. split; [done|]. split; [|split; [done|by apply (same_but_trans d e e1)]].
    rewrite Hc. cbn [content pos set_field]. rewrite <- Hb. apply overwrite_app; lia.
Qed.

(** ** Commands *)

Definition select (k d chs n : Z) e : outcome EMULINK :=
  e ← emulink_cmd_write k e; e ← emulink_data_write d e; e ← emulink_data_write chs e; emulink_data_write n e.

(** An argument that does not complete a command is only stored. *)
Lemma store_arg v i k e : shape e -> k = 0x101 \/ k = 0x102 -> cmd e = k -> argi e = i -> 0 <= i < 4 ->
  emulink_data_write v e = exec_cmd (e <| args := arr_set (args e) i v |> <| argi := i + 1 |>) /\
  (i <> 2 -> exec_cmd (e <| args := arr_set (args e) i v |> <| argi := i + 1 |>) = Done (e <| args := arr_set (args e) i v |> <| argi := i + 1 |>)).
Proof.
  intros Hs Hk Hc Hi Hr. split.
  - unfold emulink_data_write. rewrite Hi. destruct (Z.ltb_spec i 4); [|lia]. by rewrite wr_in, !bind_of_done by (rewrite (sh_args e Hs); lia).
  - intros Hn. unfold exec_cmd. cbn [cmd argi set_field]. rewrite Hc. destruct (Z.eqb_spec (i + 1) 3); [lia|].
    destruct Hk as [-> | ->]; cbn [Z.eqb Pos.eqb orb andb]; done.
Qed.
Lemma shape_args e l i : shape e -> alen l = 4 -> shape (e <| args := l |> <| argi := i |>).
Proof. by intros [] ?. Qed.

Lemma select_ok k d f j c h s n e : k = 0x101 \/ k = 0x102 -> shape e -> 0 <= d < 2 -> drive e d = Some f -> arr (fdfmti e) d = j ->
  chs_ok (arr fmt j) c h s -> 0 <= n <= sectors_of (arr fmt j) ->
  exists e', select k d (chs_word c h s) n e = Done e' /\ transferring k d (512 * n) e' /\
    drive e' d = Some (f <| pos := 512 * lba_of (arr fmt j) c h s |>) /\ same_but d e e'.
Proof.
  intros Hk Hs Hd Hf Hj Hchs Hn. pose proof (sh_fmt e Hs d Hd) as Hjr. rewrite Hj in Hjr. pose proof (table_ok j Hjr) as Hfm.
  destruct (chs_lba_eq _ c h s Hfm Hchs) as [Hlba Hlr]. assert (Htot : sectors_of (arr fmt j) <= 48 * 166).
  { destruct Hfm as (? & ? & ?). replace (sectors_of (arr fmt j)) with (tracks (arr fmt j) * heads (arr fmt j) * sectors (arr fmt j)) by (unfold sectors_of; ring).
    assert (tracks (arr fmt j) * heads (arr fmt j) <= 83 * 2) by nia. nia. }
  pose proof (sh_args e Hs) as Hal. set (l1 := arr_set (args e) 0 d). set (l2 := arr_set l1 1 (chs_word c h s)). set (l3 := arr_set l2 2 n).
  assert (H1 : alen l1 = 4) by (unfold l1; by rewrite alen_set). assert (H2 : alen l2 = 4) by (unfold l2; by rewrite alen_set). assert (H3 : alen l3 = 4) by (unfold l3; by rewrite alen_set).
  set (e0 := e <| cmd := k |> <| argi := 0 |>). set (e1 := e0 <| args := l1 |> <| argi := 1 |>). set (e2 := e1 <| args := l2 |> <| argi := 2 |>). set (e3 := e2 <| args := l3 |> <| argi := 3 |>).
  assert (S0 : shape e0) by (destruct Hs; by constructor). assert (S1 : shape e1) by by apply shape_args. assert (S2 : shape e2) by by apply shape_args. assert (S3 : shape e3) by by apply shape_args.
  assert (E : select k d (chs_word c h s) n e = transfer_setup e3).
  { unfold select, emulink_cmd_write. fold e0. replace (exec_cmd e0) with (Done e0) by (unfold exec_cmd, e0; cbn [cmd argi set_field]; by destruct Hk as [-> | ->]). rewrite bind_of_done.
    destruct (store_arg d 0 k e0 S0 Hk eq_refl eq_refl ltac:(lia)) as [-> X]. rewrite X, bind_of_done by lia. change (e0 <| args := arr_set (args e0) 0 d |> <| argi := 0 + 1 |>) with e1.
    destruct (store_arg (chs_word c h s) 1 k e1 S1 Hk eq_refl eq_refl ltac:(lia)) as [-> Y]. rewrite Y, bind_of_done by lia.
    change (e1 <| args := arr_set (args e1) 1 (chs_word c h s) |> <| argi := 1 + 1 |>) with e2.
    destruct (store_arg n 2 k e2 S2 Hk eq_refl eq_refl ltac:(lia)) as [-> _]. change (e2 <| args := arr_set (args e2) 2 n |> <| argi := 2 + 1 |>) with e3.
    unfold exec_cmd, e3, e2, e1, e0. cbn [cmd argi set_field]. by destruct Hk as [-> | ->]. }
  rewrite E. unfold transfer_setup. change (args e3) with l3. rewrite !rd_in by lia. rewrite !bind_of_done.
  replace (arr l3 0) with d by (unfold l3, l2, l1; rewrite !arr_set_ne, arr_set_eq by (done || lia); done).
  replace (arr l3 1) with (chs_word c h s) by (unfold l3, l2; rewrite arr_set_ne, arr_set_eq by (done || lia); done).
  replace (arr l3 2) with n by (unfold l3; by rewrite arr_set_eq by lia).
  rewrite (rd_in (fdd e3) d), bind_of_done by (rewrite (sh_fdd e3 S3); lia). change (arr (fdd e3) d) with (drive e d). rewrite Hf. destruct (Z.ltb_spec d 2); [|lia].
  rewrite rd_in, bind_of_done by (rewrite (sh_fmts e3 S3); lia). change (fdfmti e3) with (fdfmti e). rewrite Hj, rd_in, bind_of_done by (change (alen fmt) with 33; lia). rewrite Hlba.
  assert (Hs32 : forall z, 0 <= z < 2 ^ 31 -> s32 z = z) by (intros z Hz; unfold s32, sgn; change (2 ^ (32 - 1)) with (2 ^ 31); rewrite Z.mod_small by lia; destruct (Z.ltb_spec z (2 ^ 31)); lia).
  rewrite (Hs32 (512 * lba_of _ _ _ _)) by lia. unfold fseek_set. destruct (Z.ltb_spec (512 * lba_of (arr fmt j) c h s) 0); [lia|].
  rewrite wr_in, bind_of_done by (rewrite (sh_fdd e3 S3); lia). rewrite u32_id, Hs32 by (unfold inw; lia).
  destruct (with_drive d (Some (f <| pos := 512 * lba_of (arr fmt j) c h s |>)) e3 S3 Hd) as ((Hsh & Hfi & Hot) & Hdr).
  eexists. split; [reflexivity|]. split; [constructor; try done|split; [exact Hdr|]].
  - cbn. unfold l3, l2, l1. by rewrite !arr_set_ne, arr_set_eq by (done || lia).
  - split; [destruct Hsh; by constructor|]. split; [exact Hfi|exact Hot].
Qed.

(** C39. A floppy drive keeps what is written to it: sectors written by a command and
    any chunks of data come back from a later read command of the same sectors in
    any other chunks, both end with a good status, the rest of the image and the
    other drive are as before, and the image keeps its length. *)
Theorem floppy_write_read d f j c h s n ws rs e : shape e -> 0 <= d < 2 -> drive e d = Some f -> arr (fdfmti e) d = j ->
  alen (content f) = 512 * sectors_of (arr fmt j) -> alen (content f) <= room f ->
  chs_ok (arr fmt j) c h s -> 0 < n -> lba_of (arr fmt j) c h s + n <= sectors_of (arr fmt j) ->
  buffers_ok ws -> alen (written ws) = 512 * n -> chunks_ok rs -> lens rs = 512 * n ->
  let off := Z.to_nat (512 * lba_of (arr fmt j) c h s) in
  exists e1 e2 e3 e4 f', select 0x102 d (chs_word c h s) n e = Done e1 /\ write_chunks ws e1 = Done e2 /\ cmd e2 = NO_CMD /\ status e2 = 0 /\
    select 0x101 d (chs_word c h s) n e2 = Done e3 /\ read_chunks rs e3 = Done (written ws, e4) /\ cmd e4 = NO_CMD /\ status e4 = 0 /\ drive e4 d = Some f' /\
    content f' = take off (content f) ++ written ws ++ drop (off + length (written ws)) (content f) /\ same_but d e e4.
Proof.
  intros Hs Hd Hf Hj Hlen Hroom Hchs Hn Hfit Hws Hwl Hrs Hrl. pose proof (sh_fmt e Hs d Hd) as Hjr. rewrite Hj in Hjr.
  destruct (chs_lba_eq _ c h s (table_ok j Hjr) Hchs) as [_ Hr]. set (p := 512 * lba_of (arr fmt j) c h s) in *. assert (Hp : 0 <= p /\ p + 512 * n <= alen (content f)) by (unfold p; lia).
  assert (Hz : (512 * n =? 0) = false) by (apply Z.eqb_neq; lia).
  destruct (select_ok 0x102 d f j c h s n e ltac:(auto) Hs Hd Hf Hj Hchs ltac:(lia)) as (e1 & E1 & Ht1 & Hd1 & Hs1). fold p in Hd1.
  destruct (write_all ws d (f <| pos := p |>) (512 * n) e1 Hws Hwl (proj1 Hs1) Hd) as (e2 & f2 & E2 & [Hd2 [Hc2 Hst2]] & Hcont & _ & Hs2); [split; [done|by rewrite Hz]|cbn; lia|cbn; lia|cbn; lia|].
  change (content (f <| pos := p |>)) with (content f) in Hcont. change (pos (f <| pos := p |>)) with p in Hcont. pose proof (same_but_trans d e e1 e2 Hs1 Hs2) as Hs02.
  assert (Hj2 : arr (fdfmti e2) d = j) by (by rewrite (proj1 (proj2 Hs02))). assert (Hl2 : alen (content f2) = alen (content f)) by (rewrite Hcont; apply overwrite_length; lia).
  destruct (select_ok 0x101 d f2 j c h s n e2 ltac:(auto) (proj1 Hs2) Hd Hd2 Hj2 Hchs ltac:(lia)) as (e3 & E3 & Ht3 & Hd3 & Hs3). fold p in Hd3.
  destruct (read_all rs d (f2 <| pos := p |>) (512 * n) e3 Hrs Hrl (proj1 Hs3) Hd) as (e4 & f4 & E4 & [Hd4 [Hc4 Hst4]] & Hcont4 & Hs4); [split; [done|by rewrite Hz]|cbn; lia|cbn; lia|].
  change (content (f2 <| pos := p |>)) with (content f2) in *. change (pos (f2 <| pos := p |>)) with p in E4.
  rewrite Hcont, <- Hwl, read_overwritten in E4 by lia. cbv zeta. exists e1, e2, e3, e4, f4. do 9 (split; [done|]). split.
  - rewrite Hcont4, Hcont, overwrite_in by lia. do 3 f_equal. unfold alen. lia.
  - apply (same_but_trans d e e2); [done|]. by apply (same_but_trans d e2 e3).
Qed.

(** An image whose size is in the table is attached with a geometry of that size. *)
Lemma attach_ok i f e : shape e -> 0 <= i < 2 -> alen (content f) < 2 ^ 31 -> exists r e', emulink_attach_floppy i (Some f) e = Done (r, e') /\ shape e' /\
  (r = 0 -> alen (content f) = 512 * sectors_of (arr fmt (arr (fdfmti e') i)) /\ drive e' i = Some (fseek_end f)).
Proof.
  intros Hs Hi Hl. unfold emulink_attach_floppy. replace ((0 <=? i) && (i <? 2)) with true by (symmetry; apply andb_true_intro; split; [apply Z.leb_le|apply Z.ltb_lt]; lia). cbn [negb].
  rewrite wr_in, bind_of_done by (rewrite (sh_fdd e Hs); lia). destruct (with_drive i (Some (fseek_end f)) e Hs Hi) as [[Hs1 _] Hd1]. set (e1 := e <| fdd := _ |>) in *.
  assert (E32 : s32 (pos (fseek_end f)) = alen (content f)).
  { unfold fseek_end. cbn [pos set_field]. unfold s32, sgn. change (2 ^ (32 - 1)) with (2 ^ 31). assert (0 <= alen (content f)) by (unfold alen; lia). rewrite Z.mod_small by lia. destruct (Z.ltb_spec (alen (content f)) (2 ^ 31)); lia. }
  cbv zeta. rewrite E32. destruct (find_format 0 _ fmt) as [j|] eqn:Ef; [|by exists (-1), e1].
  destruct (find_format_spec fmt 0 _ j Ef) as (fm & Hl' & Hr & Hn & Hsz). rewrite Z.sub_0_r in Hl'. change (alen fmt) with 33 in Hr.
  rewrite wr_in, bind_of_done by (rewrite (sh_fmts e1 Hs1); lia). eexists 0, _. split; [reflexivity|].
  assert (Hj : j <> 32) by (intros ->; cbn in Hl'; injection Hl' as <-; done). pose proof (sh_fmts e1 Hs1). split.
  - destruct Hs1. constructor; cbn [args fdd fdfmti set_field]; rewrite ?alen_set; try done. intros d Hd.
    destruct (Z.eq_dec i d) as [->|]; [rewrite arr_set_eq by lia; lia|rewrite arr_set_ne by lia; auto].
  - intros _. cbn [fdfmti set_field]. rewrite arr_set_eq by lia. split; [|exact Hd1]. unfold arr. rewrite (list_lookup_total_correct _ _ _ Hl'). lia.
Qed.

(** ** Sessions *)

Inductive EmuOp := CmdWrite (v : Z) | DataWrite (v : Z) | WriteString (buf : list Z) (size count : Z) | ReadString (size count : Z).
Definition run_op (o : EmuOp) e : outcome EMULINK :=
  match o with
  | CmdWrite v => emulink_cmd_write v e
  | DataWrite v => emulink_data_write v e
  | WriteString buf size count => r ← emulink_data_write_string buf size count e; Done r.2
  | ReadString size count => r ← emulink_data_read_string size count e; Done r.2
  end.
Fixpoint run_ops (l : list EmuOp) e : outcome EMULINK := match l with [] => Done e | o :: l => e ← run_op o e; run_ops l e end.
(** The words that a session writes as the number of a drive: the first after each
    command; [i] is how many words have been written since the last one. *)
Fixpoint drives (i : Z) (l : list EmuOp) : list Z :=
  match l with
  | [] => []
  | CmdWrite _ :: l => drives 0 l
  | DataWrite v :: l => (if i =? 0 then [v] else []) ++ drives (if i <? 4 then i + 1 else i) l
  | _ :: l => drives i l
  end.
Record safe e : Prop := { sf_shape : shape e; sf_argi : 0 <= argi e <= 4; sf_drive : 0 <= arr (args e) 0 < 2 }.

Lemma setup_safe e : safe e -> exists e', transfer_setup e = Done e' /\ safe e' /\ argi e' = argi e.
Proof.
  intros Hs. pose proof (sf_shape e Hs) as Sh. pose proof (sf_drive e Hs). pose proof (sh_fmt e Sh _ H). unfold transfer_setup. rewrite !rd_in, !bind_of_done by (rewrite (sh_args e Sh); lia).
  rewrite (rd_in (fdd e)), bind_of_done by (rewrite (sh_fdd e Sh); lia). destruct (arr (fdd e) (arr (args e) 0)) as [f|].
  - destruct (_ <? 2); [|by exists e]. rewrite (rd_in (fdfmti e)), bind_of_done by (rewrite (sh_fmts e Sh); lia). rewrite rd_in, bind_of_done by (change (alen fmt) with 33; lia).
    destruct (fseek_set _ f) as [f'|].
    + rewrite wr_in, bind_of_done by (rewrite (sh_fdd e Sh); lia). eexists. split; [reflexivity|]. split; [|done].
      destruct Hs as [[? ? ? ?] ? ?]. constructor; try done. constructor; try done. cbn. by rewrite alen_set.
    + eexists. split; [reflexivity|]. split; [|done]. destruct Hs as [[? ? ? ?] ? ?]. by constructor.
  - eexists. split; [reflexivity|]. split; [|done]. destruct Hs as [[? ? ? ?] ? ?]. by constructor.
Qed.
Lemma exec_safe e : safe e -> exists e', exec_cmd e = Done e' /\ safe e' /\ argi e' = argi e.
Proof.
  intros Hs. pose proof (sf_shape e Hs) as Sh. unfold exec_cmd. destruct (cmd e =? 0); [eexists; split; [reflexivity|]; split; [|done]; destruct Hs as [[? ? ? ?] ? ?]; by constructor|].
  destruct (cmd e =? 0x100); [|destruct (_ && _); [by apply setup_safe|by exists e]].
  rewrite !rd_in, !bind_of_done by (rewrite (sh_fdd e Sh); lia). eexists. split; [reflexivity|]. split; [|done]. destruct Hs as [[? ? ? ?] ? ?]. by constructor.
Qed.
Lemma ready_safe c len e : safe e -> exists r, ready_file c len e = Done r /\ forall d f, r = Some (d, f) -> 0 <= d < 2.
Proof.
  intros Hs. pose proof (sf_shape e Hs) as Sh. pose proof (sf_drive e Hs). unfold ready_file. destruct (negb _); [by exists None|]. rewrite rd_in, bind_of_done by (rewrite (sh_args e Sh); lia).
  rewrite rd_in, bind_of_done by (rewrite (sh_fdd e Sh); lia). destruct (arr (fdd e) _); eexists; (split; [reflexivity|]); [|done]. intros d f'. case_match; [|done]. by intros [= <- <-].
Qed.
Lemma after_safe d o g e : safe e -> 0 <= d < 2 -> (forall e, safe e -> safe (g e) /\ argi (g e) = argi e) ->
  exists l, wr (fdd e) d o = Done l /\ safe (g (e <| fdd := l |>)) /\ argi (g (e <| fdd := l |>)) = argi e.
Proof.
  intros Hs Hd Hg. pose proof (sf_shape e Hs) as Sh. rewrite wr_in by (rewrite (sh_fdd e Sh); lia). eexists. split; [reflexivity|].
  destruct (Hg (e <| fdd := arr_set (fdd e) d o |>)) as [A B]; [|split; [exact A|rewrite B; reflexivity]]. destruct Hs as [[? ? ? ?] ? ?]. constructor; try done. constructor; try done. cbn. by rewrite alen_set.
Qed.
Lemma finish_safe (b : bool) len e : safe e -> safe (if b then abandon e else transferred len e) /\ argi (if b then abandon e else transferred len e) = argi e.
Proof. intros [[? ? ? ?] ? ?]. unfold transferred. destruct b; [by split|]. cbv zeta. case_match; by split. Qed.
(** The caller's buffer has the length it claims, which is not negative. *)
Definition op_fits (o : EmuOp) : Prop :=
  match o with WriteString buf size count => 0 <= size * count <= alen buf | ReadString size count => 0 <= size * count | _ => True end.
Lemma op_safe o e : safe e -> op_fits o -> Forall (fun v => 0 <= v < 2) (drives (argi e) [o]) ->
  exists e', run_op o e = Done e' /\ safe e' /\ forall l, drives (argi e) (o :: l) = drives (argi e) [o] ++ drives (argi e') l.
Proof.
  intros Hs Hfit Hv. pose proof (sf_shape e Hs) as Sh. destruct o as [v|v|buf size count|size count]; cbn [run_op drives app op_fits] in *.
  - destruct (exec_safe (e <| cmd := v |> <| argi := 0 |>)) as (e' & E & Hs' & Ha); [destruct Hs as [[? ? ? ?] ? ?]; constructor; try done; cbn; lia|].
    exists e'. unfold emulink_cmd_write. by rewrite Ha.
  - pose proof (sf_argi e Hs) as Hi. unfold emulink_data_write. rewrite app_nil_r in *. destruct (Z.ltb_spec (argi e) 4) as [Hlt|Hge].
    + rewrite wr_in, !bind_of_done by (rewrite (sh_args e Sh); lia). destruct (exec_safe (e <| args := arr_set (args e) (argi e) v |> <| argi := argi e + 1 |>)) as (e' & -> & Hs' & Ha); [|by exists e'; rewrite Ha].
      constructor; [apply shape_args; [done|by rewrite alen_set, (sh_args e Sh)]|cbn; lia|]. cbn [args set_field]. destruct (Z.eqb_spec (argi e) 0) as [E0|].
      * rewrite E0 in *. rewrite arr_set_eq by (rewrite (sh_args e Sh); lia). change (0 =? 0) with true in Hv. cbv iota in Hv. apply Forall_cons in Hv as [Hv _]. lia.
      * rewrite arr_set_ne by lia. apply Hs.
    + rewrite bind_of_done. destruct (exec_safe e Hs) as (e' & -> & Hs' & Ha). exists e'. by rewrite Ha.
  - unfold emulink_data_write_string. destruct (ready_safe 0x102 (size * count) e Hs) as (r & -> & Hr). rewrite bind_of_done. destruct r as [[d f]|].
    + assert (Hsz : size_t (size * count) = size * count) by (unfold size_t; destruct (Z.ltb_spec (size * count) 0); lia). rewrite Hsz. destruct (Z.ltb_spec (alen buf) (size * count)); [lia|].
      destruct (fwrite _ f) as [ret f']. destruct (after_safe d (Some f') (fun e => if negb (ret =? size * count) then abandon e else transferred (size * count) e) e Hs (Hr d f eq_refl) ltac:(intros; by apply finish_safe)) as (l & -> & Hs' & Ha).
      eexists. rewrite !bind_of_done. split; [reflexivity|]. split; [done|]. intros l'. cbn [snd]. by rewrite Ha.
    + eexists. rewrite bind_of_done. split; [reflexivity|]. destruct Hs as [[? ? ? ?] ? ?]. by split; [constructor|].
  - unfold emulink_data_read_string. destruct (ready_safe 0x101 (size * count) e Hs) as (r & -> & Hr). rewrite bind_of_done. destruct r as [[d f]|].
    + assert (Hsz : size_t (size * count) = size * count) by (unfold size_t; destruct (Z.ltb_spec (size * count) 0); lia). rewrite Hsz.
      assert (Hrd : alen (fread (size * count) f).1 <= size * count) by (unfold fread, alen; cbn [fst]; rewrite length_take; lia).
      destruct (fread _ f) as [dt f']. cbn [fst] in Hrd. destruct (Z.ltb_spec (Z.max (size * count) 0) (alen dt)); [lia|]. destruct (after_safe d (Some f') (fun e => if negb (alen dt =? size * count) then abandon e else transferred (size * count) e) e Hs (Hr d f eq_refl) ltac:(intros; by apply finish_safe)) as (l & -> & Hs' & Ha).
      eexists. rewrite !bind_of_done. split; [reflexivity|]. split; [done|]. intros l'. cbn [snd]. by rewrite Ha.
    + eexists. rewrite bind_of_done. split; [reflexivity|]. destruct Hs as [[? ? ? ?] ? ?]. by split; [constructor|].
Qed.

(** The command port accesses nothing outside its tables and the caller's buffers in
    any session of commands, arguments and transfers, whatever their values, as long as
    the words that select a drive are 0 or 1 and no length is negative. *)
Theorem emulink_session_safe l e : safe e -> Forall op_fits l -> Forall (fun v => 0 <= v < 2) (drives (argi e) l) -> exists e', run_ops l e = Done e' /\ safe e'.
Proof.
  revert e. induction l as [|o l IH]; intros e Hs Hfit Hv; [by exists e|]. cbn [run_ops]. apply Forall_cons in Hfit as [Hfo Hfl].
  assert (Ho : Forall (fun v => 0 <= v < 2) (drives (argi e) [o])) by (destruct o; cbn [drives app] in *; try done; rewrite app_nil_r; by apply Forall_app in Hv as [? _]).
  destruct (op_safe o e Hs Hfo Ho) as (e' & -> & Hs' & Hd). rewrite bind_of_done. apply IH; [done|done|]. rewrite Hd in Hv. by apply Forall_app in Hv as [_ ?].
Qed.
(** The bound of the drive number is looked at only after the file of the drive: a
    third drive reads behind the array. *)
Example third_drive_out_of_bounds : run_ops [CmdWrite 0x101; DataWrite 2; DataWrite 1; DataWrite 1] emulink_init = Stuck OutOfBounds.
Proof. reflexivity. Qed.

Lemma two_drives (Q : Z -> Prop) : Q 0 -> Q 1 -> forall d, 0 <= d < 2 -> Q d.
Proof. intros Q0 Q1 d Hd. assert (d = 0 \/ d = 1) as [-> | ->] by lia; done. Qed.
Lemma init_safe : safe emulink_init.
Proof. constructor; [constructor; [done..|apply two_drives; vm_compute; split; congruence]|cbn; lia|vm_compute; split; congruence]. Qed.
Lemma emulink_session_safe_witness : Forall (fun v => 0 <= v < 2) (drives (argi emulink_init) [CmdWrite 0x102; DataWrite 1; DataWrite 77; DataWrite 5; WriteString [1] 1 1; ReadString 4 1]) /\
  exists e', run_ops [CmdWrite 0x102; DataWrite 1; DataWrite 77; DataWrite 5; WriteString [1] 1 1; ReadString 4 1] emulink_init = Done e' /\ safe e'.
Proof.
  assert (Hd : Forall (fun v => 0 <= v < 2) (drives (argi emulink_init) [CmdWrite 0x102; DataWrite 1; DataWrite 77; DataWrite 5; WriteString [1] 1 1; ReadString 4 1]))
    by (repeat constructor; lia).
  split; [exact Hd|]. apply (emulink_session_safe _ emulink_init init_safe); [|exact Hd]. repeat constructor; cbn; try lia; vm_compute; congruence.
Defined.

(** A negative length passes the check against [dataleft] and becomes a huge [size_t]. *)
Definition one_sector : EMULINK := emulink_init <| fdd := [Some (mkFILE (replicate 512 0) 0 512); None] |> <| fdfmti := [31; 0] |>.
Example negative_length_overruns : run_ops [CmdWrite 0x102; DataWrite 0; DataWrite 1; DataWrite 1; WriteString [1; 2] 1 (-1)] one_sector = Stuck OutOfBounds.
Proof. reflexivity. Qed.

(** A single-sided image of 160 kilobytes in the first drive; two sectors are written
    in one call and read back in words. *)
Definition blank_image : FILE := mkFILE (replicate (Z.to_nat 163840) 0) 0 163840.
Definition with_image : EMULINK := emulink_init <| fdd := [Some blank_image; None] |> <| fdfmti := [31; 0] |>.
Definition two_sectors : list (list Z * Z * Z) := [(replicate (Z.to_nat 1024) 7, 1, 1024)].
Lemma replicate_len n v : 0 <= n -> alen (replicate (Z.to_nat n) v : list Z) = n.
Proof. intros. unfold alen. rewrite length_replicate. lia. Qed.
Lemma floppy_write_read_witness : let off := Z.to_nat (512 * lba_of (arr fmt 31) 3 0 8) in
  exists e1 e2 e3 e4 f', select 0x102 0 (chs_word 3 0 8) 2 with_image = Done e1 /\ write_chunks two_sectors e1 = Done e2 /\ cmd e2 = NO_CMD /\ status e2 = 0 /\
    select 0x101 0 (chs_word 3 0 8) 2 e2 = Done e3 /\ read_chunks [(4, 64); (2, 384)] e3 = Done (written two_sectors, e4) /\ cmd e4 = NO_CMD /\ status e4 = 0 /\ drive e4 0 = Some f' /\
    content f' = take off (content blank_image) ++ written two_sectors ++ drop (off + length (written two_sectors)) (content blank_image) /\ same_but 0 with_image e4.
Proof.
  assert (Hlen : alen (content blank_image) = 163840) by (unfold blank_image; cbn [content]; by apply replicate_len).
  assert (Hw : alen (written two_sectors) = 1024) by (unfold two_sectors, written; cbn [map concat fst]; rewrite app_nil_r; by apply replicate_len).
  apply (floppy_write_read 0 blank_image 31 3 0 8 2 two_sectors [(4, 64); (2, 384)] with_image).
  - constructor; [done..|apply two_drives; vm_compute; split; congruence].
  - lia.
  - done.
  - done.
  - rewrite Hlen. done.
  - rewrite Hlen. cbn. lia.
  - vm_compute. repeat split; congruence.
  - lia.
  - vm_compute. congruence.
  - unfold two_sectors. constructor; [|constructor]. cbn [fst snd]. split; [lia|]. by apply replicate_len.
  - rewrite Hw. done.
  - repeat constructor.
  - done.
Defined.
End Emulink.
