(* ===== verification/Ide.v ===== *)
(** * Ide: the ATA disk controller (winspire/ide.c)

    [IDEState B] is one drive over a block device of type [B], [IDEIFState P B] the
    channel with its two drives and the interrupt controller of type [P].  The block
    device is the class [BlockDevice], the function pointers of the source.  The buffer
    has the size of the calculator build. *)

From S2P Require Import Prelude Files.

Module Ide.
Import Files.

(** ** Block devices *)

(** [bs_read sector n] is [read_async] into the I/O buffer: its result and the bytes
    it leaves there; [bs_write sector data n] and [bs_flush] give their results. *)
Class BlockDevice (B : Type) := {
  get_sector_count : B -> Z;
  get_chs : B -> option (Z * Z * Z);
  bs_read : Z -> Z -> B -> Z * list Z * B;
  bs_write : Z -> list Z -> Z -> B -> Z * B;
  bs_flush : B -> Z * B }.

(** ** Data *)

Definition MAX_MULT_SECTORS : Z := 16.
Definition ERR_STAT : Z := 0x01.
Definition DRQ_STAT : Z := 0x08.
Definition SEEK_STAT : Z := 0x10.
Definition READY_STAT : Z := 0x40.
Definition BUSY_STAT : Z := 0x80.
Definition ABRT_ERR : Z := 0x04.
Definition MC_ERR : Z := 0x20.
Definition IDE_CMD_RESET : Z := 0x04.
Definition IDE_CMD_DISABLE_IRQ : Z := 0x02.

Inductive DriveKind := IDE_HD | IDE_CD.
(** The functions [end_transfer_func] points to. *)
Inductive EndTransferFunc := TransferStop | TransferStop2 | SectorRead | SectorReadCbEnd | SectorWriteCb1 | IdentifyCb | AtapiCmd | AtapiCmdReplyEnd.
#[export] Instance end_func_dec : EqDecision EndTransferFunc.
Proof. solve_decision. Defined.

Record IDEState (B : Type) := mkIDE {
  bs : B; drive_kind : DriveKind; cylinders : Z; heads : Z; sectors : Z; mult_sectors : Z; nb_sectors : Z;
  feature : Z; error : Z; nsector : Z; sector : Z; lcyl : Z; hcyl : Z; select : Z; status : Z;
  sense_key : Z; asc : Z; cdrom_changed : Z; packet_transfer_size : Z; elementary_transfer_size : Z; io_buffer_index : Z; lba : Z; cd_sector_size : Z;
  io_nb_sectors : Z; req_nb_sectors : Z; end_transfer_func : EndTransferFunc; data_index : Z; data_end : Z; io_buffer : list Z }.
Arguments mkIDE {B}. Arguments bs {B}. Arguments drive_kind {B}. Arguments cylinders {B}. Arguments heads {B}. Arguments sectors {B}. Arguments mult_sectors {B}.
Arguments nb_sectors {B}. Arguments feature {B}. Arguments error {B}. Arguments nsector {B}. Arguments sector {B}. Arguments lcyl {B}. Arguments hcyl {B}.
Arguments select {B}. Arguments status {B}. Arguments sense_key {B}. Arguments asc {B}. Arguments cdrom_changed {B}. Arguments packet_transfer_size {B}.
Arguments elementary_transfer_size {B}. Arguments io_buffer_index {B}. Arguments lba {B}. Arguments cd_sector_size {B}. Arguments io_nb_sectors {B}.
Arguments req_nb_sectors {B}. Arguments end_transfer_func {B}. Arguments data_index {B}. Arguments data_end {B}. Arguments io_buffer {B}.
#[export] Instance eta_ide B : Eta (IDEState B) := fun s => mkIDE (bs s) (drive_kind s) (cylinders s) (heads s) (sectors s) (mult_sectors s) (nb_sectors s)
  (feature s) (error s) (nsector s) (sector s) (lcyl s) (hcyl s) (select s) (status s) (sense_key s) (asc s) (cdrom_changed s) (packet_transfer_size s)
  (elementary_transfer_size s) (io_buffer_index s) (lba s) (cd_sector_size s) (io_nb_sectors s) (req_nb_sectors s) (end_transfer_func s) (data_index s) (data_end s) (io_buffer s).

(** What a drive sees of its channel. *)
Record Ctl (P : Type) := mkCtl { irq : Z; pic : P; cmd : Z }.
Arguments mkCtl {P}. Arguments irq {P}. Arguments pic {P}. Arguments cmd {P}.
#[export] Instance eta_ctl P : Eta (Ctl P) := fun c => mkCtl (irq c) (pic c) (cmd c).
(** [cur_drive] is the number of the selected drive, if there is one. *)
Record IDEIFState (P B : Type) := mkIf { ctl : Ctl P; cur_drive : option Z; drives : list (option (IDEState B)) }.
Arguments mkIf {P B}. Arguments ctl {P B}. Arguments cur_drive {P B}. Arguments drives {P B}.
#[export] Instance eta_if P B : Eta (IDEIFState P B) := fun s => mkIf (ctl s) (cur_drive s) (drives s).

Section Ide.
Context {P : Type} `{IrqSink P} {B : Type} `{BlockDevice B}.
Implicit Types (s : IDEState B) (c : Ctl P) (x : IDEState B * Ctl P).

(** ** Identification *)

(** [stw (tab + i, v)] *)
Definition stw (l : list Z) (i v : Z) : outcome (list Z) := l ← wr l (2 * i) (u8 v); wr l (2 * i + 1) (u8 (Z.shiftr v 8)).
Fixpoint stws (l : list Z) (w : list (Z * Z)) : outcome (list Z) := match w with [] => Done l | (i, v) :: w => l ← stw l i v; stws l w end.
(** [padstr]: the bytes of each word are swapped. *)
Fixpoint padstr (n : nat) (i : Z) (src : list Z) (l : list Z) : outcome (list Z) :=
  match n with
  | 0%nat => Done l
  | S n => match src with
           | [] => l ← wr l (Z.lxor i 1) 0x20; padstr n (i + 1) [] l
           | v :: src => l ← wr l (Z.lxor i 1) v; padstr n (i + 1) src l
           end
  end.
(** "TINY386 HARDDISK" *)
Definition HARDDISK : list Z := [0x54; 0x49; 0x4e; 0x59; 0x33; 0x38; 0x36; 0x20; 0x48; 0x41; 0x52; 0x44; 0x44; 0x49; 0x53; 0x4b].
Definition identity_table s : list (Z * Z) :=
  let oldsize := u32 (cylinders s * heads s * sectors s) in
  [(47, Z.lor 0x8000 MAX_MULT_SECTORS); (48, 1); (49, Z.shiftl 1 9); (51, 0x200); (52, 0x200); (54, cylinders s); (55, heads s); (56, sectors s);
   (57, oldsize); (58, Z.shiftr oldsize 16)] ++ (if nz (mult_sectors s) then [(59, Z.lor 0x100 (mult_sectors s))] else []) ++
  [(60, nb_sectors s); (61, Z.shiftr (nb_sectors s) 16); (80, Z.lor (Z.shiftl 1 1) (Z.shiftl 1 2)); (82, Z.shiftl 1 14); (83, Z.shiftl 1 14); (84, Z.shiftl 1 14);
   (85, Z.shiftl 1 14); (86, 0); (87, Z.shiftl 1 14)].
Definition ide_identify s : outcome (IDEState B) :=
  l ← copy_into (io_buffer s) 0 (replicate 1024 0);
  l ← stws l [(0, 0x0040); (1, cylinders s); (3, heads s); (4, 512 * sectors s); (5, 512); (6, sectors s); (20, 3); (21, 512); (22, 4)];
  l ← padstr 40 (2 * 27) HARDDISK l;
  l ← stws l (identity_table s);
  Done (s <| io_buffer := l |>).

Definition ide_set_signature s : IDEState B :=
  let s := s <| select := Z.land (select s) 0xf0 |> <| nsector := 1 |> <| sector := 1 |> in
  match drive_kind s with
  | IDE_CD => s <| lcyl := 0x14 |> <| hcyl := 0xeb |>
  | IDE_HD => s <| lcyl := 0 |> <| hcyl := 0 |>
  end.
Definition ide_abort_command s : IDEState B := s <| status := Z.lor READY_STAT ERR_STAT |> <| error := ABRT_ERR |>.
Definition ide_set_irq c : Ctl P := if nz (Z.land (cmd c) IDE_CMD_DISABLE_IRQ) then c else c <| pic := set_irq (pic c) (irq c) 1 |>.

(** ** Transfers *)

Definition ide_transfer_start (size : Z) (f : EndTransferFunc) s : IDEState B := s <| end_transfer_func := f |> <| data_index := 0 |> <| data_end := size |>.
Definition ide_transfer_stop s : IDEState B := s <| end_transfer_func := TransferStop |> <| data_index := 0 |> <| data_end := 0 |>.
Definition ide_transfer_start2 (off size : Z) (f : EndTransferFunc) s : IDEState B :=
  let s := s <| end_transfer_func := f |> <| data_index := off |> <| data_end := off + size |> in
  if nz (Z.land (status s) ERR_STAT) then s else s <| status := Z.lor (status s) DRQ_STAT |>.
Definition ide_transfer_stop2 s : IDEState B :=
  s <| end_transfer_func := TransferStop2 |> <| data_index := 0 |> <| data_end := 0 |> <| status := Z.land (status s) (Z.lnot DRQ_STAT) |>.

(** ** Sector addresses *)

Definition ide_get_sector s : Z :=
  if nz (Z.land (select s) 0x40) then
    Z.lor (Z.lor (Z.lor (Z.shiftl (Z.land (select s) 0x0f) 24) (Z.shiftl (hcyl s) 16)) (Z.shiftl (lcyl s) 8)) (sector s)
  else s32 (Z.lor (Z.shiftl (hcyl s) 8) (lcyl s) * heads s * sectors s + Z.land (select s) 0x0f * sectors s + (sector s - 1)).
Definition ide_set_sector (n : Z) s : outcome (IDEState B) :=
  if nz (Z.land (select s) 0x40) then
    Done (s <| select := Z.lor (Z.land (select s) 0xf0) (Z.land (Z.shiftr n 24) 0x0f) |> <| hcyl := Z.land (Z.shiftr n 16) 0xff |>
            <| lcyl := Z.land (Z.shiftr n 8) 0xff |> <| sector := Z.land n 0xff |>)
  else if s32 (heads s * sectors s) =? 0 then Stuck DivideByZero
  else
    let cyl := u32 (Z.quot n (s32 (heads s * sectors s))) in let r := u32 (Z.rem n (s32 (heads s * sectors s))) in
    if sectors s =? 0 then Stuck DivideByZero else
    Done (s <| hcyl := Z.land (Z.shiftr cyl 8) 0xff |> <| lcyl := Z.land cyl 0xff |>
            <| select := Z.lor (Z.land (select s) 0xf0) (Z.land (r / u32 (sectors s)) 0x0f) |> <| sector := u8 (r mod u32 (sectors s) + 1) |>).

(** ** Reading and writing sectors *)

(** The sectors of the next block. *)
Definition block_size s : Z := let n := if nsector s =? 0 then 256 else nsector s in Z.min n (req_nb_sectors s).

Definition ide_sector_read_cb x : outcome (IDEState B * Ctl P) :=
  let '(s, c) := x in
  let n := io_nb_sectors s in
  s ← ide_set_sector (ide_get_sector s + n) s;
  let s := s <| nsector := Z.land (nsector s - n) 0xff |> in
  let s := ide_transfer_start (512 * n) (if nsector s =? 0 then SectorReadCbEnd else SectorRead) s in
  let c := ide_set_irq c in
  Done (s <| status := Z.lor (Z.lor READY_STAT SEEK_STAT) DRQ_STAT |> <| error := 0 |>, c).
Definition ide_sector_read x : outcome (IDEState B * Ctl P) :=
  let '(s, c) := x in
  let sector_num := ide_get_sector s in
  let n := block_size s in
  let s := s <| io_nb_sectors := n |> in
  let '(ret, d, b) := bs_read (u64 sector_num) n (bs s) in
  l ← copy_into (io_buffer s) 0 d;
  let s := s <| bs := b |> <| io_buffer := l |> in
  if ret <? 0 then Done (ide_abort_command s, ide_set_irq c)
  else if ret =? 0 then ide_sector_read_cb (s, c)
  else Done (s <| status := Z.lor (Z.lor READY_STAT SEEK_STAT) BUSY_STAT |> <| error := 0 |>, c).
Definition ide_sector_read_cb_end s : IDEState B := ide_transfer_stop (s <| status := Z.lor READY_STAT SEEK_STAT |> <| error := 0 |>).

Definition ide_sector_write_cb2 x : outcome (IDEState B * Ctl P) :=
  let '(s, c) := x in
  let n := io_nb_sectors s in
  s ← ide_set_sector (ide_get_sector s + n) s;
  let s := s <| nsector := Z.land (nsector s - n) 0xff |> in
  let s := if nsector s =? 0 then s <| status := Z.lor READY_STAT SEEK_STAT |> else
    let n := Z.min (nsector s) (req_nb_sectors s) in
    let s := s <| io_nb_sectors := n |> in
    let s := ide_transfer_start (512 * n) SectorWriteCb1 s in
    s <| status := Z.lor (Z.lor READY_STAT SEEK_STAT) DRQ_STAT |> in
  Done (s, ide_set_irq c).
Definition ide_sector_write_cb1 x : outcome (IDEState B * Ctl P) :=
  let '(s, c) := x in
  let s := ide_transfer_stop s in
  let sector_num := ide_get_sector s in
  d ← copy_from (io_buffer s) 0 (512 * io_nb_sectors s);
  let '(ret, b) := bs_write (u64 sector_num) d (io_nb_sectors s) (bs s) in
  let s := s <| bs := b |> in
  if ret <? 0 then Done (ide_abort_command s, ide_set_irq c)
  else if ret =? 0 then ide_sector_write_cb2 (s, c)
  else Done (s <| status := Z.lor (Z.lor READY_STAT SEEK_STAT) BUSY_STAT |>, c).
Definition ide_sector_write s : IDEState B :=
  let n := block_size s in
  let s := s <| io_nb_sectors := n |> in
  let s := ide_transfer_start (512 * n) SectorWriteCb1 s in
  s <| status := Z.lor (Z.lor READY_STAT SEEK_STAT) DRQ_STAT |>.
Definition ide_identify_cb s : IDEState B := (ide_transfer_stop s) <| status := READY_STAT |>.

(** ** Commands of a hard disk *)

Definition ide_exec_cmd (val : Z) x : outcome (IDEState B * Ctl P) :=
  let '(s, c) := x in
  match val with
  | 0xec => (* WIN_IDENTIFY *)
      s ← ide_identify s;
      let s := s <| status := Z.lor (Z.lor READY_STAT SEEK_STAT) DRQ_STAT |> in
      Done (ide_transfer_start 512 IdentifyCb s, ide_set_irq c)
  | 0x91 | 0x10 => (* WIN_SPECIFY, WIN_RECAL *)
      Done (s <| error := 0 |> <| status := Z.lor READY_STAT SEEK_STAT |>, ide_set_irq c)
  | 0xc6 => (* WIN_SETMULT *)
      let s := if (MAX_MULT_SECTORS <? nsector s) || nz (Z.land (nsector s) (nsector s - 1)) then ide_abort_command s
               else s <| mult_sectors := nsector s |> <| status := READY_STAT |> in
      Done (s, ide_set_irq c)
  | 0x20 | 0x21 => (* WIN_READ, WIN_READ_ONCE *)
      ide_sector_read (s <| req_nb_sectors := 1 |>, c)
  | 0x30 | 0x31 => (* WIN_WRITE, WIN_WRITE_ONCE *)
      Done (ide_sector_write (s <| req_nb_sectors := 1 |>), c)
  | 0xc4 => (* WIN_MULTREAD *)
      if mult_sectors s =? 0 then Done (ide_abort_command s, ide_set_irq c) else ide_sector_read (s <| req_nb_sectors := mult_sectors s |>, c)
  | 0xc5 => (* WIN_MULTWRITE *)
      if mult_sectors s =? 0 then Done (ide_abort_command s, ide_set_irq c) else Done (ide_sector_write (s <| req_nb_sectors := mult_sectors s |>), c)
  | 0xf8 => (* WIN_READ_NATIVE_MAX *)
      s ← ide_set_sector (nb_sectors s - 1) s; Done (s <| status := READY_STAT |>, ide_set_irq c)
  | 0xe7 | 0xea => (* WIN_FLUSH_CACHE, WIN_FLUSH_CACHE_EXT *)
      let '(ret, b) := bs_flush (bs s) in
      let s := s <| bs := b |> in
      Done (if ret <? 0 then ide_abort_command s else s <| error := 0 |> <| status := Z.lor READY_STAT SEEK_STAT |>, ide_set_irq c)
  | _ => Done (ide_abort_command s, ide_set_irq c)
  end.
End Ide.
End Ide.
