(* ===== verification/Atapi.v ===== *)
(** * Atapi: the CD-ROM drive (the ATAPI part of winspire/ide.c)

    Packet commands are read from the I/O buffer of the drive and answered in it. *)

From S2P Require Import Prelude Files Ide.

Module Atapi.
Import Files Ide.

Definition ATAPI_PACKET_SIZE : Z := 12.
Definition ATAPI_INT_REASON_CD : Z := 0x01.
Definition ATAPI_INT_REASON_IO : Z := 0x02.
Definition SENSE_NONE : Z := 0.
Definition SENSE_NOT_READY : Z := 2.
Definition SENSE_ILLEGAL_REQUEST : Z := 5.
Definition SENSE_UNIT_ATTENTION : Z := 6.
Definition ASC_ILLEGAL_OPCODE : Z := 0x20.
Definition ASC_LOGICAL_BLOCK_OOR : Z := 0x21.
Definition ASC_INV_FIELD_IN_CMD_PACKET : Z := 0x24.
Definition ASC_MEDIUM_MAY_HAVE_CHANGED : Z := 0x28.
Definition ASC_SAVING_PARAMETERS_NOT_SUPPORTED : Z := 0x39.
Definition ASC_MEDIUM_NOT_PRESENT : Z := 0x3a.
Definition CD_MAX_SECTORS : Z := 80 * 60 * 75 * 2048 / 512.
Definition MMC_PROFILE_CD_ROM : Z := 0x0008.
Definition MMC_PROFILE_DVD_ROM : Z := 0x0010.

(** ** Bytes *)

Fixpoint put_bytes (l : list Z) (w : list (Z * Z)) : outcome (list Z) := match w with [] => Done l | (i, v) :: w => l ← wr l i (u8 v); put_bytes l w end.
Definition cpu_to_ube16 (i v : Z) : list (Z * Z) := [(i, Z.shiftr v 8); (i + 1, v)].
Definition cpu_to_ube32 (i v : Z) : list (Z * Z) := [(i, Z.shiftr v 24); (i + 1, Z.shiftr v 16); (i + 2, Z.shiftr v 8); (i + 3, v)].
Definition ube16_to_cpu (l : list Z) (i : Z) : outcome Z := a ← rd l i; b ← rd l (i + 1); Done (Z.lor (Z.shiftl a 8) b).
Definition ube32_to_cpu (l : list Z) (i : Z) : outcome Z :=
  a ← rd l i; b ← rd l (i + 1); c ← rd l (i + 2); d ← rd l (i + 3);
  Done (s32 (Z.lor (Z.lor (Z.lor (Z.shiftl a 24) (Z.shiftl b 16)) (Z.shiftl c 8)) d)).
(** [padstr8 (buf + i, n, src)] *)
Fixpoint padstr8 (n : nat) (i : Z) (src : list Z) : list (Z * Z) :=
  match n with 0%nat => [] | S n => match src with [] => (i, 0x20) :: padstr8 n (i + 1) [] | v :: src => (i, v) :: padstr8 n (i + 1) src end end.

(** ** The table of contents *)

Definition lba_to_msf (lba : Z) : list Z :=
  let lba := lba + 150 in [u8 (Z.quot (Z.quot lba 75) 60); u8 (Z.rem (Z.quot lba 75) 60); u8 (Z.rem lba 75)].
Definition be32 (v : Z) : list Z := [u8 (Z.shiftr v 24); u8 (Z.shiftr v 16); u8 (Z.shiftr v 8); u8 v].
Definition address (msf : bool) (lba : Z) : list Z := if msf then 0 :: lba_to_msf lba else be32 lba.
(** The bytes after the length, with the length in front. *)
Definition with_length (q : list Z) : list Z := [u8 (Z.shiftr (alen q) 8); u8 (alen q)] ++ q.
Definition cdrom_read_toc (nb : Z) (msf : bool) (start_track : Z) : option (list Z) :=
  if (1 <? start_track) && negb (start_track =? 0xaa) then None else
  Some (with_length ([1; 1] ++ (if start_track <=? 1 then [0; 0x14; 1; 0] ++ address msf 0 else []) ++ [0; 0x16; 0xaa; 0] ++ address msf nb)).
Definition cdrom_read_toc_raw (nb : Z) (msf : bool) : list Z :=
  with_length ([1; 1] ++ [1; 0x14; 0; 0xa0; 0; 0; 0; 0; 1; 0; 0] ++ [1; 0x14; 0; 0xa1; 0; 0; 0; 0; 1; 0; 0] ++
    [1; 0x14; 0; 0xa2; 0; 0; 0] ++ address msf nb ++ [1; 0x14; 0; 1; 0; 0; 0] ++ (if msf then 0 :: lba_to_msf 0 else [0; 0; 0; 0])).

Section Atapi.
Context {P : Type} `{IrqSink P} {B : Type} `{BlockDevice B}.
Implicit Types (s : IDEState B) (c : Ctl P) (x : IDEState B * Ctl P).

Definition ide_atapi_identify s : outcome (IDEState B) :=
  l ← copy_into (io_buffer s) 0 (replicate 1024 0);
  l ← stws l [(0, Z.lor (Z.lor (Z.lor (Z.shiftl 2 14) (Z.shiftl 5 8)) (Z.shiftl 1 7)) (Z.shiftl 2 5)); (20, 3); (21, 512); (22, 4)];
  l ← padstr 40 (2 * 27) [0x54; 0x49; 0x4e; 0x59; 0x33; 0x38; 0x36; 0x20; 0x43; 0x44; 0x2d; 0x52; 0x4f; 0x4d] l;
  l ← stws l [(48, 1); (49, Z.shiftl 1 9); (53, 3); (63, 0x103); (64, 1); (65, 0xb4); (66, 0xb4); (67, 0x12c); (68, 0xb4); (71, 30); (72, 30); (80, 0x1e)];
  Done (s <| io_buffer := l |>).

Definition media_present s : bool := 0 <? nb_sectors s.
Definition media_is_dvd s : bool := media_present s && (CD_MAX_SECTORS <? nb_sectors s).
Definition media_is_cd s : bool := media_present s && (nb_sectors s <=? CD_MAX_SECTORS).

(** ** Ends of commands *)

Definition reason (r : Z) s : IDEState B := s <| nsector := Z.lor (Z.land (nsector s) (Z.lnot 7)) r |>.
Definition ide_atapi_cmd_ok x : IDEState B * Ctl P :=
  let '(s, c) := x in
  (reason (Z.lor ATAPI_INT_REASON_IO ATAPI_INT_REASON_CD) (s <| error := 0 |> <| status := Z.lor READY_STAT SEEK_STAT |>), ide_set_irq c).
Definition ide_atapi_cmd_error (sk a : Z) x : IDEState B * Ctl P :=
  let '(s, c) := x in
  let s := s <| error := u8 (Z.shiftl sk 4) |> <| status := Z.lor READY_STAT ERR_STAT |> in
  let s := reason (Z.lor ATAPI_INT_REASON_IO ATAPI_INT_REASON_CD) s in
  (s <| sense_key := sk |> <| asc := a |>, ide_set_irq c).
Definition ide_atapi_cmd_check_status x : IDEState B * Ctl P :=
  let '(s, c) := x in (s <| error := Z.lor MC_ERR (Z.shiftl SENSE_UNIT_ATTENTION 4) |> <| status := ERR_STAT |> <| nsector := 0 |>, ide_set_irq c).
Definition ide_atapi_io_error x : IDEState B * Ctl P := ide_atapi_cmd_error SENSE_ILLEGAL_REQUEST ASC_LOGICAL_BLOCK_OOR x.

(** ** Transfers to the host *)

Definition cd_read_sector (lba size : Z) (b : B) : Z * list Z * B := if size =? 2048 then bs_read (u64 (Z.shiftl lba 2)) 4 b else (-1, [], b).

(** Read the next sector if the buffer is used up; the result tells whether to go on. *)
Definition next_sector s : outcome (bool * IDEState B) :=
  if negb (lba s =? -1) && (cd_sector_size s <=? io_buffer_index s) then
    let '(ret, d, b) := cd_read_sector (lba s) (cd_sector_size s) (bs s) in
    l ← copy_into (io_buffer s) 0 d;
    let s := s <| bs := b |> <| io_buffer := l |> in
    if ret <? 0 then Done (false, s) else Done (true, s <| lba := s32 (lba s + 1) |> <| io_buffer_index := 0 |>)
  else Done (true, s).
(** [size] bytes of the buffer go out. *)
Definition send (size : Z) s : IDEState B :=
  let s := ide_transfer_start2 (io_buffer_index s) size AtapiCmdReplyEnd s in
  s <| packet_transfer_size := packet_transfer_size s - size |> <| elementary_transfer_size := elementary_transfer_size s - size |>
    <| io_buffer_index := io_buffer_index s + size |>.
(** The size of a new elementary transfer. *)
Definition byte_count s : Z :=
  let limit := Z.lor (lcyl s) (Z.shiftl (hcyl s) 8) in
  let limit := if limit =? 0xffff then limit - 1 else limit in
  if limit <? packet_transfer_size s then (if nz (Z.land limit 1) then limit - 1 else limit) else packet_transfer_size s.
Definition ide_atapi_cmd_reply_end x : outcome (IDEState B * Ctl P) :=
  let '(s, c) := x in
  if packet_transfer_size s <=? 0 then
    let s := ide_transfer_stop2 s in
    Done (reason (Z.lor ATAPI_INT_REASON_IO ATAPI_INT_REASON_CD) (s <| status := Z.lor READY_STAT SEEK_STAT |>), ide_set_irq c)
  else
    '(ok, s) ← next_sector s;
    if negb ok then Done (ide_atapi_io_error (ide_transfer_stop2 s, c)) else
    if 0 <? elementary_transfer_size s then
      Done (send (Z.min (cd_sector_size s - io_buffer_index s) (elementary_transfer_size s)) s, c)
    else
      let s := reason ATAPI_INT_REASON_IO s in
      let size := byte_count s in
      let s := s <| lcyl := u8 size |> <| hcyl := u8 (Z.shiftr size 8) |> <| elementary_transfer_size := size |> in
      let size := if lba s =? -1 then size else Z.min size (cd_sector_size s - io_buffer_index s) in
      Done (send size s, ide_set_irq c).
Definition ide_atapi_cmd_reply (size max_size : Z) x : outcome (IDEState B * Ctl P) :=
  let '(s, c) := x in
  let s := s <| lba := -1 |> <| packet_transfer_size := Z.min size max_size |> <| elementary_transfer_size := 0 |> <| io_buffer_index := 0 |>
             <| status := Z.lor READY_STAT SEEK_STAT |> in
  ide_atapi_cmd_reply_end (s, c).
Definition ide_atapi_cmd_read (l nb size : Z) x : outcome (IDEState B * Ctl P) :=
  let '(s, c) := x in
  let s := s <| lba := l |> <| packet_transfer_size := s32 (nb * size) |> <| elementary_transfer_size := 0 |> <| io_buffer_index := size |>
             <| cd_sector_size := size |> <| status := Z.lor READY_STAT SEEK_STAT |> in
  ide_atapi_cmd_reply_end (s, c).

(** ** Packet commands *)

(** Answer with bytes put into the buffer. *)
Definition answer (w : list (Z * Z)) (len max_len : Z) x : outcome (IDEState B * Ctl P) :=
  let '(s, c) := x in l ← put_bytes (io_buffer s) w; ide_atapi_cmd_reply len max_len (s <| io_buffer := l |>, c).
Definition error_cmd x : IDEState B * Ctl P := ide_atapi_cmd_error SENSE_ILLEGAL_REQUEST ASC_INV_FIELD_IN_CMD_PACKET x.
Definition no_medium x : IDEState B * Ctl P := ide_atapi_cmd_error SENSE_NOT_READY ASC_MEDIUM_NOT_PRESENT x.
Definition total_sectors s : Z := Z.shiftr (u64 (get_sector_count (bs s))) 2.

Definition test_unit_ready x : IDEState B * Ctl P :=
  if cdrom_changed x.1 =? 0 then ide_atapi_cmd_ok x else no_medium (x.1 <| cdrom_changed := 0 |>, x.2).
Definition mode_sense (ten : bool) x : outcome (IDEState B * Ctl P) :=
  let packet := io_buffer x.1 in
  max_len ← (if ten then ube16_to_cpu packet 7 else rd packet 4);
  p2 ← rd packet 2;
  match Z.shiftr p2 6 with
  | 0 => match Z.land p2 0x3f with
         | 0x01 => answer (cpu_to_ube16 0 (16 + 6) ++ [(2, 0x70); (3, 0); (4, 0); (5, 0); (6, 0); (7, 0);
                     (8, 0x01); (9, 0x06); (10, 0x00); (11, 0x05); (12, 0x00); (13, 0x00); (14, 0x00); (15, 0x00)]) 16 max_len x
         | 0x2a => answer (cpu_to_ube16 0 (28 + 6) ++ [(2, 0x70); (3, 0); (4, 0); (5, 0); (6, 0); (7, 0);
                     (8, 0x2a); (9, 0x12); (10, 0x00); (11, 0x00); (12, 0x71); (13, Z.shiftl 3 5); (14, Z.lor (Z.lor (Z.shiftl 1 0) (Z.shiftl 1 3)) (Z.shiftl 1 5)); (15, 0x00)] ++
                     cpu_to_ube16 16 706 ++ [(18, 0); (19, 2)] ++ cpu_to_ube16 20 512 ++ cpu_to_ube16 22 706 ++ [(24, 0); (25, 0); (26, 0); (27, 0)]) 28 max_len x
         | _ => Done (error_cmd x)
         end
  | 1 | 2 => Done (error_cmd x)
  | _ => Done (ide_atapi_cmd_error SENSE_ILLEGAL_REQUEST ASC_SAVING_PARAMETERS_NOT_SUPPORTED x)
  end.
Definition request_sense x : outcome (IDEState B * Ctl P) :=
  let '(s, c) := x in
  max_len ← rd (io_buffer s) 4;
  l ← copy_into (io_buffer s) 0 (replicate 18 0);
  l ← put_bytes l [(0, Z.lor 0x70 (Z.shiftl 1 7)); (2, sense_key s); (7, 10); (12, asc s)];
  let s := s <| io_buffer := l |> in
  let s := if sense_key s =? SENSE_UNIT_ATTENTION then s <| sense_key := SENSE_NONE |> else s in
  ide_atapi_cmd_reply 18 max_len (s, c).
Definition read_10_12 (ten : bool) x : outcome (IDEState B * Ctl P) :=
  let packet := io_buffer x.1 in
  nb ← (if ten then ube16_to_cpu packet 7 else ube32_to_cpu packet 6);
  lba ← ube32_to_cpu packet 2;
  if nb =? 0 then Done (ide_atapi_cmd_ok x) else ide_atapi_cmd_read lba nb 2048 x.
Definition read_cd x : outcome (IDEState B * Ctl P) :=
  let packet := io_buffer x.1 in
  p6 ← rd packet 6; p7 ← rd packet 7; p8 ← rd packet 8;
  let nb := Z.lor (Z.lor (Z.shiftl p6 16) (Z.shiftl p7 8)) p8 in
  lba ← ube32_to_cpu packet 2;
  if nb =? 0 then Done (ide_atapi_cmd_ok x) else
  transfer_request ← rd packet 9;
  match Z.land transfer_request 0xf8 with
  | 0x00 => Done (ide_atapi_cmd_ok x)
  | 0x10 => ide_atapi_cmd_read lba nb 2048 x
  | 0xf8 => ide_atapi_cmd_read lba nb 2352 x
  | _ => Done (error_cmd x)
  end.
Definition seek_cmd x : outcome (IDEState B * Ctl P) :=
  let total := total_sectors x.1 in
  if total =? 0 then Done (no_medium x) else
  lba ← ube32_to_cpu (io_buffer x.1) 2;
  Done (if total <=? u32 lba then ide_atapi_cmd_error SENSE_ILLEGAL_REQUEST ASC_LOGICAL_BLOCK_OOR x else ide_atapi_cmd_ok x).
Definition mechanism_status x : outcome (IDEState B * Ctl P) :=
  max_len ← ube16_to_cpu (io_buffer x.1) 8;
  answer (cpu_to_ube16 0 0 ++ [(2, 0); (3, 0); (4, 0); (5, 1)] ++ cpu_to_ube16 6 0) 8 max_len x.
(** Answer with a block of bytes at the start of the buffer. *)
Definition answer_bytes (q : list Z) (max_len : Z) x : outcome (IDEState B * Ctl P) :=
  let '(s, c) := x in l ← copy_into (io_buffer s) 0 q; ide_atapi_cmd_reply (alen q) max_len (s <| io_buffer := l |>, c).
Definition read_toc x : outcome (IDEState B * Ctl P) :=
  let packet := io_buffer x.1 in
  let total := total_sectors x.1 in
  if total =? 0 then Done (no_medium x) else
  max_len ← ube16_to_cpu packet 7;
  p9 ← rd packet 9; p1 ← rd packet 1; start_track ← rd packet 6;
  let msf := nz (Z.land (Z.shiftr p1 1) 1) in
  match Z.shiftr p9 6 with
  | 0 => match cdrom_read_toc (s32 total) msf start_track with None => Done (error_cmd x) | Some q => answer_bytes q max_len x end
  | 1 => answer_bytes [0; 0x0a; 0x01; 0x01; 0; 0; 0; 0; 0; 0; 0; 0] max_len x
  | 2 => answer_bytes (cdrom_read_toc_raw (s32 total) msf) max_len x
  | _ => Done (error_cmd x)
  end.
Definition read_capacity x : outcome (IDEState B * Ctl P) :=
  let total := total_sectors x.1 in
  if total =? 0 then Done (no_medium x) else answer (cpu_to_ube32 0 (u32 (total - 1)) ++ cpu_to_ube32 4 2048) 8 8 x.
Definition inquiry x : outcome (IDEState B * Ctl P) :=
  max_len ← rd (io_buffer x.1) 4;
  answer ([(0, 0x05); (1, 0x80); (2, 0x00); (3, 0x21); (4, 31); (5, 0); (6, 0); (7, 0)] ++ padstr8 8 8 [0x54; 0x49; 0x4e; 0x59; 0x33; 0x38; 0x36] ++
    padstr8 16 16 [0x54; 0x49; 0x4e; 0x59; 0x33; 0x38; 0x36; 0x20; 0x43; 0x44; 0x2d; 0x52; 0x4f; 0x4d] ++ padstr8 4 32 [0x30; 0x2e; 0x31]) 36 max_len x.
(** [index] is how many profiles the answer has. *)
Definition ide_atapi_set_profile (index profile : Z) (l : list Z) : outcome (list Z) :=
  let p := 12 + index * 4 in
  l ← put_bytes l (cpu_to_ube16 p profile);
  a ← rd l p; b ← rd l (p + 1); b6 ← rd l 6; b7 ← rd l 7;
  l ← wr l (p + 2) (b2z ((a =? b6) && (b =? b7)));
  n ← rd l 11; wr l 11 (u8 (n + 4)).
Definition get_configuration x : outcome (IDEState B * Ctl P) :=
  let '(s, c) := x in
  p2 ← rd (io_buffer s) 2; p3 ← rd (io_buffer s) 3;
  if negb ((p2 =? 0) && (p3 =? 0)) then Done (error_cmd x) else
  max_len ← ube16_to_cpu (io_buffer s) 7;
  let max_len := Z.min max_len 512 in
  l ← copy_into (io_buffer s) 0 (replicate (Z.to_nat max_len) 0);
  l ← put_bytes l (if media_is_dvd s then cpu_to_ube16 6 MMC_PROFILE_DVD_ROM else if media_is_cd s then cpu_to_ube16 6 MMC_PROFILE_CD_ROM else []);
  l ← wr l 10 (Z.lor 0x02 0x01);
  l ← ide_atapi_set_profile 0 MMC_PROFILE_DVD_ROM l;
  l ← ide_atapi_set_profile 1 MMC_PROFILE_CD_ROM l;
  let len := 12 + 4 + 4 in
  l ← put_bytes l (cpu_to_ube32 0 (len - 4));
  ide_atapi_cmd_reply len max_len (s <| io_buffer := l |>, c).

Definition ide_atapi_cmd x : outcome (IDEState B * Ctl P) :=
  op ← rd (io_buffer x.1) 0;
  if (sense_key x.1 =? SENSE_UNIT_ATTENTION) && negb (op =? 0x03) && negb (op =? 0x12) then Done (ide_atapi_cmd_check_status x) else
  match op with
  | 0x00 => Done (test_unit_ready x)
  | 0x1a => mode_sense false x
  | 0x5a => mode_sense true x
  | 0x03 => request_sense x
  | 0x1e => Done (ide_atapi_cmd_ok x) (* PREVENT_ALLOW_MEDIUM_REMOVAL *)
  | 0x28 => read_10_12 true x
  | 0xa8 => read_10_12 false x
  | 0xbe => read_cd x
  | 0x2b => seek_cmd x
  | 0x1b => Done (ide_atapi_cmd_ok x) (* START_STOP_UNIT *)
  | 0xbd => mechanism_status x
  | 0x43 => read_toc x
  | 0x25 => read_capacity x
  | 0xbb => Done (ide_atapi_cmd_ok x) (* SET_SPEED *)
  | 0x12 => inquiry x
  | 0x46 => get_configuration x
  | _ => Done (ide_atapi_cmd_error SENSE_ILLEGAL_REQUEST ASC_ILLEGAL_OPCODE x)
  end.

(** ** Commands of a CD-ROM drive *)

Definition idecd_exec_cmd (val : Z) x : outcome (IDEState B * Ctl P) :=
  let '(s, c) := x in
  match val with
  | 0x08 => let s := ide_set_signature s in Done (s <| status := 0x00 |>, c) (* WIN_DEVICE_RESET *)
  | 0xa0 => (* WIN_PACKETCMD *)
      let s := s <| status := Z.lor READY_STAT SEEK_STAT |> <| nsector := 1 |> in
      Done (ide_transfer_start2 0 ATAPI_PACKET_SIZE AtapiCmd s, ide_set_irq c)
  | 0xa1 => (* WIN_PIDENTIFY *)
      s ← ide_atapi_identify s;
      let s := s <| status := Z.lor READY_STAT SEEK_STAT |> in
      Done (ide_transfer_start2 0 512 TransferStop2 s, ide_set_irq c)
  | 0xec | 0x20 => Done (ide_abort_command (ide_set_signature s), ide_set_irq c) (* WIN_IDENTIFY, WIN_READ *)
  | _ => Done (ide_abort_command s, ide_set_irq c)
  end.
End Atapi.
End Atapi.
