(* ===== verification/IdePort.v ===== *)
(** * IdePort: the ports of the disk controller (winspire/ide.c)

    Register, data and control ports of a channel; what a session of them does to a
    hard disk, and to a CD-ROM drive. *)

From S2P Require Import Prelude Files Ide Atapi.

Module IdePort.
Import Files Ide Atapi.

Section Ports.
Context {P : Type} `{IrqSink P} {B : Type} `{BlockDevice B}.
Implicit Types (s : IDEState B) (c : Ctl P) (x : IDEState B * Ctl P) (i : IDEIFState P B).

(** [s->end_transfer_func (s)] *)
Definition end_transfer x : outcome (IDEState B * Ctl P) :=
  let '(s, c) := x in
  match end_transfer_func s with
  | TransferStop => Done (ide_transfer_stop s, c)
  | TransferStop2 => Done (ide_transfer_stop2 s, c)
  | SectorRead => ide_sector_read x
  | SectorReadCbEnd => Done (ide_sector_read_cb_end s, c)
  | SectorWriteCb1 => ide_sector_write_cb1 x
  | IdentifyCb => Done (ide_identify_cb s, c)
  | AtapiCmd => ide_atapi_cmd x
  | AtapiCmdReplyEnd => ide_atapi_cmd_reply_end x
  end.

(** Work on the selected drive, if there is one. *)
Definition on_current {A} (none : A) (f : IDEState B * Ctl P -> outcome (A * (IDEState B * Ctl P))) i : outcome (A * IDEIFState P B) :=
  match cur_drive i with
  | None => Done (none, i)
  | Some n =>
      d ← rd (drives i) n;
      match d with
      | None => Stuck OutOfBounds
      | Some s => '(a, (s, c)) ← f (s, ctl i); l ← wr (drives i) n (Some s); Done (a, i <| ctl := c |> <| drives := l |>)
      end
  end.
Definition update (f : IDEState B -> IDEState B) i : outcome (IDEIFState P B) := r ← on_current tt (fun x => Done (tt, (f x.1, x.2))) i; Done r.2.

Definition ide_ioport_write (addr val : Z) i : outcome (IDEIFState P B) :=
  match addr with
  | 0 => Done i
  | 1 => update (fun s => s <| feature := u8 val |>) i
  | 2 => update (fun s => s <| nsector := u16 val |>) i
  | 3 => update (fun s => s <| sector := u8 val |>) i
  | 4 => update (fun s => s <| lcyl := u8 val |>) i
  | 5 => update (fun s => s <| hcyl := u8 val |>) i
  | 6 =>
      let n := Z.land (Z.shiftr val 4) 1 in
      d ← rd (drives i) n;
      let i := i <| cur_drive := if d is Some _ then Some n else None |> in
      update (fun s => s <| select := u8 val |>) i
  | _ =>
      r ← on_current tt (fun x => x ← (match drive_kind x.1 with IDE_HD => ide_exec_cmd val x | IDE_CD => idecd_exec_cmd val x end); Done (tt, x)) i;
      Done r.2
  end.
Definition ide_ioport_read (addr : Z) i : outcome (Z * IDEIFState P B) :=
  on_current 0 (fun x =>
    let '(s, c) := x in
    match addr with
    | 0 => Done (0xff, x)
    | 1 => Done (error s, x)
    | 2 => Done (nsector s, x)
    | 3 => Done (sector s, x)
    | 4 => Done (lcyl s, x)
    | 5 => Done (hcyl s, x)
    | 6 => Done (select s, x)
    | _ => Done (status s, (s, c <| pic := set_irq (pic c) (irq c) 0 |>))
    end) i.
Definition ide_status_read i : outcome (Z * IDEIFState P B) := on_current 0 (fun x => Done (status x.1, x)) i.

(** A reset of both drives starts when its bit rises and ends when it falls. *)
Definition ide_cmd_write (val : Z) i : IDEIFState P B :=
  let was := nz (Z.land (cmd (ctl i)) IDE_CMD_RESET) in
  let rst := nz (Z.land val IDE_CMD_RESET) in
  let each (f : IDEState B -> IDEState B) := i <| drives := map (option_map f) (drives i) |> in
  let i := if negb was && rst then each (fun s => s <| status := Z.lor BUSY_STAT SEEK_STAT |> <| error := 0x01 |>)
           else if was && negb rst then each (fun s => ide_set_signature (s <| status := Z.lor READY_STAT SEEK_STAT |>))
           else i in
  i <| ctl := (ctl i) <| cmd := u8 val |> |>.

(** ** The data port *)

(** The transfer function runs when the last byte has gone through. *)
Definition move_on (p : Z) x : outcome (IDEState B * Ctl P) :=
  let x := (x.1 <| data_index := p |>, x.2) in if data_end x.1 <=? p then end_transfer x else Done x.
Definition data_write (n : Z) (bytes : list Z) x : outcome (unit * (IDEState B * Ctl P)) :=
  let p := data_index x.1 in
  if data_end x.1 <? p + n then Done (tt, x) else
  l ← copy_into (io_buffer x.1) p bytes;
  x ← move_on (p + n) (x.1 <| io_buffer := l |>, x.2); Done (tt, x).
Definition data_read (n : Z) x : outcome (list Z * (IDEState B * Ctl P)) :=
  let p := data_index x.1 in
  if data_end x.1 <? p + n then Done (replicate (Z.to_nat n) 0, x) else
  d ← copy_from (io_buffer x.1) p n;
  x ← move_on (p + n) x; Done (d, x).
Definition le_bytes (n : nat) (v : Z) : list Z := (fun k => Z.land (Z.shiftr v (8 * Z.of_nat k)) 0xff) <$> seq 0 n.
Definition le_word (l : list Z) : Z := foldr (fun b v => b + 256 * v) 0 l.

Definition ide_data_writew (val : Z) i : outcome (IDEIFState P B) := r ← on_current tt (data_write 2 (le_bytes 2 val)) i; Done r.2.
Definition ide_data_writel (val : Z) i : outcome (IDEIFState P B) := r ← on_current tt (data_write 4 (le_bytes 4 val)) i; Done r.2.
Definition ide_data_readw i : outcome (Z * IDEIFState P B) := '(d, i) ← on_current [0; 0] (data_read 2) i; Done (le_word d, i).
Definition ide_data_readl i : outcome (Z * IDEIFState P B) := '(d, i) ← on_current [0; 0; 0; 0] (data_read 4) i; Done (le_word d, i).

(** The bytes that a string transfer can move. *)
Definition string_len (size count : Z) s : Z := let len := Z.min (size * count) (data_end s - data_index s) in len - Z.rem len size.
(** The results are numbers of elements. *)
Definition ide_data_write_string (buf : list Z) (size count : Z) i : outcome (Z * IDEIFState P B) :=
  on_current 0 (fun x =>
    let len := string_len size count x.1 in
    l ← (if 0 <=? len then copy_into (io_buffer x.1) (data_index x.1) (take (Z.to_nat len) buf) else Done (io_buffer x.1));
    x ← move_on (data_index x.1 + len) (x.1 <| io_buffer := l |>, x.2); Done (Z.quot len size, x)) i.
Definition ide_data_read_string (size count : Z) i : outcome ((Z * list Z) * IDEIFState P B) :=
  on_current (0, []) (fun x =>
    let len := string_len size count x.1 in
    d ← (if 0 <=? len then copy_from (io_buffer x.1) (data_index x.1) len else Done []);
    x ← move_on (data_index x.1 + len) x; Done ((Z.quot len size, d), x)) i.

(** ** Drives *)

Definition ide_allocate (irq : Z) (p : P) : IDEIFState P B := mkIf (mkCtl irq p 0) None [None; None].
Definition blank_drive (b : B) (k : DriveKind) : IDEState B :=
  mkIDE b k 0 0 0 0 0 0 0 0 0 0 0 0 0 0 0 0 0 0 0 0 0 0 0 TransferStop 0 0 (replicate (Z.to_nat (MAX_MULT_SECTORS * 512 + 4)) 0).
Definition ide_hddrive_init (b : B) : IDEState B :=
  let nb := u64 (get_sector_count b) in
  let cyls := u32 (nb / (16 * 63)) in
  let cyls := if 16383 <? cyls then 16383 else if cyls <? 2 then 2 else cyls in
  let s := (blank_drive b IDE_HD) <| cylinders := cyls |> <| heads := 16 |> <| sectors := 63 |> <| nb_sectors := nb |> in
  let s := match get_chs b with Some (cy, hd, se) => s <| cylinders := cy |> <| heads := hd |> <| sectors := se |> | None => s end in
  s <| mult_sectors := MAX_MULT_SECTORS |> <| select := 0xa0 |> <| status := Z.lor READY_STAT SEEK_STAT |>.
Definition ide_cddrive_init (b : B) : IDEState B :=
  let s := (blank_drive b IDE_CD) <| select := 0xa0 |> <| status := Z.lor READY_STAT SEEK_STAT |> in
  let s := ide_set_signature s in
  s <| end_transfer_func := TransferStop2 |>.
(** [ide_attach] and [ide_attach_cd], once the block device is open *)
Definition ide_attach (n : Z) (b : B) i : outcome (IDEIFState P B) := l ← wr (drives i) n (Some (ide_hddrive_init b)); Done (i <| drives := l |>).
Definition ide_attach_cd (n : Z) (b : B) i : outcome (IDEIFState P B) := l ← wr (drives i) n (Some (ide_cddrive_init b)); Done (i <| drives := l |>).
End Ports.
End IdePort.
