(* ===== verification/IdeHd.v ===== *)
(** * IdeHd: what the disk controller does with a hard disk

    The invariant of a drive and its channel, safety of every session of port accesses,
    and the two transfers: a read command delivers the sectors it names, a write command
    stores them, in any mode of addressing and any size of blocks. *)

From S2P Require Import Prelude Files Ide Atapi IdePort.

Module IdeHd.
Import Files Ide Atapi IdePort.

(** What the controller relies on: [image] is the contents of a block device; a read
    stays inside the buffer it is given, and inside the device it gives the sectors. *)
Class BlockDeviceLaws (B : Type) `{BlockDevice B} := {
  image : B -> list Z;
  bs_ok : B -> Prop;
  writable : B -> Prop;
  bs_size b : bs_ok b -> 0 <= get_sector_count b < 2 ^ 40 /\ alen (image b) = 512 * get_sector_count b;
  bs_read_len a n b : bs_ok b -> inw 64 a -> 0 <= n < 2 ^ 31 -> alen (bs_read a n b).1.2 <= 512 * n;
  bs_read_keeps a n b : bs_ok b -> inw 64 a -> 0 <= n < 2 ^ 31 -> let b' := (bs_read a n b).2 in bs_ok b' /\ image b' = image b /\ get_sector_count b' = get_sector_count b /\ (writable b -> writable b');
  bs_read_in a n b : bs_ok b -> 0 <= a -> 0 <= n < 2 ^ 31 -> a + n <= get_sector_count b ->
    (bs_read a n b).1 = (0, take (Z.to_nat (512 * n)) (drop (Z.to_nat (512 * a)) (image b)));
  bs_write_keeps a d n b : bs_ok b -> inw 64 a -> 0 <= n < 2 ^ 31 -> alen d = 512 * n -> bs_ok (bs_write a d n b).2;
  bs_write_in a d n b : bs_ok b -> writable b -> 0 <= a -> 0 <= n < 2 ^ 31 -> a + n <= get_sector_count b -> alen d = 512 * n ->
    (bs_write a d n b).1 = 0 /\ let b' := (bs_write a d n b).2 in image b' = overwrite (image b) (512 * a) d /\ get_sector_count b' = get_sector_count b /\ writable b';
  bs_flush_keeps b : bs_ok b -> bs_ok (bs_flush b).2 }.

(** The functions that a hard disk waits with. *)
Definition hd_func (f : EndTransferFunc) : bool :=
  match f with TransferStop | SectorRead | SectorReadCbEnd | SectorWriteCb1 | IdentifyCb => true | _ => false end.

Section Hd.
Context {P : Type} `{IrqSinkLaws P} {B : Type} `{BlockDeviceLaws B}.
Implicit Types (s : IDEState B) (c : Ctl P) (x : IDEState B * Ctl P) (i : IDEIFState P B).

(** ** The invariant *)

Record hd_ok s : Prop := {
  hd_kind : drive_kind s = IDE_HD;
  hd_buffer : alen (io_buffer s) = MAX_MULT_SECTORS * 512 + 4;
  hd_index : 0 <= data_index s <= data_end s;
  hd_end : data_end s <= MAX_MULT_SECTORS * 512;
  hd_end_func : hd_func (end_transfer_func s) = true;
  hd_nsector : 0 <= nsector s;
  hd_io_nb : 0 <= io_nb_sectors s <= MAX_MULT_SECTORS;
  hd_req : 0 <= req_nb_sectors s <= MAX_MULT_SECTORS;
  hd_mult : 0 <= mult_sectors s <= MAX_MULT_SECTORS;
  hd_heads : 1 <= heads s <= 16;
  hd_sectors : 1 <= sectors s <= 63;
  hd_bs : bs_ok (bs s) }.
Record ctl_ok c : Prop := { ct_irq : irq_line (irq c); ct_pic : sink_ok (pic c) }.

Ltac ide_cbn := cbn [bs drive_kind cylinders heads sectors mult_sectors nb_sectors feature error nsector sector lcyl hcyl select status sense_key asc cdrom_changed
  packet_transfer_size elementary_transfer_size io_buffer_index lba cd_sector_size io_nb_sectors req_nb_sectors end_transfer_func data_index data_end io_buffer set_field fst snd].
(** A state whose fields are given: the invariant, from that of another state. *)
Ltac hd_tac := repeat match goal with Hs : hd_ok _ |- _ => destruct Hs end; constructor; ide_cbn; try done; unfold MAX_MULT_SECTORS in *; try lia.

Lemma irq_ok c : ctl_ok c -> ctl_ok (ide_set_irq c).
Proof. intros [Hi Hp]. unfold ide_set_irq. destruct (nz _); [done|]. constructor; [done|]. cbn. by apply sink_set_ok. Qed.

Lemma s32_nonneg z : 0 <= z < 2 ^ 31 -> s32 z = z.
Proof. intros Hz. unfold s32, sgn. change (2 ^ (32 - 1)) with (2 ^ 31). rewrite Z.mod_small by lia. destruct (Z.ltb_spec z (2 ^ 31)); lia. Qed.
Lemma geometry s : hd_ok s -> s32 (heads s * sectors s) = heads s * sectors s /\ u32 (sectors s) = sectors s /\ 1 <= heads s * sectors s <= 1008.
Proof.
  intros Hs. destruct (hd_heads s Hs), (hd_sectors s Hs). assert (1 <= heads s * sectors s <= 1008) by nia. split; [apply s32_nonneg; lia|]. split; [apply u32_id; unfold inw; lia|done].
Qed.

(** ** Sector addresses: setting and getting *)

(** Only the address registers change. *)
Definition same_but_address s s' : Prop := exists a h l n, s' = s <| select := a |> <| hcyl := h |> <| lcyl := l |> <| sector := n |>.
Ltac by_address := match goal with |- same_but_address _ ?X => exists (select X), (hcyl X), (lcyl X), (sector X); reflexivity end.
Lemma address_ok s s' : same_but_address s s' -> hd_ok s -> hd_ok s'.
Proof. intros (a & h & l & n & ->) Hs. hd_tac. Qed.
Lemma set_sector_done n s : hd_ok s -> exists s', ide_set_sector n s = Done s' /\ same_but_address s s'.
Proof.
  intros Hs. destruct (geometry s Hs) as (Hg & _ & Hr). unfold ide_set_sector. destruct (nz _); [eexists; split; [reflexivity|]; by_address|]. rewrite Hg. destruct (Z.eqb_spec (heads s * sectors s) 0); [lia|].
  cbv zeta. destruct (Z.eqb_spec (sectors s) 0) as [E|]; [destruct (hd_sectors s Hs); lia|]. eexists. split; [reflexivity|]. by_address.
Qed.

(** ** Every operation keeps the invariant *)

Lemma block_size_ok s : hd_ok s -> 0 <= block_size s <= MAX_MULT_SECTORS.
Proof. intros Hs. pose proof (hd_req s Hs). pose proof (hd_nsector s Hs). unfold block_size. cbv zeta. destruct (nsector s =? 0); lia. Qed.
Lemma copy_block l d : alen l = MAX_MULT_SECTORS * 512 + 4 -> alen d <= 512 * MAX_MULT_SECTORS -> exists l', copy_into l 0 d = Done l' /\ alen l' = alen l.
Proof. unfold MAX_MULT_SECTORS. intros Hl Hd. eexists. split; [by apply copy_into_in; lia|]. apply overwrite_length; lia. Qed.
Lemma nonneg_byte z : 0 <= Z.land z 0xff.
Proof. rewrite land_255. apply Z.mod_pos_bound. lia. Qed.

Lemma read_cb_ok s c : hd_ok s -> ctl_ok c -> exists s' c', ide_sector_read_cb (s, c) = Done (s', c') /\ hd_ok s' /\ ctl_ok c'.
Proof.
  intros Hs Hc. unfold ide_sector_read_cb. destruct (set_sector_done (ide_get_sector s + io_nb_sectors s) s Hs) as (s1 & -> & E). rewrite bind_of_done.
  eexists _, _. split; [reflexivity|]. split; [|by apply irq_ok]. pose proof (hd_io_nb s Hs). pose proof (address_ok s s1 E Hs) as Hs1. pose proof (nonneg_byte (nsector s1 - io_nb_sectors s)).
  unfold ide_transfer_start. hd_tac. by case_match.
Qed.
Lemma sector_read_ok s c : hd_ok s -> ctl_ok c -> exists s' c', ide_sector_read (s, c) = Done (s', c') /\ hd_ok s' /\ ctl_ok c'.
Proof.
  intros Hs Hc. pose proof (block_size_ok s Hs) as Hn. unfold ide_sector_read. cbv zeta.
  destruct (bs_read (u64 (ide_get_sector s)) (block_size s) (bs (s <| io_nb_sectors := block_size s |>))) as [[ret d] b] eqn:E.
  unfold MAX_MULT_SECTORS in Hn. assert (Hn31 : 0 <= block_size s < 2 ^ 31) by lia.
  pose proof (bs_read_len (u64 (ide_get_sector s)) (block_size s) (bs s) (hd_bs s Hs) (inw_u64 _) Hn31) as Hlen. pose proof (bs_read_keeps (u64 (ide_get_sector s)) (block_size s) (bs s) (hd_bs s Hs) (inw_u64 _) Hn31) as [Hbs _]. change (bs (s <| io_nb_sectors := block_size s |>)) with (bs s) in E. rewrite E in Hlen, Hbs. cbn [fst snd] in Hlen, Hbs.
  destruct (copy_block (io_buffer s) d) as (l & El & Hl); [apply Hs|unfold MAX_MULT_SECTORS; lia|]. change (io_buffer (s <| io_nb_sectors := block_size s |>)) with (io_buffer s). rewrite El, bind_of_done.
  destruct (ret <? 0); [eexists _, _; split; [reflexivity|]; split; [unfold ide_abort_command; hd_tac|by apply irq_ok]|].
  destruct (ret =? 0); [|eexists _, _; split; [reflexivity|]; split; [hd_tac|done]].
  apply read_cb_ok; [|done]. hd_tac.
Qed.
Lemma write_cb2_ok s c : hd_ok s -> ctl_ok c -> exists s' c', ide_sector_write_cb2 (s, c) = Done (s', c') /\ hd_ok s' /\ ctl_ok c'.
Proof.
  intros Hs Hc. unfold ide_sector_write_cb2. destruct (set_sector_done (ide_get_sector s + io_nb_sectors s) s Hs) as (s1 & -> & E). rewrite bind_of_done.
  eexists _, _. split; [reflexivity|]. split; [|by apply irq_ok]. pose proof (address_ok s s1 E Hs) as Hs1. pose proof (nonneg_byte (nsector s1 - io_nb_sectors s)).
  ide_cbn. destruct (_ =? 0); [hd_tac|]. unfold ide_transfer_start. hd_tac.
Qed.
Lemma write_cb1_ok s c : hd_ok s -> ctl_ok c -> exists s' c', ide_sector_write_cb1 (s, c) = Done (s', c') /\ hd_ok s' /\ ctl_ok c'.
Proof.
  intros Hs Hc. assert (Hs1 : hd_ok (ide_transfer_stop s)) by (unfold ide_transfer_stop; hd_tac). unfold ide_sector_write_cb1. cbv zeta. set (s1 := ide_transfer_stop s) in *.
  pose proof (hd_io_nb s1 Hs1) as Hn. pose proof (hd_buffer s1 Hs1) as Hb. unfold MAX_MULT_SECTORS in *. rewrite copy_from_in, bind_of_done by lia. set (d := take _ _). assert (Hd : alen d = 512 * io_nb_sectors s1) by (unfold d, alen in *; rewrite length_take, length_drop; lia).
  assert (Hn31 : 0 <= io_nb_sectors s1 < 2 ^ 31) by lia. pose proof (bs_write_keeps (u64 (ide_get_sector s1)) d (io_nb_sectors s1) (bs s1) (hd_bs s1 Hs1) (inw_u64 _) Hn31 Hd) as Hbs. destruct (bs_write _ d _ (bs s1)) as [ret b]. cbn [snd] in Hbs.
  assert (Hs2 : hd_ok (s1 <| bs := b |>)) by hd_tac.
  destruct (ret <? 0); [eexists _, _; split; [reflexivity|]; split; [unfold ide_abort_command; hd_tac|by apply irq_ok]|].
  destruct (ret =? 0); [by apply write_cb2_ok|]. eexists _, _. split; [reflexivity|]. split; [hd_tac|done].
Qed.
Lemma sector_write_ok s : hd_ok s -> hd_ok (ide_sector_write s).
Proof. intros Hs. pose proof (block_size_ok s Hs). unfold ide_sector_write, ide_transfer_start. hd_tac. Qed.

Lemma stws_ok w : forall l, Forall (fun p => 0 <= p.1 < 512) w -> 1024 <= alen l -> exists l', stws l w = Done l' /\ alen l' = alen l.
Proof.
  induction w as [|[k v] w IH]; intros l Hw Hl; [by exists l|]. inversion Hw as [|? ? Hk Hw']; subst. cbn [fst] in Hk. cbn [stws]. unfold stw.
  rewrite wr_in, bind_of_done, wr_in, bind_of_done by (rewrite ?alen_set; lia).
  destruct (IH (arr_set (arr_set l (2 * k) (u8 v)) (2 * k + 1) (u8 (Z.shiftr v 8))) Hw') as (l' & -> & E); [rewrite !alen_set; lia|]. exists l'. split; [done|]. by rewrite E, !alen_set.
Qed.
Lemma padstr_ok n : forall k src l, 0 <= k -> (forall j, k <= j < k + Z.of_nat n -> 0 <= Z.lxor j 1 < alen l) -> exists l', padstr n k src l = Done l' /\ alen l' = alen l.
Proof.
  induction n as [|n IH]; intros k src l Hk Hj; [by exists l|]. cbn [padstr].
  assert (Hw : forall v, exists l', wr l (Z.lxor k 1) v = Done l' /\ alen l' = alen l) by (intros v; eexists; split; [apply wr_in, Hj; lia|apply alen_set]).
  destruct src as [|v src]; [destruct (Hw 0x20) as (l1 & -> & E1)|destruct (Hw v) as (l1 & -> & E1)]; rewrite bind_of_done;
    [destruct (IH (k + 1) [] l1) as (l' & -> & E)|destruct (IH (k + 1) src l1) as (l' & -> & E)]; try lia; try (intros j ?; rewrite E1; apply Hj; lia); exists l'; by rewrite E.
Qed.
(** The model name is inside the answer. *)
Lemma padstr_model src l : 1024 <= alen l -> exists l', padstr 40 (2 * 27) src l = Done l' /\ alen l' = alen l.
Proof.
  intros Hl. apply padstr_ok; [lia|]. intros j Hj. pose proof (all_below_spec 94 (fun j => (0 <=? Z.lxor j 1) && (Z.lxor j 1 <? 1024)) j ltac:(by vm_compute) ltac:(lia)) as Hb.
  apply andb_true_iff in Hb as [?%Z.leb_le ?%Z.ltb_lt]. lia.
Qed.
Lemma identity_words s : Forall (fun p => 0 <= p.1 < 512) (identity_table s).
Proof. unfold identity_table. cbv zeta. destruct (nz (mult_sectors s)); cbn [app]; repeat (apply Forall_cons_2; [cbn [fst]; lia|]); by apply Forall_nil_2. Qed.
Lemma identify_ok s : hd_ok s -> exists s', ide_identify s = Done s' /\ hd_ok s'.
Proof.
  intros Hs. pose proof (hd_buffer s Hs) as Hb. unfold MAX_MULT_SECTORS in Hb. unfold ide_identify.
  assert (Hz : alen (replicate 1024 0) = 1024) by done. rewrite copy_into_in, bind_of_done by lia.
  destruct (stws_ok [(0, 0x0040); (1, cylinders s); (3, heads s); (4, 512 * sectors s); (5, 512); (6, sectors s); (20, 3); (21, 512); (22, 4)] (overwrite (io_buffer s) 0 (replicate 1024 0)))
    as (l1 & -> & E1); [repeat (apply Forall_cons_2; [cbn; lia|]); by apply Forall_nil_2|rewrite overwrite_length; lia|]. rewrite bind_of_done. rewrite overwrite_length in E1 by lia.
  destruct (padstr_model HARDDISK l1) as (l2 & -> & E2); [lia|]. rewrite bind_of_done.
  destruct (stws_ok (identity_table s) l2 (identity_words s)) as (l3 & -> & E3); [lia|]. rewrite bind_of_done. eexists. split; [reflexivity|]. hd_tac.
Qed.

Lemma with_req s n : hd_ok s -> 0 <= n <= MAX_MULT_SECTORS -> hd_ok (s <| req_nb_sectors := n |>).
Proof. intros Hs Hn. hd_tac. Qed.
Lemma abort_ok s : hd_ok s -> hd_ok (ide_abort_command s).
Proof. intros Hs. unfold ide_abort_command. hd_tac. Qed.
Lemma exec_cmd_ok val s c : hd_ok s -> ctl_ok c -> exists s' c', ide_exec_cmd val (s, c) = Done (s', c') /\ hd_ok s' /\ ctl_ok c'.
Proof.
  intros Hs Hc. assert (Hdone : forall s', hd_ok s' -> exists s2 c2, Done (s', ide_set_irq c) = Done (s2, c2) /\ hd_ok s2 /\ ctl_ok c2) by (intros s' Hs'; eexists _, _; split; [done|]; split; [done|by apply irq_ok]).
  unfold ide_exec_cmd. repeat case_match; subst; try (apply Hdone; first [by apply abort_ok|solve [hd_tac]]);
    try (apply sector_read_ok; [apply with_req; [done|unfold MAX_MULT_SECTORS; first [lia|apply Hs]]|done]);
    try (eexists _, _; split; [reflexivity|]; split; [apply sector_write_ok, with_req; [done|unfold MAX_MULT_SECTORS; first [lia|apply Hs]]|done]).
  all: try (destruct (identify_ok s Hs) as (s1 & -> & Hs1); rewrite bind_of_done; apply Hdone; unfold ide_transfer_start; hd_tac).
  all: try (destruct (set_sector_done (nb_sectors s - 1) s Hs) as (s1 & -> & E); rewrite bind_of_done; apply Hdone; pose proof (address_ok s s1 E Hs); hd_tac).
  all: try match goal with E : bs_flush _ = (_, ?b) |- _ => assert (hd_ok (s <| bs := b |>)) by (pose proof (bs_flush_keeps _ (hd_bs s Hs)) as Hfl; rewrite E in Hfl; cbn [snd] in Hfl; hd_tac) end.
  all: apply Hdone; cbv zeta; repeat case_match; first [by apply abort_ok|hd_tac].
Qed.
Lemma end_transfer_ok s c : hd_ok s -> ctl_ok c -> exists s' c', end_transfer (s, c) = Done (s', c') /\ hd_ok s' /\ ctl_ok c'.
Proof.
  intros Hs Hc. unfold end_transfer. pose proof (hd_end_func s Hs) as Hf. destruct (end_transfer_func s); try discriminate Hf; try (by apply sector_read_ok || by apply write_cb1_ok);
    (eexists _, _; split; [reflexivity|]; split; [|done]); unfold ide_transfer_stop, ide_sector_read_cb_end, ide_identify_cb, ide_transfer_stop; hd_tac.
Qed.

(** ** The channel *)

Record if_ok i : Prop := {
  if_drives : alen (drives i) = 2;
  if_hd : forall n s, 0 <= n < 2 -> arr (drives i) n = Some s -> hd_ok s;
  if_cur : forall n, cur_drive i = Some n -> 0 <= n < 2 /\ exists s, arr (drives i) n = Some s;
  if_ctl : ctl_ok (ctl i) }.
(** Code that is safe on a drive. *)
Definition drive_safe {A} (f : IDEState B * Ctl P -> outcome (A * (IDEState B * Ctl P))) : Prop :=
  forall s c, hd_ok s -> ctl_ok c -> exists a s' c', f (s, c) = Done (a, (s', c')) /\ hd_ok s' /\ ctl_ok c'.

Lemma put_drive_ok n s c i : if_ok i -> 0 <= n < 2 -> hd_ok s -> ctl_ok c -> if_ok (i <| ctl := c |> <| drives := arr_set (drives i) n (Some s) |>).
Proof.
  intros [Hl Hd Hcur Hct] Hn Hs Hc. constructor; cbn [ctl cur_drive drives set_field]; [by rewrite alen_set| | |done].
  - intros m s' Hm. destruct (Z.eq_dec n m) as [->|]; [rewrite arr_set_eq by lia; by intros [= <-]|rewrite arr_set_ne by lia; by apply Hd].
  - intros m Hm. destruct (Hcur m Hm) as [Hr [s' Es]]. split; [done|]. destruct (Z.eq_dec n m) as [->|]; [rewrite arr_set_eq by lia; by eexists|rewrite arr_set_ne by lia; by eexists].
Qed.
Lemma on_current_ok {A} (none : A) f i : drive_safe f -> if_ok i -> exists a i', on_current none f i = Done (a, i') /\ if_ok i'.
Proof.
  intros Hf Hi. unfold on_current. destruct (cur_drive i) as [n|] eqn:Ec; [|by exists none, i]. destruct (if_cur i Hi n Ec) as [Hn [s Es]].
  rewrite rd_in, bind_of_done by (rewrite (if_drives i Hi); lia). rewrite Es. destruct (Hf s (ctl i) (if_hd i Hi n s Hn Es) (if_ctl i Hi)) as (a & s' & c' & -> & Hs' & Hc'). rewrite bind_of_done.
  rewrite wr_in, bind_of_done by (rewrite (if_drives i Hi); lia). eexists _, _. split; [reflexivity|]. by apply put_drive_ok.
Qed.

Lemma move_on_ok p s c : hd_ok s -> ctl_ok c -> 0 <= p <= data_end s -> exists s' c', move_on p (s, c) = Done (s', c') /\ hd_ok s' /\ ctl_ok c'.
Proof.
  intros Hs Hc Hp. unfold move_on. cbn [fst snd]. assert (Hs' : hd_ok (s <| data_index := p |>)) by hd_tac. destruct (_ <=? p); [by apply end_transfer_ok|]. by eexists _, _.
Qed.
Lemma with_buffer s l : hd_ok s -> alen l = alen (io_buffer s) -> hd_ok (s <| io_buffer := l |>).
Proof. intros Hs Hl. hd_tac. Qed.
Lemma write_port_ok n bytes : 0 <= n -> alen bytes = n -> drive_safe (data_write n bytes).
Proof.
  intros Hn Hb s c Hs Hc. unfold data_write. cbn [fst snd]. destruct (Z.ltb_spec (data_end s) (data_index s + n)); [by exists tt, s, c|].
  pose proof (hd_index s Hs). pose proof (hd_end s Hs). pose proof (hd_buffer s Hs). rewrite copy_into_in, bind_of_done by lia.
  destruct (move_on_ok (data_index s + n) (s <| io_buffer := overwrite (io_buffer s) (data_index s) bytes |>) c) as (s' & c' & -> & Hs' & Hc');
    [apply with_buffer; [done|apply overwrite_length; lia]|done|change (data_end (s <| io_buffer := overwrite (io_buffer s) (data_index s) bytes |>)) with (data_end s); lia|]. by exists tt, s', c'.
Qed.
Lemma read_port_ok n : 0 <= n -> drive_safe (data_read n).
Proof.
  intros Hn s c Hs Hc. unfold data_read. cbn [fst snd]. destruct (Z.ltb_spec (data_end s) (data_index s + n)); [by eexists _, s, c|].
  pose proof (hd_index s Hs). pose proof (hd_end s Hs). pose proof (hd_buffer s Hs). rewrite copy_from_in, bind_of_done by lia.
  destruct (move_on_ok (data_index s + n) s c Hs Hc) as (s' & c' & -> & Hs' & Hc'); [lia|]. by eexists _, s', c'.
Qed.
Lemma string_len_ok size count s : hd_ok s -> 0 < size -> 0 <= count -> 0 <= string_len size count s <= Z.min (size * count) (data_end s - data_index s).
Proof.
  intros Hs Hsz Hct. pose proof (hd_index s Hs). unfold string_len. cbv zeta. set (l := Z.min _ _). assert (0 <= l) by (unfold l; nia).
  pose proof (Z.rem_bound_pos l size ltac:(lia) Hsz). pose proof (Z.rem_le l size ltac:(lia) Hsz). lia.
Qed.

(** ** Sessions *)

Inductive IdeOp :=
| IoWrite (addr val : Z) | IoRead (addr : Z) | StatusRead | CmdWrite (val : Z)
| Write16 (val : Z) | Write32 (val : Z) | Read16 | Read32
| WriteString (buf : list Z) (size count : Z) | ReadString (size count : Z).
Definition op_ok (o : IdeOp) : Prop :=
  match o with
  | IoWrite _ val => 0 <= val
  | WriteString buf size count => 0 < size /\ 0 <= count /\ alen buf = size * count
  | ReadString size count => 0 < size /\ 0 <= count
  | _ => True
  end.
Definition run_op (o : IdeOp) i : outcome (IDEIFState P B) :=
  match o with
  | IoWrite addr val => ide_ioport_write addr val i
  | IoRead addr => r ← ide_ioport_read addr i; Done r.2
  | StatusRead => r ← ide_status_read i; Done r.2
  | CmdWrite val => Done (ide_cmd_write val i)
  | Write16 val => ide_data_writew val i
  | Write32 val => ide_data_writel val i
  | Read16 => r ← ide_data_readw i; Done r.2
  | Read32 => r ← ide_data_readl i; Done r.2
  | WriteString buf size count => r ← ide_data_write_string buf size count i; Done r.2
  | ReadString size count => r ← ide_data_read_string size count i; Done r.2
  end.
Fixpoint run_ops (l : list IdeOp) i : outcome (IDEIFState P B) := match l with [] => Done i | o :: l => i ← run_op o i; run_ops l i end.

Lemma update_keeps f i : (forall s, hd_ok s -> hd_ok (f s)) -> if_ok i -> exists i', update f i = Done i' /\ if_ok i'.
Proof.
  intros Hf Hi. unfold update. destruct (on_current_ok tt (fun x => Done (tt, (f x.1, x.2))) i) as (a & i' & -> & Hi'); [|done|by exists i'].
  intros s c Hs Hc. exists tt, (f s), c. split; [done|]. by split; [apply Hf|].
Qed.
Lemma select_drive_ok n i : if_ok i -> 0 <= n < 2 -> if_ok (i <| cur_drive := if arr (drives i) n is Some _ then Some n else None |>).
Proof.
  intros [Hl Hd Hcur Hct] Hn. constructor; try done. cbn [cur_drive drives set_field]. intros m. destruct (arr (drives i) n) as [s|] eqn:E; [|done]. intros [= <-]. by split; [|eexists].
Qed.
Lemma ioport_write_ok addr val i : if_ok i -> 0 <= val -> exists i', ide_ioport_write addr val i = Done i' /\ if_ok i'.
Proof.
  intros Hi Hv. assert (Hu : 0 <= u16 val) by (apply Z.mod_pos_bound; lia).
  assert (Hcmd : exists i', (r ← on_current tt (fun x => x ← (match drive_kind x.1 with IDE_HD => ide_exec_cmd val x | IDE_CD => idecd_exec_cmd val x end); Done (tt, x)) i; Done r.2) = Done i' /\ if_ok i').
  { edestruct (on_current_ok tt (fun x => x ← (match drive_kind x.1 with IDE_HD => ide_exec_cmd val x | IDE_CD => idecd_exec_cmd val x end); Done (tt, x)) i) as (a & i' & -> & Hi'); [|done|by exists i'].
    intros s c Hs Hc. cbn [fst]. rewrite (hd_kind s Hs). destruct (exec_cmd_ok val s c Hs Hc) as (s' & c' & -> & Hs' & Hc'). by exists tt, s', c'. }
  unfold ide_ioport_write. repeat case_match; try exact Hcmd; try (by exists i); try (apply update_keeps; [intros s Hs; hd_tac|done]).
  assert (Hn : 0 <= Z.land (Z.shiftr val 4) 1 < 2) by (pose proof (land_ones_mod 1 (Z.shiftr val 4) ltac:(lia)) as E; change (2 ^ 1 - 1) with 1 in E; rewrite E; apply Z.mod_pos_bound; lia).
  rewrite rd_in, bind_of_done by (rewrite (if_drives i Hi); lia). apply update_keeps; [intros s Hs; hd_tac|by apply select_drive_ok].
Qed.
Lemma cmd_write_ok val i : if_ok i -> if_ok (ide_cmd_write val i).
Proof.
  intros Hi. assert (Heach : forall f : IDEState B -> IDEState B, (forall s, hd_ok s -> hd_ok (f s)) -> if_ok (i <| drives := map (option_map f) (drives i) |>)).
  { intros f Hf. destruct Hi as [Hl Hd Hcur Hct]. assert (Ea : forall n, 0 <= n < 2 -> arr (map (option_map f) (drives i)) n = option_map f (arr (drives i) n)).
    { intros n Hn. unfold arr, alen in *. rewrite !list_lookup_total_alt. destruct (lookup_lt_is_Some_2 (drives i) (Z.to_nat n)) as [o Eo]; [lia|]. by rewrite list_lookup_fmap, Eo. }
    constructor; cbn [ctl cur_drive drives set_field]; [unfold alen in *; by rewrite length_map| | |done].
    - intros n s Hn. rewrite Ea by done. destruct (arr (drives i) n) as [s0|] eqn:E; [|done]. intros [= <-]. by apply Hf, (Hd n).
    - intros n En. destruct (Hcur n En) as [Hn [s Es]]. split; [done|]. rewrite Ea, Es by done. by eexists. }
  assert (Hc : forall i, if_ok i -> if_ok (i <| ctl := (ctl i) <| cmd := u8 val |> |>)) by (intros j [? ? ? [? ?]]; by constructor; [..|constructor]).
  unfold ide_cmd_write. cbv zeta. apply Hc. destruct (_ && _); [apply Heach; intros s Hs; hd_tac|]. destruct (_ && _); [|done].
  apply Heach. intros s Hs. unfold ide_set_signature. cbn [drive_kind set_field]. rewrite (hd_kind s Hs). hd_tac.
Qed.
Lemma run_op_safe o i : if_ok i -> op_ok o -> exists i', run_op o i = Done i' /\ if_ok i'.
Proof.
  intros Hi Ho. assert (Hcur : forall A (none : A) f, drive_safe f -> exists i', (r ← on_current none f i; Done r.2) = Done i' /\ if_ok i').
  { intros A none f Hf. destruct (on_current_ok none f i Hf Hi) as (a & i' & -> & Hi'). by exists i'. }
  destruct o as [addr val|addr| |val|val|val| | |buf size count|size count]; cbn [run_op op_ok] in *.
  - by apply ioport_write_ok.
  - apply Hcur. intros s c Hs [Hc1 Hc2]. repeat case_match; eexists _, _, _; (split; [reflexivity|]); (split; [done|]); constructor; try done; cbn; by apply sink_set_ok.
  - apply Hcur. intros s c Hs Hc. by eexists _, _, _.
  - eexists. split; [reflexivity|]. by apply cmd_write_ok.
  - apply Hcur. by apply write_port_ok.
  - apply Hcur. by apply write_port_ok.
  - unfold ide_data_readw. destruct (on_current_ok [0; 0] (data_read 2) i (read_port_ok 2 ltac:(lia)) Hi) as (a & i' & -> & Hi'). by exists i'.
  - unfold ide_data_readl. destruct (on_current_ok [0; 0; 0; 0] (data_read 4) i (read_port_ok 4 ltac:(lia)) Hi) as (a & i' & -> & Hi'). by exists i'.
  - apply Hcur. intros s c Hs Hc. destruct Ho as (H1' & H2' & Hb). pose proof (string_len_ok size count s Hs H1' H2') as Hl. cbv zeta. cbn [fst snd]. destruct (Z.leb_spec 0 (string_len size count s)); [|lia].
    pose proof (hd_index s Hs). pose proof (hd_end s Hs). pose proof (hd_buffer s Hs). assert (Ht : alen (take (Z.to_nat (string_len size count s)) buf) = string_len size count s) by (unfold alen in *; rewrite length_take; lia).
    rewrite copy_into_in, bind_of_done by lia. set (l := overwrite _ _ _).
    destruct (move_on_ok (data_index s + string_len size count s) (s <| io_buffer := l |>) c) as (s' & c' & -> & Hs' & Hc');
      [apply with_buffer; [done|apply overwrite_length; lia]|done|change (data_end (s <| io_buffer := l |>)) with (data_end s); lia|]. by eexists _, s', c'.
  - apply Hcur. intros s c Hs Hc. destruct Ho as (H1' & H2'). pose proof (string_len_ok size count s Hs H1' H2') as Hl. cbv zeta. cbn [fst snd]. destruct (Z.leb_spec 0 (string_len size count s)); [|lia].
    pose proof (hd_index s Hs). pose proof (hd_end s Hs). pose proof (hd_buffer s Hs). rewrite copy_from_in, bind_of_done by lia.
    destruct (move_on_ok (data_index s + string_len size count s) s c Hs Hc) as (s' & c' & -> & Hs' & Hc'); [lia|]. by eexists _, s', c'.
Qed.

(** ** Addresses *)

(** The sectors that the address registers of a drive reach, in its mode. *)
Definition reach s : Z := if nz (Z.land (select s) 0x40) then 2 ^ 28 else 65536 * (heads s * sectors s).

Lemma four_bytes (d c b a : Z) : inw 8 d -> inw 8 c -> inw 8 b ->
  Z.lor (Z.lor (Z.lor (Z.shiftl a 24) (Z.shiftl b 16)) (Z.shiftl c 8)) d = d + 256 * (c + 256 * (b + 256 * a)).
Proof.
  intros Hd Hc Hb. rewrite Z.lor_comm, (Z.lor_comm (Z.lor _ _) (Z.shiftl c 8)), (Z.lor_comm (Z.shiftl a 24)).
  change (Z.shiftl a 24) with (Z.shiftl a (8 + (8 + 8))). change (Z.shiftl b 16) with (Z.shiftl b (8 + 8)). rewrite <- !Z.shiftl_shiftl, <- !Z.shiftl_lor by lia.
  rewrite !lor_shiftl_add by (done || lia). lia.
Qed.
Lemma land_15 z : Z.land z 15 = z mod 16.
Proof. exact (land_ones_mod 4 z ltac:(lia)). Qed.
Lemma select_fields sel h : Z.land (Z.lor (Z.land sel 0xf0) (Z.land h 0x0f)) 0x0f = Z.land h 0x0f /\ Z.land (Z.lor (Z.land sel 0xf0) (Z.land h 0x0f)) 0x40 = Z.land sel 0x40.
Proof. rewrite !Z.land_lor_distr_l, <- !Z.land_assoc. change (Z.land 0xf0 0x0f) with 0. change (Z.land 0x0f 0x0f) with 0x0f. change (Z.land 0xf0 0x40) with 0x40. change (Z.land 0x0f 0x40) with 0. by rewrite !Z.land_0_r, Z.lor_0_r. Qed.

Lemma set_get_sector n s s' : hd_ok s -> 0 <= n < reach s -> ide_set_sector n s = Done s' -> ide_get_sector s' = n /\ reach s' = reach s.
Proof.
  intros Hs Hn. destruct (geometry s Hs) as (Hg & Hu & Hr). unfold reach, ide_set_sector, ide_get_sector in *. destruct (nz (Z.land (select s) 0x40)) eqn:Em.
  - intros [= <-]. ide_cbn. destruct (select_fields (select s) (Z.shiftr n 24)) as [-> ->]. rewrite Em. split; [|done].
    rewrite !land_255, land_15, !Z.shiftr_div_pow2 by lia. rewrite four_bytes by (apply Z.mod_pos_bound; lia). change (2 ^ 24) with 16777216. change (2 ^ 16) with 65536. change (2 ^ 8) with 256. change (2 ^ 28) with 268435456 in Hn.
    Z.to_euclidean_division_equations. lia.
  - rewrite Hg. destruct (Z.eqb_spec (heads s * sectors s) 0); [lia|]. cbv zeta. pose proof (hd_sectors s Hs) as Hse. pose proof (hd_heads s Hs) as Hhe. destruct (Z.eqb_spec (sectors s) 0); [lia|]. intros [= <-]. ide_cbn.
    set (g := heads s * sectors s) in *. assert (Hq : 0 <= n / g < 65536) by (split; [apply Z.div_pos; lia|apply Z.div_lt_upper_bound; lia]).
    rewrite Z.quot_div_nonneg, Z.rem_mod_nonneg, Hu by lia. pose proof (Z.mod_pos_bound n g ltac:(lia)) as Hm. rewrite !u32_id by (unfold inw; lia). set (q := n / g) in *. set (r := n mod g) in *.
    assert (Hh : 0 <= r / sectors s < heads s) by (split; [apply Z.div_pos; lia|apply Z.div_lt_upper_bound; [lia|unfold g in Hm; lia]]). pose proof (Z.mod_pos_bound r (sectors s) ltac:(lia)) as Hrs.
    destruct (select_fields (select s) (r / sectors s)) as [-> ->]. rewrite Em. split; [|done]. rewrite land_15, (Z.mod_small (r / sectors s)) by lia. rewrite u8_id by (unfold inw; lia).
    rewrite !land_255, Z.lor_comm, Z.shiftr_div_pow2 by lia. rewrite lor_shiftl_add by (lia || apply Z.mod_pos_bound; lia). change (2 ^ 8) with 256. rewrite (Z.mod_small (q / 256)) by (split; [apply Z.div_pos; lia|apply Z.div_lt_upper_bound; lia]).
    replace (q mod 256 + q / 256 * 256) with q by (pose proof (Z.div_mod q 256); lia).
    replace (q * heads s * sectors s + r / sectors s * sectors s + (r mod sectors s + 1 - 1)) with n; [apply s32_nonneg; nia|].
    pose proof (Z.div_mod n g ltac:(lia)). pose proof (Z.div_mod r (sectors s) ltac:(lia)). fold q r in H3. unfold g in H3. lia.
Qed.
Lemma set_sector_ok n s : hd_ok s -> 0 <= n < reach s -> exists s', ide_set_sector n s = Done s' /\ same_but_address s s' /\ ide_get_sector s' = n /\ reach s' = reach s.
Proof. intros Hs Hn. destruct (set_sector_done n s Hs) as (s' & E & Ha). exists s'. by destruct (set_get_sector n s s' Hs Hn E). Qed.

(** ** Transfers through the data port *)

(** [n] bytes of the buffer of a drive from [p] on. *)
Definition window s (p n : Z) : list Z := take (Z.to_nat n) (drop (Z.to_nat p) (io_buffer s)).
Fixpoint reads (k : nat) x : outcome (list Z * (IDEState B * Ctl P)) :=
  match k with 0%nat => Done ([], x) | S k => '(d, x) ← data_read 2 x; '(d', x) ← reads k x; Done (d ++ d', x) end.
Fixpoint writes (l : list (list Z)) x : outcome (IDEState B * Ctl P) :=
  match l with [] => Done x | w :: l => '(_, x) ← data_write 2 w x; writes l x end.

Lemma hd_room s p : hd_ok s -> p <= data_end s -> p <= alen (io_buffer s).
Proof. intros Hs Hp. pose proof (hd_end s Hs). rewrite (hd_buffer s Hs). unfold MAX_MULT_SECTORS in *. lia. Qed.
(** Inside a block the index moves on; the last word of a block ends it. *)
Lemma reads_block k : forall s c, hd_ok s -> (0 < k)%nat -> data_index s + 2 * Z.of_nat k <= data_end s ->
  reads k (s, c) = if data_index s + 2 * Z.of_nat k =? data_end s
    then x ← end_transfer (s <| data_index := data_end s |>, c); Done (window s (data_index s) (2 * Z.of_nat k), x)
    else Done (window s (data_index s) (2 * Z.of_nat k), (s <| data_index := data_index s + 2 * Z.of_nat k |>, c)).
Proof.
  induction k as [|k IH]; intros s c Hs Hk Hr; [lia|]. pose proof (hd_index s Hs). cbn [reads]. unfold data_read at 1. cbn [fst snd].
  destruct (Z.ltb_spec (data_end s) (data_index s + 2)); [lia|]. rewrite copy_from_in, bind_of_done by (try lia; by apply hd_room; [|lia]). fold (window s (data_index s) 2).
  unfold move_on. cbn [fst snd]. change (data_end (s <| data_index := data_index s + 2 |>)) with (data_end s). destruct (Z.leb_spec (data_end s) (data_index s + 2)) as [Hle|Hlt].
  - assert (k = 0%nat) as -> by lia. replace (data_index s + 2) with (data_end s) by lia. change (2 * Z.of_nat 1) with 2. replace (data_index s + 2) with (data_end s) by lia. rewrite Z.eqb_refl.
    destruct (end_transfer _) as [x|]; [|done]. cbn [mbind outcome_bind reads]. by rewrite app_nil_r.
  - rewrite !bind_of_done. set (s1 := s <| data_index := data_index s + 2 |>). assert (Hs1 : hd_ok s1) by (unfold s1; hd_tac).
    destruct (decide (k = 0%nat)) as [->|]; [cbn [reads]; rewrite bind_of_done, app_nil_r; change (2 * Z.of_nat 1) with 2; destruct (Z.eqb_spec (data_index s + 2) (data_end s)); [lia|done]|].
    rewrite (IH s1 c Hs1) by (unfold s1; ide_cbn; lia). change (data_index s1) with (data_index s + 2). change (data_end s1) with (data_end s).
    assert (E : forall n, 0 <= n -> window s (data_index s) 2 ++ window s1 (data_index s + 2) n = window s (data_index s) (2 + n)) by (intros m Hm; unfold window; change (io_buffer s1) with (io_buffer s); by rewrite <- read_more by lia).
    replace (data_index s + 2 + 2 * Z.of_nat k) with (data_index s + 2 * Z.of_nat (S k)) by lia. replace (2 * Z.of_nat (S k)) with (2 + 2 * Z.of_nat k) by lia. rewrite <- E by lia.
    destruct (_ =? data_end s); [|done]. change (s1 <| data_index := data_end s |>) with (s <| data_index := data_end s |>). by destruct (end_transfer _).
Qed.
Lemma writes_block l : forall s c, hd_ok s -> l <> [] -> Forall (fun w => alen w = 2) l -> data_index s + alen (concat l) <= data_end s ->
  let s' := s <| io_buffer := overwrite (io_buffer s) (data_index s) (concat l) |> <| data_index := data_index s + alen (concat l) |> in
  writes l (s, c) = if data_index s + alen (concat l) =? data_end s then end_transfer (s', c) else Done (s', c).
Proof.
  induction l as [|w l IH]; intros s c Hs Hl Hw Hr s'; [done|]. inversion Hw as [|? ? Hw2 Hw']; subst. pose proof (hd_index s Hs). cbn [writes concat] in *.
  assert (Ha : alen (w ++ concat l) = 2 + alen (concat l)) by (unfold alen in *; rewrite length_app; lia). rewrite Ha in *. assert (Hc0 : 0 <= alen (concat l)) by (unfold alen; lia).
  unfold data_write at 1. cbn [fst snd]. destruct (Z.ltb_spec (data_end s) (data_index s + 2)); [lia|].
  pose proof (hd_room s (data_end s) Hs ltac:(lia)). rewrite copy_into_in, bind_of_done by lia. unfold move_on. cbn [fst snd].
  set (s1 := s <| io_buffer := overwrite (io_buffer s) (data_index s) w |> <| data_index := data_index s + 2 |>).
  change ((s <| io_buffer := overwrite (io_buffer s) (data_index s) w |>) <| data_index := data_index s + 2 |>) with s1. change (data_end s1) with (data_end s).
  assert (Hs1 : hd_ok s1) by (unfold s1; assert (alen (overwrite (io_buffer s) (data_index s) w) = alen (io_buffer s)) by (apply overwrite_length; lia); hd_tac).
  destruct l as [|w' l'].
  - cbn [concat app] in *. change (alen []) with 0 in *. unfold s'. rewrite !app_nil_r, Z.add_0_r in *. destruct (Z.leb_spec (data_end s) (data_index s + 2)), (Z.eqb_spec (data_index s + 2) (data_end s)); try lia; cbn [writes]; rewrite Hw2.
    + change (s <| io_buffer := overwrite (io_buffer s) (data_index s) w |> <| data_index := data_index s + 2 |>) with s1. by destruct (end_transfer (s1, c)).
    + done.
  - assert (Hlen : 2 <= alen (concat (w' :: l'))) by (inversion Hw' as [|? ? Hw2' _]; subst; cbn [concat]; unfold alen in *; rewrite length_app; lia).
    destruct (Z.leb_spec (data_end s) (data_index s + 2)); [lia|]. rewrite !bind_of_done.
    pose proof (IH s1 c Hs1 ltac:(done) Hw') as IH'. change (data_index s1) with (data_index s + 2) in IH'. change (data_end s1) with (data_end s) in IH'. rewrite IH' by lia.
    replace (data_index s + 2 + alen (concat (w' :: l'))) with (data_index s + (2 + alen (concat (w' :: l')))) by lia.
    assert (E : overwrite (io_buffer s1) (data_index s + 2) (concat (w' :: l')) = overwrite (io_buffer s) (data_index s) (w ++ concat (w' :: l'))).
    { change (io_buffer s1) with (overwrite (io_buffer s) (data_index s) w). rewrite <- Hw2. apply overwrite_app; lia. }
    rewrite E. unfold s'. rewrite Ha. reflexivity.
Qed.

(** ** A read command *)

Definition sectors_at (l : list Z) (a n : Z) : list Z := take (Z.to_nat (512 * n)) (drop (Z.to_nat (512 * a)) l).
Lemma sectors_more l a m n : 0 <= a -> 0 <= m -> 0 <= n -> sectors_at l a (m + n) = sectors_at l a m ++ sectors_at l (a + m) n.
Proof. intros. unfold sectors_at. rewrite !Z.mul_add_distr_l. by apply read_more; lia. Qed.
Lemma sectors_len b a n : bs_ok b -> 0 <= a -> 0 <= n -> a + n <= get_sector_count b -> alen (sectors_at (image b) a n) = 512 * n.
Proof. intros Hb ? ? ?. destruct (bs_size b Hb) as [_ Hl]. unfold sectors_at, alen in *. rewrite length_take, length_drop. lia. Qed.

(** The disk and the mode of a drive stay. *)
Record kept s s' : Prop := {
  kp_image : image (bs s') = image (bs s); kp_count : get_sector_count (bs s') = get_sector_count (bs s); kp_writable : writable (bs s) -> writable (bs s');
  kp_reach : reach s' = reach s; kp_req : req_nb_sectors s' = req_nb_sectors s; kp_mult : mult_sectors s' = mult_sectors s }.
Lemma kept_refl s : kept s s.
Proof. by constructor. Qed.
Lemma kept_trans s1 s2 s3 : kept s1 s2 -> kept s2 s3 -> kept s1 s3.
Proof. intros [] []. constructor; try congruence; auto. Qed.

(** The sectors of a command that are left, from sector [a] on. *)
Record pending (a n : Z) s : Prop := {
  pd_ok : hd_ok s; pd_n : 1 <= n <= 256; pd_nsector : nsector s = n mod 256; pd_addr : ide_get_sector s = a; pd_low : 0 <= a;
  pd_count : a + n <= get_sector_count (bs s); pd_reach : a + n < reach s; pd_req : 1 <= req_nb_sectors s }.
Lemma pending_block a n s : pending a n s -> block_size s = Z.min n (req_nb_sectors s) /\ 1 <= Z.min n (req_nb_sectors s) <= MAX_MULT_SECTORS.
Proof.
  intros [Hs Hn Hns]. pose proof (hd_req s Hs). unfold block_size. rewrite Hns. split; [|lia]. destruct (Z.eq_dec n 256) as [->|]; [done|]. rewrite Z.mod_small by lia. destruct (Z.eqb_spec n 0); [lia|done].
Qed.
(** A block of [m] sectors from [a] on is in the buffer, and [rest] sectors are to follow. *)
Record loaded (a m rest : Z) s : Prop := {
  ld_ok : hd_ok s; ld_func : end_transfer_func s = if rest =? 0 then SectorReadCbEnd else SectorRead; ld_index : data_index s = 0; ld_end : data_end s = 512 * m;
  ld_m : 1 <= m; ld_block : window s 0 (512 * m) = sectors_at (image (bs s)) a m; ld_addr : ide_get_sector s = a + m; ld_rest : nsector s = rest }.

Lemma count_down n m : 1 <= n <= 256 -> 1 <= m <= n -> Z.land (n mod 256 - m) 0xff = n - m.
Proof. intros Hn Hm. rewrite land_255. rewrite Zminus_mod_idemp_l. apply Z.mod_small. lia. Qed.
Lemma after_address s s' : same_but_address s s' -> bs s' = bs s /\ nsector s' = nsector s /\ io_buffer s' = io_buffer s /\ io_nb_sectors s' = io_nb_sectors s /\
  req_nb_sectors s' = req_nb_sectors s /\ mult_sectors s' = mult_sectors s.
Proof. by intros (? & ? & ? & ? & ->). Qed.

Lemma load_block a n s c : pending a n s -> let m := Z.min n (req_nb_sectors s) in exists s' c', ide_sector_read (s, c) = Done (s', c') /\ loaded a m (n - m) s' /\ kept s s'.
Proof.
  intros Hp m. destruct (pending_block a n s Hp) as [Hbl Hm]. fold m in Hbl, Hm. assert (Hmn : m <= n) by (unfold m; lia). clearbody m. destruct Hp as [Hs Hn Hns Ha H0' Hct Hre Hrq].
  destruct (bs_size (bs s) (hd_bs s Hs)) as [Hsz _]. unfold ide_sector_read. cbv zeta. rewrite Hbl, Ha. ide_cbn. rewrite u64_id by (unfold inw; lia).
  assert (Hle : a + m <= get_sector_count (bs s)) by lia. assert (Hm0 : 0 <= m < 2 ^ 31) by (unfold MAX_MULT_SECTORS in Hm; lia). assert (Ha64 : inw 64 a) by (unfold inw; lia).
  pose proof (bs_read_in a m (bs s) (hd_bs s Hs) H0' Hm0 Hle) as Hr. pose proof (bs_read_keeps a m (bs s) (hd_bs s Hs) Ha64 Hm0) as (Hk0 & Hk1 & Hk2 & Hk3). destruct (bs_read a m (bs s)) as [rd' b] eqn:E. cbn [fst snd] in *. subst rd'.
  fold (sectors_at (image (bs s)) a m). set (blk := sectors_at (image (bs s)) a m). assert (Hbk : alen blk = 512 * m) by (apply sectors_len; [apply Hs|lia..]).
  pose proof (hd_buffer s Hs) as Hbuf. unfold MAX_MULT_SECTORS in Hbuf, Hm. rewrite copy_into_in, bind_of_done by lia. change (0 <? 0) with false. change (0 =? 0) with true. cbv iota.
  set (s1 := s <| io_nb_sectors := m |> <| bs := b |> <| io_buffer := overwrite (io_buffer s) 0 blk |>).
  assert (Hs1 : hd_ok s1) by (unfold s1; assert (alen (overwrite (io_buffer s) 0 blk) = alen (io_buffer s)) by (apply overwrite_length; lia); hd_tac).
  unfold ide_sector_read_cb. change (io_nb_sectors s1) with m. change (ide_get_sector s1) with (ide_get_sector s). rewrite Ha.
  destruct (set_sector_ok (a + m) s1 Hs1) as (s2 & -> & E2 & Hg & Hrc); [change (reach s1) with (reach s); lia|]. rewrite bind_of_done.
  destruct (after_address s1 s2 E2) as (Eb & En & Ebuf & Eio & Erq & Em). pose proof (address_ok s1 s2 E2 Hs1) as Hs2. rewrite En. change (nsector s1) with (nsector s). rewrite Hns, count_down by lia. ide_cbn.
  eexists _, _. split; [reflexivity|]. split.
  - unfold ide_transfer_start. constructor; ide_cbn; try done; try lia.
    + hd_tac. by case_match.
    + unfold window. ide_cbn. rewrite Ebuf, Eb. change (bs s1) with b. rewrite Hk1. fold blk. change (io_buffer s1) with (overwrite (io_buffer s) 0 blk). rewrite <- Hbk. apply read_overwritten; lia.
  - unfold ide_transfer_start. constructor; ide_cbn; first [exact Hrc|exact Erq|exact Em|rewrite Eb; change (bs s1) with b; first [exact Hk3|congruence]].
Qed.

Lemma reads_app j k x : reads (j + k) x = '(d, x) ← reads j x; '(d', x) ← reads k x; Done (d ++ d', x).
Proof.
  revert x. induction j as [|j IH]; intros x; cbn [reads Nat.add].
  - rewrite bind_of_done. destruct (reads k x) as [[d' x']|]; done.
  - destruct (data_read 2 x) as [[d x1]|]; [|done]. rewrite !bind_of_done, IH. destruct (reads j x1) as [[d1 x2]|]; [|done]. rewrite !bind_of_done.
    destruct (reads k x2) as [[d2 x3]|]; [|done]. by rewrite !bind_of_done, app_assoc.
Qed.
Lemma read_rest k : forall a m rest s c, (Z.to_nat rest <= k)%nat -> loaded a m rest s -> 0 <= a -> 0 <= rest < 256 -> a + m + rest <= get_sector_count (bs s) -> a + m + rest < reach s -> 1 <= req_nb_sectors s ->
  exists s' c', reads (Z.to_nat (256 * (m + rest))) (s, c) = Done (sectors_at (image (bs s)) a (m + rest), (s', c')) /\ hd_ok s' /\ kept s s' /\ status s' = Z.lor READY_STAT SEEK_STAT /\ error s' = 0.
Proof.
  induction k as [|k IH]; intros a m rest s c Hk Hl H0' Hr Hct Hre Hrq; pose proof (ld_ok _ _ _ _ Hl) as Hs; pose proof (ld_m _ _ _ _ Hl) as Hm;
    replace (Z.to_nat (256 * (m + rest))) with (Z.to_nat (256 * m) + Z.to_nat (256 * rest))%nat by lia;
    rewrite reads_app, (reads_block (Z.to_nat (256 * m)) s c Hs) by (rewrite ?(ld_index _ _ _ _ Hl), ?(ld_end _ _ _ _ Hl); lia);
    rewrite (ld_index _ _ _ _ Hl), (ld_end _ _ _ _ Hl); replace (2 * Z.of_nat (Z.to_nat (256 * m))) with (512 * m) by lia; rewrite Z.add_0_l, Z.eqb_refl, (ld_block _ _ _ _ Hl);
    unfold end_transfer; change (end_transfer_func (s <| data_index := 512 * m |>)) with (end_transfer_func s); rewrite (ld_func _ _ _ _ Hl).
  - assert (rest = 0) as -> by lia. change (0 =? 0) with true. cbv iota. rewrite !bind_of_done. change (Z.to_nat (256 * 0)) with 0%nat. cbn [reads]. rewrite bind_of_done, app_nil_r, Z.add_0_r.
    eexists _, _. split; [reflexivity|]. unfold ide_sector_read_cb_end, ide_transfer_stop. split; [hd_tac|]. split; [by constructor|done].
  - destruct (Z.eqb_spec rest 0) as [->|Hn].
    + rewrite !bind_of_done. change (Z.to_nat (256 * 0)) with 0%nat. cbn [reads]. rewrite bind_of_done, app_nil_r, Z.add_0_r.
      eexists _, _. split; [reflexivity|]. unfold ide_sector_read_cb_end, ide_transfer_stop. split; [hd_tac|]. split; [by constructor|done].
    + set (s0 := s <| data_index := 512 * m |>). assert (Hs0 : hd_ok s0) by (unfold s0; pose proof (ld_end _ _ _ _ Hl); pose proof (ld_index _ _ _ _ Hl); hd_tac).
      assert (Hp : pending (a + m) rest s0).
      { constructor; try done; try lia; [|apply (ld_addr _ _ _ _ Hl)]. change (nsector s0) with (nsector s). rewrite (ld_rest _ _ _ _ Hl). symmetry. apply Z.mod_small. lia. }
      destruct (load_block (a + m) rest s0 c Hp) as (s1 & c1 & E1 & Hl1 & K1). rewrite E1, !bind_of_done. change (req_nb_sectors s0) with (req_nb_sectors s) in *. set (m' := Z.min rest (req_nb_sectors s)) in *.
      destruct (IH (a + m) m' (rest - m') s1 c1) as (s' & c' & E' & Hs' & K' & Hst); [lia|done|lia|lia|rewrite (kp_count _ _ K1); change (bs s0) with (bs s); lia|rewrite (kp_reach _ _ K1); change (reach s0) with (reach s); lia|by rewrite (kp_req _ _ K1)|].
      replace (m' + (rest - m')) with rest in E' by lia. rewrite E', bind_of_done, (kp_image _ _ K1). change (bs s0) with (bs s). rewrite <- sectors_more by lia.
      exists s', c'. split; [done|]. split; [done|]. split; [|done]. apply (kept_trans _ s1); [|done]. destruct K1. by constructor.
Qed.

(** ** A write command *)

(** The drive takes a block of [m] sectors of the [n] that are left, from [a] on. *)
Record taking (a m n : Z) s : Prop := {
  tk_pending : pending a n s; tk_m : m = Z.min n (req_nb_sectors s); tk_func : end_transfer_func s = SectorWriteCb1; tk_index : data_index s = 0;
  tk_end : data_end s = 512 * m; tk_io : io_nb_sectors s = m; tk_writable : writable (bs s) }.
(** What storing [d] from sector [a] on leaves of a disk. *)
Record stored (a : Z) (d : list Z) s s' : Prop := {
  sd_image : image (bs s') = overwrite (image (bs s)) (512 * a) d; sd_count : get_sector_count (bs s') = get_sector_count (bs s); sd_writable : writable (bs s');
  sd_reach : reach s' = reach s; sd_req : req_nb_sectors s' = req_nb_sectors s; sd_mult : mult_sectors s' = mult_sectors s }.
Lemma stored_more a d d' s1 s2 s3 m : alen d = 512 * m -> 0 <= a -> 512 * a + alen d + alen d' <= alen (image (bs s1)) -> stored a d s1 s2 -> stored (a + m) d' s2 s3 -> stored a (d ++ d') s1 s3.
Proof.
  intros Hd Ha Hl [E1 ? ? ? ? ?] [E2 ? ? ? ? ?]. constructor; try congruence. rewrite E2, E1. replace (512 * (a + m)) with (512 * a + alen d) by lia. apply overwrite_app; lia.
Qed.

Lemma store_block a m n d s c : taking a m n s -> alen d = 512 * m ->
  let s0 := s <| io_buffer := overwrite (io_buffer s) 0 d |> <| data_index := 512 * m |> in
  exists s' c', ide_sector_write_cb1 (s0, c) = Done (s', c') /\ stored a d s s' /\ hd_ok s' /\
    if n - m =? 0 then status s' = Z.lor READY_STAT SEEK_STAT else taking (a + m) (Z.min (n - m) (req_nb_sectors s)) (n - m) s'.
Proof.
  intros [Hp Hm Hf Hi He Hio Hw] Hd s0. destruct (pending_block a n s Hp) as [_ Hmr]. rewrite <- Hm in Hmr. assert (Hmn : m <= n) by lia. clear Hm. destruct Hp as [Hs Hn Hns Ha H0' Hct Hre Hrq].
  pose proof (hd_buffer s Hs) as Hbuf. unfold MAX_MULT_SECTORS in Hbuf, Hmr. assert (Hle : a + m <= get_sector_count (bs s)) by lia. destruct (bs_size (bs s) (hd_bs s Hs)) as [Hsz Himg].
  assert (Hs0 : hd_ok (ide_transfer_stop s0)) by (unfold s0, ide_transfer_stop; assert (alen (overwrite (io_buffer s) 0 d) = alen (io_buffer s)) by (apply overwrite_length; lia); hd_tac).
  unfold ide_sector_write_cb1. cbv zeta. set (s1 := ide_transfer_stop s0) in *. change (ide_get_sector s1) with (ide_get_sector s). change (io_nb_sectors s1) with (io_nb_sectors s). rewrite Ha, Hio.
  change (io_buffer s1) with (overwrite (io_buffer s) 0 d). assert (Hol : alen (overwrite (io_buffer s) 0 d) = alen (io_buffer s)) by (apply overwrite_length; lia).
  rewrite copy_from_in, bind_of_done by lia. replace (take (Z.to_nat (512 * m)) (drop (Z.to_nat 0) (overwrite (io_buffer s) 0 d))) with d by (rewrite <- Hd; symmetry; apply read_overwritten; lia).
  rewrite u64_id by (unfold inw; lia). change (bs s1) with (bs s). assert (Hm0 : 0 <= m < 2 ^ 31) by lia. assert (Ha64 : inw 64 a) by (unfold inw; lia). pose proof (bs_write_in a d m (bs s) (hd_bs s Hs) Hw H0' Hm0 Hle Hd) as (Hr & Hk1 & Hk2 & Hk3). pose proof (bs_write_keeps a d m (bs s) (hd_bs s Hs) Ha64 Hm0 Hd) as Hk0.
  destruct (bs_write a d m (bs s)) as [ret b]. cbn [fst snd] in *. subst ret. change (0 <? 0) with false. change (0 =? 0) with true. cbv iota. set (s2 := s1 <| bs := b |>). assert (Hs2 : hd_ok s2) by (unfold s2; hd_tac).
  unfold ide_sector_write_cb2. change (io_nb_sectors s2) with (io_nb_sectors s). change (ide_get_sector s2) with (ide_get_sector s). rewrite Hio, Ha.
  destruct (set_sector_ok (a + m) s2 Hs2) as (s3 & -> & E3 & Hg & Hrc); [change (reach s2) with (reach s); lia|]. rewrite bind_of_done.
  destruct (after_address s2 s3 E3) as (Eb & En & Ebuf & Eio & Erq & Em). pose proof (address_ok s2 s3 E3 Hs2) as Hs3. rewrite En. change (nsector s2) with (nsector s). rewrite Hns, count_down by lia. ide_cbn.
  change (req_nb_sectors s2) with (req_nb_sectors s) in *. change (bs s2) with b in Eb. change (reach s2) with (reach s) in Hrc. eexists _, _. split; [reflexivity|].
  assert (Hst : forall s', bs s' = b -> reach s' = reach s -> req_nb_sectors s' = req_nb_sectors s -> mult_sectors s' = mult_sectors s -> stored a d s s') by (intros s' F1 F2 F3 F4; constructor; rewrite ?F1; done).
  destruct (Z.eqb_spec (n - m) 0) as [|Hnz].
  - split; [by apply Hst; [exact Eb|exact Hrc|exact Erq|exact Em]|]. split; [hd_tac|done].
  - unfold ide_transfer_start. split; [by apply Hst; [exact Eb|exact Hrc|exact Erq|exact Em]|]. rewrite Erq.
    match goal with |- hd_ok ?s' /\ _ => assert (Hs' : hd_ok s') by hd_tac; split; [done|]; assert (Er : reach s' = reach s) by exact Hrc end.
    constructor; ide_cbn; try done; [|by rewrite Erq|by rewrite Eb]. constructor; ide_cbn; rewrite ?Eb, ?Er; try done; try lia; by rewrite Z.mod_small by lia.
Qed.

Definition words_ok (l : list (list Z)) : Prop := Forall (fun w => alen w = 2) l.
Lemma concat_len l : words_ok l -> alen (concat l) = 2 * alen l.
Proof. induction 1 as [|w l Hw _ IH]; [done|]. unfold alen in *. cbn [concat length]. rewrite length_app. lia. Qed.
Lemma writes_app l l' x : writes (l ++ l') x = x ← writes l x; writes l' x.
Proof. revert x. induction l as [|w l IH]; intros x; [done|]. cbn [app writes]. destruct (data_write 2 w x) as [[u x1]|]; [|done]. by rewrite !bind_of_done, IH. Qed.
Lemma write_rest k : forall a m n l s c, (Z.to_nat n <= k)%nat -> taking a m n s -> words_ok l -> alen l = 256 * n ->
  exists s' c', writes l (s, c) = Done (s', c') /\ stored a (concat l) s s' /\ hd_ok s' /\ status s' = Z.lor READY_STAT SEEK_STAT.
Proof.
  induction k as [|k IH]; intros a m n l s c Hk Ht Hl Hlen; pose proof (tk_pending _ _ _ _ Ht) as Hp; [destruct Hp; lia|]. destruct (pending_block a n s Hp) as [_ Hmr]. rewrite <- (tk_m _ _ _ _ Ht) in Hmr.
  pose proof (pd_ok _ _ _ Hp) as Hs. assert (Hmn : m <= n) by (rewrite (tk_m _ _ _ _ Ht); lia). pose proof (take_drop (Z.to_nat (256 * m)) l) as El.
  set (l1 := take (Z.to_nat (256 * m)) l) in *. set (l2 := drop (Z.to_nat (256 * m)) l) in *. assert (H1l : alen l1 = 256 * m) by (unfold l1, alen in *; rewrite length_take; lia).
  assert (H2l : alen l2 = 256 * (n - m)) by (unfold l2, alen in *; rewrite length_drop; lia). assert (Hw1 : words_ok l1) by by apply Forall_take. assert (Hw2 : words_ok l2) by by apply Forall_drop.
  pose proof (concat_len l1 Hw1) as Hc1. pose proof (concat_len l2 Hw2) as Hc2. rewrite <- El, writes_app, concat_app.
  rewrite (writes_block l1 s c Hs) by (first [done|intros E; rewrite E in H1l; unfold alen in H1l; cbn in H1l; lia|rewrite (tk_index _ _ _ _ Ht), (tk_end _ _ _ _ Ht); lia]).
  rewrite (tk_index _ _ _ _ Ht), (tk_end _ _ _ _ Ht), Z.add_0_l. replace (alen (concat l1)) with (512 * m) by lia. rewrite Z.eqb_refl. unfold end_transfer. cbn [end_transfer_func set_field]. rewrite (tk_func _ _ _ _ Ht).
  destruct (store_block a m n (concat l1) s c Ht ltac:(lia)) as (s1 & c1 & E1 & St1 & Hs1 & Hend). rewrite E1, bind_of_done. destruct (Z.eqb_spec (n - m) 0) as [Hz|Hnz].
  - assert (l2 = []) as -> by (apply nil_length_inv; unfold alen in *; lia). exists s1, c1. cbn [writes concat]. by rewrite app_nil_r.
  - destruct (IH (a + m) (Z.min (n - m) (req_nb_sectors s)) (n - m) l2 s1 c1) as (s' & c' & E & St & Hs' & Hst); [lia|done|done|done|]. exists s', c'. split; [done|]. split; [|done].
    pose proof (pd_count _ _ _ Hp). pose proof (pd_low _ _ _ Hp). destruct (bs_size (bs s) (hd_bs s Hs)) as [_ Himg]. apply (stored_more a (concat l1) (concat l2) s s1 s' m); [lia|done|lia|done|done].
Qed.

(** ** The commands *)

(** Read and write commands, for single sectors or for blocks of [mult_sectors]. *)
Definition read_cmd (val : Z) s : bool := (val =? 0x20) || (val =? 0x21) || ((val =? 0xc4) && negb (mult_sectors s =? 0)).
Definition write_cmd (val : Z) s : bool := (val =? 0x30) || (val =? 0x31) || ((val =? 0xc5) && negb (mult_sectors s =? 0)).
(** The registers name [n] sectors from [a] on. *)
Record named (a n : Z) s : Prop := { nm_ok : hd_ok s; nm_n : 1 <= n <= 256; nm_nsector : nsector s = n mod 256; nm_addr : ide_get_sector s = a; nm_low : 0 <= a;
  nm_count : a + n <= get_sector_count (bs s); nm_reach : a + n < reach s }.
Lemma named_pending a n r s : named a n s -> 1 <= r <= MAX_MULT_SECTORS -> pending a n (s <| req_nb_sectors := r |>).
Proof. intros [] Hr. constructor; try done; [apply with_req; [done|lia]|cbn; lia]. Qed.
Lemma exec_read val a n s c : named a n s -> read_cmd val s = true -> exists r, 1 <= r <= MAX_MULT_SECTORS /\ ide_exec_cmd val (s, c) = ide_sector_read (s <| req_nb_sectors := r |>, c).
Proof.
  intros Hn Hc. pose proof (hd_mult s (nm_ok _ _ _ Hn)) as Hm. unfold read_cmd in Hc. rewrite !orb_true_iff in Hc.
  destruct Hc as [[->%Z.eqb_eq| ->%Z.eqb_eq]|[->%Z.eqb_eq Hz]%andb_true_iff]; [by exists 1; split; [unfold MAX_MULT_SECTORS; lia|]..|].
  exists (mult_sectors s). apply negb_true_iff in Hz. pose proof (proj1 (Z.eqb_neq _ _) Hz). split; [lia|]. cbn [ide_exec_cmd]. by rewrite Hz.
Qed.
Lemma exec_write val a n s c : named a n s -> write_cmd val s = true -> exists r, 1 <= r <= MAX_MULT_SECTORS /\ ide_exec_cmd val (s, c) = Done (ide_sector_write (s <| req_nb_sectors := r |>), c).
Proof.
  intros Hn Hc. pose proof (hd_mult s (nm_ok _ _ _ Hn)) as Hm. unfold write_cmd in Hc. rewrite !orb_true_iff in Hc.
  destruct Hc as [[->%Z.eqb_eq| ->%Z.eqb_eq]|[->%Z.eqb_eq Hz]%andb_true_iff]; [by exists 1; split; [unfold MAX_MULT_SECTORS; lia|]..|].
  exists (mult_sectors s). apply negb_true_iff in Hz. pose proof (proj1 (Z.eqb_neq _ _) Hz). split; [lia|]. cbn [ide_exec_cmd]. by rewrite Hz.
Qed.

Lemma read_command val a n s c : named a n s -> read_cmd val s = true -> exists s1 c1 s' c', ide_exec_cmd val (s, c) = Done (s1, c1) /\
  reads (Z.to_nat (256 * n)) (s1, c1) = Done (sectors_at (image (bs s)) a n, (s', c')) /\ hd_ok s' /\ image (bs s') = image (bs s) /\ status s' = Z.lor READY_STAT SEEK_STAT.
Proof.
  intros Hn Hc. destruct (exec_read val a n s c Hn Hc) as (r & Hr & ->). pose proof (named_pending a n r s Hn Hr) as Hp. destruct (load_block a n _ c Hp) as (s1 & c1 & E1 & Hl & K1).
  destruct (pending_block a n _ Hp) as [_ Hm]. destruct Hn as [Hs Hn Hns Ha H0' Hct Hre]. cbn [req_nb_sectors set_field] in *. set (m := Z.min n r) in *. exists s1, c1. assert (Hmn : m <= n) by (unfold m; lia). clearbody m.
  destruct (read_rest (Z.to_nat (n - m)) a m (n - m) s1 c1) as (s' & c' & E & Hs' & K & Hst & _); [lia|done|done|lia|rewrite (kp_count _ _ K1); cbn [bs set_field]; lia|rewrite (kp_reach _ _ K1); change (reach (s <| req_nb_sectors := r |>)) with (reach s); lia|rewrite (kp_req _ _ K1); cbn; lia|].
  replace (m + (n - m)) with n in E by lia. rewrite (kp_image _ _ K1) in E. exists s', c'. split; [done|]. split; [exact E|]. split; [done|]. split; [|done]. by rewrite (kp_image _ _ K), (kp_image _ _ K1).
Qed.
Lemma write_command val a n l s c : named a n s -> write_cmd val s = true -> writable (bs s) -> words_ok l -> alen l = 256 * n -> exists s1 s' c', ide_exec_cmd val (s, c) = Done (s1, c) /\
  writes l (s1, c) = Done (s', c') /\ hd_ok s' /\ status s' = Z.lor READY_STAT SEEK_STAT /\
  image (bs s') = overwrite (image (bs s)) (512 * a) (concat l) /\ get_sector_count (bs s') = get_sector_count (bs s) /\ mult_sectors s' = mult_sectors s.
Proof.
  intros Hn Hc Hw Hl Hlen. destruct (exec_write val a n s c Hn Hc) as (r & Hr & ->). pose proof (named_pending a n r s Hn Hr) as Hp. destruct (pending_block a n _ Hp) as [Hb _].
  set (s0 := s <| req_nb_sectors := r |>) in *. exists (ide_sector_write s0).
  assert (Ht : taking a (Z.min n r) n (ide_sector_write s0)).
  { pose proof (sector_write_ok s0 (pd_ok _ _ _ Hp)) as Hs1. unfold ide_sector_write in *. rewrite Hb in *. change (req_nb_sectors s0) with r in *. unfold ide_transfer_start in *. constructor; try done. destruct Hp. by constructor. }
  destruct (write_rest (Z.to_nat n) a _ n l _ c ltac:(done) Ht Hl Hlen) as (s' & c' & E & [Ei Ec _ _ _ Em] & Hs' & Hst). by exists s', c'.
Qed.

(** ** The same through the ports *)

(** Drive [d] is selected and is [s]; the other drive is [o]. *)
Record sees (d : Z) (o : option (IDEState B)) s c i : Prop := {
  se_cur : cur_drive i = Some d; se_d : 0 <= d < 2; se_len : alen (drives i) = 2; se_drive : arr (drives i) d = Some s; se_other : arr (drives i) (1 - d) = o; se_ctl : ctl i = c }.
Lemma on_current_sees {A} (none : A) f a d o s c s' c' i : sees d o s c i -> f (s, c) = Done (a, (s', c')) -> exists i', on_current none f i = Done (a, i') /\ sees d o s' c' i'.
Proof.
  intros [Hc Hd Hl Hs Ho Hct] E. unfold on_current. rewrite Hc, rd_in, bind_of_done, Hs, Hct, E, bind_of_done, wr_in, bind_of_done by lia.
  eexists. split; [reflexivity|]. constructor; cbn [ctl cur_drive drives set_field]; try done; [by rewrite alen_set|by rewrite arr_set_eq by lia|by rewrite arr_set_ne by lia].
Qed.
Lemma update_sees f d o s c i : sees d o s c i -> exists i', update f i = Done i' /\ sees d o (f s) c i'.
Proof. intros Hi. unfold update. destruct (on_current_sees tt (fun x => Done (tt, (f x.1, x.2))) tt d o s c (f s) c i Hi eq_refl) as (i' & -> & Hi'). by exists i'. Qed.

Fixpoint read_words (k : nat) i : outcome (list Z * IDEIFState P B) :=
  match k with 0%nat => Done ([], i) | S k => '(w, i) ← ide_data_readw i; '(l, i) ← read_words k i; Done (w :: l, i) end.
Fixpoint write_words (l : list Z) i : outcome (IDEIFState P B) := match l with [] => Done i | w :: l => i ← ide_data_writew w i; write_words l i end.
(** The words that bytes make, low byte first. *)
Fixpoint words_of (l : list Z) : list Z := match l with a :: b :: l => le_word [a; b] :: words_of l | _ => [] end.
Definition bytes_of (l : list Z) : list Z := concat (le_bytes 2 <$> l).

Lemma data_read_two x b x' : data_read 2 x = Done (b, x') -> exists u v, b = [u; v].
Proof.
  unfold data_read. destruct (_ <? _); [intros [= <- _]; by exists 0, 0|]. destruct (copy_from _ _ 2) as [l|] eqn:E; [|done]. rewrite bind_of_done.
  destruct (move_on _ x); [|done]. rewrite bind_of_done. intros [= <- _]. unfold copy_from in E. destruct ((_ <? 0) || _) eqn:Eb; [done|]. apply orb_false_iff in Eb as [E1%Z.ltb_ge E2%Z.ltb_ge].
  assert (Hl : length l = 2%nat) by (injection E as <-; unfold alen in E2; rewrite length_take, length_drop; lia). destruct l as [|u [|v [|]]]; try discriminate Hl. by exists u, v.
Qed.
Lemma read_words_sees k : forall d o s c i b s' c', sees d o s c i -> reads k (s, c) = Done (b, (s', c')) -> exists i', read_words k i = Done (words_of b, i') /\ sees d o s' c' i'.
Proof.
  induction k as [|k IH]; intros d o s c i b s' c' Hi E; cbn [reads read_words] in *; [injection E as <- <- <-; by exists i|].
  apply bind_done in E as ([b1 [s1 c1]] & E1 & E). apply bind_done in E as ([b2 x2] & E2 & E). injection E as <- ->. destruct (data_read_two _ _ _ E1) as (u & v & ->).
  destruct (on_current_sees [0; 0] (data_read 2) [u; v] d o s c s1 c1 i Hi E1) as (i1 & Ei & Hi1). destruct (IH d o s1 c1 i1 b2 s' c' Hi1 E2) as (i' & E' & Hi').
  exists i'. unfold ide_data_readw. by rewrite Ei, !bind_of_done, E', bind_of_done.
Qed.
Lemma write_words_sees l : forall d o s c i s' c', sees d o s c i -> writes (le_bytes 2 <$> l) (s, c) = Done (s', c') -> exists i', write_words l i = Done i' /\ sees d o s' c' i'.
Proof.
  induction l as [|w l IH]; intros d o s c i s' c' Hi E; cbn [fmap list_fmap writes write_words] in *; [injection E as <- <-; by exists i|].
  apply bind_done in E as ([[] [s1 c1]] & E1 & E2). destruct (on_current_sees tt (data_write 2 (le_bytes 2 w)) tt d o s c s1 c1 i Hi E1) as (i1 & Ei & Hi1).
  destruct (IH d o s1 c1 i1 s' c' Hi1 E2) as (i' & E' & Hi'). exists i'. unfold ide_data_writew. by rewrite Ei, bind_of_done.
Qed.

(** What a driver does: it selects drive [d] in LBA mode, names [n] sectors from [a]
    on, and gives the command. *)
Definition ata_command (val d a n : Z) i : outcome (IDEIFState P B) :=
  i ← ide_ioport_write 6 (Z.lor (0xe0 + 16 * d) (Z.land (Z.shiftr a 24) 0x0f)) i;
  i ← ide_ioport_write 2 (n mod 256) i; i ← ide_ioport_write 3 (Z.land a 0xff) i;
  i ← ide_ioport_write 4 (Z.land (Z.shiftr a 8) 0xff) i; i ← ide_ioport_write 5 (Z.land (Z.shiftr a 16) 0xff) i;
  ide_ioport_write 7 val i.

Definition with_address (d a n : Z) s : IDEState B :=
  s <| select := u8 (Z.lor (0xe0 + 16 * d) (Z.land (Z.shiftr a 24) 0x0f)) |> <| nsector := u16 (n mod 256) |> <| sector := u8 (Z.land a 0xff) |>
    <| lcyl := u8 (Z.land (Z.shiftr a 8) 0xff) |> <| hcyl := u8 (Z.land (Z.shiftr a 16) 0xff) |>.
Lemma drive_select d h : 0 <= d < 2 -> let v := Z.lor (0xe0 + 16 * d) (Z.land h 0x0f) in
  u8 v = v /\ Z.land (Z.shiftr v 4) 1 = d /\ Z.land v 0x0f = Z.land h 0x0f /\ nz (Z.land v 0x40) = true.
Proof.
  intros Hd v. unfold v. rewrite (land_15 h). assert (Hh : 0 <= h mod 16 < 16) by (apply Z.mod_pos_bound; lia). revert Hh. generalize (h mod 16). intros z Hz.
  assert (d = 0 \/ d = 1) as [-> | ->] by lia.
  - change (0xe0 + 16 * 0) with 0xe0. pose proof (all_below_spec 16 (fun z => let v := Z.lor 0xe0 z in (u8 v =? v) && (Z.land (Z.shiftr v 4) 1 =? 0) && (Z.land v 0x0f =? z) && nz (Z.land v 0x40)) z ltac:(by vm_compute) ltac:(lia)) as Hb.
    cbv zeta in Hb. rewrite !andb_true_iff, !Z.eqb_eq in Hb. tauto.
  - change (0xe0 + 16 * 1) with 0xf0. pose proof (all_below_spec 16 (fun z => let v := Z.lor 0xf0 z in (u8 v =? v) && (Z.land (Z.shiftr v 4) 1 =? 1) && (Z.land v 0x0f =? z) && nz (Z.land v 0x40)) z ltac:(by vm_compute) ltac:(lia)) as Hb.
    cbv zeta in Hb. rewrite !andb_true_iff, !Z.eqb_eq in Hb. tauto.
Qed.
Lemma with_address_named d a n s : hd_ok s -> 0 <= d < 2 -> 1 <= n <= 256 -> 0 <= a -> a + n <= get_sector_count (bs s) -> a + n < 2 ^ 28 -> named a n (with_address d a n s).
Proof.
  intros Hs Hd Hn Ha Hct Hre. destruct (drive_select d (Z.shiftr a 24) Hd) as (Ev & _ & E15 & E40). unfold with_address. rewrite Ev.
  assert (Hnn : 0 <= n mod 256 < 256) by (apply Z.mod_pos_bound; lia). rewrite (u16_id (n mod 256)) by (unfold inw; lia).
  assert (Hb : forall z, u8 (Z.land z 0xff) = z mod 256) by (intros z; rewrite land_255; apply u8_id, Z.mod_pos_bound; lia). rewrite !Hb. constructor; ide_cbn; try done.
  - hd_tac.
  - unfold ide_get_sector. ide_cbn. rewrite E40, E15, land_15, !Z.shiftr_div_pow2 by lia. rewrite four_bytes by (apply Z.mod_pos_bound; lia).
    change (2 ^ 24) with 16777216. change (2 ^ 16) with 65536. change (2 ^ 8) with 256. change (2 ^ 28) with 268435456 in Hre. clear - Ha Hre Hn. Z.to_euclidean_division_equations. lia.
  - unfold reach. ide_cbn. by rewrite E40.
Qed.
(** The channel before a command: any drive may be selected. *)
Record has_drive (d : Z) (o : option (IDEState B)) s c i : Prop := { ha_d : 0 <= d < 2; ha_len : alen (drives i) = 2; ha_drive : arr (drives i) d = Some s; ha_other : arr (drives i) (1 - d) = o; ha_ctl : ctl i = c }.
Lemma sees_has d o s c i : sees d o s c i -> has_drive d o s c i.
Proof. by intros []. Qed.
Lemma select_sees d o s c h i : has_drive d o s c i -> let v := Z.lor (0xe0 + 16 * d) (Z.land h 0x0f) in exists i', ide_ioport_write 6 v i = Done i' /\ sees d o (s <| select := u8 v |>) c i'.
Proof.
  intros [Hd Hl Hs Ho Hc] v. destruct (drive_select d h Hd) as (_ & Ed & _). unfold ide_ioport_write. fold v in Ed. rewrite Ed, rd_in, bind_of_done by lia. rewrite Hs.
  apply (update_sees (fun s => s <| select := u8 v |>)). by constructor.
Qed.
Lemma command_sees val d o s c a n s' c' i : has_drive d o s c i -> hd_ok s -> ide_exec_cmd val (with_address d a n s, c) = Done (s', c') -> exists i', ata_command val d a n i = Done i' /\ sees d o s' c' i'.
Proof.
  intros Hi Hs E. unfold ata_command. destruct (select_sees d o s c (Z.shiftr a 24) i Hi) as (i1 & -> & S1). rewrite bind_of_done.
  destruct (update_sees (fun s => s <| nsector := u16 (n mod 256) |>) _ _ _ _ _ S1) as (i2 & E2 & S2). cbn [ide_ioport_write]. rewrite E2, bind_of_done.
  destruct (update_sees (fun s => s <| sector := u8 (Z.land a 0xff) |>) _ _ _ _ _ S2) as (i3 & E3 & S3). rewrite E3, bind_of_done.
  destruct (update_sees (fun s => s <| lcyl := u8 (Z.land (Z.shiftr a 8) 0xff) |>) _ _ _ _ _ S3) as (i4 & E4 & S4). rewrite E4, bind_of_done.
  destruct (update_sees (fun s => s <| hcyl := u8 (Z.land (Z.shiftr a 16) 0xff) |>) _ _ _ _ _ S4) as (i5 & E5 & S5). rewrite E5, bind_of_done.
  edestruct (on_current_sees tt (fun x => x ← (match drive_kind x.1 with IDE_HD => ide_exec_cmd val x | IDE_CD => idecd_exec_cmd val x end); Done (tt, x)) tt d o _ c s' c' i5 S5) as (i6 & E6 & S6).
  - cbn [fst drive_kind set_field]. rewrite (hd_kind s Hs). unfold with_address in E. by rewrite E.
  - exists i6. by rewrite E6, bind_of_done.
Qed.

(** A drive of a channel writes what it is given and reads back what the disk holds. *)
Lemma words_of_bytes l : Forall (inw 16) l -> words_of (bytes_of l) = l.
Proof.
  induction 1 as [|w l Hw _ IH]; [done|]. unfold bytes_of in *. cbn [fmap list_fmap concat le_bytes seq app words_of le_word foldr]. rewrite IH. f_equal.
  change (8 * Z.of_nat 0) with 0. change (8 * Z.of_nat 1) with 8. rewrite Z.shiftr_0_r, !land_255, Z.shiftr_div_pow2 by lia. change (2 ^ 8) with 256. unfold inw in Hw. change (2 ^ 16) with 65536 in Hw. Z.to_euclidean_division_equations. lia.
Qed.
Lemma le_words_ok l : words_ok (le_bytes 2 <$> l).
Proof. apply Forall_fmap, Forall_true. intros w. done. Qed.
Lemma read_back val d o s c a n i : has_drive d o s c i -> hd_ok s -> read_cmd val s = true -> 1 <= n <= 256 -> 0 <= a -> a + n <= get_sector_count (bs s) -> a + n < 2 ^ 28 ->
  exists i' s' c', (ata_command val d a n i ≫= read_words (Z.to_nat (256 * n))) = Done (words_of (sectors_at (image (bs s)) a n), i') /\ has_drive d o s' c' i' /\ image (bs s') = image (bs s) /\ status s' = Z.lor READY_STAT SEEK_STAT.
Proof.
  intros Hi Hs Hr Hn Ha Hct Hre. pose proof (with_address_named d a n s Hs (ha_d _ _ _ _ _ Hi) Hn Ha Hct Hre) as Hnm.
  destruct (read_command val a n (with_address d a n s) c Hnm Hr) as (s1 & c1 & s' & c' & E & Er & _ & Him & Hst).
  destruct (command_sees val d o s c a n s1 c1 i Hi Hs E) as (i1 & -> & S1). rewrite bind_of_done.
  destruct (read_words_sees _ d o s1 c1 i1 _ s' c' S1 Er) as (i' & -> & S'). exists i', s', c'. split; [done|]. split; [by apply sees_has|done].
Qed.
End Hd.
End IdeHd.
