(* ===== verification/IdeFile.v ===== *)
(** * IdeFile: disk images (the block devices on files of winspire/ide.c)

    A [BlockDeviceFile] is an image on a stream, with the windows of the read cache of
    the calculator build.  It keeps the promises that the controller relies on. *)

From S2P Require Import Prelude Files Ide Atapi IdePort IdeHd.

Module IdeFile.
Import Files Ide Atapi IdePort IdeHd.

(** ** Data *)

Definition SECTOR_SIZE : Z := 512.
Definition NSPIRE_READ_CACHE_SECTORS : Z := 512.
Definition NSPIRE_READ_CACHE_WINDOWS : Z := 8.
(** "1DED15C0" *)
Definition ide_magic : list Z := [0x31; 0x44; 0x45; 0x44; 0x31; 0x35; 0x43; 0x30].

Inductive BlockDeviceModeEnum := BF_MODE_RO | BF_MODE_RW | BF_MODE_SNAPSHOT.
(** A window of the read cache: [read_cache], [read_cache_sector] and [read_cache_sectors]. *)
Record CacheWindow := mkCacheWindow { w_data : list Z; w_sector : Z; w_sectors : Z }.
#[export] Instance window_inhabited : Inhabited CacheWindow := populate (mkCacheWindow [] 0 0).
(** [chs] is the geometry, if [get_chs] is set. *)
Record BlockDeviceFile := mkBf { f : option FILE; start_offset : Z; chs : option (Z * Z * Z); nb : Z; mode : BlockDeviceModeEnum;
  sector_table : list (option (list Z)); read_cache : list CacheWindow; read_cache_next : Z }.
#[export] Instance eta_bf : Eta BlockDeviceFile := fun b => mkBf (f b) (start_offset b) (chs b) (nb b) (mode b) (sector_table b) (read_cache b) (read_cache_next b).
Implicit Types (b : BlockDeviceFile) (w : CacheWindow).

(** ** Geometry *)

Definition bf_get_le16 (p : list Z) (i : Z) : outcome Z := x ← rd p i; y ← rd p (i + 1); Done (Z.lor x (Z.shiftl y 8)).
Definition bf_get_le32 (p : list Z) (i : Z) : outcome Z :=
  x ← rd p i; y ← rd p (i + 1); z ← rd p (i + 2); t ← rd p (i + 3); Done (u32 (Z.lor (Z.lor (Z.lor x (Z.shiftl y 8)) (Z.shiftl z 16)) (Z.shiftl t 24))).
(** [fseeko (f, off, SEEK_SET); fread (buf, 1, 512, f)], complete and signed [55 AA] *)
Definition signed_sector (off : Z) (f : FILE) : outcome (option (list Z) * FILE) :=
  let f := default f (fseek_set off f) in
  let '(d, f) := fread SECTOR_SIZE f in
  if negb (alen d =? SECTOR_SIZE) then Done (None, f) else
  x ← rd d 510; y ← rd d 511;
  Done (if (x =? 0x55) && (y =? 0xaa) then Some d else None, f).
(** The active partition, or the first one that is used. *)
Fixpoint find_part (mbr : list Z) (i : nat) (n : nat) (part : option Z) : outcome (option Z) :=
  match n with
  | 0%nat => Done part
  | S n =>
      let candidate := 446 + Z.of_nat i * 16 in
      kind ← rd mbr (candidate + 4); active ← rd mbr candidate;
      if nz kind && (bool_decide (part = None) || (active =? 0x80)) then
        (if active =? 0x80 then Done (Some candidate) else find_part mbr (S i) n (Some candidate))
      else find_part mbr (S i) n part
  end.
Definition bf_detect_bpb_chs (nb_sectors : Z) (f : FILE) : outcome (option (Z * Z * Z) * FILE) :=
  '(mbr, f) ← signed_sector 0 f;
  match mbr with
  | None => Done (None, f)
  | Some mbr =>
      part ← find_part mbr 0 4 None;
      match part with
      | None => Done (None, f)
      | Some part =>
          start_lba ← bf_get_le32 mbr (part + 8);
          if (start_lba =? 0) || (u64 nb_sectors <=? start_lba) then Done (None, f) else
          '(boot, f) ← signed_sector (start_lba * SECTOR_SIZE) f;
          match boot with
          | None => Done (None, f)
          | Some boot =>
              spt ← bf_get_le16 boot 24; hds ← bf_get_le16 boot 26;
              if (spt <? 1) || (63 <? spt) || (hds <? 1) || (16 <? hds) then Done (None, f) else
              start_head ← rd mbr (part + 1); p2 ← rd mbr (part + 2); p3 ← rd mbr (part + 3);
              let start_sector := Z.land p2 0x3f in
              let start_cyl := Z.lor p3 (Z.shiftl (Z.land p2 0xc0) 2) in
              if (start_sector =? 0) || negb (u32 ((start_cyl * hds + start_head) * spt + start_sector - 1) =? start_lba) then Done (None, f) else
              let cylinders := s32 (Z.quot (nb_sectors + hds * spt - 1) (hds * spt)) in
              Done (Some (if 16383 <? cylinders then 16383 else cylinders, hds, spt), f)
          end
      end
  end.

(** ** Opening an image *)

(** The geometry in the header of an old image. *)
Definition header_geometry (f : FILE) : outcome (option (Z * Z * Z) * FILE) :=
  let '(d, f) := fread 14 (default f (fseek_set 512 f)) in
  if alen d =? 14 then (c ← bf_get_le16 d 2; h ← bf_get_le16 d 6; s ← bf_get_le16 d 12; Done (Some (c, h, s), f)) else Done (None, f).
(** [file] is the opened stream; [None] is a null result. *)
Definition block_device_init (file : FILE) (m : BlockDeviceModeEnum) : outcome (option BlockDeviceFile) :=
  let '(start_offset, file) :=
    match m with
    | BF_MODE_SNAPSHOT => (0, file)
    | _ => let '(buf, file) := fread 8 file in (if (alen buf =? 8) && bool_decide (buf = ide_magic) then 1024 else 0, file)
    end in
  let file := fseek_end file in
  let file_size := pos file - start_offset in
  if file_size <? 0 then Done None else
  let nb_sectors := Z.quot file_size 512 in
  let table := match m with BF_MODE_SNAPSHOT => replicate (Z.to_nat nb_sectors) None | _ => [] end in
  '(chs, file) ← (if nz start_offset then '(g, file) ← header_geometry file; Done (g, fseek_end file) else
    '(g, file) ← bf_detect_bpb_chs nb_sectors file; Done (g, if g is Some _ then fseek_end file else file));
  Done (Some (mkBf (Some file) start_offset chs nb_sectors m table (replicate (Z.to_nat NSPIRE_READ_CACHE_WINDOWS) (mkCacheWindow [] 0 0)) 0)).

(** ** Reading and writing *)

Definition bf_invalidate_read_cache b : BlockDeviceFile := b <| read_cache := map (fun w => mkCacheWindow (w_data w) (w_sector w) 0) (read_cache b) |>.

(** [fseeko (f, off, SEEK_SET) != 0 || fread (buf, 1, n, f) != n]; the bytes read are in the buffer all the same. *)
Definition read_at (off n : Z) (file : FILE) : Z * list Z * FILE :=
  match fseek_set off file with
  | None => (-1, [], file)
  | Some file => let '(d, file) := fread n file in (if alen d =? n then 0 else -1, d, file)
  end.
(** Sectors written to a snapshot come from the table. *)
Fixpoint snapshot_read (n : nat) (sector : Z) b (acc : list Z) : Z * list Z * BlockDeviceFile :=
  match n, f b with
  | S n, Some file =>
      match arr (sector_table b) sector with
      | Some d => snapshot_read n (sector + 1) b (acc ++ d)
      | None =>
          let '(ret, d, file) := read_at (sector * SECTOR_SIZE) SECTOR_SIZE file in
          let b := b <| f := Some file |> in
          if ret <? 0 then (-1, acc ++ d, b) else snapshot_read n (sector + 1) b (acc ++ d)
      end
  | _, _ => (0, acc, b)
  end.
(** The window of the cache that holds the sectors asked for. *)
Definition window_has (sector n : Z) w : bool :=
  negb (w_sectors w =? 0) && (w_sector w <=? sector) && (sector + n <=? w_sector w + w_sectors w).
Definition window_bytes (sector n : Z) w : list Z := take (Z.to_nat (n * SECTOR_SIZE)) (drop (Z.to_nat ((sector - w_sector w) * SECTOR_SIZE)) (w_data w)).
(** Fill the next window; [None] if that does not serve the request. *)
Definition fill_window (sector n : Z) b (file : FILE) : option (list Z) * BlockDeviceFile :=
  let slot := read_cache_next b in
  let cache_sectors := Z.min NSPIRE_READ_CACHE_SECTORS (nb b - sector) in
  let old := arr (read_cache b) slot in
  if cache_sectors <? n then (None, b <| read_cache := arr_set (read_cache b) slot (mkCacheWindow (w_data old) (w_sector old) 0) |>) else
  let '(ret, d, file) := read_at (start_offset b + sector * SECTOR_SIZE) (cache_sectors * SECTOR_SIZE) file in
  let data := d ++ drop (length d) (w_data old) in
  let b := b <| f := Some file |> in
  if ret <? 0 then (None, b <| read_cache := arr_set (read_cache b) slot (mkCacheWindow data (w_sector old) 0) |>)
  else (Some (take (Z.to_nat (n * SECTOR_SIZE)) d),
        b <| read_cache := arr_set (read_cache b) slot (mkCacheWindow data sector cache_sectors) |> <| read_cache_next := Z.rem (slot + 1) NSPIRE_READ_CACHE_WINDOWS |>).
Definition outside_image (sector n : Z) b : bool := (n <? 0) || (u64 (nb b) <? sector) || (u64 (u64 (nb b) - sector) <? u64 n).

Definition bf_read_async (sector n : Z) b : Z * list Z * BlockDeviceFile :=
  match f b with
  | None => (-1, [], b)
  | Some file =>
      if outside_image sector n b then (-1, [], b) else
      match mode b with
      | BF_MODE_SNAPSHOT => snapshot_read (Z.to_nat n) sector b []
      | _ =>
          match List.find (window_has sector n) (read_cache b) with
          | Some w => (0, window_bytes sector n w, b)
          | None =>
              let '(d, b) := fill_window sector n b file in
              match d, f b with
              | Some d, _ => (0, d, b)
              | None, Some file =>
                  let '(ret, d, file) := read_at (start_offset b + sector * SECTOR_SIZE) (n * SECTOR_SIZE) file in (ret, d, b <| f := Some file |>)
              | None, None => (-1, [], b)
              end
          end
      end
  end.

Fixpoint snapshot_write (n : nat) (sector : Z) (d : list Z) b : BlockDeviceFile :=
  match n with
  | 0%nat => b
  | S n => snapshot_write n (sector + 1) (drop 512 d) (b <| sector_table := arr_set (sector_table b) sector (Some (take 512 d)) |>)
  end.
Definition bf_write_async (sector : Z) (d : list Z) (n : Z) b : Z * BlockDeviceFile :=
  match f b with
  | None => (-1, b)
  | Some file =>
      if outside_image sector n b then (-1, b) else
      let b := bf_invalidate_read_cache b in
      match mode b with
      | BF_MODE_RO => (-1, b)
      | BF_MODE_RW =>
          match fseek_set (start_offset b + sector * SECTOR_SIZE) file with
          | None => (-1, b)
          | Some file => let '(k, file) := fwrite (take (Z.to_nat (n * SECTOR_SIZE)) d) file in (if k =? n * SECTOR_SIZE then 0 else -1, b <| f := Some file |>)
          end
      | BF_MODE_SNAPSHOT => (0, snapshot_write (Z.to_nat n) sector d b)
      end
  end.
(** The calculator has no [fsync]; flushing a stream leaves its contents. *)
Definition bf_flush b : Z * BlockDeviceFile := (0, b).

#[export] Instance block_device_file : BlockDevice BlockDeviceFile := {
  get_sector_count := nb; get_chs := chs; bs_read := bf_read_async; bs_write := bf_write_async; bs_flush := bf_flush }.

(** ** An image keeps its promises *)

Definition bytes b : list Z := match f b with Some file => content file | None => [] end.
Definition bf_image b : list Z := take (Z.to_nat (512 * nb b)) (drop (Z.to_nat (start_offset b)) (bytes b)).
(** A window in use holds sectors of the image. *)
Definition coherent b w : Prop :=
  w_sectors w = 0 \/ (0 <= w_sector w /\ 0 < w_sectors w /\ w_sector w + w_sectors w <= nb b /\
    take (Z.to_nat (512 * w_sectors w)) (w_data w) = sectors_at (bf_image b) (w_sector w) (w_sectors w)).
Record bf_ok b : Prop := {
  bf_file : exists file, f b = Some file /\ start_offset b + 512 * nb b <= alen (content file) <= room file;
  bf_mode : mode b <> BF_MODE_SNAPSHOT; bf_start : 0 <= start_offset b; bf_nb : 0 <= nb b < 2 ^ 40;
  bf_windows : alen (read_cache b) = NSPIRE_READ_CACHE_WINDOWS; bf_next : 0 <= read_cache_next b < NSPIRE_READ_CACHE_WINDOWS;
  bf_coherent : Forall (coherent b) (read_cache b) }.

Lemma bf_image_len b : bf_ok b -> alen (bf_image b) = 512 * nb b.
Proof. intros Hb. destruct (bf_file b Hb) as (file & E & Hl). pose proof (bf_start b Hb). pose proof (bf_nb b Hb). unfold bf_image, bytes. rewrite E. unfold alen in *. rewrite length_take, length_drop. lia. Qed.
Lemma piece b a n : 0 <= start_offset b -> 0 <= a -> 0 <= n -> a + n <= nb b ->
  sectors_at (bf_image b) a n = take (Z.to_nat (512 * n)) (drop (Z.to_nat (start_offset b + 512 * a)) (bytes b)).
Proof.
  intros. unfold sectors_at, bf_image. rewrite skipn_firstn_comm, take_take, drop_drop. f_equal; [lia|]. f_equal. lia.
Qed.
Lemma read_at_in off n file : 0 <= off -> 0 <= n -> off + n <= alen (content file) -> read_at off n file = (0, take (Z.to_nat n) (drop (Z.to_nat off) (content file)), file <| pos := off + n |>).
Proof.
  intros H1 H2 H3. unfold read_at, fseek_set. destruct (Z.ltb_spec off 0); [lia|]. unfold fread. cbn [pos content set_field]. set (d := take _ _).
  assert (Hd : alen d = n) by (unfold d, alen in *; rewrite length_take, length_drop; lia). by rewrite Hd, Z.eqb_refl.
Qed.
Lemma outside_spec b sector n : bf_ok b -> inw 64 sector -> 0 <= n < 2 ^ 31 -> outside_image sector n b = negb (sector + n <=? nb b).
Proof.
  intros Hb Hs Hn. pose proof (bf_nb b Hb). unfold inw in Hs. unfold outside_image. rewrite (u64_id (nb b)), (u64_id n) by (unfold inw; lia).
  destruct (Z.ltb_spec n 0); [lia|]. cbn [orb]. destruct (Z.ltb_spec (nb b) sector); cbn [orb]; [destruct (Z.leb_spec (sector + n) (nb b)); [lia|done]|].
  rewrite u64_id by (unfold inw; lia). destruct (Z.ltb_spec (nb b - sector) n), (Z.leb_spec (sector + n) (nb b)); done || lia.
Qed.
Lemma cached_bytes b sector n w : coherent b w -> 0 <= sector -> 0 <= n -> window_has sector n w = true -> window_bytes sector n w = sectors_at (bf_image b) sector n.
Proof.
  intros Hw Hs Hn Hc. unfold window_has in Hc. rewrite !andb_true_iff, negb_true_iff, Z.eqb_neq, !Z.leb_le in Hc. destruct Hc as [[Hz Hlo] Hhi]. destruct Hw as [|(H1 & H2 & H3 & H4)]; [done|].
  assert (Ew : window_bytes sector n w = sectors_at (take (Z.to_nat (512 * w_sectors w)) (w_data w)) (sector - w_sector w) n).
  { unfold window_bytes, sectors_at, SECTOR_SIZE. rewrite skipn_firstn_comm, take_take. f_equal; [lia|]. f_equal. lia. }
  rewrite Ew, H4. unfold sectors_at. rewrite skipn_firstn_comm, take_take, drop_drop. f_equal; [lia|]. f_equal. lia.
Qed.
(** Only the position of the stream, and the cache, change. *)
Lemma bf_ok_pos b file p w k : bf_ok b -> f b = Some file -> 0 <= k < NSPIRE_READ_CACHE_WINDOWS -> coherent b w ->
  let b' := b <| f := Some (file <| pos := p |>) |> <| read_cache := arr_set (read_cache b) (read_cache_next b) w |> <| read_cache_next := k |> in
  bf_ok b' /\ bf_image b' = bf_image b.
Proof.
  intros Hb Ef Hk Hw b'. assert (Ei : bf_image b' = bf_image b) by (unfold bf_image, bytes, b'; cbn; by rewrite Ef). split; [|done].
  destruct Hb as [(file' & E & Hl) ? ? ? ? ? Hc]. assert (file' = file) as -> by congruence. constructor; cbn; try done; [by eexists|by rewrite alen_set|].
  apply Forall_lookup. intros i w' Hi. unfold arr_set in Hi. assert (Hcw : coherent b w') by (apply list_lookup_insert_Some in Hi as [(_ & -> & _)|[_ Hi]]; [done|by apply (proj1 (Forall_lookup _ _) Hc i)]).
  unfold coherent in *. by rewrite Ei.
Qed.
(** What a read leaves: the same image on the same number of sectors. *)
Definition same_disk b b' : Prop := bf_ok b' /\ bf_image b' = bf_image b /\ nb b' = nb b /\ mode b' = mode b.
Lemma fill_window_ok b file sector n : bf_ok b -> f b = Some file -> 0 <= sector -> 0 <= n -> sector + n <= nb b ->
  exists d b' file', fill_window sector n b file = (d, b') /\ same_disk b b' /\ start_offset b' = start_offset b /\ f b' = Some file' /\ content file' = content file /\
    (d = None \/ d = Some (sectors_at (bf_image b) sector n)).
Proof.
  intros Hb Ef Hs Hn Hr. destruct (bf_file b Hb) as (file0 & E0 & Hl). assert (file0 = file) as -> by congruence. pose proof (bf_start b Hb). pose proof (bf_next b Hb) as Hnx. unfold fill_window. cbv zeta.
  assert (Hrem : 0 <= Z.rem (read_cache_next b + 1) NSPIRE_READ_CACHE_WINDOWS < NSPIRE_READ_CACHE_WINDOWS) by (apply Z.rem_bound_pos; unfold NSPIRE_READ_CACHE_WINDOWS in *; lia).
  set (cs := Z.min _ _). assert (Hcs : 0 <= cs /\ sector + cs <= nb b) by (unfold cs, NSPIRE_READ_CACHE_SECTORS; lia). clearbody cs. set (old := arr _ _).
  destruct (Z.ltb_spec cs n) as [Hlt|Hle].
  - destruct (bf_ok_pos b file (pos file) (mkCacheWindow (w_data old) (w_sector old) 0) (read_cache_next b) Hb Ef Hnx ltac:(by left)) as [Ho Hi]. eexists None, _, file. split; [reflexivity|].
    assert (E : b <| f := Some (file <| pos := pos file |>) |> = b) by (destruct b, file; cbn in *; by rewrite Ef). rewrite E in Ho, Hi. split; [split; [exact Ho|]; split; [exact Hi|done]|]. cbn. by repeat split; [|left].
  - rewrite (Z.mul_comm sector), (Z.mul_comm cs). rewrite read_at_in by (unfold SECTOR_SIZE; lia). change (0 <? 0) with false. cbv iota. unfold SECTOR_SIZE.
    set (d := take _ (drop _ (content file))). assert (Ed : d = sectors_at (bf_image b) sector cs) by (unfold d; rewrite piece by lia; unfold bytes; by rewrite Ef).
    assert (Hd : alen d = 512 * cs) by (rewrite Ed; unfold sectors_at, alen; rewrite length_take, length_drop; pose proof (bf_image_len b Hb) as Hil; unfold alen in Hil; lia).
    set (data := d ++ _). assert (Edata : take (Z.to_nat (512 * cs)) data = d) by (unfold data; rewrite <- Hd; unfold alen; rewrite Nat2Z.id; apply take_app_length).
    assert (Hw : coherent b (mkCacheWindow data sector cs)) by (destruct (Z.eq_dec cs 0); [by left|right; cbn; split; [done|]; split; [lia|]; split; [lia|]; by rewrite Edata]).
    destruct (bf_ok_pos b file (start_offset b + 512 * sector + 512 * cs) _ _ Hb Ef Hrem Hw) as [Ho Hi].
    eexists _, _, (file <| pos := start_offset b + 512 * sector + 512 * cs |>). split; [reflexivity|]. split; [split; [exact Ho|]; split; [exact Hi|done]|]. cbn. split; [done|]. split; [done|]. split; [done|]. right.
    f_equal. rewrite Ed. unfold sectors_at. rewrite take_take. f_equal. lia.
Qed.
Lemma bf_read_ok b a n : bf_ok b -> inw 64 a -> 0 <= n < 2 ^ 31 -> let r := bf_read_async a n b in
  same_disk b r.2 /\ (if a + n <=? nb b then r.1 = (0, sectors_at (bf_image b) a n) else r.1 = (-1, [])).
Proof.
  intros Hb Ha Hn. destruct (bf_file b Hb) as (file & Ef & Hl). unfold bf_read_async. rewrite Ef, outside_spec by done. unfold inw in Ha. destruct (Z.leb_spec (a + n) (nb b)) as [Hr|]; cbn [negb]; [|by split].
  assert (Hm : forall A (x y : A), (match mode b with BF_MODE_SNAPSHOT => x | _ => y end) = y) by (intros; pose proof (bf_mode b Hb); destruct (mode b); done). rewrite Hm. clear Hm.
  destruct (List.find (window_has a n) (read_cache b)) as [w|] eqn:Ew.
  - apply find_some in Ew as [Hin Hc]. cbn [fst snd]. split; [done|]. rewrite (cached_bytes b); [done| |lia|lia|done]. apply (proj1 (Forall_forall _ _) (bf_coherent b Hb)). by apply list_elem_of_In.
  - destruct (fill_window_ok b file a n Hb Ef) as (d & b' & file' & -> & (Ho & Hi & Hnb & Hmo) & Hso & Ef' & Ec & Hd); [lia..|]. rewrite Ef'.
    destruct Hd as [-> | ->]; [|by cbn [fst snd]]. destruct (bf_file b' Ho) as (file2 & E2 & Hl'). assert (file2 = file') as -> by congruence. pose proof (bf_start b Hb). rewrite (Z.mul_comm a), (Z.mul_comm n).
    rewrite read_at_in by (unfold SECTOR_SIZE; lia). cbn [fst snd]. unfold SECTOR_SIZE. rewrite Hso, Ec.
    destruct (bf_ok_pos b' file' (start_offset b + 512 * a + 512 * n) (arr (read_cache b') (read_cache_next b')) (read_cache_next b') Ho Ef' (bf_next b' Ho)) as [Ho2 Hi2].
    { apply (proj1 (Forall_forall _ _) (bf_coherent b' Ho)). unfold arr. apply list_elem_of_lookup_total_2. pose proof (bf_next b' Ho). pose proof (bf_windows b' Ho). unfold alen in *. lia. }
    assert (Ecache : arr_set (read_cache b') (read_cache_next b') (arr (read_cache b') (read_cache_next b')) = read_cache b').
    { unfold arr_set, arr. apply list_insert_id. apply list_lookup_lookup_total_lt. pose proof (bf_next b' Ho). pose proof (bf_windows b' Ho). unfold alen in *. lia. }
    rewrite Ecache in Ho2, Hi2. split; [split; [exact Ho2|]; split; [rewrite <- Hi; exact Hi2|done]|]. f_equal. rewrite piece by lia. unfold bytes. by rewrite Ef.
Qed.
Lemma fwrite_in d off file : 0 <= off -> off + alen d <= alen (content file) -> alen (content file) <= room file ->
  exists file', fwrite d (file <| pos := off |>) = (alen d, file') /\ content file' = overwrite (content file) off d /\ room file' = room file.
Proof.
  intros H1 H2 H3. unfold fwrite. cbn [pos room set_field]. rewrite take_ge by (unfold alen in *; lia). eexists. split; [reflexivity|]. destruct (Z.eqb_spec (alen d) 0) as [E|]; [|done].
  cbn. assert (d = []) as -> by (apply nil_length_inv; unfold alen in E; lia). rewrite overwrite_in by lia. cbn [app]. change (alen []) with 0. by rewrite Z.add_0_r, take_drop.
Qed.
Lemma bf_ok_written b file' : bf_ok b -> start_offset b + 512 * nb b <= alen (content file') <= room file' -> bf_ok ((bf_invalidate_read_cache b) <| f := Some file' |>).
Proof.
  intros [_ ? ? ? ? ? _] Hl. constructor; cbn; try done; [by eexists|by unfold alen in *; rewrite length_map|]. apply Forall_map, Forall_true. intros w. by left.
Qed.
Lemma bf_write_ok b a d n : bf_ok b -> inw 64 a -> 0 <= n < 2 ^ 31 -> alen d = 512 * n -> let r := bf_write_async a d n b in
  bf_ok r.2 /\ nb r.2 = nb b /\ mode r.2 = mode b /\ (mode b = BF_MODE_RW -> a + n <= nb b -> r.1 = 0 /\ bf_image r.2 = overwrite (bf_image b) (512 * a) d).
Proof.
  intros Hb Ha Hn Hd. destruct (bf_file b Hb) as (file & Ef & Hl). pose proof (bf_start b Hb). unfold bf_write_async. rewrite Ef, outside_spec by done. unfold inw in Ha.
  destruct (Z.leb_spec (a + n) (nb b)) as [Hr|]; cbn [negb]; [|cbn [fst snd]; split; [done|]; split; [done|]; split; [done|]; lia]. cbv zeta.
  assert (Hinv : bf_ok (bf_invalidate_read_cache b)) by (pose proof (bf_ok_written b file Hb Hl) as Ho; destruct b; cbn in *; subst; exact Ho).
  change (mode (bf_invalidate_read_cache b)) with (mode b). change (start_offset (bf_invalidate_read_cache b)) with (start_offset b). pose proof (bf_mode b Hb). destruct (mode b) eqn:Em; [cbn [fst snd]; by split| |done].
  unfold fseek_set, SECTOR_SIZE. destruct (Z.ltb_spec (start_offset b + a * 512) 0); [lia|]. rewrite take_ge by (unfold alen in Hd; lia).
  destruct (fwrite_in d (start_offset b + a * 512) file) as (file' & -> & Ec & Er); [lia..|]. rewrite Hd, Z.mul_comm, Z.eqb_refl. cbn [fst snd].
  assert (Hlen : alen (content file') = alen (content file)) by (rewrite Ec; apply overwrite_length; lia).
  split; [apply bf_ok_written; [done|rewrite Hlen, Er; lia]|]. split; [done|]. split; [done|]. intros _ _. split; [done|]. unfold bf_image, bytes. cbn. rewrite Ef, Ec, (Z.mul_comm a). apply overwrite_part; lia.
Qed.
#[export] Instance block_device_file_laws : BlockDeviceLaws BlockDeviceFile.
Proof.
  refine {| image := bf_image; bs_ok := bf_ok; writable := fun b => mode b = BF_MODE_RW |}; cbn [get_sector_count bs_read bs_write bs_flush block_device_file].
  - intros b Hb. split; [by apply bf_nb|by apply bf_image_len].
  - intros a n b Hb Ha Hn. destruct (bf_read_ok b a n Hb Ha Hn) as [_ Hr]. destruct (Z.leb_spec (a + n) (nb b)); rewrite Hr; cbn [fst snd]; unfold sectors_at, alen; rewrite ?length_take; cbn; lia.
  - intros a n b Hb Ha Hn. destruct (bf_read_ok b a n Hb Ha Hn) as [(Ho & Hi & Hnb & Hm) _]. cbv zeta. by rewrite Hm.
  - intros a n b Hb Ha Hn Hr. pose proof (bf_nb b Hb). destruct (bf_read_ok b a n Hb) as [_ E]; [unfold inw; lia|done|]. destruct (Z.leb_spec (a + n) (nb b)); [done|lia].
  - intros a d n b Hb Ha Hn Hd. by apply bf_write_ok.
  - intros a d n b Hb Hw Ha Hn Hr Hd. pose proof (bf_nb b Hb). destruct (bf_write_ok b a d n Hb) as (Ho & Hnb & Hm & E); [unfold inw; lia|done|done|]. cbv zeta. rewrite Hm. by destruct (E Hw Hr).
  - done.
Defined.

(** ** Opening a raw image *)

(** The geometry that the controller can count with. *)
Definition geometry_ok (g : option (Z * Z * Z)) : Prop := match g with Some (_, h, s) => 1 <= h <= 16 /\ 1 <= s <= 63 | None => True end.
(** A stream just opened, on an image without the header of the old format. *)
Record raw_image (file : FILE) : Prop := { ri_pos : pos file = 0; ri_size : alen (content file) < 2 ^ 49; ri_room : alen (content file) <= room file; ri_magic : take 8 (content file) <> ide_magic }.
Definition same_file (file file' : FILE) : Prop := content file' = content file /\ room file' = room file.

Lemma signed_sector_ok off file : exists o file', signed_sector off file = Done (o, file') /\ same_file file file' /\ (forall d, o = Some d -> alen d = 512).
Proof.
  unfold signed_sector, fread. cbv zeta. set (file1 := default file (fseek_set off file)). assert (Hf : same_file file file1) by (unfold file1, fseek_set; by case_match). set (d := take _ _).
  destruct (Z.eqb_spec (alen d) SECTOR_SIZE) as [E|]; cbn [negb]; [|by exists None, (file1 <| pos := pos file1 + alen d |>)].
  unfold SECTOR_SIZE in E. rewrite (rd_in d 510), bind_of_done, (rd_in d 511), bind_of_done by lia. eexists _, _. split; [reflexivity|]. split; [done|]. intros d'. by destruct (_ && _); intros [= <-].
Qed.
Lemma find_part_ok mbr n : alen mbr = 512 -> forall i part, (i + n <= 4)%nat -> (forall p, part = Some p -> 0 <= p <= 494) -> exists o, find_part mbr i n part = Done o /\ forall p, o = Some p -> 0 <= p <= 494.
Proof.
  intros Hm. induction n as [|n IH]; intros i part Hi Hp; [by exists part|]. cbn [find_part]. cbv zeta. rewrite (rd_in mbr (446 + Z.of_nat i * 16 + 4)), bind_of_done, (rd_in mbr (446 + Z.of_nat i * 16)), bind_of_done by lia.
  assert (Hc : forall p, Some (446 + Z.of_nat i * 16) = Some p -> 0 <= p <= 494) by (intros p [= <-]; lia).
  destruct (_ && _); [|apply IH; [lia|done]]. destruct (_ =? 0x80); [by eexists|]. apply IH; [lia|done].
Qed.
Lemma le16_in d i : 0 <= i -> i + 1 < alen d -> exists v, bf_get_le16 d i = Done v.
Proof. intros. unfold bf_get_le16. rewrite (rd_in d i), bind_of_done, (rd_in d (i + 1)), bind_of_done by lia. by eexists. Qed.
Lemma detect_ok n file : exists g file', bf_detect_bpb_chs n file = Done (g, file') /\ same_file file file' /\ geometry_ok g.
Proof.
  unfold bf_detect_bpb_chs. destruct (signed_sector_ok 0 file) as (o & f1 & -> & [Ec1 Er1] & Hmbr). rewrite bind_of_done. destruct o as [mbr|]; [|by exists None, f1]. specialize (Hmbr mbr eq_refl).
  destruct (find_part_ok mbr 4 Hmbr 0 None) as (part & -> & Hp); [lia|done|]. rewrite bind_of_done. destruct part as [part|]; [|by exists None, f1]. specialize (Hp part eq_refl).
  unfold bf_get_le32. rewrite !rd_in, !bind_of_done by lia. set (lba := u32 _). destruct (_ || _); [by exists None, f1|].
  destruct (signed_sector_ok (lba * SECTOR_SIZE) f1) as (o2 & f2 & -> & [Ec2 Er2] & Hboot). rewrite bind_of_done. assert (Hsame : same_file file f2) by (split; congruence). destruct o2 as [boot|]; [|by exists None, f2]. specialize (Hboot boot eq_refl).
  destruct (le16_in boot 24) as [spt ->]; [lia..|]. destruct (le16_in boot 26) as [hds ->]; [lia..|]. rewrite !bind_of_done. destruct (_ || _) eqn:Eb; [by exists None, f2|]. rewrite !orb_false_iff, !Z.ltb_ge in Eb.
  destruct (_ || _); [by exists None, f2|]. eexists _, f2. split; [reflexivity|]. split; [done|]. cbn. lia.
Qed.
Lemma raw_init file m : raw_image file -> m <> BF_MODE_SNAPSHOT -> exists b, block_device_init file m = Done (Some b) /\ bf_ok b /\ mode b = m /\
  nb b = alen (content file) / 512 /\ bf_image b = take (Z.to_nat (512 * nb b)) (content file) /\ geometry_ok (chs b).
Proof.
  intros [Hpos Hsize Hroom Hmagic] Hm. assert (Hl0 : 0 <= alen (content file)) by (unfold alen; lia). unfold block_device_init. cbv zeta.
  set (r := match m with BF_MODE_SNAPSHOT => _ | _ => _ end). assert (Er : exists p, r = (0, file <| pos := p |>)).
  { unfold r, fread. rewrite Hpos. change (drop (Z.to_nat 0) (content file)) with (content file). change (Z.to_nat 8) with 8%nat. rewrite (bool_decide_eq_false_2 _ Hmagic), andb_false_r. eexists. by destruct m. }
  destruct Er as [p ->]. set (f1 := fseek_end _). assert (H1c : content f1 = content file /\ room f1 = room file) by done. destruct H1c as [H1c H1r]. change (pos f1) with (alen (content file)). rewrite Z.sub_0_r. destruct (Z.ltb_spec (alen (content file)) 0); [lia|].
  destruct (detect_ok (Z.quot (alen (content file)) 512) f1) as (g & f2 & -> & [Ec Ert] & Hg). change (nz 0) with false. cbv iota. rewrite !bind_of_done.
  set (f3 := if g is Some _ then fseek_end f2 else f2). assert (H3f : same_file file f3) by (unfold f3; destruct g; split; cbn; congruence). destruct H3f as [Ec3 Er3].
  eexists. split; [reflexivity|]. rewrite Z.quot_div_nonneg by lia. assert (Hdiv : 0 <= alen (content file) / 512 < 2 ^ 40 /\ 512 * (alen (content file) / 512) <= alen (content file)) by (Z.to_euclidean_division_equations; lia).
  split; [|split; [done|split; [done|split; [|exact Hg]]]].
  - constructor; cbn [f start_offset nb mode read_cache read_cache_next]; [eexists; split; [done|]; rewrite Ec3, Er3; lia|done|done|lia|done|done|]. apply Forall_replicate. by left.
  - unfold bf_image, bytes. cbn [f start_offset nb]. by rewrite Ec3.
Qed.
End IdeFile.
