(* ===== verification/IdeDisk.v ===== *)
(** * IdeDisk: disk images on the controller (winspire/ide.c)

    Attaching images, the configuration that the machine stores about them, and what a
    guest can rely on: no session of port accesses leaves the model, and sectors written
    by a command are what any later command reads. *)

From S2P Require Import Prelude Files Ide Atapi IdePort IdeHd IdeFile I8259.

Module IdeDisk.
Import Files Ide Atapi IdePort IdeHd IdeFile.

(** ** Attaching images *)

Section Attach.
Context {P : Type} `{IrqSink P}.
Implicit Type i : IDEIFState P BlockDeviceFile.

(** [file] is the result of opening the image; the result is that of the function. *)
Definition attach_image (n : Z) (file : FILE) i : outcome (Z * IDEIFState P BlockDeviceFile) :=
  b ← block_device_init file BF_MODE_RW;
  match b with None => Done (-1, i) | Some b => i ← ide_attach n b i; Done (0, i) end.
(** A null block device is used without a check. *)
Definition attach_cd_image (n : Z) (file : FILE) i : outcome (IDEIFState P BlockDeviceFile) :=
  b ← block_device_init file BF_MODE_RW;
  match b with None => Stuck OutOfBounds | Some b => ide_attach_cd n b i end.
Definition block_device_reinit (file : option FILE) (b : BlockDeviceFile) : BlockDeviceFile :=
  if negb (match mode b with BF_MODE_RO => true | _ => false end) || negb (bool_decide (chs b = None)) then b else
  match file with
  | None => b
  | Some file =>
      let file := fseek_end file in
      bf_invalidate_read_cache (b <| nb := Z.quot (pos file) 512 |> <| f := Some file |> <| start_offset := 0 |> <| read_cache_next := 0 |>)
  end.
Definition ide_change_cd (n : Z) (file : option FILE) i : outcome (IDEIFState P BlockDeviceFile) :=
  d ← rd (drives i) n;
  match d with
  | Some s =>
      match drive_kind s with
      | IDE_CD =>
          let s := s <| bs := block_device_reinit file (bs s) |> <| sense_key := SENSE_UNIT_ATTENTION |> <| asc := ASC_MEDIUM_MAY_HAVE_CHANGED |> <| cdrom_changed := 1 |> in
          l ← wr (drives i) n (Some s); Done (i <| drives := l |> <| ctl := ide_set_irq (ctl i) |>)
      | IDE_HD => Done i
      end
  | None => Done i
  end.
End Attach.

(** ** The configuration memory *)

Section Config.
Context {P B C : Type} (set : C -> Z -> Z -> Z * C).
Implicit Types (s : IDEState B) (i : IDEIFState P B).

(** The registers of the second drive are nine further on. *)
Definition fill_drive (kind off : Z) s (c : C) : C :=
  let c := (set c kind 47).2 in
  let '(v, c) := set c (0x21 + off) (u8 (cylinders s)) in let c := (set c (0x1b + off) v).2 in
  let '(v, c) := set c (0x22 + off) (u8 (Z.shiftr (cylinders s) 8)) in let c := (set c (0x1c + off) v).2 in
  let c := (set c (0x1d + off) (u8 (heads s))).2 in
  let c := (set c (0x1e + off) 0xff).2 in let c := (set c (0x1f + off) 0xff).2 in
  let c := (set c (0x20 + off) (Z.lor 0xc0 (Z.shiftl (b2z (8 <? heads s)) 3))).2 in
  (set c (0x23 + off) (u8 (sectors s))).2.
Definition ide_fill_cmos i (c : C) : C :=
  let '(k0, c) := match arr (drives i) 0 with Some s => (0xf0, fill_drive 0x19 0 s c) | None => (0, c) end in
  let '(k1, c) := match arr (drives i) 1 with Some s => (0x0f, fill_drive 0x1a 9 s c) | None => (0, c) end in
  (set c 0x12 (Z.lor k0 k1)).2.
Definition translation s : Z :=
  if (cylinders s <=? 1024) && (heads s <=? 16) && (sectors s <=? 63) then 0
  else if u32 (u32 (cylinders s) * heads s) <=? 131072 then 2 else 1.
Definition ide_cmos_disk_translation i : Z :=
  let flag n := match arr (drives i) n with Some s => (match drive_kind s with IDE_HD => u8 (Z.shiftl (translation s) (n * 2)) | IDE_CD => 0 end) | None => 0 end in
  Z.lor (flag 0) (flag 1).
End Config.

(** ** Sessions *)

Section Disks.
Context {P : Type} `{IrqSinkLaws P}.
Implicit Types (s : IDEState BlockDeviceFile) (c : Ctl P) (i : IDEIFState P BlockDeviceFile).

Lemma hddrive_ok b : bf_ok b -> geometry_ok (chs b) -> hd_ok (ide_hddrive_init b).
Proof.
  intros Hb Hg. assert (Hl : alen (replicate (Z.to_nat (MAX_MULT_SECTORS * 512 + 4)) 0) = MAX_MULT_SECTORS * 512 + 4) by (unfold alen; rewrite length_replicate; done).
  unfold ide_hddrive_init. cbv zeta. change (get_chs b) with (chs b). destruct (chs b) as [[[cy hd] se]|]; unfold geometry_ok in Hg; constructor; cbn -[replicate Z.to_nat]; unfold MAX_MULT_SECTORS in *; first [done|exact Hl|lia].
Qed.
Lemma put_new_drive n s i : if_ok i -> 0 <= n < 2 -> hd_ok s -> if_ok (i <| drives := arr_set (drives i) n (Some s) |>).
Proof. intros Hi Hn Hs. exact (put_drive_ok n s (ctl i) i Hi Hn Hs (if_ctl i Hi)). Qed.
Lemma attach_image_ok n file i : if_ok i -> 0 <= n < 2 -> raw_image file -> exists b, attach_image n file i = Done (0, i <| drives := arr_set (drives i) n (Some (ide_hddrive_init b)) |>) /\
  hd_ok (ide_hddrive_init b) /\ mode b = BF_MODE_RW /\ nb b = alen (content file) / 512 /\ bf_image b = take (Z.to_nat (512 * nb b)) (content file).
Proof.
  intros Hi Hn Hf. destruct (raw_init file BF_MODE_RW Hf ltac:(done)) as (b & E & Hb & Hm & Hnb & Himg & Hg). exists b. unfold attach_image, ide_attach. rewrite E, bind_of_done.
  rewrite wr_in, !bind_of_done by (rewrite (if_drives i Hi); lia). split; [done|]. split; [by apply hddrive_ok|done].
Qed.
Lemma allocate_ok irq p : irq_line irq -> sink_ok p -> if_ok (ide_allocate irq p : IDEIFState P BlockDeviceFile).
Proof. intros Hi Hp. constructor; try done. intros n s Hn. assert (n = 0 \/ n = 1) as [-> | ->] by lia; done. Qed.

(** Attach images to drives, in order. *)
Fixpoint attach_images (l : list (Z * FILE)) i : outcome (IDEIFState P BlockDeviceFile) :=
  match l with [] => Done i | (n, file) :: l => '(_, i) ← attach_image n file i; attach_images l i end.
Lemma attach_images_ok l : forall i, if_ok i -> Forall (fun d => 0 <= d.1 < 2 /\ raw_image d.2) l -> exists i', attach_images l i = Done i' /\ if_ok i'.
Proof.
  induction l as [|[n file] l IH]; intros i Hi Hl; [by exists i|]. inversion Hl as [|? ? [Hn Hf] Hl']; subst. cbn [fst snd attach_images] in *.
  destruct (attach_image_ok n file i Hi Hn Hf) as (b & -> & Hb & _). rewrite bind_of_done. apply IH; [by apply put_new_drive|done].
Qed.
Lemma session_ok l : forall i, if_ok i -> Forall op_ok l -> exists i', run_ops l i = Done i' /\ if_ok i'.
Proof.
  induction l as [|o l IH]; intros i Hi Hl; [by exists i|]. inversion Hl as [|? ? Ho Hl']; subst. cbn [run_ops]. destruct (run_op_safe o i Hi Ho) as (i1 & -> & Hi1). rewrite bind_of_done. by apply IH.
Qed.

(** C8. From power-on, with hard disks on raw images of any contents below 256 terabytes
    attached to the channel, every session of register, data, string and control port
    accesses goes through: no access leaves a buffer or divides by zero, and the drives
    and the interrupt controller stay well formed. *)
Theorem disk_sessions (irq : Z) (p : P) (images : list (Z * FILE)) (session : list IdeOp) :
  irq_line irq -> sink_ok p -> Forall (fun d => 0 <= d.1 < 2 /\ raw_image d.2) images -> Forall op_ok session ->
  exists i', (i ← attach_images images (ide_allocate irq p); run_ops session i) = Done i' /\
    sink_ok (pic (ctl i')) /\ forall n s, 0 <= n < 2 -> arr (drives i') n = Some s -> hd_ok s.
Proof.
  intros Hirq Hp Him Hs. destruct (attach_images_ok images (ide_allocate irq p)) as (i & -> & Hi); [by apply allocate_ok|done|]. rewrite bind_of_done.
  destruct (session_ok session i Hi Hs) as (i' & -> & Hi'). exists i'. split; [done|]. destruct Hi' as [_ Hd _ [_ Hc]]. done.
Qed.
End Disks.

Section Transfers.
Context {P : Type} `{IrqSinkLaws P} {B : Type} `{BlockDeviceLaws B}.
Implicit Types (s : IDEState B) (c : Ctl P) (i : IDEIFState P B).

Lemma bytes_len ws : alen (bytes_of ws) = 2 * alen ws.
Proof. unfold bytes_of. rewrite concat_len by apply le_words_ok. unfold alen. by rewrite length_fmap. Qed.

(** The image of a disk after the words ws are written from sector a on. *)
Definition image_after s (a : Z) (ws : list Z) : list Z := overwrite (image (bs s)) (512 * a) (bytes_of ws).

(** C3. A disk through its ports: after a write command, of single sectors or of blocks,
    and its data words, the image holds the words at the sectors named, the rest of it and
    the other drive unchanged, and the drive is ready.  A read command after it delivers
    exactly the sectors it names, in either mode of transfer, and so the words written
    when it names the same sectors. *)
Theorem ata_disk (w r : Z) (d : Z) (o : option (IDEState B)) s c i (a n : Z) (ws : list Z) (a' n' : Z) :
  has_drive d o s c i -> hd_ok s -> writable (bs s) -> write_cmd w s = true -> read_cmd r s = true ->
  1 <= n <= 256 -> 0 <= a -> a + n <= get_sector_count (bs s) -> a + n < 2 ^ 28 -> Forall (inw 16) ws -> alen ws = 256 * n ->
  1 <= n' <= 256 -> 0 <= a' -> a' + n' <= get_sector_count (bs s) -> a' + n' < 2 ^ 28 ->
  exists i1 s1 c1 i2 s2 c2,
    (ata_command w d a n i ≫= write_words ws) = Done i1 /\ has_drive d o s1 c1 i1 /\ image (bs s1) = image_after s a ws /\ status s1 = Z.lor READY_STAT SEEK_STAT /\
    (ata_command r d a' n' i1 ≫= read_words (Z.to_nat (256 * n'))) = Done (words_of (sectors_at (image_after s a ws) a' n'), i2) /\
    has_drive d o s2 c2 i2 /\ image (bs s2) = image_after s a ws /\ status s2 = Z.lor READY_STAT SEEK_STAT /\
    (a' = a -> n' = n -> words_of (sectors_at (image_after s a ws) a' n') = ws).
Proof.
  intros Hi Hs Hw Hcw Hcr Hn Ha Hct Hre Hws Hlen Hn' Ha' Hct' Hre'. unfold image_after. set (disk := overwrite _ _ _). pose proof (with_address_named d a n s Hs (ha_d _ _ _ _ _ Hi) Hn Ha Hct Hre) as Hnm.
  destruct (write_command w a n (le_bytes 2 <$> ws) (with_address d a n s) c Hnm Hcw Hw (le_words_ok ws)) as (s0 & s1 & c1 & E & Ew & Hs1 & Hst & Him & Hcnt & Hmu); [unfold alen in *; by rewrite length_fmap|].
  destruct (command_sees w d o s c a n s0 c i Hi Hs E) as (i0 & -> & S0). rewrite bind_of_done. destruct (write_words_sees ws d o s0 c i0 s1 c1 S0 Ew) as (i1 & -> & S1).
  apply sees_has in S1. change (get_sector_count (bs (with_address d a n s))) with (get_sector_count (bs s)) in Hcnt.
  assert (Hcr1 : read_cmd r s1 = true) by (unfold read_cmd in *; by rewrite Hmu).
  destruct (read_back r d o s1 c1 a' n' i1 S1 Hs1 Hcr1 Hn' Ha') as (i2 & s2 & c2 & Er & S2 & Him2 & Hst2); [by rewrite Hcnt|done|].
  change (image (bs s1) = disk) in Him. exists i1, s1, c1, i2, s2, c2. rewrite Him in *. repeat (split; [done|]). intros -> ->. destruct (bs_size (bs s) (hd_bs s Hs)) as [_ Hsz]. pose proof (bytes_len ws) as Hbl.
  assert (Eread : sectors_at disk a n = bytes_of ws) by (unfold sectors_at, disk; replace (512 * n) with (alen (bytes_of ws)) by lia; apply read_overwritten; lia). by rewrite Eread, words_of_bytes.
Qed.
End Transfers.

(** ** Examples *)

#[local] Existing Instances Pic.pic_sink Pic.pic_sink_laws.

Definition image0 : FILE := mkFILE (replicate 2048 0) 0 4096.
Definition disk_of (file : FILE) : BlockDeviceFile := match block_device_init file BF_MODE_RW with Done (Some b) => b | _ => mkBf None 0 None 0 BF_MODE_RO [] [] 0 end.
Definition pic0 : outcome Pic.PicState2 := Done Pic.i8259_init.
Lemma pic0_ok : sink_ok pic0.
Proof. exists Pic.i8259_init. split; [reflexivity|]. split; apply Pic.pic_reset_wf. Qed.
Lemma image0_raw : raw_image image0.
Proof. constructor; [done|unfold alen; cbn [content image0]; rewrite length_replicate; lia|unfold alen; cbn [content room image0]; rewrite length_replicate; lia|done]. Qed.
Lemma disk0_ok : let b := disk_of image0 in hd_ok (ide_hddrive_init b) /\ mode b = BF_MODE_RW /\ nb b = 4.
Proof.
  destruct (raw_init image0 BF_MODE_RW image0_raw ltac:(done)) as (b & E & Hb & Hm & Hnb & _ & Hg). unfold disk_of. rewrite E. split; [by apply hddrive_ok|]. split; [done|]. rewrite Hnb.
  unfold alen. cbn [content image0]. by rewrite length_replicate.
Qed.

Lemma disk_sessions_witness : exists i', (i ← attach_images [(0, image0); (1, image0)] (ide_allocate 14 pic0);
    run_ops [IoWrite 6 0xe0; IoWrite 3 9; IoWrite 2 3; IoWrite 7 0x20; ReadString 2 300; Write32 7; IoWrite 6 0xb0; IoWrite 7 0xec; Read16; CmdWrite 4; CmdWrite 0; IoRead 7] i) = Done i' /\
  sink_ok (pic (ctl i')) /\ forall n s, 0 <= n < 2 -> arr (drives i') n = Some s -> hd_ok s.
Proof.
  apply disk_sessions; [split; lia|exact pic0_ok|repeat constructor; cbn; try lia; apply image0_raw|repeat constructor; cbn; lia].
Defined.

(** A channel with one drive, and some words to store. *)
Definition drive0 : IDEState BlockDeviceFile := ide_hddrive_init (disk_of image0).
Definition channel0 : IDEIFState (outcome Pic.PicState2) BlockDeviceFile := mkIf (mkCtl 14 pic0 0) None [Some drive0; None].
Definition words0 : list Z := replicate 256 0x1234 ++ replicate 256 0xfedc.
Lemma ata_disk_witness : exists i1 s1 c1 i2 s2 c2,
    (ata_command 0xc5 0 1 2 channel0 ≫= write_words words0) = Done i1 /\ has_drive 0 None s1 c1 i1 /\ image (bs s1) = image_after drive0 1 words0 /\ status s1 = Z.lor READY_STAT SEEK_STAT /\
    (ata_command 0x20 0 0 3 i1 ≫= read_words (Z.to_nat (256 * 3))) = Done (words_of (sectors_at (image_after drive0 1 words0) 0 3), i2) /\
    has_drive 0 None s2 c2 i2 /\ image (bs s2) = image_after drive0 1 words0 /\ status s2 = Z.lor READY_STAT SEEK_STAT /\
    (0 = 1 -> 3 = 2 -> words_of (sectors_at (image_after drive0 1 words0) 0 3) = words0).
Proof.
  destruct disk0_ok as (Hs & Hm & Hnb).
  apply (ata_disk 0xc5 0x20 0 None drive0 (mkCtl 14 pic0 0) channel0 1 2 words0 0 3); try done.
  apply Forall_app. split; apply Forall_replicate; split; vm_compute; congruence.
Defined.

(** The checks that the code does not make. *)

(** READ(10) of sector 0xffffffff: its number is -1, which stands for an answer already
    in the buffer, so the transfer runs behind the end of the buffer. *)
Definition read_sector (l nb : Z) : list IdeOp :=
  [IoWrite 6 0xa0; IoWrite 4 0xfe; IoWrite 5 0xff; IoWrite 7 0xa0; Write16 0x0028; Write16 (Z.lor (Z.shiftr l 24) (Z.shiftl (Z.land (Z.shiftr l 16) 0xff) 8));
   Write16 (Z.lor (Z.land (Z.shiftr l 8) 0xff) (Z.shiftl (Z.land l 0xff) 8)); Write16 0; Write16 nb; Write16 0].
Definition cd0 : outcome (IDEIFState (outcome Pic.PicState2) BlockDeviceFile) := attach_cd_image 0 image0 (ide_allocate 14 pic0).
Example sector_minus_one_overruns : (i ← cd0; run_ops (read_sector 0xffffffff 5 ++ [ReadString 2 5120]) i) = Stuck OutOfBounds.
Proof. by vm_compute. Qed.
Example sector_zero_is_read : is_done (i ← cd0; run_ops (read_sector 0 1 ++ [ReadString 2 1024]) i).
Proof. vm_compute. by eexists. Qed.
(** The size of a disc is never set, so the profile that is current is none. *)
Example no_medium_ever (b : BlockDeviceFile) : media_present (ide_cddrive_init b) = false.
Proof. done. Qed.
(** A changed disc is announced, but a drive that was attached keeps the old one. *)
Lemma reinit_keeps file (b : BlockDeviceFile) : mode b = BF_MODE_RW -> block_device_reinit file b = b.
Proof. intros Hm. unfold block_device_reinit. by rewrite Hm. Qed.
(** The geometry in the header of an old image is believed. *)
Definition old_image : FILE := mkFILE (ide_magic ++ replicate 2040 0) 0 4096.
Example header_divides_by_zero : (i ← attach_images [(0, old_image)] (ide_allocate 14 pic0); run_ops [IoWrite 6 0xa0; IoWrite 3 1; IoWrite 2 1; IoWrite 7 0x20] i) = Stuck DivideByZero.
Proof. by vm_compute. Qed.
(** No drive is selected before the first write to its register. *)
Example no_drive_selected : (i ← attach_images [(0, image0)] (ide_allocate 14 pic0); r ← ide_status_read i; Done r.1) = Done 0.
Proof. by vm_compute. Qed.
End IdeDisk.
