(* ===== verification/Ne2000.v ===== *)
(** * Ne2000: the network card (winspire/ne2000.c)

    [NE2000State P] is the card with the interrupt controller of type [P].  The network
    behind it is the class [Network].  A packet that arrives goes into the ring of pages
    in the memory of the card, the driver moves it out through the remote DMA port, and
    the other way round for a packet to send. *)

From S2P Require Import Prelude Files I8259.

Module Ne2000.
Import Files.

(** ** Data *)

Definition MAX_ETH_FRAME_SIZE : Z := 1514.
Definition MIN_BUF_SIZE : Z := 60.
Definition E8390_STOP : Z := 0x01.
Definition E8390_TRANS : Z := 0x04.
Definition E8390_RREAD : Z := 0x08.
Definition E8390_RWRITE : Z := 0x10.
Definition ENISR_RX : Z := 0x01.
Definition ENISR_TX : Z := 0x02.
Definition ENISR_RDC : Z := 0x40.
Definition ENISR_RESET : Z := 0x80.
Definition ENRSR_RXOK : Z := 0x01.
Definition ENRSR_PHY : Z := 0x20.
Definition ENTSR_PTX : Z := 0x01.
Definition NE2000_PMEM_SIZE : Z := 32 * 1024.
Definition NE2000_PMEM_START : Z := 16 * 1024.
Definition NE2000_PMEM_END : Z := NE2000_PMEM_SIZE + NE2000_PMEM_START.
Definition NE2000_MEM_SIZE : Z := NE2000_PMEM_END.

Record NE2000State (P : Type) := mkNe { cmd : Z; start : Z; stop : Z; boundary : Z; tsr : Z; tpsr : Z; tcnt : Z; rcnt : Z; rsar : Z; rsr : Z; rxcr : Z; isr : Z; dcfg : Z; imr : Z;
  phys : list Z; curpag : Z; mult : list Z; irq : Z; pic : P; macaddr : list Z; mem : list Z }.
Arguments mkNe {P}. Arguments cmd {P}. Arguments start {P}. Arguments stop {P}. Arguments boundary {P}. Arguments tsr {P}. Arguments tpsr {P}. Arguments tcnt {P}.
Arguments rcnt {P}. Arguments rsar {P}. Arguments rsr {P}. Arguments rxcr {P}. Arguments isr {P}. Arguments dcfg {P}. Arguments imr {P}. Arguments phys {P}.
Arguments curpag {P}. Arguments mult {P}. Arguments irq {P}. Arguments pic {P}. Arguments macaddr {P}. Arguments mem {P}.
#[export] Instance eta_ne P : Eta (NE2000State P) := fun s => mkNe (cmd s) (start s) (stop s) (boundary s) (tsr s) (tpsr s) (tcnt s) (rcnt s) (rsar s) (rsr s) (rxcr s) (isr s) (dcfg s) (imr s)
  (phys s) (curpag s) (mult s) (irq s) (pic s) (macaddr s) (mem s).

(** [send_packet] and, for the TAP device, [read (fd, buf, 2048)]: the buffer and the number of bytes. *)
Class Network (V : Type) := { send_packet : list Z -> V -> V; read_packet : V -> option (list Z * Z) * V }.

Section Card.
Context {P : Type} `{IrqSink P} {V : Type} `{Network V}.
Implicit Types (s : NE2000State P) (v : V).

Definition ne2000_update_irq s : NE2000State P := s <| pic := set_irq (pic s) (irq s) (b2z (nz (Z.land (Z.land (isr s) (imr s)) 0x7f))) |>.
(** [for (i = n; i >= 0; i--) mem[2 * i] = mem[2 * i + 1] = mem[i]], the odd byte after the even one *)
Fixpoint duplicate_prom (n : nat) (m : list Z) : outcome (list Z) :=
  let i := Z.of_nat n in
  b ← rd m i; m ← wr m (2 * i) b; b ← rd m i; m ← wr m (2 * i + 1) b;
  match n with O => Done m | S n => duplicate_prom n m end.
Definition ne2000_reset s : outcome (NE2000State P) :=
  m ← copy_into (mem s) 0 (macaddr s);
  m ← wr m 14 0x57; m ← wr m 15 0x57;
  m ← duplicate_prom 15 m;
  Done (s <| isr := ENISR_RESET |> <| mem := m |>).

(** ** Receiving *)

Definition POLYNOMIAL : Z := 0x04c11db6.
Fixpoint crc_bits (n : nat) (crc b : Z) : Z :=
  match n with
  | O => crc
  | S n =>
      let carry := Z.lxor (b2z (Z.testbit crc 31)) (Z.land b 1) in
      let crc := u32 (Z.shiftl crc 1) in
      crc_bits n (if nz carry then Z.lor (Z.lxor crc POLYNOMIAL) carry else crc) (Z.shiftr b 1)
  end.
Definition compute_mcast_idx (ep : list Z) : Z := Z.shiftr (foldl (fun crc b => crc_bits 8 crc b) 0xffffffff (take 6 ep)) 26.
Definition ne2000_buffer_full s : bool :=
  let index := Z.shiftl (curpag s) 8 in let bnd := Z.shiftl (boundary s) 8 in
  let avail := if index <? bnd then bnd - index else s32 (u32 (stop s - start s - (index - bnd))) in
  avail <? MAX_ETH_FRAME_SIZE + 4.
Definition ne2000_can_receive s : bool := nz (Z.land (cmd s) E8390_STOP) || negb (ne2000_buffer_full s).
(** The address filter. *)
Definition accepts s (buf : list Z) : outcome bool :=
  if nz (Z.land (rxcr s) 0x10) then Done true else
  d ← copy_from buf 0 6;
  if bool_decide (d = replicate 6 0xff) then Done (nz (Z.land (rxcr s) 0x04))
  else if nz (Z.land (arr d 0) 1) then
    if nz (Z.land (rxcr s) 0x08) then
      let idx := compute_mcast_idx d in
      m ← rd (mult s) (Z.shiftr idx 3); Done (nz (Z.land m (Z.shiftl 1 (Z.land idx 7))))
    else Done false
  else
    m0 ← rd (mem s) 0; m1 ← rd (mem s) 2; m2 ← rd (mem s) 4; m3 ← rd (mem s) 6; m4 ← rd (mem s) 8; m5 ← rd (mem s) 10;
    Done (bool_decide ([m0; m1; m2; m3; m4; m5] = d)).
(** The data of a packet go round the ring.  Where the ring is no ring, the loop of the code does not end. *)
Fixpoint ring_write (fuel : nat) (start stop : Z) (m buf : list Z) (index size : Z) : outcome (list Z) :=
  if size <=? 0 then Done m else
  match fuel with
  | O => Stuck Diverges
  | S fuel =>
      let avail := if index <=? stop then stop - index else 0 in
      let len := Z.min size avail in
      m ← copy_into m index (take (Z.to_nat len) buf);
      let index := index + len in
      ring_write fuel start stop m (drop (Z.to_nat len) buf) (if index =? stop then start else index) (size - len)
  end.
Definition ne2000_receive (buf : list Z) (size : Z) s : outcome (NE2000State P) :=
  if MAX_ETH_FRAME_SIZE <? size then Done s else
  if nz (Z.land (cmd s) E8390_STOP) || ne2000_buffer_full s then Done s else
  ok ← accepts s buf;
  if negb ok then Done s else
  data ← copy_from buf 0 size;
  let data := data ++ replicate (Z.to_nat (MIN_BUF_SIZE - size)) 0 in
  let size := Z.max size MIN_BUF_SIZE in
  let index := Z.shiftl (curpag s) 8 in
  let total_len := size + 4 in
  let next := u32 (index + Z.land (total_len + 4 + 255) (Z.lnot 0xff)) in
  let next := if stop s <=? next then u32 (next - (stop s - start s)) else next in
  b0 ← rd data 0;
  let r := if nz (Z.land b0 1) then Z.lor ENRSR_RXOK ENRSR_PHY else ENRSR_RXOK in
  m ← copy_into (mem s) index [r; u8 (Z.shiftr next 8); u8 total_len; u8 (Z.shiftr total_len 8)];
  m ← ring_write (S (Z.to_nat size)) (start s) (stop s) m data (index + 4) size;
  Done (ne2000_update_irq (s <| rsr := r |> <| mem := m |> <| curpag := u8 (Z.shiftr next 8) |> <| isr := Z.lor (isr s) ENISR_RX |>)).

(** ** Polling a TAP device *)

Definition after_eq (a b : Z) : bool := u32 (a - b) <? 2 ^ 31.
Fixpoint receive_all (fuel : nat) s v : outcome (NE2000State P * V) :=
  if ne2000_can_receive s then
    match fuel with
    | O => Stuck Diverges
    | S fuel =>
        let '(p, v) := read_packet v in
        match p with
        | None => Done (s, v)
        | Some (buf, size) => s ← ne2000_receive buf size s; receive_all fuel s v
        end
    end
  else Done (s, v).
(** [nextts] is the time of the next poll. *)
Definition ne2000_step_tuntap (fuel : nat) (now : Z) (s : NE2000State P) (tun : V * Z) : outcome (NE2000State P * (V * Z)) :=
  let '(v, nextts) := tun in
  if negb (after_eq now nextts) then Done (s, tun) else
  '(s, v) ← receive_all fuel s v; Done (s, (v, u32 (now + 10000))).

(** ** Registers *)

Definition raise_isr (b : Z) s : NE2000State P := ne2000_update_irq (s <| isr := Z.lor (isr s) b |>).
Definition transmit s v : outcome (NE2000State P * V) :=
  let index := Z.shiftl (tpsr s) 8 in
  let index := if NE2000_PMEM_END <=? index then index - NE2000_PMEM_SIZE else index in
  v ← (if index + tcnt s <=? NE2000_PMEM_END then d ← copy_from (mem s) index (tcnt s); Done (send_packet d v) else Done v);
  Done (ne2000_update_irq (s <| tsr := ENTSR_PTX |> <| isr := Z.lor (isr s) ENISR_TX |> <| cmd := Z.land (cmd s) (Z.lnot E8390_TRANS) |>), v).
Definition write_cmd (val : Z) s v : outcome (NE2000State P * V) :=
  let s := s <| cmd := u8 val |> in
  if nz (Z.land val E8390_STOP) then Done (s, v) else
  let s := s <| isr := Z.land (isr s) (Z.lnot ENISR_RESET) |> in
  let s := if nz (Z.land val (Z.lor E8390_RREAD E8390_RWRITE)) && (rcnt s =? 0) then raise_isr ENISR_RDC s else s in
  if nz (Z.land val E8390_TRANS) then transmit s v else Done (s, v).
Definition write_register (offset val : Z) s : outcome (NE2000State P) :=
  match offset with
  | 0x01 => Done (s <| start := u32 (Z.shiftl val 8) |>)
  | 0x02 => Done (s <| stop := u32 (Z.shiftl val 8) |>)
  | 0x03 => Done (s <| boundary := u8 val |>)
  | 0x0f => Done (ne2000_update_irq (s <| imr := u8 val |>))
  | 0x04 => Done (s <| tpsr := u8 val |>)
  | 0x05 => Done (s <| tcnt := u16 (Z.lor (Z.land (tcnt s) 0xff00) val) |>)
  | 0x06 => Done (s <| tcnt := u16 (Z.lor (Z.land (tcnt s) 0x00ff) (Z.shiftl val 8)) |>)
  | 0x08 => Done (s <| rsar := u32 (Z.lor (Z.land (rsar s) 0xff00) val) |>)
  | 0x09 => Done (s <| rsar := u32 (Z.lor (Z.land (rsar s) 0x00ff) (Z.shiftl val 8)) |>)
  | 0x0a => Done (s <| rcnt := u16 (Z.lor (Z.land (rcnt s) 0xff00) val) |>)
  | 0x0b => Done (s <| rcnt := u16 (Z.lor (Z.land (rcnt s) 0x00ff) (Z.shiftl val 8)) |>)
  | 0x0c => Done (s <| rxcr := u8 val |>)
  | 0x0e => Done (s <| dcfg := u8 val |>)
  | 0x07 => Done (ne2000_update_irq (s <| isr := Z.land (isr s) (u8 (Z.lnot (Z.land val 0x7f))) |>))
  | 0x17 => Done (s <| curpag := u8 val |>)
  | _ =>
      if (0x11 <=? offset) && (offset <=? 0x16) then l ← wr (phys s) (offset - 0x11) (u8 val); Done (s <| phys := l |>)
      else if (0x18 <=? offset) && (offset <=? 0x1f) then l ← wr (mult s) (offset - 0x18) (u8 val); Done (s <| mult := l |>)
      else Done s
  end.
Definition ne2000_ioport_write (addr val : Z) (x : NE2000State P * V) : outcome (NE2000State P * V) :=
  let '(s, v) := x in
  let addr := Z.land addr 0xf in
  if addr =? 0 then write_cmd val s v
  else s ← write_register (Z.lor addr (Z.shiftl (Z.shiftr (cmd s) 6) 4)) val s; Done (s, v).
Definition ne2000_ioport_read (addr : Z) s : outcome Z :=
  let addr := Z.land addr 0xf in
  if addr =? 0 then Done (cmd s) else
  let offset := Z.lor addr (Z.shiftl (Z.shiftr (cmd s) 6) 4) in
  match offset with
  | 0x04 => Done (tsr s)
  | 0x03 => Done (boundary s)
  | 0x07 => Done (isr s)
  | 0x08 => Done (Z.land (rsar s) 0x00ff)
  | 0x09 => Done (Z.shiftr (rsar s) 8)
  | 0x17 => Done (curpag s)
  | 0x0c => Done (rsr s)
  | 0x21 => Done (Z.shiftr (start s) 8)
  | 0x22 => Done (Z.shiftr (stop s) 8)
  | 0x0a => Done 0x50
  | 0x0b => Done 0x43
  | 0x33 => Done 0
  | 0x35 => Done 0x40
  | 0x36 => Done 0x40
  | _ =>
      if (0x11 <=? offset) && (offset <=? 0x16) then rd (phys s) (offset - 0x11)
      else if (0x18 <=? offset) && (offset <=? 0x1f) then rd (mult s) (offset - 0x18)
      else Done 0
  end.

(** ** Remote DMA *)

Definition mapped (addr : Z) : bool := (addr <? 32) || ((NE2000_PMEM_START <=? addr) && (addr <? NE2000_MEM_SIZE)).
Definition ne2000_mem_writeb (addr val : Z) s : outcome (NE2000State P) := if mapped addr then m ← wr (mem s) addr (u8 val); Done (s <| mem := m |>) else Done s.
Definition ne2000_mem_writew (addr val : Z) s : outcome (NE2000State P) :=
  let addr := Z.land addr (Z.lnot 1) in
  if mapped addr then m ← copy_into (mem s) addr [u8 val; u8 (Z.shiftr val 8)]; Done (s <| mem := m |>) else Done s.
Definition ne2000_mem_readb (addr : Z) s : outcome Z := if mapped addr then rd (mem s) addr else Done 0xff.
Definition ne2000_mem_readw (addr : Z) s : outcome Z :=
  let addr := Z.land addr (Z.lnot 1) in
  if mapped addr then a ← rd (mem s) addr; b ← rd (mem s) (addr + 1); Done (a + 256 * b) else Done 0xffff.
Definition ne2000_dma_update (len : Z) s : NE2000State P :=
  let s := s <| rsar := u32 (rsar s + len) |> in
  let s := if rsar s =? stop s then s <| rsar := start s |> else s in
  if rcnt s <=? len then raise_isr ENISR_RDC (s <| rcnt := 0 |>) else s <| rcnt := rcnt s - len |>.
Definition ne2000_asic_ioport_write (val : Z) s : outcome (NE2000State P) :=
  if rcnt s =? 0 then Done s else
  if nz (Z.land (dcfg s) 1) then s ← ne2000_mem_writew (rsar s) val s; Done (ne2000_dma_update 2 s)
  else s ← ne2000_mem_writeb (rsar s) val s; Done (ne2000_dma_update 1 s).
Definition ne2000_asic_ioport_read s : outcome (Z * NE2000State P) :=
  if nz (Z.land (dcfg s) 1) then v ← ne2000_mem_readw (rsar s) s; Done (v, ne2000_dma_update 2 s)
  else v ← ne2000_mem_readb (rsar s) s; Done (v, ne2000_dma_update 1 s).
Definition ne2000_reset_ioport_write (s : NE2000State P) : NE2000State P := s.
Definition ne2000_reset_ioport_read s : outcome (Z * NE2000State P) := s ← ne2000_reset s; Done (0, s).

Definition isa_ne2000_init (irq : Z) (p : P) : outcome (NE2000State P) :=
  ne2000_reset (mkNe 0 0 0 0 0 0 0 0 0 0 0 0 0 0 (replicate 6 0) 0 (replicate 8 0) irq p [0x52; 0x54; 0x00; 0x78; 0x9a; 0xbc] (replicate (Z.to_nat NE2000_MEM_SIZE) 0)).
End Card.

(** ** The card keeps its shape *)

Record card_ok {P} `{IrqSinkLaws P} (s : NE2000State P) : Prop := {
  nc_mem : alen (mem s) = NE2000_MEM_SIZE; nc_phys : alen (phys s) = 6; nc_mult : alen (mult s) = 8; nc_mac : alen (macaddr s) = 6;
  nc_cmd : inw 8 (cmd s); nc_tpsr : inw 8 (tpsr s); nc_tcnt : inw 16 (tcnt s); nc_rsar : 0 <= rsar s; nc_start : 0 <= start s; nc_line : irq_line (irq s); nc_pic : sink_ok (pic s) }.

Ltac ne_cbn := cbn [cmd start stop boundary tsr tpsr tcnt rcnt rsar rsr rxcr isr dcfg imr phys curpag mult irq pic macaddr mem set_field].
Ltac card_tac := repeat match goal with Hs : card_ok _ |- _ => destruct Hs end; constructor; ne_cbn; try done; auto using inw_u8, inw_u16.
Ltac sizes := unfold NE2000_MEM_SIZE, NE2000_PMEM_END, NE2000_PMEM_SIZE, NE2000_PMEM_START, MAX_ETH_FRAME_SIZE, MIN_BUF_SIZE in *.

Section Shape.
Context {P : Type} `{IrqSinkLaws P} {V : Type} `{Network V}.
Implicit Types (s : NE2000State P) (v : V).


Lemma card_irq_ok s : card_ok s -> card_ok (ne2000_update_irq s).
Proof. intros Hs. unfold ne2000_update_irq. card_tac. by apply sink_set_ok. Qed.
Lemma raise_ok b s : card_ok s -> card_ok (raise_isr b s).
Proof. intros Hs. apply card_irq_ok. card_tac. Qed.
Lemma prom_ok n m : (n <= 15)%nat -> alen m = NE2000_MEM_SIZE -> exists m', duplicate_prom n m = Done m' /\ alen m' = NE2000_MEM_SIZE.
Proof.
  revert m. induction n as [|n IH]; intros m Hn Hm; cbn [duplicate_prom]; cbv zeta; unfold NE2000_MEM_SIZE, NE2000_PMEM_END, NE2000_PMEM_SIZE, NE2000_PMEM_START in *;
    (rewrite rd_in, bind_of_done by lia); (rewrite wr_in, bind_of_done by lia); (rewrite rd_in, bind_of_done by (rewrite alen_set; lia)); (rewrite wr_in, bind_of_done by (rewrite alen_set; lia)).
  - eexists. split; [reflexivity|]. by rewrite !alen_set.
  - apply IH; [lia|]. by rewrite !alen_set.
Qed.
Lemma reset_ok s : card_ok s -> exists s', ne2000_reset s = Done s' /\ card_ok s'.
Proof.
  intros Hs. pose proof (nc_mem s Hs) as Hm. pose proof (nc_mac s Hs) as Hmac. unfold NE2000_MEM_SIZE, NE2000_PMEM_END, NE2000_PMEM_SIZE, NE2000_PMEM_START in Hm. unfold ne2000_reset.
  rewrite copy_into_in, bind_of_done by lia. assert (Hl : alen (overwrite (mem s) 0 (macaddr s)) = alen (mem s)) by (apply overwrite_length; lia).
  rewrite wr_in, bind_of_done by lia. rewrite wr_in, bind_of_done by (rewrite alen_set; lia).
  match goal with |- context [duplicate_prom 15 ?m] => destruct (prom_ok 15 m) as (m' & -> & Hm'); [lia|rewrite !alen_set, Hl; exact Hm|] end. rewrite bind_of_done.
  eexists. split; [reflexivity|]. card_tac.
Qed.
Lemma transmit_ok s v : card_ok s -> exists s' v', transmit s v = Done (s', v') /\ card_ok s'.
Proof.
  intros Hs. pose proof (nc_mem s Hs) as Hm. pose proof (nc_tpsr s Hs) as Ht. pose proof (nc_tcnt s Hs) as Hc. unfold transmit. cbv zeta.
  rewrite Z.shiftl_mul_pow2 by lia. change (2 ^ 8) with 256. unfold NE2000_MEM_SIZE, NE2000_PMEM_END, NE2000_PMEM_SIZE, NE2000_PMEM_START, inw in *.
  set (i := if 32 * 1024 + 16 * 1024 <=? tpsr s * 256 then _ else _). assert (Hi : 0 <= i) by (unfold i; destruct (Z.leb_spec (32 * 1024 + 16 * 1024) (tpsr s * 256)); lia). clearbody i.
  assert (Hs' : card_ok (ne2000_update_irq (s <| tsr := ENTSR_PTX |> <| isr := Z.lor (isr s) ENISR_TX |> <| cmd := Z.land (cmd s) (Z.lnot E8390_TRANS) |>))) by (apply card_irq_ok; card_tac; by apply inw_land_l).
  destruct (Z.leb_spec (i + tcnt s) (32 * 1024 + 16 * 1024)); [rewrite copy_from_in, bind_of_done by lia|]; rewrite bind_of_done; eexists _, _; (split; [reflexivity|exact Hs']).
Qed.
Lemma write_register_ok off val s : card_ok s -> 0 <= off -> 0 <= val -> exists s', write_register off val s = Done s' /\ card_ok s'.
Proof.
  intros Hs Ho Hv. assert (Hu : forall z, 0 <= u32 z) by (intros; apply Z.mod_pos_bound; lia). assert (Hdef : card_ok s -> exists s', Done s = Done s' /\ card_ok s') by (intros; by exists s).
  unfold write_register. repeat match goal with |- context [match ?o with _ => _ end] => is_var o; destruct o end;
    try (eexists; split; [reflexivity|]; first [apply card_irq_ok; card_tac|card_tac]; fail); cbv iota.
  all: repeat match goal with |- context [if ?b then _ else _] => destruct b eqn:?E end; try (by exists s).
  all: match goal with E : _ && _ = true |- _ => apply andb_true_iff in E as [?%Z.leb_le ?%Z.leb_le] end; pose proof (nc_phys s Hs); pose proof (nc_mult s Hs);
    rewrite wr_in, bind_of_done by lia; eexists; split; [reflexivity|]; card_tac; by rewrite alen_set.
Qed.
Lemma port_write_ok addr val s v : card_ok s -> 0 <= val -> exists s' v', ne2000_ioport_write addr val (s, v) = Done (s', v') /\ card_ok s'.
Proof.
  intros Hs Hv. unfold ne2000_ioport_write. cbv zeta. assert (Ha : 0 <= Z.land addr 15) by (apply Z.land_nonneg; right; lia). pose proof (nc_cmd s Hs) as Hc. destruct (Z.eqb_spec (Z.land addr 15) 0).
  - unfold write_cmd. cbv zeta. set (s1 := s <| cmd := u8 val |>). assert (Hs1 : card_ok s1) by (unfold s1; card_tac). destruct (nz (Z.land val E8390_STOP)); [by exists s1, v|].
    set (s2 := s1 <| isr := _ |>). assert (Hs2 : card_ok s2) by (unfold s2; card_tac). set (s3 := if _ && _ then _ else _). assert (Hs3 : card_ok s3) by (unfold s3; destruct (_ && _); [by apply raise_ok|done]).
    destruct (nz (Z.land val E8390_TRANS)); [by apply transmit_ok|by exists s3, v].
  - destruct (write_register_ok (Z.lor (Z.land addr 15) (Z.shiftl (Z.shiftr (cmd s) 6) 4)) val s Hs) as (s' & -> & Hs'); [|done|].
    + apply Z.lor_nonneg. split; [done|]. apply Z.shiftl_nonneg, Z.shiftr_nonneg. apply Hc.
    + rewrite bind_of_done. by exists s', v.
Qed.
Lemma port_read_ok addr s : card_ok s -> exists r, ne2000_ioport_read addr s = Done r.
Proof.
  intros Hs. unfold ne2000_ioport_read. cbv zeta. destruct (_ =? 0); [by eexists|]. set (o := Z.lor _ _). clearbody o. pose proof (nc_phys s Hs). pose proof (nc_mult s Hs).
  assert (Hd : exists r, (if (0x11 <=? o) && (o <=? 0x16) then rd (phys s) (o - 0x11) else if (0x18 <=? o) && (o <=? 0x1f) then rd (mult s) (o - 0x18) else Done 0) = Done r).
  { repeat match goal with |- context [if ?b then _ else _] => destruct b eqn:?E end; [| |by eexists];
      apply andb_true_iff in E as [?%Z.leb_le ?%Z.leb_le] || apply andb_true_iff in E0 as [?%Z.leb_le ?%Z.leb_le]; rewrite rd_in by lia; by eexists. }
  destruct o as [|o|o]; try exact Hd. repeat (destruct o as [o|o|]; try exact Hd; try by eexists).
Qed.
Lemma even_below a : Z.land a (Z.lnot 1) = 2 * (a / 2).
Proof. change (Z.lnot 1) with (Z.lnot (Z.ones 1)). rewrite <- Z.ldiff_land, Z.ldiff_ones_r by lia. rewrite Z.shiftr_div_pow2, Z.shiftl_mul_pow2 by lia. change (2 ^ 1) with 2. lia. Qed.
Lemma mapped_in a : 0 <= a -> mapped a = true -> a < NE2000_MEM_SIZE.
Proof. unfold mapped. rewrite orb_true_iff, andb_true_iff, Z.ltb_lt, Z.leb_le, Z.ltb_lt. unfold NE2000_MEM_SIZE, NE2000_PMEM_END, NE2000_PMEM_SIZE, NE2000_PMEM_START. lia. Qed.
Lemma mapped_word a : 0 <= a -> mapped (2 * (a / 2)) = true -> 0 <= 2 * (a / 2) /\ 2 * (a / 2) + 2 <= NE2000_MEM_SIZE.
Proof.
  intros Ha Hm. assert (H0' : 0 <= a / 2) by (apply Z.div_pos; lia). pose proof (mapped_in (2 * (a / 2)) ltac:(lia) Hm). unfold NE2000_MEM_SIZE, NE2000_PMEM_END, NE2000_PMEM_SIZE, NE2000_PMEM_START in *. lia.
Qed.
Lemma dma_update_ok n s : card_ok s -> card_ok (ne2000_dma_update n s).
Proof.
  intros Hs. assert (Hu : 0 <= u32 (rsar s + n)) by (apply Z.mod_pos_bound; lia). unfold ne2000_dma_update. cbv zeta. set (s1 := s <| rsar := u32 (rsar s + n) |>). assert (Hs1 : card_ok s1) by (unfold s1; card_tac).
  set (s2 := if rsar s1 =? stop s1 then _ else _). assert (Hs2 : card_ok s2) by (unfold s2; pose proof (nc_start s Hs); destruct (_ =? _); [card_tac|done]). destruct (_ <=? _); [apply raise_ok; card_tac|card_tac].
Qed.
Lemma with_mem s m : card_ok s -> alen m = alen (mem s) -> card_ok (s <| mem := m |>).
Proof. intros Hs Hm. pose proof (nc_mem s Hs). card_tac. by rewrite Hm. Qed.
Lemma asic_write_ok val s : card_ok s -> exists s', ne2000_asic_ioport_write val s = Done s' /\ card_ok s'.
Proof.
  intros Hs. pose proof (nc_mem s Hs) as Hm. pose proof (nc_rsar s Hs) as Hr. unfold ne2000_asic_ioport_write, ne2000_mem_writew, ne2000_mem_writeb. cbv zeta. rewrite even_below. destruct (_ =? 0); [by exists s|]. destruct (nz (Z.land (dcfg s) 1)).
  - destruct (mapped _) eqn:E; [|eexists; split; [reflexivity|by apply dma_update_ok]]. apply mapped_word in E; [|done]. rewrite copy_into_in, !bind_of_done by (change (alen [_; _]) with 2; lia).
    eexists. split; [reflexivity|]. apply dma_update_ok, with_mem; [done|]. apply overwrite_length; change (alen [_; _]) with 2; lia.
  - destruct (mapped _) eqn:E; [|eexists; split; [reflexivity|by apply dma_update_ok]]. apply mapped_in in E; [|done]. rewrite wr_in, !bind_of_done by lia.
    eexists. split; [reflexivity|]. apply dma_update_ok, with_mem; [done|]. apply alen_set.
Qed.
Lemma asic_read_ok s : card_ok s -> exists r s', ne2000_asic_ioport_read s = Done (r, s') /\ card_ok s'.
Proof.
  intros Hs. pose proof (nc_mem s Hs) as Hm. pose proof (nc_rsar s Hs) as Hr. unfold ne2000_asic_ioport_read, ne2000_mem_readw, ne2000_mem_readb. cbv zeta. rewrite even_below. destruct (nz (Z.land (dcfg s) 1)).
  - destruct (mapped _) eqn:E; [|eexists _, _; split; [reflexivity|by apply dma_update_ok]]. apply mapped_word in E; [|done]. rewrite !rd_in, !bind_of_done by lia. eexists _, _. split; [reflexivity|by apply dma_update_ok].
  - destruct (mapped _) eqn:E; [|eexists _, _; split; [reflexivity|by apply dma_update_ok]]. apply mapped_in in E; [|done]. rewrite rd_in, bind_of_done by lia. eexists _, _. split; [reflexivity|by apply dma_update_ok].
Qed.
End Shape.

(** ** The ring *)

(** The bytes [d] from [index] on, round the ring, and the [n] bytes that stand there. *)
Definition ring_store (start stop : Z) (m : list Z) (index : Z) (d : list Z) : list Z :=
  if index + alen d <=? stop then overwrite m index d
  else overwrite (overwrite m index (take (Z.to_nat (stop - index)) d)) start (drop (Z.to_nat (stop - index)) d).
Definition bytes_at (m : list Z) (p n : Z) : list Z := take (Z.to_nat n) (drop (Z.to_nat p) m).
Definition ring_bytes (start stop : Z) (m : list Z) (index n : Z) : list Z :=
  if index + n <=? stop then bytes_at m index n else bytes_at m index (stop - index) ++ bytes_at m start (n - (stop - index)).

Section Ring.
Variables (start stop : Z) (m : list Z).
Hypotheses (Hstart : 0 <= start) (Hring : start < stop) (Hstop : stop <= alen m).

Lemma alen_cut (d : list Z) k : 0 <= k <= alen d -> alen (take (Z.to_nat k) d) = k /\ alen (drop (Z.to_nat k) d) = alen d - k.
Proof. intros. unfold alen in *. rewrite length_take, length_drop. lia. Qed.
Lemma ring_store_length index d : start <= index < stop -> alen d <= stop - start -> alen (ring_store start stop m index d) = alen m.
Proof.
  intros Hi Hd. unfold ring_store. assert (H0' : 0 <= alen d) by (unfold alen; lia). destruct (Z.leb_spec (index + alen d) stop); [apply overwrite_length; lia|].
  destruct (alen_cut d (stop - index) ltac:(lia)) as [H1 H2]. rewrite !overwrite_length; rewrite ?overwrite_length; lia.
Qed.
Lemma ring_write_step fuel l b i z : 0 < z -> i <= stop -> let len := Z.min z (stop - i) in
  ring_write (S fuel) start stop l b i z = (l ← copy_into l i (take (Z.to_nat len) b);
    ring_write fuel start stop l (drop (Z.to_nat len) b) (if i + len =? stop then start else i + len) (z - len)).
Proof. intros Hz Hi. cbn [ring_write]. cbv zeta. destruct (Z.leb_spec z 0); [lia|]. by destruct (Z.leb_spec i stop); [|lia]. Qed.
Lemma ring_write_none fuel l b i : ring_write fuel start stop l b i 0 = Done l.
Proof. by destruct fuel. Qed.
Lemma ring_write_eq index d fuel : start <= index < stop -> 0 < alen d <= stop - start -> (2 <= fuel)%nat -> ring_write fuel start stop m d index (alen d) = Done (ring_store start stop m index d).
Proof.
  intros Hi Hd Hf. destruct fuel as [|[|fuel]]; [lia|lia|]. rewrite ring_write_step by lia. cbv zeta. unfold ring_store.
  destruct (Z.leb_spec (index + alen d) stop) as [Hle|Hgt].
  - rewrite Z.min_l by lia. rewrite take_ge by (unfold alen; lia). rewrite copy_into_in, bind_of_done by lia. rewrite Z.sub_diag. apply ring_write_none.
  - rewrite Z.min_r by lia. destruct (alen_cut d (stop - index) ltac:(lia)) as [Ht Hdr]. rewrite copy_into_in, bind_of_done by lia. replace (index + (stop - index)) with stop by lia. rewrite Z.eqb_refl.
    set (m1 := overwrite m index _). assert (Hm1 : alen m1 = alen m) by (apply overwrite_length; lia). set (d1 := drop _ d) in *. rewrite ring_write_step by lia. cbv zeta.
    rewrite Z.min_l by lia. rewrite <- Hdr. rewrite (take_ge d1) by (unfold alen; lia). rewrite copy_into_in, bind_of_done by lia. rewrite Z.sub_diag. apply ring_write_none.
Qed.
(** What was stored is what is read. *)
Lemma ring_read_stored index d n : start <= index < stop -> alen d <= n <= stop - start ->
  take (Z.to_nat (alen d)) (ring_bytes start stop (ring_store start stop m index d) index n) = d.
Proof.
  intros Hi Hn. assert (H0' : 0 <= alen d) by (unfold alen; lia). unfold ring_bytes, ring_store, bytes_at. destruct (Z.leb_spec (index + alen d) stop) as [Hle|Hgt].
  - assert (E : take (Z.to_nat (alen d)) (drop (Z.to_nat index) (overwrite m index d)) = d) by (apply read_overwritten; lia).
    destruct (Z.leb_spec (index + n) stop); [rewrite take_take, Nat.min_l by lia; exact E|]. rewrite take_app_le; [|rewrite length_take, length_drop; pose proof (overwrite_length m index d); unfold alen in *; lia].
    rewrite take_take, Nat.min_l by lia. exact E.
  - destruct (alen_cut d (stop - index) ltac:(lia)) as [Ht Hdr]. set (d0 := take _ d) in *. set (d1 := drop _ d) in *. assert (Ed : d = d0 ++ d1) by (symmetry; apply take_drop). set (m1 := overwrite m index d0).
    assert (Hm1 : alen m1 = alen m) by (apply overwrite_length; lia). destruct (Z.leb_spec (index + n) stop); [lia|].
    assert (E0 : take (Z.to_nat (stop - index)) (drop (Z.to_nat index) (overwrite m1 start d1)) = d0).
    { rewrite read_beside by lia. rewrite <- Ht. apply read_overwritten; lia. }
    rewrite E0, take_app_ge by (unfold alen in *; lia). rewrite take_take.
    replace (Nat.min (Z.to_nat (alen d) - length d0) (Z.to_nat (n - (stop - index)))) with (Z.to_nat (alen d1)) by (unfold alen in *; lia).
    rewrite read_overwritten by lia. by rewrite <- Ed.
Qed.
End Ring.

Section Traffic.
Context {P : Type} `{IrqSinkLaws P} {V : Type} `{Network V}.
Implicit Types (s : NE2000State P) (v : V).


(** A ring of whole pages, with the next page to fill and the last page read in it. *)
Record ring_ok s : Prop := {
  rg_start : NE2000_PMEM_START <= start s; rg_ring : start s < stop s <= NE2000_MEM_SIZE; rg_pages : start s mod 256 = 0 /\ stop s mod 256 = 0;
  rg_curpag : start s <= 256 * curpag s < stop s; rg_boundary : start s <= 256 * boundary s < stop s }.

Lemma ring_fits s : ring_ok s -> ne2000_buffer_full s = false -> 1536 <= stop s - start s.
Proof.
  intros [Ra Rb [Rc Rd] Re Rf] Hf. unfold ne2000_buffer_full in Hf. cbv zeta in Hf. apply Z.ltb_ge in Hf. rewrite !Z.shiftl_mul_pow2 in Hf by lia. change (2 ^ 8) with 256 in Hf. sizes.
  assert (1514 + 4 <= stop s - start s).
  { destruct (Z.ltb_spec (curpag s * 256) (boundary s * 256)); [lia|]. rewrite u32_id in Hf by (unfold inw; lia). unfold s32, sgn in Hf. change (2 ^ (32 - 1)) with (2 ^ 31) in Hf. rewrite Z.mod_small in Hf by lia.
    destruct (Z.ltb_spec (stop s - start s - (curpag s * 256 - boundary s * 256)) (2 ^ 31)); lia. }
  Z.to_euclidean_division_equations. lia.
Qed.
Lemma store_after_header st sp m index h d : 0 <= index -> index + alen h < sp -> sp <= alen m -> alen h + alen d <= sp - st -> st <= index -> 0 <= st ->
  ring_store st sp (overwrite m index h) (index + alen h) d = ring_store st sp m index (h ++ d).
Proof.
  intros Hi Hh Hsp Hd Hst Hst0. assert (Hl : 0 <= alen h /\ 0 <= alen d) by (unfold alen; lia). assert (Ha : alen (h ++ d) = alen h + alen d) by (unfold alen; rewrite length_app; lia). unfold ring_store. rewrite Ha, <- Z.add_assoc.
  destruct (Z.leb_spec (index + (alen h + alen d)) sp); [apply overwrite_app; lia|].
  assert (E1 : take (Z.to_nat (sp - index)) (h ++ d) = h ++ take (Z.to_nat (sp - (index + alen h))) d) by (rewrite take_app_ge by (unfold alen in *; lia); do 2 f_equal; unfold alen in *; lia).
  assert (E2 : drop (Z.to_nat (sp - index)) (h ++ d) = drop (Z.to_nat (sp - (index + alen h))) d) by (rewrite drop_app_ge by (unfold alen in *; lia); f_equal; unfold alen in *; lia).
  rewrite E1, E2, overwrite_app; [done|lia|]. unfold alen in *. rewrite length_take. lia.
Qed.

(** The frame as it is stored, padded to the least size. *)
Definition padded (frame : list Z) : list Z := frame ++ replicate (Z.to_nat (MIN_BUF_SIZE - alen frame)) 0.
Lemma padded_len f : alen (padded f) = Z.max (alen f) MIN_BUF_SIZE.
Proof. unfold padded, alen. rewrite length_app, length_replicate. sizes. lia. Qed.

(** The page after a packet of [n] bytes and its header. *)
Definition next_page s (n : Z) : Z :=
  let p := 256 * curpag s + 256 * ((n + 4 + 259) / 256) in (if stop s <=? p then p - (stop s - start s) else p) / 256.
Lemma round_up z : Z.land z (Z.lnot 0xff) = 256 * (z / 256).
Proof. change 0xff with (Z.ones 8). rewrite <- Z.ldiff_land, Z.ldiff_ones_r by lia. rewrite Z.shiftr_div_pow2, Z.shiftl_mul_pow2 by lia. change (2 ^ 8) with 256. lia. Qed.

Lemma receive_stores s buf size : card_ok s -> ring_ok s -> nz (Z.land (cmd s) E8390_STOP) = false -> ne2000_buffer_full s = false -> accepts s buf = Done true ->
  0 <= size <= MAX_ETH_FRAME_SIZE -> size <= alen buf ->
  let d := padded (take (Z.to_nat size) buf) in let n := alen d in
  exists r, ne2000_receive buf size s = Done (ne2000_update_irq (s <| rsr := r |>
    <| mem := ring_store (start s) (stop s) (mem s) (256 * curpag s) ([r; next_page s n; u8 (n + 4); u8 (Z.shiftr (n + 4) 8)] ++ d) |>
    <| curpag := next_page s n |> <| isr := Z.lor (isr s) ENISR_RX |>)).
Proof.
  intros Hs Hr Hstop Hf Hacc Hsz Hbuf d n. pose proof (ring_fits s Hr Hf) as Hfit. pose proof (nc_mem s Hs) as Hm. destruct Hr as [H1' H2' [H3' H4'] H5' H6']. unfold ne2000_receive. sizes.
  destruct (Z.ltb_spec 1514 size); [lia|]. rewrite Hstop, Hf, Hacc. cbn [orb negb]. rewrite bind_of_done. cbn [negb]. rewrite copy_from_in, bind_of_done by lia. change (drop (Z.to_nat 0) buf) with buf. cbv zeta.
  assert (Hlt : alen (take (Z.to_nat size) buf) = size) by (unfold alen in *; rewrite length_take; lia). assert (Ed : take (Z.to_nat size) buf ++ replicate (Z.to_nat (60 - size)) 0 = d) by (unfold d, padded; by rewrite Hlt).
  rewrite Ed. assert (Hn : n = Z.max size 60) by (unfold n, d; by rewrite padded_len, Hlt). rewrite <- Hn. rewrite rd_in, bind_of_done by (fold n; lia).
  rewrite Z.shiftl_mul_pow2, round_up by lia. change (2 ^ 8) with 256. rewrite (Z.mul_comm (curpag s)). replace (n + 4 + 4 + 255) with (n + 4 + 259) by lia.
  set (k := (n + 4 + 259) / 256). assert (Hk : 1 <= k <= 6) by (unfold k; Z.to_euclidean_division_equations; lia).
  rewrite (u32_id (256 * curpag s + 256 * k)) by (unfold inw; lia). set (r := if nz _ then _ else _). exists r.
  set (nx := if stop s <=? 256 * curpag s + 256 * k then _ else _). assert (Hnx : nx / 256 = next_page s n /\ 0 <= nx < 65536 /\ Z.shiftr nx 8 = next_page s n).
  { rewrite Z.shiftr_div_pow2 by lia. change (2 ^ 8) with 256. unfold nx, next_page. fold k. cbv zeta. clearbody k. destruct (Z.leb_spec (stop s) (256 * curpag s + 256 * k)); [rewrite u32_id by (unfold inw; lia)|]; split; try done; lia. }
  destruct Hnx as (_ & Hnx & ->). assert (Hpg : u8 (next_page s n) = next_page s n).
  { apply u8_id. unfold next_page. fold k. cbv zeta. unfold inw. destruct (Z.leb_spec (stop s) (256 * curpag s + 256 * k)); Z.to_euclidean_division_equations; lia. }
  rewrite Hpg. set (h := [r; next_page s n; u8 (n + 4); u8 (Z.shiftr (n + 4) 8)]). assert (Hh : alen h = 4) by done.
  rewrite copy_into_in, bind_of_done by lia. assert (Hov : alen (overwrite (mem s) (256 * curpag s) h) = alen (mem s)) by (apply overwrite_length; lia).
  assert (Hin : 256 * curpag s + 256 <= stop s) by (Z.to_euclidean_division_equations; lia).
  unfold n. rewrite ring_write_eq by (rewrite ?Hov; fold n; lia). rewrite bind_of_done. fold n. replace (256 * curpag s + 4) with (256 * curpag s + alen h) by (by rewrite Hh). fold n in Hov. rewrite store_after_header by (rewrite ?Hh; fold n; lia). done.
Qed.

(** *** The driver's side *)

(** Words through the data port. *)
Fixpoint dma_reads (k : nat) s : outcome (list Z * NE2000State P) :=
  match k with 0%nat => Done ([], s) | S k => '(w, s) ← ne2000_asic_ioport_read s; '(l, s) ← dma_reads k s; Done (w :: l, s) end.
Fixpoint dma_writes (l : list Z) s : outcome (NE2000State P) := match l with [] => Done s | w :: l => s ← ne2000_asic_ioport_write w s; dma_writes l s end.
Fixpoint le_words (l : list Z) : list Z := match l with a :: b :: l => a + 256 * b :: le_words l | _ => [] end.
Definition word_bytes (ws : list Z) : list Z := concat ((fun w => [u8 w; u8 (Z.shiftr w 8)]) <$> ws).
Definition word_mode s : Prop := nz (Z.land (dcfg s) 1) = true.

Lemma word_bytes_len ws : alen (word_bytes ws) = 2 * alen ws.
Proof. induction ws as [|w ws IH]; [done|]. unfold word_bytes, alen in *. cbn [fmap list_fmap concat length app] in *. lia. Qed.
Lemma even_addr p : p mod 2 = 0 -> Z.land p (Z.lnot 1) = p.
Proof. intros Hp. rewrite even_below. pose proof (Z.div_mod p 2 ltac:(lia)). lia. Qed.
Lemma page_mapped p : NE2000_PMEM_START <= p < NE2000_MEM_SIZE -> mapped p = true.
Proof. intros Hp. unfold mapped. rewrite orb_true_iff, andb_true_iff, Z.leb_le, !Z.ltb_lt. lia. Qed.
(** What the remote DMA leaves. *)
Lemma dma_update_keeps n s : let s' := ne2000_dma_update n s in mem s' = mem s /\ start s' = start s /\ stop s' = stop s /\ dcfg s' = dcfg s /\ cmd s' = cmd s /\
  rsar s' = (if u32 (rsar s + n) =? stop s then start s else u32 (rsar s + n)) /\ rcnt s' = (if rcnt s <=? n then 0 else rcnt s - n).
Proof. unfold ne2000_dma_update, raise_isr, ne2000_update_irq. cbv zeta. ne_cbn. destruct (u32 (rsar s + n) =? stop s); ne_cbn; destruct (rcnt s <=? n); done. Qed.
Lemma bytes_at_two m p : 0 <= p -> p + 2 <= alen m -> bytes_at m p 2 = [arr m p; arr m (p + 1)].
Proof.
  intros Hp Hl. unfold bytes_at, arr, alen in *. change (Z.to_nat 2) with 2%nat. replace (Z.to_nat (p + 1)) with (S (Z.to_nat p)) by lia. rewrite !list_lookup_total_alt.
  destruct (lookup_lt_is_Some_2 m (Z.to_nat p)) as [a Ea]; [lia|]. destruct (lookup_lt_is_Some_2 m (S (Z.to_nat p))) as [b Eb]; [lia|]. rewrite Ea, Eb.
  by rewrite (drop_S _ _ _ Ea), (drop_S _ _ _ Eb).
Qed.
Lemma ring_bytes_step st sp m p n : 0 <= st <= p -> p + 2 <= sp -> 0 <= n -> 2 + n <= sp - st ->
  ring_bytes st sp m p (2 + n) = bytes_at m p 2 ++ ring_bytes st sp m (if p + 2 =? sp then st else p + 2) n.
Proof.
  intros Hp Hsp Hn Hr. unfold ring_bytes, bytes_at. destruct (Z.eqb_spec (p + 2) sp) as [He|Hne].
  - destruct (Z.leb_spec (st + n) sp); [|lia]. destruct (Z.leb_spec (p + (2 + n)) sp); [replace n with 0 by lia; by rewrite app_nil_r|]. by replace (sp - p) with 2 by lia; replace (2 + n - 2) with n by lia.
  - replace (p + (2 + n)) with (p + 2 + n) by lia. destruct (Z.leb_spec (p + 2 + n) sp); [by rewrite read_more by lia|].
    replace (sp - p) with (2 + (sp - (p + 2))) by lia. rewrite read_more by lia. rewrite <- app_assoc. do 3 f_equal. lia.
Qed.
Lemma dma_reads_ring k : forall s, card_ok s -> word_mode s -> NE2000_PMEM_START <= start s -> start s <= rsar s < stop s -> stop s <= NE2000_MEM_SIZE -> rsar s mod 2 = 0 -> start s mod 2 = 0 -> stop s mod 2 = 0 ->
  2 * Z.of_nat k <= stop s - start s -> exists s', dma_reads k s = Done (le_words (ring_bytes (start s) (stop s) (mem s) (rsar s) (2 * Z.of_nat k)), s') /\ card_ok s' /\ mem s' = mem s.
Proof.
  induction k as [|k IH]; intros s Hs Hw Hst Hp Hsp He Hes Hesp Hk.
  - exists s. cbn [dma_reads]. unfold ring_bytes, bytes_at. change (2 * Z.of_nat 0) with 0. by destruct (Z.leb_spec (rsar s + 0) (stop s)); [|lia].
  - pose proof (nc_mem s Hs) as Hm. unfold word_mode in Hw. pose proof (dma_update_ok 2 s Hs) as Hs1.
    assert (Hnb : rsar s + 2 <= stop s) by (Z.to_euclidean_division_equations; lia).
    cbn [dma_reads]. unfold ne2000_asic_ioport_read, ne2000_mem_readw. cbv zeta. rewrite Hw, even_addr, page_mapped by (done || (sizes; lia)). sizes. rewrite (rd_in _ (rsar s)), bind_of_done, rd_in, !bind_of_done by lia.
    destruct (dma_update_keeps 2 s) as (Em & Est & Esp & Edc & _ & Ers & _). rewrite u32_id in Ers by (unfold inw; lia). set (s1 := ne2000_dma_update 2 s) in *.
    destruct (IH s1 Hs1) as (s' & E & Hs' & Em'); rewrite ?Est, ?Esp, ?Ers; try done; try lia; try (unfold word_mode; by rewrite Edc); try (destruct (Z.eqb_spec (rsar s + 2) (stop s)); Z.to_euclidean_division_equations; lia).
    exists s'. rewrite E, bind_of_done, Em, Est, Esp, Ers. split; [|split; [done|congruence]]. do 2 f_equal. replace (2 * Z.of_nat (S k)) with (2 + 2 * Z.of_nat k) by lia. rewrite ring_bytes_step by lia.
    rewrite bytes_at_two by lia. done.
Qed.
Lemma dma_writes_stored ws : forall s, card_ok s -> word_mode s -> NE2000_PMEM_START <= rsar s -> rsar s + 2 * alen ws <= start s -> start s < stop s -> stop s <= NE2000_MEM_SIZE -> rsar s mod 2 = 0 -> rcnt s = 2 * alen ws ->
  exists s', dma_writes ws s = Done s' /\ card_ok s' /\ mem s' = overwrite (mem s) (rsar s) (word_bytes ws) /\ cmd s' = cmd s.
Proof.
  induction ws as [|w ws IH]; intros s Hs Hw Hp Hst Hsp Hmx He Hc; pose proof (nc_mem s Hs) as Hm.
  - exists s. cbn [dma_writes]. split; [done|]. split; [done|]. sizes. change (alen []) with 0 in *. change (word_bytes []) with (@nil Z). rewrite overwrite_in by (change (alen []) with 0; lia). cbn [app]. change (alen []) with 0. by rewrite Z.add_0_r, take_drop.
  - assert (Hl : alen (w :: ws) = 1 + alen ws /\ 0 <= alen ws) by (unfold alen; cbn [length]; lia). unfold word_mode in Hw.
    cbn [dma_writes]. unfold ne2000_asic_ioport_write, ne2000_mem_writew. cbv zeta. destruct (Z.eqb_spec (rcnt s) 0); [lia|]. rewrite Hw, even_addr, page_mapped by (done || (sizes; lia)).
    sizes. rewrite copy_into_in, !bind_of_done by (change (alen [_; _]) with 2; lia). set (d := [u8 w; u8 (Z.shiftr w 8)]) in *. set (s0 := s <| mem := overwrite (mem s) (rsar s) d |>) in *.
    assert (Hs1 : card_ok (ne2000_dma_update 2 s0)) by (apply dma_update_ok, with_mem; [done|apply overwrite_length; change (alen d) with 2; lia]).
    destruct (dma_update_keeps 2 s0) as (Em & Est & Esp & Edc & Ecm & Ers & Erc). change (cmd s0) with (cmd s) in Ecm. change (rsar s0) with (rsar s) in *. change (rcnt s0) with (rcnt s) in *. change (start s0) with (start s) in *. change (stop s0) with (stop s) in *. change (dcfg s0) with (dcfg s) in *.
    rewrite u32_id in Ers by (unfold inw; lia). destruct (Z.eqb_spec (rsar s + 2) (stop s)); [lia|]. set (s1 := ne2000_dma_update 2 s0) in *.
    destruct (IH s1 Hs1) as (s' & E & Hs' & Em' & Ecm'); rewrite ?Est, ?Esp, ?Ers, ?Erc; try done; try lia; try (unfold word_mode; by rewrite Edc); try (destruct (Z.leb_spec (rcnt s) 2); lia); try (Z.to_euclidean_division_equations; lia).
    exists s'. split; [done|]. split; [done|]. split; [|congruence]. rewrite Em', Em, Ers. change (mem s0) with (overwrite (mem s) (rsar s) d). change (word_bytes (w :: ws)) with (d ++ word_bytes ws).
    change 2 with (alen d). apply overwrite_app; [lia|]. rewrite word_bytes_len. change (alen d) with 2. lia.
Qed.

(** Register writes, and the programs of a driver: set up the remote DMA, put a packet
    into the memory and send it, fetch words from the memory. *)
Fixpoint outs (l : list (Z * Z)) (x : NE2000State P * V) : outcome (NE2000State P * V) := match l with [] => Done x | (a, val) :: l => x ← ne2000_ioport_write a val x; outs l x end.
Definition set_dma (p n c : Z) : list (Z * Z) := [(0, 0x22); (8, p mod 256); (9, p / 256); (10, n mod 256); (11, n / 256); (0, c)].
Definition driver_send (page n : Z) (ws : list Z) (x : NE2000State P * V) : outcome (NE2000State P * V) :=
  '(s, v) ← outs (set_dma (256 * page) (2 * alen ws) 0x12) x;
  s ← dma_writes ws s;
  outs [(4, page); (5, n mod 256); (6, n / 256); (0, 0x26)] (s, v).
Definition driver_fetch (p : Z) (k : nat) (x : NE2000State P * V) : outcome (list Z * NE2000State P) :=
  '(s, v) ← outs (set_dma p (2 * Z.of_nat k) 0x0a) x; dma_reads k s.

Lemma low_high w r p : 16 <= w -> 0 <= p < 65536 ->
  Z.lor (Z.land (Z.lor (Z.land r 0xff00) (p mod 256) mod 2 ^ w) 0xff) (Z.shiftl (p / 256) 8) mod 2 ^ w = p.
Proof.
  intros Hw Hp. rewrite land_255. change 256 with (2 ^ 8) at 2. rewrite mod_mod_pow2 by lia. change (2 ^ 8) with 256. rewrite <- land_255, Z.land_lor_distr_l, <- Z.land_assoc. change (Z.land 0xff00 0xff) with 0.
  rewrite Z.land_0_r, Z.lor_0_l, land_255, Zmod_mod, lor_shiftl_add by (lia || apply Z.mod_pos_bound; lia). change (2 ^ 8) with 256. replace (p mod 256 + p / 256 * 256) with p by (pose proof (Z.div_mod p 256); lia).
  apply Z.mod_small. split; [lia|]. assert (2 ^ 16 <= 2 ^ w) by (apply Z.pow_le_mono_r; lia). change (2 ^ 16) with 65536 in *. lia.
Qed.
(** The set-up changes only the registers of the remote DMA. *)
Lemma set_dma_eq p n c s v : c = 0x12 \/ c = 0x0a -> 0 <= p < 65536 -> 0 < n < 65536 ->
  exists i, outs (set_dma p n c) (s, v) = Done (s <| cmd := c |> <| isr := i |> <| rsar := p |> <| rcnt := n |>, v).
Proof.
  intros Hc Hp Hn. eexists. unfold set_dma, outs, ne2000_ioport_write.
  change (write_cmd 0x22 s v) with (Done (s <| cmd := 0x22 |> <| isr := Z.land (isr s) (Z.lnot ENISR_RESET) |>, v)). cbv zeta.
  pose proof (low_high 32 (rsar s) p ltac:(lia) Hp) as El. pose proof (low_high 16 (rcnt s) n ltac:(lia) ltac:(lia)) as Ec.
  set (s1 := s <| cmd := 0x22 |> <| isr := Z.land (isr s) (Z.lnot ENISR_RESET) |>).
  set (s2 := s1 <| rsar := p |> <| rcnt := n |>).
  assert (E : forall k, (x ← Done (s1, v); x ← (let '(s, v) := x in s ← write_register 8 (p mod 256) s; Done (s, v)); x ← (let '(s, v) := x in s ← write_register 9 (p / 256) s; Done (s, v));
    x ← (let '(s, v) := x in s ← write_register 10 (n mod 256) s; Done (s, v)); x ← (let '(s, v) := x in s ← write_register 11 (n / 256) s; Done (s, v)); k x) = k (s2, v) :> outcome (NE2000State P * V)).
  { intros k. unfold write_register. rewrite !bind_of_done. ne_cbn. change (rsar s1) with (rsar s). change (rcnt s1) with (rcnt s). unfold u32, u16. rewrite El, Ec. done. }
  etransitivity; [exact (E (fun x => x ← (let '(s, v) := x in write_cmd c s v); Done x))|]. unfold write_cmd. cbv zeta. change (rcnt (s2 <| cmd := u8 c |> <| isr := _ |>)) with n. destruct (Z.eqb_spec n 0); [lia|]. rewrite andb_false_r.
  destruct Hc as [-> | ->]; reflexivity.
Qed.

Lemma page0_write addr val s v : 0 < addr < 16 -> Z.shiftr (cmd s) 6 = 0 -> ne2000_ioport_write addr val (s, v) = (s ← write_register addr val s; Done (s, v)).
Proof.
  intros Ha Hc. unfold ne2000_ioport_write. cbv zeta. change (Z.land addr 0xf) with (Z.land addr (2 ^ 4 - 1)). rewrite land_ones_mod by lia. change (2 ^ 4) with 16. rewrite Z.mod_small by lia. destruct (Z.eqb_spec addr 0); [lia|]. by rewrite Hc, Z.lor_0_r.
Qed.
Lemma send_sends page n ws s v : card_ok s -> word_mode s -> NE2000_PMEM_START <= 256 * page -> 256 * page + 2 * alen ws <= start s -> start s < stop s <= NE2000_MEM_SIZE -> 0 < alen ws -> 0 < n <= 2 * alen ws ->
  exists s', driver_send page n ws (s, v) = Done (s', send_packet (take (Z.to_nat n) (word_bytes ws)) v) /\ Z.testbit (isr s') 1 = true /\ card_ok s'.
Proof.
  intros Hs Hw Hp Hst Hsp Hws Hn. pose proof (nc_mem s Hs) as Hm. sizes. destruct (set_dma_eq (256 * page) (2 * alen ws) 0x12 s v) as [i E]; [by left|lia|lia|]. unfold driver_send. rewrite E, bind_of_done.
  set (s1 := s <| cmd := 0x12 |> <| isr := i |> <| rsar := 256 * page |> <| rcnt := 2 * alen ws |>). assert (Hs1 : card_ok s1) by (unfold s1; card_tac; lia).
  destruct (dma_writes_stored ws s1 Hs1 Hw) as (s2 & E2 & Hs2 & Em & Ecm); [change (rsar s1) with (256 * page); sizes; lia|change (rsar s1) with (256 * page); change (start s1) with (start s); lia|
    change (start s1) with (start s); change (stop s1) with (stop s); lia|change (stop s1) with (stop s); sizes; lia|change (rsar s1) with (256 * page); Z.to_euclidean_division_equations; lia|done|].
  rewrite E2, bind_of_done. change (rsar s1) with (256 * page) in Em. change (mem s1) with (mem s) in Em. change (cmd s1) with 0x12 in Ecm. pose proof (low_high 16 (tcnt s2) n ltac:(lia) ltac:(lia)) as El.
  assert (Hpage : u8 page = page) by (apply u8_id; unfold inw; lia). set (s3 := s2 <| tpsr := page |> <| tcnt := n |>).
  assert (E3 : outs [(4, page); (5, n mod 256); (6, n / 256); (0, 0x26)] (s2, v) = (x ← write_cmd 0x26 s3 v; Done x)).
  { assert (Hc : Z.shiftr (cmd s2) 6 = 0) by (by rewrite Ecm). cbn [outs]. rewrite page0_write by (done || lia).
    change (write_register 4 page s2) with (Done (s2 <| tpsr := u8 page |>)). rewrite !bind_of_done, page0_write by (done || lia).
    set (s2a := s2 <| tpsr := u8 page |>). change (write_register 5 (n mod 256) s2a) with (Done (s2a <| tcnt := u16 (Z.lor (Z.land (tcnt s2a) 0xff00) (n mod 256)) |>)). rewrite !bind_of_done, page0_write by (done || lia).
    set (s2b := s2a <| tcnt := _ |>). change (write_register 6 (n / 256) s2b) with (Done (s2b <| tcnt := u16 (Z.lor (Z.land (tcnt s2b) 0x00ff) (Z.shiftl (n / 256) 8)) |>)). rewrite !bind_of_done.
    unfold s2b, s2a, u16. ne_cbn. rewrite El, Hpage. done. }
  rewrite E3. change (write_cmd 0x26 s3 v) with (transmit (s3 <| cmd := 0x26 |> <| isr := Z.land (isr s3) (Z.lnot ENISR_RESET) |>) v). set (s4 := s3 <| cmd := 0x26 |> <| isr := _ |>).
  unfold transmit. cbv zeta. change (tpsr s4) with page. change (tcnt s4) with n. change (mem s4) with (mem s2). rewrite Z.shiftl_mul_pow2 by lia. change (2 ^ 8) with 256. sizes.
  destruct (Z.leb_spec (32 * 1024 + 16 * 1024) (page * 256)); [lia|]. destruct (Z.leb_spec (page * 256 + n) (32 * 1024 + 16 * 1024)); [|lia].
  pose proof (word_bytes_len ws) as Hwl. assert (Hov : alen (mem s2) = alen (mem s)) by (rewrite Em; apply overwrite_length; lia). rewrite copy_from_in, !bind_of_done by lia.
  assert (Er : take (Z.to_nat n) (drop (Z.to_nat (page * 256)) (mem s2)) = take (Z.to_nat n) (word_bytes ws)).
  { rewrite Em, (Z.mul_comm page). rewrite <- (read_overwritten (mem s) (256 * page) (word_bytes ws)) at 2 by lia. rewrite take_take. f_equal. lia. }
  rewrite Er. eexists. split; [reflexivity|]. split; [unfold ne2000_update_irq; ne_cbn; by rewrite Z.lor_spec, orb_true_r|].
  apply card_irq_ok. unfold s4, s3. assert (inw 8 page /\ inw 16 n) as [Hi1 Hi2] by (unfold inw; lia). card_tac.
Qed.
Lemma fetch_fetches s v p k : card_ok s -> word_mode s -> ring_ok s -> start s <= p < stop s -> p mod 2 = 0 -> (0 < k)%nat -> 2 * Z.of_nat k <= stop s - start s ->
  exists s', driver_fetch p k (s, v) = Done (le_words (ring_bytes (start s) (stop s) (mem s) p (2 * Z.of_nat k)), s') /\ card_ok s'.
Proof.
  intros Hs Hw [Ra Rb [Rc Rd] Re Rf] Hp He Hk Hn. sizes. destruct (set_dma_eq p (2 * Z.of_nat k) 0x0a s v) as [i E]; [by right|lia|lia|]. unfold driver_fetch. rewrite E, bind_of_done.
  set (s1 := s <| cmd := 0x0a |> <| isr := i |> <| rsar := p |> <| rcnt := 2 * Z.of_nat k |>). assert (Hs1 : card_ok s1) by (unfold s1; card_tac; lia).
  destruct (dma_reads_ring k s1 Hs1 Hw) as (s' & E' & Hs' & _); change (rsar s1) with p; change (start s1) with (start s) in *; change (stop s1) with (stop s) in *; sizes; try done; try lia; try (clear - Rc Rd; Z.to_euclidean_division_equations; lia).
  exists s'. by rewrite E'.
Qed.

(** C40. A packet crosses the network: what the driver of one card puts into its memory as
    words and sends goes out as exactly those bytes, with the transmit interrupt; a card
    whose ring has room and whose filter accepts it stores it and raises the receive
    interrupt; and its driver, which fetches words from the page that was next, gets a
    header with the next page and the length, and then the bytes of the packet, padded
    with zeros to the least size, also where they go round the end of the ring. *)
Theorem packet_crosses (a b : NE2000State P) (va vb : V) (page n : Z) (ws buf : list Z) (k : nat) :
  card_ok a -> word_mode a -> NE2000_PMEM_START <= 256 * page -> 256 * page + 2 * alen ws <= start a -> start a < stop a <= NE2000_MEM_SIZE -> 0 < alen ws -> 0 < n <= 2 * alen ws -> n <= MAX_ETH_FRAME_SIZE ->
  let packet := take (Z.to_nat n) (word_bytes ws) in
  card_ok b -> word_mode b -> ring_ok b -> nz (Z.land (cmd b) E8390_STOP) = false -> ne2000_buffer_full b = false -> n <= alen buf -> take (Z.to_nat n) buf = packet -> accepts b buf = Done true ->
  let stored := padded packet in alen stored + 4 <= 2 * Z.of_nat k <= stop b - start b ->
  exists a' b1 r data b2,
    driver_send page n ws (a, va) = Done (a', send_packet packet va) /\ Z.testbit (isr a') 1 = true /\
    ne2000_receive buf n b = Done b1 /\ Z.testbit (isr b1) 0 = true /\ curpag b1 = next_page b (alen stored) /\
    driver_fetch (256 * curpag b) k (b1, vb) = Done (le_words data, b2) /\
    take (Z.to_nat (alen stored + 4)) data = [r; curpag b1; u8 (alen stored + 4); u8 (Z.shiftr (alen stored + 4) 8)] ++ stored.
Proof.
  intros Ha Hwa Hpa Hta Hra Hws Hn Hmax packet Hb Hwb Hrb Hstop Hfull Hbuf Epk Hacc stored Hk. destruct (send_sends page n ws a va) as (a' & Ea & Hta' & _); [done..|]. fold packet in Ea.
  destruct (receive_stores b buf n Hb Hrb Hstop Hfull Hacc) as (r & Er); [lia|done|]. rewrite Epk in Er. fold stored in Er.
  pose proof (ring_fits b Hrb Hfull) as Hfit. pose proof (nc_mem b Hb) as Hm. destruct Hrb as [Ra Rb [Rc Rd] Re Rf]. sizes. assert (Hst : 0 <= alen stored) by (unfold alen; lia).
  set (d := [r; next_page b (alen stored); u8 (alen stored + 4); u8 (Z.shiftr (alen stored + 4) 8)] ++ stored) in *. assert (Hd : alen d = alen stored + 4) by (unfold d, alen; rewrite length_app; cbn [length]; lia).
  set (m := ring_store (start b) (stop b) (mem b) (256 * curpag b) d) in *. assert (Hml : alen m = alen (mem b)) by (apply ring_store_length; lia).
  set (b0 := b <| rsr := r |> <| mem := m |> <| curpag := next_page b (alen stored) |> <| isr := Z.lor (isr b) ENISR_RX |>) in *.
  assert (Hb1 : card_ok (ne2000_update_irq b0)) by (apply card_irq_ok; unfold b0; card_tac; by rewrite Hml).
  assert (Hnp : start b <= 256 * next_page b (alen stored) < stop b).
  { unfold next_page. cbv zeta. assert (Hps : alen stored <= 1514) by (unfold stored; rewrite padded_len; unfold packet, alen; rewrite length_take; sizes; lia).
    clear - Rc Rd Re Hfit Hps Hst Hra. destruct (Z.leb_spec (stop b) (256 * curpag b + 256 * ((alen stored + 4 + 259) / 256))); Z.to_euclidean_division_equations; lia. }
  destruct (fetch_fetches (ne2000_update_irq b0) vb (256 * curpag b) k Hb1 Hwb) as (b2 & Ef & _); [constructor; unfold b0, ne2000_update_irq; ne_cbn; sizes; try done; lia|done|clear; Z.to_euclidean_division_equations; lia|lia|unfold b0, ne2000_update_irq; ne_cbn; lia|].
  eexists a', (ne2000_update_irq b0), r, _, b2. split; [exact Ea|]. split; [done|]. split; [exact Er|]. split; [unfold b0, ne2000_update_irq; ne_cbn; by rewrite Z.lor_spec, orb_true_r|]. split; [done|]. split; [exact Ef|].
  change (curpag (ne2000_update_irq b0)) with (next_page b (alen stored)). fold d. rewrite <- Hd. unfold b0, ne2000_update_irq. ne_cbn. unfold m. apply ring_read_stored; lia.
Qed.
End Traffic.

(** ** Examples *)

#[local] Existing Instances Pic.pic_sink Pic.pic_sink_laws.

(** A network that keeps what is sent and has a list of packets to give. *)
Definition Wire : Type := list (list Z) * list (list Z).
Definition wire : Network Wire := {|
  send_packet d v := (v.1 ++ [d], v.2);
  read_packet v := match v.2 with [] => (None, v) | p :: l => (Some (p ++ replicate (2048 - length p) 0, alen p), (v.1, l)) end |}.
#[local] Existing Instance wire.

Definition pic0 : outcome Pic.PicState2 := Done Pic.i8259_init.
Definition blank : NE2000State (outcome Pic.PicState2) :=
  mkNe 0 0 0 0 0 0 0 0 0 0 0 0 0 0 (replicate 6 0) 0 (replicate 8 0) 9 pic0 [0x52; 0x54; 0x00; 0x78; 0x9a; 0xbc] (replicate (Z.to_nat NE2000_MEM_SIZE) 0).
Lemma blank_ok : card_ok blank.
Proof.
  assert (Hm : alen (mem blank) = NE2000_MEM_SIZE) by (unfold alen, blank; cbn [mem]; rewrite length_replicate, Z2Nat.id; [reflexivity|discriminate]).
  assert (Hw : forall w, 0 <= w -> inw w 0) by (intros w Hw; pose proof (pow2_pos w Hw); unfold inw; lia).
  constructor; [exact Hm|reflexivity|reflexivity|reflexivity|apply Hw; lia|apply Hw; lia|apply Hw; lia|apply Z.le_refl|apply Z.le_refl|cbn; split; lia|].
  exists Pic.i8259_init. split; [reflexivity|split; apply Pic.pic_reset_wf].
Qed.
(** Ready, with a ring of pages 0x46 to 0x7f, the last of which is next. *)
Definition ready : NE2000State (outcome Pic.PicState2) := blank <| cmd := 0x22 |> <| start := 0x4600 |> <| stop := 0x8000 |> <| boundary := 0x50 |> <| curpag := 0x7f |> <| dcfg := 0x49 |> <| rxcr := 0x10 |> <| imr := 0x03 |>.
Lemma ready_ok : card_ok ready.
Proof. destruct blank_ok. unfold ready. constructor; ne_cbn; try assumption; [unfold inw; cbn; lia|lia]. Qed.
Lemma ready_ring : ring_ok ready.
Proof. unfold ready. constructor; ne_cbn; unfold NE2000_PMEM_START, NE2000_MEM_SIZE, NE2000_PMEM_END, NE2000_PMEM_SIZE, NE2000_PMEM_START; [lia|lia|split; reflexivity|lia|lia]. Qed.
Definition words0 : list Z := replicate 150 0x4241.
Definition buf0 : list Z := word_bytes words0 ++ replicate 100 0xee.
Lemma packet_crosses_witness : let packet := take (Z.to_nat 299) (word_bytes words0) in let stored := padded packet in
  exists a' b1 r data b2,
    driver_send 0x40 299 words0 (ready, ([], [])) = Done (a', send_packet packet (([], []) : Wire)) /\ Z.testbit (isr a') 1 = true /\
    ne2000_receive buf0 299 ready = Done b1 /\ Z.testbit (isr b1) 0 = true /\ curpag b1 = next_page ready (alen stored) /\
    driver_fetch (256 * curpag ready) 152 (b1, (([], []) : Wire)) = Done (le_words data, b2) /\
    take (Z.to_nat (alen stored + 4)) data = [r; curpag b1; u8 (alen stored + 4); u8 (Z.shiftr (alen stored + 4) 8)] ++ stored.
Proof.
  refine (packet_crosses ready ready ([], []) ([], []) 0x40 299 words0 buf0 152 ready_ok _ _ _ _ _ _ _ ready_ok _ ready_ring _ _ _ _ _ _).
  all: vm_compute; first [reflexivity|discriminate|split; first [reflexivity|discriminate]].
Defined.

(** The registers of the ring are believed.  A page beyond the memory overruns it when a
    packet arrives, and a ring that ends before the next page keeps the loop of
    [ne2000_receive] running for ever. *)
Example ring_overrun : ne2000_receive buf0 299 (ready <| curpag := 0xc0 |> <| boundary := 0xff |>) = Stuck OutOfBounds.
Proof. by vm_compute. Qed.
Lemma ring_never_ends st sp m d i z fuel : 0 < z -> sp < i -> i <= alen m -> 0 <= i -> ring_write fuel st sp m d i z = Stuck Diverges.
Proof.
  revert m d. induction fuel as [|fuel IH]; intros m d Hz Hi Hm Hi0; cbn [ring_write]; destruct (Z.leb_spec z 0); try lia; [done|]. cbv zeta. destruct (Z.leb_spec i sp); [lia|].
  rewrite Z.min_r by lia. change (take (Z.to_nat 0) d) with (@nil Z). change (drop (Z.to_nat 0) d) with d. assert (H0' : alen (@nil Z) = 0) by done. rewrite copy_into_in, bind_of_done by lia. rewrite Z.add_0_r, Z.sub_0_r. destruct (Z.eqb_spec i sp); [lia|].
  apply IH; try done. rewrite overwrite_length; [done|done|]. change (alen []) with 0. lia.
Qed.
Example ring_hang : ne2000_receive buf0 299 (ready <| curpag := 0x90 |> <| boundary := 0xa0 |>) = Stuck Diverges.
Proof. by vm_compute. Qed.
End Ne2000.
